(* ===== verification/_CoqProject ===== *)
-Q . S2P
Prelude.v
Endian.v
CLayout.v
VmlinuxAmd64.v
VmlinuxArm64.v
KernelMem.v
CoreRead.v
BpfMaps.v
BpfTracing.v
Headers.v
BpfRuntime.v
Intervals.v
Inspector.v
FeatureSwitch.v
SetTuple.v
SocketLatency.v
NetifTxLatency.v
KernelLatency.v
Softirq.v
VirtcmdLatency.v
BioLatency.v
PacketLoss.v
TcpEvents.v
Flow.v
Kprobe.v
EventLayout.v
IpCacheService.v
IpCacheInformers.v
IpCacheAgent.v
IpCacheSystem.v
AgentTuple.v
ProbeServer.v
AgentLifecycle.v
Kallsyms.v
AgentPacketLoss.v
GoStrings.v
GoFloat.v
AgentMetrics.v
AgentKernel.v
AgentSoftirq.v
AgentSocket.v
AgentFlow.v
GoSha1.v
GoResult.v
GoNet.v
NettopCache.v
NettopPods.v
AgentProc.v
TaskController.v
TaskAgent.v
TaskSystem.v
TaskCounts.v
TaskChannels.v
TaskMesh.v
TaskLiveness.v
SkoopRoute.v
SkoopIptables.v
SkoopXml.v
SkoopCluster.v
SkoopService.v
SkoopPolicy.v
SkoopAssert.v
SkoopDiagnose.v
SkoopNode.v
SkoopCollect.v
SkoopFlannel.v
SkoopFlannelExample.v
SkoopFlannelRun.v
SkoopFlannelPath.v
SkoopFlannelFacts.v
SkoopCalico.v
SkoopCalicoFacts.v
