(* ===== verification/Prelude.v ===== *)
(** A verification library for KubeSkoop's network monitoring and diagnosis.

    * The program

    KubeSkoop's exporter watches a Kubernetes node's network.  eBPF programs
    (src/bpf) hook kernel functions and trace points, measure latencies or
    note losses, and hand event records and counter maps to an agent
    (src/pkg/exporter), which starts and stops them by configuration, turns
    events into log lines and counters into Prometheus metrics, and names the
    addresses it shows by a cache of the cluster's pods and nodes that it
    replicates from a controller (src/pkg/controller) and by a table of the
    pods on its own node (nettop).  The controller also has agents run tasks:
    pings between nodes and captures.  A second command, skoop
    (src/pkg/skoop), diagnoses a connection: it collects routes, rules, tables
    and links from the nodes, follows the packet through them by simulation,
    as a plugin for the cluster's network takes it to go, and reports what
    looks wrong on the way.

    * Method

    Code is translated into executable functions.  A BPF program is a function
    in the monad [BpfRuntime.prog] over the state of its maps, an environment
    (kernel memory, time, CPU, task) and its output; a history is a list of
    calls with their environments, on any CPUs in any order.  Integers are in
    Z and wrapped where the code's are ([wrap], [u8] to [u64]).  Go code is
    state passing; a panic or an error is a value; goroutines are step
    functions or relations whose interleaving is a list or a path.  What is
    not in the repository is an interface with laws (type classes) that the
    theorems assume and an example instance satisfies: BPF maps ([BpfMaps]),
    LRU caches ([Kallsyms], [AgentPacketLoss]), the Kubernetes informers and
    gRPC streams ([IpCacheInformers], [IpCacheService]), the probes under the
    probe manager ([ProbeServer]), the outcome of loading a BPF object
    ([AgentLifecycle.attempt]), caches with expiry and the container runtime
    ([NettopCache], [NettopPods]), the commands of tasks ([TaskAgent]), label
    selectors ([SkoopPolicy]), the order in which a map is ranged over
    ([SkoopCluster]), the output of collectors ([SkoopCollect]), the cloud
    behind a node ([SkoopFlannel], [SkoopCalico]).  What the code uses of Go's
    standard library is modelled: [GoStrings] (strings, strconv, fmt), [GoNet]
    (net), [GoResult] (errors and panics, sort.SliceStable), [GoFloat]
    (ParseFloat, float64 of integers and narrowing, by IEEE 754's rounding), [GoSha1] (crypto/sha1,
    encoding/hex) and the flag package in [SkoopService].

    * Ground: the language, the headers, the kernel

    - [Prelude]: machine integers, byte strings, list lemmas, tactics, hints.
    - [CLayout]: struct layout of C (alignment, bit-fields, packed, unions).
    - [VmlinuxAmd64], [VmlinuxArm64]: the kernel types the programs reach,
      member for member, from headers/amd64/vmlinux.h and arm64/vmlinux.h.
    - [Endian]: headers/bpf/bpf_endian.h.  The constant and the run-time
      conversions agree and are involutive.
    - [KernelMem]: kernel memory, bpf_probe_read, BPF_CORE_READ as a pointer
      chase, and [KernelLayout], the field positions with one instance for
      each of the two vmlinux.h.
    - [CoreRead]: bpf_core_read.h.  The variadic macros are expanded as the
      preprocessor does and run; the result is the pointer chase of
      [KernelMem] ([core_read_chases]).  The bit-field macros return the
      field's bits on both byte orders ([bitfield_reads], [bitfield_member]).
    - [BpfTracing]: bpf_tracing.h, the registers behind the arguments of a
      probed function ([pt_regs_arguments]).
    - [Headers]: errno-base.h, errno.h, common.h, bpf_helpers.h.
    - [BpfMaps], [BpfRuntime]: map types, helpers, programs and histories.

    * The BPF programs

    - [Inspector], [SetTuple], [FeatureSwitch]: inspector.h and
      feature-switch.h.  Packet parsing stays inside the packet
      ([set_flow_tuple4_safe]) and inverts the wire format
      ([set_flow_tuple4_parses], [set_tuple_ipv4], [set_tuple_ipv6]).
    - [Intervals]: what the latest matching call of a history recorded.
    - [SocketLatency], [KernelLatency], [Softirq], [NetifTxLatency],
      [VirtcmdLatency], [BioLatency]: the latency probes.  Soundness: every
      event reports the time between two calls of the history on the same
      object.  Completeness, where it holds: a delay above the threshold is
      reported.
    - [PacketLoss], [TcpEvents], [Flow], [Kprobe]: the other programs.

    * The agent

    - [EventLayout]: every event struct's C layout and generated Go struct
      agree ([event_decoding]).
    - [AgentLifecycle], [AgentKernel], [AgentSoftirq], [AgentPacketLoss],
      [AgentFlow]: starting and stopping probes, with failures.
    - [AgentMetrics], [AgentSocket], [AgentFlow], [AgentSoftirq],
      [AgentPacketLoss]: counters and collectors.  The end-to-end theorems
      ([sklat_metrics_end_to_end], [softirq_end_to_end], [flow_export_exact],
      [packetloss_end_to_end]) run the kernel program and the agent together
      and say what the exported numbers count, with the rounding to float64.
    - [Kallsyms]: symbol lookup is total and finds the containing symbol.
    - [AgentTuple]: ports and labels shown.
    - [AgentProc]: the collectors over /proc (procsnmp, procnetstat,
      procsoftnet, procsock, procnetdev, procipvs, procfd, proctcpsummary).
      Reading inverts printing ([netstats_parse_print]); what is exported for
      a namespace is what the file of its process says ([snmp_exact],
      [netdev_exact], [tcp_states], [softnet_sums]), at most two seconds ago
      ([snmp_fresh]).
    - [ProbeServer]: a reload leaves exactly the configured probes running.

    * The pods of the agent's node

    - [NettopCache]: nettop/cache.go, interface.go, netns.go, cgroup.go,
      docker.go, pod.go.  Pointers are into a heap that grows: every pointer
      that a lookup returns is to an entity ([nettop_pointers]).  A lookup by
      namespace or process gives the entity last stored for it that has not
      expired ([lookup_exact]), and a refresh stores exactly what the runtime
      and the files say ([refresh_exact]).
    - [NettopPods]: nettop/k8s.go.  The API server's and the cgroups' news of
      a pod are joined, in whatever order they come ([pod_joined]); a
      namespace that a collection drops does not come back ([netns_lost]), and a deleted pod
      stays ([pods_removed]).

    * Tasks

    - [TaskController]: the operations of controller/service (agent.go,
      pingmesh.go, capture.go, utils.go).  [TaskAgent]: task-agent (agent.go,
      ping.go, capture.go); the latencies uploaded are those printed by ping,
      up to the rounding of their formats ([latency_read]).
    - [TaskSystem]: requests, streams, waiting goroutines, agents and uploads
      as one system with channels, in every interleaving.  [TaskCounts] (a
      task is in at most one place) and [TaskChannels] (what the channels
      hold) are its invariants.
    - [TaskMesh]: nothing panics ([tasks_safe]); a mesh that returns has for
      each pair what an agent's ping printed, or the value for "unreachable"
      ([mesh_exact]).  [TaskLiveness]: after its deadline a mesh returns,
      unless a send blocks ([mesh_returns], [mesh_stuck]); answers that come
      before someone waits for them are lost ([fast_answer_lost], [capture_answer_lost]).

    * The IP cache

    - [IpCacheService]: the change log and its watch streams.  A stream
      delivers the log without gap or repetition ([watch_stream_exact]) and
      catches up ([tick_catches_up]).
    - [IpCacheInformers]: the log describes the live objects.
    - [IpCacheAgent]: the operations of the agent.  [IpCacheSystem]: its runs
      with the controller, with streams that break and controllers that
      restart.  The agent's copy is the replay of the log up to its revision
      ([agent_replicates]), so an address is shown with the object that has it
      ([agent_names_live_objects]).

    * The diagnosis

    - [SkoopRoute]: netstack/route.go.  The router finds the route of policy
      routing by longest prefix ([route_correct], [route_longest_prefix]);
      choosing a source address can follow a nil pointer ([route_src_sound]).
    - [SkoopIptables]: netstack/iptables.go, netfilter.go, ipset.go.
      [evaluate] goes through a table as the kernel does, rule by rule with
      calls that return; matches and targets are the code's.  The code's walk
      with its stack refines it as long as no call made by a user chain comes
      back ([trace_refines], [trace_flat_total]), and differs otherwise
      ([nested_calls_wrong]); hooks combine tables in order
      ([hook_in_order]); conditions: [multiport_exact], [mark_clamped].
    - [SkoopXml]: reading the XML dumps.  What survives printing and reading
      ([parse_print], [ipset_parse_print]), and from the dump to the verdict of
      the tables that iptables(8) gives each hook ([dump_verdict], [unknown_module_disables]).
    - [SkoopCluster]: k8s/ip_cache.go, what an address belongs to.
    - [SkoopService]: netstack/ipvs.go and service/service.go.  Reading
      ipvsadm's lines for IPv4 services inverts writing them
      ([ipvs_parse_print]); the comparison with the cluster's endpoints is exact ([validate_exact]).
    - [SkoopPolicy]: plugin/networkpolicy.go against the documented meaning of
      network policies ([egress_denies_exact], [policy_divergences]).
    - [SkoopAssert]: assertions/netstack.go, netstack/neigh.go: when a check
      raises no suspicion ([assert_route_exact], [assert_forward_exact]).
    - [SkoopDiagnose]: skoop/diagnose.go, nodemanager, model/path.go.  The
      queue goes breadth first and ends if the forwarding does
      ([diagnose_by_levels], [links_breadth_first]); nodes are made once.
    - [SkoopNode]: plugin/base.go, plugin/simple.go, model/netnode.go,
      model/action.go, assertions/k8s.go: nodes and links in a heap, and a
      monad over it in which the plugins are written.
    - [SkoopCollect]: collector/manager/manager.go, from dumps to namespaces.
    - [SkoopFlannel]: plugin/flannel.go, the handlers of pods and hosts and
      the diagnosis that is run over them.  [SkoopFlannelRun] says what each
      operation does to nodes and links; with it [SkoopFlannelPath] shows that
      the diagnosis of a connection between pods on two nodes ends with the
      path pod, node, node, pod, whatever routes and rules the nodes have, if
      evaluating their tables ends ([flannel_path]), and what it means for routes, forwarding, neighbours
      and sockets that no node on it has a suspicion ([flannel_clean]).
      The latter also shows what the checks leave open: local routes, and the
      hooks behind a tunnel.
      [SkoopFlannelExample] is a cluster; [SkoopFlannelFacts] has two cases in
      which the plugin misses something ([host_route_unchecked],
      [path_panics]).
    - [SkoopCalico]: plugin/calico.go.  [SkoopCalicoFacts]: what arrives at
      the next node is what was sent, but for NAT, through the tunnel exactly
      when the mode of the destination's pool says so ([calico_hop]); names of interfaces fit
      ([calico_name_length]); runs on a cluster in both modes
      ([calico_modes]); where the plugin and the network differ
      ([calico_cross_subnet], [calico_lost]).

    * Fuel and bounds

    Fuel appears in [IpCacheService.findNext_loop], [Kallsyms.search] (a
    binary search, given the length of the table plus one) and
    [Kallsyms.hex_upper] (16 digits of a 64-bit number); the theorems about
    them show that it suffices.  The loops of the diagnosis that need not end
    ([SkoopIptables.trace_loop], [SkoopDiagnose.queue_loop],
    [SkoopPolicy.CheckNetworkPolicy]) return nothing without fuel, and so do
    the plugins' checks of netfilter, which run the first; the
    theorems state under which condition there is an amount from which on the
    result is always the same.  [GoSha1.chunks] has the length of the message,
    which is at least the number of its blocks.  [GoStrings.dec] has 20 digits and
    [GoNet.hex] 16, enough for 64 bits.  Counters are exact as long as they do
    not exceed their width, which the theorems state as a bound on the history.

    * Not modelled

    - BPF verification, just-in-time compilation and the perf ring buffer's
      losses: the theorems speak of the events handed over.
    - Memory ordering and preemption inside a handler: a handler runs as one
      step, except where the code's interleaving is the point (the watch
      streams, the perf goroutine of packet loss, the tasks, the lock of the
      pod cache).
    - Loading, netlink, HTTP, gRPC, files and the container runtime: I/O.
    - The agent's side of tcpretrans, tcpreset and biolatency, which repeat
      the patterns modelled, and the collectors over netlink, sysfs and
      fmt.Sscanf.
    - Of the diagnosis: the cloud's own network, collecting data on a node
      with commands and netlink, drawing, and the texts of messages.
    - The sinks, the tools for kernel type information, the controller's HTTP
      handlers, database and Prometheus queries, the web UI, generated code,
      and BPF files without a program (flowcount.c, nflatancy.c, rxkernel.c,
      tasklatency.c, txkernel.c) or with one that is empty and never loaded
      (netns.c). *)

From stdpp Require Export base numbers list gmap strings.
From Stdlib Require Export ZArith Lia.

#[global] Open Scope Z_scope.

Declare Scope bpf_scope.
Delimit Scope bpf_scope with bpf.

(** ** Machine integers

    A [w]-bit C integer is a [Z]; every arithmetic result is brought back to
    its width with [wrap], and a signed reading is [sext]. *)

Definition wrap (w z : Z) : Z := z mod 2 ^ w.

Definition sext (w z : Z) : Z :=
  let u := wrap w z in if u <? 2 ^ (w - 1) then u else u - 2 ^ w.

Abbreviation u8 z := (wrap 8 z).
Abbreviation u16 z := (wrap 16 z).
Abbreviation u32 z := (wrap 32 z).
Abbreviation u64 z := (wrap 64 z).
Abbreviation s32 z := (sext 32 z).

(** The value fits in [w] unsigned bits. *)
Definition fits (w z : Z) : Prop := 0 <= z < 2 ^ w.

(** ** Bytes, little-endian scalars and byte buffers

    Memory contents are lists of bytes (each a [Z] below 256).  Both build
    targets of the repository (x86-64 and arm64) are little-endian. *)

Definition is_byte (b : Z) : Prop := fits 8 b.

Fixpoint le_val (bs : list Z) : Z :=
  match bs with
  | [] => 0
  | b :: bs => b + 256 * le_val bs
  end.

Fixpoint le_bytes (n : nat) (z : Z) : list Z :=
  match n with
  | O => []
  | S n => z mod 256 :: le_bytes n (z / 256)
  end.

(** [splice l i new] overwrites [l] from index [i] on with [new]: what a
    store of [length new] bytes at offset [i] does to a buffer. *)
Definition splice (l : list Z) (i : nat) (new : list Z) : list Z :=
  take i l ++ new ++ drop (i + length new) l.

(** [slice l i n] is the [n] bytes of [l] from index [i]. *)
Definition slice (l : list Z) (i n : nat) : list Z := take n (drop i l).

(** ** Tactics *)

(** Split a conjunction of hypotheses and goals without unfolding. *)
Ltac split_and_all :=
  repeat match goal with
  | H : _ ∧ _ |- _ => destruct H
  | |- _ ∧ _ => split
  end.

(** Turn the boolean comparisons of the model into the propositions that
    they decide. *)
Ltac bool_to_prop :=
  repeat match goal with
  | H : context [_ >? _] |- _ => rewrite Z.gtb_ltb in H
  | H : (_ <? _) = true |- _ => apply Z.ltb_lt in H
  | H : (_ <? _) = false |- _ => apply Z.ltb_ge in H
  | H : (_ <=? _) = true |- _ => apply Z.leb_le in H
  | H : (_ <=? _) = false |- _ => apply Z.leb_gt in H
  | H : (_ =? _) = true |- _ => apply Z.eqb_eq in H
  | H : (_ =? _) = false |- _ => apply Z.eqb_neq in H
  | H : _ && _ = true |- _ => apply andb_true_iff in H; destruct H
  | H : _ || _ = false |- _ => apply orb_false_iff in H; destruct H
  | H : negb _ = true |- _ => apply negb_true_iff in H
  | H : negb _ = false |- _ => apply negb_false_iff in H
  end.

(** Case analysis on the innermost test or match that blocks a goal. *)
Ltac destr_step :=
  match goal with
  | |- context [if ?b then _ else _] =>
      lazymatch b with
      | context [if _ then _ else _] => fail
      | context [match _ with _ => _ end] => fail
      | _ => let E := fresh "E" in destruct b eqn:E
      end
  | |- context [match ?x with _ => _ end] =>
      lazymatch x with
      | context [match _ with _ => _ end] => fail
      | _ => let E := fresh "E" in destruct x eqn:E
      end
  end.

Ltac destr := repeat (destr_step; simpl in *; try done); bool_to_prop.

Create HintDb bpf.
Create Rewrite HintDb bpf.

(** ** Generic lemmas *)

Lemma wrap_fits (w z : Z) : 0 <= w -> fits w (wrap w z).
Proof. intros. apply Z.mod_pos_bound. lia. Qed.

Lemma wrap_small (w z : Z) : fits w z -> wrap w z = z.
Proof. apply Z.mod_small. Qed.

Lemma wrap_idem (w z : Z) : wrap w (wrap w z) = wrap w z.
Proof. unfold wrap. by rewrite Zmod_mod. Qed.

Lemma fits_mono (w w' z : Z) : 0 <= w <= w' -> fits w z -> fits w' z.
Proof.
  intros Hw [? ?]. split; [done|].
  pose proof (Z.pow_le_mono_r 2 w w'). lia.
Qed.

(** Unsigned subtraction of an earlier time stamp is the true difference. *)
Lemma wrap_sub_le (w a b : Z) :
  0 <= w -> fits w a -> 0 <= b <= a -> wrap w (a - b) = a - b.
Proof. intros ? [? ?] ?. apply wrap_small. split; lia. Qed.

(** ... and of a later one it is the difference modulo [2^w]. *)
Lemma wrap_sub_gt (w a b : Z) :
  0 <= a < b -> b < 2 ^ w -> wrap w (a - b) = 2 ^ w + a - b.
Proof.
  intros. unfold wrap. rewrite <- (Z_mod_plus_full _ 1), Z.mul_1_l.
  rewrite Z.mod_small; lia.
Qed.

Lemma wrap_0 (w : Z) : wrap w 0 = 0.
Proof. apply Zmod_0_l. Qed.

Lemma sext_small (w z : Z) : 0 < w -> 0 <= z < 2 ^ (w - 1) -> sext w z = z.
Proof.
  intros Hw Hz. unfold sext. rewrite wrap_small.
  - destruct (Z.ltb_spec z (2 ^ (w - 1))); lia.
  - split; [lia|]. pose proof (Z.pow_lt_mono_r 2 (w - 1) w). lia.
Qed.

Lemma le_val_bound (bs : list Z) :
  Forall is_byte bs -> 0 <= le_val bs < 2 ^ (8 * Z.of_nat (length bs)).
Proof.
  induction 1 as [|b bs [? ?] _ IH]; simpl le_val; [simpl; lia|].
  rewrite length_cons, Nat2Z.inj_succ.
  replace (8 * Z.succ (Z.of_nat (length bs))) with (8 + 8 * Z.of_nat (length bs)) by lia.
  rewrite Z.pow_add_r by lia. lia.
Qed.

Lemma le_bytes_length (n : nat) (z : Z) : length (le_bytes n z) = n.
Proof. revert z. induction n; intros; simpl; congruence. Qed.

Lemma le_bytes_byte (n : nat) (z : Z) : Forall is_byte (le_bytes n z).
Proof.
  revert z. induction n; intros; simpl; constructor; [|done].
  apply Z.mod_pos_bound. lia.
Qed.

Lemma le_val_bytes (n : nat) (z : Z) :
  le_val (le_bytes n z) = wrap (8 * Z.of_nat n) z.
Proof.
  revert z. induction n as [|n IH]; intros z.
  - unfold wrap. simpl. by rewrite Z.mod_1_r.
  - simpl le_bytes. simpl le_val. rewrite IH. unfold wrap.
    replace (8 * Z.of_nat (S n)) with (8 + 8 * Z.of_nat n) by lia.
    rewrite Z.pow_add_r by lia. change (2 ^ 8) with 256.
    rewrite Z.rem_mul_r by lia. lia.
Qed.

Lemma le_bytes_val (bs : list Z) :
  Forall is_byte bs -> le_bytes (length bs) (le_val bs) = bs.
Proof.
  induction 1 as [|b bs [? ?] _ IH]; [done|]. simpl.
  change (2 ^ 8) with 256 in *.
  replace (b + 256 * le_val bs) with (b + le_val bs * 256) by lia.
  rewrite Z_mod_plus_full, Z.mod_small by lia.
  rewrite Z.div_add, Z.div_small, Z.add_0_l by lia. by rewrite IH.
Qed.

Lemma le_val_zeros (n : nat) : le_val (replicate n 0) = 0.
Proof. induction n; simpl; lia. Qed.

Lemma le_val_app (a b : list Z) :
  le_val (a ++ b) = le_val a + 2 ^ (8 * Z.of_nat (length a)) * le_val b.
Proof.
  induction a as [|x a IH]; [simpl; lia|]. simpl le_val. rewrite IH.
  rewrite length_cons, Nat2Z.inj_succ.
  replace (8 * Z.succ (Z.of_nat (length a))) with (8 + 8 * Z.of_nat (length a)) by lia.
  rewrite Z.pow_add_r by lia. lia.
Qed.

Lemma splice_length (l : list Z) (i : nat) (new : list Z) :
  (i + length new <= length l)%nat -> length (splice l i new) = length l.
Proof.
  intros. unfold splice. rewrite !length_app, length_take, length_drop. lia.
Qed.

Lemma slice_splice_eq (l : list Z) (i : nat) (new : list Z) :
  (i + length new <= length l)%nat ->
  slice (splice l i new) i (length new) = new.
Proof.
  intros. unfold slice, splice.
  rewrite drop_app_length' by (rewrite length_take; lia).
  by rewrite take_app_length.
Qed.

Lemma slice_length (l : list Z) (i n : nat) :
  (i + n <= length l)%nat -> length (slice l i n) = n.
Proof. intros. unfold slice. rewrite length_take, length_drop. lia. Qed.

Lemma slice_byte (l : list Z) (i n : nat) : Forall is_byte l -> Forall is_byte (slice l i n).
Proof. intros. by apply Forall_take, Forall_drop. Qed.

(** Reading the field [x] of a record laid out as [a ++ x ++ b]. *)
Lemma slice_field (a x b : list Z) (i n : nat) :
  i = length a -> n = length x -> slice (a ++ x ++ b) i n = x.
Proof. intros -> ->. unfold slice. by rewrite drop_app_length, take_app_length. Qed.

Lemma splice_byte (l : list Z) (i : nat) (new : list Z) :
  Forall is_byte l -> Forall is_byte new -> Forall is_byte (splice l i new).
Proof.
  intros. unfold splice. apply Forall_app. split; [by apply Forall_take|].
  apply Forall_app. split; [done|by apply Forall_drop].
Qed.

(** The value of a byte range is a bit range of the value. *)
Lemma le_val_drop (l : list Z) (i : nat) :
  Forall is_byte l -> (i <= length l)%nat ->
  le_val (drop i l) = le_val l / 2 ^ (8 * Z.of_nat i).
Proof.
  intros Hl Hi. rewrite <- (take_drop i l) at 2. rewrite le_val_app, length_take, Nat.min_l by lia.
  pose proof (le_val_bound (take i l) (Forall_take _ _ _ Hl)) as Hb.
  rewrite length_take, Nat.min_l in Hb by lia.
  rewrite (Z.mul_comm (2 ^ _)), Z.div_add, Z.div_small by lia. lia.
Qed.

Lemma le_val_take (l : list Z) (n : nat) :
  Forall is_byte l -> (n <= length l)%nat ->
  le_val (take n l) = le_val l mod 2 ^ (8 * Z.of_nat n).
Proof.
  intros Hl Hn. rewrite <- (take_drop n l) at 2. rewrite le_val_app, length_take, Nat.min_l by lia.
  pose proof (le_val_bound (take n l) (Forall_take _ _ _ Hl)) as Hb.
  rewrite length_take, Nat.min_l in Hb by lia.
  rewrite (Z.mul_comm (2 ^ _)), Z.mod_add, Z.mod_small by lia. done.
Qed.

Lemma le_val_slice (l : list Z) (i n : nat) :
  Forall is_byte l -> (i + n <= length l)%nat ->
  le_val (slice l i n) = (le_val l / 2 ^ (8 * Z.of_nat i)) mod 2 ^ (8 * Z.of_nat n).
Proof.
  intros Hl Hn. unfold slice. rewrite le_val_take; [|by apply Forall_drop|rewrite length_drop; lia].
  by rewrite le_val_drop by (done || lia).
Qed.

Lemma zeros_byte (n : nat) : Forall is_byte (replicate n 0).
Proof. apply Forall_replicate. split; lia. Qed.

#[export] Hint Resolve wrap_fits le_bytes_byte zeros_byte : bpf.
#[export] Hint Rewrite wrap_0 wrap_idem le_val_zeros : bpf.
