(* ===== verification/Endian.v ===== *)
(** Byte order conversions of src/bpf/headers/bpf/bpf_endian.h.

    [___bpf_mvb] and the [___bpf_swabN] macros are translated with C's integer
    promotions; the compiler builtins [__builtin_bswapN] reverse the bytes of
    the object representation.  The theorems show that the two ways the
    header converts a value (constant expression or run-time builtin) agree,
    and that on the little-endian targets a big-endian field read from a
    packet comes out in host order exactly once converted. *)

From S2P Require Import Prelude.

(** [__BYTE_ORDER__] as the compiler defines it. *)
Inductive byte_order := ORDER_LITTLE_ENDIAN | ORDER_BIG_ENDIAN.

#[global] Instance byte_order_eq_dec : EqDecision byte_order.
Proof. solve_decision. Defined.

(** Shifts on a [b]-bit unsigned operand happen after integer promotion: a
    16-bit operand is shifted as an [int], wider ones keep their width. *)
Definition promoted (b : Z) : Z := Z.max b 32.

Definition ___bpf_mvb (x b n m : Z) : Z :=
  let w := promoted b in
  let x := wrap b x in
  let x := wrap w (Z.shiftl x (b - (n + 1) * 8)) in
  let x := Z.shiftr x (b - 8) in
  wrap w (Z.shiftl x (m * 8)).

Definition ___bpf_swab16 (x : Z) : Z :=
  u16 (Z.lor (___bpf_mvb x 16 0 1) (___bpf_mvb x 16 1 0)).

Definition ___bpf_swab32 (x : Z) : Z :=
  u32 (Z.lor (Z.lor (Z.lor
        (___bpf_mvb x 32 0 3) (___bpf_mvb x 32 1 2))
        (___bpf_mvb x 32 2 1)) (___bpf_mvb x 32 3 0)).

Definition ___bpf_swab64 (x : Z) : Z :=
  u64 (Z.lor (Z.lor (Z.lor (Z.lor (Z.lor (Z.lor (Z.lor
        (___bpf_mvb x 64 0 7) (___bpf_mvb x 64 1 6))
        (___bpf_mvb x 64 2 5)) (___bpf_mvb x 64 3 4))
        (___bpf_mvb x 64 4 3)) (___bpf_mvb x 64 5 2))
        (___bpf_mvb x 64 6 1)) (___bpf_mvb x 64 7 0)).

(** The compiler's [__builtin_bswapN] on an [n]-byte operand. *)
Definition __builtin_bswap (n : nat) (x : Z) : Z := le_val (rev (le_bytes n x)).

Definition __bpf_htons (o : byte_order) (x : Z) : Z :=
  match o with ORDER_LITTLE_ENDIAN => __builtin_bswap 2 x | ORDER_BIG_ENDIAN => x end.
Definition __bpf_ntohs (o : byte_order) (x : Z) : Z :=
  match o with ORDER_LITTLE_ENDIAN => __builtin_bswap 2 x | ORDER_BIG_ENDIAN => x end.
Definition __bpf_constant_htons (o : byte_order) (x : Z) : Z :=
  match o with ORDER_LITTLE_ENDIAN => ___bpf_swab16 x | ORDER_BIG_ENDIAN => x end.
Definition __bpf_constant_ntohs (o : byte_order) (x : Z) : Z :=
  match o with ORDER_LITTLE_ENDIAN => ___bpf_swab16 x | ORDER_BIG_ENDIAN => x end.
Definition __bpf_htonl (o : byte_order) (x : Z) : Z :=
  match o with ORDER_LITTLE_ENDIAN => __builtin_bswap 4 x | ORDER_BIG_ENDIAN => x end.
Definition __bpf_ntohl (o : byte_order) (x : Z) : Z :=
  match o with ORDER_LITTLE_ENDIAN => __builtin_bswap 4 x | ORDER_BIG_ENDIAN => x end.
Definition __bpf_constant_htonl (o : byte_order) (x : Z) : Z :=
  match o with ORDER_LITTLE_ENDIAN => ___bpf_swab32 x | ORDER_BIG_ENDIAN => x end.
Definition __bpf_constant_ntohl (o : byte_order) (x : Z) : Z :=
  match o with ORDER_LITTLE_ENDIAN => ___bpf_swab32 x | ORDER_BIG_ENDIAN => x end.
Definition __bpf_be64_to_cpu (o : byte_order) (x : Z) : Z :=
  match o with ORDER_LITTLE_ENDIAN => __builtin_bswap 8 x | ORDER_BIG_ENDIAN => x end.
Definition __bpf_cpu_to_be64 (o : byte_order) (x : Z) : Z :=
  match o with ORDER_LITTLE_ENDIAN => __builtin_bswap 8 x | ORDER_BIG_ENDIAN => x end.
Definition __bpf_constant_be64_to_cpu (o : byte_order) (x : Z) : Z :=
  match o with ORDER_LITTLE_ENDIAN => ___bpf_swab64 x | ORDER_BIG_ENDIAN => x end.
Definition __bpf_constant_cpu_to_be64 (o : byte_order) (x : Z) : Z :=
  match o with ORDER_LITTLE_ENDIAN => ___bpf_swab64 x | ORDER_BIG_ENDIAN => x end.

(** The dispatch on [__builtin_constant_p(x)] is the argument [const]. *)
Definition bpf_htons (o : byte_order) (const : bool) (x : Z) : Z :=
  if const then __bpf_constant_htons o x else __bpf_htons o x.
Definition bpf_ntohs (o : byte_order) (const : bool) (x : Z) : Z :=
  if const then __bpf_constant_ntohs o x else __bpf_ntohs o x.
Definition bpf_htonl (o : byte_order) (const : bool) (x : Z) : Z :=
  if const then __bpf_constant_htonl o x else __bpf_htonl o x.
Definition bpf_ntohl (o : byte_order) (const : bool) (x : Z) : Z :=
  if const then __bpf_constant_ntohl o x else __bpf_ntohl o x.
Definition bpf_cpu_to_be64 (o : byte_order) (const : bool) (x : Z) : Z :=
  if const then __bpf_constant_cpu_to_be64 o x else __bpf_cpu_to_be64 o x.
Definition bpf_be64_to_cpu (o : byte_order) (const : bool) (x : Z) : Z :=
  if const then __bpf_constant_be64_to_cpu o x else __bpf_be64_to_cpu o x.

(** Big-endian value of a byte sequence: what a packet field means. *)
Definition be_val (bs : list Z) : Z := le_val (rev bs).

(** ** Lemmas *)

Lemma lor_disjoint (a b k : Z) :
  0 <= k -> 0 <= b < 2 ^ k -> Z.lor (a * 2 ^ k) b = a * 2 ^ k + b.
Proof.
  intros Hk Hb. rewrite <- Z.lxor_lor, <- Z.add_nocarry_lxor; [done| |].
  all: apply Z.bits_inj'; intros i Hi; rewrite Z.land_spec, Z.bits_0.
  all: destruct (Z.lt_ge_cases i k).
  all: try (rewrite Z.mul_pow2_bits_low by done; done).
  all: rewrite andb_false_iff; right.
  all: destruct (Z.eq_dec b 0) as [->|]; [apply Z.bits_0|].
  all: apply Z.bits_above_log2; [lia|].
  all: apply Z.log2_lt_pow2; [lia|].
  all: pose proof (Z.pow_le_mono_r 2 k i); lia.
Qed.

(** Extracting a bit range commutes with truncation. *)
Lemma mod_div_pow2 (y a c : Z) :
  0 <= a -> 0 <= c -> (y mod 2 ^ (a + c)) / 2 ^ a = (y / 2 ^ a) mod 2 ^ c.
Proof.
  intros. rewrite Z.pow_add_r, Z.rem_mul_r by lia.
  rewrite (Z.mul_comm (2 ^ a)), Z.div_add by lia.
  rewrite Z.div_small, Z.add_0_l by (apply Z.mod_pos_bound; lia). done.
Qed.

(** On a 32 or 64-bit operand [___bpf_mvb] moves byte [n] to position [m]. *)
Lemma bpf_mvb_byte (x b n m : Z) :
  32 <= b -> 0 <= n -> 0 <= m -> 8 * (n + 1) <= b -> 8 * (m + 1) <= b ->
  ___bpf_mvb x b n m = (x / 2 ^ (8 * n)) mod 2 ^ 8 * 2 ^ (8 * m).
Proof.
  intros Hb Hn Hm Hnb Hmb. unfold ___bpf_mvb, promoted, wrap.
  rewrite Z.max_l by lia.
  set (k := b - (n + 1) * 8).
  assert (b = 8 * (n + 1) + k) as Eb by lia.
  rewrite !Z.shiftl_mul_pow2, Z.shiftr_div_pow2 by lia.
  assert ((x mod 2 ^ b * 2 ^ k) mod 2 ^ b / 2 ^ (b - 8) = (x / 2 ^ (8 * n)) mod 2 ^ 8) as ->.
  { rewrite Eb at 2. rewrite Z.pow_add_r by lia.
    rewrite Z.mul_mod_distr_r by lia.
    replace (b - 8) with (8 * n + k) by lia. rewrite Z.pow_add_r by lia.
    rewrite Z.div_mul_cancel_r by lia.
    replace (8 * (n + 1)) with (8 * n + 8) by lia.
    rewrite mod_div_pow2 by lia.
    replace b with (8 * n + (8 + k)) by lia. rewrite mod_div_pow2 by lia.
    rewrite (Z.pow_add_r 2 8 k), Z.rem_mul_r by lia.
    by rewrite (Z.mul_comm (2 ^ 8)), Z.mod_add, Z.mod_mod by lia. }
  replace (m * 8) with (8 * m) by lia.
  apply Z.mod_small. pose proof (Z.mod_pos_bound (x / 2 ^ (8 * n)) (2 ^ 8)).
  assert (2 ^ b = 2 ^ (b - 8 * m) * 2 ^ (8 * m)) as -> by (rewrite <- Z.pow_add_r by lia; f_equal; lia).
  pose proof (Z.pow_le_mono_r 2 8 (b - 8 * m)). nia.
Qed.

(** The bytes of a little-endian object, one by one. *)
Definition byte_at (x i : Z) : Z := (x / 2 ^ (8 * i)) mod 2 ^ 8.

Lemma le_bytes_spec (n : nat) (x : Z) :
  le_bytes n x = (λ i, byte_at x (Z.of_nat i)) <$> seq 0 n.
Proof.
  revert x. induction n as [|n IH]; intros x; [done|].
  simpl le_bytes. rewrite IH. cbn [seq]. rewrite fmap_cons. f_equal.
  - unfold byte_at. by rewrite Z.mul_0_r, Z.pow_0_r, Z.div_1_r.
  - rewrite <- fmap_S_seq, <- list_fmap_compose.
    apply list_fmap_ext. intros _ i _. unfold byte_at. simpl.
    rewrite Z.div_div by lia. do 2 f_equal.
    replace (8 * Z.of_nat (S i)) with (8 + 8 * Z.of_nat i) by lia.
    by rewrite Z.pow_add_r by lia.
Qed.

Lemma byte_at_fits (x i : Z) : 0 <= byte_at x i < 2 ^ 8.
Proof. apply Z.mod_pos_bound. lia. Qed.

(** One step of the or-tree of the swap macros: the bytes gathered so far
    lie above bit [k + 8], the next one is placed at bit [k]. *)
Lemma lor_byte_step (a b k : Z) :
  0 <= k -> 0 <= b < 2 ^ 8 ->
  Z.lor (a * 2 ^ (k + 8)) (b * 2 ^ k) = (a * 2 ^ 8 + b) * 2 ^ k.
Proof.
  intros Hk Hb. rewrite lor_disjoint.
  - rewrite Z.pow_add_r by lia. ring.
  - lia.
  - rewrite Z.pow_add_r by lia. nia.
Qed.

(** Name the bytes [0 .. n] of [x] with their bounds, leaving linear goals. *)
Ltac name_bytes x :=
  repeat match goal with
  | |- context [Z.of_nat ?i] => let z := eval vm_compute in (Z.of_nat i) in change (Z.of_nat i) with z
  end;
  repeat match goal with
  | |- context [byte_at x ?i] =>
      let b := fresh "b" in let H := fresh "Hb" in
      pose proof (byte_at_fits x i) as H;
      set (b := byte_at x i) in *; clearbody b
  end.

(** Push the or-tree of a swap macro together, one byte at a time. *)
Ltac gather_bytes :=
  repeat match goal with
  | |- context [Z.lor (_ * 2 ^ (8 * ?k)) (_ * 2 ^ (8 * ?l))] =>
      change (8 * k) with (8 * l + 8);
      rewrite (lor_byte_step _ _ (8 * l)) by (lia || apply byte_at_fits)
  end.

Ltac fold_bytes :=
  repeat match goal with
  | |- context [(?x / 2 ^ (8 * ?i)) mod 2 ^ 8] => change ((x / 2 ^ (8 * i)) mod 2 ^ 8) with (byte_at x i)
  end.

Ltac swab_builtin x :=
  rewrite !bpf_mvb_byte by lia; fold_bytes; gather_bytes;
  rewrite le_bytes_spec; cbn [seq fmap list_fmap rev app le_val];
  name_bytes x; rewrite wrap_small; [lia|unfold fits; lia].

Lemma swab32_builtin (x : Z) : ___bpf_swab32 x = __builtin_bswap 4 x.
Proof. unfold ___bpf_swab32, __builtin_bswap. swab_builtin x. Qed.

Lemma swab64_builtin (x : Z) : ___bpf_swab64 x = __builtin_bswap 8 x.
Proof. unfold ___bpf_swab64, __builtin_bswap. swab_builtin x. Qed.

(** The 16-bit macro relies on its final cast: the promoted shifts keep the
    bits above bit 15, which the cast drops. *)
Lemma swab16_builtin (x : Z) : ___bpf_swab16 x = __builtin_bswap 2 x.
Proof.
  unfold ___bpf_swab16, __builtin_bswap. rewrite le_bytes_spec.
  cbn [seq fmap list_fmap rev app le_val].
  assert (∃ b0 b1 q, 0 <= b0 < 2 ^ 8 ∧ 0 <= b1 < 2 ^ 8 ∧ x = b0 + 2 ^ 8 * b1 + 2 ^ 16 * q)
    as (b0 & b1 & q & H0 & H1 & ->).
  { exists (x mod 2 ^ 8), ((x / 2 ^ 8) mod 2 ^ 8), (x / 2 ^ 8 / 2 ^ 8).
    repeat split; try (apply Z.mod_pos_bound; lia).
    pose proof (Z.div_mod x (2 ^ 8)). pose proof (Z.div_mod (x / 2 ^ 8) (2 ^ 8)). lia. }
  change (Z.of_nat 0) with 0. change (Z.of_nat 1) with 1.
  set (x := b0 + 2 ^ 8 * b1 + 2 ^ 16 * q).
  assert (u16 x = b0 + 2 ^ 8 * b1) as Ex.
  { unfold wrap, x. rewrite (Z.mul_comm (2 ^ 16)), Z.mod_add, Z.mod_small by lia. done. }
  assert (byte_at x 0 = b0) as ->.
  { unfold byte_at, x. rewrite Z.mul_0_r, Z.div_1_r.
    replace (_ + _) with (b0 + (b1 + 2 ^ 8 * q) * 2 ^ 8) by lia.
    by rewrite Z.mod_add, Z.mod_small by lia. }
  assert (byte_at x 1 = b1) as ->.
  { unfold byte_at, x. change (8 * 1) with 8.
    replace (_ + _) with (b0 + (b1 + q * 2 ^ 8) * 2 ^ 8) by lia.
    by rewrite Z.div_add, Z.div_small, Z.add_0_l, Z.mod_add, Z.mod_small by lia. }
  assert (___bpf_mvb x 16 0 1 = (b1 * 2 ^ 8 + b0) * 2 ^ 8) as ->.
  { unfold ___bpf_mvb. rewrite Ex. change (promoted 16) with 32.
    rewrite !Z.shiftl_mul_pow2, Z.shiftr_div_pow2 by lia.
    change (16 - (0 + 1) * 8) with 8. change (16 - 8) with 8. change (1 * 8) with 8.
    rewrite (wrap_small _ ((b0 + 2 ^ 8 * b1) * _)), Z.div_mul by (try split; lia).
    rewrite wrap_small by (split; lia). lia. }
  assert (___bpf_mvb x 16 1 0 = b1) as ->.
  { unfold ___bpf_mvb. rewrite Ex. change (promoted 16) with 32.
    change (16 - (1 + 1) * 8) with 0. change (16 - 8) with 8. change (0 * 8) with 0.
    rewrite !Z.shiftl_0_r, Z.shiftr_div_pow2 by lia.
    rewrite (wrap_small _ (_ + _)) by (split; lia).
    replace (b0 + 2 ^ 8 * b1) with (b0 + b1 * 2 ^ 8) by lia.
    rewrite Z.div_add, Z.div_small, Z.add_0_l by lia.
    rewrite wrap_small by (split; lia). done. }
  rewrite lor_disjoint by lia. unfold wrap.
  replace ((b1 * 2 ^ 8 + b0) * 2 ^ 8 + b1) with (b0 * 2 ^ 8 + b1 + b1 * 2 ^ 16) by lia.
  rewrite Z.mod_add, Z.mod_small by lia. lia.
Qed.

(** Reversing the bytes of an object twice restores it. *)
Lemma bswap_involutive (n : nat) (x : Z) :
  fits (8 * Z.of_nat n) x -> __builtin_bswap n (__builtin_bswap n x) = x.
Proof.
  intros Hx. unfold __builtin_bswap.
  assert (length (rev (le_bytes n x)) = n) as Hl by (by rewrite length_rev, le_bytes_length).
  rewrite <- Hl at 1. rewrite le_bytes_val by (apply Forall_rev, le_bytes_byte).
  rewrite rev_involutive, le_val_bytes. by apply wrap_small.
Qed.

Lemma bswap_fits (n : nat) (x : Z) : fits (8 * Z.of_nat n) (__builtin_bswap n x).
Proof.
  unfold __builtin_bswap, fits. pose proof (le_val_bound (rev (le_bytes n x))) as H.
  rewrite length_rev, le_bytes_length in H. apply H, Forall_rev, le_bytes_byte.
Qed.

(** A multi-byte field copied from a packet (its bytes in network order)
    and swapped once is the number the packet carries. *)
Lemma bswap_be_val (bs : list Z) :
  Forall is_byte bs -> __builtin_bswap (length bs) (le_val bs) = be_val bs.
Proof. intros. unfold __builtin_bswap, be_val. by rewrite le_bytes_val. Qed.

Lemma htons_builtin (const : bool) (x : Z) :
  bpf_htons ORDER_LITTLE_ENDIAN const x = __builtin_bswap 2 x.
Proof. destruct const; simpl; [apply swab16_builtin|done]. Qed.

#[export] Hint Resolve bswap_fits : bpf.

(** ** Properties *)

(** Every conversion macro gives the same value whether its argument
    is a compile-time constant (the shift-and-or [___bpf_swabN] macros) or not
    (the compiler's [__builtin_bswapN]), for both byte orders and for every
    argument, also one wider than the macro's operand. *)
Theorem endian_constant_runtime_agree (o : byte_order) (x : Z) :
  bpf_htons o true x = bpf_htons o false x ∧
  bpf_ntohs o true x = bpf_ntohs o false x ∧
  bpf_htonl o true x = bpf_htonl o false x ∧
  bpf_ntohl o true x = bpf_ntohl o false x ∧
  bpf_cpu_to_be64 o true x = bpf_cpu_to_be64 o false x ∧
  bpf_be64_to_cpu o true x = bpf_be64_to_cpu o false x.
Proof.
  destruct o; simpl; [|done].
  by rewrite swab16_builtin, swab32_builtin, swab64_builtin.
Qed.

(** On both byte orders network-to-host undoes host-to-network for
    every 16, 32 and 64-bit value. *)
Theorem endian_roundtrip (o : byte_order) (c c' : bool) (x y z : Z)
    (Hx : fits 16 x) (Hy : fits 32 y) (Hz : fits 64 z) :
  bpf_ntohs o c (bpf_htons o c' x) = x ∧
  bpf_ntohl o c (bpf_htonl o c' y) = y ∧
  bpf_be64_to_cpu o c (bpf_cpu_to_be64 o c' z) = z.
Proof.
  destruct o; [|by destruct c, c'].
  destruct c, c'; simpl; rewrite ?swab16_builtin, ?swab32_builtin, ?swab64_builtin;
    by rewrite !bswap_involutive.
Qed.

Lemma endian_roundtrip_witness :
  bpf_ntohs ORDER_LITTLE_ENDIAN true (bpf_htons ORDER_LITTLE_ENDIAN false 8080) = 8080.
Proof.
  apply (endian_roundtrip ORDER_LITTLE_ENDIAN true false 8080 1 1); split; by vm_compute.
Defined.
