(* ===== verification/CLayout.v ===== *)
(** C data layout on the LP64 targets of the repository (x86-64, arm64).

    The BPF programs read kernel objects at [offsetof] positions and hand
    packed and padded structs to user space.  This file is the layout
    algorithm that clang applies to the declarations in the headers: integer
    alignment, nested structs and unions, anonymous members, arrays,
    [__attribute__((packed))] and bit-fields.  Positions are in bits.  The
    struct declarations themselves are in [Vmlinux], [Inspector] and the
    probe files. *)

From S2P Require Import Prelude.

(** C object types.  A record member is a name (empty for an anonymous
    struct or union), a type and, for a bit-field, its width. *)
Inductive ctype :=
  | CInt (sz : Z)
  | CPtr (pointee : string)
  | CArray (t : ctype) (n : Z)
  | CStruct (packed : bool) (ms : list (string * ctype * option Z))
  | CUnion (packed : bool) (ms : list (string * ctype * option Z)).

Notation "n ∷ t" := (n%string, t, None) (at level 60, no associativity) : bpf_scope.
Notation "n ∷ t ⦂ w" := (n%string, t, Some w) (at level 60, t at next level, no associativity) : bpf_scope.
Abbreviation struct ms := (CStruct false ms%bpf).
Abbreviation packed_struct ms := (CStruct true ms%bpf).
Abbreviation union ms := (CUnion false ms%bpf).
Abbreviation packed_union ms := (CUnion true ms%bpf).

Definition align_up (z a : Z) : Z := (z + a - 1) / a * a.

Fixpoint alignof (t : ctype) : Z :=
  match t with
  | CInt sz => sz
  | CPtr _ => 8
  | CArray t _ => alignof t
  | CStruct packed ms | CUnion packed ms =>
      if packed then 1
      else (fix go ms := match ms with
            | [] => 1
            | (_, t', _) :: ms' => Z.max (alignof t') (go ms')
            end) ms
  end.

(** First bit of a member of alignment [al] and size [sz] bytes placed at or
    after bit [pos].  A bit-field stays at [pos] unless it would straddle a
    storage unit of its declared type. *)
Definition place (packed : bool) (pos al sz : Z) (bits : option Z) : Z :=
  match bits with
  | None => align_up pos (8 * (if packed then 1 else al))
  | Some w =>
      if packed || (pos / (8 * sz) =? (pos + w - 1) / (8 * sz))
      then pos else align_up pos (8 * sz)
  end.

(** Number of bits the member takes. *)
Definition extent (sz : Z) (bits : option Z) : Z := default (8 * sz) bits.

Fixpoint sizeof (t : ctype) : Z :=
  match t with
  | CInt sz => sz
  | CPtr _ => 8
  | CArray t n => n * sizeof t
  | CStruct packed ms =>
      let fin := (fix go pos ms := match ms with
                  | [] => pos
                  | (_, t', b) :: ms' =>
                      go (place packed pos (alignof t') (sizeof t') b + extent (sizeof t') b) ms'
                  end) 0 ms in
      align_up (align_up fin 8 / 8) (alignof t)
  | CUnion packed ms =>
      let mx := (fix go ms := match ms with
                 | [] => 0
                 | (_, t', b) :: ms' => Z.max (align_up (extent (sizeof t') b) 8 / 8) (go ms')
                 end) ms in
      align_up mx (alignof t)
  end.

(** The positions the layout gives to the members of one struct. *)
Fixpoint layout (packed : bool) (pos : Z) (ms : list (string * ctype * option Z))
    : list (string * Z * ctype * option Z) :=
  match ms with
  | [] => []
  | (n, t, b) :: ms' =>
      let start := place packed pos (alignof t) (sizeof t) b in
      (n, start, t, b) :: layout packed (start + extent (sizeof t) b) ms'
  end.

(** Member designation, looking through anonymous members: the bit position
    within [t], the member's type and its width if it is a bit-field. *)
Fixpoint member (t : ctype) (name : string) : option (Z * ctype * option Z) :=
  match t with
  | CStruct packed ms =>
      (fix go pos ms := match ms with
       | [] => None
       | (n, t', b) :: ms' =>
           let start := place packed pos (alignof t') (sizeof t') b in
           if String.eqb n name then Some (start, t', b)
           else match (if String.eqb n "" then member t' name else None) with
                | Some (o, t'', b') => Some (start + o, t'', b')
                | None => go (start + extent (sizeof t') b) ms'
                end
       end) 0 ms
  | CUnion _ ms =>
      (fix go ms := match ms with
       | [] => None
       | (n, t', b) :: ms' =>
           if String.eqb n name then Some (0, t', b)
           else match (if String.eqb n "" then member t' name else None) with
                | Some r => Some r
                | None => go ms'
                end
       end) ms
  | _ => None
  end.

(** Access path [a.b.c]: the bit position and type of the designated member. *)
Fixpoint access (t : ctype) (path : list string) : option (Z * ctype * option Z) :=
  match path with
  | [] => Some (0, t, None)
  | n :: path' =>
      match member t n with
      | Some (o, t', b) =>
          match path' with
          | [] => Some (o, t', b)
          | _ => match access t' path' with
                 | Some (o', t'', b') => Some (o + o', t'', b')
                 | None => None
                 end
          end
      | None => None
      end
  end.

(** [offsetof(t, a.b.c)] in bytes. *)
Definition offsetof (t : ctype) (path : list string) : option Z :=
  match access t path with Some (o, _, _) => Some (o / 8) | None => None end.

(** The type of an access path. *)
Definition typeof (t : ctype) (path : list string) : option ctype :=
  match access t path with Some (_, t', _) => Some t' | None => None end.

(** A bit-field has an integer type at least as wide as itself. *)
Definition wf_bits (t : ctype) (b : option Z) : bool :=
  match b, t with
  | None, _ => true
  | Some w, CInt sz => (0 <? w) && (w <=? 8 * sz)
  | Some _, _ => false
  end.

(** Declarations a C compiler accepts: positive scalar sizes, non-negative
    array lengths, bit-fields no wider than their type. *)
Fixpoint wf_ctype (t : ctype) : bool :=
  match t with
  | CInt sz => 0 <? sz
  | CPtr _ => true
  | CArray t n => wf_ctype t && (0 <=? n)
  | CStruct _ ms | CUnion _ ms =>
      (fix go ms := match ms with
       | [] => true
       | (_, t', b) :: ms' =>
           wf_ctype t' && wf_bits t' b && go ms'
       end) ms
  end.

(** Bit position after the last member. *)
Fixpoint layout_end (packed : bool) (pos : Z) (ms : list (string * ctype * option Z)) : Z :=
  match ms with
  | [] => pos
  | (_, t, b) :: ms' =>
      layout_end packed (place packed pos (alignof t) (sizeof t) b + extent (sizeof t) b) ms'
  end.

(** Size in bytes of the largest member of a union. *)
Fixpoint union_max (ms : list (string * ctype * option Z)) : Z :=
  match ms with
  | [] => 0
  | (_, t, b) :: ms' => Z.max (align_up (extent (sizeof t) b) 8 / 8) (union_max ms')
  end.

(** The struct case of [member] as a search through [layout]. *)
Fixpoint search (name : string) (es : list (string * Z * ctype * option Z))
    : option (Z * ctype * option Z) :=
  match es with
  | [] => None
  | (n, start, t, b) :: es' =>
      if String.eqb n name then Some (start, t, b)
      else match (if String.eqb n "" then member t name else None) with
           | Some (o, t', b') => Some (start + o, t', b')
           | None => search name es'
           end
  end.

(** The member side of a well-formed record. *)
Definition wf_member (m : string * ctype * option Z) : Prop :=
  wf_ctype m.1.2 = true ∧ wf_bits m.1.2 m.2 = true.

(** ** Lemmas *)

(** Structural induction over declarations: the members of a record satisfy
    the induction hypothesis. *)
Lemma ctype_nested_ind (P : ctype -> Prop) :
  (∀ sz, P (CInt sz)) -> (∀ s, P (CPtr s)) -> (∀ t n, P t -> P (CArray t n)) ->
  (∀ p ms, Forall (λ m, P m.1.2) ms -> P (CStruct p ms)) ->
  (∀ p ms, Forall (λ m, P m.1.2) ms -> P (CUnion p ms)) -> ∀ t, P t.
Proof.
  intros Hi Hp Ha Hs Hu. fix IH 1. intros [sz|s|t n|p ms|p ms].
  - apply Hi.
  - apply Hp.
  - apply Ha, IH.
  - apply Hs. induction ms as [|[[n t] b] ms IHms]; constructor; [apply IH|apply IHms].
  - apply Hu. induction ms as [|[[n t] b] ms IHms]; constructor; [apply IH|apply IHms].
Qed.

Lemma align_up_ge (z a : Z) : 0 < a -> z <= align_up z a.
Proof.
  intros. unfold align_up. pose proof (Z.div_mod (z + a - 1) a).
  pose proof (Z.mod_pos_bound (z + a - 1) a). lia.
Qed.

Lemma align_up_lt (z a : Z) : 0 < a -> align_up z a < z + a.
Proof.
  intros. unfold align_up. pose proof (Z.div_mod (z + a - 1) a).
  pose proof (Z.mod_pos_bound (z + a - 1) a). lia.
Qed.

Lemma align_up_multiple (z a : Z) : align_up z a mod a = 0.
Proof. apply Z_mod_mult. Qed.

Lemma wf_record (p : bool) (ms : list (string * ctype * option Z)) :
  wf_ctype (CStruct p ms) = true ↔ Forall wf_member ms.
Proof.
  induction ms as [|[[n t] b] ms IH]; [done|].
  rewrite Forall_cons. simpl in *. rewrite !andb_true_iff, IH. unfold wf_member at 2. simpl. tauto.
Qed.

(** A bit-field takes at least one bit and fits in its declared type. *)
Lemma wf_bits_width (t : ctype) (w : Z) : wf_bits t (Some w) = true -> 0 < w <= 8 * sizeof t.
Proof. destruct t; simpl; intros; bool_to_prop; [lia|done..]. Qed.

Lemma wf_union (p : bool) (ms : list (string * ctype * option Z)) :
  wf_ctype (CUnion p ms) = true ↔ Forall wf_member ms.
Proof. apply (wf_record p). Qed.

Lemma alignof_pos (t : ctype) : wf_ctype t = true -> 0 < alignof t.
Proof.
  induction t as [sz|s|t n IH|p ms IH|p ms IH] using ctype_nested_ind; intros Hwf.
  - simpl in *. by bool_to_prop.
  - done.
  - simpl in *. bool_to_prop. auto.
  - destruct p; [done|]. apply wf_record in Hwf.
    induction Hwf as [|[[n t] b] ms [Hm _] Hms IHms]; [done|].
    inversion_clear IH as [|?? Ht Hrest]. simpl in *. specialize (IHms Hrest). lia.
  - destruct p; [done|]. apply wf_union in Hwf.
    induction Hwf as [|[[n t] b] ms [Hm _] Hms IHms]; [done|].
    inversion_clear IH as [|?? Ht Hrest]. simpl in *. specialize (IHms Hrest). lia.
Qed.

Lemma place_ge (p : bool) (pos al sz : Z) (b : option Z) :
  0 < al -> (∀ w, b = Some w -> 0 < sz) -> pos <= place p pos al sz b.
Proof.
  intros Hal Hsz. unfold place. destruct b as [w|].
  - specialize (Hsz w eq_refl). destruct (_ || _); [lia|]. apply align_up_ge. lia.
  - apply align_up_ge. destruct p; lia.
Qed.

(** A member starts at or after the running position. *)
Lemma place_member_ge (p : bool) (pos : Z) (n : string) (t : ctype) (b : option Z) :
  wf_member (n, t, b) -> pos <= place p pos (alignof t) (sizeof t) b.
Proof.
  intros [Ht Hb]. apply place_ge; [by apply alignof_pos|].
  intros w ->. apply wf_bits_width in Hb. simpl in Hb. lia.
Qed.

Lemma sizeof_struct (p : bool) (ms : list (string * ctype * option Z)) :
  sizeof (CStruct p ms) = align_up (align_up (layout_end p 0 ms) 8 / 8) (alignof (CStruct p ms)).
Proof.
  assert (∀ ms pos,
    (fix go pos ms := match ms with
      | [] => pos
      | (_, t', b) :: ms' =>
          go (place p pos (alignof t') (sizeof t') b + extent (sizeof t') b) ms'
      end) pos ms = layout_end p pos ms) as E.
  { clear ms. intros ms. induction ms as [|[[n t] b] ms IH]; intros pos; simpl; [done|]. apply IH. }
  cbn [sizeof]. by rewrite E.
Qed.

Lemma sizeof_union (p : bool) (ms : list (string * ctype * option Z)) :
  sizeof (CUnion p ms) = align_up (union_max ms) (alignof (CUnion p ms)).
Proof.
  cbn [sizeof].
  assert ((fix go ms := match ms with
           | [] => 0
           | (_, t', b) :: ms' => Z.max (align_up (extent (sizeof t') b) 8 / 8) (go ms')
           end) ms = union_max ms) as ->; [|done].
  induction ms as [|[[n t] b] ms IH]; simpl; [done|]. by rewrite IH.
Qed.

Lemma union_max_nonneg (ms : list (string * ctype * option Z)) : 0 <= union_max ms.
Proof. induction ms as [|[[n t] b] ms IH]; simpl; lia. Qed.

Lemma extent_nonneg (m : string * ctype * option Z) :
  wf_member m -> 0 <= sizeof m.1.2 -> 0 <= extent (sizeof m.1.2) m.2.
Proof.
  destruct m as [[n t] [w|]]; intros [_ Hb] ?; simpl in *; [|lia].
  apply wf_bits_width in Hb. lia.
Qed.

Lemma layout_end_ge (p : bool) (pos : Z) (ms : list (string * ctype * option Z)) :
  Forall wf_member ms -> Forall (λ m, 0 <= sizeof m.1.2) ms -> pos <= layout_end p pos ms.
Proof.
  intros Hwf Hsz. revert pos. induction Hwf as [|[[n t] b] ms Hm Hms IH]; intros pos; [done|].
  inversion_clear Hsz as [|?? Ht Hrest]. simpl.
  pose proof (place_member_ge p pos n t b Hm). pose proof (extent_nonneg _ Hm Ht). simpl in *.
  specialize (IH Hrest (place p pos (alignof t) (sizeof t) b + extent (sizeof t) b)). lia.
Qed.

Lemma bytes_ge_bits (z : Z) : z <= 8 * (align_up z 8 / 8).
Proof.
  unfold align_up. rewrite Z.div_mul by lia.
  pose proof (Z.div_mod (z + 8 - 1) 8). pose proof (Z.mod_pos_bound (z + 8 - 1) 8). lia.
Qed.

Lemma layout_end_sizeof (p : bool) (ms : list (string * ctype * option Z)) :
  wf_ctype (CStruct p ms) = true -> layout_end p 0 ms <= 8 * sizeof (CStruct p ms).
Proof.
  intros Hwf. rewrite sizeof_struct.
  pose proof (align_up_ge (align_up (layout_end p 0 ms) 8 / 8) _ (alignof_pos _ Hwf)).
  pose proof (bytes_ge_bits (layout_end p 0 ms)). lia.
Qed.

Lemma sizeof_nonneg (t : ctype) : wf_ctype t = true -> 0 <= sizeof t.
Proof.
  induction t as [sz|s|t n IH|p ms IH|p ms IH] using ctype_nested_ind; intros Hwf.
  - simpl in *. bool_to_prop. lia.
  - done.
  - simpl in *. bool_to_prop. specialize (IH ltac:(done)). nia.
  - pose proof (layout_end_sizeof p ms Hwf). apply wf_record in Hwf.
    enough (Forall (λ m, 0 <= sizeof m.1.2) ms) as Hsz.
    { pose proof (layout_end_ge p 0 ms Hwf Hsz). lia. }
    apply Forall_forall. intros m Hin. rewrite Forall_forall in IH, Hwf.
    apply IH; [done|]. by destruct (Hwf m Hin).
  - rewrite sizeof_union. pose proof (align_up_ge (union_max ms) _ (alignof_pos _ Hwf)).
    pose proof (union_max_nonneg ms). lia.
Qed.

Lemma wf_members_sizeof (ms : list (string * ctype * option Z)) :
  Forall wf_member ms -> Forall (λ m, 0 <= sizeof m.1.2) ms.
Proof. intros H. eapply Forall_impl; [exact H|]. intros m [? _]. by apply sizeof_nonneg. Qed.

(** One entry of [layout]: its extent lies between the running position and
    the end of the record. *)
Lemma layout_bounds (p : bool) (ms : list (string * ctype * option Z)) (pos : Z) :
  Forall wf_member ms ->
  Forall (λ e : string * Z * ctype * option Z,
    pos <= e.1.1.2 ∧ e.1.1.2 + extent (sizeof e.1.2) e.2 <= layout_end p pos ms) (layout p pos ms).
Proof.
  intros Hwf. revert pos. induction Hwf as [|[[n t] b] ms Hm Hms IH]; intros pos; simpl; constructor.
  - simpl. pose proof (place_member_ge p pos n t b Hm).
    pose proof (layout_end_ge p (place p pos (alignof t) (sizeof t) b + extent (sizeof t) b) ms
                  Hms (wf_members_sizeof _ Hms)). lia.
  - eapply Forall_impl; [apply IH|]. intros e [? ?]. split; [|done].
    pose proof (place_member_ge p pos n t b Hm).
    pose proof (extent_nonneg _ Hm (sizeof_nonneg _ (proj1 Hm))). simpl in *. lia.
Qed.

Lemma member_struct (p : bool) (ms : list (string * ctype * option Z)) (name : string) :
  member (CStruct p ms) name = search name (layout p 0 ms).
Proof.
  cbn [member]. generalize 0. induction ms as [|[[n t] b] ms IH]; intros pos; simpl; [done|].
  destruct (String.eqb n name); [done|].
  destruct (if String.eqb n "" then _ else _) as [[[??]?]|]; [done|]. apply IH.
Qed.

(** ** Properties *)

(** The members of a struct are laid out in declaration order without
    overlap: each starts at or after the end of every earlier one. *)
Theorem layout_disjoint (p : bool) (ms : list (string * ctype * option Z)) (i j : nat)
    (n n' : string) (o o' : Z) (t t' : ctype) (b b' : option Z)
    (Hwf : wf_ctype (CStruct p ms) = true) (Hij : (i < j)%nat)
    (Hi : layout p 0 ms !! i = Some (n, o, t, b))
    (Hj : layout p 0 ms !! j = Some (n', o', t', b')) :
  o + extent (sizeof t) b <= o'.
Proof.
  apply wf_record in Hwf. revert Hi Hj. generalize 0. revert i j Hij.
  induction Hwf as [|[[m u] c] ms Hm Hms IH]; intros i j Hij pos Hi Hj; [done|].
  simpl in *. destruct j as [|j]; [lia|]. simpl in Hj. destruct i as [|i]; simpl in Hi.
  - injection Hi as <- <- <- <-. pose proof (layout_bounds p ms
      (place p pos (alignof u) (sizeof u) c + extent (sizeof u) c) Hms) as HF.
    rewrite Forall_lookup in HF. by destruct (HF j _ Hj).
  - by apply (IH i j ltac:(lia) _ Hi Hj).
Qed.

(** Entries of [layout] are members of the declaration. *)
Lemma layout_member (p : bool) (pos : Z) (ms : list (string * ctype * option Z)) :
  (λ e : string * Z * ctype * option Z, (e.1.1.1, e.1.2, e.2)) <$> layout p pos ms = ms.
Proof. revert pos. induction ms as [|[[n t] b] ms IH]; intros; simpl; [done|]. by rewrite IH. Qed.

(** What the search of one record level promises, given the same of the
    anonymous members it descends into. *)
Lemma search_in_bounds (name : string) (E : Z) (es : list (string * Z * ctype * option Z))
    (o : Z) (t : ctype) (b : option Z) :
  Forall (λ e : string * Z * ctype * option Z,
    0 <= e.1.1.2 ∧ e.1.1.2 + extent (sizeof e.1.2) e.2 <= E ∧
    wf_member (e.1.1.1, e.1.2, e.2) ∧
    ∀ o t b, member e.1.2 name = Some (o, t, b) ->
      0 <= o ∧ o + extent (sizeof t) b <= 8 * sizeof e.1.2 ∧ wf_member (name, t, b)) es ->
  search name es = Some (o, t, b) ->
  0 <= o ∧ o + extent (sizeof t) b <= E ∧ wf_member (name, t, b).
Proof.
  induction 1 as [|[[[n start] u] c] es (Hs & He & Hm & Hin) Hes IH]; simpl in *; [done|].
  destruct (String.eqb n name); [intros [= <- <- <-]; auto|].
  destruct (String.eqb n ""); [|by apply IH].
  destruct (member u name) as [[[o' t'] b']|] eqn:Hmem; [|by apply IH].
  intros [= <- <- <-]. destruct (Hin _ _ _ eq_refl) as (? & ? & ?).
  assert (c = None) as ->.
  { destruct c as [w|]; [|done]. destruct Hm as [_ Hb]. simpl in Hb. by destruct u. }
  simpl in He. split_and!; [lia..|done].
Qed.

Lemma member_union (p : bool) (ms : list (string * ctype * option Z)) (name : string) :
  member (CUnion p ms) name =
  search name ((λ m : string * ctype * option Z, (m.1.1, 0, m.1.2, m.2)) <$> ms).
Proof.
  cbn [member]. induction ms as [|[[n t] b] ms IH]; simpl; [done|].
  destruct (String.eqb n name); [done|].
  destruct (if String.eqb n "" then _ else _) as [[[??]?]|]; [done|]. apply IH.
Qed.

Lemma union_max_ge (ms : list (string * ctype * option Z)) :
  Forall (λ m : string * ctype * option Z, extent (sizeof m.1.2) m.2 <= 8 * union_max ms) ms.
Proof.
  induction ms as [|[[n t] b] ms IH]; constructor; simpl.
  - pose proof (bytes_ge_bits (extent (sizeof t) b)). lia.
  - eapply Forall_impl; [exact IH|]. simpl. lia.
Qed.

Lemma member_bounds (t : ctype) (name : string) (o : Z) (t' : ctype) (b : option Z) :
  wf_ctype t = true -> member t name = Some (o, t', b) ->
  0 <= o ∧ o + extent (sizeof t') b <= 8 * sizeof t ∧ wf_member (name, t', b).
Proof.
  revert o t' b. induction t as [sz|s|t n _|p ms IH|p ms IH] using ctype_nested_ind;
    intros o t' b Hwf Hmem; [done|done|done| |].
  - rewrite member_struct in Hmem. pose proof (layout_end_sizeof p ms Hwf) as Hend.
    apply wf_record in Hwf. eapply search_in_bounds; [|exact Hmem].
    pose proof (layout_bounds p ms 0 Hwf) as Hb. pose proof (layout_member p 0 ms) as Hl.
    rewrite Forall_forall in Hb. rewrite Forall_forall in IH. rewrite Forall_forall in Hwf. apply Forall_forall. intros e He.
    destruct (Hb e He). assert ((e.1.1.1, e.1.2, e.2) ∈ ms) as Hin.
    { rewrite <- Hl. apply list_elem_of_fmap. by exists e. }
    split_and!; [lia|lia|by apply Hwf|]. intros o' u c Hu.
    apply (IH _ Hin); [by apply (Hwf _ Hin)|done].
  - rewrite member_union in Hmem. pose proof (sizeof_union p ms) as Hsz.
    pose proof (align_up_ge (union_max ms) _ (alignof_pos _ Hwf)).
    apply wf_union in Hwf. eapply search_in_bounds; [|exact Hmem].
    pose proof (union_max_ge ms) as Hb. rewrite Forall_forall in Hb. rewrite Forall_forall in IH. rewrite Forall_forall in Hwf.
    apply Forall_forall. intros e ([[n t] c] & -> & Hin)%list_elem_of_fmap.
    specialize (Hb _ Hin). cbn [fst snd] in *.
    split_and!; [lia|lia|by apply Hwf|]. intros o' u c' Hu.
    apply (IH _ Hin); [by apply (Hwf _ Hin)|done].
Qed.

(** An access path [s.a.b] designates bytes inside the object: for
    every well-formed declaration the bits of the designated member lie
    between the start and the end ([sizeof]) of the outer object. *)
Theorem access_in_bounds (t : ctype) (path : list string) (o : Z) (t' : ctype) (b : option Z)
    (Hwf : wf_ctype t = true) (Hacc : access t path = Some (o, t', b)) :
  0 <= o ∧ o + extent (sizeof t') b <= 8 * sizeof t.
Proof.
  revert t o t' b Hwf Hacc. induction path as [|n path IH]; intros t o t' b Hwf Hacc.
  - injection Hacc as <- <- <-. simpl. lia.
  - simpl in Hacc. destruct (member t n) as [[[o1 t1] b1]|] eqn:Hm; [|done].
    destruct (member_bounds t n o1 t1 b1 Hwf Hm) as (? & Hle & [Hwf1 Hb1]).
    destruct path as [|n' path]; [injection Hacc as <- <- <-; auto|].
    destruct (access t1 (n' :: path)) as [[[o2 t2] b2]|] eqn:Ha; [|done].
    injection Hacc as <- <- <-. destruct (IH t1 o2 t2 b2 Hwf1 Ha) as [? ?].
    destruct b1 as [w|]; [|simpl in Hle; lia].
    destruct t1; simpl in Hb1, Ha; done.
Qed.
