(* ===== verification/VmlinuxAmd64.v ===== *)
(** Kernel object declarations of src/bpf/headers/amd64/vmlinux.h.

    The declarations below are those the probes dereference, with every type
    they contain by value, member for member.  [net] ends with the last
    member the programs read ([ns]): later members have no influence on the
    positions used.  Typedefs of named types are expanded, function pointers
    are [CPtr "()"].  The enums that the programs take constants from follow
    as tables of their enumerators. *)

From S2P Require Import Prelude CLayout.

Module Amd64.

Definition rb_node : ctype :=
  struct [
    "__rb_parent_color" ∷ CInt 8;
    "rb_right" ∷ CPtr "rb_node";
    "rb_left" ∷ CPtr "rb_node"].

Definition list_head : ctype :=
  struct [
    "next" ∷ CPtr "list_head";
    "prev" ∷ CPtr "list_head"].

Definition atomic_t : ctype :=
  struct [
    "counter" ∷ CInt 4].

Definition refcount_struct : ctype :=
  struct [
    "refs" ∷ atomic_t].

Definition sk_buff : ctype :=
  struct [
    "" ∷ union [
      "" ∷ struct [
        "next" ∷ CPtr "sk_buff";
        "prev" ∷ CPtr "sk_buff";
        "" ∷ union [
          "dev" ∷ CPtr "net_device";
          "dev_scratch" ∷ CInt 8]];
      "rbnode" ∷ rb_node;
      "list" ∷ list_head];
    "" ∷ union [
      "sk" ∷ CPtr "sock";
      "ip_defrag_offset" ∷ CInt 4];
    "" ∷ union [
      "tstamp" ∷ CInt 8;
      "skb_mstamp_ns" ∷ CInt 8];
    "cb" ∷ CArray (CInt 1) 48;
    "" ∷ union [
      "" ∷ struct [
        "_skb_refdst" ∷ CInt 8;
        "destructor" ∷ CPtr "()"];
      "tcp_tsorted_anchor" ∷ list_head];
    "_nfct" ∷ CInt 8;
    "len" ∷ CInt 4;
    "data_len" ∷ CInt 4;
    "mac_len" ∷ CInt 2;
    "hdr_len" ∷ CInt 2;
    "queue_mapping" ∷ CInt 2;
    "__cloned_offset" ∷ CArray (CInt 1) 0;
    "cloned" ∷ CInt 1 ⦂ 1;
    "nohdr" ∷ CInt 1 ⦂ 1;
    "fclone" ∷ CInt 1 ⦂ 2;
    "peeked" ∷ CInt 1 ⦂ 1;
    "head_frag" ∷ CInt 1 ⦂ 1;
    "pfmemalloc" ∷ CInt 1 ⦂ 1;
    "active_extensions" ∷ CInt 1;
    "headers_start" ∷ CArray (CInt 4) 0;
    "__pkt_type_offset" ∷ CArray (CInt 1) 0;
    "pkt_type" ∷ CInt 1 ⦂ 3;
    "ignore_df" ∷ CInt 1 ⦂ 1;
    "nf_trace" ∷ CInt 1 ⦂ 1;
    "ip_summed" ∷ CInt 1 ⦂ 2;
    "ooo_okay" ∷ CInt 1 ⦂ 1;
    "l4_hash" ∷ CInt 1 ⦂ 1;
    "sw_hash" ∷ CInt 1 ⦂ 1;
    "wifi_acked_valid" ∷ CInt 1 ⦂ 1;
    "wifi_acked" ∷ CInt 1 ⦂ 1;
    "no_fcs" ∷ CInt 1 ⦂ 1;
    "encapsulation" ∷ CInt 1 ⦂ 1;
    "encap_hdr_csum" ∷ CInt 1 ⦂ 1;
    "csum_valid" ∷ CInt 1 ⦂ 1;
    "__pkt_vlan_present_offset" ∷ CArray (CInt 1) 0;
    "vlan_present" ∷ CInt 1 ⦂ 1;
    "csum_complete_sw" ∷ CInt 1 ⦂ 1;
    "csum_level" ∷ CInt 1 ⦂ 2;
    "csum_not_inet" ∷ CInt 1 ⦂ 1;
    "dst_pending_confirm" ∷ CInt 1 ⦂ 1;
    "ndisc_nodetype" ∷ CInt 1 ⦂ 2;
    "ipvs_property" ∷ CInt 1 ⦂ 1;
    "inner_protocol_type" ∷ CInt 1 ⦂ 1;
    "remcsum_offload" ∷ CInt 1 ⦂ 1;
    "tc_skip_classify" ∷ CInt 1 ⦂ 1;
    "tc_at_ingress" ∷ CInt 1 ⦂ 1;
    "tc_redirected" ∷ CInt 1 ⦂ 1;
    "tc_from_ingress" ∷ CInt 1 ⦂ 1;
    "tc_index" ∷ CInt 2;
    "" ∷ union [
      "csum" ∷ CInt 4;
      "" ∷ struct [
        "csum_start" ∷ CInt 2;
        "csum_offset" ∷ CInt 2]];
    "priority" ∷ CInt 4;
    "skb_iif" ∷ CInt 4;
    "hash" ∷ CInt 4;
    "vlan_proto" ∷ CInt 2;
    "vlan_tci" ∷ CInt 2;
    "" ∷ union [
      "napi_id" ∷ CInt 4;
      "sender_cpu" ∷ CInt 4];
    "secmark" ∷ CInt 4;
    "" ∷ union [
      "mark" ∷ CInt 4;
      "reserved_tailroom" ∷ CInt 4];
    "" ∷ union [
      "inner_protocol" ∷ CInt 2;
      "inner_ipproto" ∷ CInt 1];
    "inner_transport_header" ∷ CInt 2;
    "inner_network_header" ∷ CInt 2;
    "inner_mac_header" ∷ CInt 2;
    "protocol" ∷ CInt 2;
    "transport_header" ∷ CInt 2;
    "network_header" ∷ CInt 2;
    "mac_header" ∷ CInt 2;
    "headers_end" ∷ CArray (CInt 4) 0;
    "tail" ∷ CInt 4;
    "end" ∷ CInt 4;
    "head" ∷ CPtr "unsigned char";
    "data" ∷ CPtr "unsigned char";
    "truesize" ∷ CInt 4;
    "users" ∷ refcount_struct;
    "extensions" ∷ CPtr "skb_ext"].

Definition hlist_node : ctype :=
  struct [
    "next" ∷ CPtr "hlist_node";
    "pprev" ∷ CPtr "hlist_node*"].

Definition possible_net_t : ctype :=
  struct [
    "net" ∷ CPtr "net"].

Definition in6_addr : ctype :=
  struct [
    "in6_u" ∷ union [
      "u6_addr8" ∷ CArray (CInt 1) 16;
      "u6_addr16" ∷ CArray (CInt 2) 8;
      "u6_addr32" ∷ CArray (CInt 4) 4]].

Definition atomic64_t : ctype :=
  struct [
    "counter" ∷ CInt 8].

Definition hlist_nulls_node : ctype :=
  struct [
    "next" ∷ CPtr "hlist_nulls_node";
    "pprev" ∷ CPtr "hlist_nulls_node*"].

Definition sock_common : ctype :=
  struct [
    "" ∷ union [
      "skc_addrpair" ∷ CInt 8;
      "" ∷ struct [
        "skc_daddr" ∷ CInt 4;
        "skc_rcv_saddr" ∷ CInt 4]];
    "" ∷ union [
      "skc_hash" ∷ CInt 4;
      "skc_u16hashes" ∷ CArray (CInt 2) 2];
    "" ∷ union [
      "skc_portpair" ∷ CInt 4;
      "" ∷ struct [
        "skc_dport" ∷ CInt 2;
        "skc_num" ∷ CInt 2]];
    "skc_family" ∷ CInt 2;
    "skc_state" ∷ CInt 1;
    "skc_reuse" ∷ CInt 1 ⦂ 4;
    "skc_reuseport" ∷ CInt 1 ⦂ 1;
    "skc_ipv6only" ∷ CInt 1 ⦂ 1;
    "skc_net_refcnt" ∷ CInt 1 ⦂ 1;
    "skc_bound_dev_if" ∷ CInt 4;
    "" ∷ union [
      "skc_bind_node" ∷ hlist_node;
      "skc_portaddr_node" ∷ hlist_node];
    "skc_prot" ∷ CPtr "proto";
    "skc_net" ∷ possible_net_t;
    "skc_v6_daddr" ∷ in6_addr;
    "skc_v6_rcv_saddr" ∷ in6_addr;
    "skc_cookie" ∷ atomic64_t;
    "" ∷ union [
      "skc_flags" ∷ CInt 8;
      "skc_listener" ∷ CPtr "sock";
      "skc_tw_dr" ∷ CPtr "inet_timewait_death_row"];
    "skc_dontcopy_begin" ∷ CArray (CInt 4) 0;
    "" ∷ union [
      "skc_node" ∷ hlist_node;
      "skc_nulls_node" ∷ hlist_nulls_node];
    "skc_tx_queue_mapping" ∷ CInt 2;
    "skc_rx_queue_mapping" ∷ CInt 2;
    "" ∷ union [
      "skc_incoming_cpu" ∷ CInt 4;
      "skc_rcv_wnd" ∷ CInt 4;
      "skc_tw_rcv_nxt" ∷ CInt 4];
    "skc_refcnt" ∷ refcount_struct;
    "skc_dontcopy_end" ∷ CArray (CInt 4) 0;
    "" ∷ union [
      "skc_rxhash" ∷ CInt 4;
      "skc_window_clamp" ∷ CInt 4;
      "skc_tw_snd_nxt" ∷ CInt 4]].

Definition qspinlock : ctype :=
  struct [
    "" ∷ union [
      "val" ∷ atomic_t;
      "" ∷ struct [
        "locked" ∷ CInt 1;
        "pending" ∷ CInt 1];
      "" ∷ struct [
        "locked_pending" ∷ CInt 2;
        "tail" ∷ CInt 2]]].

Definition raw_spinlock : ctype :=
  struct [
    "raw_lock" ∷ qspinlock].

Definition spinlock : ctype :=
  struct [
    "" ∷ union [
      "rlock" ∷ raw_spinlock]].

Definition wait_queue_head : ctype :=
  struct [
    "lock" ∷ spinlock;
    "head" ∷ list_head].

Definition socket_lock_t : ctype :=
  struct [
    "slock" ∷ spinlock;
    "owned" ∷ CInt 4;
    "wq" ∷ wait_queue_head].

Definition sk_buff_head : ctype :=
  struct [
    "next" ∷ CPtr "sk_buff";
    "prev" ∷ CPtr "sk_buff";
    "qlen" ∷ CInt 4;
    "lock" ∷ spinlock].

Definition rb_root : ctype :=
  struct [
    "rb_node" ∷ CPtr "rb_node"].

Definition timer_list : ctype :=
  struct [
    "entry" ∷ hlist_node;
    "expires" ∷ CInt 8;
    "function" ∷ CPtr "()";
    "flags" ∷ CInt 4].

Definition page_frag : ctype :=
  struct [
    "page" ∷ CPtr "page";
    "offset" ∷ CInt 4;
    "size" ∷ CInt 4].

Definition qrwlock : ctype :=
  struct [
    "" ∷ union [
      "cnts" ∷ atomic_t;
      "" ∷ struct [
        "wlocked" ∷ CInt 1;
        "__lstate" ∷ CArray (CInt 1) 3]];
    "wait_lock" ∷ qspinlock].

Definition rwlock_t : ctype :=
  struct [
    "raw_lock" ∷ qrwlock].

Definition kuid_t : ctype :=
  struct [
    "val" ∷ CInt 4].

Definition sock_cgroup_data : ctype :=
  struct [
    "" ∷ union [
      "" ∷ struct [
        "is_data" ∷ CInt 1;
        "padding" ∷ CInt 1;
        "prioidx" ∷ CInt 2;
        "classid" ∷ CInt 4];
      "val" ∷ CInt 8]].

Definition callback_head : ctype :=
  struct [
    "next" ∷ CPtr "callback_head";
    "func" ∷ CPtr "()"].

Definition sock : ctype :=
  struct [
    "__sk_common" ∷ sock_common;
    "sk_lock" ∷ socket_lock_t;
    "sk_drops" ∷ atomic_t;
    "sk_rcvlowat" ∷ CInt 4;
    "sk_error_queue" ∷ sk_buff_head;
    "sk_rx_skb_cache" ∷ CPtr "sk_buff";
    "sk_receive_queue" ∷ sk_buff_head;
    "sk_backlog" ∷ struct [
      "rmem_alloc" ∷ atomic_t;
      "len" ∷ CInt 4;
      "head" ∷ CPtr "sk_buff";
      "tail" ∷ CPtr "sk_buff"];
    "sk_forward_alloc" ∷ CInt 4;
    "sk_ll_usec" ∷ CInt 4;
    "sk_napi_id" ∷ CInt 4;
    "sk_rcvbuf" ∷ CInt 4;
    "sk_filter" ∷ CPtr "sk_filter";
    "" ∷ union [
      "sk_wq" ∷ CPtr "socket_wq";
      "sk_wq_raw" ∷ CPtr "socket_wq"];
    "sk_policy" ∷ CArray (CPtr "xfrm_policy") 2;
    "sk_rx_dst" ∷ CPtr "dst_entry";
    "sk_dst_cache" ∷ CPtr "dst_entry";
    "sk_omem_alloc" ∷ atomic_t;
    "sk_sndbuf" ∷ CInt 4;
    "sk_wmem_queued" ∷ CInt 4;
    "sk_wmem_alloc" ∷ refcount_struct;
    "sk_tsq_flags" ∷ CInt 8;
    "" ∷ union [
      "sk_send_head" ∷ CPtr "sk_buff";
      "tcp_rtx_queue" ∷ rb_root];
    "sk_tx_skb_cache" ∷ CPtr "sk_buff";
    "sk_write_queue" ∷ sk_buff_head;
    "sk_peek_off" ∷ CInt 4;
    "sk_write_pending" ∷ CInt 4;
    "sk_dst_pending_confirm" ∷ CInt 4;
    "sk_pacing_status" ∷ CInt 4;
    "sk_sndtimeo" ∷ CInt 8;
    "sk_timer" ∷ timer_list;
    "sk_priority" ∷ CInt 4;
    "sk_mark" ∷ CInt 4;
    "sk_pacing_rate" ∷ CInt 8;
    "sk_max_pacing_rate" ∷ CInt 8;
    "sk_frag" ∷ page_frag;
    "sk_route_caps" ∷ CInt 8;
    "sk_route_nocaps" ∷ CInt 8;
    "sk_route_forced_caps" ∷ CInt 8;
    "sk_gso_type" ∷ CInt 4;
    "sk_gso_max_size" ∷ CInt 4;
    "sk_allocation" ∷ CInt 4;
    "sk_txhash" ∷ CInt 4;
    "__sk_flags_offset" ∷ CArray (CInt 4) 0;
    "sk_padding" ∷ CInt 4 ⦂ 1;
    "sk_kern_sock" ∷ CInt 4 ⦂ 1;
    "sk_no_check_tx" ∷ CInt 4 ⦂ 1;
    "sk_no_check_rx" ∷ CInt 4 ⦂ 1;
    "sk_userlocks" ∷ CInt 4 ⦂ 4;
    "sk_protocol" ∷ CInt 4 ⦂ 8;
    "sk_type" ∷ CInt 4 ⦂ 16;
    "sk_gso_max_segs" ∷ CInt 2;
    "sk_pacing_shift" ∷ CInt 1;
    "sk_lingertime" ∷ CInt 8;
    "sk_prot_creator" ∷ CPtr "proto";
    "sk_callback_lock" ∷ rwlock_t;
    "sk_err" ∷ CInt 4;
    "sk_err_soft" ∷ CInt 4;
    "sk_ack_backlog" ∷ CInt 4;
    "sk_max_ack_backlog" ∷ CInt 4;
    "sk_uid" ∷ kuid_t;
    "sk_peer_pid" ∷ CPtr "pid";
    "sk_peer_cred" ∷ CPtr "cred";
    "sk_rcvtimeo" ∷ CInt 8;
    "sk_stamp" ∷ CInt 8;
    "sk_tsflags" ∷ CInt 2;
    "sk_shutdown" ∷ CInt 1;
    "sk_tskey" ∷ CInt 4;
    "sk_zckey" ∷ atomic_t;
    "sk_clockid" ∷ CInt 1;
    "sk_txtime_deadline_mode" ∷ CInt 1 ⦂ 1;
    "sk_txtime_report_errors" ∷ CInt 1 ⦂ 1;
    "sk_txtime_unused" ∷ CInt 1 ⦂ 6;
    "sk_socket" ∷ CPtr "socket";
    "sk_user_data" ∷ CPtr "void";
    "sk_security" ∷ CPtr "void";
    "sk_cgrp_data" ∷ sock_cgroup_data;
    "sk_memcg" ∷ CPtr "mem_cgroup";
    "sk_state_change" ∷ CPtr "()";
    "sk_data_ready" ∷ CPtr "()";
    "sk_write_space" ∷ CPtr "()";
    "sk_error_report" ∷ CPtr "()";
    "sk_backlog_rcv" ∷ CPtr "()";
    "sk_destruct" ∷ CPtr "()";
    "sk_reuseport_cb" ∷ CPtr "sock_reuseport";
    "sk_bpf_storage" ∷ CPtr "bpf_sk_storage";
    "sk_rcu" ∷ callback_head].

Definition net_device_stats : ctype :=
  struct [
    "rx_packets" ∷ CInt 8;
    "tx_packets" ∷ CInt 8;
    "rx_bytes" ∷ CInt 8;
    "tx_bytes" ∷ CInt 8;
    "rx_errors" ∷ CInt 8;
    "tx_errors" ∷ CInt 8;
    "rx_dropped" ∷ CInt 8;
    "tx_dropped" ∷ CInt 8;
    "multicast" ∷ CInt 8;
    "collisions" ∷ CInt 8;
    "rx_length_errors" ∷ CInt 8;
    "rx_over_errors" ∷ CInt 8;
    "rx_crc_errors" ∷ CInt 8;
    "rx_frame_errors" ∷ CInt 8;
    "rx_fifo_errors" ∷ CInt 8;
    "rx_missed_errors" ∷ CInt 8;
    "tx_aborted_errors" ∷ CInt 8;
    "tx_carrier_errors" ∷ CInt 8;
    "tx_fifo_errors" ∷ CInt 8;
    "tx_heartbeat_errors" ∷ CInt 8;
    "tx_window_errors" ∷ CInt 8;
    "rx_compressed" ∷ CInt 8;
    "tx_compressed" ∷ CInt 8].

Definition netdev_hw_addr_list : ctype :=
  struct [
    "list" ∷ list_head;
    "count" ∷ CInt 4].

Definition hlist_head : ctype :=
  struct [
    "first" ∷ CPtr "hlist_node"].

Definition kref : ctype :=
  struct [
    "refcount" ∷ refcount_struct].

Definition kobject : ctype :=
  struct [
    "name" ∷ CPtr "char";
    "entry" ∷ list_head;
    "parent" ∷ CPtr "kobject";
    "kset" ∷ CPtr "kset";
    "ktype" ∷ CPtr "kobj_type";
    "sd" ∷ CPtr "kernfs_node";
    "kref" ∷ kref;
    "state_initialized" ∷ CInt 4 ⦂ 1;
    "state_in_sysfs" ∷ CInt 4 ⦂ 1;
    "state_add_uevent_sent" ∷ CInt 4 ⦂ 1;
    "state_remove_uevent_sent" ∷ CInt 4 ⦂ 1;
    "uevent_suppress" ∷ CInt 4 ⦂ 1].

Definition optimistic_spin_queue : ctype :=
  struct [
    "tail" ∷ atomic_t].

Definition mutex : ctype :=
  struct [
    "owner" ∷ atomic64_t;
    "wait_lock" ∷ spinlock;
    "osq" ∷ optimistic_spin_queue;
    "wait_list" ∷ list_head].

Definition dev_links_info : ctype :=
  struct [
    "suppliers" ∷ list_head;
    "consumers" ∷ list_head;
    "needs_suppliers" ∷ list_head;
    "defer_sync" ∷ list_head;
    "need_for_probe" ∷ CInt 1;
    "status" ∷ CInt 4].

Definition pm_message : ctype :=
  struct [
    "event" ∷ CInt 4].

Definition completion : ctype :=
  struct [
    "done" ∷ CInt 4;
    "wait" ∷ wait_queue_head].

Definition timerqueue_node : ctype :=
  struct [
    "node" ∷ rb_node;
    "expires" ∷ CInt 8].

Definition hrtimer : ctype :=
  struct [
    "node" ∷ timerqueue_node;
    "_softexpires" ∷ CInt 8;
    "function" ∷ CPtr "()";
    "base" ∷ CPtr "hrtimer_clock_base";
    "state" ∷ CInt 1;
    "is_rel" ∷ CInt 1;
    "is_soft" ∷ CInt 1;
    "is_hard" ∷ CInt 1].

Definition work_struct : ctype :=
  struct [
    "data" ∷ atomic64_t;
    "entry" ∷ list_head;
    "func" ∷ CPtr "()"].

Definition dev_pm_info : ctype :=
  struct [
    "power_state" ∷ pm_message;
    "can_wakeup" ∷ CInt 4 ⦂ 1;
    "async_suspend" ∷ CInt 4 ⦂ 1;
    "in_dpm_list" ∷ CInt 1 ⦂ 1;
    "is_prepared" ∷ CInt 1 ⦂ 1;
    "is_suspended" ∷ CInt 1 ⦂ 1;
    "is_noirq_suspended" ∷ CInt 1 ⦂ 1;
    "is_late_suspended" ∷ CInt 1 ⦂ 1;
    "no_pm" ∷ CInt 1 ⦂ 1;
    "early_init" ∷ CInt 1 ⦂ 1;
    "direct_complete" ∷ CInt 1 ⦂ 1;
    "driver_flags" ∷ CInt 4;
    "lock" ∷ spinlock;
    "entry" ∷ list_head;
    "completion" ∷ completion;
    "wakeup" ∷ CPtr "wakeup_source";
    "wakeup_path" ∷ CInt 1 ⦂ 1;
    "syscore" ∷ CInt 1 ⦂ 1;
    "no_pm_callbacks" ∷ CInt 1 ⦂ 1;
    "must_resume" ∷ CInt 4 ⦂ 1;
    "may_skip_resume" ∷ CInt 4 ⦂ 1;
    "suspend_timer" ∷ hrtimer;
    "timer_expires" ∷ CInt 8;
    "work" ∷ work_struct;
    "wait_queue" ∷ wait_queue_head;
    "wakeirq" ∷ CPtr "wake_irq";
    "usage_count" ∷ atomic_t;
    "child_count" ∷ atomic_t;
    "disable_depth" ∷ CInt 4 ⦂ 3;
    "idle_notification" ∷ CInt 4 ⦂ 1;
    "request_pending" ∷ CInt 4 ⦂ 1;
    "deferred_resume" ∷ CInt 4 ⦂ 1;
    "runtime_auto" ∷ CInt 4 ⦂ 1;
    "ignore_children" ∷ CInt 1 ⦂ 1;
    "no_callbacks" ∷ CInt 4 ⦂ 1;
    "irq_safe" ∷ CInt 4 ⦂ 1;
    "use_autosuspend" ∷ CInt 4 ⦂ 1;
    "timer_autosuspends" ∷ CInt 4 ⦂ 1;
    "memalloc_noio" ∷ CInt 4 ⦂ 1;
    "links_count" ∷ CInt 4;
    "request" ∷ CInt 4;
    "runtime_status" ∷ CInt 4;
    "runtime_error" ∷ CInt 4;
    "autosuspend_delay" ∷ CInt 4;
    "last_busy" ∷ CInt 8;
    "active_time" ∷ CInt 8;
    "suspended_time" ∷ CInt 8;
    "accounting_timestamp" ∷ CInt 8;
    "subsys_data" ∷ CPtr "pm_subsys_data";
    "set_latency_tolerance" ∷ CPtr "()";
    "qos" ∷ CPtr "dev_pm_qos"].

Definition dev_archdata : ctype :=
  struct [
    "iommu" ∷ CPtr "void"].

Definition device : ctype :=
  struct [
    "kobj" ∷ kobject;
    "parent" ∷ CPtr "device";
    "p" ∷ CPtr "device_private";
    "init_name" ∷ CPtr "char";
    "type" ∷ CPtr "device_type";
    "bus" ∷ CPtr "bus_type";
    "driver" ∷ CPtr "device_driver";
    "platform_data" ∷ CPtr "void";
    "driver_data" ∷ CPtr "void";
    "mutex" ∷ mutex;
    "links" ∷ dev_links_info;
    "power" ∷ dev_pm_info;
    "pm_domain" ∷ CPtr "dev_pm_domain";
    "msi_domain" ∷ CPtr "irq_domain";
    "msi_list" ∷ list_head;
    "dma_ops" ∷ CPtr "dma_map_ops";
    "dma_mask" ∷ CPtr "u64";
    "coherent_dma_mask" ∷ CInt 8;
    "bus_dma_limit" ∷ CInt 8;
    "dma_pfn_offset" ∷ CInt 8;
    "dma_parms" ∷ CPtr "device_dma_parameters";
    "dma_pools" ∷ list_head;
    "archdata" ∷ dev_archdata;
    "of_node" ∷ CPtr "device_node";
    "fwnode" ∷ CPtr "fwnode_handle";
    "numa_node" ∷ CInt 4;
    "devt" ∷ CInt 4;
    "id" ∷ CInt 4;
    "devres_lock" ∷ spinlock;
    "devres_head" ∷ list_head;
    "class" ∷ CPtr "class";
    "groups" ∷ CPtr "attribute_group*";
    "release" ∷ CPtr "()";
    "iommu_group" ∷ CPtr "iommu_group";
    "iommu_fwspec" ∷ CPtr "iommu_fwspec";
    "iommu_param" ∷ CPtr "iommu_param";
    "offline_disabled" ∷ CInt 1 ⦂ 1;
    "offline" ∷ CInt 1 ⦂ 1;
    "of_node_reused" ∷ CInt 1 ⦂ 1;
    "state_synced" ∷ CInt 1 ⦂ 1].

Definition netdev_tc_txq : ctype :=
  struct [
    "count" ∷ CInt 2;
    "offset" ∷ CInt 2].

Definition lock_class_key : ctype :=
  struct [
].

Definition net_device : ctype :=
  struct [
    "name" ∷ CArray (CInt 1) 16;
    "name_node" ∷ CPtr "netdev_name_node";
    "ifalias" ∷ CPtr "dev_ifalias";
    "mem_end" ∷ CInt 8;
    "mem_start" ∷ CInt 8;
    "base_addr" ∷ CInt 8;
    "irq" ∷ CInt 4;
    "state" ∷ CInt 8;
    "dev_list" ∷ list_head;
    "napi_list" ∷ list_head;
    "unreg_list" ∷ list_head;
    "close_list" ∷ list_head;
    "ptype_all" ∷ list_head;
    "ptype_specific" ∷ list_head;
    "adj_list" ∷ struct [
      "upper" ∷ list_head;
      "lower" ∷ list_head];
    "features" ∷ CInt 8;
    "hw_features" ∷ CInt 8;
    "wanted_features" ∷ CInt 8;
    "vlan_features" ∷ CInt 8;
    "hw_enc_features" ∷ CInt 8;
    "mpls_features" ∷ CInt 8;
    "gso_partial_features" ∷ CInt 8;
    "ifindex" ∷ CInt 4;
    "group" ∷ CInt 4;
    "stats" ∷ net_device_stats;
    "rx_dropped" ∷ atomic64_t;
    "tx_dropped" ∷ atomic64_t;
    "rx_nohandler" ∷ atomic64_t;
    "carrier_up_count" ∷ atomic_t;
    "carrier_down_count" ∷ atomic_t;
    "netdev_ops" ∷ CPtr "net_device_ops";
    "ethtool_ops" ∷ CPtr "ethtool_ops";
    "ndisc_ops" ∷ CPtr "ndisc_ops";
    "header_ops" ∷ CPtr "header_ops";
    "flags" ∷ CInt 4;
    "priv_flags" ∷ CInt 4;
    "gflags" ∷ CInt 2;
    "padded" ∷ CInt 2;
    "operstate" ∷ CInt 1;
    "link_mode" ∷ CInt 1;
    "if_port" ∷ CInt 1;
    "dma" ∷ CInt 1;
    "mtu" ∷ CInt 4;
    "min_mtu" ∷ CInt 4;
    "max_mtu" ∷ CInt 4;
    "type" ∷ CInt 2;
    "hard_header_len" ∷ CInt 2;
    "min_header_len" ∷ CInt 1;
    "needed_headroom" ∷ CInt 2;
    "needed_tailroom" ∷ CInt 2;
    "perm_addr" ∷ CArray (CInt 1) 32;
    "addr_assign_type" ∷ CInt 1;
    "addr_len" ∷ CInt 1;
    "upper_level" ∷ CInt 1;
    "lower_level" ∷ CInt 1;
    "neigh_priv_len" ∷ CInt 2;
    "dev_id" ∷ CInt 2;
    "dev_port" ∷ CInt 2;
    "addr_list_lock" ∷ spinlock;
    "name_assign_type" ∷ CInt 1;
    "uc_promisc" ∷ CInt 1;
    "uc" ∷ netdev_hw_addr_list;
    "mc" ∷ netdev_hw_addr_list;
    "dev_addrs" ∷ netdev_hw_addr_list;
    "queues_kset" ∷ CPtr "kset";
    "promiscuity" ∷ CInt 4;
    "allmulti" ∷ CInt 4;
    "ip_ptr" ∷ CPtr "in_device";
    "ip6_ptr" ∷ CPtr "inet6_dev";
    "ieee80211_ptr" ∷ CPtr "wireless_dev";
    "ieee802154_ptr" ∷ CPtr "wpan_dev";
    "dev_addr" ∷ CPtr "unsigned char";
    "_rx" ∷ CPtr "netdev_rx_queue";
    "num_rx_queues" ∷ CInt 4;
    "real_num_rx_queues" ∷ CInt 4;
    "xdp_prog" ∷ CPtr "bpf_prog";
    "gro_flush_timeout" ∷ CInt 8;
    "rx_handler" ∷ CPtr "rx_handler_func_t";
    "rx_handler_data" ∷ CPtr "void";
    "miniq_ingress" ∷ CPtr "mini_Qdisc";
    "ingress_queue" ∷ CPtr "netdev_queue";
    "nf_hooks_ingress" ∷ CPtr "nf_hook_entries";
    "broadcast" ∷ CArray (CInt 1) 32;
    "rx_cpu_rmap" ∷ CPtr "cpu_rmap";
    "index_hlist" ∷ hlist_node;
    "" ∷ CInt 8 ⦂ 64;
    "" ∷ CInt 8 ⦂ 64;
    "" ∷ CInt 8 ⦂ 64;
    "" ∷ CInt 8 ⦂ 64;
    "" ∷ CInt 8 ⦂ 64;
    "_tx" ∷ CPtr "netdev_queue";
    "num_tx_queues" ∷ CInt 4;
    "real_num_tx_queues" ∷ CInt 4;
    "qdisc" ∷ CPtr "Qdisc";
    "qdisc_hash" ∷ CArray hlist_head 16;
    "tx_queue_len" ∷ CInt 4;
    "tx_global_lock" ∷ spinlock;
    "watchdog_timeo" ∷ CInt 4;
    "xps_cpus_map" ∷ CPtr "xps_dev_maps";
    "xps_rxqs_map" ∷ CPtr "xps_dev_maps";
    "miniq_egress" ∷ CPtr "mini_Qdisc";
    "watchdog_timer" ∷ timer_list;
    "pcpu_refcnt" ∷ CPtr "int";
    "todo_list" ∷ list_head;
    "link_watch_list" ∷ list_head;
    "reg_state" ∷ CInt 4 ⦂ 8;
    "dismantle" ∷ CInt 1;
    "rtnl_link_state" ∷ CInt 4 ⦂ 16;
    "needs_free_netdev" ∷ CInt 1;
    "priv_destructor" ∷ CPtr "()";
    "npinfo" ∷ CPtr "netpoll_info";
    "nd_net" ∷ possible_net_t;
    "" ∷ union [
      "ml_priv" ∷ CPtr "void";
      "lstats" ∷ CPtr "pcpu_lstats";
      "tstats" ∷ CPtr "pcpu_sw_netstats";
      "dstats" ∷ CPtr "pcpu_dstats"];
    "dev" ∷ device;
    "sysfs_groups" ∷ CArray (CPtr "attribute_group") 4;
    "sysfs_rx_queue_group" ∷ CPtr "attribute_group";
    "rtnl_link_ops" ∷ CPtr "rtnl_link_ops";
    "gso_max_size" ∷ CInt 4;
    "gso_max_segs" ∷ CInt 2;
    "num_tc" ∷ CInt 2;
    "tc_to_txq" ∷ CArray netdev_tc_txq 16;
    "prio_tc_map" ∷ CArray (CInt 1) 16;
    "phydev" ∷ CPtr "phy_device";
    "sfp_bus" ∷ CPtr "sfp_bus";
    "qdisc_tx_busylock_key" ∷ lock_class_key;
    "qdisc_running_key" ∷ lock_class_key;
    "qdisc_xmit_lock_key" ∷ lock_class_key;
    "addr_list_lock_key" ∷ lock_class_key;
    "proto_down" ∷ CInt 1;
    "wol_enabled" ∷ CInt 4 ⦂ 1].

Definition llist_node : ctype :=
  struct [
    "next" ∷ CPtr "llist_node"].

Definition xarray : ctype :=
  struct [
    "xa_lock" ∷ spinlock;
    "xa_flags" ∷ CInt 4;
    "xa_head" ∷ CPtr "void"].

Definition idr : ctype :=
  struct [
    "idr_rt" ∷ xarray;
    "idr_base" ∷ CInt 4;
    "idr_next" ∷ CInt 4].

Definition ns_common : ctype :=
  struct [
    "stashed" ∷ atomic64_t;
    "ops" ∷ CPtr "proc_ns_operations";
    "inum" ∷ CInt 4].

Definition net : ctype :=
  struct [
    "passive" ∷ refcount_struct;
    "count" ∷ refcount_struct;
    "rules_mod_lock" ∷ spinlock;
    "dev_unreg_count" ∷ CInt 4;
    "dev_base_seq" ∷ CInt 4;
    "ifindex" ∷ CInt 4;
    "nsid_lock" ∷ spinlock;
    "fnhe_genid" ∷ atomic_t;
    "list" ∷ list_head;
    "exit_list" ∷ list_head;
    "cleanup_list" ∷ llist_node;
    "key_domain" ∷ CPtr "key_tag";
    "user_ns" ∷ CPtr "user_namespace";
    "ucounts" ∷ CPtr "ucounts";
    "netns_ids" ∷ idr;
    "ns" ∷ ns_common].

Definition ethhdr : ctype :=
  struct [
    "h_dest" ∷ CArray (CInt 1) 6;
    "h_source" ∷ CArray (CInt 1) 6;
    "h_proto" ∷ CInt 2].

Definition iphdr : ctype :=
  struct [
    "ihl" ∷ CInt 1 ⦂ 4;
    "version" ∷ CInt 1 ⦂ 4;
    "tos" ∷ CInt 1;
    "tot_len" ∷ CInt 2;
    "id" ∷ CInt 2;
    "frag_off" ∷ CInt 2;
    "ttl" ∷ CInt 1;
    "protocol" ∷ CInt 1;
    "check" ∷ CInt 2;
    "saddr" ∷ CInt 4;
    "daddr" ∷ CInt 4].

Definition ipv6hdr : ctype :=
  struct [
    "priority" ∷ CInt 1 ⦂ 4;
    "version" ∷ CInt 1 ⦂ 4;
    "flow_lbl" ∷ CArray (CInt 1) 3;
    "payload_len" ∷ CInt 2;
    "nexthdr" ∷ CInt 1;
    "hop_limit" ∷ CInt 1;
    "saddr" ∷ in6_addr;
    "daddr" ∷ in6_addr].

Definition tcphdr : ctype :=
  struct [
    "source" ∷ CInt 2;
    "dest" ∷ CInt 2;
    "seq" ∷ CInt 4;
    "ack_seq" ∷ CInt 4;
    "res1" ∷ CInt 2 ⦂ 4;
    "doff" ∷ CInt 2 ⦂ 4;
    "fin" ∷ CInt 2 ⦂ 1;
    "syn" ∷ CInt 2 ⦂ 1;
    "rst" ∷ CInt 2 ⦂ 1;
    "psh" ∷ CInt 2 ⦂ 1;
    "ack" ∷ CInt 2 ⦂ 1;
    "urg" ∷ CInt 2 ⦂ 1;
    "ece" ∷ CInt 2 ⦂ 1;
    "cwr" ∷ CInt 2 ⦂ 1;
    "window" ∷ CInt 2;
    "check" ∷ CInt 2;
    "urg_ptr" ∷ CInt 2].

Definition udphdr : ctype :=
  struct [
    "source" ∷ CInt 2;
    "dest" ∷ CInt 2;
    "len" ∷ CInt 2;
    "check" ∷ CInt 2].

Definition __sk_buff : ctype :=
  struct [
    "len" ∷ CInt 4;
    "pkt_type" ∷ CInt 4;
    "mark" ∷ CInt 4;
    "queue_mapping" ∷ CInt 4;
    "protocol" ∷ CInt 4;
    "vlan_present" ∷ CInt 4;
    "vlan_tci" ∷ CInt 4;
    "vlan_proto" ∷ CInt 4;
    "priority" ∷ CInt 4;
    "ingress_ifindex" ∷ CInt 4;
    "ifindex" ∷ CInt 4;
    "tc_index" ∷ CInt 4;
    "cb" ∷ CArray (CInt 4) 5;
    "hash" ∷ CInt 4;
    "tc_classid" ∷ CInt 4;
    "data" ∷ CInt 4;
    "data_end" ∷ CInt 4;
    "napi_id" ∷ CInt 4;
    "family" ∷ CInt 4;
    "remote_ip4" ∷ CInt 4;
    "local_ip4" ∷ CInt 4;
    "remote_ip6" ∷ CArray (CInt 4) 4;
    "local_ip6" ∷ CArray (CInt 4) 4;
    "remote_port" ∷ CInt 4;
    "local_port" ∷ CInt 4;
    "data_meta" ∷ CInt 4;
    "" ∷ union [
      "flow_keys" ∷ CPtr "bpf_flow_keys"];
    "tstamp" ∷ CInt 8;
    "wire_len" ∷ CInt 4;
    "gso_segs" ∷ CInt 4;
    "" ∷ union [
      "sk" ∷ CPtr "bpf_sock"]].

Definition xdp_md : ctype :=
  struct [
    "data" ∷ CInt 4;
    "data_end" ∷ CInt 4;
    "data_meta" ∷ CInt 4;
    "ingress_ifindex" ∷ CInt 4;
    "rx_queue_index" ∷ CInt 4].

Definition pt_regs : ctype :=
  struct [
    "r15" ∷ CInt 8;
    "r14" ∷ CInt 8;
    "r13" ∷ CInt 8;
    "r12" ∷ CInt 8;
    "bp" ∷ CInt 8;
    "bx" ∷ CInt 8;
    "r11" ∷ CInt 8;
    "r10" ∷ CInt 8;
    "r9" ∷ CInt 8;
    "r8" ∷ CInt 8;
    "ax" ∷ CInt 8;
    "cx" ∷ CInt 8;
    "dx" ∷ CInt 8;
    "si" ∷ CInt 8;
    "di" ∷ CInt 8;
    "orig_ax" ∷ CInt 8;
    "ip" ∷ CInt 8;
    "cs" ∷ CInt 8;
    "flags" ∷ CInt 8;
    "sp" ∷ CInt 8;
    "ss" ∷ CInt 8].

Definition bpf_map_type : list (string * Z) :=
  [("BPF_MAP_TYPE_UNSPEC", 0); ("BPF_MAP_TYPE_HASH", 1); ("BPF_MAP_TYPE_ARRAY", 2);
   ("BPF_MAP_TYPE_PROG_ARRAY", 3); ("BPF_MAP_TYPE_PERF_EVENT_ARRAY", 4); ("BPF_MAP_TYPE_PERCPU_HASH", 5);
   ("BPF_MAP_TYPE_PERCPU_ARRAY", 6); ("BPF_MAP_TYPE_STACK_TRACE", 7); ("BPF_MAP_TYPE_CGROUP_ARRAY", 8);
   ("BPF_MAP_TYPE_LRU_HASH", 9); ("BPF_MAP_TYPE_LRU_PERCPU_HASH", 10); ("BPF_MAP_TYPE_LPM_TRIE", 11);
   ("BPF_MAP_TYPE_ARRAY_OF_MAPS", 12); ("BPF_MAP_TYPE_HASH_OF_MAPS", 13); ("BPF_MAP_TYPE_DEVMAP", 14);
   ("BPF_MAP_TYPE_SOCKMAP", 15); ("BPF_MAP_TYPE_CPUMAP", 16); ("BPF_MAP_TYPE_XSKMAP", 17);
   ("BPF_MAP_TYPE_SOCKHASH", 18); ("BPF_MAP_TYPE_CGROUP_STORAGE", 19);
   ("BPF_MAP_TYPE_REUSEPORT_SOCKARRAY", 20); ("BPF_MAP_TYPE_PERCPU_CGROUP_STORAGE", 21);
   ("BPF_MAP_TYPE_QUEUE", 22); ("BPF_MAP_TYPE_STACK", 23); ("BPF_MAP_TYPE_SK_STORAGE", 24);
   ("BPF_MAP_TYPE_DEVMAP_HASH", 25)]%string.

Definition map_update_flags : list (string * Z) :=
  [("BPF_ANY", 0); ("BPF_NOEXIST", 1); ("BPF_EXIST", 2); ("BPF_F_LOCK", 4)]%string.

Definition perf_flags : list (string * Z) :=
  [("BPF_F_INDEX_MASK", 4294967295); ("BPF_F_CURRENT_CPU", 4294967295); ("BPF_F_CTXLEN_MASK", 0)]%string.

Definition softirqs : list (string * Z) :=
  [("HI_SOFTIRQ", 0); ("TIMER_SOFTIRQ", 1); ("NET_TX_SOFTIRQ", 2); ("NET_RX_SOFTIRQ", 3); ("BLOCK_SOFTIRQ", 4);
   ("IRQ_POLL_SOFTIRQ", 5); ("TASKLET_SOFTIRQ", 6); ("SCHED_SOFTIRQ", 7); ("HRTIMER_SOFTIRQ", 8);
   ("RCU_SOFTIRQ", 9); ("NR_SOFTIRQS", 10)]%string.

Definition ip_protocols : list (string * Z) :=
  [("IPPROTO_IP", 0); ("IPPROTO_ICMP", 1); ("IPPROTO_IGMP", 2); ("IPPROTO_IPIP", 4); ("IPPROTO_TCP", 6);
   ("IPPROTO_EGP", 8); ("IPPROTO_PUP", 12); ("IPPROTO_UDP", 17); ("IPPROTO_IDP", 22); ("IPPROTO_TP", 29);
   ("IPPROTO_DCCP", 33); ("IPPROTO_IPV6", 41); ("IPPROTO_RSVP", 46); ("IPPROTO_GRE", 47); ("IPPROTO_ESP", 50);
   ("IPPROTO_AH", 51); ("IPPROTO_MTP", 92); ("IPPROTO_BEETPH", 94); ("IPPROTO_ENCAP", 98);
   ("IPPROTO_PIM", 103); ("IPPROTO_COMP", 108); ("IPPROTO_SCTP", 132); ("IPPROTO_UDPLITE", 136);
   ("IPPROTO_MPLS", 137); ("IPPROTO_RAW", 255); ("IPPROTO_MAX", 256)]%string.

(** All object types. *)
Definition declared : list ctype :=
  [rb_node; list_head; atomic_t; refcount_struct; sk_buff; hlist_node;
   possible_net_t; in6_addr; atomic64_t; hlist_nulls_node; sock_common; qspinlock;
   raw_spinlock; spinlock; wait_queue_head; socket_lock_t; sk_buff_head; rb_root;
   timer_list; page_frag; qrwlock; rwlock_t; kuid_t; sock_cgroup_data;
   callback_head; sock; net_device_stats; netdev_hw_addr_list; hlist_head; kref;
   kobject; optimistic_spin_queue; mutex; dev_links_info; pm_message; completion;
   timerqueue_node; hrtimer; work_struct; dev_pm_info; dev_archdata; device;
   netdev_tc_txq; lock_class_key; net_device; llist_node; xarray; idr;
   ns_common; net; ethhdr; iphdr; ipv6hdr; tcphdr;
   udphdr; __sk_buff; xdp_md; pt_regs].

Lemma amd64_declared_wf : forallb wf_ctype declared = true.
Proof. vm_compute. done. Qed.

End Amd64.
