(* ===== verification/KernelMem.v ===== *)
(** Kernel memory and the probe-read helpers.

    A kernel address space maps addresses to bytes; an unmapped address makes
    [bpf_probe_read] fail.  The CO-RE read macros of
    src/bpf/headers/bpf_core_read.h are chains of such reads through the
    field positions of the running kernel, which the BPF loader relocates:
    the positions are the interface [KernelLayout], with one instance per
    vmlinux.h of the repository. *)

From S2P Require Import Prelude CLayout VmlinuxAmd64 VmlinuxArm64.

(** ** Address space *)

(** [mem_byte] is the byte at a mapped address; [mem_fault n a] is what the
    kernel leaves in the destination of an [n]-byte probe read of [a] that
    faults. *)
Record mem := Mem {
  mem_byte : Z -> option Z;
  mem_fault : nat -> Z -> list Z;
}.

(** Every mapped address holds a byte, and a faulting read fills its
    destination with bytes. *)
Definition wf_mem (m : mem) : Prop :=
  (∀ a b, mem_byte m a = Some b -> is_byte b) ∧
  (∀ n a, length (mem_fault m n a) = n ∧ Forall is_byte (mem_fault m n a)).

(** Linux clears the destination of a faulting probe read.  Only the
    theorems about unmapped objects ask for it. *)
Definition zero_fill (m : mem) : Prop := ∀ n a, mem_fault m n a = replicate n 0.

(** [mem_of segs]: the memory whose mapped parts are the byte strings of
    [segs], each at its address; used to build concrete kernels. *)
Definition mem_of (segs : list (Z * list Z)) : mem := {|
  mem_byte a :=
    match list_find (λ s : Z * list Z, s.1 <= a < s.1 + Z.of_nat (length s.2)) segs with
    | Some (_, s) => s.2 !! Z.to_nat (a - s.1)
    | None => None
    end;
  mem_fault n _ := replicate n 0;
|}.

Definition mem_read (m : mem) (a : Z) (n : nat) : option (list Z) :=
  mapM (λ i, mem_byte m (a + Z.of_nat i)) (seq 0 n).

(** ** Helpers (bpf_helper_defs.h) *)

(** src/bpf/headers/errno-base.h *)
Definition EPERM : Z := 1.
Definition ENOENT : Z := 2.
Definition E2BIG : Z := 7.
Definition ENOMEM : Z := 12.
Definition EFAULT : Z := 14.
Definition EBUSY : Z := 16.
Definition EEXIST : Z := 17.
Definition EINVAL : Z := 22.

(** [bpf_probe_read(dst, n, src)]: the bytes stored in [dst] and the return
    value. *)
Definition bpf_probe_read (m : mem) (n : nat) (src : Z) : list Z * Z :=
  match mem_read m src n with
  | Some bs => (bs, 0)
  | None => (mem_fault m n src, - EFAULT)
  end.

Definition bpf_probe_read_kernel (m : mem) (n : nat) (src : Z) : list Z * Z :=
  bpf_probe_read m n src.

(** Pointer arithmetic on kernel addresses. *)
Definition ptr_add (p off : Z) : Z := u64 (p + off).

(** ** CO-RE reads (bpf_core_read.h) *)

(** [___read(bpf_core_read, dst, type, src, accessor)]: one relocated field
    read of [n] bytes at byte position [off] of the object at [src]. *)
Definition ___read (m : mem) (n : nat) (src off : Z) : list Z :=
  (bpf_probe_read_kernel m n (ptr_add src off)).1.

(** [___read_ptrs]: follow the inner pointers with the local [__t]. *)
Fixpoint ___read_ptrs (m : mem) (src : Z) (offs : list Z) : Z :=
  match offs with
  | [] => src
  | off :: offs' => ___read_ptrs m (le_val (___read m 8 src off)) offs'
  end.

(** [BPF_CORE_READ(src, a, b, ..., z)]: all accessors but the last are
    pointers; the last is an [n]-byte integer. *)
Definition BPF_CORE_READ (m : mem) (src : Z) (ptrs : list Z) (last : Z) (n : nat) : Z :=
  le_val (___read m n (___read_ptrs m src ptrs) last).

(** ** The fields the probes read *)

(** Byte positions of the accessed members in the running kernel's types. *)
Class KernelLayout := {
  skb_head : Z;
  skb_network_header : Z;
  skb_transport_header : Z;
  skb_dev : Z;
  skb_sk : Z;
  skb_mark : Z;
  skb_len : Z;
  skb_protocol : Z;
  dev_nd_net_net : Z;
  dev_ifindex : Z;
  dev_mtu : Z;
  net_ns_inum : Z;
  sk_skc_net_net : Z;
  sk_skc_family : Z;
  sk_skc_rcv_saddr : Z;
  sk_skc_daddr : Z;
  sk_skc_num : Z;
  sk_skc_dport : Z;
  sk_skc_state : Z;
  sk_gso_max_segs : Z;
  ip_saddr : Z;
  ip_daddr : Z;
  ip_protocol : Z;
  ip6_saddr : Z;
  ip6_daddr : Z;
  ip6_nexthdr : Z;
  tcp_source : Z;
  tcp_dest : Z;
  udp_source : Z;
  udp_dest : Z;
}.

Definition off (t : ctype) (path : list string) : Z := default (-1) (offsetof t path).

Definition amd64_layout : KernelLayout := Eval vm_compute in {|
  skb_head := off Amd64.sk_buff ["head"];
  skb_network_header := off Amd64.sk_buff ["network_header"];
  skb_transport_header := off Amd64.sk_buff ["transport_header"];
  skb_dev := off Amd64.sk_buff ["dev"];
  skb_sk := off Amd64.sk_buff ["sk"];
  skb_mark := off Amd64.sk_buff ["mark"];
  skb_len := off Amd64.sk_buff ["len"];
  skb_protocol := off Amd64.sk_buff ["protocol"];
  dev_nd_net_net := off Amd64.net_device ["nd_net"; "net"];
  dev_ifindex := off Amd64.net_device ["ifindex"];
  dev_mtu := off Amd64.net_device ["mtu"];
  net_ns_inum := off Amd64.net ["ns"; "inum"];
  sk_skc_net_net := off Amd64.sock ["__sk_common"; "skc_net"; "net"];
  sk_skc_family := off Amd64.sock ["__sk_common"; "skc_family"];
  sk_skc_rcv_saddr := off Amd64.sock ["__sk_common"; "skc_rcv_saddr"];
  sk_skc_daddr := off Amd64.sock ["__sk_common"; "skc_daddr"];
  sk_skc_num := off Amd64.sock ["__sk_common"; "skc_num"];
  sk_skc_dport := off Amd64.sock ["__sk_common"; "skc_dport"];
  sk_skc_state := off Amd64.sock ["__sk_common"; "skc_state"];
  sk_gso_max_segs := off Amd64.sock ["sk_gso_max_segs"];
  ip_saddr := off Amd64.iphdr ["saddr"];
  ip_daddr := off Amd64.iphdr ["daddr"];
  ip_protocol := off Amd64.iphdr ["protocol"];
  ip6_saddr := off Amd64.ipv6hdr ["saddr"];
  ip6_daddr := off Amd64.ipv6hdr ["daddr"];
  ip6_nexthdr := off Amd64.ipv6hdr ["nexthdr"];
  tcp_source := off Amd64.tcphdr ["source"];
  tcp_dest := off Amd64.tcphdr ["dest"];
  udp_source := off Amd64.udphdr ["source"];
  udp_dest := off Amd64.udphdr ["dest"];
|}.

Definition arm64_layout : KernelLayout := Eval vm_compute in {|
  skb_head := off Arm64.sk_buff ["head"];
  skb_network_header := off Arm64.sk_buff ["network_header"];
  skb_transport_header := off Arm64.sk_buff ["transport_header"];
  skb_dev := off Arm64.sk_buff ["dev"];
  skb_sk := off Arm64.sk_buff ["sk"];
  skb_mark := off Arm64.sk_buff ["mark"];
  skb_len := off Arm64.sk_buff ["len"];
  skb_protocol := off Arm64.sk_buff ["protocol"];
  dev_nd_net_net := off Arm64.net_device ["nd_net"; "net"];
  dev_ifindex := off Arm64.net_device ["ifindex"];
  dev_mtu := off Arm64.net_device ["mtu"];
  net_ns_inum := off Arm64.net ["ns"; "inum"];
  sk_skc_net_net := off Arm64.sock ["__sk_common"; "skc_net"; "net"];
  sk_skc_family := off Arm64.sock ["__sk_common"; "skc_family"];
  sk_skc_rcv_saddr := off Arm64.sock ["__sk_common"; "skc_rcv_saddr"];
  sk_skc_daddr := off Arm64.sock ["__sk_common"; "skc_daddr"];
  sk_skc_num := off Arm64.sock ["__sk_common"; "skc_num"];
  sk_skc_dport := off Arm64.sock ["__sk_common"; "skc_dport"];
  sk_skc_state := off Arm64.sock ["__sk_common"; "skc_state"];
  sk_gso_max_segs := off Arm64.sock ["sk_gso_max_segs"];
  ip_saddr := off Arm64.iphdr ["saddr"];
  ip_daddr := off Arm64.iphdr ["daddr"];
  ip_protocol := off Arm64.iphdr ["protocol"];
  ip6_saddr := off Arm64.ipv6hdr ["saddr"];
  ip6_daddr := off Arm64.ipv6hdr ["daddr"];
  ip6_nexthdr := off Arm64.ipv6hdr ["nexthdr"];
  tcp_source := off Arm64.tcphdr ["source"];
  tcp_dest := off Arm64.tcphdr ["dest"];
  udp_source := off Arm64.udphdr ["source"];
  udp_dest := off Arm64.udphdr ["dest"];
|}.


(** [bytes_at m a bs]: the object at address [a] consists of the bytes [bs]. *)
Definition bytes_at (m : mem) (a : Z) (bs : list Z) : Prop :=
  mem_read m a (length bs) = Some bs.

(** ** Lemmas *)

Lemma mem_read_length (m : mem) (a : Z) (n : nat) (bs : list Z) :
  mem_read m a n = Some bs -> length bs = n.
Proof. intros H. apply length_mapM in H. by rewrite length_seq in H. Qed.

Lemma mem_read_lookup (m : mem) (a : Z) (n : nat) (bs : list Z) :
  mem_read m a n = Some bs ↔
  length bs = n ∧ ∀ i, (i < n)%nat -> mem_byte m (a + Z.of_nat i) = bs !! i.
Proof.
  unfold mem_read. rewrite mapM_Some. split.
  - intros H. pose proof (Forall2_length _ _ _ H) as Hl. rewrite length_seq in Hl.
    split; [done|]. intros i Hi.
    destruct (lookup_lt_is_Some_2 bs i) as [b Hb]; [lia|]. rewrite Hb.
    eapply Forall2_lookup_lr in H; [|by apply lookup_seq_lt|exact Hb]. done.
  - intros [Hl H]. apply Forall2_same_length_lookup_2; [by rewrite length_seq|].
    intros i x b Hx Hb. apply lookup_seq in Hx as [-> Hi]. by rewrite Nat.add_0_l, H.
Qed.

Lemma mem_read_bytes (m : mem) (a : Z) (n : nat) (bs : list Z) :
  wf_mem m -> mem_read m a n = Some bs -> Forall is_byte bs.
Proof.
  intros Hm [Hl H]%mem_read_lookup. apply Forall_lookup. intros i b Hb.
  apply (proj1 Hm (a + Z.of_nat i)). rewrite H; [done|]. apply lookup_lt_Some in Hb. lia.
Qed.

(** A field of an object: the bytes at its position. *)
Lemma bytes_at_field (m : mem) (a : Z) (bs : list Z) (o n : nat) :
  bytes_at m a bs -> (o + n <= length bs)%nat ->
  mem_read m (a + Z.of_nat o) n = Some (slice bs o n).
Proof.
  intros [_ H]%mem_read_lookup Hn. apply mem_read_lookup. unfold slice. split.
  - rewrite length_take, length_drop. lia.
  - intros i Hi. rewrite lookup_take_lt, lookup_drop by lia.
    rewrite <- H by lia. f_equal. lia.
Qed.

Lemma probe_read_ok (m : mem) (n : nat) (src : Z) (bs : list Z) :
  mem_read m src n = Some bs -> bpf_probe_read m n src = (bs, 0).
Proof. unfold bpf_probe_read. by intros ->. Qed.

Lemma probe_read_fault (m : mem) (n : nat) (src : Z) :
  mem_read m src n = None -> bpf_probe_read m n src = (mem_fault m n src, - EFAULT).
Proof. unfold bpf_probe_read. by intros ->. Qed.

Lemma probe_read_length (m : mem) (n : nat) (src : Z) :
  wf_mem m -> length (bpf_probe_read m n src).1 = n.
Proof.
  intros [_ Hf]. unfold bpf_probe_read. destruct (mem_read m src n) eqn:E; simpl.
  - by apply mem_read_length in E.
  - apply Hf.
Qed.

Lemma probe_read_bytes (m : mem) (n : nat) (src : Z) :
  wf_mem m -> Forall is_byte (bpf_probe_read m n src).1.
Proof.
  intros Hm. unfold bpf_probe_read. destruct (mem_read m src n) eqn:E; simpl.
  - by eapply mem_read_bytes.
  - apply Hm.
Qed.

Lemma core_read_fits (m : mem) (src : Z) (ptrs : list Z) (last : Z) (n : nat) :
  wf_mem m -> fits (8 * Z.of_nat n) (BPF_CORE_READ m src ptrs last n).
Proof.
  intros Hm. unfold BPF_CORE_READ, ___read, bpf_probe_read_kernel.
  set (a := ptr_add _ _).
  pose proof (le_val_bound _ (probe_read_bytes m n a Hm)) as H.
  by rewrite probe_read_length in H by done.
Qed.

(** With [zero_fill], a chain that reads an unmapped last field gives 0. *)
Lemma core_read_fault (m : mem) (src : Z) (ptrs : list Z) (last : Z) (n : nat) :
  zero_fill m -> mem_read m (ptr_add (___read_ptrs m src ptrs) last) n = None ->
  BPF_CORE_READ m src ptrs last n = 0.
Proof.
  intros Hz Hm. unfold BPF_CORE_READ, ___read, bpf_probe_read_kernel.
  rewrite probe_read_fault by done. cbn [fst]. rewrite Hz. apply le_val_zeros.
Qed.

Lemma core_read_ok (m : mem) (src : Z) (ptrs : list Z) (last : Z) (n : nat) (bs : list Z) :
  mem_read m (ptr_add (___read_ptrs m src ptrs) last) n = Some bs ->
  BPF_CORE_READ m src ptrs last n = le_val bs.
Proof.
  intros Hm. unfold BPF_CORE_READ, ___read, bpf_probe_read_kernel.
  by rewrite (probe_read_ok _ _ _ _ Hm).
Qed.

(** Concrete kernels are well formed. *)
Lemma mem_of_wf (segs : list (Z * list Z)) :
  Forall (λ s, Forall is_byte s.2) segs -> wf_mem (mem_of segs).
Proof.
  intros Hs. split; simpl.
  - intros a b. destruct (list_find _ segs) as [[i s]|] eqn:E; [|done].
    apply list_find_Some in E as (E & _). intros Hb.
    rewrite Forall_lookup in Hs. specialize (Hs _ _ E). rewrite Forall_lookup in Hs. eauto.
  - intros n a. split; [apply length_replicate|apply zeros_byte].
Qed.

Lemma mem_of_zero_fill (segs : list (Z * list Z)) : zero_fill (mem_of segs).
Proof. done. Qed.

(** An object occupies the bytes that it was placed at. *)
Lemma mem_of_bytes_at (a : Z) (bs : list Z) : bytes_at (mem_of [(a, bs)]) a bs.
Proof.
  unfold bytes_at, mem_read. apply mapM_Some_2, Forall2_same_length_lookup. rewrite length_seq. split; [done|].
  intros i k b Hk Hb. apply lookup_seq in Hk as [-> Hi]. unfold mem_of. cbn [mem_byte].
  cbn [list_find]. rewrite decide_True by (simpl; lia). cbn [fst snd].
  by replace (Z.to_nat (a + Z.of_nat (0 + i) - a)) with i by lia.
Qed.


#[export] Hint Resolve probe_read_bytes core_read_fits : bpf.
