(* ===== verification/CoreRead.v ===== *)
(** src/bpf/headers/bpf_core_read.h: the CO-RE read macros.

    [Bitfield] is the two macros that extract a bit-field of a kernel object
    whose position the loader relocates; what the compiler and the loader put
    in for [__builtin_preserve_field_info] is a parameter.  [Expand] is the
    variadic macros: they are translated as the preprocessor sees them, from
    argument lists to the sequence of reads they expand to, and the sequence
    is then run against the probe-read helpers.  The theorems show that the
    extraction yields the field's bits, and that the expansion is the pointer
    chase [KernelMem.BPF_CORE_READ] that the probes are modelled with. *)

From S2P Require Import Prelude Endian CLayout VmlinuxAmd64 KernelMem.

(** ** Bit-fields *)

Module Bitfield.

Inductive bpf_field_info_kind :=
  | BPF_FIELD_BYTE_OFFSET | BPF_FIELD_BYTE_SIZE | BPF_FIELD_EXISTS
  | BPF_FIELD_SIGNED | BPF_FIELD_LSHIFT_U64 | BPF_FIELD_RSHIFT_U64.

Section macros.
(** The byte order of the target, the kernel's memory, and what
    [__builtin_preserve_field_info(s->field, info)] is after relocation. *)
Context (order : byte_order) (m : mem) (field_info : bpf_field_info_kind -> Z).

Definition __CORE_RELO (info : bpf_field_info_kind) : Z := field_info info.

(** A load of the bytes [bs] as an unsigned integer of their size. *)
Definition load (bs : list Z) : Z :=
  match order with ORDER_LITTLE_ENDIAN => le_val bs | ORDER_BIG_ENDIAN => le_val (rev bs) end.

(** The object representation of [dst] (8 bytes) after the read, and the
    helper's result. *)
Definition __CORE_BITFIELD_PROBE_READ (dst : list Z) (src : Z) : list Z * Z :=
  let size := Z.to_nat (__CORE_RELO BPF_FIELD_BYTE_SIZE) in
  let '(bs, ret) := bpf_probe_read_kernel m size (ptr_add src (__CORE_RELO BPF_FIELD_BYTE_OFFSET)) in
  (splice dst (match order with ORDER_LITTLE_ENDIAN => 0 | ORDER_BIG_ENDIAN => 8 - size end)%nat bs, ret).

(** The shifts that both macros end with, on an [unsigned long long]. *)
Definition extract (val : Z) : Z :=
  let val := u64 (Z.shiftl val (__CORE_RELO BPF_FIELD_LSHIFT_U64)) in
  if __CORE_RELO BPF_FIELD_SIGNED =? 0 then Z.shiftr val (__CORE_RELO BPF_FIELD_RSHIFT_U64)
  else u64 (Z.shiftr (sext 64 val) (__CORE_RELO BPF_FIELD_RSHIFT_U64)).

Definition BPF_CORE_READ_BITFIELD_PROBED (s : Z) : Z :=
  extract (load (__CORE_BITFIELD_PROBE_READ (replicate 8 0) s).1).

(** [None]: the load faults, or no case applies and [val] is uninitialised. *)
Definition BPF_CORE_READ_BITFIELD (s : Z) : option Z :=
  let p := ptr_add s (__CORE_RELO BPF_FIELD_BYTE_OFFSET) in
  let size := __CORE_RELO BPF_FIELD_BYTE_SIZE in
  if bool_decide (size ∈ [1; 2; 4; 8]) then
    bs ← mem_read m p (Z.to_nat size); Some (extract (load bs))
  else None.
End macros.

(** What a relocation says of a field: it lies at bit [pos], counted from the
    least significant one, of the [size]-byte integer at byte [off] of the
    object, is [width] bits wide and signed or not; the two shifts move it to
    the top of a 64-bit word and back. *)
Record describes (field_info : bpf_field_info_kind -> Z) (off size pos width : Z) (signed : bool) : Prop := Describes {
  info_offset : field_info BPF_FIELD_BYTE_OFFSET = off;
  info_size : field_info BPF_FIELD_BYTE_SIZE = size;
  info_signed : (field_info BPF_FIELD_SIGNED =? 0) = negb signed;
  info_lshift : field_info BPF_FIELD_LSHIFT_U64 = 64 - pos - width;
  info_rshift : field_info BPF_FIELD_RSHIFT_U64 = 64 - width;
}.

(** A place for a field: a load of 1, 2, 4 or 8 bytes that contains it. *)
Definition field_place (size pos width : Z) : Prop :=
  size ∈ [1; 2; 4; 8] ∧ 0 <= pos ∧ 0 < width ∧ pos + width <= 8 * size.

(** The value of bits [pos .. pos + width) of [v], as the 64-bit integer that
    the macros return. *)
Definition field_value (v pos width : Z) (signed : bool) : Z :=
  if signed then u64 (sext width (v / 2 ^ pos)) else wrap width (v / 2 ^ pos).

(** The relocation of a little-endian field at bit [o] of an object, [width]
    bits of an integer type of [size] bytes that it does not straddle. *)
Definition relocate (o width size : Z) (signed : bool) (info : bpf_field_info_kind) : Z :=
  match info with
  | BPF_FIELD_BYTE_OFFSET => o / (8 * size) * size
  | BPF_FIELD_BYTE_SIZE => size
  | BPF_FIELD_EXISTS => 1
  | BPF_FIELD_SIGNED => if signed then 1 else 0
  | BPF_FIELD_LSHIFT_U64 => 64 - o mod (8 * size) - width
  | BPF_FIELD_RSHIFT_U64 => 64 - width
  end.

End Bitfield.

(** ** Pointer chases *)

Module Expand.

(** The functions the macros may be given: relocating wrappers of a probe-read
    helper, or the helper itself. *)
Inductive probe_helper :=
  | H_probe_read | H_probe_read_kernel | H_probe_read_user
  | H_probe_read_str | H_probe_read_kernel_str | H_probe_read_user_str.

Inductive read_fn :=
  | fn_core_read | fn_core_read_user | fn_core_read_str | fn_core_read_user_str
  | fn_probe_read | fn_probe_read_user | fn_probe_read_str | fn_probe_read_user_str.

(** [bpf_core_read] and its kin: the helper behind a function, and whether
    the address it is given is relocated. *)
Definition helper_of (f : read_fn) : probe_helper * bool :=
  match f with
  | fn_core_read => (H_probe_read_kernel, true)
  | fn_core_read_user => (H_probe_read_user, true)
  | fn_core_read_str => (H_probe_read_kernel_str, true)
  | fn_core_read_user_str => (H_probe_read_user_str, true)
  | fn_probe_read => (H_probe_read, false)
  | fn_probe_read_user => (H_probe_read_user, false)
  | fn_probe_read_str => (H_probe_read_str, false)
  | fn_probe_read_user_str => (H_probe_read_user_str, false)
  end.

Section expansion.
(** Macro arguments: the source expression and the accessors. *)
Context {A : Type}.
Implicit Types (args : list A).

(** Tokens that the counting macros select from. *)
Inductive token := Arg (a : A) | Num (n : nat) | N_ | Blank.

Definition ___nth (l : list token) : option token := l !! 11%nat.
Definition ___narg args : option token :=
  ___nth ([Blank] ++ (Arg <$> args) ++ (Num <$> [10; 9; 8; 7; 6; 5; 4; 3; 2; 1; 0]%nat)).
Definition ___empty args : option token :=
  ___nth ([Blank] ++ (Arg <$> args) ++ replicate 10 N_ ++ [Num 0]).

(** [___apply(fn, ___narg(args))(args)]: [None] if there is no macro of that
    number, or if its arity differs. *)
Definition ___apply {B : Type} (fnN : nat -> list A -> option B) (args : list A) : option B :=
  match ___narg args with Some (Num n) => fnN n args | _ => None end.

(** [lo <= n <= 10], and the macro with suffix [n] takes [n] arguments. *)
Definition defined_for (lo n : nat) args : bool := bool_decide (lo <= n <= 10 ∧ length args = n)%nat.

Definition ___lastN (n : nat) args : option A := if defined_for 1 n args then last args else None.
Definition ___last args : option A := ___apply ___lastN args.

Definition ___nolastN (n : nat) args : option (list A) :=
  if defined_for 2 n args then Some (take (n - 1) args) else None.
Definition ___nolast args : option (list A) := ___apply ___nolastN args.

(** [a->b->c] is the list of its parts; its type is known by the expression. *)
Definition ___arrowN (n : nat) args : option (list A) := if defined_for 1 n args then Some args else None.
Definition ___arrow args : option (list A) := ___apply ___arrowN args.
Definition ___type args : option (list A) := ___arrow args.

(** [read_fn(dst, sizeof( *dst), &((src_type)(src))->accessor);] with [__t] or
    the user's variable as destination and [__t] or the first argument as
    source. *)
Inductive place := Var_t | Given.
Record stmt := Read { st_fn : read_fn; st_dst : place; st_type : list A; st_src : place; st_accessor : A }.

Definition ___read (f : read_fn) (dst : place) (src_type : list A) (src : place) (accessor : A) : list stmt :=
  [Read f dst src_type src accessor].

Definition ___rd_first (f : read_fn) args : option (list stmt) :=
  match args with
  | [src; a] => ty ← ___type [src]; Some (___read f Var_t ty Given a)
  | _ => None
  end.
Definition ___rd_last (f : read_fn) args : option (list stmt) :=
  init ← ___nolast args; ty ← ___type init; a ← ___last args; Some (___read f Var_t ty Var_t a).

(** [___rd_p1] .. [___rd_p9] *)
Fixpoint ___rd_p (n : nat) (f : read_fn) args : option (list stmt) :=
  match n with
  | 0%nat => None
  | 1%nat => ___rd_first f args
  | S n' =>
      if bool_decide (n <= 9)%nat then
        init ← ___nolast args; p ← ___rd_p n' f init; l ← ___rd_last f args; Some (p ++ l)
      else None
  end.

Definition ___read_ptrs (f : read_fn) (src : A) args : option (list stmt) :=
  ___apply (λ n args, ___rd_p n f (src :: args)) args.

Definition ___core_read0 (f f_ptr : read_fn) (src a : A) : option (list stmt) :=
  ty ← ___type [src]; Some (___read f Given ty Given a).
Definition ___core_readN (f f_ptr : read_fn) (src : A) args : option (list stmt) :=
  init ← ___nolast args; ptrs ← ___read_ptrs f_ptr src init;
  ty ← ___type (src :: init); a ← ___last args; Some (ptrs ++ ___read f Given ty Var_t a).

Definition ___core_read (f f_ptr : read_fn) (src a : A) (rest : list A) : option (list stmt) :=
  match ___empty rest with
  | Some (Num 0) => ___core_read0 f f_ptr src a
  | Some N_ => ___core_readN f f_ptr src (a :: rest)
  | _ => None
  end.

(** The eight [.._INTO] macros differ in the function for the final read and
    the one for the pointers. *)
Inductive into_macro :=
  | BPF_CORE_READ_INTO | BPF_CORE_READ_USER_INTO | BPF_PROBE_READ_INTO | BPF_PROBE_READ_USER_INTO
  | BPF_CORE_READ_STR_INTO | BPF_CORE_READ_USER_STR_INTO | BPF_PROBE_READ_STR_INTO | BPF_PROBE_READ_USER_STR_INTO.

Definition into_fns (v : into_macro) : read_fn * read_fn :=
  match v with
  | BPF_CORE_READ_INTO => (fn_core_read, fn_core_read)
  | BPF_CORE_READ_USER_INTO => (fn_core_read_user, fn_core_read_user)
  | BPF_PROBE_READ_INTO => (fn_probe_read, fn_probe_read)
  | BPF_PROBE_READ_USER_INTO => (fn_probe_read_user, fn_probe_read_user)
  | BPF_CORE_READ_STR_INTO => (fn_core_read_str, fn_core_read)
  | BPF_CORE_READ_USER_STR_INTO => (fn_core_read_user_str, fn_core_read_user)
  | BPF_PROBE_READ_STR_INTO => (fn_probe_read_str, fn_probe_read)
  | BPF_PROBE_READ_USER_STR_INTO => (fn_probe_read_user_str, fn_probe_read_user)
  end.

Definition READ_INTO (v : into_macro) (src a : A) (rest : list A) : option (list stmt) :=
  let '(f, f_ptr) := into_fns v in ___core_read f f_ptr src a rest.

(** [BPF_CORE_READ], [BPF_CORE_READ_USER], [BPF_PROBE_READ] and
    [BPF_PROBE_READ_USER] declare a variable of the type of the whole
    expression and read into it. *)
Definition READ (v : into_macro) (src a : A) (rest : list A) : option (list stmt) :=
  _ ← ___type (src :: a :: rest); READ_INTO v src a rest.

(** ** Running an expansion *)

(** [read h n addr]: the bytes the helper stores and its result;
    [position relocated type accessor]: the byte position of the accessor in
    the type's pointee, of the running kernel or of the local headers. *)
Context (read : probe_helper -> nat -> Z -> list Z * Z) (position : bool -> list A -> A -> Z).

(** [__t], the user's variable of [n] bytes, and the result of the last read. *)
Record frame := Frame { var_t : Z; dest : list Z; result : Z }.

Definition step (n : nat) (src : Z) (f : frame) (s : stmt) : frame :=
  let '(h, relocated) := helper_of (st_fn s) in
  let base := match st_src s with Given => src | Var_t => var_t f end in
  let addr := ptr_add base (position relocated (st_type s) (st_accessor s)) in
  match st_dst s with
  | Var_t => let '(bs, ret) := read h 8 addr in Frame (le_val bs) (dest f) ret
  | Given => let '(bs, ret) := read h n addr in Frame (var_t f) bs ret
  end.
Definition run (n : nat) (src : Z) (ss : list stmt) (f : frame) : frame := foldl (step n src) f ss.

(** The reference: follow the pointers, then read the last member. *)
Fixpoint chase (f_ptr : read_fn) (p : Z) (ty : list A) (ptrs : list A) : Z :=
  match ptrs with
  | [] => p
  | a :: ptrs' =>
      let '(h, relocated) := helper_of f_ptr in
      chase f_ptr (le_val (read h 8 (ptr_add p (position relocated ty a))).1) (ty ++ [a]) ptrs'
  end.
Definition chase_read (f f_ptr : read_fn) (n : nat) (src : A) (p : Z) (ptrs : list A) (a : A) : list Z * Z :=
  let '(h, relocated) := helper_of f in
  read h n (ptr_add (chase f_ptr p [src] ptrs) (position relocated (src :: ptrs) a)).
End expansion.
Arguments token : clear implicits.
Arguments stmt : clear implicits.

End Expand.
(** ** Lemmas *)

Section bitfield_lemmas.
Import Bitfield.

Lemma shift_out (v pos width : Z) :
  0 <= pos -> 0 < width -> pos + width <= 64 ->
  u64 (Z.shiftl v (64 - pos - width)) = 2 ^ (64 - pos - width) * (v mod 2 ^ (pos + width)).
Proof.
  intros. rewrite Z.shiftl_mul_pow2 by lia. unfold wrap.
  replace (2 ^ 64) with (2 ^ (pos + width) * 2 ^ (64 - pos - width)) by (rewrite <- Z.pow_add_r by lia; f_equal; lia).
  rewrite Z.mul_mod_distr_r by lia. lia.
Qed.

Lemma shift_back (y pos width : Z) :
  0 <= pos -> 0 < width -> pos + width <= 64 ->
  Z.shiftr (2 ^ (64 - pos - width) * y) (64 - width) = y / 2 ^ pos.
Proof.
  intros. rewrite Z.shiftr_div_pow2 by lia.
  replace (2 ^ (64 - width)) with (2 ^ (64 - pos - width) * 2 ^ pos) by (rewrite <- Z.pow_add_r by lia; f_equal; lia).
  apply Z.div_mul_cancel_l; lia.
Qed.

(** The sign bit of the shifted word is the field's. *)
Lemma shift_back_signed (y pos width : Z) :
  0 <= pos -> 0 < width -> pos + width <= 64 -> 0 <= y < 2 ^ (pos + width) ->
  Z.shiftr (sext 64 (2 ^ (64 - pos - width) * y)) (64 - width) = sext width (y / 2 ^ pos).
Proof.
  intros Hp Hw Hpw Hy.
  assert (2 ^ (64 - pos - width) * 2 ^ (pos + width) = 2 ^ 64) as E1 by (rewrite <- Z.pow_add_r by lia; f_equal; lia).
  assert (2 ^ (64 - pos - width) * 2 ^ (pos + width - 1) = 2 ^ (64 - 1)) as E2 by (rewrite <- Z.pow_add_r by lia; f_equal; lia).
  assert (2 ^ pos * 2 ^ (width - 1) = 2 ^ (pos + width - 1)) as E3 by (rewrite <- Z.pow_add_r by lia; f_equal; lia).
  assert (2 ^ pos * 2 ^ width = 2 ^ (pos + width)) as E4 by (rewrite <- Z.pow_add_r by lia; done).
  assert (0 <= y / 2 ^ pos < 2 ^ width) as Hq.
  { split; [apply Z.div_pos; lia|]. apply Z.div_lt_upper_bound; lia. }
  unfold sext. rewrite !wrap_small by (split; nia || lia). 
  destruct (Z.ltb_spec (2 ^ (64 - pos - width) * y) (2 ^ (64 - 1))); destruct (Z.ltb_spec (y / 2 ^ pos) (2 ^ (width - 1))).
  - by apply shift_back.
  - exfalso. assert (2 ^ (pos + width - 1) <= y); [|nia].
    rewrite <- E3. pose proof (Z.mul_div_le y (2 ^ pos)). nia.
  - exfalso. assert (2 ^ (pos + width - 1) <= y) as Hn by nia.
    assert (2 ^ (width - 1) <= y / 2 ^ pos); [|lia]. apply Z.div_le_lower_bound; lia.
  - replace (2 ^ (64 - pos - width) * y - 2 ^ 64) with (2 ^ (64 - pos - width) * (y - 2 ^ (pos + width))) by nia.
    rewrite shift_back by done. rewrite <- E4.
    replace (y - 2 ^ pos * 2 ^ width) with (y + (- 2 ^ width) * 2 ^ pos) by lia.
    rewrite Z.div_add by lia. lia.
Qed.

Lemma extract_value (field_info : bpf_field_info_kind -> Z) (off size pos width v : Z) (signed : bool) :
  describes field_info off size pos width signed -> field_place size pos width -> fits (8 * size) v ->
  extract field_info v = field_value v pos width signed.
Proof.
  intros [_ _ Hs Hl Hr] (Hsz & Hp & Hw & Hpw) Hv.
  assert (pos + width <= 64) by (rewrite !elem_of_cons, elem_of_nil in Hsz; lia).
  pose proof (Z.mod_pos_bound v (2 ^ (pos + width)) ltac:(lia)) as Hm.
  unfold extract, __CORE_RELO, field_value. rewrite Hs, Hl, Hr, shift_out by done.
  assert ((v mod 2 ^ (pos + width)) / 2 ^ pos = wrap width (v / 2 ^ pos)) as E by (apply mod_div_pow2; lia).
  destruct signed; simpl negb; cbv iota.
  - rewrite shift_back_signed by done. rewrite E. f_equal. unfold sext. by rewrite wrap_idem.
  - by rewrite shift_back, E by done.
Qed.

Lemma rev_zeros (n : nat) : le_val (rev (replicate n 0)) = 0.
Proof.
  induction n as [|n IH]; [done|]. cbn [replicate rev]. rewrite le_val_app, IH. simpl. lia.
Qed.

Lemma probe_buffer (order : byte_order) (bs : list Z) :
  (length bs <= 8)%nat ->
  load order (splice (replicate 8 0) (match order with ORDER_LITTLE_ENDIAN => 0 | ORDER_BIG_ENDIAN => 8 - length bs end) bs)
  = load order bs.
Proof.
  intros Hl. unfold load, splice. destruct order.
  - rewrite take_0, app_nil_l, drop_replicate, le_val_app, le_val_zeros. lia.
  - rewrite take_replicate, drop_replicate, !rev_app_distr.
    replace (8 - (8 - length bs + length bs))%nat with 0%nat by lia. cbn [replicate rev app].
    rewrite le_val_app, rev_zeros. lia.
Qed.

Lemma load_fits (order : byte_order) (bs : list Z) :
  Forall is_byte bs -> fits (8 * Z.of_nat (length bs)) (load order bs).
Proof.
  intros Hb. destruct order; simpl; [by apply le_val_bound|]. rewrite <- length_rev. apply le_val_bound.
  by apply Forall_rev.
Qed.

Lemma field_value_ext (v v' pos pos' width : Z) (signed : bool) :
  wrap width (v / 2 ^ pos) = wrap width (v' / 2 ^ pos') -> field_value v pos width signed = field_value v' pos' width signed.
Proof. intros E. unfold field_value, sext. by rewrite E. Qed.

Lemma field_value_fits (v pos width : Z) (signed : bool) :
  0 < width <= 64 -> fits (if signed then 64 else width) (field_value v pos width signed).
Proof. intros. destruct signed; simpl; apply wrap_fits; lia. Qed.

(** The storage unit of a field of an object contains the field's bits. *)
Lemma unit_bits (bs : list Z) (o width size : Z) :
  Forall is_byte bs -> 0 <= o -> 0 < width -> 0 < size -> o mod (8 * size) + width <= 8 * size ->
  (o / (8 * size) + 1) * size <= Z.of_nat (length bs) ->
  wrap width (le_val (slice bs (Z.to_nat (o / (8 * size) * size)) (Z.to_nat size)) / 2 ^ (o mod (8 * size))) =
  wrap width (le_val bs / 2 ^ o).
Proof.
  intros Hb Ho Hw Hs Hfit Hin.
  assert (0 <= o / (8 * size)) by (apply Z.div_pos; lia).
  pose proof (Z.mod_pos_bound o (8 * size) ltac:(lia)). pose proof (Z.div_mod o (8 * size) ltac:(lia)) as Ed.
  rewrite le_val_slice by (done || lia). rewrite !Z2Nat.id by lia. unfold wrap.
  set (q := o / (8 * size)) in *. set (r := o mod (8 * size)) in *.
  replace (8 * size) with (r + (8 * size - r)) at 1 by lia. rewrite mod_div_pow2 by lia.
  rewrite Z.div_div, <- Z.pow_add_r by lia.
  replace (8 * (q * size) + r) with o by lia.
  replace (8 * size - r) with (width + (8 * size - r - width)) by lia.
  rewrite Z.pow_add_r by lia. apply Z.mod_mod_divide, Z.divide_factor_l.
Qed.
End bitfield_lemmas.

(** ** Properties *)

Section bitfield_properties.
Import Bitfield.

(** Shared by the two properties. *)
Lemma bitfield_bits (order : byte_order) (m : mem) (field_info : bpf_field_info_kind -> Z)
    (s off size pos width : Z) (signed : bool) (bs : list Z)
    (Hd : describes field_info off size pos width signed) (Hp : field_place size pos width)
    (Hm : mem_read m (ptr_add s off) (Z.to_nat size) = Some bs) (Hb : Forall is_byte bs) :
  let v := field_value (load order bs) pos width signed in
  BPF_CORE_READ_BITFIELD_PROBED order m field_info s = v ∧
  BPF_CORE_READ_BITFIELD order m field_info s = Some v ∧
  fits (if signed then 64 else width) v.
Proof.
  pose proof Hp as (Hsz & Hpos & Hw & Hpw). pose proof (mem_read_length _ _ _ _ Hm) as Hl.
  assert (size = Z.of_nat (length bs) ∧ (length bs <= 8)%nat) as [Es Hle]
    by (rewrite !elem_of_cons, elem_of_nil in Hsz; lia).
  assert (extract field_info (load order bs) = field_value (load order bs) pos width signed) as E.
  { eapply extract_value; [exact Hd|exact Hp|]. rewrite Es. by apply load_fits. }
  cbv zeta. split_and!.
  - unfold BPF_CORE_READ_BITFIELD_PROBED, __CORE_BITFIELD_PROBE_READ, __CORE_RELO, bpf_probe_read_kernel.
    rewrite (info_offset _ _ _ _ _ _ Hd), (info_size _ _ _ _ _ _ Hd), (probe_read_ok _ _ _ _ Hm). cbn [fst].
    rewrite <- Hl at 1. by rewrite probe_buffer by lia.
  - unfold BPF_CORE_READ_BITFIELD, __CORE_RELO. cbv zeta.
    rewrite (info_offset _ _ _ _ _ _ Hd), (info_size _ _ _ _ _ _ Hd), bool_decide_true by done.
    rewrite Hm. simpl. by rewrite E.
  - apply field_value_fits. lia.
Qed.

(** C40: The two bit-field macros agree and are exact.  For a relocation that
    describes a field of an integer in mapped memory, on either byte order,
    both the probe-read and the direct macro return the field's bits, zero- or
    sign-extended; an unsigned field stays below [2^width]. *)
Theorem bitfield_reads (order : byte_order) (m : mem) (field_info : bpf_field_info_kind -> Z)
    (s off size pos width : Z) (signed : bool) (bs : list Z)
    (Hd : describes field_info off size pos width signed) (Hp : field_place size pos width)
    (Hm : mem_read m (ptr_add s off) (Z.to_nat size) = Some bs) (Hb : Forall is_byte bs) :
  let v := field_value (load order bs) pos width signed in
  BPF_CORE_READ_BITFIELD_PROBED order m field_info s = v ∧
  BPF_CORE_READ_BITFIELD order m field_info s = Some v ∧
  fits (if signed then 64 else width) v.
Proof. eapply bitfield_bits; eassumption. Qed.

(** Bit-fields of C structs.  The position that the layout of a struct
    gives to a bit-field, relocated as the whole storage units of its declared
    type, is where the macros find it: on an object of that struct in mapped
    memory they return the bits that the field occupies in it. *)
Theorem bitfield_member (m : mem) (s : Z) (t : ctype) (path : list string) (o width size : Z) (signed : bool) (bs : list Z)
    (Ha : access t path = Some (o, CInt size, Some width)) (Hsz : size ∈ [1; 2; 4; 8])
    (Ho : 0 <= o) (Hw : 0 < width) (Hfit : o mod (8 * size) + width <= 8 * size)
    (Hin : (o / (8 * size) + 1) * size <= sizeof t)
    (Hs : 0 <= s) (Htop : s + sizeof t <= 2 ^ 64)
    (Hm : bytes_at m s bs) (Hlen : Z.of_nat (length bs) = sizeof t) (Hb : Forall is_byte bs) :
  let field_info := relocate o width size signed in
  let v := field_value (le_val bs) o width signed in
  BPF_CORE_READ_BITFIELD_PROBED ORDER_LITTLE_ENDIAN m field_info s = v ∧
  BPF_CORE_READ_BITFIELD ORDER_LITTLE_ENDIAN m field_info s = Some v.
Proof.
  assert (0 < size) as Hpos by (rewrite !elem_of_cons, elem_of_nil in Hsz; lia).
  assert (0 <= o / (8 * size)) by (apply Z.div_pos; lia).
  pose proof (Z.mod_pos_bound o (8 * size) ltac:(lia)).
  set (off := o / (8 * size) * size) in *.
  assert (mem_read m (ptr_add s off) (Z.to_nat size) = Some (slice bs (Z.to_nat off) (Z.to_nat size))) as Hr.
  { unfold ptr_add. rewrite wrap_small by (split; lia).
    rewrite <- (Z2Nat.id off) by lia. rewrite Nat2Z.id. apply bytes_at_field; [done|lia]. }
  assert (describes (relocate o width size signed) off size (o mod (8 * size)) width signed) as Hd
    by (split; try done; by destruct signed).
  assert (field_place size (o mod (8 * size)) width) as Hp by (split_and!; [done|lia..]).
  destruct (bitfield_bits ORDER_LITTLE_ENDIAN _ _ _ _ _ _ _ _ _ Hd Hp Hr (slice_byte _ _ _ Hb)) as (E1 & E2 & _).
  cbv zeta. rewrite E1, E2. simpl load.
  by rewrite (field_value_ext _ (le_val bs) _ o) by (apply unit_bits; done || lia).
Qed.
End bitfield_properties.

(** ** Examples *)

Section bitfield_examples.
Import Bitfield.

(** A [struct iphdr] on amd64: version 4, header length 5. *)
Definition demo_iphdr : list Z := [69; 0; 0; 40; 0; 1; 0; 0; 64; 6; 0; 0; 10; 0; 0; 1; 10; 0; 0; 2].

Lemma bitfield_reads_witness :
  BPF_CORE_READ_BITFIELD ORDER_BIG_ENDIAN (mem_of [(4096, [18; 52])]) (relocate 4 4 2 true) 4096 = Some 3.
Proof.
  refine (proj1 (proj2 (bitfield_reads ORDER_BIG_ENDIAN (mem_of [(4096, [18; 52])]) (relocate 4 4 2 true) 4096 0 2 4 4 true
    [18; 52] _ _ _ _))).
  - by split.
  - split; [|lia]. rewrite !elem_of_cons. auto.
  - vm_compute. done.
  - repeat constructor; unfold is_byte, fits; lia.
Defined.

Lemma bitfield_member_witness :
  BPF_CORE_READ_BITFIELD_PROBED ORDER_LITTLE_ENDIAN (mem_of [(4096, demo_iphdr)]) (relocate 4 4 1 false) 4096 = 4.
Proof.
  refine (proj1 (bitfield_member (mem_of [(4096, demo_iphdr)]) 4096 Amd64.iphdr ["version"%string] 4 4 1 false demo_iphdr
    _ _ _ _ _ _ _ _ _ _ _)); [vm_compute; done| |lia|lia|vm_compute; done|vm_compute; done|lia|vm_compute; done| | |].
  - rewrite !elem_of_cons. auto.
  - apply mem_of_bytes_at.
  - done.
  - repeat constructor; unfold is_byte, fits; lia.
Defined.
End bitfield_examples.

Section expand_lemmas.
Import Expand.
Context {A : Type}.
Implicit Types (args l ptrs : list A) (src a : A) (f : read_fn).

Lemma core_narg args :
  (length args <= 10)%nat -> ___narg args = Some (Num (length args)).
Proof. intros Hl. do 11 (destruct args as [|? args]; [done|simpl in Hl]). lia. Qed.

(** With more than ten arguments the counting macros pick an argument. *)
Lemma nth_overflow args (post : list (token A)) :
  (10 < length args)%nat -> ∃ x, ___nth ([Blank] ++ (Arg <$> args) ++ post) = Some (Arg x).
Proof.
  intros Hl. unfold ___nth. rewrite lookup_app_r by (simpl; lia). simpl length.
  rewrite lookup_app_l by (rewrite length_fmap; lia). rewrite list_lookup_fmap.
  destruct (lookup_lt_is_Some_2 args (11 - 1)) as [x Hx]; [lia|]. rewrite Hx. by exists x.
Qed.

Lemma apply_spec {B : Type} (fnN : nat -> list A -> option B) args :
  ___apply fnN args = if bool_decide (length args <= 10)%nat then fnN (length args) args else None.
Proof.
  unfold ___apply. case_bool_decide; [by rewrite core_narg|].
  destruct (nth_overflow args (Num <$> [10; 9; 8; 7; 6; 5; 4; 3; 2; 1; 0]%nat)) as [x Hx]; [lia|].
  unfold ___narg. by rewrite Hx.
Qed.

Lemma core_last l a : (length l <= 9)%nat -> ___last (l ++ [a]) = Some a.
Proof.
  intros. unfold ___last, ___lastN, defined_for. rewrite apply_spec, length_app. simpl.
  rewrite !bool_decide_true by lia. by rewrite last_snoc.
Qed.

Lemma core_nolast l a : (1 <= length l <= 9)%nat -> ___nolast (l ++ [a]) = Some l.
Proof.
  intros. unfold ___nolast, ___nolastN, defined_for. rewrite apply_spec, length_app. simpl.
  rewrite !bool_decide_true by lia. f_equal. apply take_app_length'. lia.
Qed.

Lemma core_type args :
  ___type args = if bool_decide (1 <= length args <= 10)%nat then Some args else None.
Proof.
  unfold ___type, ___arrow, ___arrowN, defined_for. rewrite apply_spec. repeat case_bool_decide; done || lia.
Qed.

(** The statements that follow the pointers [l] from an object of type [ty]. *)
Fixpoint ptr_reads f (ty : list A) (p : place) l : list (stmt A) :=
  match l with
  | [] => []
  | a :: l' => Read f Var_t ty p a :: ptr_reads f (ty ++ [a]) Var_t l'
  end.
Definition from (p : place) l : place := match l with [] => p | _ => Var_t end.

Lemma ptr_reads_snoc f (ty : list A) (p : place) l a :
  ptr_reads f ty p (l ++ [a]) = ptr_reads f ty p l ++ [Read f Var_t (ty ++ l) (from p l) a].
Proof.
  revert ty p. induction l as [|b l IH]; intros ty p; simpl; [by rewrite app_nil_r|].
  rewrite IH, <- app_assoc. simpl. by destruct l.
Qed.

Lemma rd_p_S (n : nat) f args :
  ___rd_p (S (S n)) f args =
  if bool_decide (S (S n) <= 9)%nat then
    init ← ___nolast args; p ← ___rd_p (S n) f init; l ← ___rd_last f args; Some (p ++ l)
  else None.
Proof. done. Qed.

Lemma rd_p_spec f src l :
  (1 <= length l <= 9)%nat -> ___rd_p (length l) f (src :: l) = Some (ptr_reads f [src] Given l).
Proof.
  induction l as [|a l IH] using rev_ind; intros Hl; [simpl in Hl; lia|].
  destruct l as [|b l]; [done|].
  replace (length ((b :: l) ++ [a])) with (S (S (length l))) in * by (rewrite length_app; simpl; lia).
  change (src :: (b :: l) ++ [a]) with ((src :: b :: l) ++ [a]).
  assert (1 <= length (src :: b :: l) <= 9)%nat as Hb by (simpl; lia).
  rewrite rd_p_S, bool_decide_true, core_nolast by lia. cbn [mbind option_bind].
  change (S (length l)) with (length (b :: l)). rewrite IH by (simpl; lia). cbn [mbind option_bind].
  unfold ___rd_last. rewrite core_nolast by lia. cbn [mbind option_bind].
  rewrite core_type, bool_decide_true by lia. cbn [mbind option_bind].
  rewrite core_last by lia. cbn [mbind option_bind]. by rewrite ptr_reads_snoc.
Qed.

Lemma empty_spec l :
  ((1 <= length l <= 10)%nat -> ___empty l = Some N_) ∧
  ((10 < length l)%nat -> ∃ x, ___empty l = Some (Arg x)).
Proof.
  split.
  - intros Hl. destruct l as [|? l]; [simpl in Hl; lia|]. do 10 (destruct l as [|? l]; [done|simpl in Hl]). lia.
  - apply nth_overflow.
Qed.

(** What the macros expand to, and when they do. *)
Lemma core_read_spec f f_ptr src ptrs a :
  (length ptrs <= 9)%nat ->
  ∃ b rest, ptrs ++ [a] = b :: rest ∧
    ___core_read f f_ptr src b rest = Some (ptr_reads f_ptr [src] Given ptrs ++ [Read f Given (src :: ptrs) (from Given ptrs) a]).
Proof.
  intros Hl. destruct ptrs as [|b ptrs]; [by exists a, []|].
  exists b, (ptrs ++ [a]). split; [done|]. unfold ___core_read.
  destruct (empty_spec (ptrs ++ [a])) as [-> _]; [|rewrite length_app; simpl in *; lia].
  unfold ___core_readN. change (b :: ptrs ++ [a]) with ((b :: ptrs) ++ [a]).
  rewrite core_nolast by (simpl in *; lia). cbn [mbind option_bind].
  unfold ___read_ptrs. rewrite apply_spec, bool_decide_true by lia.
  rewrite rd_p_spec by (simpl in *; lia). cbn [mbind option_bind].
  rewrite core_type, bool_decide_true by (simpl in *; lia). cbn [mbind option_bind].
  by rewrite core_last by lia.
Qed.

Lemma core_read_overflow f f_ptr src b rest :
  (10 <= length rest)%nat -> ___core_read f f_ptr src b rest = None.
Proof.
  intros Hl. unfold ___core_read. destruct (decide (length rest = 10)%nat) as [E|].
  - destruct (empty_spec rest) as [-> _]; [|lia]. unfold ___core_readN, ___nolast.
    by rewrite apply_spec, bool_decide_false by (simpl; lia).
  - destruct (empty_spec rest) as [_ [x ->]]; [lia|done].
Qed.

(** A non-empty list ends with an element. *)
Lemma cons_snoc b l : ∃ ptrs a, b :: l = ptrs ++ [a] ∧ length ptrs = length l.
Proof.
  destruct (exists_last (l := b :: l)) as (ptrs & a & E); [done|]. exists ptrs, a. split; [done|].
  apply (f_equal length) in E. rewrite length_app in E. simpl in E. lia.
Qed.

Lemma read_into_expands (v : into_macro) src b l ptrs a :
  b :: l = ptrs ++ [a] -> (length l <= 9)%nat ->
  READ_INTO v src b l =
  Some (ptr_reads (into_fns v).2 [src] Given ptrs ++ [Read (into_fns v).1 Given (src :: ptrs) (from Given ptrs) a]).
Proof.
  intros E Hl. assert (length ptrs <= 9)%nat as Hp.
  { apply (f_equal length) in E. rewrite length_app in E. simpl in E. lia. }
  unfold READ_INTO. destruct (into_fns v) as [f f_ptr].
  destruct (core_read_spec f f_ptr src ptrs a Hp) as (b' & rest & E' & Hr).
  rewrite <- E in E'. by injection E' as -> ->.
Qed.

Lemma read_into_defined (v : into_macro) src b l : is_Some (READ_INTO v src b l) <-> (length l <= 9)%nat.
Proof.
  split.
  - intros [ss Hss]. destruct (decide (length l <= 9)%nat) as [|Hl]; [done|].
    unfold READ_INTO in Hss. destruct (into_fns v). by rewrite core_read_overflow in Hss by lia.
  - intros Hl. destruct (cons_snoc b l) as (ptrs & a & E & _). by rewrite (read_into_expands v src b l ptrs a).
Qed.

Lemma read_defined (v : into_macro) src b l : is_Some (READ v src b l) <-> (length l <= 8)%nat.
Proof.
  unfold READ. rewrite core_type. case_bool_decide as Hc; simpl in Hc; cbn [mbind option_bind].
  - rewrite read_into_defined. lia.
  - split; [by intros [? ?]|lia].
Qed.

(** ** Running the statements *)

Context (read : probe_helper -> nat -> Z -> list Z * Z) (position : bool -> list A -> A -> Z).

(** After the pointer reads [__t] is where the chase ends. *)
Lemma run_ptr_reads f (n : nat) (p : Z) (ty : list A) (pl : place) l (fr : frame) :
  let q := match pl with Given => p | Var_t => var_t fr end in
  match from pl l with
  | Given => p
  | Var_t => var_t (run read position n p (ptr_reads f ty pl l) fr)
  end = chase read position f q ty l.
Proof.
  cbv zeta. revert ty pl fr. induction l as [|a l IH]; intros ty pl fr; [by destruct pl|].
  cbn [from]. unfold run. cbn [ptr_reads foldl chase]. unfold step at 2. cbn [st_fn st_src st_dst st_type st_accessor].
  destruct pl, (helper_of f) as [h relocated], (read h 8 _) as [bs ret]; cbn [fst];
    etransitivity; [|apply (IH (ty ++ [a]) Var_t (Frame (le_val bs) (dest fr) ret))|
                    |apply (IH (ty ++ [a]) Var_t (Frame (le_val bs) (dest fr) ret))]; by destruct l.
Qed.

Lemma read_into_run (v : into_macro) src b a l ptrs (n : nat) (p : Z) (fr : frame) (ss : list (stmt A)) :
  READ_INTO v src b l = Some ss -> b :: l = ptrs ++ [a] ->
  let fr' := run read position n p ss fr in
  (dest fr', result fr') = chase_read read position (into_fns v).1 (into_fns v).2 n src p ptrs a.
Proof.
  intros Hss E. assert (length l <= 9)%nat as Hl by (by apply (read_into_defined v src b l)).
  rewrite (read_into_expands v src b l ptrs a) in Hss by done. injection Hss as <-.
  cbv zeta. unfold run. rewrite foldl_app. cbn [foldl]. unfold step at 1 3. cbn [st_fn st_src st_dst st_type st_accessor].
  unfold chase_read. destruct (helper_of (into_fns v).1) as [h relocated].
  pose proof (run_ptr_reads (into_fns v).2 n p [src] Given ptrs fr) as Hp. cbv zeta in Hp. unfold run in Hp. rewrite Hp.
  by destruct (read h n _).
Qed.

(** The positions of the pointers of a chase. *)
Fixpoint chase_offsets (relocated : bool) (ty : list A) l : list Z :=
  match l with [] => [] | a :: l' => position relocated ty a :: chase_offsets relocated (ty ++ [a]) l' end.

Lemma chase_kernel (m : mem) (p : Z) (ty : list A) l :
  (∀ n addr, read H_probe_read_kernel n addr = bpf_probe_read_kernel m n addr) ->
  chase read position fn_core_read p ty l = KernelMem.___read_ptrs m p (chase_offsets true ty l).
Proof.
  intros Hr. revert p ty. induction l as [|a l IH]; intros p ty; [done|].
  cbn [chase chase_offsets KernelMem.___read_ptrs helper_of]. rewrite Hr. apply IH.
Qed.
End expand_lemmas.

Section expand_properties.
Import Expand.

(** The read macros expand to pointer chases.  The [_INTO] macros accept
    1 to 10 accessors and the value macros 1 to 9, as the header documents,
    and nothing else.  Run from any object, an accepted [_INTO] macro follows
    all accessors but the last with its pointer function and reads the last
    with its final function, leaving the bytes in the destination and
    returning the final read's result.  For [BPF_CORE_READ] on kernel memory
    this is the chase that the probes are modelled with. *)
Theorem core_read_chases {A : Type} (read : probe_helper -> nat -> Z -> list Z * Z) (position : bool -> list A -> A -> Z)
    (m : mem) (Hread : ∀ n addr, read H_probe_read_kernel n addr = bpf_probe_read_kernel m n addr) :
  (∀ v (src b : A) rest, is_Some (READ_INTO v src b rest) <-> (length rest <= 9)%nat) ∧
  (∀ v (src b : A) rest, is_Some (READ v src b rest) <-> (length rest <= 8)%nat) ∧
  (∀ v (src b a : A) rest ptrs n p fr ss, READ_INTO v src b rest = Some ss -> b :: rest = ptrs ++ [a] ->
     let fr' := run read position n p ss fr in
     (dest fr', result fr') = chase_read read position (into_fns v).1 (into_fns v).2 n src p ptrs a) ∧
  (∀ (src b a : A) rest ptrs n p fr ss, READ BPF_CORE_READ_INTO src b rest = Some ss -> b :: rest = ptrs ++ [a] ->
     le_val (dest (run read position n p ss fr)) =
     BPF_CORE_READ m p (chase_offsets position true [src] ptrs) (position true (src :: ptrs) a) n).
Proof.
  assert (∀ v (src b : A) rest ss, READ v src b rest = Some ss -> READ_INTO v src b rest = Some ss) as Hinto.
  { intros v src b rest ss. unfold READ. by destruct (___type _). }
  assert (∀ v (src b a : A) rest ptrs n p fr ss, READ_INTO v src b rest = Some ss -> b :: rest = ptrs ++ [a] ->
     let fr' := run read position n p ss fr in
     (dest fr', result fr') = chase_read read position (into_fns v).1 (into_fns v).2 n src p ptrs a) as Hrun.
  { intros v src b a rest ptrs n p fr ss Hss Hl. by apply (read_into_run read position v src b a rest). }
  split_and!; [apply read_into_defined|apply read_defined|exact Hrun|].
  intros src b a rest ptrs n p fr ss Hss Hl. apply Hinto in Hss.
  specialize (Hrun _ _ _ _ _ _ n p fr _ Hss Hl). cbn [into_fns fst snd] in Hrun. unfold chase_read in Hrun.
  cbn [helper_of] in Hrun. rewrite Hread, (chase_kernel _ _ m) in Hrun by done.
  apply (f_equal fst) in Hrun. cbn [fst] in Hrun. rewrite Hrun. done.
Qed.
End expand_properties.

Section expand_examples.
Import Expand.

(** [BPF_CORE_READ(skb, dev, nd_net.net, ns.inum)] with two pointers, at 0 and 8. *)
Definition demo_heap : mem := mem_of [(4096, le_bytes 8 8192); (8192, replicate 8 0 ++ le_bytes 8 12288); (12288, [7; 0; 0; 0])].
Definition demo_read (h : probe_helper) (n : nat) (addr : Z) : list Z * Z := bpf_probe_read_kernel demo_heap n addr.
Definition demo_position (relocated : bool) (ty : list string) (a : string) : Z :=
  if String.eqb a "nd_net.net" then 8 else 0.

Lemma core_read_chases_witness :
  ∃ ss, READ BPF_CORE_READ_INTO "skb" "dev" ["nd_net.net"; "ns.inum"] = Some ss ∧
    le_val (dest (run demo_read demo_position 4 4096 ss (Frame 0 [] 0))) = 7.
Proof.
  pose proof (core_read_chases demo_read demo_position demo_heap (λ n addr, eq_refl)) as (_ & _ & _ & H).
  destruct (READ BPF_CORE_READ_INTO "skb" "dev" ["nd_net.net"; "ns.inum"]) as [ss|] eqn:E; [|vm_compute in E; done].
  exists ss. split; [done|]. rewrite (H _ _ "ns.inum" _ ["dev"; "nd_net.net"] _ _ _ _ E) by done. vm_compute. done.
Defined.
End expand_examples.
