(* ===== verification/BpfMaps.v ===== *)
(** BPF maps: the map types of the probes and the helpers on them.

    [BpfMap] is the helper interface the probes program against
    ([bpf_map_lookup_elem], [bpf_map_update_elem], [bpf_map_delete_elem] and a
    store through the pointer that a lookup returns); [BpfMapLaws] is what
    they may rely on, refined by [HashLaws] for maps with one value per key
    and by [PercpuLaws] for maps with one value per key and CPU.  The probes
    and their theorems are written against these interfaces: the maps
    themselves are kernel code.  The instances, which discharge the laws and
    make the probes executable, follow the documentation of the map types that
    the programs declare: hash tables, per-CPU hash tables and LRU per-CPU
    hash tables.  Every helper runs on some CPU, its first argument. *)

From S2P Require Import Prelude KernelMem.

(** Update flags (src/bpf/headers/common.h). *)
Definition BPF_ANY : Z := 0.
Definition BPF_NOEXIST : Z := 1.
Definition BPF_EXIST : Z := 2.

Class BpfMap (M K V : Type) := {
  bpf_map_lookup_elem : Z -> M -> K -> option V;
  bpf_map_update_elem : Z -> M -> K -> V -> Z -> M * Z;
  bpf_map_delete_elem : Z -> M -> K -> M * Z;
  bpf_map_store : Z -> M -> K -> (V -> V) -> M;
}.

Class BpfMapLaws (M K V : Type) `{!BpfMap M K V} := {
  law_update_eq c m k v f m' :
    bpf_map_update_elem c m k v f = (m', 0) -> bpf_map_lookup_elem c m' k = Some v;
  law_update_fail c m k v f m' r :
    bpf_map_update_elem c m k v f = (m', r) -> r ≠ 0 -> m' = m;
  law_update_ne c m k k' v f :
    k ≠ k' ->
    bpf_map_lookup_elem c (bpf_map_update_elem c m k v f).1 k' = bpf_map_lookup_elem c m k' ∨
    bpf_map_lookup_elem c (bpf_map_update_elem c m k v f).1 k' = None;
  law_update_any_present c m k v w :
    bpf_map_lookup_elem c m k = Some w -> (bpf_map_update_elem c m k v BPF_ANY).2 = 0;
  law_update_noexist_present c m k v w :
    bpf_map_lookup_elem c m k = Some w ->
    bpf_map_update_elem c m k v BPF_NOEXIST = (m, - EEXIST);
  law_delete_eq c m k : bpf_map_lookup_elem c (bpf_map_delete_elem c m k).1 k = None;
  law_delete_ne c m k k' :
    k ≠ k' ->
    bpf_map_lookup_elem c (bpf_map_delete_elem c m k).1 k' = bpf_map_lookup_elem c m k';
  law_store_eq c m k f :
    bpf_map_lookup_elem c (bpf_map_store c m k f) k = f <$> bpf_map_lookup_elem c m k;
  law_store_ne c m k k' f :
    k ≠ k' -> bpf_map_lookup_elem c (bpf_map_store c m k f) k' = bpf_map_lookup_elem c m k';
}.

(** One value per key, shared by all CPUs; entries disappear only by
    [bpf_map_delete_elem]; a new key is refused exactly when the map is full. *)
Class HashLaws (M K V : Type) `{!BpfMap M K V} := {
  hash_laws :: BpfMapLaws M K V;
  map_full : M -> bool;
  hash_cpu c c' m k : bpf_map_lookup_elem c m k = bpf_map_lookup_elem c' m k;
  hash_update_ne c m k k' v f :
    k ≠ k' ->
    bpf_map_lookup_elem c (bpf_map_update_elem c m k v f).1 k' = bpf_map_lookup_elem c m k';
  hash_update_new c m k v :
    bpf_map_lookup_elem c m k = None ->
    (bpf_map_update_elem c m k v BPF_ANY).2 = if map_full m then - E2BIG else 0;
  hash_update_full c m k v f :
    map_full m = true -> map_full (bpf_map_update_elem c m k v f).1 = true;
  hash_store_full c m k f : map_full (bpf_map_store c m k f) = map_full m;
}.

(** Per-CPU maps: the key set is shared, each CPU has its own value slot, and
    a program that creates an entry leaves zeroes in the slots of the other
    CPUs. *)
Class Zeroed (V : Type) := zeroed : V.
#[global] Instance Z_zeroed : Zeroed Z := 0.

Class PercpuLaws (M K V : Type) `{!BpfMap M K V, !Zeroed V} := {
  percpu_laws_map :: BpfMapLaws M K V;
  percpu_keys c c' m k :
    is_Some (bpf_map_lookup_elem c m k) -> is_Some (bpf_map_lookup_elem c' m k);
  percpu_update_other c c' m k v f m' :
    c ≠ c' -> bpf_map_update_elem c m k v f = (m', 0) ->
    bpf_map_lookup_elem c' m' k = Some (default zeroed (bpf_map_lookup_elem c' m k));
  percpu_update_ne c c' m k k' v f :
    k ≠ k' ->
    bpf_map_lookup_elem c' (bpf_map_update_elem c m k v f).1 k' = bpf_map_lookup_elem c' m k';
  percpu_delete_ne c c' m k k' :
    k ≠ k' ->
    bpf_map_lookup_elem c' (bpf_map_delete_elem c m k).1 k' = bpf_map_lookup_elem c' m k';
  percpu_store_other c c' m k k' f :
    c ≠ c' ->
    bpf_map_lookup_elem c' (bpf_map_store c m k f) k' = bpf_map_lookup_elem c' m k';
}.

(** Least-recently-used per-CPU maps: as above, but an update may evict
    another key, for all CPUs at once. *)
Class LruLaws (M K V : Type) `{!BpfMap M K V, !Zeroed V} := {
  lru_laws_map :: BpfMapLaws M K V;
  lru_keys c c' m k :
    is_Some (bpf_map_lookup_elem c m k) -> is_Some (bpf_map_lookup_elem c' m k);
  lru_update_other c c' m k v f m' :
    c ≠ c' -> bpf_map_update_elem c m k v f = (m', 0) ->
    bpf_map_lookup_elem c' m' k = Some (default zeroed (bpf_map_lookup_elem c' m k));
  lru_update_ne c m k k' v f :
    k ≠ k' ->
    (∀ c', bpf_map_lookup_elem c' (bpf_map_update_elem c m k v f).1 k' = bpf_map_lookup_elem c' m k') ∨
    (∀ c', bpf_map_lookup_elem c' (bpf_map_update_elem c m k v f).1 k' = None);
  lru_store_other c c' m k k' f :
    c ≠ c' ->
    bpf_map_lookup_elem c' (bpf_map_store c m k f) k' = bpf_map_lookup_elem c' m k';
}.

(** ** BPF_MAP_TYPE_HASH with [max] entries, shared by all CPUs *)

Record htab (max : N) (K V : Type) `{Countable K} := Htab { htab_elems : gmap K V }.
Arguments Htab {max K V _ _} _.
Arguments htab_elems {max K V _ _} _.

Section htab.
Context {max : N} {K V : Type} `{Countable K}.

(** Return code of an update, shared by the hash map types. *)
Definition update_errno (present full : bool) (flags : Z) : Z :=
  if flags >? BPF_EXIST then - EINVAL
  else if present then (if flags =? BPF_NOEXIST then - EEXIST else 0)
  else if flags =? BPF_EXIST then - ENOENT
  else if full then - E2BIG else 0.

Definition htab_full (m : htab max K V) : bool :=
  (max <=? N.of_nat (size (htab_elems m)))%N.

Definition htab_update (m : htab max K V) (k : K) (v : V) (flags : Z) : htab max K V * Z :=
  let r := update_errno (bool_decide (is_Some (htab_elems m !! k))) (htab_full m) flags in
  if r =? 0 then (Htab (<[k := v]> (htab_elems m)), 0) else (m, r).

Definition htab_delete (m : htab max K V) (k : K) : htab max K V * Z :=
  (Htab (delete k (htab_elems m)),
   if bool_decide (is_Some (htab_elems m !! k)) then 0 else - ENOENT).

#[global] Instance htab_map : BpfMap (htab max K V) K V := {
  bpf_map_lookup_elem _ m k := htab_elems m !! k;
  bpf_map_update_elem _ m k v f := htab_update m k v f;
  bpf_map_delete_elem _ m k := htab_delete m k;
  bpf_map_store _ m k f := Htab (alter f k (htab_elems m));
}.

Definition htab_empty : htab max K V := Htab ∅.

(** Capacity invariant of a hash map. *)
Definition htab_wf (m : htab max K V) : Prop := (N.of_nat (size (htab_elems m)) <= max)%N.
End htab.

(** ** BPF_MAP_TYPE_PERCPU_HASH: under each key a value slot per CPU *)

Record percpu_htab (max : N) (K V : Type) `{Countable K} :=
  PercpuHtab { percpu_elems : gmap K (gmap Z V) }.
Arguments PercpuHtab {max K V _ _} _.
Arguments percpu_elems {max K V _ _} _.

Section percpu.
Context {max : N} {K V : Type} `{Countable K} `{Zeroed V}.

Definition percpu_lookup (cpu : Z) (m : percpu_htab max K V) (k : K) : option V :=
  (λ slots, default zeroed (slots !! cpu)) <$> percpu_elems m !! k.

Definition percpu_full (m : percpu_htab max K V) : bool :=
  (max <=? N.of_nat (size (percpu_elems m)))%N.

Definition percpu_update (cpu : Z) (m : percpu_htab max K V) (k : K) (v : V) (flags : Z)
    : percpu_htab max K V * Z :=
  let r := update_errno (bool_decide (is_Some (percpu_elems m !! k))) (percpu_full m) flags in
  if r =? 0
  then (PercpuHtab (<[k := <[cpu := v]> (default ∅ (percpu_elems m !! k))]> (percpu_elems m)), 0)
  else (m, r).

Definition percpu_delete (m : percpu_htab max K V) (k : K) : percpu_htab max K V * Z :=
  (PercpuHtab (delete k (percpu_elems m)),
   if bool_decide (is_Some (percpu_elems m !! k)) then 0 else - ENOENT).

Definition percpu_store (cpu : Z) (m : percpu_htab max K V) (k : K) (f : V -> V)
    : percpu_htab max K V :=
  PercpuHtab (alter (λ slots, <[cpu := f (default zeroed (slots !! cpu))]> slots) k (percpu_elems m)).

#[global] Instance percpu_map : BpfMap (percpu_htab max K V) K V := {
  bpf_map_lookup_elem := percpu_lookup;
  bpf_map_update_elem := percpu_update;
  bpf_map_delete_elem _ := percpu_delete;
  bpf_map_store := percpu_store;
}.

Definition percpu_empty : percpu_htab max K V := PercpuHtab ∅.
End percpu.

(** ** BPF_MAP_TYPE_LRU_PERCPU_HASH

    A full LRU map makes room by evicting an entry.  Which one is the
    kernel's choice, the parameter [lru_victim]; with no candidate the update
    fails with [-ENOMEM]. *)

Class LruPolicy (K V : Type) `{Countable K} := lru_victim : gmap K (gmap Z V) -> option K.

Record lru_percpu_htab (max : N) (K V : Type) `{Countable K} :=
  LruPercpuHtab { lru_elems : gmap K (gmap Z V) }.
Arguments LruPercpuHtab {max K V _ _} _.
Arguments lru_elems {max K V _ _} _.

Section lru.
Context {max : N} {K V : Type} `{Countable K} `{Zeroed V} `{!LruPolicy K V}.

Definition lru_lookup (cpu : Z) (m : lru_percpu_htab max K V) (k : K) : option V :=
  (λ slots, default zeroed (slots !! cpu)) <$> lru_elems m !! k.

Definition lru_set (cpu : Z) (m : gmap K (gmap Z V)) (k : K) (v : V) : gmap K (gmap Z V) :=
  <[k := <[cpu := v]> (default ∅ (m !! k))]> m.

Definition lru_update (cpu : Z) (m : lru_percpu_htab max K V) (k : K) (v : V) (flags : Z)
    : lru_percpu_htab max K V * Z :=
  let r := update_errno (bool_decide (is_Some (lru_elems m !! k))) false flags in
  if r =? 0 then
    if bool_decide (is_Some (lru_elems m !! k)) || (N.of_nat (size (lru_elems m)) <? max)%N
    then (LruPercpuHtab (lru_set cpu (lru_elems m) k v), 0)
    else match lru_victim (lru_elems m) with
         | Some k' => (LruPercpuHtab (lru_set cpu (delete k' (lru_elems m)) k v), 0)
         | None => (m, - ENOMEM)
         end
  else (m, r).

Definition lru_delete (m : lru_percpu_htab max K V) (k : K) : lru_percpu_htab max K V * Z :=
  (LruPercpuHtab (delete k (lru_elems m)),
   if bool_decide (is_Some (lru_elems m !! k)) then 0 else - ENOENT).

Definition lru_store (cpu : Z) (m : lru_percpu_htab max K V) (k : K) (f : V -> V)
    : lru_percpu_htab max K V :=
  LruPercpuHtab (alter (λ slots, <[cpu := f (default zeroed (slots !! cpu))]> slots) k (lru_elems m)).

#[global] Instance lru_map : BpfMap (lru_percpu_htab max K V) K V := {
  bpf_map_lookup_elem := lru_lookup;
  bpf_map_update_elem := lru_update;
  bpf_map_delete_elem _ := lru_delete;
  bpf_map_store := lru_store;
}.
End lru.

(** ** Array maps: all [max] elements always exist, zero at first *)

Record percpu_array (max : Z) (V : Type) := PercpuArray { pa_elems : gmap Z (gmap Z V) }.
Arguments PercpuArray {max V} _.
Arguments pa_elems {max V} _.

Definition percpu_array_lookup {max : Z} {V : Type} `{Zeroed V} (cpu : Z)
    (m : percpu_array max V) (key : Z) : option V :=
  if u32 key <? max then Some (default zeroed (default ∅ (pa_elems m !! u32 key) !! cpu)) else None.

(** Updates from a program write the slot of its CPU; elements cannot be
    deleted. *)
Definition percpu_array_store {max : Z} {V : Type} `{Zeroed V} (cpu : Z)
    (m : percpu_array max V) (key : Z) (f : V -> V) : percpu_array max V :=
  if u32 key <? max then
    let slots := default ∅ (pa_elems m !! u32 key) in
    PercpuArray (<[u32 key := <[cpu := f (default zeroed (slots !! cpu))]> slots]> (pa_elems m))
  else m.

#[global] Instance percpu_array_map {max : Z} {V : Type} `{Zeroed V} : BpfMap (percpu_array max V) Z V := {
  bpf_map_lookup_elem := percpu_array_lookup;
  bpf_map_update_elem cpu m key v flags :=
    if flags >? BPF_EXIST then (m, - EINVAL)
    else if u32 key <? max
         then if flags =? BPF_NOEXIST then (m, - EEXIST) else (percpu_array_store cpu m key (λ _, v), 0)
         else (m, - E2BIG);
  bpf_map_delete_elem _ m _ := (m, - EINVAL);
  bpf_map_store := percpu_array_store;
}.

Record array (max : Z) (V : Type) := Array { array_elems : gmap Z V }.
Arguments Array {max V} _.
Arguments array_elems {max V} _.

Section array.
Context {max : Z} {V : Type} `{Zeroed V}.

Definition array_lookup (m : array max V) (key : Z) : option V :=
  if u32 key <? max then Some (default zeroed (array_elems m !! u32 key)) else None.

Definition array_update (m : array max V) (key : Z) (v : V) (flags : Z) : array max V * Z :=
  if flags >? BPF_EXIST then (m, - EINVAL)
  else if u32 key <? max
       then if flags =? BPF_NOEXIST then (m, - EEXIST)
            else (Array (<[u32 key := v]> (array_elems m)), 0)
       else (m, - E2BIG).

Definition array_store (m : array max V) (key : Z) (f : V -> V) : array max V :=
  if u32 key <? max
  then Array (<[u32 key := f (default zeroed (array_elems m !! u32 key))]> (array_elems m))
  else m.

#[global] Instance array_map : BpfMap (array max V) Z V := {
  bpf_map_lookup_elem _ := array_lookup;
  bpf_map_update_elem _ := array_update;
  bpf_map_delete_elem _ m _ := (m, - EINVAL);
  bpf_map_store _ := array_store;
}.
End array.

(** ** Lemmas *)

Lemma update_errno_cases (p f : bool) (flags : Z) :
  update_errno p f flags = 0 ∨ update_errno p f flags < 0.
Proof. unfold update_errno, EINVAL, EEXIST, ENOENT, E2BIG. destr; lia. Qed.

Lemma update_errno_any (p f : bool) :
  update_errno p f BPF_ANY = if p then 0 else if f then - E2BIG else 0.
Proof. by destruct p, f. Qed.

Lemma update_errno_noexist (p f : bool) :
  update_errno p f BPF_NOEXIST = if p then - EEXIST else if f then - E2BIG else 0.
Proof. by destruct p, f. Qed.

Section htab_lemmas.
Context {max : N} {K V : Type} `{Countable K}.
Implicit Types (m : htab max K V).

Lemma htab_map_laws : BpfMapLaws (htab max K V) K V.
Proof.
  split; simpl; unfold htab_update; intros.
  - destruct (_ =? 0) eqn:E; simplify_eq; [apply lookup_insert_eq|bool_to_prop; congruence].
  - destruct (_ =? 0); by simplify_eq.
  - destruct (_ =? 0); left; [by apply lookup_insert_ne|done].
  - rewrite update_errno_any, bool_decide_true; [done|eauto].
  - by rewrite update_errno_noexist, bool_decide_true by eauto.
  - apply lookup_delete_eq.
  - by apply lookup_delete_ne.
  - by rewrite lookup_alter_eq.
  - by rewrite lookup_alter_ne.
Qed.

Lemma htab_update_full m k v f : htab_full m = true -> htab_full (htab_update m k v f).1 = true.
Proof.
  unfold htab_full, htab_update. intros Hm%N.leb_le. apply N.leb_le.
  destruct (_ =? 0); [|done]. simpl. etrans; [exact Hm|].
  destruct (htab_elems m !! k) eqn:Hk.
  - by rewrite map_size_insert_Some.
  - rewrite map_size_insert_None by done. lia.
Qed.

#[global] Instance htab_laws : HashLaws (htab max K V) K V.
Proof.
  refine {| hash_laws := htab_map_laws; map_full := htab_full |}; simpl.
  - done.
  - intros. unfold htab_update. destruct (_ =? 0); [by apply lookup_insert_ne|done].
  - intros c m k v Hk. unfold htab_update.
    rewrite update_errno_any, bool_decide_false by (rewrite Hk; by intros [? ?]).
    by destruct (htab_full m).
  - intros. by apply htab_update_full.
  - intros. unfold htab_full. simpl. by rewrite <- !size_dom, dom_alter_L.
Defined.

(** The outcome of an unconditional update, by cases. *)
Lemma htab_update_any m k v :
  htab_update m k v BPF_ANY =
  if bool_decide (is_Some (htab_elems m !! k)) || negb (htab_full m)
  then (Htab (<[k := v]> (htab_elems m)), 0) else (m, - E2BIG).
Proof.
  unfold htab_update. rewrite update_errno_any.
  by destruct (bool_decide _), (htab_full m).
Qed.

Lemma htab_update_wf m k v f : htab_wf m -> htab_wf (htab_update m k v f).1.
Proof.
  unfold htab_wf, htab_update. intros Hm.
  destruct (update_errno _ _ f =? 0) eqn:E; [|done]. simpl.
  apply Z.eqb_eq in E. unfold update_errno, EINVAL, EEXIST, ENOENT, E2BIG, htab_full in E.
  destruct (htab_elems m !! k) as [w|] eqn:Hk.
  - by rewrite map_size_insert_Some.
  - rewrite map_size_insert_None by done. rewrite bool_decide_false in E by (by intros [? ?]).
    destruct (f >? BPF_EXIST); [lia|]. destruct (f =? BPF_EXIST); [lia|].
    destruct (N.leb_spec max (N.of_nat (size (htab_elems m)))); lia.
Qed.

Lemma htab_delete_wf m k : htab_wf m -> htab_wf (htab_delete m k).1.
Proof.
  unfold htab_wf. simpl. intros. destruct (htab_elems m !! k) as [v|] eqn:E.
  - rewrite map_size_delete_Some by eauto. lia.
  - by rewrite delete_id.
Qed.

Lemma htab_store_wf c m k f : htab_wf m -> htab_wf (bpf_map_store c m k f).
Proof.
  unfold htab_wf. simpl. rewrite <- !size_dom, dom_alter_L. done.
Qed.

Lemma htab_empty_wf : htab_wf (htab_empty (max := max) (K := K) (V := V)).
Proof. unfold htab_wf. simpl. rewrite map_size_empty. lia. Qed.
End htab_lemmas.

(** What an operation of any hash map does to a lookup, on any CPU. *)
Section hash_derived.
Context {M K V : Type} `{!BpfMap M K V, !HashLaws M K V, !EqDecision K}.

Definition accepts (c : Z) (m : M) (k : K) : bool :=
  bool_decide (is_Some (bpf_map_lookup_elem c m k)) || negb (map_full m).

Lemma hash_update_ret c m k v :
  (bpf_map_update_elem c m k v BPF_ANY).2 = if accepts c m k then 0 else - E2BIG.
Proof.
  unfold accepts. destruct (bpf_map_lookup_elem c m k) as [w|] eqn:E.
  - rewrite bool_decide_true by eauto. simpl. by eapply law_update_any_present.
  - rewrite bool_decide_false by (by intros [? ?]). rewrite hash_update_new by done.
    by destruct (map_full m).
Qed.

Lemma hash_update_lookup c c' m k k' v :
  bpf_map_lookup_elem c' (bpf_map_update_elem c m k v BPF_ANY).1 k' =
  if decide (k = k') then (if accepts c m k then Some v else None)
  else bpf_map_lookup_elem c' m k'.
Proof.
  destruct (decide (k = k')) as [<-|].
  - rewrite (hash_cpu c' c). pose proof (hash_update_ret c m k v) as Hr.
    destruct (bpf_map_update_elem c m k v BPF_ANY) as [m' r] eqn:E. simpl in Hr. subst r.
    unfold accepts in *. destruct (bpf_map_lookup_elem c m k) as [w|] eqn:Hk; simpl in *.
    + by eapply law_update_eq.
    + destruct (map_full m); simpl in *; [|by eapply law_update_eq].
      apply law_update_fail in E as ->; [done|]. unfold E2BIG. lia.
  - rewrite (hash_cpu c' c), hash_update_ne by done. apply hash_cpu.
Qed.

Lemma hash_delete_lookup c c' m k k' :
  bpf_map_lookup_elem c' (bpf_map_delete_elem c m k).1 k' =
  if decide (k = k') then None else bpf_map_lookup_elem c' m k'.
Proof.
  rewrite (hash_cpu c' c). destruct (decide (k = k')) as [<-|].
  - apply law_delete_eq.
  - rewrite law_delete_ne by done. apply hash_cpu.
Qed.

Lemma hash_store_lookup c c' m k k' f :
  bpf_map_lookup_elem c' (bpf_map_store c m k f) k' =
  if decide (k = k') then f <$> bpf_map_lookup_elem c' m k else bpf_map_lookup_elem c' m k'.
Proof.
  rewrite (hash_cpu c' c). destruct (decide (k = k')) as [<-|].
  - rewrite law_store_eq. by rewrite (hash_cpu c c').
  - rewrite law_store_ne by done. apply hash_cpu.
Qed.

(** A store or delete that is guarded by a lookup. *)
Lemma hash_touch_lookup c c' m k k' f :
  bpf_map_lookup_elem c' (if bpf_map_lookup_elem c m k then bpf_map_store c m k f else m) k' =
  if decide (k = k') then f <$> bpf_map_lookup_elem c' m k' else bpf_map_lookup_elem c' m k'.
Proof.
  rewrite (hash_cpu c c'). destruct (bpf_map_lookup_elem c' m k) eqn:E.
  - rewrite hash_store_lookup. destruct (decide (k = k')); by subst.
  - destruct (decide (k = k')); [subst; by rewrite E|done].
Qed.

Lemma hash_drop_lookup c c' m k k' :
  bpf_map_lookup_elem c' (if bpf_map_lookup_elem c m k then (bpf_map_delete_elem c m k).1 else m) k' =
  if decide (k = k') then None else bpf_map_lookup_elem c' m k'.
Proof.
  rewrite (hash_cpu c c'). destruct (bpf_map_lookup_elem c' m k) eqn:E.
  - apply hash_delete_lookup.
  - destruct (decide (k = k')); [subst; by rewrite E|done].
Qed.
End hash_derived.

Section percpu_lemmas.
Context {max : N} {K V : Type} `{Countable K} `{Zeroed V}.
Implicit Types (m : percpu_htab max K V).

Lemma percpu_map_laws : BpfMapLaws (percpu_htab max K V) K V.
Proof.
  split; simpl; unfold percpu_update, percpu_lookup, percpu_delete, percpu_store; simpl; intros.
  - destruct (_ =? 0) eqn:E; simplify_eq; [|bool_to_prop; congruence].
    simpl. by rewrite lookup_insert_eq; simpl; rewrite lookup_insert_eq.
  - destruct (_ =? 0); by simplify_eq.
  - destruct (_ =? 0); left; simpl; [by rewrite lookup_insert_ne|done].
  - rewrite update_errno_any, bool_decide_true; [done|].
    destruct (percpu_elems m !! k); simplify_eq/=; eauto.
  - rewrite update_errno_noexist, bool_decide_true; [done|].
    destruct (percpu_elems m !! k); simplify_eq/=; eauto.
  - by rewrite lookup_delete_eq.
  - by rewrite lookup_delete_ne.
  - rewrite lookup_alter_eq. destruct (percpu_elems m !! k); simpl; [|done].
    by rewrite lookup_insert_eq.
  - by rewrite lookup_alter_ne.
Qed.

#[global] Instance percpu_laws : PercpuLaws (percpu_htab max K V) K V.
Proof.
  split; [apply percpu_map_laws|..]; simpl; unfold percpu_update, percpu_lookup, percpu_store; simpl;
    intros.
  - by rewrite fmap_is_Some in *.
  - destruct (_ =? 0) eqn:E; simplify_eq; [|bool_to_prop; congruence].
    simpl. rewrite lookup_insert_eq. simpl. rewrite lookup_insert_ne by done.
    by destruct (percpu_elems m !! k).
  - destruct (_ =? 0); simpl; [by rewrite lookup_insert_ne|done].
  - by rewrite lookup_delete_ne.
  - destruct (decide (k = k')) as [->|]; [|by rewrite lookup_alter_ne].
    rewrite lookup_alter_eq. destruct (percpu_elems m !! k'); simpl; [|done].
    by rewrite lookup_insert_ne.
Qed.

(** An unconditional update of a present key succeeds and leaves the slots
    of the other CPUs alone. *)
Lemma percpu_update_any_other m c c' k v :
  is_Some (percpu_elems m !! k) -> c ≠ c' ->
  percpu_lookup c' (percpu_update c m k v BPF_ANY).1 k = percpu_lookup c' m k.
Proof.
  intros [s Hs] Hc. unfold percpu_update. rewrite update_errno_any, bool_decide_true by eauto.
  unfold percpu_lookup. simpl. rewrite lookup_insert_eq, Hs. simpl. by rewrite lookup_insert_ne.
Qed.

(** Creating an entry makes it visible to the other CPUs with a zero value. *)
Lemma percpu_update_fresh_other m c c' k v :
  percpu_elems m !! k = None -> percpu_full m = false -> c ≠ c' ->
  percpu_lookup c' (percpu_update c m k v BPF_ANY).1 k = Some zeroed.
Proof.
  intros Hk Hf Hc. unfold percpu_update. rewrite update_errno_any, Hf, bool_decide_false by (rewrite Hk; by intros [? ?]).
  unfold percpu_lookup. simpl. rewrite lookup_insert_eq, Hk. simpl. by rewrite lookup_insert_ne.
Qed.

(** Presence of a key is the same for all CPUs. *)
Lemma percpu_lookup_present m c k :
  is_Some (percpu_lookup c m k) ↔ is_Some (percpu_elems m !! k).
Proof. unfold percpu_lookup. by rewrite fmap_is_Some. Qed.
End percpu_lemmas.

Section lru_lemmas.
Context {max : N} {K V : Type} `{Countable K} `{Zeroed V} `{!LruPolicy K V}.
Implicit Types (m : lru_percpu_htab max K V).

Lemma lru_set_lookup (c : Z) (e : gmap K (gmap Z V)) (k k' : K) (v : V) :
  lru_set c e k v !! k' = if decide (k = k') then Some (<[c := v]> (default ∅ (e !! k))) else e !! k'.
Proof. unfold lru_set. apply lookup_insert. Qed.

Lemma lru_map_laws : BpfMapLaws (lru_percpu_htab max K V) K V.
Proof.
  split; simpl; unfold lru_lookup, lru_delete, lru_store; simpl; intros.
  - unfold lru_update in *. destruct (_ =? 0) eqn:E; simplify_eq; [|bool_to_prop; congruence].
    destruct (_ || _).
    + simplify_eq/=. rewrite lru_set_lookup, decide_True by done. simpl. by rewrite lookup_insert_eq.
    + destruct (lru_victim _); simplify_eq/=. rewrite lru_set_lookup, decide_True by done. simpl.
      by rewrite lookup_insert_eq.
  - unfold lru_update in *. destruct (_ =? 0); [|by simplify_eq].
    destruct (_ || _); [by simplify_eq|]. destruct (lru_victim _); by simplify_eq.
  - unfold lru_update. destruct (_ =? 0); [|by left].
    destruct (_ || _); [left; simpl; by rewrite lru_set_lookup, decide_False|].
    destruct (lru_victim _) as [k0|]; [|by left]. simpl. rewrite lru_set_lookup, decide_False by done.
    rewrite lookup_delete. destruct (decide (k0 = k')); [by right|by left].
  - unfold lru_update. rewrite update_errno_any, bool_decide_true; [done|].
    destruct (lru_elems m !! k); simplify_eq/=; eauto.
  - unfold lru_update. rewrite update_errno_noexist, bool_decide_true; [done|].
    destruct (lru_elems m !! k); simplify_eq/=; eauto.
  - by rewrite lookup_delete_eq.
  - by rewrite lookup_delete_ne.
  - rewrite lookup_alter_eq. destruct (lru_elems m !! k); simpl; [|done]. by rewrite lookup_insert_eq.
  - by rewrite lookup_alter_ne.
Qed.

#[global] Instance lru_laws : LruLaws (lru_percpu_htab max K V) K V.
Proof.
  split; [apply lru_map_laws|..]; simpl; unfold lru_lookup, lru_store; simpl; intros.
  - by rewrite fmap_is_Some in *.
  - unfold lru_update in *. destruct (_ =? 0) eqn:E; simplify_eq; [|bool_to_prop; congruence].
    destruct (bool_decide (is_Some (lru_elems m !! k)) || _) eqn:Ep.
    + simplify_eq/=. rewrite lru_set_lookup, decide_True by done. simpl. rewrite lookup_insert_ne by done.
      by destruct (lru_elems m !! k).
    + destruct (lru_victim _) as [k0|]; simplify_eq/=. apply orb_false_iff in Ep as [Ep _].
      apply bool_decide_eq_false in Ep. apply eq_None_not_Some in Ep.
      rewrite lru_set_lookup, decide_True by done. simpl. rewrite lookup_insert_ne by done.
      rewrite Ep, lookup_delete. by destruct (decide _); [|rewrite Ep].
  - unfold lru_update. destruct (_ =? 0); [|by left].
    destruct (_ || _); [left; intros; simpl; by rewrite lru_set_lookup, decide_False|].
    destruct (lru_victim _) as [k0|]; [|by left]. simpl.
    destruct (decide (k0 = k')) as [->|]; [right|left]; intros;
      rewrite lru_set_lookup, decide_False by done.
    + by rewrite lookup_delete_eq.
    + by rewrite lookup_delete_ne.
  - destruct (decide (k = k')) as [->|]; [|by rewrite lookup_alter_ne].
    rewrite lookup_alter_eq. destruct (lru_elems m !! k'); simpl; [|done].
    by rewrite lookup_insert_ne.
Qed.
End lru_lemmas.
