(* ===== verification/BpfTracing.v ===== *)
(** src/bpf/headers/bpf_tracing.h: access to the arguments of a probed
    function through its saved registers.

    The header selects a target from the macros that the build defines, gives
    for each target the [struct pt_regs] member behind each of ten PT_REGS
    macros (and their [_CORE] twins, which read the same member through
    [BPF_CORE_READ]), and derives from them the return address and the
    argument list that the BPF_KPROBE wrapper passes on. *)

From S2P Require Import Prelude KernelMem.

(** ** Target selection *)

(** The branches of the header: the target architecture and, on x86, whether
    vmlinux.h (or the kernel) or user-space headers declare [struct pt_regs]. *)
Inductive bpf_target :=
  | target_x86 | target_x86_i386 | target_x86_64_user
  | target_s390 | target_arm | target_arm64 | target_mips
  | target_powerpc | target_sparc | target_sparc_arch64.

#[global] Instance bpf_target_eq_dec : EqDecision bpf_target.
Proof. solve_decision. Defined.

Definition all_targets : list bpf_target :=
  [target_x86; target_x86_i386; target_x86_64_user; target_s390; target_arm; target_arm64; target_mips;
   target_powerpc; target_sparc; target_sparc_arch64].

(** The first of the [__TARGET_ARCH_*] macros that is defined, otherwise the
    first of the compiler's own macros. *)
Definition target_arch_macros : list (string * string) :=
  [("__TARGET_ARCH_x86", "x86"); ("__TARGET_ARCH_s390", "s390"); ("__TARGET_ARCH_arm", "arm");
   ("__TARGET_ARCH_arm64", "arm64"); ("__TARGET_ARCH_mips", "mips");
   ("__TARGET_ARCH_powerpc", "powerpc"); ("__TARGET_ARCH_sparc", "sparc")]%string.
Definition compiler_macros : list (string * string) :=
  [("__x86_64__", "x86"); ("__s390__", "s390"); ("__arm__", "arm"); ("__aarch64__", "arm64");
   ("__mips__", "mips"); ("__powerpc__", "powerpc"); ("__sparc__", "sparc")]%string.

Definition first_defined (defined : list string) (ms : list (string * string)) : option string :=
  snd <$> (snd <$> list_find (λ m : string * string, m.1 ∈ defined) ms).

Definition select_arch (defined : list string) : option string :=
  match first_defined defined target_arch_macros with
  | Some t => Some t
  | None => first_defined defined compiler_macros
  end.

(** [None]: [bpf_target_defined] is not defined and every PT_REGS macro
    expands to a compile-time error. *)
Definition select_target (defined : list string) : option bpf_target :=
  let has m := bool_decide (m ∈ defined) in
  (arch ← select_arch defined;
   if String.eqb arch "x86" then
     Some (if has "__KERNEL__" || has "__VMLINUX_H__" then target_x86
           else if has "__i386__" then target_x86_i386 else target_x86_64_user)
   else if String.eqb arch "s390" then Some target_s390
   else if String.eqb arch "arm" then Some target_arm
   else if String.eqb arch "arm64" then Some target_arm64
   else if String.eqb arch "mips" then Some target_mips
   else if String.eqb arch "powerpc" then Some target_powerpc
   else if String.eqb arch "sparc" then
     Some (if has "__arch64__" then target_sparc_arch64 else target_sparc)
   else None)%string.

(** ** Register tables *)

Inductive pt_macro := PARM1 | PARM2 | PARM3 | PARM4 | PARM5 | RET | FP | RC | SP | IP.

#[global] Instance pt_macro_eq_dec : EqDecision pt_macro.
Proof. solve_decision. Defined.

(** What a macro expands to: a member of [*ctx], the constant 0, or nothing
    (the header does not define the macro for the target). *)
Inductive expansion := Member (name : string) | Zero | Undefined.
Coercion Member : string >-> expansion.

#[global] Instance expansion_eq_dec : EqDecision expansion.
Proof. solve_decision. Defined.

Definition regs_x86 (m : pt_macro) : expansion :=
  match m with
  | PARM1 => "di" | PARM2 => "si" | PARM3 => "dx" | PARM4 => "cx" | PARM5 => "r8"
  | RET => "sp" | FP => "bp" | RC => "ax" | SP => "sp" | IP => "ip"
  end%string.

Definition regs_i386 (m : pt_macro) : expansion :=
  match m with
  | PARM1 => Member "eax" | PARM2 => Member "edx" | PARM3 => Member "ecx" | PARM4 => Zero | PARM5 => Zero
  | RET => Member "esp" | FP => Member "ebp" | RC => Member "eax" | SP => Member "esp" | IP => Member "eip"
  end%string.

Definition regs_x86_64_user (m : pt_macro) : expansion :=
  match m with
  | PARM1 => "rdi" | PARM2 => "rsi" | PARM3 => "rdx" | PARM4 => "rcx" | PARM5 => "r8"
  | RET => "rsp" | FP => "rbp" | RC => "rax" | SP => "rsp" | IP => "rip"
  end%string.

Definition regs_s390 (m : pt_macro) : expansion :=
  match m with
  | PARM1 => "gprs[2]" | PARM2 => "gprs[3]" | PARM3 => "gprs[4]" | PARM4 => "gprs[5]" | PARM5 => "gprs[6]"
  | RET => "gprs[14]" | FP => "gprs[11]" | RC => "gprs[2]" | SP => "gprs[15]" | IP => "psw.addr"
  end%string.

Definition regs_arm (m : pt_macro) : expansion :=
  match m with
  | PARM1 => "uregs[0]" | PARM2 => "uregs[1]" | PARM3 => "uregs[2]" | PARM4 => "uregs[3]"
  | PARM5 => "uregs[4]"
  | RET => "uregs[14]" | FP => "uregs[11]" | RC => "uregs[0]" | SP => "uregs[13]" | IP => "uregs[12]"
  end%string.

Definition regs_arm64 (m : pt_macro) : expansion :=
  match m with
  | PARM1 => "regs[0]" | PARM2 => "regs[1]" | PARM3 => "regs[2]" | PARM4 => "regs[3]" | PARM5 => "regs[4]"
  | RET => "regs[30]" | FP => "regs[29]" | RC => "regs[0]" | SP => "sp" | IP => "pc"
  end%string.

Definition regs_mips (m : pt_macro) : expansion :=
  match m with
  | PARM1 => "regs[4]" | PARM2 => "regs[5]" | PARM3 => "regs[6]" | PARM4 => "regs[7]" | PARM5 => "regs[8]"
  | RET => "regs[31]" | FP => "regs[30]" | RC => "regs[2]" | SP => "regs[29]" | IP => "cp0_epc"
  end%string.

Definition regs_powerpc (m : pt_macro) : expansion :=
  match m with
  | PARM1 => Member "gpr[3]" | PARM2 => Member "gpr[4]" | PARM3 => Member "gpr[5]"
  | PARM4 => Member "gpr[6]" | PARM5 => Member "gpr[7]"
  | RET => Undefined | FP => Undefined | RC => Member "gpr[3]" | SP => Member "sp" | IP => Member "nip"
  end%string.

Definition regs_sparc (arch64 : bool) (m : pt_macro) : expansion :=
  match m with
  | PARM1 => Member "u_regs[UREG_I0]" | PARM2 => Member "u_regs[UREG_I1]"
  | PARM3 => Member "u_regs[UREG_I2]" | PARM4 => Member "u_regs[UREG_I3]"
  | PARM5 => Member "u_regs[UREG_I4]"
  | RET => Member "u_regs[UREG_I7]" | FP => Undefined | RC => Member "u_regs[UREG_I0]"
  | SP => Member "u_regs[UREG_FP]" | IP => Member (if arch64 then "tpc" else "pc")
  end%string.

Definition PT_REGS (t : bpf_target) : pt_macro -> expansion :=
  match t with
  | target_x86 => regs_x86
  | target_x86_i386 => regs_i386
  | target_x86_64_user => regs_x86_64_user
  | target_s390 => regs_s390
  | target_arm => regs_arm
  | target_arm64 => regs_arm64
  | target_mips => regs_mips
  | target_powerpc => regs_powerpc
  | target_sparc => regs_sparc false
  | target_sparc_arch64 => regs_sparc true
  end.

(** A register dump: the value of each [struct pt_regs] member. *)
Record pt_regs := PtRegs { regs_target : bpf_target; regs_file : string -> Z }.

(** The value of a macro; [None] if the use does not compile. *)
Definition pt_value (x : pt_regs) (m : pt_macro) : option Z :=
  match PT_REGS (regs_target x) m with
  | Member r => Some (regs_file x r)
  | Zero => Some 0
  | Undefined => None
  end.

Definition parm (i : nat) : option pt_macro := [PARM1; PARM2; PARM3; PARM4; PARM5] !! (i - 1)%nat.

(** [PT_REGS_PARMi(x)] as a C value (every target defines these five). *)
Definition PT_REGS_PARM (i : nat) (x : pt_regs) : Z := default 0 (m ← parm i; pt_value x m).

Abbreviation PT_REGS_PARM1 x := (PT_REGS_PARM 1 x).
Abbreviation PT_REGS_PARM2 x := (PT_REGS_PARM 2 x).
Abbreviation PT_REGS_PARM3 x := (PT_REGS_PARM 3 x).

(** ** Derived macros *)

(** [BPF_KPROBE_READ_RET_IP(ip, ctx)]: the value stored in [ip]. *)
Definition BPF_KPROBE_READ_RET_IP (mm : mem) (x : pt_regs) : option Z :=
  match regs_target x with
  | target_powerpc => Some (regs_file x "link"%string)
  | target_sparc | target_sparc_arch64 => pt_value x RET
  | _ => r ← pt_value x RET; Some (le_val (bpf_probe_read_kernel mm 8 r).1)
  end.

Definition BPF_KRETPROBE_READ_RET_IP (mm : mem) (x : pt_regs) : option Z :=
  match regs_target x with
  | target_powerpc => Some (regs_file x "link"%string)
  | target_sparc | target_sparc_arch64 => pt_value x RET
  | _ => r ← pt_value x FP; Some (le_val (bpf_probe_read_kernel mm 8 (ptr_add r 8)).1)
  end.

(** Variadic macros work on token lists.  [___bpf_nth] takes its fourteenth
    argument; [___bpf_narg(args)] puts the tokens 12 down to 0 behind the
    arguments, so that the fourteenth is their number. *)
Inductive token := Arg (i : nat) | Num (n : nat) | Blank.

Definition ___bpf_nth (l : list token) : option token := l !! 13%nat.
Definition ___bpf_narg (args : list token) : option token :=
  ___bpf_nth ([Blank] ++ args ++ (Num <$> [12; 11; 10; 9; 8; 7; 6; 5; 4; 3; 2; 1; 0]%nat)).

(** The arguments of the inner function: the context, then registers. *)
Inductive wrapped := Ctx | Parm (m : pt_macro) | CtxWord (i : nat).

(** [___bpf_kprobe_argsN] drops the first of its arguments and expands the
    macro of the previous number on the rest. *)
Fixpoint ___bpf_kprobe_argsN (n : nat) : option (list wrapped) :=
  match n with
  | 0%nat => Some [Ctx]
  | S n' => l ← ___bpf_kprobe_argsN n'; m ← [PARM1; PARM2; PARM3; PARM4; PARM5] !! n'; Some (l ++ [Parm m])
  end.

Definition ___bpf_kprobe_args (args : list token) : option (list wrapped) :=
  match ___bpf_narg args with Some (Num n) => ___bpf_kprobe_argsN n | _ => None end.

Fixpoint ___bpf_ctx_castN (n : nat) : option (list wrapped) :=
  match n with
  | 0%nat => Some [Ctx]
  | S n' => if bool_decide (n <= 12)%nat then l ← ___bpf_ctx_castN n'; Some (l ++ [CtxWord n']) else None
  end.

Definition ___bpf_ctx_cast (args : list token) : option (list wrapped) :=
  match ___bpf_narg args with Some (Num n) => ___bpf_ctx_castN n | _ => None end.

Definition ___bpf_kretprobe_args (args : list token) : option (list wrapped) :=
  match ___bpf_narg args with
  | Some (Num 0) => Some [Ctx]
  | Some (Num 1) => Some [Ctx; Parm RC]
  | _ => None
  end.

(** The registers of a call with the arguments [p1], [p2] and [p3] on x86-64,
    for evaluating the probes on examples. *)
Definition demo_regs (p1 p2 p3 : Z) : pt_regs :=
  PtRegs target_x86 (λ r, if decide (r = "di") then p1 else if decide (r = "si") then p2
                          else if decide (r = "dx") then p3 else 0)%string.

(** ** Lemmas *)

(** [___bpf_narg] counts up to twelve arguments. *)
Lemma narg_counts (args : list token) :
  (length args <= 12)%nat -> ___bpf_narg args = Some (Num (length args)).
Proof.
  intros Hl. unfold ___bpf_narg, ___bpf_nth. rewrite app_assoc, lookup_app_r by (rewrite length_app; simpl; lia).
  rewrite length_app. do 13 (destruct args as [|? args]; [done|simpl in Hl]). lia.
Qed.

Lemma kprobe_argsN_spec (n : nat) :
  (n <= 5)%nat ->
  ___bpf_kprobe_argsN n = Some (Ctx :: (Parm <$> take n [PARM1; PARM2; PARM3; PARM4; PARM5])).
Proof. intros. do 6 (destruct n as [|n]; [done|]). lia. Qed.

Lemma ctx_castN_spec (n : nat) :
  (n <= 12)%nat -> ___bpf_ctx_castN n = Some (Ctx :: (CtxWord <$> seq 0 n)).
Proof.
  induction n as [|n IH]; intros Hn; [done|]. cbn [___bpf_ctx_castN].
  rewrite bool_decide_true, IH by lia. by rewrite seq_S, fmap_app.
Qed.

(** ** Properties *)

(** Argument access.  The build's macros select the x86 and arm64
    tables; on every target the five PARM macros are defined and name pairwise
    distinct registers; and the BPF_KPROBE, BPF_PROG and BPF_KRETPROBE
    wrappers pass, after the context, exactly the argument registers (context
    words, return register) 1 to n in order when declared with n arguments,
    as long as n is at most 5 (12, 1). *)
Theorem pt_regs_arguments (args : list token) :
  select_target ["__TARGET_ARCH_amd64"; "__TARGET_ARCH_x86"; "__VMLINUX_H__"]%string = Some target_x86 ∧
  select_target ["__TARGET_ARCH_arm64"; "__VMLINUX_H__"]%string = Some target_arm64 ∧
  (∀ x i, (1 <= i <= 5)%nat -> ∃ v m, parm i = Some m ∧ pt_value x m = Some v ∧ PT_REGS_PARM i x = v) ∧
  (∀ t m1 m2 r, t ∈ all_targets -> m1 ∈ [PARM1; PARM2; PARM3; PARM4; PARM5] ->
     m2 ∈ [PARM1; PARM2; PARM3; PARM4; PARM5] ->
     PT_REGS t m1 = Member r -> PT_REGS t m2 = Member r -> m1 = m2) ∧
  ((length args <= 5)%nat ->
     ___bpf_kprobe_args args = Some (Ctx :: (Parm <$> take (length args) [PARM1; PARM2; PARM3; PARM4; PARM5]))) ∧
  ((length args <= 12)%nat -> ___bpf_ctx_cast args = Some (Ctx :: (CtxWord <$> seq 0 (length args)))) ∧
  ((length args <= 1)%nat ->
     ___bpf_kretprobe_args args = Some (Ctx :: (Parm <$> take (length args) [RC]))).
Proof.
  split_and!.
  - vm_compute. done.
  - vm_compute. done.
  - intros [t f] i Hi. do 6 (destruct i as [|i]; [lia || (by destruct t; eexists _, _)|]). lia.
  - assert (Forall (λ t, Forall (λ m1, Forall (λ m2, m1 = m2 ∨ PT_REGS t m1 ≠ PT_REGS t m2 ∨ PT_REGS t m1 = Zero)
      [PARM1; PARM2; PARM3; PARM4; PARM5]) [PARM1; PARM2; PARM3; PARM4; PARM5]) all_targets) as H.
    { apply (bool_decide_unpack _). vm_compute. done. }
    intros t m1 m2 r Ht H1 H2 E1 E2. rewrite Forall_forall in H. specialize (H t Ht).
    rewrite Forall_forall in H. specialize (H m1 H1). rewrite Forall_forall in H. specialize (H m2 H2).
    destruct H as [|[H|H]]; congruence.
  - intros. unfold ___bpf_kprobe_args. rewrite narg_counts by lia. by apply kprobe_argsN_spec.
  - intros. unfold ___bpf_ctx_cast. rewrite narg_counts by lia. by apply ctx_castN_spec.
  - intros. unfold ___bpf_kretprobe_args. rewrite narg_counts by lia.
    destruct args as [|? [|]]; simpl in *; [done|done|lia].
Qed.
