(* ===== verification/Headers.v ===== *)
(** The small headers: error numbers (src/bpf/headers/errno-base.h, errno.h),
    common.h, the compact vmlinux.h that kprobe.c is built with, and the macros
    of bpf_helpers.h.

    The theorems show that common.h agrees with the full vmlinux.h of both
    targets, that the error numbers are told apart by their values, and that
    the printf macros hand their arguments to the helper in order, without
    writing outside the array they allocate. *)

From S2P Require Import Prelude CLayout VmlinuxAmd64 VmlinuxArm64 KernelMem BpfMaps BpfTracing.

(** ** Error numbers *)

Definition errno_base : list (string * Z) :=
  [("EPERM", 1); ("ENOENT", 2); ("ESRCH", 3); ("EINTR", 4); ("EIO", 5); ("ENXIO", 6); ("E2BIG", 7);
   ("ENOEXEC", 8); ("EBADF", 9); ("ECHILD", 10); ("EAGAIN", 11); ("ENOMEM", 12); ("EACCES", 13);
   ("EFAULT", 14); ("ENOTBLK", 15); ("EBUSY", 16); ("EEXIST", 17); ("EXDEV", 18); ("ENODEV", 19);
   ("ENOTDIR", 20); ("EISDIR", 21); ("EINVAL", 22); ("ENFILE", 23); ("EMFILE", 24); ("ENOTTY", 25);
   ("ETXTBSY", 26); ("EFBIG", 27); ("ENOSPC", 28); ("ESPIPE", 29); ("EROFS", 30); ("EMLINK", 31);
   ("EPIPE", 32); ("EDOM", 33); ("ERANGE", 34)]%string.

(** [EWOULDBLOCK] and [EDEADLOCK] are defined as other error numbers. *)
Definition errno_ext : list (string * Z) :=
  [("EDEADLK", 35); ("ENAMETOOLONG", 36); ("ENOLCK", 37); ("ENOSYS", 38); ("ENOTEMPTY", 39); ("ELOOP", 40);
   ("EWOULDBLOCK", 11); ("ENOMSG", 42); ("EIDRM", 43); ("ECHRNG", 44); ("EL2NSYNC", 45); ("EL3HLT", 46);
   ("EL3RST", 47); ("ELNRNG", 48); ("EUNATCH", 49); ("ENOCSI", 50); ("EL2HLT", 51); ("EBADE", 52);
   ("EBADR", 53); ("EXFULL", 54); ("ENOANO", 55); ("EBADRQC", 56); ("EBADSLT", 57); ("EDEADLOCK", 35);
   ("EBFONT", 59); ("ENOSTR", 60); ("ENODATA", 61); ("ETIME", 62); ("ENOSR", 63); ("ENONET", 64);
   ("ENOPKG", 65); ("EREMOTE", 66); ("ENOLINK", 67); ("EADV", 68); ("ESRMNT", 69); ("ECOMM", 70);
   ("EPROTO", 71); ("EMULTIHOP", 72); ("EDOTDOT", 73); ("EBADMSG", 74); ("EOVERFLOW", 75); ("ENOTUNIQ", 76);
   ("EBADFD", 77); ("EREMCHG", 78); ("ELIBACC", 79); ("ELIBBAD", 80); ("ELIBSCN", 81); ("ELIBMAX", 82);
   ("ELIBEXEC", 83); ("EILSEQ", 84); ("ERESTART", 85); ("ESTRPIPE", 86); ("EUSERS", 87); ("ENOTSOCK", 88);
   ("EDESTADDRREQ", 89); ("EMSGSIZE", 90); ("EPROTOTYPE", 91); ("ENOPROTOOPT", 92); ("EPROTONOSUPPORT", 93);
   ("ESOCKTNOSUPPORT", 94); ("EOPNOTSUPP", 95); ("EPFNOSUPPORT", 96); ("EAFNOSUPPORT", 97); ("EADDRINUSE", 98);
   ("EADDRNOTAVAIL", 99); ("ENETDOWN", 100); ("ENETUNREACH", 101); ("ENETRESET", 102); ("ECONNABORTED", 103);
   ("ECONNRESET", 104); ("ENOBUFS", 105); ("EISCONN", 106); ("ENOTCONN", 107); ("ESHUTDOWN", 108);
   ("ETOOMANYREFS", 109); ("ETIMEDOUT", 110); ("ECONNREFUSED", 111); ("EHOSTDOWN", 112); ("EHOSTUNREACH", 113);
   ("EALREADY", 114); ("EINPROGRESS", 115); ("ESTALE", 116); ("EUCLEAN", 117); ("ENOTNAM", 118);
   ("ENAVAIL", 119); ("EISNAM", 120); ("EREMOTEIO", 121); ("EDQUOT", 122); ("ENOMEDIUM", 123);
   ("EMEDIUMTYPE", 124); ("ECANCELED", 125); ("ENOKEY", 126); ("EKEYEXPIRED", 127); ("EKEYREVOKED", 128);
   ("EKEYREJECTED", 129); ("EOWNERDEAD", 130); ("ENOTRECOVERABLE", 131); ("ERFKILL", 132); ("EHWPOISON", 133)]%string.

Definition errno (name : string) : option Z :=
  snd <$> (snd <$> list_find (λ e : string * Z, e.1 = name) (errno_base ++ errno_ext)).

(** ** common.h *)

Module Common.

Definition bpf_map_type : list (string * Z) :=
  [("BPF_MAP_TYPE_UNSPEC", 0); ("BPF_MAP_TYPE_HASH", 1); ("BPF_MAP_TYPE_ARRAY", 2);
   ("BPF_MAP_TYPE_PROG_ARRAY", 3); ("BPF_MAP_TYPE_PERF_EVENT_ARRAY", 4); ("BPF_MAP_TYPE_PERCPU_HASH", 5);
   ("BPF_MAP_TYPE_PERCPU_ARRAY", 6); ("BPF_MAP_TYPE_STACK_TRACE", 7); ("BPF_MAP_TYPE_CGROUP_ARRAY", 8);
   ("BPF_MAP_TYPE_LRU_HASH", 9); ("BPF_MAP_TYPE_LRU_PERCPU_HASH", 10); ("BPF_MAP_TYPE_LPM_TRIE", 11);
   ("BPF_MAP_TYPE_ARRAY_OF_MAPS", 12); ("BPF_MAP_TYPE_HASH_OF_MAPS", 13); ("BPF_MAP_TYPE_DEVMAP", 14);
   ("BPF_MAP_TYPE_SOCKMAP", 15); ("BPF_MAP_TYPE_CPUMAP", 16); ("BPF_MAP_TYPE_XSKMAP", 17);
   ("BPF_MAP_TYPE_SOCKHASH", 18); ("BPF_MAP_TYPE_CGROUP_STORAGE", 19);
   ("BPF_MAP_TYPE_REUSEPORT_SOCKARRAY", 20); ("BPF_MAP_TYPE_PERCPU_CGROUP_STORAGE", 21);
   ("BPF_MAP_TYPE_QUEUE", 22); ("BPF_MAP_TYPE_STACK", 23); ("BPF_MAP_TYPE_SK_STORAGE", 24);
   ("BPF_MAP_TYPE_DEVMAP_HASH", 25); ("BPF_MAP_TYPE_STRUCT_OPS", 26); ("BPF_MAP_TYPE_RINGBUF", 27);
   ("BPF_MAP_TYPE_INODE_STORAGE", 28)]%string.

Definition xdp_action : list (string * Z) :=
  [("XDP_ABORTED", 0); ("XDP_DROP", 1); ("XDP_PASS", 2); ("XDP_TX", 3); ("XDP_REDIRECT", 4)]%string.

Definition xdp_md : ctype :=
  struct [
    "data" ∷ CInt 4; "data_end" ∷ CInt 4; "data_meta" ∷ CInt 4;
    "ingress_ifindex" ∷ CInt 4; "rx_queue_index" ∷ CInt 4; "egress_ifindex" ∷ CInt 4].

Definition ethhdr : ctype :=
  struct [
    "h_dest" ∷ CArray (CInt 1) 6; "h_source" ∷ CArray (CInt 1) 6; "h_proto" ∷ CInt 2].

Definition iphdr : ctype :=
  struct [
    "ihl" ∷ CInt 1 ⦂ 4; "version" ∷ CInt 1 ⦂ 4; "tos" ∷ CInt 1; "tot_len" ∷ CInt 2; "id" ∷ CInt 2;
    "frag_off" ∷ CInt 2; "ttl" ∷ CInt 1; "protocol" ∷ CInt 1; "check" ∷ CInt 2; "saddr" ∷ CInt 4;
    "daddr" ∷ CInt 4].

Definition map_update_flags : list (string * Z) :=
  [("BPF_ANY", 0); ("BPF_NOEXIST", 1); ("BPF_EXIST", 2); ("BPF_F_LOCK", 4)]%string.

Definition BPF_F_INDEX_MASK : Z := 4294967295.
Definition BPF_F_CURRENT_CPU : Z := BPF_F_INDEX_MASK.

(** Only if [__TARGET_ARCH_x86] is defined. *)
Definition pt_regs : ctype :=
  struct [
    "r15" ∷ CInt 8; "r14" ∷ CInt 8; "r13" ∷ CInt 8; "r12" ∷ CInt 8; "rbp" ∷ CInt 8; "rbx" ∷ CInt 8;
    "r11" ∷ CInt 8; "r10" ∷ CInt 8; "r9" ∷ CInt 8; "r8" ∷ CInt 8; "rax" ∷ CInt 8; "rcx" ∷ CInt 8;
    "rdx" ∷ CInt 8; "rsi" ∷ CInt 8; "rdi" ∷ CInt 8; "orig_rax" ∷ CInt 8; "rip" ∷ CInt 8; "cs" ∷ CInt 8;
    "eflags" ∷ CInt 8; "rsp" ∷ CInt 8; "ss" ∷ CInt 8].

End Common.

(** ** bpf_helpers.h *)

Module Helpers.

(** [offsetof(TYPE, MEMBER)] and [container_of(ptr, type, member)]; [None] if
    the type has no such member. *)
Definition offsetof_ul (t : ctype) (member : list string) : option Z := wrap 64 <$> offsetof t member.
Definition container_of (ptr : Z) (t : ctype) (member : list string) : option Z :=
  off ← offsetof_ul t member; Some (u64 (ptr - off)).

(** The declaration [__uint(name, val)] makes [name] a pointer to an array of
    [val] integers, from whose type the loader reads the number back. *)
Definition __uint (val : Z) : ctype := CArray (CInt 4) val.

Definition bpf_map_def : ctype :=
  struct [
    "type" ∷ CInt 4; "key_size" ∷ CInt 4; "value_size" ∷ CInt 4; "max_entries" ∷ CInt 4; "map_flags" ∷ CInt 4].

Section printf.
Context {A : Type}.

(** [___bpf_fillN(arr, p, args)]: the assignments [arr[p] = x; ..]; [None] if
    there is no macro of that number or the arguments do not fit it. *)
Fixpoint ___bpf_fillN (n p : nat) (args : list A) : option (list (nat * A)) :=
  match n, args with
  | 0%nat, [] => Some []
  | 1%nat, [x] => Some [(p, x)]
  | S n', x :: args' =>
      if bool_decide (2 <= n <= 12)%nat then
        rest ← ___bpf_fillN n' (p + 1) args'; Some ((p, x) :: rest)
      else None
  | _, _ => None
  end.

(** The macros count their arguments as those of bpf_tracing.h do. *)
Definition narg (args : list A) : option nat :=
  match ___bpf_narg (imap (λ i _, Arg i) args) with Some (Num n) => Some n | _ => None end.

Definition ___bpf_fill (args : list A) : option (list (nat * A)) :=
  n ← narg args; ___bpf_fillN n 0 args.
End printf.

(** The stores into [___param], an array of [length arr] elements that start
    uninitialised; [None] is a store outside the array. *)
Fixpoint run_fill (ss : list (nat * Z)) (arr : list (option Z)) : option (list (option Z)) :=
  match ss with
  | [] => Some arr
  | (i, x) :: ss' => if bool_decide (i < length arr)%nat then run_fill ss' (<[i := Some (u64 x)]> arr) else None
  end.

(** [BPF_SNPRINTF] and [BPF_SEQ_PRINTF]: the parameter array and the size in
    bytes that the helper is called with, for a format of [fmt_len] bytes. *)
Record printf_call := PrintfCall { pc_fmt : list Z; pc_fmt_size : option Z; pc_param : list (option Z); pc_param_size : Z }.

Definition params (args : list Z) : option (list (option Z)) :=
  n ← narg args; ss ← ___bpf_fill args; run_fill ss (replicate n None).

Definition BPF_SNPRINTF (fmt : list Z) (args : list Z) : option printf_call :=
  ___param ← params args; Some (PrintfCall (fmt ++ [0]) None ___param (8 * Z.of_nat (length ___param))).

Definition BPF_SEQ_PRINTF (fmt : list Z) (args : list Z) : option printf_call :=
  let ___fmt := fmt ++ [0] in
  ___param ← params args;
  Some (PrintfCall ___fmt (Some (Z.of_nat (length ___fmt))) ___param (8 * Z.of_nat (length ___param))).

End Helpers.

(** ** Lemmas *)

Section header_lemmas.
Import Helpers.

(** More than twelve arguments make [___bpf_narg] pick one of them. *)
Lemma narg_overflow (args : list token) :
  (12 < length args)%nat -> ∃ a, a ∈ args ∧ ___bpf_narg args = Some a.
Proof.
  intros Hl. unfold ___bpf_narg, ___bpf_nth. destruct (lookup_lt_is_Some_2 args 12) as [a Ha]; [lia|].
  exists a. split; [by eapply list_elem_of_lookup_2|].
  rewrite lookup_app_r by (simpl; lia). simpl length. by rewrite lookup_app_l by lia.
Qed.

Lemma narg_spec {A : Type} (args : list A) :
  narg args = if bool_decide (length args <= 12)%nat then Some (length args) else None.
Proof.
  unfold narg. case_bool_decide as Hl; [by rewrite narg_counts, length_imap by (rewrite length_imap; lia)|].
  destruct (narg_overflow (imap (λ i _, Arg i) args)) as (a & Ha & ->); [rewrite length_imap; lia|].
  apply elem_of_lookup_imap_1 in Ha as (i & x & -> & _). done.
Qed.

Lemma fillN_cons {A : Type} (n p : nat) (x : A) (args : list A) :
  ___bpf_fillN (S (S n)) p (x :: args) =
  if bool_decide (2 <= S (S n) <= 12)%nat then rest ← ___bpf_fillN (S n) (p + 1) args; Some ((p, x) :: rest) else None.
Proof. done. Qed.

Lemma fillN_spec {A : Type} (args : list A) (p : nat) :
  (length args <= 12)%nat -> ___bpf_fillN (length args) p args = Some (imap (λ i x, ((p + i)%nat, x)) args).
Proof.
  revert p. induction args as [|x args IH]; intros p Hl; [done|].
  destruct args as [|y args]; [by rewrite imap_cons, Nat.add_0_r|].
  cbn [length]. rewrite fillN_cons, bool_decide_true by (simpl in *; lia).
  change (S (length args)) with (length (y :: args)). rewrite IH by (simpl in *; lia).
  cbn [mbind option_bind]. f_equal. rewrite (imap_cons _ x), Nat.add_0_r. f_equal.
  apply imap_ext. intros i z _. simpl. f_equal. lia.
Qed.

Lemma run_fill_spec (args : list Z) (p : nat) (pre : list (option Z)) :
  p = length pre ->
  run_fill (imap (λ i x, ((p + i)%nat, x)) args) (pre ++ replicate (length args) None) =
  Some (pre ++ ((λ x, Some (u64 x)) <$> args)).
Proof.
  revert p pre. induction args as [|x args IH]; intros p pre ->; [done|].
  rewrite imap_cons. cbn [run_fill]. rewrite Nat.add_0_r, bool_decide_true by (rewrite length_app; simpl; lia).
  cbn [length replicate]. rewrite insert_app_r_alt, Nat.sub_diag by lia. cbn [insert list_insert].
  rewrite cons_middle, app_assoc.
  rewrite (imap_ext _ (λ i y, ((length (pre ++ [Some (u64 x)]) + i)%nat, y))).
  - rewrite IH by done. by rewrite <- app_assoc.
  - intros i y _. rewrite length_app. simpl. f_equal. lia.
Qed.

Lemma params_spec (args : list Z) :
  params args = if bool_decide (length args <= 12)%nat then Some ((λ x, Some (u64 x)) <$> args) else None.
Proof.
  unfold params, ___bpf_fill. rewrite narg_spec. case_bool_decide; [|done]. cbn [mbind option_bind].
  rewrite fillN_spec by done. cbn [mbind option_bind]. apply (run_fill_spec args 0 []). done.
Qed.
End header_lemmas.

(** ** Properties *)

Section header_properties.
Import Helpers.

(** The printf macros pass their arguments.  Up to twelve arguments, the
    parameter array is filled with exactly the arguments, as 64-bit words and
    in order, every store falls inside the array, and the helper is given its
    size; with more arguments the macros do not compile. *)
Theorem printf_params (fmt args : list Z) :
  let n := Z.of_nat (length args) in
  let param := (λ x, Some (u64 x)) <$> args in
  BPF_SNPRINTF fmt args =
    (if bool_decide (n <= 12) then Some (PrintfCall (fmt ++ [0]) None param (8 * n)) else None) ∧
  BPF_SEQ_PRINTF fmt args =
    (if bool_decide (n <= 12) then Some (PrintfCall (fmt ++ [0]) (Some (Z.of_nat (length fmt) + 1)) param (8 * n)) else None).
Proof.
  cbv zeta. unfold BPF_SNPRINTF, BPF_SEQ_PRINTF. rewrite params_spec.
  repeat case_bool_decide; try lia; cbn [mbind option_bind]; rewrite ?length_fmap, ?length_app; simpl; [|done].
  by rewrite Nat2Z.inj_add.
Qed.

(** [container_of] inverts taking a member's address. *)
Theorem container_of_member (p : Z) (t : ctype) (member : list string) (off : Z) :
  fits 64 p -> offsetof t member = Some off -> container_of (ptr_add p off) t member = Some p.
Proof.
  intros Hp Ho. unfold container_of, offsetof_ul. rewrite Ho. simpl. f_equal. unfold ptr_add, wrap.
  rewrite Zminus_mod_idemp_l, Zminus_mod_idemp_r. replace (p + off - off) with p by lia. by apply wrap_small.
Qed.

(** Common.h is a compact vmlinux.h, as it says.  Its packet headers lie
    exactly as those of both targets' full headers, its map types, update and
    perf flags have the same values (amd64 lacks the newest map types and the
    last member of [xdp_md]), and the register that each PT_REGS macro names
    for user-space headers is at the position of the one it names for
    vmlinux.h. *)
Theorem compact_vmlinux :
  Common.ethhdr = Amd64.ethhdr ∧ Common.ethhdr = Arm64.ethhdr ∧
  Common.iphdr = Amd64.iphdr ∧ Common.iphdr = Arm64.iphdr ∧
  Common.xdp_md = Arm64.xdp_md ∧
  (∀ name x, member Amd64.xdp_md name = Some x -> member Common.xdp_md name = Some x) ∧
  Common.bpf_map_type = Arm64.bpf_map_type ∧ Amd64.bpf_map_type `prefix_of` Common.bpf_map_type ∧
  Common.map_update_flags = Amd64.map_update_flags ∧ Common.map_update_flags = Arm64.map_update_flags ∧
  (∀ fs, fs = Amd64.perf_flags ∨ fs = Arm64.perf_flags ->
     ("BPF_F_INDEX_MASK"%string, Common.BPF_F_INDEX_MASK) ∈ fs ∧ ("BPF_F_CURRENT_CPU"%string, Common.BPF_F_CURRENT_CPU) ∈ fs) ∧
  (∀ m, ∃ r r' off, regs_x86_64_user m = Member r ∧ regs_x86 m = Member r' ∧
     offsetof Common.pt_regs [r] = Some off ∧ offsetof Amd64.pt_regs [r'] = Some off).
Proof.
  split_and!; [reflexivity..| |reflexivity| |reflexivity|reflexivity| |].
  - intros name x. unfold Amd64.xdp_md, Common.xdp_md. cbn -[String.eqb].
    repeat (destruct (String.eqb _ name); [done|]). done.
  - by exists [("BPF_MAP_TYPE_STRUCT_OPS", 26); ("BPF_MAP_TYPE_RINGBUF", 27); ("BPF_MAP_TYPE_INODE_STORAGE", 28)]%string.
  - intros fs [-> | ->]; split; apply (bool_decide_unpack _); vm_compute; done.
  - intros []; eexists _, _, _; (split; [reflexivity|]); (split; [reflexivity|]); split; vm_compute; reflexivity.
Qed.

(** The error numbers of the headers are the values 1 to 133 without 41 and
    58, each with one name; the two aliases aside, a value tells its name. *)
Theorem errno_values :
  (∀ v, v ∈ (errno_base ++ errno_ext).*2 <-> 1 <= v <= 133 ∧ v ≠ 41 ∧ v ≠ 58) ∧
  NoDup (filter (λ e, e.1 ≠ "EWOULDBLOCK" ∧ e.1 ≠ "EDEADLOCK") (errno_base ++ errno_ext)).*2 ∧
  errno "EWOULDBLOCK" = errno "EAGAIN" ∧ errno "EDEADLOCK" = errno "EDEADLK" ∧
  errno "EFAULT" = Some EFAULT ∧ errno "E2BIG" = Some E2BIG ∧ errno "EEXIST" = Some EEXIST ∧ errno "ENOENT" = Some ENOENT.
Proof.
  split_and!; try (vm_compute; reflexivity).
  - intros v. rewrite <- (elem_of_list_to_set (C := gset Z)).
    assert (list_to_set (errno_base ++ errno_ext).*2 =@{gset Z} list_to_set (filter (λ v, v ≠ 41 ∧ v ≠ 58) (seqZ 1 133))) as ->
      by (vm_compute; reflexivity).
    rewrite elem_of_list_to_set, list_elem_of_filter, elem_of_seqZ. lia.
  - apply (bool_decide_unpack _). vm_compute. done.
Qed.
End header_properties.
