(* ===== verification/BpfRuntime.v ===== *)
(** The execution environment of a BPF program.

    A program runs to completion on one CPU.  Each invocation gets an
    environment [env] with what the context helpers return, reads and writes
    the maps of its object file (the state [S]) and appends to its perf event
    array (the outputs [E]: the events submitted with
    [bpf_perf_event_output], before any drop in the ring buffer).
    [prog S E A] is the resulting state, reader and output monad; [lens] selects a map of the state.  No handler of the
    repository calls [bpf_ktime_get_ns] twice, so one time stamp per
    invocation is enough. *)

From S2P Require Import Prelude KernelMem BpfMaps.

(** ** Invocation environment *)

Record env := Env {
  ktime : Z;                    (** [bpf_ktime_get_ns()] *)
  pid_tgid : Z;                 (** [bpf_get_current_pid_tgid()] *)
  smp_id : Z;                   (** [bpf_get_smp_processor_id()] *)
  comm : nat -> list Z;         (** buffer after [bpf_get_current_comm(buf, n)] *)
  kmem : mem;                   (** kernel memory at the time of the call *)
  stackid : Z -> Z;             (** [bpf_get_stackid(ctx, map, flags)] *)
}.

(** What the helpers promise: values of their C types; the task name is
    NUL-terminated (bpf_helper_defs.h). *)
Definition wf_env (e : env) : Prop :=
  fits 64 (ktime e) ∧ fits 64 (pid_tgid e) ∧ fits 32 (smp_id e) ∧ wf_mem (kmem e) ∧
  (∀ n, length (comm e n) = n ∧ Forall is_byte (comm e n) ∧
        ((0 < n)%nat -> comm e n !! (n - 1)%nat = Some 0)).

(** ** Programs *)

Definition prog (S E A : Type) : Type := env -> S -> A * S * list E.

Section prog.
Context {S E : Type}.

#[global] Instance prog_ret : MRet (prog S E) := λ A a e s, (a, s, []).
#[global] Instance prog_bind : MBind (prog S E) := λ A B k p e s,
  let '(a, s1, o1) := p e s in let '(b, s2, o2) := k a e s1 in (b, s2, o1 ++ o2).

(** [if (c) p;] *)
Definition when (c : bool) (p : prog S E unit) : prog S E unit := if c then p else mret tt.

Definition bpf_ktime_get_ns : prog S E Z := λ e s, (ktime e, s, []).
Definition bpf_get_current_pid_tgid : prog S E Z := λ e s, (pid_tgid e, s, []).
Definition bpf_get_smp_processor_id : prog S E Z := λ e s, (smp_id e, s, []).

Definition bpf_get_current_comm (n : nat) : prog S E (list Z) := λ e s, (comm e n, s, []).

(** src/bpf/headers/inspector.h:20 and the kernel's flag bit. *)
Definition BPF_F_FAST_STACK_CMP : Z := 512.
Definition KERN_STACKID_FLAGS : Z := Z.lor 0 BPF_F_FAST_STACK_CMP.
Definition bpf_get_stackid (flags : Z) : prog S E Z := λ e s, (stackid e flags, s, []).

Definition bpf_perf_event_output (event : E) : prog S E unit := λ e s, (tt, s, [event]).

(** A read of kernel memory by a function of the headers. *)
Definition with_mem {A : Type} (f : mem -> A) : prog S E A := λ e s, (f (kmem e), s, []).
End prog.

(** ** Maps of the state *)

Record lens (S M : Type) := Lens { lget : S -> M; lset : M -> S -> S }.
Arguments Lens {S M} _ _.
Arguments lget {S M} _ _.
Arguments lset {S M} _ _ _.

Section maps.
Context {S E M K V : Type} `{!BpfMap M K V}.

Definition map_lookup (l : lens S M) (k : K) : prog S E (option V) :=
  λ e s, (bpf_map_lookup_elem (smp_id e) (lget l s) k, s, []).
Definition map_update (l : lens S M) (k : K) (v : V) (flags : Z) : prog S E Z :=
  λ e s, let '(m, r) := bpf_map_update_elem (smp_id e) (lget l s) k v flags in (r, lset l m s, []).
Definition map_delete (l : lens S M) (k : K) : prog S E Z :=
  λ e s, let '(m, r) := bpf_map_delete_elem (smp_id e) (lget l s) k in (r, lset l m s, []).
(** A store through the value pointer of a successful lookup. *)
Definition map_store (l : lens S M) (k : K) (f : V -> V) : prog S E unit :=
  λ e s, (tt, lset l (bpf_map_store (smp_id e) (lget l s) k f) s, []).
End maps.

(** ** Traces: a sequence of invocations, each in its own environment *)

Fixpoint run_trace {S E : Type} (ps : list (env * prog S E Z)) (s : S) : S * list E :=
  match ps with
  | [] => (s, [])
  | (e, p) :: ps' =>
      let '(_, s1, o1) := p e s in
      let '(s2, o2) := run_trace ps' s1 in (s2, o1 ++ o2)
  end.

(** A trace of handler calls: [Op] names the handlers of an object file with
    their arguments. *)
Definition run_calls {S E Op : Type} (handler : Op -> prog S E Z) (tr : list (env * Op)) (s : S)
    : S * list E :=
  run_trace ((λ c : env * Op, (c.1, handler c.2)) <$> tr) s.

(** A concrete invocation, for evaluating the probes on examples: time [t] on
    CPU [c], task 4242, the kernel memory [m]. *)
Definition demo_env (m : mem) (c t : Z) : env := {|
  ktime := t; pid_tgid := 4242 * 2 ^ 32 + 4242; smp_id := c;
  comm n := replicate n 0; kmem := m; stackid _ := 7 |}.

(** Tactics that run a program symbolically. *)
Ltac unfold_prog :=
  unfold mbind, mret, prog_bind, prog_ret, when, map_lookup, map_update, map_delete, map_store,
    bpf_ktime_get_ns, bpf_get_current_pid_tgid, bpf_get_smp_processor_id,
    bpf_get_current_comm, bpf_get_stackid, bpf_perf_event_output, with_mem in *;
  cbn [lget lset] in *.

(** ** Lemmas *)

Section prog_lemmas.
Context {S E : Type}.

Lemma run_trace_app (ps qs : list (env * prog S E Z)) (s : S) :
  run_trace (ps ++ qs) s =
  let '(s1, o1) := run_trace ps s in let '(s2, o2) := run_trace qs s1 in (s2, o1 ++ o2).
Proof.
  revert s. induction ps as [|[e p] ps IH]; intros s; simpl.
  - by destruct (run_trace qs s).
  - destruct (p e s) as [[? s1] o1]. rewrite IH. destruct (run_trace ps s1) as [s2 o2].
    destruct (run_trace qs s2) as [s3 o3]. by rewrite app_assoc.
Qed.

(** An invariant that every handler of a trace keeps holds after the trace. *)
Lemma run_trace_invariant (I : S -> Prop) (ps : list (env * prog S E Z)) (s : S) :
  Forall (λ ep, ∀ s, I s -> I (ep.2 ep.1 s).1.2) ps -> I s -> I (run_trace ps s).1.
Proof.
  intros H. revert s. induction H as [|[e p] ps Hp Hps IH]; intros s Hs; simpl in *; [done|].
  specialize (Hp s Hs). destruct (p e s) as [[? s1] o1]. specialize (IH s1 Hp).
  by destruct (run_trace ps s1).
Qed.
End prog_lemmas.

Section calls_lemmas.
Context {S E Op : Type} (handler : Op -> prog S E Z).

Lemma run_calls_cons (tr : list (env * Op)) (c : env * Op) (s : S) :
  run_calls handler (c :: tr) s =
  let '(_, s1, o1) := handler c.2 c.1 s in
  let '(s2, o2) := run_calls handler tr s1 in (s2, o1 ++ o2).
Proof. done. Qed.

Lemma run_calls_snoc (tr : list (env * Op)) (c : env * Op) (s : S) :
  run_calls handler (tr ++ [c]) s =
  let '(s1, o1) := run_calls handler tr s in
  let '(_, s2, o2) := handler c.2 c.1 s1 in (s2, o1 ++ o2).
Proof.
  unfold run_calls. rewrite fmap_app, run_trace_app. simpl.
  destruct (run_trace _ s) as [s1 o1]. destruct (handler c.2 c.1 s1) as [[r s2] o2].
  by rewrite app_nil_r.
Qed.

(** An invariant that relates the state to the calls made so far. *)
Lemma run_calls_history (I : list (env * Op) -> S -> Prop) (s0 : S) :
  I [] s0 ->
  (∀ tr c s, I tr s -> I (tr ++ [c]) (handler c.2 c.1 s).1.2) ->
  ∀ tr, I tr (run_calls handler tr s0).1.
Proof.
  intros H0 Hs tr. induction tr as [|c tr IH] using rev_ind; [done|].
  rewrite run_calls_snoc. specialize (Hs tr c _ IH).
  destruct (run_calls handler tr s0) as [s1 o1]. simpl in *.
  by destruct (handler c.2 c.1 s1) as [[r s2] o2].
Qed.

(** Every event of a trace is emitted by one of its calls, in the state that
    the calls before it leave. *)
Lemma run_calls_events (tr : list (env * Op)) (s0 : S) (ev : E) :
  ev ∈ (run_calls handler tr s0).2 ->
  ∃ pre c post, tr = pre ++ c :: post ∧ ev ∈ (handler c.2 c.1 (run_calls handler pre s0).1).2.
Proof.
  induction tr as [|c tr IH] using rev_ind; [by intros ?%elem_of_nil|].
  rewrite run_calls_snoc. destruct (run_calls handler tr s0) as [s1 o1] eqn:E1.
  destruct (handler c.2 c.1 s1) as [[r s2] o2] eqn:E2. simpl. intros [H|H]%elem_of_app.
  - destruct IH as (pre & c' & post & -> & H'); [done|].
    exists pre, c', (post ++ [c]). split; [by rewrite <- app_assoc|done].
  - exists tr, c, []. split; [done|]. by rewrite E1; simpl; rewrite E2.
Qed.
End calls_lemmas.

Lemma demo_env_wf (m : mem) (c t : Z) :
  wf_mem m -> fits 32 c -> fits 64 t -> wf_env (demo_env m c t).
Proof.
  intros Hm Hc Ht. split_and!; simpl; try done.
  intros n. split_and!; [apply length_replicate|apply zeros_byte|].
  intros Hn. apply lookup_replicate_2. lia.
Qed.
