(* ===== verification/Intervals.v ===== *)
(** Histories of handler calls.

    The latency probes all measure the time between two kernel events on the
    same object (socket, packet, request, task).  [latest_call k tr v]
    says, of a sequence of calls, what the latest opening call for the object
    [k] recorded, provided no call closed or discarded it since; [last_call]
    computes it.  The component theorems show that the maps of a probe hold
    exactly this. *)

From stdpp Require Import sorting.
From S2P Require Import Prelude BpfRuntime.

Section intervals.
Context {Op K V : Type} `{!EqDecision K}.
Context (key : env * Op -> K) (opens : env * Op -> option V) (resets : env * Op -> bool).
Implicit Types (tr : list (env * Op)) (c : env * Op).

Definition latest_call (k : K) tr (v : V) : Prop :=
  ∃ pre c mid, tr = pre ++ c :: mid ∧ key c = k ∧ opens c = Some v ∧
    Forall (λ c', key c' = k -> opens c' = None ∧ resets c' = false) mid.

Definition open_step (k : K) (cur : option V) c : option V :=
  if decide (key c = k) then
    match opens c with Some v => Some v | None => if resets c then None else cur end
  else cur.

Definition last_call (k : K) tr : option V := foldl (open_step k) None tr.

Lemma last_open_snoc (k : K) tr c : last_call k (tr ++ [c]) = open_step k (last_call k tr) c.
Proof. unfold last_call. by rewrite foldl_app. Qed.

Lemma last_open_latest (k : K) tr (v : V) : last_call k tr = Some v ↔ latest_call k tr v.
Proof.
  split.
  - induction tr as [|c tr IH] using rev_ind; [done|]. rewrite last_open_snoc. unfold open_step.
    assert (latest_call k tr v -> (key c = k -> opens c = None ∧ resets c = false) ->
      latest_call k (tr ++ [c]) v) as Hext.
    { intros (pre & c' & mid & -> & ? & ? & Hm) Hc. exists pre, c', (mid ++ [c]).
      rewrite <- app_assoc. split_and!; [done..|]. apply Forall_app. auto. }
    destruct (decide (key c = k)) as [Hk|]; [|intros; apply Hext; [by apply IH|done]].
    destruct (opens c) as [v'|] eqn:Ho.
    + intros [= ->]. exists tr, c, []. by split_and!.
    + destruct (resets c) eqn:Hr; [done|]. intros. apply Hext; [by apply IH|done].
  - intros (pre & c & mid & -> & Hk & Ho & Hm).
    induction mid as [|c' mid IH] using rev_ind.
    + rewrite last_open_snoc. unfold open_step. by rewrite decide_True, Ho.
    + apply Forall_app in Hm as [Hm [Hc _]%Forall_cons].
      rewrite app_comm_cons, app_assoc, last_open_snoc, IH by done. unfold open_step.
      destruct (decide _) as [E|]; [|done]. by destruct (Hc E) as [-> ->].
Qed.

(** The opening call is one of the calls of the history. *)
Lemma last_open_elem (k : K) tr (v : V) :
  last_call k tr = Some v -> ∃ c, c ∈ tr ∧ key c = k ∧ opens c = Some v.
Proof.
  intros (pre & c & mid & -> & ? & ? & _)%last_open_latest. exists c. split; [|done].
  apply elem_of_app. right. left.
Qed.
End intervals.

(** The common case: object and discarding depend on the call alone, not on
    the CPU or task that makes it. *)
Abbreviation latest key opens resets := (latest_call (λ c, key c.2) opens (λ c, resets c.2)).
Abbreviation last_open key opens resets := (last_call (λ c, key c.2) opens (λ c, resets c.2)).

(** [bpf_ktime_get_ns] is a monotonic clock of 64 bits. *)
Definition clock_ok {Op : Type} (tr : list (env * Op)) : Prop :=
  StronglySorted Z.le ((λ c, ktime c.1) <$> tr) ∧ Forall (λ c, fits 64 (ktime c.1)) tr.

Lemma clock_ok_snoc {Op : Type} (tr : list (env * Op)) (c : env * Op) :
  clock_ok (tr ++ [c]) ->
  clock_ok tr ∧ fits 64 (ktime c.1) ∧ ∀ c', c' ∈ tr -> ktime c'.1 <= ktime c.1.
Proof.
  unfold clock_ok. rewrite fmap_app, Forall_app. intros [Hs [Hf [Hc _]%Forall_cons]].
  apply StronglySorted_app in Hs as (Hle & Hs & _).
  split; [done|]. split; [done|]. intros c' Hin. apply Hle; [|left].
  apply list_elem_of_fmap. eauto.
Qed.

Lemma clock_ok_prefix {Op : Type} (tr tr' : list (env * Op)) : clock_ok (tr ++ tr') -> clock_ok tr.
Proof.
  induction tr' as [|c tr' IH] using rev_ind; [by rewrite app_nil_r|].
  rewrite app_assoc. intros [? _]%clock_ok_snoc. auto.
Qed.
