(* ===== verification/Inspector.v ===== *)
(** The shared header src/bpf/headers/inspector.h.

    Its structs and the inline functions with which every probe fills an
    event from a socket buffer, a socket or a packet.  Functions that read
    kernel memory take the memory and use the positions of [KernelLayout];
    [set_flow_tuple4] reads the packet directly and returns [None] for an
    access outside it, which the theorems exclude. *)

From S2P Require Import Prelude Endian CLayout VmlinuxAmd64 VmlinuxArm64 KernelMem.

Definition ETH_P_IP : Z := 0x800.
Definition ETH_P_IPV6 : Z := 0x86dd.
Definition PF_INET : Z := 2.
Definition PF_INET6 : Z := 10.
Definition TASK_COMM_LEN : nat := 20.
Definition PERF_MAX_STACK_DEPTH : nat := 32.
(** vmlinux.h *)
Definition IPPROTO_TCP : Z := 6.
Definition IPPROTO_UDP : Z := 17.

(** ** Structs *)

Record flow_tuple_4 := FlowTuple4 {
  ft_proto : Z;
  ft_src : Z;
  ft_dst : Z;
  ft_sport : Z;
  ft_dport : Z;
}.

(** [union addr] is its 16 bytes ([v6addr]); [v4addr] is the first four. *)
Definition addr : Type := list Z.

Record skb_meta := SkbMeta {
  netns : Z;
  mark : Z;
  ifindex : Z;
  meta_len : Z;
  mtu : Z;
  sk_state : Z;
  protocol : Z;
  meta_pad : Z;
}.

Record tuple := Tuple {
  saddr : addr;
  daddr : addr;
  sport : Z;
  dport : Z;
  l3_proto : Z;
  l4_proto : Z;
  tuple_pad : Z;
}.

#[global] Instance flow_tuple_4_eq_dec : EqDecision flow_tuple_4.
Proof. solve_decision. Defined.
#[global] Instance flow_tuple_4_countable : Countable flow_tuple_4.
Proof.
  apply (inj_countable' (λ t, (ft_proto t, ft_src t, ft_dst t, ft_sport t, ft_dport t))
    (λ '(a, b, c, d, e), FlowTuple4 a b c d e)). by intros [].
Defined.
#[global] Instance skb_meta_eq_dec : EqDecision skb_meta.
Proof. solve_decision. Defined.
#[global] Instance tuple_eq_dec : EqDecision tuple.
Proof. solve_decision. Defined.

(** Zero-initialised objects. *)
Definition zero_addr : addr := replicate 16 0.
Definition zero_tuple : tuple := Tuple zero_addr zero_addr 0 0 0 0 0.
Definition zero_meta : skb_meta := SkbMeta 0 0 0 0 0 0 0 0.
Definition zero_flow_tuple : flow_tuple_4 := FlowTuple4 0 0 0 0 0.

Definition set_saddr (a : addr) (t : tuple) : tuple :=
  Tuple a (daddr t) (sport t) (dport t) (l3_proto t) (l4_proto t) (tuple_pad t).
Definition set_daddr (a : addr) (t : tuple) : tuple :=
  Tuple (saddr t) a (sport t) (dport t) (l3_proto t) (l4_proto t) (tuple_pad t).
Definition set_sport (p : Z) (t : tuple) : tuple :=
  Tuple (saddr t) (daddr t) p (dport t) (l3_proto t) (l4_proto t) (tuple_pad t).
Definition set_dport (p : Z) (t : tuple) : tuple :=
  Tuple (saddr t) (daddr t) (sport t) p (l3_proto t) (l4_proto t) (tuple_pad t).
Definition set_l3_proto (p : Z) (t : tuple) : tuple :=
  Tuple (saddr t) (daddr t) (sport t) (dport t) p (l4_proto t) (tuple_pad t).
Definition set_l4_proto (p : Z) (t : tuple) : tuple :=
  Tuple (saddr t) (daddr t) (sport t) (dport t) (l3_proto t) p (tuple_pad t).

(** Their declarations, for the layout engine. *)
Definition addr_ctype : ctype :=
  packed_union ["v6addr" ∷ CArray (CInt 1) 16; "v4addr" ∷ CInt 4].
Definition tuple_ctype : ctype :=
  packed_struct ["saddr" ∷ addr_ctype; "daddr" ∷ addr_ctype; "sport" ∷ CInt 2;
    "dport" ∷ CInt 2; "l3_proto" ∷ CInt 2; "l4_proto" ∷ CInt 1; "pad" ∷ CInt 1].
Definition skb_meta_ctype : ctype :=
  packed_struct ["netns" ∷ CInt 4; "mark" ∷ CInt 4; "ifindex" ∷ CInt 4; "len" ∷ CInt 4;
    "mtu" ∷ CInt 4; "sk_state" ∷ CInt 4; "protocol" ∷ CInt 2; "pad" ∷ CInt 2].
Definition flow_tuple_4_ctype : ctype :=
  struct ["proto" ∷ CInt 1; "src" ∷ CInt 4; "dst" ∷ CInt 4; "sport" ∷ CInt 2; "dport" ∷ CInt 2].

(** ** Kernel objects *)

Section inspector.
Context `{KernelLayout}.

(** src/bpf/headers/bpf_helpers.h:68 *)
Definition KERNEL_VERSION (a b c : Z) : Z :=
  Z.shiftl a 16 + Z.shiftl b 8 + (if c >? 255 then 255 else c).

(** The build defines neither [CORE] nor [LINUX_VERSION_CODE]; an undefined
    identifier is 0 in [#if], so the branch for kernels before 5.6 is
    compiled (the other two use a macro that no header defines). *)
Definition LINUX_VERSION_CODE : Z := 0.

(** The one-byte probe read three bytes before [&sock->sk_gso_max_segs]
    fills the low byte of the zero-initialised [u16 protocol]. *)
Definition get_sock_protocol (m : mem) (sock : Z) : Z :=
  let protocol := le_bytes 2 0 in
  le_val (splice protocol 0 (bpf_probe_read m 1 (ptr_add (ptr_add sock sk_gso_max_segs) (-3))).1).

Definition get_sock_netns (m : mem) (sk : Z) : Z :=
  BPF_CORE_READ m sk [sk_skc_net_net] net_ns_inum 4.

Definition get_netns (m : mem) (skb : Z) : Z :=
  let dev := BPF_CORE_READ m skb [] skb_dev 8 in
  let netns := BPF_CORE_READ m dev [dev_nd_net_net] net_ns_inum 4 in
  if netns =? 0 then
    let sk := BPF_CORE_READ m skb [] skb_sk 8 in
    if negb (sk =? 0) then BPF_CORE_READ m sk [sk_skc_net_net] net_ns_inum 4 else netns
  else netns.

(** [bpf_probe_read(&tpl->saddr, n, src)] and its siblings: overwrite the
    first [n] bytes of a field. *)
Definition read_into (m : mem) (old : list Z) (n : nat) (src : Z) : list Z :=
  splice old 0 (bpf_probe_read m n src).1.

Definition read_u8 (m : mem) (src : Z) : Z := le_val (bpf_probe_read m 1 src).1.
Definition read_u16 (m : mem) (src : Z) : Z := le_val (bpf_probe_read m 2 src).1.

Definition set_tuple (m : mem) (skb : Z) (tpl : tuple) : tuple * Z :=
  let skb_head := BPF_CORE_READ m skb [] skb_head 8 in
  let l3_off := BPF_CORE_READ m skb [] skb_network_header 2 in
  let l4_off := BPF_CORE_READ m skb [] skb_transport_header 2 in
  if l3_off =? 0 then (tpl, -1) else
  let ip := ptr_add skb_head l3_off in
  let iphdr_first_byte := read_u8 m ip in
  let ip_vsn := Z.shiftr iphdr_first_byte 4 in
  let l3 :=
    if ip_vsn =? 4 then
      let tpl := set_saddr (read_into m (saddr tpl) 4 (ptr_add ip ip_saddr)) tpl in
      let tpl := set_daddr (read_into m (daddr tpl) 4 (ptr_add ip ip_daddr)) tpl in
      let tpl := set_l4_proto (read_u8 m (ptr_add ip ip_protocol)) tpl in
      Some (set_l3_proto ETH_P_IP tpl)
    else if ip_vsn =? 6 then
      let tpl := set_saddr (read_into m (saddr tpl) 16 (ptr_add ip ip6_saddr)) tpl in
      let tpl := set_daddr (read_into m (daddr tpl) 16 (ptr_add ip ip6_daddr)) tpl in
      let tpl := set_l4_proto (read_u8 m (ptr_add ip ip6_nexthdr)) tpl in
      Some (set_l3_proto ETH_P_IPV6 tpl)
    else None in
  match l3 with
  | None => (tpl, -1)
  | Some tpl =>
      let l4 := ptr_add skb_head l4_off in
      let tpl :=
        if l4_proto tpl =? IPPROTO_TCP then
          let tpl := set_sport (read_u16 m (ptr_add l4 tcp_source)) tpl in
          set_dport (read_u16 m (ptr_add l4 tcp_dest)) tpl
        else if l4_proto tpl =? IPPROTO_UDP then
          let tpl := set_sport (read_u16 m (ptr_add l4 udp_source)) tpl in
          set_dport (read_u16 m (ptr_add l4 udp_dest)) tpl
        else tpl in
      let tpl := set_sport (bpf_htons ORDER_LITTLE_ENDIAN false (sport tpl)) tpl in
      let tpl := set_dport (bpf_htons ORDER_LITTLE_ENDIAN false (dport tpl)) tpl in
      (tpl, 0)
  end.

Definition set_meta (m : mem) (skb : Z) (meta : skb_meta) : skb_meta := {|
  netns := get_netns m skb;
  mark := BPF_CORE_READ m skb [] skb_mark 4;
  ifindex := BPF_CORE_READ m skb [skb_dev] dev_ifindex 4;
  meta_len := BPF_CORE_READ m skb [] skb_len 4;
  mtu := BPF_CORE_READ m skb [skb_dev] dev_mtu 4;
  sk_state := sk_state meta;
  protocol := BPF_CORE_READ m skb [] skb_protocol 2;
  meta_pad := meta_pad meta;
|}.

Definition set_meta_sock (m : mem) (sk : Z) (meta : skb_meta) : skb_meta := {|
  netns := BPF_CORE_READ m sk [sk_skc_net_net] net_ns_inum 4;
  mark := mark meta;
  ifindex := ifindex meta;
  meta_len := meta_len meta;
  mtu := mtu meta;
  sk_state := sk_state meta;
  protocol := get_sock_protocol m sk;
  meta_pad := meta_pad meta;
|}.

Definition set_tuple_sock (m : mem) (sk : Z) (tpl : tuple) : tuple :=
  let skc_family := BPF_CORE_READ m sk [] sk_skc_family 2 in
  let tpl :=
    if skc_family =? PF_INET6 then set_l3_proto ETH_P_IPV6 tpl
    else
      let tpl := set_saddr (read_into m (saddr tpl) 4 (ptr_add sk sk_skc_rcv_saddr)) tpl in
      let tpl := set_daddr (read_into m (daddr tpl) 4 (ptr_add sk sk_skc_daddr)) tpl in
      set_l3_proto ETH_P_IP tpl in
  let tpl := set_sport (BPF_CORE_READ m sk [] sk_skc_num 2) tpl in
  let tpl := set_dport (BPF_CORE_READ m sk [] sk_skc_dport 2) tpl in
  set_l4_proto (u8 (get_sock_protocol m sk)) tpl.
End inspector.

(** ** Packets *)

(** The [struct __sk_buff] context of a tc program: the linear packet bytes
    from [data] to [data_end], and [len]. *)
Record __sk_buff := SkBuff { skb_data : list Z; skb_len_ : Z }.

(** Direct packet access: [None] outside the packet. *)
Definition ld (data : list Z) (o : Z) (n : nat) : option Z :=
  if (0 <=? o) && (o + Z.of_nat n <=? Z.of_nat (length data))
  then Some (le_val (slice data (Z.to_nat o) n)) else None.

Definition sizeof_ethhdr : Z := 14.
Definition sizeof_iphdr : Z := 20.
Definition sizeof_tcphdr : Z := 20.
Definition sizeof_udphdr : Z := 8.

(** [Some (tuple, ret)], or [None] if the code touched memory outside the
    packet. *)
Definition set_flow_tuple4 (skb : __sk_buff) (tuple : flow_tuple_4) (port : bool)
    : option (flow_tuple_4 * Z) :=
  let data := skb_data skb in
  let data_end := Z.of_nat (length data) in
  if 0 + sizeof_ethhdr >? data_end then Some (tuple, -1) else
  h_proto ← ld data 12 2;
  if h_proto =? bpf_htons ORDER_LITTLE_ENDIAN true ETH_P_IP then
    let iph := sizeof_ethhdr in
    if 0 + sizeof_ethhdr + sizeof_iphdr >? data_end then Some (tuple, -1) else
    src ← ld data (iph + 12) 4;
    dst ← ld data (iph + 16) 4;
    proto ← ld data (iph + 9) 1;
    let tuple := FlowTuple4 proto src dst (ft_sport tuple) (ft_dport tuple) in
    if negb port then Some (tuple, 0) else
    vhl ← ld data (iph + 0) 1;
    let ihl := Z.land vhl 15 in
    let l4_off := u16 (sizeof_ethhdr + ihl * 4) in
    if proto =? IPPROTO_TCP then
      if 0 + l4_off + sizeof_tcphdr >? data_end then Some (tuple, -1) else
      source ← ld data (l4_off + 0) 2;
      dest ← ld data (l4_off + 2) 2;
      Some (FlowTuple4 proto src dst source dest, 0)
    else if proto =? IPPROTO_UDP then
      if 0 + l4_off + sizeof_udphdr >? data_end then Some (tuple, -1) else
      source ← ld data (l4_off + 0) 2;
      dest ← ld data (l4_off + 2) 2;
      Some (FlowTuple4 proto src dst source dest, 0)
    else Some (tuple, 0)
  else if h_proto =? bpf_htons ORDER_LITTLE_ENDIAN true ETH_P_IPV6 then Some (tuple, 0)
  else Some (tuple, 0).

(** ** Specification vocabulary *)

(** The objects the header writes are well formed: 16-byte addresses and
    fields within their width. *)
Definition wf_addr (a : addr) : Prop := length a = 16%nat ∧ Forall is_byte a.

Definition wf_tuple (t : tuple) : Prop :=
  wf_addr (saddr t) ∧ wf_addr (daddr t) ∧ fits 16 (sport t) ∧ fits 16 (dport t) ∧
  fits 16 (l3_proto t) ∧ fits 8 (l4_proto t) ∧ fits 8 (tuple_pad t).

Definition wf_meta (m : skb_meta) : Prop :=
  fits 32 (netns m) ∧ fits 32 (mark m) ∧ fits 32 (ifindex m) ∧ fits 32 (meta_len m) ∧
  fits 32 (mtu m) ∧ fits 32 (sk_state m) ∧ fits 16 (protocol m) ∧ fits 16 (meta_pad m).

(** Value of the member [path] of an object with bytes [bs] declared as [t],
    bit-fields included. *)
Definition field_val (t : ctype) (path : list string) (bs : list Z) : option Z :=
  match access t path with
  | Some (o, t', b) => Some ((le_val bs / 2 ^ o) mod 2 ^ extent (sizeof t') b)
  | None => None
  end.

(** An IPv4 datagram in an Ethernet frame, field by field, and its wire
    format (RFC 791, 768 and 793): multi-byte fields in network order. *)
Record ipv4_frame := Ipv4Frame {
  f_macs : list Z;          (** destination and source address *)
  f_ihl : Z;                (** header length in words *)
  f_tos_to_ttl : list Z;    (** type of service up to time to live *)
  f_proto : Z;
  f_check : list Z;
  f_src : list Z;
  f_dst : list Z;
  f_options : list Z;
  f_sport : Z;
  f_dport : Z;
  f_rest : list Z;          (** rest of the transport header, payload *)
}.

Definition be_bytes (n : nat) (z : Z) : list Z := rev (le_bytes n z).

Definition emit_l4 (f : ipv4_frame) : list Z :=
  be_bytes 2 (f_sport f) ++ be_bytes 2 (f_dport f) ++ f_rest f.

Definition emit (f : ipv4_frame) : list Z :=
  f_macs f ++ be_bytes 2 ETH_P_IP ++ [4 * 16 + f_ihl f] ++ f_tos_to_ttl f ++ [f_proto f] ++
  f_check f ++ f_src f ++ f_dst f ++ f_options f ++ emit_l4 f.

Definition wf_frame (f : ipv4_frame) : Prop :=
  length (f_macs f) = 12%nat ∧ 5 <= f_ihl f <= 15 ∧ length (f_tos_to_ttl f) = 8%nat ∧
  is_byte (f_proto f) ∧ length (f_check f) = 2%nat ∧ length (f_src f) = 4%nat ∧
  length (f_dst f) = 4%nat ∧ Z.of_nat (length (f_options f)) = 4 * (f_ihl f - 5) ∧
  fits 16 (f_sport f) ∧ fits 16 (f_dport f).

(** ** Lemmas *)

Lemma ld_in (data : list Z) (o : Z) (n : nat) :
  0 <= o -> o + Z.of_nat n <= Z.of_nat (length data) ->
  ld data o n = Some (le_val (slice data (Z.to_nat o) n)).
Proof.
  intros. unfold ld. by rewrite (proj2 (Z.leb_le 0 o)), (proj2 (Z.leb_le _ _)) by lia.
Qed.

Lemma be_bytes_length (n : nat) (z : Z) : length (be_bytes n z) = n.
Proof. unfold be_bytes. by rewrite length_rev, le_bytes_length. Qed.

Lemma be_bytes_le_val (n : nat) (z : Z) : le_val (be_bytes n z) = __builtin_bswap n z.
Proof. done. Qed.

(** The field of the frame at position [o]: skip the fields before it. *)
Lemma ld_field (a x b : list Z) (o : Z) (n : nat) :
  o = Z.of_nat (length a) -> n = length x -> ld (a ++ x ++ b) o n = Some (le_val x).
Proof.
  intros -> ->. rewrite ld_in; [|lia|rewrite !length_app; lia].
  by rewrite slice_field by lia.
Qed.

Lemma emit_length (f : ipv4_frame) :
  wf_frame f -> Z.of_nat (length (emit f)) =
    14 + 4 * f_ihl f + 4 + Z.of_nat (length (f_rest f)).
Proof.
  intros (H1 & H2 & H3 & H4 & H5 & H6 & H7 & H8 & H9). unfold emit, emit_l4.
  rewrite !length_app, !be_bytes_length, H1, H3, H5, H6, H7.
  cbn [length]. lia.
Qed.

Lemma emit_h_proto (f : ipv4_frame) :
  wf_frame f -> ld (emit f) 12 2 = Some (__builtin_bswap 2 ETH_P_IP).
Proof. intros (H1 & _). unfold emit. by rewrite ld_field by (by rewrite ?H1, ?be_bytes_length). Qed.

Lemma emit_vhl (f : ipv4_frame) :
  wf_frame f -> ld (emit f) (14 + 0) 1 = Some (4 * 16 + f_ihl f).
Proof.
  intros (H1 & _). unfold emit. rewrite (app_assoc (f_macs f)).
  rewrite ld_field; [simpl; f_equal; lia|rewrite length_app, H1, be_bytes_length; done|done].
Qed.

Lemma emit_proto (f : ipv4_frame) :
  wf_frame f -> ld (emit f) (14 + 9) 1 = Some (f_proto f).
Proof.
  intros (H1 & _ & H3 & _). unfold emit.
  rewrite (app_assoc (f_macs f)), (app_assoc (_ ++ _) [_]), (app_assoc _ (f_tos_to_ttl f)).
  rewrite ld_field; [simpl; f_equal; lia| |done].
  by rewrite !length_app, H1, H3, be_bytes_length.
Qed.

Lemma emit_src (f : ipv4_frame) :
  wf_frame f -> ld (emit f) (14 + 12) 4 = Some (le_val (f_src f)).
Proof.
  intros (H1 & _ & H3 & _ & H5 & H6 & _). unfold emit.
  rewrite (app_assoc (f_macs f)), (app_assoc (_ ++ _) [_]), (app_assoc _ (f_tos_to_ttl f)),
    (app_assoc _ [f_proto f]), (app_assoc _ (f_check f)).
  rewrite ld_field; [done| |done].
  by rewrite !length_app, H1, H3, H5, be_bytes_length.
Qed.

Lemma emit_dst (f : ipv4_frame) :
  wf_frame f -> ld (emit f) (14 + 16) 4 = Some (le_val (f_dst f)).
Proof.
  intros (H1 & _ & H3 & _ & H5 & H6 & H7 & _). unfold emit.
  rewrite (app_assoc (f_macs f)), (app_assoc (_ ++ _) [_]), (app_assoc _ (f_tos_to_ttl f)),
    (app_assoc _ [f_proto f]), (app_assoc _ (f_check f)), (app_assoc _ (f_src f)).
  rewrite ld_field; [done| |done].
  by rewrite !length_app, H1, H3, H5, H6, be_bytes_length.
Qed.

(** Everything before the transport header. *)
Lemma emit_split (f : ipv4_frame) :
  wf_frame f -> ∃ pre, emit f = pre ++ emit_l4 f ∧ Z.of_nat (length pre) = 14 + 4 * f_ihl f.
Proof.
  intros (H1 & _ & H3 & _ & H5 & H6 & H7 & H8 & _).
  exists (f_macs f ++ be_bytes 2 ETH_P_IP ++ [4 * 16 + f_ihl f] ++ f_tos_to_ttl f ++ [f_proto f] ++
    f_check f ++ f_src f ++ f_dst f ++ f_options f). split.
  - unfold emit. by rewrite <- !app_assoc.
  - rewrite !length_app, be_bytes_length, H1, H3, H5, H6, H7. cbn [length]. lia.
Qed.

Lemma emit_ports (f : ipv4_frame) :
  wf_frame f ->
  ld (emit f) (14 + 4 * f_ihl f + 0) 2 = Some (__builtin_bswap 2 (f_sport f)) ∧
  ld (emit f) (14 + 4 * f_ihl f + 2) 2 = Some (__builtin_bswap 2 (f_dport f)).
Proof.
  intros (pre & -> & Hpre)%emit_split. unfold emit_l4. split.
  - by rewrite ld_field by (rewrite ?be_bytes_length; lia).
  - rewrite (app_assoc pre). rewrite ld_field; [done|rewrite length_app, be_bytes_length; lia|].
    by rewrite be_bytes_length.
Qed.

Lemma land_low_nibble (h l : Z) : 0 <= l < 16 -> Z.land (h * 16 + l) 15 = l.
Proof.
  intros. change 15 with (Z.ones 4). rewrite Z.land_ones by lia. change (2 ^ 4) with 16.
  rewrite Z.add_comm, Z.mod_add, Z.mod_small by lia. done.
Qed.

(** The first byte of a mapped object, and a whole one, through the probe
    helpers. *)
Lemma read_u8_at (m : mem) (a b : Z) : mem_read m a 1 = Some [b] -> read_u8 m a = b.
Proof. intros E. unfold read_u8, bpf_probe_read. rewrite E. simpl. lia. Qed.

Lemma ptr_add_small (p o : Z) : 0 <= p + o < 2 ^ 64 -> ptr_add p o = p + o.
Proof. intros. by apply wrap_small. Qed.

(** The address that [get_sock_protocol] reads. *)
Lemma sock_protocol_addr `{KernelLayout} (sock : Z) :
  0 <= sock -> 3 <= sk_gso_max_segs -> sock + sk_gso_max_segs < 2 ^ 64 ->
  ptr_add (ptr_add sock sk_gso_max_segs) (-3) = sock + (sk_gso_max_segs - 3).
Proof. intros. rewrite (ptr_add_small sock), ptr_add_small; lia. Qed.

Lemma get_sock_protocol_byte `{KernelLayout} (m : mem) (sock : Z) (bs : list Z) (o : nat) :
  0 <= sock -> sk_gso_max_segs = Z.of_nat o + 3 -> sock + sk_gso_max_segs < 2 ^ 64 ->
  Forall is_byte bs -> bytes_at m sock bs -> (o + 1 <= length bs)%nat ->
  get_sock_protocol m sock = (le_val bs / 2 ^ (8 * Z.of_nat o)) mod 2 ^ 8.
Proof.
  intros Hs Ho Hw Hb Hat Hlen. unfold get_sock_protocol. rewrite sock_protocol_addr by lia.
  replace (sk_gso_max_segs - 3) with (Z.of_nat o) by lia.
  rewrite (probe_read_ok _ _ _ _ (bytes_at_field m sock bs o 1 Hat Hlen)).
  cbn [fst]. pose proof (slice_length bs o 1 Hlen) as Hl.
  change (2 ^ 8) with (2 ^ (8 * Z.of_nat 1)). rewrite <- le_val_slice by done.
  destruct (slice bs o 1) as [|b [|]]; done.
Qed.

(** Positions in the two declarations of [struct sock]. *)
Lemma amd64_sock_size : sizeof Amd64.sock = 752.
Proof. vm_compute. done. Qed.
Lemma arm64_sock_size : sizeof Arm64.sock = 752.
Proof. vm_compute. done. Qed.
Lemma amd64_sk_protocol : access Amd64.sock ["sk_protocol"] = Some (4232, CInt 4, Some 8).
Proof. vm_compute. done. Qed.
Lemma arm64_sk_type : access Arm64.sock ["sk_type"] = Some (4240, CInt 2, None).
Proof. vm_compute. done. Qed.

(** [set_flow_tuple4] with ports on an IPv4 frame. *)
Lemma set_flow_tuple4_v4 (f : ipv4_frame) (len : Z) (t : flow_tuple_4)
    (Hf : wf_frame f)
    (Hl4 : f_proto f = IPPROTO_TCP ∧ (16 <= length (f_rest f))%nat ∨
           f_proto f = IPPROTO_UDP ∧ (4 <= length (f_rest f))%nat) :
  set_flow_tuple4 (SkBuff (emit f) len) t true =
  Some (FlowTuple4 (f_proto f) (le_val (f_src f)) (le_val (f_dst f))
          (bpf_htons ORDER_LITTLE_ENDIAN false (f_sport f))
          (bpf_htons ORDER_LITTLE_ENDIAN false (f_dport f)), 0).
Proof.
  pose proof (emit_length f Hf) as Hlen. destruct (emit_ports f Hf) as [Hsp Hdp].
  assert (5 <= f_ihl f <= 15) as Hihl by apply Hf.
  unfold set_flow_tuple4, sizeof_ethhdr, sizeof_iphdr, sizeof_tcphdr, sizeof_udphdr.
  cbn [skb_data]. rewrite Hlen, emit_h_proto, emit_src, emit_dst, emit_proto, emit_vhl by done.
  rewrite !htons_builtin. simpl (mbind _ _).
  destruct (Z.gtb_spec (0 + 14) (14 + 4 * f_ihl f + 4 + Z.of_nat (length (f_rest f)))) as [|_]; [lia|].
  destruct (Z.gtb_spec (0 + 14 + 20) (14 + 4 * f_ihl f + 4 + Z.of_nat (length (f_rest f)))) as [|_]; [lia|].
  rewrite land_low_nibble by lia.
  rewrite (wrap_small 16) by (split; lia). rewrite (Z.mul_comm (f_ihl f)), Hsp, Hdp. simpl.
  destruct Hl4 as [[-> Hr]|[-> Hr]]; simpl.
  - by destruct (Z.gtb_spec (0 + (14 + 4 * f_ihl f) + 20) (14 + 4 * f_ihl f + 4 + Z.of_nat (length (f_rest f)))); [lia|].
  - by destruct (Z.gtb_spec (0 + (14 + 4 * f_ihl f) + 8) (14 + 4 * f_ihl f + 4 + Z.of_nat (length (f_rest f)))); [lia|].
Qed.

(** ** Properties *)

(** [set_flow_tuple4] never touches a byte outside the packet,
    whatever the packet contains (truncated headers, any header length field,
    any protocol), and its result is 0 or -1. *)
Theorem set_flow_tuple4_safe (skb : __sk_buff) (t : flow_tuple_4) (port : bool) :
  ∃ t' r, set_flow_tuple4 skb t port = Some (t', r) ∧ (r = 0 ∨ r = -1).
Proof.
  unfold set_flow_tuple4, sizeof_ethhdr, sizeof_iphdr, sizeof_tcphdr, sizeof_udphdr.
  set (n := Z.of_nat (length (skb_data skb))).
  destruct (Z.gtb_spec (0 + 14) n) as [|E1]; [eauto|]. rewrite (ld_in _ 12 2) by lia. simpl (mbind _ _).
  destruct (_ =? _); [|destruct (_ =? _); eauto].
  destruct (Z.gtb_spec (0 + 14 + 20) n) as [|E2]; [eauto|].
  rewrite (ld_in _ (14 + 12) 4), (ld_in _ (14 + 16) 4), (ld_in _ (14 + 9) 1), (ld_in _ (14 + 0) 1) by lia.
  simpl (mbind _ _).
  destruct (negb port); [eauto|].
  destruct (wrap_fits 16 (14 + Z.land (le_val (slice (skb_data skb) (Z.to_nat (14 + 0)) 1)) 15 * 4)) as [Ho _]; [lia|].
  set (off := u16 _) in *. clearbody off.
  destruct (_ =? IPPROTO_TCP); [|destruct (_ =? IPPROTO_UDP); [|eauto]].
  - destruct (Z.gtb_spec (0 + off + 20) n); [eauto|]. rewrite !ld_in by lia. simpl. eauto 8.
  - destruct (Z.gtb_spec (0 + off + 8) n); [eauto|]. rewrite !ld_in by lia. simpl. eauto 8.
Qed.

(** Parsing inverts the wire format.  For every well-formed IPv4 frame
    that carries a complete TCP or UDP header, with or without IP options,
    [set_flow_tuple4] with ports enabled returns 0 and the protocol, the two
    addresses and the two ports of the frame, the latter four still in
    network byte order. *)
Theorem set_flow_tuple4_parses (f : ipv4_frame) (len : Z) (t : flow_tuple_4)
    (Hf : wf_frame f)
    (Hl4 : f_proto f = IPPROTO_TCP ∧ (16 <= length (f_rest f))%nat ∨
           f_proto f = IPPROTO_UDP ∧ (4 <= length (f_rest f))%nat) :
  set_flow_tuple4 (SkBuff (emit f) len) t true =
  Some (FlowTuple4 (f_proto f) (le_val (f_src f)) (le_val (f_dst f))
          (bpf_htons ORDER_LITTLE_ENDIAN false (f_sport f))
          (bpf_htons ORDER_LITTLE_ENDIAN false (f_dport f)), 0).
Proof. exact (set_flow_tuple4_v4 f len t Hf Hl4). Qed.

(** A UDP datagram from 10.0.0.1:53 to 10.0.0.2:4660 with one word of IP
    options. *)
Definition sample_frame : ipv4_frame := {|
  f_macs := replicate 12 2; f_ihl := 6; f_tos_to_ttl := replicate 8 0; f_proto := 17;
  f_check := [0; 0]; f_src := [10; 0; 0; 1]; f_dst := [10; 0; 0; 2];
  f_options := [1; 1; 1; 0]; f_sport := 53; f_dport := 4660; f_rest := [0; 8; 0; 0] |}.

Lemma sample_frame_wf : wf_frame sample_frame.
Proof. unfold wf_frame, is_byte, fits. simpl. lia. Qed.

Lemma set_flow_tuple4_parses_witness :
  set_flow_tuple4 (SkBuff (emit sample_frame) 46) zero_flow_tuple true =
  Some (FlowTuple4 17 16777226 33554442 13568 13330, 0).
Proof.
  rewrite (set_flow_tuple4_parses sample_frame 46 zero_flow_tuple).
  - vm_compute. done.
  - exact sample_frame_wf.
  - right. simpl. split; [done|lia].
Defined.

(** Without the port switch the parser leaves the port fields of the
    tuple alone and never looks at the transport header: any frame with a
    complete IPv4 header is accepted. *)
Theorem set_flow_tuple4_no_port (f : ipv4_frame) (len : Z) (t : flow_tuple_4) (Hf : wf_frame f) :
  set_flow_tuple4 (SkBuff (emit f) len) t false =
  Some (FlowTuple4 (f_proto f) (le_val (f_src f)) (le_val (f_dst f)) (ft_sport t) (ft_dport t), 0).
Proof.
  pose proof (emit_length f Hf) as Hlen. assert (5 <= f_ihl f <= 15) as Hihl by apply Hf.
  unfold set_flow_tuple4, sizeof_ethhdr, sizeof_iphdr, sizeof_tcphdr, sizeof_udphdr.
  cbn [skb_data]. rewrite Hlen, emit_h_proto, emit_src, emit_dst, emit_proto by done.
  rewrite !htons_builtin. simpl (mbind _ _).
  destruct (Z.gtb_spec (0 + 14) (14 + 4 * f_ihl f + 4 + Z.of_nat (length (f_rest f)))) as [|_]; [lia|].
  by destruct (Z.gtb_spec (0 + 14 + 20) (14 + 4 * f_ihl f + 4 + Z.of_nat (length (f_rest f)))) as [|_]; [lia|].
Qed.

Lemma set_flow_tuple4_no_port_witness :
  set_flow_tuple4 (SkBuff (emit sample_frame) 46) zero_flow_tuple false =
  Some (FlowTuple4 17 16777226 33554442 0 0, 0).
Proof. exact (set_flow_tuple4_no_port sample_frame 46 zero_flow_tuple sample_frame_wf). Defined.

(** On the kernel of amd64/vmlinux.h, where [sk_protocol] is an 8-bit
    bit-field, the byte three before [sk_gso_max_segs] is that field: for
    every socket object [get_sock_protocol] returns its [sk_protocol]. *)
Theorem get_sock_protocol_amd64 (m : mem) (sk : Z) (bs : list Z)
    (Hlen : Z.of_nat (length bs) = sizeof Amd64.sock) (Hb : Forall is_byte bs)
    (Hat : bytes_at m sk bs) (Hsk : 0 <= sk) (Htop : sk + 1024 < 2 ^ 64) :
  Some (@get_sock_protocol amd64_layout m sk) = field_val Amd64.sock ["sk_protocol"] bs.
Proof.
  rewrite amd64_sock_size in Hlen. unfold field_val. rewrite amd64_sk_protocol.
  rewrite (@get_sock_protocol_byte amd64_layout m sk bs 529); [done|done|done| |done|done|lia].
  change (@sk_gso_max_segs amd64_layout) with 532. lia.
Qed.

(** On the kernel of arm64/vmlinux.h (5.6 and later) the compiled
    branch of [get_sock_protocol] reads the high byte of [sk_type] instead of
    [sk_protocol]: it returns 0 for every socket whose type number is below
    256, TCP and UDP sockets alike. *)
Theorem get_sock_protocol_arm64 (m : mem) (sk : Z) (bs : list Z) (type : Z)
    (Hlen : Z.of_nat (length bs) = sizeof Arm64.sock) (Hb : Forall is_byte bs)
    (Hat : bytes_at m sk bs) (Hsk : 0 <= sk) (Htop : sk + 1024 < 2 ^ 64)
    (Htype : field_val Arm64.sock ["sk_type"] bs = Some type) :
  @get_sock_protocol arm64_layout m sk = type / 256 ∧
  (type < 256 -> @get_sock_protocol arm64_layout m sk = 0).
Proof.
  rewrite arm64_sock_size in Hlen. unfold field_val in Htype. rewrite arm64_sk_type in Htype.
  injection Htype as <-. change (extent (sizeof (CInt 2)) None) with (8 + 8).
  pose proof (Z.mod_pos_bound (le_val bs / 2 ^ 4240) (2 ^ (8 + 8)) ltac:(lia)) as Hpos.
  assert (@get_sock_protocol arm64_layout m sk = (le_val bs / 2 ^ 4240) mod 2 ^ (8 + 8) / 256) as ->.
  { rewrite (@get_sock_protocol_byte arm64_layout m sk bs 531); [|done|done| |done|done|lia].
    - change 256 with (2 ^ 8). rewrite mod_div_pow2, Z.div_div, <- Z.pow_add_r by lia. done.
    - change (@sk_gso_max_segs arm64_layout) with 534. clear -Htop. lia. }
  split; [done|]. intros Ht. apply Z.div_small. split; [apply Hpos|exact Ht].
Qed.

(** A TCP socket object of each kernel at address 4096. *)
Definition sample_sock (proto : list Z) (o : nat) : list Z :=
  replicate o 0 ++ proto ++ replicate (752 - o - length proto) 0.

Lemma sample_sock_bytes (proto : list Z) (o : nat) :
  Forall is_byte proto -> Forall is_byte (sample_sock proto o).
Proof.
  intros Hp. assert (∀ n, Forall is_byte (replicate n 0)) by (intros n; apply Forall_replicate; split; lia).
  unfold sample_sock. by rewrite !Forall_app.
Qed.

Lemma get_sock_protocol_amd64_witness :
  @get_sock_protocol amd64_layout (mem_of [(4096, sample_sock [6] 529)]) 4096 = 6.
Proof.
  assert (Forall is_byte [6]) as Hb by (apply Forall_singleton; split; lia).
  pose proof (get_sock_protocol_amd64 (mem_of [(4096, sample_sock [6] 529)]) 4096 (sample_sock [6] 529)
    ltac:(vm_compute; reflexivity) (sample_sock_bytes [6] 529 Hb) (mem_of_bytes_at 4096 _) ltac:(lia) ltac:(lia)) as H.
  assert (field_val Amd64.sock ["sk_protocol"] (sample_sock [6] 529) = Some 6) as E by (vm_compute; reflexivity).
  rewrite E in H. exact (inj Some _ _ H).
Defined.

(** [sk_type] = SOCK_STREAM and [sk_protocol] = 6. *)
Lemma get_sock_protocol_arm64_witness :
  @get_sock_protocol arm64_layout (mem_of [(4096, sample_sock [1; 0; 6; 0] 530)]) 4096 = 0.
Proof.
  assert (Forall is_byte [1; 0; 6; 0]) as Hb by (repeat (apply Forall_cons; split; [split; lia|]); apply Forall_nil_2).
  refine (proj2 (get_sock_protocol_arm64 (mem_of [(4096, sample_sock [1; 0; 6; 0] 530)]) 4096
    (sample_sock [1; 0; 6; 0] 530) 1 _ (sample_sock_bytes _ _ Hb) (mem_of_bytes_at 4096 _) _ _ _) _);
    try lia; vm_compute; reflexivity.
Defined.
