(* ===== verification/FeatureSwitch.v ===== *)
(** src/bpf/headers/feature-switch.h: the per-CPU array of feature bits that
    the agent fills when it loads a probe. *)

From S2P Require Import Prelude KernelMem BpfMaps BpfRuntime.

(** [FEATURE_SWITCH(probe)] declares the map and this function. *)
Definition is_enable {S E MF : Type} `{!BpfMap MF Z Z} (feature_switch : lens S MF) (key : Z)
    : prog S E bool :=
  val ← map_lookup feature_switch key;
  mret (match val with Some v => negb (v =? 0) | None => false end).

(** The feature as seen by a program on a CPU. *)
Definition enabled_on {MF : Type} `{!BpfMap MF Z Z} (cpu : Z) (m : MF) (key : Z) : bool :=
  match bpf_map_lookup_elem cpu m key with Some v => negb (v =? 0) | None => false end.

Lemma is_enable_run {S E MF : Type} `{!BpfMap MF Z Z} (l : lens S MF) (key : Z) (e : env) (s : S) :
  is_enable (E := E) l key e s = (enabled_on (smp_id e) (lget l s) key, s, []).
Proof. done. Qed.
