(* ===== verification/SetTuple.v ===== *)
(** Properties of the tuple and metadata readers of
    src/bpf/headers/inspector.h on packets and sockets in kernel memory:
    [set_tuple] inverts the wire format of IPv4 and IPv6, [set_tuple_sock]
    reads the fields of a socket, [get_netns] falls back from the device to
    the socket, and everything they store is well formed. *)

From S2P Require Import Prelude Endian CLayout VmlinuxAmd64 VmlinuxArm64 KernelMem Inspector.

(** ** Layout of the protocol headers *)

(** Positions of the header fields as the protocols define them. *)
Definition wire_layout (L : KernelLayout) : Prop :=
  ip_saddr = 12 ∧ ip_daddr = 16 ∧ ip_protocol = 9 ∧
  ip6_saddr = 8 ∧ ip6_daddr = 24 ∧ ip6_nexthdr = 6 ∧
  tcp_source = 0 ∧ tcp_dest = 2 ∧ udp_source = 0 ∧ udp_dest = 2.

Lemma amd64_wire_layout : wire_layout amd64_layout.
Proof. by vm_compute. Qed.
Lemma arm64_wire_layout : wire_layout arm64_layout.
Proof. by vm_compute. Qed.

(** ** Packets in memory *)

(** An IPv6 datagram without extension headers (RFC 8200). *)
Record ipv6_packet := Ipv6Packet {
  g_class : Z;            (** low bits of the first byte *)
  g_flow_len : list Z;    (** traffic class, flow label and payload length *)
  g_nexthdr : Z;
  g_hop : Z;
  g_src : list Z;
  g_dst : list Z;
  g_sport : Z;
  g_dport : Z;
  g_rest : list Z;
}.

Definition emit_l4_6 (g : ipv6_packet) : list Z :=
  be_bytes 2 (g_sport g) ++ be_bytes 2 (g_dport g) ++ g_rest g.
Definition emit6 (g : ipv6_packet) : list Z :=
  [6 * 16 + g_class g] ++ g_flow_len g ++ [g_nexthdr g] ++ [g_hop g] ++ g_src g ++ g_dst g ++ emit_l4_6 g.

Definition wf_packet6 (g : ipv6_packet) : Prop :=
  0 <= g_class g < 16 ∧ length (g_flow_len g) = 5%nat ∧ is_byte (g_nexthdr g) ∧
  length (g_src g) = 16%nat ∧ length (g_dst g) = 16%nat ∧
  fits 16 (g_sport g) ∧ fits 16 (g_dport g).

(** The IP datagram of an IPv4 frame. *)
Definition emit4 (f : ipv4_frame) : list Z :=
  [4 * 16 + f_ihl f] ++ f_tos_to_ttl f ++ [f_proto f] ++ f_check f ++ f_src f ++ f_dst f ++
  f_options f ++ emit_l4 f.

(** The [sk_buff] at [skb] has its packet buffer at [head], and the kernel has
    set the header offsets: network header [l3], transport header [l4]; the
    buffer holds the datagram [bs] from the network header on. *)
Definition skb_at `{KernelLayout} (m : mem) (skb head l3 l4 : Z) (bs : list Z) : Prop :=
  BPF_CORE_READ m skb [] skb_head 8 = head ∧
  BPF_CORE_READ m skb [] skb_network_header 2 = l3 ∧
  BPF_CORE_READ m skb [] skb_transport_header 2 = l4 ∧
  0 < l3 ∧ 0 <= head ∧ head + l3 + Z.of_nat (length bs) < 2 ^ 64 ∧ bytes_at m (head + l3) bs.

(** ** Lemmas *)

(** A read of the field [x] of the datagram [a ++ x ++ b]. *)
Lemma read_field (m : mem) (base o : Z) (a x b bs : list Z) :
  bs = a ++ x ++ b -> o = Z.of_nat (length a) -> bytes_at m base bs ->
  0 <= base -> base + Z.of_nat (length bs) < 2 ^ 64 ->
  (bpf_probe_read m (length x) (ptr_add base o)).1 = x.
Proof.
  intros -> -> Hat Hb Htop. rewrite !length_app in Htop. rewrite ptr_add_small by lia.
  rewrite (probe_read_ok _ _ _ x); [done|].
  rewrite (bytes_at_field m base _ (length a) (length x) Hat) by (rewrite !length_app; lia).
  by rewrite slice_field.
Qed.

Lemma splice_prefix (l x : list Z) : splice l 0 x = x ++ drop (length x) l.
Proof. done. Qed.

Lemma bswap_port (p : Z) :
  fits 16 p -> bpf_htons ORDER_LITTLE_ENDIAN false (le_val (be_bytes 2 p)) = p.
Proof.
  intros Hp. rewrite htons_builtin. unfold be_bytes. change (le_val (rev (le_bytes 2 p))) with (__builtin_bswap 2 p).
  by apply bswap_involutive.
Qed.

Lemma ptr_add_add (p a b : Z) : ptr_add (ptr_add p a) b = ptr_add p (a + b).
Proof. unfold ptr_add, wrap. rewrite Zplus_mod_idemp_l. f_equal. lia. Qed.

Lemma ptr_add_base (p o : Z) : ptr_add (ptr_add p o) 0 = ptr_add p o.
Proof. rewrite ptr_add_add. by rewrite Z.add_0_r. Qed.

(** The same read through the [sk_buff]: at offset [o] of the datagram. *)
Lemma skb_read_field `{KernelLayout} (m : mem) (skb head l3 l4 o : Z) (n : nat) (a x b bs : list Z) :
  skb_at m skb head l3 l4 bs -> bs = a ++ x ++ b -> o = Z.of_nat (length a) -> n = length x ->
  (bpf_probe_read m n (ptr_add head (l3 + o))).1 = x.
Proof.
  intros (_ & _ & _ & H3 & Hh & Htop & Hat) Hbs Ho ->.
  rewrite <- ptr_add_add, (ptr_add_small head l3) by lia.
  eapply read_field; eauto; lia.
Qed.

Section ipv4.
Context `{L : KernelLayout} (m : mem) (skb head l3 : Z) (f : ipv4_frame).
Context (Hw : wire_layout L) (Hf : wf_frame f).
Context (Hskb : skb_at m skb head l3 (l3 + 4 * f_ihl f) (emit4 f)).

Lemma v4_first : read_u8 m (ptr_add head l3) = 4 * 16 + f_ihl f.
Proof.
  unfold read_u8. replace l3 with (l3 + 0) by lia.
  rewrite (skb_read_field _ _ _ _ _ 0 1 [] [4 * 16 + f_ihl f] _ _ Hskb eq_refl) by done. simpl. lia.
Qed.

Lemma v4_proto : read_u8 m (ptr_add head (l3 + 9)) = f_proto f.
Proof.
  destruct Hf as (_ & _ & Ht & _). unfold read_u8.
  rewrite (skb_read_field _ _ _ _ _ 9 1 ([4 * 16 + f_ihl f] ++ f_tos_to_ttl f) [f_proto f]
    (f_check f ++ f_src f ++ f_dst f ++ f_options f ++ emit_l4 f) _ Hskb).
  - simpl. lia.
  - unfold emit4. by rewrite <- !app_assoc.
  - rewrite length_app, Ht. done.
  - done.
Qed.

Lemma v4_src : (bpf_probe_read m 4 (ptr_add head (l3 + 12))).1 = f_src f.
Proof.
  destruct Hf as (_ & _ & Ht & _ & Hc & Hs & _).
  apply (skb_read_field _ _ _ _ _ 12 4
    ([4 * 16 + f_ihl f] ++ f_tos_to_ttl f ++ [f_proto f] ++ f_check f) (f_src f)
    (f_dst f ++ f_options f ++ emit_l4 f) _ Hskb).
  - unfold emit4. by rewrite <- !app_assoc.
  - rewrite !length_app, Ht, Hc. done.
  - done.
Qed.

Lemma v4_dst : (bpf_probe_read m 4 (ptr_add head (l3 + 16))).1 = f_dst f.
Proof.
  destruct Hf as (_ & _ & Ht & _ & Hc & Hs & Hd & _).
  apply (skb_read_field _ _ _ _ _ 16 4
    ([4 * 16 + f_ihl f] ++ f_tos_to_ttl f ++ [f_proto f] ++ f_check f ++ f_src f) (f_dst f)
    (f_options f ++ emit_l4 f) _ Hskb).
  - unfold emit4. by rewrite <- !app_assoc.
  - rewrite !length_app, Ht, Hc, Hs. done.
  - done.
Qed.

Lemma v4_ports :
  read_u16 m (ptr_add head (l3 + 4 * f_ihl f + 0)) = le_val (be_bytes 2 (f_sport f)) ∧
  read_u16 m (ptr_add head (l3 + 4 * f_ihl f + 2)) = le_val (be_bytes 2 (f_dport f)).
Proof.
  destruct Hf as (_ & _ & Ht & _ & Hc & Hs & Hd & Ho & _). unfold read_u16.
  set (hdr := [4 * 16 + f_ihl f] ++ f_tos_to_ttl f ++ [f_proto f] ++ f_check f ++ f_src f ++ f_dst f ++
    f_options f).
  assert (Z.of_nat (length hdr) = 4 * f_ihl f) as Hl.
  { unfold hdr. rewrite !length_app, Ht, Hc, Hs, Hd. cbn [length]. lia. }
  assert (emit4 f = hdr ++ emit_l4 f) as He by (unfold emit4, hdr; by rewrite <- !app_assoc).
  rewrite <- !Z.add_assoc. split; f_equal.
  - apply (skb_read_field _ _ _ _ _ _ 2 hdr (be_bytes 2 (f_sport f))
      (be_bytes 2 (f_dport f) ++ f_rest f) _ Hskb); [by rewrite He|lia|by rewrite be_bytes_length].
  - apply (skb_read_field _ _ _ _ _ _ 2 (hdr ++ be_bytes 2 (f_sport f)) (be_bytes 2 (f_dport f))
      (f_rest f) _ Hskb); [by rewrite He; unfold emit_l4; rewrite <- !app_assoc| |by rewrite be_bytes_length].
    rewrite length_app, be_bytes_length. lia.
Qed.
End ipv4.

Section ipv6.
Context `{L : KernelLayout} (m : mem) (skb head l3 : Z) (g : ipv6_packet).
Context (Hg : wf_packet6 g) (Hskb : skb_at m skb head l3 (l3 + 40) (emit6 g)).

Lemma v6_first : read_u8 m (ptr_add head l3) = 6 * 16 + g_class g.
Proof.
  unfold read_u8. replace l3 with (l3 + 0) by lia.
  rewrite (skb_read_field _ _ _ _ _ 0 1 [] [6 * 16 + g_class g] _ _ Hskb eq_refl) by done. simpl. lia.
Qed.

Lemma v6_nexthdr : read_u8 m (ptr_add head (l3 + 6)) = g_nexthdr g.
Proof.
  destruct Hg as (_ & Hl & _). unfold read_u8.
  rewrite (skb_read_field _ _ _ _ _ 6 1 ([6 * 16 + g_class g] ++ g_flow_len g) [g_nexthdr g]
    ([g_hop g] ++ g_src g ++ g_dst g ++ emit_l4_6 g) _ Hskb).
  - simpl. lia.
  - unfold emit6. by rewrite <- !app_assoc.
  - rewrite length_app, Hl. done.
  - done.
Qed.

Lemma v6_src : (bpf_probe_read m 16 (ptr_add head (l3 + 8))).1 = g_src g.
Proof.
  destruct Hg as (_ & Hl & _ & Hs & _).
  apply (skb_read_field _ _ _ _ _ 8 16
    ([6 * 16 + g_class g] ++ g_flow_len g ++ [g_nexthdr g] ++ [g_hop g]) (g_src g)
    (g_dst g ++ emit_l4_6 g) _ Hskb).
  - unfold emit6. by rewrite <- !app_assoc.
  - rewrite !length_app, Hl. done.
  - done.
Qed.

Lemma v6_dst : (bpf_probe_read m 16 (ptr_add head (l3 + 24))).1 = g_dst g.
Proof.
  destruct Hg as (_ & Hl & _ & Hs & Hd & _).
  apply (skb_read_field _ _ _ _ _ 24 16
    ([6 * 16 + g_class g] ++ g_flow_len g ++ [g_nexthdr g] ++ [g_hop g] ++ g_src g) (g_dst g)
    (emit_l4_6 g) _ Hskb).
  - unfold emit6. by rewrite <- !app_assoc.
  - rewrite !length_app, Hl, Hs. done.
  - done.
Qed.

Lemma v6_ports :
  read_u16 m (ptr_add head (l3 + 40 + 0)) = le_val (be_bytes 2 (g_sport g)) ∧
  read_u16 m (ptr_add head (l3 + 40 + 2)) = le_val (be_bytes 2 (g_dport g)).
Proof.
  destruct Hg as (_ & Hl & _ & Hs & Hd & _). unfold read_u16.
  set (hdr := [6 * 16 + g_class g] ++ g_flow_len g ++ [g_nexthdr g] ++ [g_hop g] ++ g_src g ++ g_dst g).
  assert (Z.of_nat (length hdr) = 40) as Hh.
  { unfold hdr. rewrite !length_app, Hl, Hs, Hd. done. }
  assert (emit6 g = hdr ++ emit_l4_6 g) as He by (unfold emit6, hdr; by rewrite <- !app_assoc).
  rewrite <- !Z.add_assoc. split; f_equal.
  - apply (skb_read_field _ _ _ _ _ _ 2 hdr (be_bytes 2 (g_sport g))
      (be_bytes 2 (g_dport g) ++ g_rest g) _ Hskb); [by rewrite He|lia|by rewrite be_bytes_length].
  - apply (skb_read_field _ _ _ _ _ _ 2 (hdr ++ be_bytes 2 (g_sport g)) (be_bytes 2 (g_dport g))
      (g_rest g) _ Hskb); [by rewrite He; unfold emit_l4_6; rewrite <- !app_assoc| |by rewrite be_bytes_length].
    rewrite length_app, be_bytes_length. lia.
Qed.
End ipv6.

(** The high nibble of the first byte. *)
Lemma version_nibble (v low : Z) : 0 <= low < 16 -> Z.shiftr (v * 16 + low) 4 = v.
Proof.
  intros. rewrite Z.shiftr_div_pow2 by lia. change (2 ^ 4) with 16.
  rewrite Z.div_add_l, (Z.div_small low) by lia. lia.
Qed.

(** Protocols whose ports [set_tuple] reads. *)
Definition has_ports (proto : Z) : bool := (proto =? IPPROTO_TCP) || (proto =? IPPROTO_UDP).

(** What the readers store is well formed. *)
Lemma probe_fits (m : mem) (n : nat) (src : Z) :
  wf_mem m -> fits (8 * Z.of_nat n) (le_val (bpf_probe_read m n src).1).
Proof.
  intros Hm. pose proof (le_val_bound _ (probe_read_bytes m n src Hm)) as Hb.
  by rewrite probe_read_length in Hb.
Qed.

Lemma read_into_wf (m : mem) (a : addr) (n : nat) (src : Z) :
  wf_mem m -> wf_addr a -> (n <= 16)%nat -> wf_addr (read_into m a n src).
Proof.
  intros Hm [Hl Hb] Hn. unfold read_into. split.
  - rewrite splice_length; [done|]. rewrite probe_read_length by done. lia.
  - apply splice_byte; [done|]. by apply probe_read_bytes.
Qed.

Lemma htons_fits (x : Z) : fits 16 (bpf_htons ORDER_LITTLE_ENDIAN false x).
Proof. rewrite htons_builtin. apply (bswap_fits 2). Qed.

Lemma get_sock_protocol_fits `{KernelLayout} (m : mem) (sk : Z) :
  wf_mem m -> fits 16 (get_sock_protocol m sk).
Proof.
  intros Hm. unfold get_sock_protocol. set (bs := splice _ _ _).
  assert (length bs = 2%nat) as Hl.
  { unfold bs. rewrite splice_length; [done|]. rewrite probe_read_length, le_bytes_length by done. lia. }
  assert (Forall is_byte bs) as Hb.
  { apply splice_byte; [apply le_bytes_byte|by apply probe_read_bytes]. }
  pose proof (le_val_bound bs Hb) as Hv. by rewrite Hl in Hv.
Qed.

Lemma wf_zero_addr : wf_addr zero_addr.
Proof. split; [done|apply zeros_byte]. Qed.
Lemma wf_zero_tuple : wf_tuple zero_tuple.
Proof. split_and!; try apply wf_zero_addr; done. Qed.
Lemma wf_zero_meta : wf_meta zero_meta.
Proof. by split_and!. Qed.

#[export] Hint Resolve read_into_wf htons_fits get_sock_protocol_fits wf_zero_tuple wf_zero_meta : bpf.

Lemma set_tuple_wf `{KernelLayout} (m : mem) (skb : Z) (t : tuple) :
  wf_mem m -> wf_tuple t -> wf_tuple (set_tuple m skb t).1 ∧
  ((set_tuple m skb t).2 = 0 ∨ (set_tuple m skb t).2 = -1 ∧ (set_tuple m skb t).1 = t).
Proof.
  intros Hm Ht. pose proof Ht as (H1 & H2 & H3 & H4 & H5 & H6 & H7).
  pose proof (probe_fits m 1) as P8. unfold set_tuple.
  destruct (_ =? 0); [by auto|]. destruct (_ =? 4); [|destruct (_ =? 6); [|by auto]];
    (split; [|by left]); cbn [fst];
    match goal with |- context [if ?b then _ else _] => destruct b end;
    try match goal with |- context [if ?b then _ else _] => destruct b end;
    repeat match goal with |- wf_tuple _ => split_and! end;
    cbn [set_saddr set_daddr set_l4_proto set_l3_proto set_sport set_dport saddr daddr sport dport
      l3_proto l4_proto tuple_pad];
    try apply htons_fits; try (apply read_into_wf; [done|done|lia]); try done; by apply P8.
Qed.

Lemma set_tuple_sock_wf `{KernelLayout} (m : mem) (sk : Z) (t : tuple) :
  wf_mem m -> wf_tuple t -> wf_tuple (set_tuple_sock m sk t).
Proof.
  intros Hm (H1 & H2 & H3 & H4 & H5 & H6 & H7). unfold set_tuple_sock.
  destruct (_ =? PF_INET6); split_and!; simpl;
    try (apply read_into_wf; [done|done|lia]); try done;
    try (by apply (core_read_fits m sk [] _ 2)); by apply wrap_fits.
Qed.

Lemma set_meta_wf `{KernelLayout} (m : mem) (skb : Z) (t : skb_meta) :
  wf_mem m -> wf_meta t -> wf_meta (set_meta m skb t).
Proof.
  intros Hm (H1 & H2 & H3 & H4 & H5 & H6 & H7 & H8). unfold set_meta.
  split_and!; cbn [netns mark ifindex meta_len mtu sk_state protocol meta_pad]; try done;
    try (by apply (core_read_fits _ _ _ _ 4)); try (by apply (core_read_fits _ _ _ _ 2)).
  unfold get_netns. destruct (_ =? 0); [destruct (negb _)|]; by apply (core_read_fits _ _ _ _ 4).
Qed.

Lemma set_meta_sock_wf `{KernelLayout} (m : mem) (sk : Z) (t : skb_meta) :
  wf_mem m -> wf_meta t -> wf_meta (set_meta_sock m sk t).
Proof.
  intros Hm (H1 & H2 & H3 & H4 & H5 & H6 & H7 & H8). unfold set_meta_sock.
  split_and!; cbn [netns mark ifindex meta_len mtu sk_state protocol meta_pad]; try done.
  - by apply (core_read_fits _ _ _ _ 4).
  - by apply get_sock_protocol_fits.
Qed.

(** The ports of a socket tuple, whatever the family. *)
Lemma set_tuple_sock_port_values (L : KernelLayout) (m : mem) (sk p q : Z) :
  mem_read m (ptr_add sk sk_skc_num) 2 = Some (le_bytes 2 p) ->
  mem_read m (ptr_add sk sk_skc_dport) 2 = Some (be_bytes 2 q) -> fits 16 p ->
  sport (set_tuple_sock m sk zero_tuple) = p ∧
  dport (set_tuple_sock m sk zero_tuple) = bpf_htons ORDER_LITTLE_ENDIAN false q.
Proof.
  intros Hnum Hdport Hp. unfold set_tuple_sock.
  rewrite (core_read_ok m sk [] sk_skc_num 2 _ Hnum), (core_read_ok m sk [] sk_skc_dport 2 _ Hdport).
  cbn [set_l4_proto set_dport set_sport sport dport]. rewrite le_val_bytes, htons_builtin.
  split; [by apply wrap_small|done].
Qed.

(** The packets that [set_tuple] does not understand. *)
Definition set_tuple_bad `{KernelLayout} (m : mem) (skb : Z) : bool :=
  let l3 := BPF_CORE_READ m skb [] skb_network_header 2 in
  let version := Z.shiftr (read_u8 m (ptr_add (BPF_CORE_READ m skb [] skb_head 8) l3)) 4 in
  (l3 =? 0) || negb ((version =? 4) || (version =? 6)).

Lemma set_tuple_ret `{KernelLayout} (m : mem) (skb : Z) (t : tuple) :
  (set_tuple m skb t).2 = if set_tuple_bad m skb then -1 else 0.
Proof.
  unfold set_tuple, set_tuple_bad. destruct (_ =? 0); [done|]. simpl orb.
  destruct (_ =? 4); simpl; [done|]. by destruct (_ =? 6).
Qed.

(** [set_tuple] on an IPv4 datagram. *)
Lemma set_tuple_v4 (L : KernelLayout) (m : mem) (skb head l3 : Z) (f : ipv4_frame)
    (Hw : wire_layout L) (Hf : wf_frame f)
    (Hskb : skb_at m skb head l3 (l3 + 4 * f_ihl f) (emit4 f)) :
  set_tuple m skb zero_tuple =
  (Tuple (f_src f ++ replicate 12 0) (f_dst f ++ replicate 12 0)
     (if has_ports (f_proto f) then f_sport f else 0)
     (if has_ports (f_proto f) then f_dport f else 0)
     ETH_P_IP (f_proto f) 0, 0).
Proof.
  pose proof (v4_first m skb head l3 f Hskb) as E1.
  pose proof (v4_proto m skb head l3 f Hf Hskb) as E2.
  pose proof (v4_src m skb head l3 f Hf Hskb) as E3.
  pose proof (v4_dst m skb head l3 f Hf Hskb) as E4.
  destruct (v4_ports m skb head l3 f Hf Hskb) as [E5 E6].
  destruct Hw as (Hi1 & Hi2 & Hi3 & _ & _ & _ & Ht1 & Ht2 & Hu1 & Hu2).
  destruct Hskb as (Hhead & Hl3 & Hl4 & Hpos & _).
  destruct Hf as (_ & Hihl & _ & _ & _ & Hs & Hd & _ & Hsp & Hdp).
  unfold set_tuple, read_into. rewrite Hhead, Hl3, Hl4, !ptr_add_add, Hi1, Hi2, Hi3, Ht1, Ht2, Hu1, Hu2, E1.
  rewrite (proj2 (Z.eqb_neq l3 0)) by lia.
  rewrite version_nibble by lia.
  cbn [Z.eqb Pos.eqb]. rewrite E2, E3, E4, E5, E6, !splice_prefix, Hs, Hd.
  unfold has_ports. cbn [set_saddr set_daddr set_l4_proto set_l3_proto set_sport set_dport saddr daddr sport dport
    l3_proto l4_proto tuple_pad zero_tuple].
  destruct (f_proto f =? IPPROTO_TCP); [|destruct (f_proto f =? IPPROTO_UDP)];
    cbn [set_saddr set_daddr set_l4_proto set_l3_proto set_sport set_dport saddr daddr sport dport
      l3_proto l4_proto tuple_pad zero_tuple orb]; by rewrite ?bswap_port.
Qed.

(** ** Properties *)

(** [set_tuple] inverts IPv4.  For every well-formed IPv4 datagram in an
    [sk_buff] whose header offsets the kernel has set, with or without
    options, on any kernel whose header structs follow the protocols,
    [set_tuple] returns 0 and the protocol, the two addresses in the first
    four bytes and, for TCP and UDP, the two ports in host byte order. *)
Theorem set_tuple_ipv4 (L : KernelLayout) (m : mem) (skb head l3 : Z) (f : ipv4_frame)
    (Hw : wire_layout L) (Hf : wf_frame f)
    (Hskb : skb_at m skb head l3 (l3 + 4 * f_ihl f) (emit4 f)) :
  set_tuple m skb zero_tuple =
  (Tuple (f_src f ++ replicate 12 0) (f_dst f ++ replicate 12 0)
     (if has_ports (f_proto f) then f_sport f else 0)
     (if has_ports (f_proto f) then f_dport f else 0)
     ETH_P_IP (f_proto f) 0, 0).
Proof. by apply (set_tuple_v4 L m skb head l3 f Hw Hf Hskb). Qed.

(** [set_tuple] inverts IPv6 without extension headers: all sixteen
    bytes of both addresses, the next-header value as protocol and, for TCP
    and UDP, the ports in host byte order. *)
Theorem set_tuple_ipv6 (L : KernelLayout) (m : mem) (skb head l3 : Z) (g : ipv6_packet)
    (Hw : wire_layout L) (Hg : wf_packet6 g) (Hskb : skb_at m skb head l3 (l3 + 40) (emit6 g)) :
  set_tuple m skb zero_tuple =
  (Tuple (g_src g) (g_dst g)
     (if has_ports (g_nexthdr g) then g_sport g else 0)
     (if has_ports (g_nexthdr g) then g_dport g else 0)
     ETH_P_IPV6 (g_nexthdr g) 0, 0).
Proof.
  pose proof (v6_first m skb head l3 g Hskb) as E1.
  pose proof (v6_nexthdr m skb head l3 g Hg Hskb) as E2.
  pose proof (v6_src m skb head l3 g Hg Hskb) as E3.
  pose proof (v6_dst m skb head l3 g Hg Hskb) as E4.
  destruct (v6_ports m skb head l3 g Hg Hskb) as [E5 E6].
  destruct Hw as (_ & _ & _ & Hi1 & Hi2 & Hi3 & Ht1 & Ht2 & Hu1 & Hu2).
  destruct Hskb as (Hhead & Hl3 & Hl4 & Hpos & _).
  destruct Hg as (Hc & _ & _ & Hs & Hd & Hsp & Hdp).
  unfold set_tuple, read_into. rewrite Hhead, Hl3, Hl4, !ptr_add_add, Hi1, Hi2, Hi3, Ht1, Ht2, Hu1, Hu2, E1.
  rewrite (proj2 (Z.eqb_neq l3 0)) by lia. rewrite version_nibble by lia.
  cbn [Z.eqb Pos.eqb]. rewrite E2, E3, E4, E5, E6, !splice_prefix, Hs, Hd.
  unfold has_ports. cbn [set_saddr set_daddr set_l4_proto set_l3_proto set_sport set_dport saddr daddr sport dport
    l3_proto l4_proto tuple_pad zero_tuple]. rewrite !app_nil_r.
  destruct (g_nexthdr g =? IPPROTO_TCP); [|destruct (g_nexthdr g =? IPPROTO_UDP)];
    cbn [set_saddr set_daddr set_l4_proto set_l3_proto set_sport set_dport saddr daddr sport dport
      l3_proto l4_proto tuple_pad zero_tuple orb]; by rewrite ?bswap_port.
Qed.

(** [set_tuple] rejects, with -1 and leaving the tuple as it was, exactly
    the packets without a network header and those whose first byte names
    neither IP version. *)
Theorem set_tuple_rejects (L : KernelLayout) (m : mem) (skb : Z) (t : tuple) :
  let l3 := BPF_CORE_READ m skb [] skb_network_header 2 in
  let version := Z.shiftr (read_u8 m (ptr_add (BPF_CORE_READ m skb [] skb_head 8) l3)) 4 in
  let bad := (l3 =? 0) || negb ((version =? 4) || (version =? 6)) in
  (set_tuple m skb t).2 = (if bad then -1 else 0) ∧ (bad = true -> (set_tuple m skb t).1 = t).
Proof.
  cbv zeta. unfold set_tuple. destruct (_ =? 0); [done|]. simpl orb.
  destruct (_ =? 4); simpl; [split; [|done]; done|]. by destruct (_ =? 6).
Qed.

(** Every object the readers fill is well formed.  Whatever the kernel
    memory holds, mapped or not, [set_tuple], [set_tuple_sock], [set_meta] and
    [set_meta_sock] keep every field within its C width and every address at
    sixteen bytes. *)
Theorem readers_well_formed (L : KernelLayout) (m : mem) (skb sk : Z) (t : tuple) (me : skb_meta)
    (Hm : wf_mem m) (Ht : wf_tuple t) (Hme : wf_meta me) :
  wf_tuple (set_tuple m skb t).1 ∧ wf_tuple (set_tuple_sock m sk t) ∧
  wf_meta (set_meta m skb me) ∧ wf_meta (set_meta_sock m sk me).
Proof.
  split_and!; [by apply set_tuple_wf|by apply set_tuple_sock_wf|by apply set_meta_wf|by apply set_meta_sock_wf].
Qed.

(** [get_netns] takes the network namespace of the device; if the
    device is unknown or its namespace number reads as 0 (an unmapped object
    reads as zeroes), it takes the one of the owning socket, and 0 if the
    packet has no socket either. *)
Theorem get_netns_fallback (L : KernelLayout) (m : mem) (skb : Z) (Hz : zero_fill m) :
  let dev := BPF_CORE_READ m skb [] skb_dev 8 in
  let sk := BPF_CORE_READ m skb [] skb_sk 8 in
  let inum_at p := ptr_add p net_ns_inum in
  (∀ bs, mem_read m (inum_at (___read_ptrs m dev [dev_nd_net_net])) 4 = Some bs -> le_val bs ≠ 0 ->
     get_netns m skb = le_val bs) ∧
  (mem_read m (inum_at (___read_ptrs m dev [dev_nd_net_net])) 4 = None -> sk ≠ 0 ->
     get_netns m skb = get_sock_netns m sk) ∧
  (mem_read m (inum_at (___read_ptrs m dev [dev_nd_net_net])) 4 = None -> sk = 0 ->
     get_netns m skb = 0).
Proof.
  cbv zeta. unfold get_netns, get_sock_netns. split_and!.
  - intros bs Hr Hne. rewrite (core_read_ok _ _ _ _ _ _ Hr). by rewrite (proj2 (Z.eqb_neq _ _) Hne).
  - intros Hr Hsk. rewrite (core_read_fault _ _ _ _ _ Hz Hr), Z.eqb_refl.
    by rewrite (proj2 (Z.eqb_neq _ _) Hsk).
  - intros Hr ->. by rewrite (core_read_fault _ _ _ _ _ Hz Hr).
Qed.

(** Byte orders of a socket tuple.  For an IPv4 socket bound to local
    port [p] and connected to remote port [q], as the kernel stores them (the
    local port in host order, the remote one in network order),
    [set_tuple_sock] gives the addresses, [p] as source port but the
    byte-swapped [q] as destination port: the two ports of the tuple are in
    different byte orders. *)
Theorem set_tuple_sock_ports (L : KernelLayout) (m : mem) (sk p q : Z) (src dst : list Z)
    (Hfam : BPF_CORE_READ m sk [] sk_skc_family 2 = PF_INET)
    (Hnum : mem_read m (ptr_add sk sk_skc_num) 2 = Some (le_bytes 2 p))
    (Hdport : mem_read m (ptr_add sk sk_skc_dport) 2 = Some (be_bytes 2 q))
    (Hsrc : mem_read m (ptr_add sk sk_skc_rcv_saddr) 4 = Some src)
    (Hdst : mem_read m (ptr_add sk sk_skc_daddr) 4 = Some dst) (Hp : fits 16 p) :
  let t := set_tuple_sock m sk zero_tuple in
  saddr t = src ++ replicate 12 0 ∧ daddr t = dst ++ replicate 12 0 ∧ l3_proto t = ETH_P_IP ∧
  sport t = p ∧ dport t = bpf_htons ORDER_LITTLE_ENDIAN false q.
Proof.
  cbv zeta. destruct (set_tuple_sock_port_values L m sk p q Hnum Hdport Hp) as [Es Ed].
  rewrite Es, Ed. unfold set_tuple_sock, read_into. rewrite Hfam. cbn [Z.eqb PF_INET PF_INET6 Pos.eqb].
  rewrite (probe_read_ok _ _ _ _ Hsrc), (probe_read_ok _ _ _ _ Hdst). cbn [fst].
  rewrite !splice_prefix, (mem_read_length _ _ _ _ Hsrc), (mem_read_length _ _ _ _ Hdst).
  by split_and!.
Qed.

(** ** Witnesses *)

(** An [sk_buff] at 4096 whose buffer, at 65536, holds the datagram [bs] after
    14 bytes of link-layer header; its device and socket pointers are null. *)
Definition demo_mem (L : KernelLayout) (l4 : Z) (bs : list Z) : mem :=
  mem_of [(4096 + skb_head, le_bytes 8 65536); (4096 + skb_network_header, le_bytes 2 14);
          (4096 + skb_transport_header, le_bytes 2 l4); (4096 + skb_sk, le_bytes 8 0);
          (65536 + 14, bs)].

Lemma demo_mem_wf (L : KernelLayout) (l4 : Z) (bs : list Z) :
  Forall is_byte bs -> wf_mem (demo_mem L l4 bs).
Proof. intros. apply mem_of_wf. repeat (apply Forall_cons; split; [first [apply le_bytes_byte|done]|]). done. Qed.

Lemma demo_mem_sample_wf : wf_mem (demo_mem amd64_layout 38 (emit4 sample_frame)).
Proof. apply demo_mem_wf. repeat (apply Forall_cons; split; [split; done|]). done. Qed.

Lemma demo_skb_at : @skb_at amd64_layout (demo_mem amd64_layout 38 (emit4 sample_frame)) 4096 65536 14
  (14 + 4 * f_ihl sample_frame) (emit4 sample_frame).
Proof. vm_compute. by split_and!. Qed.

Lemma set_tuple_ipv4_witness :
  @set_tuple amd64_layout (demo_mem amd64_layout 38 (emit4 sample_frame)) 4096 zero_tuple =
  (Tuple ([10; 0; 0; 1] ++ replicate 12 0) ([10; 0; 0; 2] ++ replicate 12 0) 53 4660 ETH_P_IP 17 0, 0).
Proof.
  exact (set_tuple_ipv4 amd64_layout _ 4096 65536 14 sample_frame amd64_wire_layout sample_frame_wf demo_skb_at).
Defined.

Definition sample_packet6 : ipv6_packet := {|
  g_class := 0; g_flow_len := replicate 5 0; g_nexthdr := 6; g_hop := 64;
  g_src := replicate 15 0 ++ [1]; g_dst := replicate 15 0 ++ [2];
  g_sport := 443; g_dport := 50000; g_rest := replicate 16 0 |}.

Lemma set_tuple_ipv6_witness :
  @set_tuple arm64_layout (demo_mem arm64_layout 54 (emit6 sample_packet6)) 4096 zero_tuple =
  (Tuple (replicate 15 0 ++ [1]) (replicate 15 0 ++ [2]) 443 50000 ETH_P_IPV6 6 0, 0).
Proof.
  refine (set_tuple_ipv6 arm64_layout _ 4096 65536 14 sample_packet6 arm64_wire_layout _ _).
  - unfold wf_packet6, is_byte, fits. simpl. lia.
  - vm_compute. by split_and!.
Defined.

Lemma readers_well_formed_witness :
  let m := demo_mem amd64_layout 38 (emit4 sample_frame) in
  wf_tuple (@set_tuple amd64_layout m 4096 zero_tuple).1 ∧
  wf_tuple (@set_tuple_sock amd64_layout m 4096 zero_tuple) ∧
  wf_meta (@set_meta amd64_layout m 4096 zero_meta) ∧
  wf_meta (@set_meta_sock amd64_layout m 4096 zero_meta).
Proof.
  apply (readers_well_formed amd64_layout).
  - exact demo_mem_sample_wf.
  - exact wf_zero_tuple.
  - exact wf_zero_meta.
Defined.

Lemma get_netns_fallback_witness :
  @get_netns amd64_layout (demo_mem amd64_layout 38 (emit4 sample_frame)) 4096 = 0.
Proof.
  refine (proj2 (proj2 (get_netns_fallback amd64_layout
    (demo_mem amd64_layout 38 (emit4 sample_frame)) 4096 (mem_of_zero_fill _))) _ _);
    vm_compute; done.
Defined.

(** A socket at 8192: 10.0.0.1:80 connected to 10.0.0.2:443. *)
Definition demo_sock (L : KernelLayout) : mem :=
  mem_of [(8192 + sk_skc_family, le_bytes 2 PF_INET); (8192 + sk_skc_num, le_bytes 2 80);
          (8192 + sk_skc_dport, be_bytes 2 443); (8192 + sk_skc_rcv_saddr, [10; 0; 0; 1]);
          (8192 + sk_skc_daddr, [10; 0; 0; 2])].

Lemma set_tuple_sock_ports_witness :
  let t := @set_tuple_sock amd64_layout (demo_sock amd64_layout) 8192 zero_tuple in
  sport t = 80 ∧ dport t = 47873.
Proof.
  pose proof (set_tuple_sock_ports amd64_layout (demo_sock amd64_layout) 8192 80 443
    [10; 0; 0; 1] [10; 0; 0; 2] ltac:(vm_compute; reflexivity) ltac:(vm_compute; reflexivity)
    ltac:(vm_compute; reflexivity) ltac:(vm_compute; reflexivity) ltac:(vm_compute; reflexivity)
    ltac:(split; lia)) as (_ & _ & _ & Hs & Hd).
  split; [exact Hs|exact Hd].
Defined.
