(* ===== verification/SocketLatency.v ===== *)
(** src/bpf/socketlatency.c: latency between data arriving at a socket and
    the application reading it, and between the application writing and TCP
    sending.

    State: the hash [insp_sklat_entry] with the time stamps of each tracked
    socket and the hash [insp_sklat_metric] of counters.  [op] names the six
    kprobes.  The theorems relate every reported latency to the calls that
    caused it, bound what is counted, and show which latencies are stale. *)

From S2P Require Import Prelude CLayout KernelMem BpfMaps BpfTracing BpfRuntime Intervals Inspector.

Module SocketLatency.

Definition LAT_THRESH_NS : Z := 1000 * 1000.
Definition LAT_THRESH_NS_100MS : Z := 100 * 1000 * 1000.
Definition ACTION_READ : Z := 1.
Definition ACTION_WRITE : Z := 2.
Definition BUCKET100MS : Z := 1.
Definition BUCKET1MS : Z := 4.

Record sklat_key_t := SklatKey {
  createat : Z;
  lastreceive : Z;
  lastread : Z;
  lastwrite : Z;
  lastsend : Z;
}.

Record insp_sklat_event_t := SklatEvent {
  target : list Z;
  ev_tuple : tuple;
  ev_skb_meta : skb_meta;
  pid : Z;
  cpu : Z;
  direction : Z;
  latency : Z;
}.

Record insp_sklat_metric_t := SklatMetric {
  m_netns : Z;
  m_pid : Z;
  m_cpu : Z;
  m_bucket : Z;
  m_action : Z;
}.

#[global] Instance sklat_key_t_eq_dec : EqDecision sklat_key_t.
Proof. solve_decision. Defined.
#[global] Instance insp_sklat_event_t_eq_dec : EqDecision insp_sklat_event_t.
Proof. solve_decision. Defined.
#[global] Instance insp_sklat_metric_t_eq_dec : EqDecision insp_sklat_metric_t.
Proof. solve_decision. Defined.
#[global] Instance insp_sklat_metric_t_countable : Countable insp_sklat_metric_t.
Proof.
  apply (inj_countable' (λ t, (m_netns t, m_pid t, m_cpu t, m_bucket t, m_action t))
    (λ '(a, b, c, d, e), SklatMetric a b c d e)). by intros [].
Defined.

(** Stores through [ski]. *)
Definition set_lastreceive (now : Z) (k : sklat_key_t) : sklat_key_t :=
  SklatKey (createat k) now (lastread k) (lastwrite k) (lastsend k).
Definition set_lastread (now : Z) (k : sklat_key_t) : sklat_key_t :=
  SklatKey (createat k) (lastreceive k) now (lastwrite k) (lastsend k).
Definition set_lastwrite (now : Z) (k : sklat_key_t) : sklat_key_t :=
  SklatKey (createat k) (lastreceive k) (lastread k) now (lastsend k).
Definition set_lastsend (now : Z) (k : sklat_key_t) : sklat_key_t :=
  SklatKey (createat k) (lastreceive k) (lastread k) (lastwrite k) now.

Section probe.
Context `{KernelLayout} {ME MM : Type}.
Context `{!BpfMap ME Z sklat_key_t, !BpfMap MM insp_sklat_metric_t Z}.

Record state := State { entries : ME; metrics : MM }.

Definition insp_sklat_entry : lens state ME := Lens entries (λ m s, State m (metrics s)).
Definition insp_sklat_metric : lens state MM := Lens metrics (λ m s, State (entries s) m).

Abbreviation prog' := (prog state insp_sklat_event_t).

Definition report_events (ctx : pt_regs) (sk latency direction : Z) : prog' unit :=
  ev_tuple ← with_mem (λ m, set_tuple_sock m sk zero_tuple);
  ev_meta ← with_mem (λ m, set_meta_sock m sk zero_meta);
  target ← bpf_get_current_comm TASK_COMM_LEN;
  pid_tgid ← bpf_get_current_pid_tgid;
  cpu ← bpf_get_smp_processor_id;
  bpf_perf_event_output
    (SklatEvent target ev_tuple ev_meta (u32 (Z.shiftr pid_tgid 32)) cpu direction latency).

Definition sock_create (ctx : pt_regs) : prog' Z :=
  let sk := PT_REGS_PARM1 ctx in
  createat ← bpf_ktime_get_ns;
  _ ← map_update insp_sklat_entry sk (SklatKey createat 0 0 0 0) BPF_ANY;
  mret 0.

Definition sock_receive (ctx : pt_regs) : prog' Z :=
  let sk := PT_REGS_PARM1 ctx in
  ski ← map_lookup insp_sklat_entry sk;
  match ski with
  | Some ski =>
      now ← bpf_ktime_get_ns;
      _ ← map_store insp_sklat_entry sk (set_lastreceive now);
      mret 0
  | None => mret 0
  end.

(** The counter of a metric: add to an existing one or create it with 1. *)
Definition count_metric (metric : insp_sklat_metric_t) : prog' unit :=
  mtrv ← map_lookup insp_sklat_metric metric;
  match mtrv with
  | Some _ => map_store insp_sklat_metric metric (λ v, u64 (v + 1))
  | None => _ ← map_update insp_sklat_metric metric 1 BPF_ANY; mret tt
  end.

Definition sock_read (ctx : pt_regs) : prog' Z :=
  let sk := PT_REGS_PARM1 ctx in
  ski ← map_lookup insp_sklat_entry sk;
  match ski with
  | Some ski =>
      now ← bpf_ktime_get_ns;
      _ ← when (lastreceive ski >? 0) (
        let latency := u64 (now - lastreceive ski) in
        when (latency >? LAT_THRESH_NS) (
          pid_tgid ← bpf_get_current_pid_tgid;
          cpu ← bpf_get_smp_processor_id;
          netns ← with_mem (λ m, get_sock_netns m sk);
          let pid := u32 (Z.shiftr pid_tgid 32) in
          let bucket := if latency >? LAT_THRESH_NS_100MS then BUCKET100MS else BUCKET1MS in
          _ ← when (latency >? LAT_THRESH_NS_100MS) (report_events ctx sk latency ACTION_READ);
          count_metric (SklatMetric netns pid cpu bucket ACTION_READ)));
      _ ← map_store insp_sklat_entry sk (set_lastread now);
      mret 0
  | None => mret 0
  end.

Definition sock_write (ctx : pt_regs) : prog' Z :=
  let sk := PT_REGS_PARM1 ctx in
  ski ← map_lookup insp_sklat_entry sk;
  match ski with
  | Some ski =>
      now ← bpf_ktime_get_ns;
      _ ← map_store insp_sklat_entry sk (set_lastwrite now);
      mret 0
  | None => mret 0
  end.

Definition sock_send (ctx : pt_regs) : prog' Z :=
  let sk := PT_REGS_PARM1 ctx in
  ski ← map_lookup insp_sklat_entry sk;
  match ski with
  | Some ski =>
      now ← bpf_ktime_get_ns;
      _ ← when (lastwrite ski >? 0) (
        let latency := u64 (now - lastwrite ski) in
        when (latency >? LAT_THRESH_NS) (
          pid_tgid ← bpf_get_current_pid_tgid;
          cpu ← bpf_get_smp_processor_id;
          netns ← with_mem (λ m, get_sock_netns m sk);
          let pid := u32 (Z.shiftr pid_tgid 32) in
          let bucket := if latency >? LAT_THRESH_NS_100MS then BUCKET100MS else BUCKET1MS in
          _ ← when (latency >? LAT_THRESH_NS_100MS) (report_events ctx sk latency ACTION_WRITE);
          count_metric (SklatMetric netns pid cpu bucket ACTION_WRITE)));
      _ ← map_store insp_sklat_entry sk (set_lastsend now);
      mret 0
  | None => mret 0
  end.

Definition sock_destroy (ctx : pt_regs) : prog' Z :=
  let sk := PT_REGS_PARM1 ctx in
  _ ← map_delete insp_sklat_entry sk;
  mret 0.

(** The kprobes of the object file. *)
Inductive op :=
  | inet_ehash_nolisten (ctx : pt_regs)
  | sock_def_readable (ctx : pt_regs)
  | tcp_cleanup_rbuf (ctx : pt_regs)
  | tcp_sendmsg_locked (ctx : pt_regs)
  | tcp_write_xmit (ctx : pt_regs)
  | tcp_done (ctx : pt_regs).

Definition handler (o : op) : prog' Z :=
  match o with
  | inet_ehash_nolisten ctx => sock_create ctx
  | sock_def_readable ctx => sock_receive ctx
  | tcp_cleanup_rbuf ctx => sock_read ctx
  | tcp_sendmsg_locked ctx => sock_write ctx
  | tcp_write_xmit ctx => sock_send ctx
  | tcp_done ctx => sock_destroy ctx
  end.

(** ** Specification vocabulary *)

(** The two measured intervals: from [sock_receive] to [sock_read] and from
    [sock_write] to [sock_send]. *)
Inductive action := READ | WRITE.

Definition action_code (a : action) : Z := match a with READ => ACTION_READ | WRITE => ACTION_WRITE end.

Definition op_sk (o : op) : Z :=
  match o with
  | inet_ehash_nolisten ctx | sock_def_readable ctx | tcp_cleanup_rbuf ctx
  | tcp_sendmsg_locked ctx | tcp_write_xmit ctx | tcp_done ctx => PT_REGS_PARM1 ctx
  end.

(** The call that opens an interval and the time it records, the one that
    closes it, and the ones that forget it. *)
Definition opens (a : action) (c : env * op) : option Z :=
  match a, c.2 with
  | READ, sock_def_readable _ | WRITE, tcp_sendmsg_locked _ => Some (ktime c.1)
  | _, _ => None
  end.
Definition closes (a : action) (o : op) : bool :=
  match a, o with READ, tcp_cleanup_rbuf _ | WRITE, tcp_write_xmit _ => true | _, _ => false end.
Definition resets (o : op) : bool :=
  match o with inet_ehash_nolisten _ | tcp_done _ => true | _ => false end.

Definition stamp (a : action) (k : sklat_key_t) : Z :=
  match a with READ => lastreceive k | WRITE => lastwrite k end.

(** The event of a slow operation. *)
Definition slow_event (e : env) (sk lat : Z) (a : action) : insp_sklat_event_t := {|
  target := comm e TASK_COMM_LEN;
  ev_tuple := set_tuple_sock (kmem e) sk zero_tuple;
  ev_skb_meta := set_meta_sock (kmem e) sk zero_meta;
  pid := u32 (Z.shiftr (pid_tgid e) 32);
  cpu := smp_id e;
  direction := action_code a;
  latency := lat;
|}.

(** The metric key of a slow operation. *)
Definition slow_metric (e : env) (sk lat : Z) (a : action) : insp_sklat_metric_t := {|
  m_netns := get_sock_netns (kmem e) sk;
  m_pid := u32 (Z.shiftr (pid_tgid e) 32);
  m_cpu := smp_id e;
  m_bucket := if lat >? LAT_THRESH_NS_100MS then BUCKET100MS else BUCKET1MS;
  m_action := action_code a;
|}.

Definition closed_by (o : op) : option action :=
  match o with
  | tcp_cleanup_rbuf _ => Some READ
  | tcp_write_xmit _ => Some WRITE
  | _ => None
  end.

(** The latency that a call measures in a state, and the counter it hits. *)
Definition measured (c : env * op) (s : state) : option (action * Z) :=
  a ← closed_by c.2;
  ski ← bpf_map_lookup_elem (smp_id c.1) (entries s) (op_sk c.2);
  if stamp a ski >? 0 then Some (a, u64 (ktime c.1 - stamp a ski)) else None.

Definition hit (c : env * op) (s : state) : option insp_sklat_metric_t :=
  '(a, lat) ← measured c s;
  if lat >? LAT_THRESH_NS then Some (slow_metric c.1 (op_sk c.2) lat a) else None.

Fixpoint hits (k : insp_sklat_metric_t) (tr : list (env * op)) (s : state) : Z :=
  match tr with
  | [] => 0
  | c :: tr' =>
      (if decide (hit c s = Some k) then 1 else 0) + hits k tr' (handler c.2 c.1 s).1.2
  end.

(** What one call does to the entry of its socket. *)
Definition entry_step (ok : bool) (c : env * op) (old : option sklat_key_t) : option sklat_key_t :=
  match c.2 with
  | inet_ehash_nolisten _ => if ok then Some (SklatKey (ktime c.1) 0 0 0 0) else None
  | sock_def_readable _ => set_lastreceive (ktime c.1) <$> old
  | tcp_cleanup_rbuf _ => set_lastread (ktime c.1) <$> old
  | tcp_sendmsg_locked _ => set_lastwrite (ktime c.1) <$> old
  | tcp_write_xmit _ => set_lastsend (ktime c.1) <$> old
  | tcp_done _ => None
  end.
End probe.
Arguments state : clear implicits.

(** ** Lemmas *)

Section lemmas.
Context `{KernelLayout} {ME MM : Type}.
Context `{!BpfMap ME Z sklat_key_t, !BpfMap MM insp_sklat_metric_t Z}.
Context `{!HashLaws ME Z sklat_key_t, !HashLaws MM insp_sklat_metric_t Z}.
Implicit Types (s : state ME MM) (c : env * op) (tr : list (env * op)).

(** [count_metric] as a function on the metric map. *)
Definition count (cpu : Z) (k : insp_sklat_metric_t) (m : MM) : MM :=
  match bpf_map_lookup_elem cpu m k with
  | Some _ => bpf_map_store cpu m k (λ v, u64 (v + 1))
  | None => (bpf_map_update_elem cpu m k 1 BPF_ANY).1
  end.

Lemma count_metric_run (k : insp_sklat_metric_t) (e : env) s :
  count_metric k e s = (tt, State (entries s) (count (smp_id e) k (metrics s)), []).
Proof.
  unfold count_metric, count. unfold_prog. simpl.
  destruct (bpf_map_lookup_elem _ (metrics s) k); [done|].
  by destruct (bpf_map_update_elem _ _ _ _ _).
Qed.

(** The three effects of a call: on the entries, on the counters, and the
    events. *)
Definition entries_after c s : ME :=
  let sk := op_sk c.2 in
  let touch f := if bpf_map_lookup_elem (smp_id c.1) (entries s) sk
                 then bpf_map_store (smp_id c.1) (entries s) sk f else entries s in
  match c.2 with
  | inet_ehash_nolisten _ =>
      (bpf_map_update_elem (smp_id c.1) (entries s) sk (SklatKey (ktime c.1) 0 0 0 0) BPF_ANY).1
  | sock_def_readable _ => touch (set_lastreceive (ktime c.1))
  | tcp_cleanup_rbuf _ => touch (set_lastread (ktime c.1))
  | tcp_sendmsg_locked _ => touch (set_lastwrite (ktime c.1))
  | tcp_write_xmit _ => touch (set_lastsend (ktime c.1))
  | tcp_done _ => (bpf_map_delete_elem (smp_id c.1) (entries s) sk).1
  end.

Definition metrics_after c s : MM :=
  match hit c s with Some k => count (smp_id c.1) k (metrics s) | None => metrics s end.

Definition events_of c s : list insp_sklat_event_t :=
  match measured c s with
  | Some (a, lat) =>
      if lat >? LAT_THRESH_NS_100MS then [slow_event c.1 (op_sk c.2) lat a] else []
  | None => []
  end.

Local Ltac close_interval last :=
  destruct (bpf_map_lookup_elem _ _ _) as [ski|]; [|done]; simpl;
  destruct (last ski >? 0); [|done]; simpl; unfold slow_metric, slow_event;
  set (lat := wrap _ _);
  destruct (Z.gtb_spec lat LAT_THRESH_NS); destruct (Z.gtb_spec lat LAT_THRESH_NS_100MS); simpl;
  try rewrite !count_metric_run; simpl;
  first [done|unfold LAT_THRESH_NS, LAT_THRESH_NS_100MS in *; lia].

Lemma sklat_handler_run c s :
  handler c.2 c.1 s = (0, State (entries_after c s) (metrics_after c s), events_of c s).
Proof.
  destruct s as [es ms], c as [e o].
  unfold metrics_after, events_of, hit, measured, entries_after.
  destruct o as [ctx|ctx|ctx|ctx|ctx|ctx]; simpl;
    unfold sock_create, sock_receive, sock_read, sock_write, sock_send, sock_destroy, report_events;
    unfold_prog; simpl.
  - by destruct (bpf_map_update_elem _ _ _ _ _).
  - by destruct (bpf_map_lookup_elem _ _ _).
  - close_interval (lastreceive).
  - by destruct (bpf_map_lookup_elem _ _ _).
  - close_interval (lastwrite).
  - by destruct (bpf_map_delete_elem _ _ _).
Qed.

Lemma handler_entries c s cpu sk :
  bpf_map_lookup_elem cpu (entries_after c s) sk =
  if decide (op_sk c.2 = sk)
  then entry_step (accepts (smp_id c.1) (entries s) sk) c (bpf_map_lookup_elem cpu (entries s) sk)
  else bpf_map_lookup_elem cpu (entries s) sk.
Proof.
  unfold entries_after, entry_step. destruct c as [e o]. simpl in *.
  destruct o; try apply hash_touch_lookup; simpl.
  - rewrite hash_update_lookup. destruct (decide _); by subst.
  - apply hash_delete_lookup.
Qed.

(** The object file as loaded: no socket and no counter. *)
Definition initial s : Prop :=
  (∀ cpu sk, bpf_map_lookup_elem cpu (entries s) sk = None) ∧
  (∀ cpu k, bpf_map_lookup_elem cpu (metrics s) k = None).

Abbreviation run tr s := (run_calls (handler (ME := ME) (MM := MM)) tr s).

(** The time stamps of an entry are those of its history. *)
Lemma entries_stamps s0 tr cpu sk ski a :
  initial s0 -> bpf_map_lookup_elem cpu (entries (run tr s0).1) sk = Some ski ->
  stamp a ski = default 0 (last_open op_sk (opens a) resets sk tr).
Proof.
  intros [H0 _]. revert tr ski.
  apply (run_calls_history handler (λ tr s, ∀ ski,
    bpf_map_lookup_elem cpu (entries s) sk = Some ski -> stamp a ski = default 0 (last_open op_sk (opens a) resets sk tr))).
  { intros ski. by rewrite H0. }
  intros tr c s IH ski. rewrite sklat_handler_run. simpl. rewrite handler_entries, last_open_snoc.
  unfold open_step. destruct (decide (op_sk c.2 = sk)) as [E|E]; [|apply IH].
  destruct c as [e o]. unfold entry_step. simpl. destruct o; simpl.
  1: { destruct (accepts _ _ _); intros ?; simplify_eq. by destruct a. }
  5: done.
  all: intros (old & Hold & ->)%fmap_Some; specialize (IH _ Hold); destruct a; simpl in *; done.
Qed.

(** ** Latencies of a history *)

(** A socket is tracked from its creation until it is destroyed; [born] and
    [dies] are those calls. *)
Definition born c : option () := match c.2 with inet_ehash_nolisten _ => Some () | _ => None end.
Definition dies (o : op) : bool := match o with tcp_done _ => true | _ => false end.
Definition tracked (sk : Z) tr : bool := match last_open op_sk born dies sk tr with Some _ => true | None => false end.
(** The latency of the call [c] after the calls [pre], from these alone: the
    time since the last receive (write) of its socket, which is tracked. *)
Definition latency_of_call (pre : list (env * op)) c : option (action * Z) :=
  a ← closed_by c.2;
  t ← last_open op_sk (opens a) resets (op_sk c.2) pre;
  if tracked (op_sk c.2) pre && (t >? 0) then Some (a, u64 (ktime c.1 - t)) else None.

(** The map of the sockets never is full. *)
Definition entries_room s0 tr : Prop := ∀ pre post, tr = pre ++ post -> map_full (entries (run pre s0).1) = false.
Lemma entries_room_snoc s0 tr c : entries_room s0 (tr ++ [c]) -> entries_room s0 tr.
Proof. intros Hr pre post ->. apply (Hr pre (post ++ [c])). by rewrite app_assoc. Qed.
Lemma entries_tracked s0 tr cpu sk : initial s0 -> entries_room s0 tr ->
  bool_decide (is_Some (bpf_map_lookup_elem cpu (entries (run tr s0).1) sk)) = tracked sk tr.
Proof.
  intros [H0 _]. unfold tracked. induction tr as [|c tr IH] using rev_ind; intros Hr.
  - unfold run_calls. simpl. by rewrite H0.
  - specialize (IH (entries_room_snoc _ _ _ Hr)). pose proof (Hr tr [c] eq_refl) as Hfull. rewrite last_open_snoc, run_calls_snoc.
    destruct (run tr s0) as [s1 o1]. simpl in Hfull, IH. rewrite sklat_handler_run. simpl. rewrite handler_entries. unfold open_step.
    destruct (decide (op_sk c.2 = sk)) as [E|E]; [|done]. revert IH. generalize (last_open op_sk born dies sk tr). intros cur IH.
    destruct c as [e o]. unfold entry_step, born, dies. cbn [snd] in *. destruct o; try done.
    1: { unfold accepts. rewrite Hfull. rewrite orb_true_r. by rewrite bool_decide_eq_true_2. }
    all: rewrite <- IH; by destruct (bpf_map_lookup_elem _ _ _).
Qed.
Lemma measured_history s0 tr c : initial s0 -> entries_room s0 tr -> measured c (run tr s0).1 = latency_of_call tr c.
Proof.
  intros H0 Hr. unfold measured, latency_of_call. destruct (closed_by c.2) as [a|]; [|done]. cbn [mbind option_bind].
  pose proof (entries_tracked s0 tr (smp_id c.1) (op_sk c.2) H0 Hr) as <-.
  destruct (bpf_map_lookup_elem _ _ _) as [ski|] eqn:E; cbn [mbind option_bind].
  - rewrite (entries_stamps s0 tr _ _ _ a H0 E). by destruct (last_call _ _ _ _ _).
  - by destruct (last_call _ _ _ _ _).
Qed.

(** The counter of key [k] after [n] hits: either it holds [n], or the map was
    full when the key first came. *)
Definition counted (k : insp_sklat_metric_t) (n : Z) (m : MM) : Prop :=
  ∀ cpu, match bpf_map_lookup_elem cpu m k with
         | Some v => v = u64 n
         | None => n = 0 ∨ map_full m = true
         end.

Lemma count_counted (k k' : insp_sklat_metric_t) (cpu n : Z) (m : MM) :
  counted k n m -> counted k (n + if decide (k' = k) then 1 else 0) (count cpu k' m).
Proof.
  intros Hk cpu'. unfold count. destruct (bpf_map_lookup_elem cpu m k') as [v|] eqn:E.
  - rewrite hash_store_lookup, hash_store_full. specialize (Hk cpu').
    destruct (decide (k' = k)) as [->|]; [|rewrite Z.add_0_r; done].
    rewrite (hash_cpu cpu' cpu), E in *. simpl. subst v. unfold wrap. by rewrite Zplus_mod_idemp_l.
  - rewrite hash_update_lookup. pose proof (Hk cpu) as Hc. specialize (Hk cpu').
    destruct (decide (k' = k)) as [->|].
    + unfold accepts. rewrite E in *. simpl. destruct (map_full m) eqn:Ef; simpl.
      * right. by apply hash_update_full.
      * destruct Hc as [->|?]; done.
    + rewrite Z.add_0_r. destruct (bpf_map_lookup_elem cpu' m k); [done|].
      destruct Hk; [by left|right]. by apply hash_update_full.
Qed.

Lemma count_lookup (cpu cpu' : Z) (k' k : insp_sklat_metric_t) (m : MM) :
  bpf_map_lookup_elem cpu' (count cpu k' m) k =
  if decide (k = k') then match bpf_map_lookup_elem cpu' m k with Some v => Some (u64 (v + 1)) | None => if map_full m then None else Some 1 end
  else bpf_map_lookup_elem cpu' m k.
Proof.
  unfold count. destruct (bpf_map_lookup_elem cpu m k') as [v|] eqn:E.
  - rewrite hash_store_lookup. destruct (decide (k' = k)) as [->|Hk]; [|by rewrite decide_False by done].
    rewrite decide_True by done. by rewrite (hash_cpu cpu' cpu), E.
  - rewrite hash_update_lookup. destruct (decide (k' = k)) as [->|Hk]; [|by rewrite decide_False by done].
    rewrite decide_True by done. rewrite (hash_cpu cpu' cpu), E. unfold accepts. rewrite E. by destruct (map_full m).
Qed.

Lemma hits_snoc (k : insp_sklat_metric_t) tr c s :
  hits k (tr ++ [c]) s = hits k tr s + if decide (hit c (run tr s).1 = Some k) then 1 else 0.
Proof.
  revert s. induction tr as [|c' tr IH]; intros s; simpl; [unfold run_calls; simpl; lia|].
  rewrite IH. unfold run_calls. simpl.
  destruct (handler c'.2 c'.1 s) as [[r s1] o1]. simpl.
  destruct (run_trace _ s1) as [s2 o2]. simpl. lia.
Qed.

Lemma hits_counted (k : insp_sklat_metric_t) s0 tr :
  initial s0 -> counted k (hits k tr s0) (metrics (run tr s0).1).
Proof.
  intros [_ H0]. induction tr as [|c tr IH] using rev_ind.
  - intros cpu. unfold run_calls. simpl. rewrite H0. by left.
  - rewrite hits_snoc, run_calls_snoc. destruct (run tr s0) as [s1 o1]. simpl in *.
    rewrite sklat_handler_run. simpl. unfold metrics_after. destruct (hit c s1) as [k'|]; simpl.
    + assert ((if decide (Some k' = Some k) then 1 else 0) = if decide (k' = k) then 1 else 0) as ->.
      { destruct (decide (k' = k)) as [->|]; [by rewrite decide_True|].
        rewrite decide_False; [done|congruence]. }
      by apply count_counted.
    + rewrite Z.add_0_r. done.
Qed.
End lemmas.

(** ** Properties *)

Section properties.
Context `{KernelLayout} {ME MM : Type}.
Context `{!BpfMap ME Z sklat_key_t, !BpfMap MM insp_sklat_metric_t Z}.
Context `{!HashLaws ME Z sklat_key_t, !HashLaws MM insp_sklat_metric_t Z}.

(** C1: no false latency.  In any sequence of kernel events from load, every
    event that socketlatency reports was submitted by a [tcp_cleanup_rbuf]
    (direction READ) or [tcp_write_xmit] (direction WRITE) of some socket; its
    latency is the time since the latest [sock_def_readable] respectively
    [tcp_sendmsg_locked] of the same socket, with no creation or destruction
    of that socket in between, and exceeds 100 ms; the other fields describe
    that socket and the task that ran. *)
Theorem sklat_event_sound (s0 : state ME MM) (tr : list (env * op)) (ev : insp_sklat_event_t)
    (H0 : initial s0) (Hev : ev ∈ (run_calls handler tr s0).2) :
  ∃ pre e o post a t,
    tr = pre ++ (e, o) :: post ∧ closes a o = true ∧ latest op_sk (opens a) resets (op_sk o) pre t ∧
    ev = slow_event e (op_sk o) (u64 (ktime e - t)) a ∧ LAT_THRESH_NS_100MS < latency ev.
Proof.
  apply run_calls_events in Hev as (pre & [e o] & post & -> & Hev). simpl in Hev.
  pose proof (sklat_handler_run (e, o) (run_calls handler pre s0).1) as Hr. simpl in Hr. rewrite Hr in Hev.
  clear Hr. simpl in Hev. unfold events_of, measured in Hev. simpl in Hev.
  destruct (closed_by o) as [a|] eqn:Ho; simpl in Hev; [|by apply elem_of_nil in Hev].
  destruct (bpf_map_lookup_elem _ _ _) as [ski|] eqn:E; simpl in Hev; [|by apply elem_of_nil in Hev].
  rewrite (entries_stamps s0 pre _ _ _ a H0 E) in Hev.
  destruct (last_open op_sk (opens a) resets (op_sk o) pre) as [t|] eqn:Hl; simpl in Hev;
    [|by apply elem_of_nil in Hev].
  destruct (Z.gtb_spec t 0) as [Hp|]; simpl in Hev; [|by apply elem_of_nil in Hev].
  destruct (Z.gtb_spec (u64 (ktime e - t)) LAT_THRESH_NS_100MS);
    [|by apply elem_of_nil in Hev]. apply list_elem_of_singleton in Hev as ->.
  exists pre, e, o, post, a, t. split; [done|].
  split; [by destruct o; simplify_eq/=|]. split; [by apply last_open_latest|done].
Qed.

(** C2: no missed latency.  If a tracked socket received (wrote) at time
    [t > 0] and was neither created nor destroyed nor received (wrote) again
    since, then the next read (send) call more than 1 ms later adds one to the
    counter of its namespace, process, CPU, direction and class of latency,
    which begins at one if there is none yet and the map has room, and changes
    no other counter; if it comes more than 100 ms later it also reports one
    event, with that latency, and otherwise none. *)
Theorem sklat_event_complete (s0 : state ME MM) (pre : list (env * op)) (e : env) (o : op)
    (a : action) (t : Z) (H0 : initial s0)
    (Htracked : is_Some (bpf_map_lookup_elem (smp_id e) (entries (run_calls handler pre s0).1) (op_sk o)))
    (Ho : closes a o = true) (Hl : latest op_sk (opens a) resets (op_sk o) pre t) (Ht : 0 < t)
    (Hlat : LAT_THRESH_NS < u64 (ktime e - t)) :
  let lat := u64 (ktime e - t) in
  let before := metrics (run_calls handler pre s0).1 in
  (run_calls handler (pre ++ [(e, o)]) s0).2 =
    (run_calls handler pre s0).2 ++ (if lat >? LAT_THRESH_NS_100MS then [slow_event e (op_sk o) lat a] else []) ∧
  ∀ cpu k, bpf_map_lookup_elem cpu (metrics (run_calls handler (pre ++ [(e, o)]) s0).1) k =
    if decide (k = slow_metric e (op_sk o) lat a) then
      match bpf_map_lookup_elem cpu before k with Some v => Some (u64 (v + 1)) | None => if map_full before then None else Some 1 end
    else bpf_map_lookup_elem cpu before k.
Proof.
  cbn zeta. destruct Htracked as [ski E]. pose proof (entries_stamps s0 pre _ _ _ a H0 E) as Hs.
  apply last_open_latest in Hl. rewrite Hl in Hs. simpl in Hs.
  rewrite run_calls_snoc. destruct (run_calls handler pre s0) as [s1 o1]. rewrite sklat_handler_run. simpl in E |- *.
  assert (measured (e, o) s1 = Some (a, u64 (ktime e - t))) as Hm.
  { unfold measured. cbn [fst snd]. assert (closed_by o = Some a) as -> by (by destruct a, o). cbn [mbind option_bind]. rewrite E. cbn [mbind option_bind].
    rewrite Hs. by destruct (Z.gtb_spec t 0); [|lia]. }
  split.
  - f_equal. unfold events_of. by rewrite Hm.
  - intros cpu k. unfold metrics_after, hit. rewrite Hm. cbn [mbind option_bind fst snd].
    destruct (Z.gtb_spec (u64 (ktime e - t)) LAT_THRESH_NS); [|lia]. apply count_lookup.
Qed.

(** The counters are exact.  After any sequence of calls, the counter
    of a key holds the number of operations slower than 1 ms with that key
    (modulo 2^64); a key that occurred and has no counter is possible only
    when the counter map is full. *)
Theorem sklat_counters_exact (s0 : state ME MM) (tr : list (env * op)) (k : insp_sklat_metric_t)
    (cpu : Z) (H0 : initial s0) :
  match bpf_map_lookup_elem cpu (metrics (run_calls handler tr s0).1) k with
  | Some v => v = u64 (hits k tr s0)
  | None => hits k tr s0 = 0 ∨ map_full (metrics (run_calls handler tr s0).1) = true
  end.
Proof. by apply hits_counted. Qed.

(** Stale latencies.  [sock_read] does not clear [lastreceive], and it
    ignores its byte count: two consecutive reads of a socket that received
    once, at time [t], both report, the second one with the time since data
    that the first read already took. *)
Theorem sklat_stale_read (s : state ME MM) (e1 e2 : env) (ctx1 ctx2 : pt_regs) (ski : sklat_key_t)
    (Hsk : PT_REGS_PARM1 ctx2 = PT_REGS_PARM1 ctx1)
    (E : bpf_map_lookup_elem (smp_id e1) (entries s) (PT_REGS_PARM1 ctx1) = Some ski)
    (Ht : 0 < lastreceive ski)
    (H1 : LAT_THRESH_NS_100MS < u64 (ktime e1 - lastreceive ski))
    (H2 : LAT_THRESH_NS_100MS < u64 (ktime e2 - lastreceive ski)) :
  (run_calls handler [(e1, tcp_cleanup_rbuf ctx1); (e2, tcp_cleanup_rbuf ctx2)] s).2 =
  [slow_event e1 (PT_REGS_PARM1 ctx1) (u64 (ktime e1 - lastreceive ski)) READ;
   slow_event e2 (PT_REGS_PARM1 ctx1) (u64 (ktime e2 - lastreceive ski)) READ].
Proof.
  set (c1 := (e1, tcp_cleanup_rbuf ctx1)). set (c2 := (e2, tcp_cleanup_rbuf ctx2)).
  unfold run_calls. simpl. pose proof (sklat_handler_run c1 s) as Hr1. simpl in Hr1. rewrite Hr1.
  set (s1 := State _ _). pose proof (sklat_handler_run c2 s1) as Hr2. simpl in Hr2. rewrite Hr2. simpl.
  unfold events_of, measured. simpl. rewrite E, Hsk, handler_entries. simpl.
  rewrite decide_True by done. unfold entry_step. simpl. rewrite (hash_cpu (smp_id e2) (smp_id e1)), E.
  simpl. destruct (Z.gtb_spec (lastreceive ski) 0); [|lia].
  destruct (Z.gtb_spec (u64 (ktime e1 - lastreceive ski)) LAT_THRESH_NS_100MS); [|lia].
  by destruct (Z.gtb_spec (u64 (ktime e2 - lastreceive ski)) LAT_THRESH_NS_100MS); [|lia].
Qed.
End properties.

(** ** Witnesses: one socket, created, receiving at 5 ns, read 300 ms later *)

Definition demo_state : state (htab 10000 Z sklat_key_t) (htab 4096 insp_sklat_metric_t Z) :=
  State htab_empty htab_empty.
Definition demo_ctx : pt_regs := demo_regs 4096 0 0.
Definition demo_at (t : Z) : env := demo_env (mem_of []) 1 t.
Definition demo_pre : list (env * op) :=
  [(demo_at 1, inet_ehash_nolisten demo_ctx); (demo_at 5, sock_def_readable demo_ctx)].
Definition demo_read : env * op := (demo_at 300000005, tcp_cleanup_rbuf demo_ctx).
#[local] Existing Instance amd64_layout.

Lemma sklat_demo_initial : initial demo_state.
Proof. split; intros; apply lookup_empty. Qed.

Lemma demo_latest : latest op_sk (opens READ) resets 4096 demo_pre 5.
Proof. apply last_open_latest. done. Qed.

Lemma sklat_event_sound_witness :
  ∃ ev, ev ∈ (run_calls handler (demo_pre ++ [demo_read]) demo_state).2 ∧ latency ev = 300000000 ∧
  ∃ pre e o post a t,
    demo_pre ++ [demo_read] = pre ++ (e, o) :: post ∧ closes a o = true ∧
    latest op_sk (opens a) resets (op_sk o) pre t ∧ ev = slow_event e (op_sk o) (u64 (ktime e - t)) a ∧
    LAT_THRESH_NS_100MS < latency ev.
Proof.
  assert (slow_event (demo_at 300000005) 4096 300000000 READ ∈
    (run_calls handler (demo_pre ++ [demo_read]) demo_state).2) as Hev.
  { vm_compute. left. }
  eexists. split; [exact Hev|]. split; [done|].
  exact (sklat_event_sound demo_state _ _ sklat_demo_initial Hev).
Defined.

Lemma sklat_event_complete_witness :
  (run_calls handler (demo_pre ++ [demo_read]) demo_state).2 =
    (run_calls handler demo_pre demo_state).2 ++ [slow_event (demo_at 300000005) 4096 300000000 READ] ∧
  bpf_map_lookup_elem 0 (metrics (run_calls handler (demo_pre ++ [demo_read]) demo_state).1) (slow_metric (demo_at 300000005) 4096 300000000 READ) = Some 1.
Proof.
  destruct (sklat_event_complete demo_state demo_pre (demo_at 300000005) (tcp_cleanup_rbuf demo_ctx) READ 5
    sklat_demo_initial) as [He Hc].
  - vm_compute. eauto.
  - done.
  - exact demo_latest.
  - done.
  - vm_compute. done.
  - split; [exact He|]. unfold demo_read. rewrite Hc. vm_compute. reflexivity.
Defined.

Lemma sklat_counters_exact_witness :
  let k := SklatMetric 0 4242 1 BUCKET100MS ACTION_READ in
  bpf_map_lookup_elem 0 (metrics (run_calls handler (demo_pre ++ [demo_read]) demo_state).1) k = Some 1 ∧
  hits k (demo_pre ++ [demo_read]) demo_state = 1 ∧ 1 = u64 1.
Proof.
  split; [vm_compute; done|]. split; [vm_compute; done|].
  exact (sklat_counters_exact demo_state (demo_pre ++ [demo_read])
    (SklatMetric 0 4242 1 BUCKET100MS ACTION_READ) 0 sklat_demo_initial).
Defined.

Lemma sklat_stale_read_witness :
  latency <$> (run_calls handler [demo_read; (demo_at 900000005, tcp_cleanup_rbuf demo_ctx)]
    (run_calls handler demo_pre demo_state).1).2 = [300000000; 900000000].
Proof.
  unfold demo_read.
  rewrite (sklat_stale_read (run_calls handler demo_pre demo_state).1 (demo_at 300000005)
    (demo_at 900000005) demo_ctx demo_ctx (SklatKey 1 5 0 0 0)); vm_compute; done.
Defined.
End SocketLatency.
