(* ===== verification/NetifTxLatency.v ===== *)
(** src/bpf/netiftxlatency.c: time a packet spends in the queueing discipline
    (from [net_dev_queue] to [net_dev_start_xmit]) and in the driver (from
    there to [net_dev_xmit]).

    State: the hashes [insp_txq] and [insp_txs] from packet address to time
    stamp (the counter map of the file is never used). *)

From S2P Require Import Prelude CLayout KernelMem BpfMaps BpfRuntime Intervals Inspector.

Module NetifTxLatency.

Definition THRESH : Z := 100 * 1000 * 1000.
Definition ACTION_QDISC : Z := 1.
Definition ACTION_XMIT : Z := 2.

(** Tracepoint arguments. *)
Record net_dev_queue_args := NetDevQueueArgs {
  q_skbaddr : Z;
  q_len : Z;
  q_name : Z;
}.

Record net_dev_start_xmit_args := NetDevStartXmitArgs {
  sx_name : Z;
  sx_queue_mapping : Z;
  sx_skbaddr : Z;
  sx_vlan_tagged : bool;
  sx_vlan_proto : Z;
  sx_vlan_tci : Z;
  sx_protocol : Z;
  sx_ip_summed : Z;
  sx_len : Z;
  sx_data_len : Z;
  sx_network_offset : Z;
  sx_transport_offset_valid : bool;
  sx_transport_offset : Z;
  sx_tx_flags : Z;
  sx_gso_size : Z;
  sx_gso_segs : Z;
  sx_gso_type : Z;
}.

Record net_dev_xmit_args := NetDevXmitArgs {
  x_skbaddr : Z;
  x_len : Z;
  x_rc : Z;
  x_name : Z;
}.

Record insp_nftxlat_event_t := NftxlatEvent {
  target : list Z;
  type : Z;
  ev_tuple : tuple;
  ev_skb_meta : skb_meta;
  pid : Z;
  cpu : Z;
  latency : Z;
  stack_id : Z;
}.

#[global] Instance insp_nftxlat_event_t_eq_dec : EqDecision insp_nftxlat_event_t.
Proof. solve_decision. Defined.

Section probe.
Context `{KernelLayout} {MQ MS : Type} `{!BpfMap MQ Z Z, !BpfMap MS Z Z}.

Record state := State { txq : MQ; txs : MS }.

Definition insp_txq : lens state MQ := Lens txq (λ m s, State m (txs s)).
Definition insp_txs : lens state MS := Lens txs (λ m s, State (txq s) m).

Abbreviation prog' := (prog state insp_nftxlat_event_t).

Definition report_txlat_events (skb latency action : Z) : prog' unit :=
  target ← bpf_get_current_comm TASK_COMM_LEN;
  pid_tgid ← bpf_get_current_pid_tgid;
  cpu ← bpf_get_smp_processor_id;
  tpl ← with_mem (λ m, (set_tuple m skb zero_tuple).1);
  meta ← with_mem (λ m, set_meta m skb zero_meta);
  bpf_perf_event_output
    (NftxlatEvent target action tpl meta (u32 (Z.shiftr pid_tgid 32)) cpu latency 0).

Definition net_dev_queue (ctx : net_dev_queue_args) : prog' Z :=
  ts ← bpf_ktime_get_ns;
  let skb := q_skbaddr ctx in
  _ ← map_update insp_txq skb ts 0;
  mret 0.

Definition net_dev_start_xmit (ctx : net_dev_start_xmit_args) : prog' Z :=
  let skb := sx_skbaddr ctx in
  tsp ← map_lookup insp_txq skb;
  match tsp with
  | None => mret 0
  | Some tsp =>
      ts ← bpf_ktime_get_ns;
      let latency := u64 (ts - tsp) in
      _ ← when (latency >? THRESH) (report_txlat_events skb latency ACTION_QDISC);
      _ ← map_update insp_txs skb ts 0;
      mret 0
  end.

Definition net_dev_xmit (ctx : net_dev_xmit_args) : prog' Z :=
  let skb := x_skbaddr ctx in
  tsp ← map_lookup insp_txs skb;
  match tsp with
  | None => mret 0
  | Some tsp =>
      ts ← bpf_ktime_get_ns;
      let latency := u64 (ts - tsp) in
      _ ← when (latency >? THRESH) (report_txlat_events skb latency ACTION_XMIT);
      _ ← map_delete insp_txs skb;
      mret 0
  end.

Inductive op :=
  | tp_net_dev_queue (ctx : net_dev_queue_args)
  | tp_net_dev_start_xmit (ctx : net_dev_start_xmit_args)
  | tp_net_dev_xmit (ctx : net_dev_xmit_args).

Definition handler (o : op) : prog' Z :=
  match o with
  | tp_net_dev_queue ctx => net_dev_queue ctx
  | tp_net_dev_start_xmit ctx => net_dev_start_xmit ctx
  | tp_net_dev_xmit ctx => net_dev_xmit ctx
  end.

(** ** Specification vocabulary *)

Definition op_skb (o : op) : Z :=
  match o with
  | tp_net_dev_queue ctx => q_skbaddr ctx
  | tp_net_dev_start_xmit ctx => sx_skbaddr ctx
  | tp_net_dev_xmit ctx => x_skbaddr ctx
  end.

(** The queueing interval is opened by [net_dev_queue] and never discarded;
    the driver interval is opened by [net_dev_start_xmit] and discarded by
    [net_dev_xmit]. *)
Definition queue_opens (c : env * op) : option Z :=
  match c.2 with tp_net_dev_queue _ => Some (ktime c.1) | _ => None end.
Definition queue_resets (o : op) : bool := false.
Definition xmit_opens (c : env * op) : option Z :=
  match c.2 with tp_net_dev_start_xmit _ => Some (ktime c.1) | _ => None end.
Definition xmit_resets (o : op) : bool :=
  match o with tp_net_dev_xmit _ => true | _ => false end.

Definition slow_event (e : env) (skb lat action : Z) : insp_nftxlat_event_t := {|
  target := comm e TASK_COMM_LEN;
  type := action;
  ev_tuple := (set_tuple (kmem e) skb zero_tuple).1;
  ev_skb_meta := set_meta (kmem e) skb zero_meta;
  pid := u32 (Z.shiftr (pid_tgid e) 32);
  cpu := smp_id e;
  latency := lat;
  stack_id := 0;
|}.
End probe.
Arguments state : clear implicits.

(** ** Lemmas *)

Section lemmas.
Context `{KernelLayout} {MQ MS : Type} `{!BpfMap MQ Z Z, !BpfMap MS Z Z}.
Context `{!HashLaws MQ Z Z, !HashLaws MS Z Z}.
Implicit Types (s : state MQ MS) (c : env * op) (tr : list (env * op)).

Definition txq_after c s : MQ :=
  match c.2 with
  | tp_net_dev_queue _ => (bpf_map_update_elem (smp_id c.1) (txq s) (op_skb c.2) (ktime c.1) BPF_ANY).1
  | _ => txq s
  end.

Definition txs_after c s : MS :=
  match c.2 with
  | tp_net_dev_queue _ => txs s
  | tp_net_dev_start_xmit _ =>
      if bpf_map_lookup_elem (smp_id c.1) (txq s) (op_skb c.2)
      then (bpf_map_update_elem (smp_id c.1) (txs s) (op_skb c.2) (ktime c.1) BPF_ANY).1 else txs s
  | tp_net_dev_xmit _ =>
      if bpf_map_lookup_elem (smp_id c.1) (txs s) (op_skb c.2)
      then (bpf_map_delete_elem (smp_id c.1) (txs s) (op_skb c.2)).1 else txs s
  end.

(** The time stamp that a call measures against. *)
Definition opened_at c s : option (Z * Z) :=
  match c.2 with
  | tp_net_dev_queue _ => None
  | tp_net_dev_start_xmit _ => (ACTION_QDISC,.) <$> bpf_map_lookup_elem (smp_id c.1) (txq s) (op_skb c.2)
  | tp_net_dev_xmit _ => (ACTION_XMIT,.) <$> bpf_map_lookup_elem (smp_id c.1) (txs s) (op_skb c.2)
  end.

Definition events_of c s : list insp_nftxlat_event_t :=
  match opened_at c s with
  | Some (action, t) =>
      let lat := u64 (ktime c.1 - t) in
      if lat >? THRESH then [slow_event c.1 (op_skb c.2) lat action] else []
  | None => []
  end.

Lemma nftx_handler_run c s :
  handler c.2 c.1 s = (0, State (txq_after c s) (txs_after c s), events_of c s).
Proof.
  destruct s as [q x], c as [e o]. unfold txq_after, txs_after, events_of, opened_at.
  destruct o as [ctx|ctx|ctx]; simpl;
    unfold net_dev_queue, net_dev_start_xmit, net_dev_xmit, report_txlat_events; unfold_prog; simpl.
  - unfold BPF_ANY. by destruct (bpf_map_update_elem _ _ _ _ _).
  - destruct (bpf_map_lookup_elem _ _ _) as [t|]; [|done]. simpl. unfold BPF_ANY.
    destruct (_ >? THRESH); simpl; by destruct (bpf_map_update_elem _ _ _ _ _).
  - destruct (bpf_map_lookup_elem _ _ _) as [t|]; [|done]. simpl.
    destruct (_ >? THRESH); simpl; by destruct (bpf_map_delete_elem _ _ _).
Qed.

Lemma txq_after_lookup c s cpu skb :
  bpf_map_lookup_elem cpu (txq_after c s) skb =
  match queue_opens c with
  | Some t => if decide (op_skb c.2 = skb)
              then if accepts (smp_id c.1) (txq s) skb then Some t else None
              else bpf_map_lookup_elem cpu (txq s) skb
  | None => bpf_map_lookup_elem cpu (txq s) skb
  end.
Proof.
  unfold txq_after, queue_opens. destruct c as [e []]; simpl; try done.
  rewrite hash_update_lookup. destruct (decide _); by subst.
Qed.

Lemma txs_after_lookup c s cpu skb :
  bpf_map_lookup_elem cpu (txs_after c s) skb =
  if decide (op_skb c.2 = skb) then
    match c.2 with
    | tp_net_dev_queue _ => bpf_map_lookup_elem cpu (txs s) skb
    | tp_net_dev_start_xmit _ =>
        if bpf_map_lookup_elem cpu (txq s) skb
        then if accepts (smp_id c.1) (txs s) skb then Some (ktime c.1) else None
        else bpf_map_lookup_elem cpu (txs s) skb
    | tp_net_dev_xmit _ => None
    end
  else bpf_map_lookup_elem cpu (txs s) skb.
Proof.
  unfold txs_after. destruct c as [e o]. simpl.
  rewrite (hash_cpu (smp_id e) cpu (txq s)).
  destruct (decide (op_skb o = skb)) as [<-|Hne]; destruct o as [ctx|ctx|ctx]; simpl in *; try done.
  - destruct (bpf_map_lookup_elem cpu (txq s) (sx_skbaddr ctx)); [|done].
    by rewrite hash_update_lookup, decide_True.
  - by rewrite hash_drop_lookup, decide_True.
  - destruct (bpf_map_lookup_elem cpu (txq s) (sx_skbaddr ctx)); [|done].
    by rewrite hash_update_lookup, decide_False.
  - by rewrite hash_drop_lookup, decide_False.
Qed.

Definition initial s : Prop :=
  (∀ cpu skb, bpf_map_lookup_elem cpu (txq s) skb = None) ∧
  (∀ cpu skb, bpf_map_lookup_elem cpu (txs s) skb = None).

(** The stamps in the maps are those of the history; a packet in the driver
    map is in the queue map. *)
Definition history_ok tr s : Prop := ∀ cpu skb,
  (∀ t, bpf_map_lookup_elem cpu (txq s) skb = Some t ->
        last_open op_skb queue_opens queue_resets skb tr = Some t) ∧
  (∀ t, bpf_map_lookup_elem cpu (txs s) skb = Some t ->
        last_open op_skb xmit_opens xmit_resets skb tr = Some t) ∧
  (is_Some (bpf_map_lookup_elem cpu (txs s) skb) -> is_Some (bpf_map_lookup_elem cpu (txq s) skb)).

Lemma history_ok_step tr c s :
  history_ok tr s -> history_ok (tr ++ [c]) (handler c.2 c.1 s).1.2.
Proof.
  intros IH cpu skb. rewrite nftx_handler_run. simpl.
  rewrite txq_after_lookup, txs_after_lookup, !last_open_snoc. unfold open_step.
  destruct (IH cpu skb) as (Hq & Hx & Hsub).
  destruct c as [e o]. destruct o as [ctx|ctx|ctx]; simpl in *; destruct (decide (_ = skb)) as [<-|];
    try done.
  - split_and!; [|done|].
    + intros t. by destruct (accepts _ _ _); intros [= <-].
    + intros Hs. specialize (Hsub Hs). unfold accepts. rewrite (hash_cpu (smp_id e) cpu).
      by rewrite bool_decide_true.
  - split_and!; [done| |].
    + intros t. destruct (bpf_map_lookup_elem cpu (txq s) (sx_skbaddr ctx)) as [tq|] eqn:E.
      * by destruct (accepts _ _ _).
      * intros Hs. destruct Hsub as [? ?]; [eauto|congruence].
    + destruct (bpf_map_lookup_elem cpu (txq s) (sx_skbaddr ctx)); eauto.
Qed.

Lemma history_ok_run tr s0 : initial s0 -> history_ok tr (run_calls handler tr s0).1.
Proof.
  intros [Hq Hx]. revert tr. apply run_calls_history.
  - intros cpu skb. rewrite Hq, Hx. by split_and!; [..|intros [? ?]].
  - intros. by apply history_ok_step.
Qed.

(** A packet address that is refused by the full queue map stays unknown. *)
Definition starved (skb : Z) s : Prop :=
  map_full (txq s) = true ∧ ∀ cpu,
    bpf_map_lookup_elem cpu (txq s) skb = None ∧ bpf_map_lookup_elem cpu (txs s) skb = None.

Lemma starved_step (skb : Z) c s : starved skb s -> starved skb (handler c.2 c.1 s).1.2.
Proof.
  intros [Hf Hn]. rewrite nftx_handler_run. split; simpl.
  - unfold txq_after. destruct c as [e []]; simpl; try done. by apply hash_update_full.
  - intros cpu. destruct (Hn cpu) as [Hq Hx]. rewrite txq_after_lookup, txs_after_lookup, Hq, Hx.
    unfold accepts. rewrite Hf, (proj1 (Hn (smp_id c.1))).
    destruct c as [e []]; simpl; by destruct (decide _).
Qed.

Lemma starved_run (skb : Z) tr s : starved skb s -> starved skb (run_calls handler tr s).1.
Proof.
  intros Hs. revert tr. apply (run_calls_history handler (λ _ s, starved skb s)); [done|].
  intros. by apply starved_step.
Qed.

Lemma txq_monotone (skb cpu : Z) tr s :
  is_Some (bpf_map_lookup_elem cpu (txq s) skb) ->
  is_Some (bpf_map_lookup_elem cpu (txq (run_calls handler tr s).1) skb).
Proof.
  intros Hs. revert tr.
  apply (run_calls_history handler (λ _ s, is_Some (bpf_map_lookup_elem cpu (txq s) skb))); [done|].
  intros tr c s' IH. rewrite nftx_handler_run. simpl. rewrite txq_after_lookup.
  destruct (queue_opens c); [|done]. destruct (decide _); [|done].
  unfold accepts. rewrite (hash_cpu _ cpu). rewrite bool_decide_true by done. simpl. eauto.
Qed.
End lemmas.

(** ** Properties *)

Section properties.
Context `{KernelLayout} {MQ MS : Type} `{!BpfMap MQ Z Z, !BpfMap MS Z Z}.
Context `{!HashLaws MQ Z Z, !HashLaws MS Z Z}.

(** Every event that netiftxlatency reports gives a true interval of
    one packet.  A QDISC event comes from [net_dev_start_xmit] and measures
    from the latest [net_dev_queue] of the same packet address; an XMIT event
    comes from [net_dev_xmit] and measures from the latest
    [net_dev_start_xmit] of the same address with no [net_dev_xmit] between;
    both exceed 100 ms. *)
Theorem nftx_event_sound (s0 : state MQ MS) (tr : list (env * op)) (ev : insp_nftxlat_event_t)
    (H0 : initial s0) (Hev : ev ∈ (run_calls handler tr s0).2) :
  ∃ pre e o post t action,
    tr = pre ++ (e, o) :: post ∧
    ev = slow_event e (op_skb o) (u64 (ktime e - t)) action ∧ THRESH < latency ev ∧
    match o with
    | tp_net_dev_queue _ => False
    | tp_net_dev_start_xmit _ =>
        action = ACTION_QDISC ∧ latest op_skb queue_opens queue_resets (op_skb o) pre t
    | tp_net_dev_xmit _ =>
        action = ACTION_XMIT ∧ latest op_skb xmit_opens xmit_resets (op_skb o) pre t
    end.
Proof.
  apply run_calls_events in Hev as (pre & [e o] & post & -> & Hev). simpl in Hev.
  pose proof (nftx_handler_run (e, o) (run_calls handler pre s0).1) as Hr. simpl in Hr. rewrite Hr in Hev.
  destruct (history_ok_run pre s0 H0 (smp_id e) (op_skb o)) as (Hq & Hx & _).
  clear Hr. unfold events_of, opened_at in Hev. cbn [fst snd] in Hev.
  set (s1 := (run_calls handler pre s0).1) in *. clearbody s1.
  destruct o as [ctx|ctx|ctx]; cbn [fst snd op_skb] in *; [by apply elem_of_nil in Hev|..];
    destruct (bpf_map_lookup_elem _ _ _) as [t|] eqn:E in Hev; simpl in Hev;
    try (by apply elem_of_nil in Hev);
    destruct (Z.gtb_spec (u64 (ktime e - t)) THRESH); try (by apply elem_of_nil in Hev);
    apply list_elem_of_singleton in Hev as ->;
    do 6 eexists; (split; [done|]); (split; [done|]); (split; [done|]); (split; [done|]);
    apply last_open_latest; auto.
Qed.

(** [insp_txq] leaks.  No sequence of kernel events removes a packet
    address from it; so once it is full, an address it does not hold is
    refused for ever, and no later call about such a packet reports
    anything, whatever its latency. *)
Theorem nftx_txq_leak (s : state MQ MS) (tr : list (env * op)) (skb cpu : Z) :
  (is_Some (bpf_map_lookup_elem cpu (txq s) skb) ->
   is_Some (bpf_map_lookup_elem cpu (txq (run_calls handler tr s).1) skb)) ∧
  (starved skb s -> ∀ e o, op_skb o = skb ->
   (run_calls handler (tr ++ [(e, o)]) s).2 = (run_calls handler tr s).2).
Proof.
  split; [apply txq_monotone|]. intros Hs e o <-.
  apply (starved_run _ tr) in Hs as [_ Hs]. rewrite run_calls_snoc.
  destruct (run_calls handler tr s) as [s1 o1]. simpl in Hs. rewrite nftx_handler_run.
  destruct (Hs (smp_id e)) as [Hq Hx]. unfold events_of, opened_at.
  destruct o; cbn [fst snd op_skb] in *; rewrite ?Hq, ?Hx; simpl; by rewrite app_nil_r.
Qed.
End properties.

(** ** Witnesses *)

Definition demo_queue (skb : Z) : op := tp_net_dev_queue (NetDevQueueArgs skb 100 0).
Definition demo_start (skb : Z) : op :=
  tp_net_dev_start_xmit (NetDevStartXmitArgs 0 0 skb false 0 0 0 0 100 0 0 false 0 0 0 0 0).
Definition demo_xmit (skb : Z) : op := tp_net_dev_xmit (NetDevXmitArgs skb 100 0 0).
Definition demo_at (t : Z) : env := demo_env (mem_of []) 1 t.
#[local] Existing Instance amd64_layout.

Definition demo_state : state (htab 10000 Z Z) (htab 10000 Z Z) := State htab_empty htab_empty.

Lemma nftx_event_sound_witness :
  let tr := [(demo_at 10, demo_queue 64); (demo_at 200000010, demo_start 64);
             (demo_at 500000010, demo_xmit 64)] in
  let ev := slow_event (demo_at 500000010) 64 300000000 ACTION_XMIT in
  ev ∈ (run_calls handler tr demo_state).2 ∧
  ∃ pre e o post t action,
    tr = pre ++ (e, o) :: post ∧
    ev = slow_event e (op_skb o) (u64 (ktime e - t)) action ∧ THRESH < latency ev ∧
    match o with
    | tp_net_dev_queue _ => False
    | tp_net_dev_start_xmit _ =>
        action = ACTION_QDISC ∧ latest op_skb queue_opens queue_resets (op_skb o) pre t
    | tp_net_dev_xmit _ =>
        action = ACTION_XMIT ∧ latest op_skb xmit_opens xmit_resets (op_skb o) pre t
    end.
Proof.
  intros tr ev. assert (ev ∈ (run_calls handler tr demo_state).2) as Hev.
  { vm_compute. right. left. }
  split; [exact Hev|]. refine (nftx_event_sound demo_state tr ev _ Hev).
  split; intros; apply lookup_empty.
Defined.

(** A queue map of one entry: after packet 64 has been sent, packet 65 is
    never measured. *)
Lemma nftx_txq_leak_witness :
  let s0 : state (htab 1 Z Z) (htab 1 Z Z) := State htab_empty htab_empty in
  let s := (run_calls handler [(demo_at 10, demo_queue 64); (demo_at 20, demo_start 64);
                               (demo_at 30, demo_xmit 64)] s0).1 in
  (run_calls handler ([(demo_at 40, demo_queue 65)] ++ [(demo_at 900000040, demo_start 65)]) s).2 = [].
Proof.
  intros s0 s.
  trans (run_calls handler [(demo_at 40, demo_queue 65)] s).2; [|vm_compute; done].
  refine (proj2 (nftx_txq_leak s [(demo_at 40, demo_queue 65)] 65 0) _ (demo_at 900000040) (demo_start 65) _);
    [|done].
  split; [vm_compute; done|]. intros cpu. vm_compute. done.
Defined.
End NetifTxLatency.
