(* ===== verification/KernelLatency.v ===== *)
(** src/bpf/kernellatency.c: time a packet spends in the IP layer, on receive
    from [ip_rcv] to [ip_local_deliver_finish] and on transmit from
    [__ip_queue_xmit] to [ip_finish_output2], with the time stamps of two
    stations in between.

    State: the hashes [insp_kernelrx_entry] and [insp_kerneltx_entry] from
    packet address to stamps. *)

From S2P Require Import Prelude CLayout KernelMem BpfMaps BpfTracing BpfRuntime Intervals Inspector.

Module KernelLatency.

Definition RX_KLATENCY : Z := 1.
Definition TX_KLATENCY : Z := 2.
Definition THRESH : Z := 10000000.

Record txlatency_t := TxLatency { queuexmit : Z; tx_local : Z; output : Z; finish : Z }.
Record rxlatency_t := RxLatency { rcv : Z; rcvfinish : Z; rx_local : Z; localfinish : Z }.

Record insp_kl_event_t := KlEvent {
  target : list Z;
  ev_tuple : tuple;
  ev_skb_meta : skb_meta;
  pid : Z;
  cpu : Z;
  direction : Z;
  latency : Z;
  point1 : Z;
  point2 : Z;
  point3 : Z;
  point4 : Z;
}.

#[global] Instance txlatency_t_eq_dec : EqDecision txlatency_t.
Proof. solve_decision. Defined.
#[global] Instance rxlatency_t_eq_dec : EqDecision rxlatency_t.
Proof. solve_decision. Defined.
#[global] Instance insp_kl_event_t_eq_dec : EqDecision insp_kl_event_t.
Proof. solve_decision. Defined.

(** Stores through [lat]. *)
Definition set_rcvfinish (t : Z) (l : rxlatency_t) : rxlatency_t :=
  RxLatency (rcv l) t (rx_local l) (localfinish l).
Definition set_rx_local (t : Z) (l : rxlatency_t) : rxlatency_t :=
  RxLatency (rcv l) (rcvfinish l) t (localfinish l).
Definition set_localfinish (t : Z) (l : rxlatency_t) : rxlatency_t :=
  RxLatency (rcv l) (rcvfinish l) (rx_local l) t.
Definition set_tx_local (t : Z) (l : txlatency_t) : txlatency_t :=
  TxLatency (queuexmit l) t (output l) (finish l).
Definition set_output (t : Z) (l : txlatency_t) : txlatency_t :=
  TxLatency (queuexmit l) (tx_local l) t (finish l).
Definition set_finish (t : Z) (l : txlatency_t) : txlatency_t :=
  TxLatency (queuexmit l) (tx_local l) (output l) t.

Section probe.
Context `{KernelLayout} {MR MT : Type} `{!BpfMap MR Z rxlatency_t, !BpfMap MT Z txlatency_t}.

Record state := State { rx : MR; tx : MT }.

Definition insp_kernelrx_entry : lens state MR := Lens rx (λ m s, State m (tx s)).
Definition insp_kerneltx_entry : lens state MT := Lens tx (λ m s, State (rx s) m).

Abbreviation prog' := (prog state insp_kl_event_t).

Definition update_rxlat (skb : Z) (lat : rxlatency_t) : prog' unit :=
  when (localfinish lat >? rcv lat) (
    let latency := u64 (localfinish lat - rcv lat) in
    when (latency >? THRESH) (
      target ← bpf_get_current_comm TASK_COMM_LEN;
      tpl ← with_mem (λ m, (set_tuple m skb zero_tuple).1);
      meta ← with_mem (λ m, set_meta m skb zero_meta);
      pid_tgid ← bpf_get_current_pid_tgid;
      cpu ← bpf_get_smp_processor_id;
      bpf_perf_event_output
        (KlEvent target tpl meta (u32 (Z.shiftr pid_tgid 32)) cpu RX_KLATENCY latency
           (rcv lat) (rcvfinish lat) (rx_local lat) (localfinish lat)))).

Definition update_txlat (skb : Z) (lat : txlatency_t) : prog' unit :=
  when (finish lat >? queuexmit lat) (
    let latency := u64 (finish lat - queuexmit lat) in
    when (latency >? THRESH) (
      target ← bpf_get_current_comm TASK_COMM_LEN;
      tpl ← with_mem (λ m, (set_tuple m skb zero_tuple).1);
      meta ← with_mem (λ m, set_meta m skb zero_meta);
      pid_tgid ← bpf_get_current_pid_tgid;
      cpu ← bpf_get_smp_processor_id;
      bpf_perf_event_output
        (KlEvent target tpl meta (u32 (Z.shiftr pid_tgid 32)) cpu TX_KLATENCY latency
           (queuexmit lat) (tx_local lat) (output lat) (finish lat)))).

Definition klatency_ip_rcv (ctx : pt_regs) : prog' Z :=
  let skb := PT_REGS_PARM1 ctx in
  rcv ← bpf_ktime_get_ns;
  _ ← map_update insp_kernelrx_entry skb (RxLatency rcv 0 0 0) BPF_ANY;
  mret 0.

Definition klatency_ip_rcv_finish (ctx : pt_regs) : prog' Z :=
  let skb := PT_REGS_PARM3 ctx in
  lat ← map_lookup insp_kernelrx_entry skb;
  match lat with
  | Some _ => t ← bpf_ktime_get_ns; _ ← map_store insp_kernelrx_entry skb (set_rcvfinish t); mret 0
  | None => mret 0
  end.

Definition klatency_ip_local_deliver (ctx : pt_regs) : prog' Z :=
  let skb := PT_REGS_PARM1 ctx in
  lat ← map_lookup insp_kernelrx_entry skb;
  match lat with
  | Some _ => t ← bpf_ktime_get_ns; _ ← map_store insp_kernelrx_entry skb (set_rx_local t); mret 0
  | None => mret 0
  end.

Definition klatency_ip_local_deliver_finish (ctx : pt_regs) : prog' Z :=
  let skb := PT_REGS_PARM3 ctx in
  lat ← map_lookup insp_kernelrx_entry skb;
  match lat with
  | Some lat =>
      t ← bpf_ktime_get_ns;
      _ ← map_store insp_kernelrx_entry skb (set_localfinish t);
      _ ← update_rxlat skb (set_localfinish t lat);
      _ ← map_delete insp_kernelrx_entry skb;
      mret 0
  | None => mret 0
  end.

Definition klatency_ip_queue_xmit (ctx : pt_regs) : prog' Z :=
  let skb := PT_REGS_PARM2 ctx in
  queuexmit ← bpf_ktime_get_ns;
  _ ← map_update insp_kerneltx_entry skb (TxLatency queuexmit 0 0 0) BPF_ANY;
  mret 0.

Definition klatency_ip_local (ctx : pt_regs) : prog' Z :=
  let skb := PT_REGS_PARM3 ctx in
  lat ← map_lookup insp_kerneltx_entry skb;
  match lat with
  | Some _ => t ← bpf_ktime_get_ns; _ ← map_store insp_kerneltx_entry skb (set_tx_local t); mret 0
  | None => mret 0
  end.

Definition klatency_ip_output (ctx : pt_regs) : prog' Z :=
  let skb := PT_REGS_PARM3 ctx in
  lat ← map_lookup insp_kerneltx_entry skb;
  match lat with
  | Some _ => t ← bpf_ktime_get_ns; _ ← map_store insp_kerneltx_entry skb (set_output t); mret 0
  | None => mret 0
  end.

Definition klatency_ip_finish_output2 (ctx : pt_regs) : prog' Z :=
  let skb := PT_REGS_PARM3 ctx in
  lat ← map_lookup insp_kerneltx_entry skb;
  match lat with
  | Some lat =>
      t ← bpf_ktime_get_ns;
      _ ← map_store insp_kerneltx_entry skb (set_finish t);
      _ ← update_txlat skb (set_finish t lat);
      _ ← map_delete insp_kerneltx_entry skb;
      mret 0
  | None => mret 0
  end.

(** Both ways in which a packet dies forget it. *)
Definition report_kfree (ctx : pt_regs) : prog' Z :=
  let skb := PT_REGS_PARM1 ctx in
  latrx ← map_lookup insp_kernelrx_entry skb;
  _ ← match latrx with Some _ => map_delete insp_kernelrx_entry skb | None => mret 0 end;
  lattx ← map_lookup insp_kerneltx_entry skb;
  _ ← match lattx with Some _ => map_delete insp_kerneltx_entry skb | None => mret 0 end;
  mret 0.

Definition report_consume (ctx : pt_regs) : prog' Z :=
  let skb := PT_REGS_PARM1 ctx in
  latrx ← map_lookup insp_kernelrx_entry skb;
  _ ← match latrx with Some _ => map_delete insp_kernelrx_entry skb | None => mret 0 end;
  lattx ← map_lookup insp_kerneltx_entry skb;
  _ ← match lattx with Some _ => map_delete insp_kerneltx_entry skb | None => mret 0 end;
  mret 0.

Inductive op :=
  | ip_rcv (ctx : pt_regs)
  | ip_rcv_finish (ctx : pt_regs)
  | ip_local_deliver (ctx : pt_regs)
  | ip_local_deliver_finish (ctx : pt_regs)
  | __ip_queue_xmit (ctx : pt_regs)
  | ip_local_out (ctx : pt_regs)
  | ip_output (ctx : pt_regs)
  | ip_finish_output2 (ctx : pt_regs)
  | kfree_skb (ctx : pt_regs)
  | consume_skb (ctx : pt_regs).

Definition handler (o : op) : prog' Z :=
  match o with
  | ip_rcv ctx => klatency_ip_rcv ctx
  | ip_rcv_finish ctx => klatency_ip_rcv_finish ctx
  | ip_local_deliver ctx => klatency_ip_local_deliver ctx
  | ip_local_deliver_finish ctx => klatency_ip_local_deliver_finish ctx
  | __ip_queue_xmit ctx => klatency_ip_queue_xmit ctx
  | ip_local_out ctx => klatency_ip_local ctx
  | ip_output ctx => klatency_ip_output ctx
  | ip_finish_output2 ctx => klatency_ip_finish_output2 ctx
  | kfree_skb ctx => report_kfree ctx
  | consume_skb ctx => report_consume ctx
  end.
End probe.
Arguments state : clear implicits.

(** ** Specification vocabulary *)

(** The packet a call is about: the kernel functions take it at different
    argument positions. *)
Definition op_skb (o : op) : Z :=
  match o with
  | ip_rcv ctx | ip_local_deliver ctx | kfree_skb ctx | consume_skb ctx => PT_REGS_PARM1 ctx
  | __ip_queue_xmit ctx => PT_REGS_PARM2 ctx
  | ip_rcv_finish ctx | ip_local_deliver_finish ctx | ip_local_out ctx | ip_output ctx
  | ip_finish_output2 ctx => PT_REGS_PARM3 ctx
  end.

(** The stations of the two paths, in order. *)
Inductive station := RX1 | RX2 | RX3 | RX4 | TX1 | TX2 | TX3 | TX4.

Definition station_of (o : op) : option station :=
  match o with
  | ip_rcv _ => Some RX1
  | ip_rcv_finish _ => Some RX2
  | ip_local_deliver _ => Some RX3
  | ip_local_deliver_finish _ => Some RX4
  | __ip_queue_xmit _ => Some TX1
  | ip_local_out _ => Some TX2
  | ip_output _ => Some TX3
  | ip_finish_output2 _ => Some TX4
  | kfree_skb _ | consume_skb _ => None
  end.

#[global] Instance station_eq_dec : EqDecision station.
Proof. solve_decision. Defined.

Definition passes (st : station) (c : env * op) : option Z :=
  if decide (station_of c.2 = Some st) then Some (ktime c.1) else None.

(** The calls that start a packet's journey anew, end it, or free the packet. *)
Definition rx_resets (o : op) : bool :=
  match o with
  | ip_rcv _ | ip_local_deliver_finish _ | kfree_skb _ | consume_skb _ => true
  | _ => false
  end.
Definition tx_resets (o : op) : bool :=
  match o with
  | __ip_queue_xmit _ | ip_finish_output2 _ | kfree_skb _ | consume_skb _ => true
  | _ => false
  end.

(** When the packet passed a station on its current journey. *)
Definition rx_passed (st : station) (skb : Z) (tr : list (env * op)) : option Z :=
  last_open op_skb (passes st) rx_resets skb tr.
Definition tx_passed (st : station) (skb : Z) (tr : list (env * op)) : option Z :=
  last_open op_skb (passes st) tx_resets skb tr.

Definition kl_event `{KernelLayout} (e : env) (skb dir lat p1 p2 p3 p4 : Z) : insp_kl_event_t := {|
  target := comm e TASK_COMM_LEN;
  ev_tuple := (set_tuple (kmem e) skb zero_tuple).1;
  ev_skb_meta := set_meta (kmem e) skb zero_meta;
  pid := u32 (Z.shiftr (pid_tgid e) 32);
  cpu := smp_id e;
  direction := dir;
  latency := lat;
  point1 := p1;
  point2 := p2;
  point3 := p3;
  point4 := p4;
|}.

(** What a call does to the entry of its packet. *)
Definition rx_entry (ok : bool) (c : env * op) (old : option rxlatency_t) : option rxlatency_t :=
  match c.2 with
  | ip_rcv _ => if ok then Some (RxLatency (ktime c.1) 0 0 0) else None
  | ip_rcv_finish _ => set_rcvfinish (ktime c.1) <$> old
  | ip_local_deliver _ => set_rx_local (ktime c.1) <$> old
  | ip_local_deliver_finish _ | kfree_skb _ | consume_skb _ => None
  | _ => old
  end.
Definition tx_entry (ok : bool) (c : env * op) (old : option txlatency_t) : option txlatency_t :=
  match c.2 with
  | __ip_queue_xmit _ => if ok then Some (TxLatency (ktime c.1) 0 0 0) else None
  | ip_local_out _ => set_tx_local (ktime c.1) <$> old
  | ip_output _ => set_output (ktime c.1) <$> old
  | ip_finish_output2 _ | kfree_skb _ | consume_skb _ => None
  | _ => old
  end.

(** The event of a journey from [p1] to [now]. *)
Definition journey_event `{KernelLayout} (e : env) (skb dir p1 p2 p3 : Z) : list insp_kl_event_t :=
  if (ktime e >? p1) && (u64 (ktime e - p1) >? THRESH)
  then [kl_event e skb dir (u64 (ktime e - p1)) p1 p2 p3 (ktime e)] else [].

(** ** Lemmas *)

Section lemmas.
Context `{KernelLayout} {MR MT : Type} `{!BpfMap MR Z rxlatency_t, !BpfMap MT Z txlatency_t}.
Context `{!HashLaws MR Z rxlatency_t, !HashLaws MT Z txlatency_t}.
Implicit Types (s : state MR MT) (c : env * op) (tr : list (env * op)).

Definition events_of c s : list insp_kl_event_t :=
  match c.2 with
  | ip_local_deliver_finish _ =>
      match bpf_map_lookup_elem (smp_id c.1) (rx s) (op_skb c.2) with
      | Some l => journey_event c.1 (op_skb c.2) RX_KLATENCY (rcv l) (rcvfinish l) (rx_local l)
      | None => []
      end
  | ip_finish_output2 _ =>
      match bpf_map_lookup_elem (smp_id c.1) (tx s) (op_skb c.2) with
      | Some l => journey_event c.1 (op_skb c.2) TX_KLATENCY (queuexmit l) (tx_local l) (output l)
      | None => []
      end
  | _ => []
  end.

Lemma update_rxlat_run (skb : Z) (l : rxlatency_t) (e : env) s :
  update_rxlat skb (set_localfinish (ktime e) l) e s =
  (tt, s, journey_event e skb RX_KLATENCY (rcv l) (rcvfinish l) (rx_local l)).
Proof.
  unfold update_rxlat, journey_event. simpl. unfold_prog.
  destruct (ktime e >? rcv l); simpl; [|done]. by destruct (_ >? THRESH).
Qed.

Lemma update_txlat_run (skb : Z) (l : txlatency_t) (e : env) s :
  update_txlat skb (set_finish (ktime e) l) e s =
  (tt, s, journey_event e skb TX_KLATENCY (queuexmit l) (tx_local l) (output l)).
Proof.
  unfold update_txlat, journey_event. simpl. unfold_prog.
  destruct (ktime e >? queuexmit l); simpl; [|done]. by destruct (_ >? THRESH).
Qed.

Definition rx_after c s : MR :=
  let cpu := smp_id c.1 in let skb := op_skb c.2 in let m := rx s in
  match c.2 with
  | ip_rcv _ => (bpf_map_update_elem cpu m skb (RxLatency (ktime c.1) 0 0 0) BPF_ANY).1
  | ip_rcv_finish _ =>
      if bpf_map_lookup_elem cpu m skb then bpf_map_store cpu m skb (set_rcvfinish (ktime c.1)) else m
  | ip_local_deliver _ =>
      if bpf_map_lookup_elem cpu m skb then bpf_map_store cpu m skb (set_rx_local (ktime c.1)) else m
  | ip_local_deliver_finish _ =>
      if bpf_map_lookup_elem cpu m skb
      then (bpf_map_delete_elem cpu (bpf_map_store cpu m skb (set_localfinish (ktime c.1))) skb).1 else m
  | kfree_skb _ | consume_skb _ =>
      if bpf_map_lookup_elem cpu m skb then (bpf_map_delete_elem cpu m skb).1 else m
  | _ => m
  end.

Definition tx_after c s : MT :=
  let cpu := smp_id c.1 in let skb := op_skb c.2 in let m := tx s in
  match c.2 with
  | __ip_queue_xmit _ => (bpf_map_update_elem cpu m skb (TxLatency (ktime c.1) 0 0 0) BPF_ANY).1
  | ip_local_out _ =>
      if bpf_map_lookup_elem cpu m skb then bpf_map_store cpu m skb (set_tx_local (ktime c.1)) else m
  | ip_output _ =>
      if bpf_map_lookup_elem cpu m skb then bpf_map_store cpu m skb (set_output (ktime c.1)) else m
  | ip_finish_output2 _ =>
      if bpf_map_lookup_elem cpu m skb
      then (bpf_map_delete_elem cpu (bpf_map_store cpu m skb (set_finish (ktime c.1))) skb).1 else m
  | kfree_skb _ | consume_skb _ =>
      if bpf_map_lookup_elem cpu m skb then (bpf_map_delete_elem cpu m skb).1 else m
  | _ => m
  end.

Local Ltac unfold_handlers :=
  unfold klatency_ip_rcv, klatency_ip_rcv_finish, klatency_ip_local_deliver,
    klatency_ip_local_deliver_finish, klatency_ip_queue_xmit, klatency_ip_local,
    klatency_ip_output, klatency_ip_finish_output2, report_kfree, report_consume; unfold_prog; simpl.

Local Ltac split_maps :=
  repeat (match goal with
  | |- context [bpf_map_lookup_elem ?c ?m ?k] => destruct (bpf_map_lookup_elem c m k) eqn:?
  | |- context [bpf_map_update_elem ?c ?m ?k ?v ?f] => destruct (bpf_map_update_elem c m k v f) eqn:?
  | |- context [bpf_map_delete_elem ?c ?m ?k] => destruct (bpf_map_delete_elem c m k) eqn:?
  end; simpl in *); rewrite ?app_nil_r; done.

Lemma klat_handler_run c s :
  handler c.2 c.1 s = (0, State (rx_after c s) (tx_after c s), events_of c s).
Proof.
  destruct s as [r t], c as [e o]. unfold rx_after, tx_after, events_of.
  destruct o; simpl; unfold_handlers; try split_maps.
  - destruct (bpf_map_lookup_elem _ _ _); [|done]. rewrite update_rxlat_run. simpl. split_maps.
  - destruct (bpf_map_lookup_elem _ _ _); [|done]. rewrite update_txlat_run. simpl. split_maps.
Qed.

Lemma rx_after_lookup c s cpu skb :
  bpf_map_lookup_elem cpu (rx_after c s) skb =
  if decide (op_skb c.2 = skb)
  then rx_entry (accepts (smp_id c.1) (rx s) skb) c (bpf_map_lookup_elem cpu (rx s) skb)
  else bpf_map_lookup_elem cpu (rx s) skb.
Proof.
  unfold rx_after, rx_entry. destruct c as [e o]; destruct o; cbn [fst snd];
    try apply hash_touch_lookup; try apply hash_drop_lookup; try (by destruct (decide _)).
  - rewrite hash_update_lookup. destruct (decide _); by subst.
  - rewrite (hash_cpu (smp_id e) cpu).
    destruct (bpf_map_lookup_elem cpu (rx s) (op_skb (ip_local_deliver_finish ctx))) eqn:E.
    + rewrite hash_delete_lookup, hash_store_lookup. by destruct (decide _).
    + destruct (decide _); [by subst|done].
Qed.

Lemma tx_after_lookup c s cpu skb :
  bpf_map_lookup_elem cpu (tx_after c s) skb =
  if decide (op_skb c.2 = skb)
  then tx_entry (accepts (smp_id c.1) (tx s) skb) c (bpf_map_lookup_elem cpu (tx s) skb)
  else bpf_map_lookup_elem cpu (tx s) skb.
Proof.
  unfold tx_after, tx_entry. destruct c as [e o]; destruct o; cbn [fst snd];
    try apply hash_touch_lookup; try apply hash_drop_lookup; try (by destruct (decide _)).
  - rewrite hash_update_lookup. destruct (decide _); by subst.
  - rewrite (hash_cpu (smp_id e) cpu).
    destruct (bpf_map_lookup_elem cpu (tx s) (op_skb (ip_finish_output2 ctx))) eqn:E.
    + rewrite hash_delete_lookup, hash_store_lookup. by destruct (decide _).
    + destruct (decide _); [by subst|done].
Qed.

Definition initial s : Prop :=
  (∀ cpu skb, bpf_map_lookup_elem cpu (rx s) skb = None) ∧
  (∀ cpu skb, bpf_map_lookup_elem cpu (tx s) skb = None).

(** The entry of a packet holds the stamps of its current journey. *)
Definition rx_journey (skb : Z) tr (l : rxlatency_t) : Prop :=
  rx_passed RX1 skb tr = Some (rcv l) ∧ rcvfinish l = default 0 (rx_passed RX2 skb tr) ∧
  rx_local l = default 0 (rx_passed RX3 skb tr).
Definition tx_journey (skb : Z) tr (l : txlatency_t) : Prop :=
  tx_passed TX1 skb tr = Some (queuexmit l) ∧ tx_local l = default 0 (tx_passed TX2 skb tr) ∧
  output l = default 0 (tx_passed TX3 skb tr).

Lemma rx_history tr s0 cpu skb l :
  initial s0 -> bpf_map_lookup_elem cpu (rx (run_calls handler tr s0).1) skb = Some l ->
  rx_journey skb tr l.
Proof.
  intros [H0 _]. revert tr l.
  apply (run_calls_history handler (λ tr s, ∀ l,
    bpf_map_lookup_elem cpu (rx s) skb = Some l -> rx_journey skb tr l)).
  { intros l. by rewrite H0. }
  intros tr c s IH l. rewrite klat_handler_run. simpl. rewrite rx_after_lookup.
  unfold rx_journey, rx_passed in *. rewrite !last_open_snoc. unfold open_step.
  destruct (decide (op_skb c.2 = skb)) as [E|E]; [|apply IH].
  destruct c as [e o]. unfold rx_entry, passes. simpl. destruct o; simpl; try done; try apply IH.
  - destruct (accepts _ _ _); [|done]. by intros [= <-].
  - intros (old & Hold & ->)%fmap_Some. destruct (IH _ Hold) as (? & ? & ?). done.
  - intros (old & Hold & ->)%fmap_Some. destruct (IH _ Hold) as (? & ? & ?). done.
Qed.

Lemma tx_history tr s0 cpu skb l :
  initial s0 -> bpf_map_lookup_elem cpu (tx (run_calls handler tr s0).1) skb = Some l ->
  tx_journey skb tr l.
Proof.
  intros [_ H0]. revert tr l.
  apply (run_calls_history handler (λ tr s, ∀ l,
    bpf_map_lookup_elem cpu (tx s) skb = Some l -> tx_journey skb tr l)).
  { intros l. by rewrite H0. }
  intros tr c s IH l. rewrite klat_handler_run. simpl. rewrite tx_after_lookup.
  unfold tx_journey, tx_passed in *. rewrite !last_open_snoc. unfold open_step.
  destruct (decide (op_skb c.2 = skb)) as [E|E]; [|apply IH].
  destruct c as [e o]. unfold tx_entry, passes. simpl. destruct o; simpl; try done; try apply IH.
  - destruct (accepts _ _ _); [|done]. by intros [= <-].
  - intros (old & Hold & ->)%fmap_Some. destruct (IH _ Hold) as (? & ? & ?). done.
  - intros (old & Hold & ->)%fmap_Some. destruct (IH _ Hold) as (? & ? & ?). done.
Qed.
End lemmas.

Lemma passes_time (st : station) (c : env * op) (t : Z) : passes st c = Some t -> t = ktime c.1.
Proof. unfold passes. destruct (decide _); [|done]. by intros [= ->]. Qed.

(** The first station of a journey is passed before the others. *)
Lemma passed_after (resets : op -> bool) (st1 st2 : station) (skb : Z) (tr : list (env * op)) (t1 t2 : Z) :
  st1 ≠ st2 -> (∀ o, station_of o = Some st1 -> resets o = true) -> clock_ok tr ->
  last_open op_skb (passes st1) resets skb tr = Some t1 ->
  last_open op_skb (passes st2) resets skb tr = Some t2 -> t1 <= t2.
Proof.
  intros Hne Hr. revert t1 t2. induction tr as [|c tr IH] using rev_ind; [done|].
  intros t1 t2 (Hc & _ & Hle)%clock_ok_snoc. rewrite !last_open_snoc. unfold open_step.
  destruct (decide (op_skb c.2 = skb)); [|by apply IH].
  unfold passes at 1 3. destruct (decide (station_of c.2 = Some st1)) as [E|].
  - rewrite decide_False by congruence. by rewrite Hr.
  - destruct (decide (station_of c.2 = Some st2)).
    + destruct (resets c.2); [done|]. intros (c' & Hin & _ & ->%passes_time)%last_open_elem [= <-]. auto.
    + destruct (resets c.2); [done|by apply IH].
Qed.

Lemma passed_before (resets : op -> bool) (st : station) (skb : Z) (tr : list (env * op)) c (t : Z) :
  clock_ok (tr ++ [c]) -> last_open op_skb (passes st) resets skb tr = Some t -> t <= ktime c.1.
Proof.
  intros (_ & _ & Hle)%clock_ok_snoc (c' & Hin & _ & ->%passes_time)%last_open_elem. auto.
Qed.

(** The kernel's order of the two middle stations: a packet that comes to the
    first of them has not passed the second on its current journey. *)
Definition in_order (passed : station -> Z -> list (env * op) -> option Z) (st2 st3 : station) (skb : Z)
    (tr : list (env * op)) : Prop :=
  ∀ a c b, tr = a ++ c :: b -> op_skb c.2 = skb -> station_of c.2 = Some st2 -> passed st3 skb a = None.

(** Stations passed in that order have stamps in that order. *)
Lemma passed_in_order (resets : op -> bool) (st2 st3 : station) (skb : Z) (tr : list (env * op)) (t2 t3 : Z) :
  let passed st := last_open op_skb (passes st) resets in
  st2 ≠ st3 -> (∀ o, station_of o = Some st2 -> resets o = false) -> clock_ok tr -> in_order passed st2 st3 skb tr ->
  passed st2 skb tr = Some t2 -> passed st3 skb tr = Some t3 -> t2 <= t3.
Proof.
  intros passed Hne Hr Hc Ho (a & c & mid & -> & Hk & Hp & _)%last_open_latest H3.
  unfold passes in Hp. destruct (decide (station_of c.2 = Some st2)) as [Hst|]; [|done]. injection Hp as <-.
  specialize (Ho a c mid eq_refl Hk Hst). revert H3 Hc. induction mid as [|x mid IH] using rev_ind.
  - unfold passed in *. rewrite last_open_snoc, Ho. unfold open_step, passes. rewrite decide_True by done.
    rewrite decide_False by congruence. by destruct (resets c.2).
  - rewrite app_comm_cons, app_assoc. unfold passed in *. rewrite last_open_snoc. unfold open_step.
    intros H3 (Hc & _ & Hle)%clock_ok_snoc. destruct (decide (op_skb x.2 = skb)); [|by apply IH].
    destruct (passes st3 x) as [t|] eqn:Ex.
    + injection H3 as <-. apply passes_time in Ex as ->. apply Hle. apply elem_of_app. right. apply list_elem_of_here.
    + destruct (resets x.2); [done|]. by apply IH.
Qed.

(** The event that a journey through the given stations produces.  The stamp
    of a middle station is that of the packet's latest pass on this journey, or
    0 if it skipped the station; a stamp lies between the first and the last
    one, and the stamps are in the order of the stations if the packet passed
    these in order. *)
Definition is_journey `{KernelLayout} (passed : station -> Z -> list (env * op) -> option Z)
    (st1 st2 st3 : station) (dir : Z) (pre : list (env * op)) (e : env) (o : op)
    (ev : insp_kl_event_t) : Prop :=
  let skb := op_skb o in
  ∃ t1, passed st1 skb pre = Some t1 ∧
    ev = kl_event e skb dir (ktime e - t1) t1
           (default 0 (passed st2 skb pre)) (default 0 (passed st3 skb pre)) (ktime e) ∧
    THRESH < ktime e - t1 ∧
    (∀ st t, st = st2 ∨ st = st3 -> passed st skb pre = Some t -> t1 <= t <= ktime e) ∧
    (∀ t2 t3, in_order passed st2 st3 skb pre -> passed st2 skb pre = Some t2 -> passed st3 skb pre = Some t3 ->
     t1 <= t2 ∧ t2 <= t3 ∧ t3 <= ktime e).

Lemma journey_event_sound `{KernelLayout} (resets : op -> bool) (st1 st2 st3 : station) (dir t1 : Z)
    (pre : list (env * op)) (e : env) (o : op) (ev : insp_kl_event_t) :
  let passed st := last_open op_skb (passes st) resets in
  st1 ≠ st2 -> st1 ≠ st3 -> st2 ≠ st3 -> (∀ o, station_of o = Some st1 -> resets o = true) ->
  (∀ o, station_of o = Some st2 -> resets o = false) ->
  clock_ok (pre ++ [(e, o)]) -> passed st1 (op_skb o) pre = Some t1 ->
  ev ∈ journey_event e (op_skb o) dir t1
         (default 0 (passed st2 (op_skb o) pre)) (default 0 (passed st3 (op_skb o) pre)) ->
  is_journey passed st1 st2 st3 dir pre e o ev.
Proof.
  intros passed Hn2 Hn3 Hn23 Hr Hr2 Hc H1. unfold journey_event.
  destruct (clock_ok_snoc _ _ Hc) as (Hcp & Hfit & Hle). simpl in Hfit.
  destruct (Z.gtb_spec (ktime e) t1); simpl; [|by intros ?%elem_of_nil].
  assert (0 <= t1) as Hpos.
  { apply last_open_elem in H1 as (c & Hin & _ & ->%passes_time).
    destruct Hcp as [_ Hf]. rewrite Forall_forall in Hf. by destruct (Hf c Hin). }
  rewrite wrap_sub_le by (done || lia).
  destruct (Z.gtb_spec (ktime e - t1) THRESH); [|by intros ?%elem_of_nil].
  intros ->%list_elem_of_singleton.
  assert (∀ st t, st = st2 ∨ st = st3 -> passed st (op_skb o) pre = Some t -> t1 <= t <= ktime e) as Hst.
  { intros st t Hor E. split; [|by eapply (passed_before resets st _ pre (e, o))].
    eapply (passed_after resets st1 st); [by destruct Hor as [->| ->]|done|done|exact H1|exact E]. }
  exists t1. split_and!; [done..|]. intros t2 t3 Ho E2 E3.
  destruct (Hst st2 t2 (or_introl eq_refl) E2), (Hst st3 t3 (or_intror eq_refl) E3).
  split_and!; [done| |done]. by eapply (passed_in_order resets st2 st3).
Qed.

(** ** Properties *)

Section properties.
Context `{KernelLayout} {MR MT : Type} `{!BpfMap MR Z rxlatency_t, !BpfMap MT Z txlatency_t}.
Context `{!HashLaws MR Z rxlatency_t, !HashLaws MT Z txlatency_t}.

(** C23: every event of kernellatency is one journey of one packet.  With
    empty maps at the start and a monotonic 64-bit clock, an RX event is
    submitted by [ip_local_deliver_finish] and a TX event by
    [ip_finish_output2]; its first stamp is the packet's latest [ip_rcv]
    ([__ip_queue_xmit]) with no delivery, free or consumption of that packet
    since, the last is now, and the latency is the exact difference, more than
    10 ms.  A middle stamp is the packet's latest pass of its station since the
    first one, and lies between the first and the last, or is 0 if the packet
    skipped the station.  The two middle stamps are in the order of the
    stations if no packet comes to the first of these after the second. *)
Theorem klat_event_sound (s0 : state MR MT) (tr : list (env * op)) (ev : insp_kl_event_t)
    (H0 : initial s0) (Hc : clock_ok tr) (Hev : ev ∈ (run_calls handler tr s0).2) :
  ∃ pre e o post, tr = pre ++ (e, o) :: post ∧
    match o with
    | ip_local_deliver_finish _ => is_journey rx_passed RX1 RX2 RX3 RX_KLATENCY pre e o ev
    | ip_finish_output2 _ => is_journey tx_passed TX1 TX2 TX3 TX_KLATENCY pre e o ev
    | _ => False
    end.
Proof.
  apply run_calls_events in Hev as (pre & [e o] & post & -> & Hev). simpl in Hev.
  pose proof (klat_handler_run (e, o) (run_calls handler pre s0).1) as Hr. simpl in Hr. rewrite Hr in Hev.
  clear Hr. rewrite cons_middle, app_assoc in Hc. apply clock_ok_prefix in Hc.
  exists pre, e, o, post. split; [done|]. unfold events_of in Hev. cbn [fst snd] in Hev.
  destruct o; try (by apply elem_of_nil in Hev);
    destruct (bpf_map_lookup_elem _ _ _) as [l|] eqn:E in Hev; try (by apply elem_of_nil in Hev).
  - apply (rx_history pre s0 _ _ _ H0) in E as (H1 & H2 & H3). rewrite H2, H3 in Hev.
    refine (journey_event_sound rx_resets _ _ _ _ _ _ _ _ _ _ _ _ _ _ Hc H1 Hev); [done..|by intros []|by intros []].
  - apply (tx_history pre s0 _ _ _ H0) in E as (H1 & H2 & H3). rewrite H2, H3 in Hev.
    refine (journey_event_sound tx_resets _ _ _ _ _ _ _ _ _ _ _ _ _ _ Hc H1 Hev); [done..|by intros []|by intros []].
Qed.

(** No slow journey of a tracked packet is missed.  If the receive map
    holds the packet, it passed [ip_rcv] at [t1] on its current journey and
    [ip_local_deliver_finish] runs more than 10 ms later, then that call
    reports one event with that latency and forgets the packet. *)
Theorem klat_rx_complete (s0 : state MR MT) (pre : list (env * op)) (e : env) (ctx : pt_regs) (t1 : Z)
    (H0 : initial s0) (Hfit : fits 64 (ktime e)) (Hpos : 0 <= t1)
    (Htracked : is_Some (bpf_map_lookup_elem (smp_id e) (rx (run_calls handler pre s0).1) (PT_REGS_PARM3 ctx)))
    (H1 : latest op_skb (passes RX1) rx_resets (PT_REGS_PARM3 ctx) pre t1)
    (Hlat : THRESH < ktime e - t1) :
  let run := run_calls handler (pre ++ [(e, ip_local_deliver_finish ctx)]) s0 in
  (∃ p2 p3, run.2 = (run_calls handler pre s0).2 ++
     [kl_event e (PT_REGS_PARM3 ctx) RX_KLATENCY (ktime e - t1) t1 p2 p3 (ktime e)]) ∧
  ∀ cpu, bpf_map_lookup_elem cpu (rx run.1) (PT_REGS_PARM3 ctx) = None.
Proof.
  destruct Htracked as [l E]. apply last_open_latest in H1.
  pose proof (rx_history pre s0 _ _ _ H0 E) as (H1' & _). unfold rx_passed in H1'.
  rewrite H1 in H1'. injection H1' as ->.
  cbv zeta. rewrite run_calls_snoc. destruct (run_calls handler pre s0) as [s1 o1].
  rewrite klat_handler_run. cbn [fst snd] in *. split.
  - exists (rcvfinish l), (rx_local l). f_equal. unfold events_of, journey_event. cbn [fst snd op_skb].
    rewrite E, wrap_sub_le by (done || (unfold THRESH in *; lia)).
    destruct (Z.gtb_spec (ktime e) (rcv l)); [|unfold THRESH in *; lia].
    by destruct (Z.gtb_spec (ktime e - rcv l) THRESH); [|lia].
  - intros cpu. cbn [rx]. by rewrite rx_after_lookup, decide_True.
Qed.
End properties.

(** ** Witnesses: a packet that takes 25 ms from [ip_rcv] to delivery *)

Definition demo_state : state (htab 10000 Z rxlatency_t) (htab 10000 Z txlatency_t) :=
  State htab_empty htab_empty.
Definition demo_at (t : Z) : env := demo_env (mem_of []) 1 t.
Definition demo_pre : list (env * op) :=
  [(demo_at 1000, ip_rcv (demo_regs 64 0 0)); (demo_at 2000, ip_rcv_finish (demo_regs 0 0 64))].
Definition demo_last : op := ip_local_deliver_finish (demo_regs 0 0 64).
#[local] Existing Instance amd64_layout.

Lemma klat_demo_initial : initial demo_state.
Proof. split; intros; apply lookup_empty. Qed.

(** The packet passes all four stations. *)
Definition demo_journey : list (env * op) := demo_pre ++ [(demo_at 3000, ip_local_deliver (demo_regs 64 0 0))].

Lemma klat_event_sound_witness :
  let tr := demo_journey ++ [(demo_at 25001000, demo_last)] in
  let ev := kl_event (demo_at 25001000) 64 RX_KLATENCY 25000000 1000 2000 3000 25001000 in
  ev ∈ (run_calls handler tr demo_state).2 ∧
  ∃ pre e o post, tr = pre ++ (e, o) :: post ∧
    match o with
    | ip_local_deliver_finish _ => is_journey rx_passed RX1 RX2 RX3 RX_KLATENCY pre e o ev
    | ip_finish_output2 _ => is_journey tx_passed TX1 TX2 TX3 TX_KLATENCY pre e o ev
    | _ => False
    end.
Proof.
  intros tr ev. assert (ev ∈ (run_calls handler tr demo_state).2) as Hev by (vm_compute; left).
  split; [exact Hev|]. refine (klat_event_sound demo_state tr ev klat_demo_initial _ Hev).
  split; repeat constructor; simpl; lia.
Defined.

Lemma klat_rx_complete_witness :
  ∃ p2 p3, (run_calls handler (demo_pre ++ [(demo_at 25001000, demo_last)]) demo_state).2 =
    [] ++ [kl_event (demo_at 25001000) 64 RX_KLATENCY 25000000 1000 p2 p3 25001000].
Proof.
  refine (proj1 (klat_rx_complete demo_state demo_pre (demo_at 25001000) (demo_regs 0 0 64) 1000
    klat_demo_initial _ _ _ _ _)).
  - split; simpl; lia.
  - lia.
  - vm_compute. eauto.
  - apply last_open_latest. done.
  - unfold THRESH. simpl. lia.
Defined.
End KernelLatency.
