(* ===== verification/Softirq.v ===== *)
(** src/bpf/softirq.c: delay of a soft interrupt between raise and entry, and
    its execution time.

    State: the per-CPU hash [insp_softirq_entry], keyed by vector and phase.
    A per-CPU hash has one key set for all CPUs, so a raise, entry or exit on
    one CPU is visible to the others; [owner] and [running] describe exactly
    what the map holds after any interleaving, and the theorems derive which
    delays are reported and which are lost. *)

From S2P Require Import Prelude CLayout KernelMem BpfMaps BpfRuntime Intervals.

Module Softirq.

Definition PHASE_SCHED : Z := 1.
Definition PHASE_EXCUTE : Z := 2.
Definition SOFTIRQ_THRESH : Z := 10000000.

Record softirq_args := SoftirqArgs { pad : Z; vec : Z }.

Record insp_softirq_entry_key := EntryKey { k_vec_nr : Z; k_phase : Z }.

Record insp_softirq_event_t := SoftirqEvent {
  pid : Z;
  cpu : Z;
  phase : Z;
  vec_nr : Z;
  latency : Z;
}.

#[global] Instance insp_softirq_entry_key_eq_dec : EqDecision insp_softirq_entry_key.
Proof. solve_decision. Defined.
#[global] Instance insp_softirq_entry_key_countable : Countable insp_softirq_entry_key.
Proof.
  apply (inj_countable' (λ k, (k_vec_nr k, k_phase k)) (λ '(a, b), EntryKey a b)). by intros [].
Defined.
#[global] Instance insp_softirq_event_t_eq_dec : EqDecision insp_softirq_event_t.
Proof. solve_decision. Defined.

Section probe.
(** A constant that the loader rewrites; its default is 0x8, net_rx. *)
Context (irq_filter_bits : Z).
Context {M : Type} `{!BpfMap M insp_softirq_entry_key Z}.

Definition filter_irqs (vec_nr : Z) : bool :=
  negb (Z.land irq_filter_bits (u32 (Z.shiftl 1 vec_nr)) =? 0).

(** The only map of the file is the state itself. *)
Definition insp_softirq_entry : lens M M := Lens id (λ m _, m).

Abbreviation prog' := (prog M insp_softirq_event_t).

Definition report_softirq_events (latency phase vec_nr : Z) : prog' unit :=
  pid_tgid ← bpf_get_current_pid_tgid;
  bpf_perf_event_output (SoftirqEvent (u32 (Z.shiftr pid_tgid 32)) 0 phase vec_nr latency).

Definition trace_softirq_raise (ctx : softirq_args) : prog' Z :=
  let vec_nr := vec ctx in
  if negb (filter_irqs vec_nr) then mret 0 else
  ts ← bpf_ktime_get_ns;
  let key := EntryKey vec_nr PHASE_SCHED in
  _ ← map_update insp_softirq_entry key ts BPF_NOEXIST;
  mret 0.

Definition trace_softirq_entry (ctx : softirq_args) : prog' Z :=
  let vec_nr := vec ctx in
  if negb (filter_irqs vec_nr) then mret 0 else
  let key := EntryKey vec_nr PHASE_SCHED in
  ts ← bpf_ktime_get_ns;
  tsp ← map_lookup insp_softirq_entry key;
  _ ← match tsp with
      | Some t =>
          when (negb (t =? 0)) (
            let latency := u64 (ts - t) in
            when (latency >? SOFTIRQ_THRESH) (report_softirq_events latency PHASE_SCHED vec_nr))
      | None => mret tt
      end;
  _ ← map_delete insp_softirq_entry key;
  let key := EntryKey vec_nr PHASE_EXCUTE in
  _ ← map_update insp_softirq_entry key ts BPF_ANY;
  mret 0.

Definition trace_softirq_exit (ctx : softirq_args) : prog' Z :=
  let vec_nr := vec ctx in
  if negb (filter_irqs vec_nr) then mret 0 else
  let key := EntryKey vec_nr PHASE_EXCUTE in
  tsp ← map_lookup insp_softirq_entry key;
  match tsp with
  | None => mret 0
  | Some t =>
      if t =? 0 then mret 0 else
      ts ← bpf_ktime_get_ns;
      let latency := u64 (ts - t) in
      _ ← when (latency >? SOFTIRQ_THRESH) (report_softirq_events latency PHASE_EXCUTE vec_nr);
      _ ← map_delete insp_softirq_entry key;
      mret 0
  end.

Inductive op :=
  | softirq_raise (ctx : softirq_args)
  | softirq_entry (ctx : softirq_args)
  | softirq_exit (ctx : softirq_args).

Definition handler (o : op) : prog' Z :=
  match o with
  | softirq_raise ctx => trace_softirq_raise ctx
  | softirq_entry ctx => trace_softirq_entry ctx
  | softirq_exit ctx => trace_softirq_exit ctx
  end.
End probe.

(** ** Specification vocabulary *)

Definition op_vec (o : op) : Z :=
  match o with softirq_raise ctx | softirq_entry ctx | softirq_exit ctx => vec ctx end.

(** The pending raise of a vector: the CPU and time of the first raise since
    the latest entry, on whatever CPU. *)
Definition owner_step (v : Z) (cur : option (Z * Z)) (c : env * op) : option (Z * Z) :=
  if op_vec c.2 =? v then
    match c.2 with
    | softirq_raise _ => match cur with Some _ => cur | None => Some (smp_id c.1, ktime c.1) end
    | softirq_entry _ => None
    | softirq_exit _ => cur
    end
  else cur.
Definition owner (v : Z) (tr : list (env * op)) : option (Z * Z) := foldl (owner_step v) None tr.

(** The running handlers of a vector: the entry time on each CPU, all of them
    forgotten by an exit on a CPU that has one. *)
Definition running_step (v : Z) (cur : option (gmap Z Z)) (c : env * op) : option (gmap Z Z) :=
  if op_vec c.2 =? v then
    match c.2 with
    | softirq_raise _ => cur
    | softirq_entry _ => Some (<[smp_id c.1 := ktime c.1]> (default ∅ cur))
    | softirq_exit _ =>
        match cur with
        | Some slots => if default 0 (slots !! smp_id c.1) =? 0 then cur else None
        | None => None
        end
    end
  else cur.
Definition running (v : Z) (tr : list (env * op)) : option (gmap Z Z) := foldl (running_step v) None tr.

Definition softirq_event (e : env) (v ph lat : Z) : insp_softirq_event_t :=
  SoftirqEvent (u32 (Z.shiftr (pid_tgid e) 32)) 0 ph v lat.

(** ** Lemmas *)

Section run_lemmas.
Context (irq_filter_bits : Z) {M : Type} `{!BpfMap M insp_softirq_entry_key Z}.
Implicit Types (m : M) (c : env * op).

Definition map_after c m : M :=
  let v := op_vec c.2 in let cpu := smp_id c.1 in
  match c.2 with
  | softirq_raise _ =>
      (bpf_map_update_elem cpu m (EntryKey v PHASE_SCHED) (ktime c.1) BPF_NOEXIST).1
  | softirq_entry _ =>
      (bpf_map_update_elem cpu (bpf_map_delete_elem cpu m (EntryKey v PHASE_SCHED)).1
         (EntryKey v PHASE_EXCUTE) (ktime c.1) BPF_ANY).1
  | softirq_exit _ =>
      if default 0 (bpf_map_lookup_elem cpu m (EntryKey v PHASE_EXCUTE)) =? 0 then m
      else (bpf_map_delete_elem cpu m (EntryKey v PHASE_EXCUTE)).1
  end.

(** The time stamp that a call measures against, and the phase it reports. *)
Definition measured c m : option (Z * Z) :=
  let v := op_vec c.2 in let cpu := smp_id c.1 in
  match c.2 with
  | softirq_raise _ => None
  | softirq_entry _ => (PHASE_SCHED,.) <$> bpf_map_lookup_elem cpu m (EntryKey v PHASE_SCHED)
  | softirq_exit _ => (PHASE_EXCUTE,.) <$> bpf_map_lookup_elem cpu m (EntryKey v PHASE_EXCUTE)
  end.

Definition measure_events (c : env * op) (o : option (Z * Z)) : list insp_softirq_event_t :=
  match o with
  | Some (ph, t) =>
      if negb (t =? 0) && (u64 (ktime c.1 - t) >? SOFTIRQ_THRESH)
      then [softirq_event c.1 (op_vec c.2) ph (u64 (ktime c.1 - t))] else []
  | None => []
  end.

Lemma softirq_handler_run c m :
  handler irq_filter_bits c.2 c.1 m =
  if filter_irqs irq_filter_bits (op_vec c.2)
  then (0, map_after c m, measure_events c (measured c m)) else (0, m, []).
Proof.
  destruct c as [e o]. unfold map_after, measured, measure_events. destruct o as [ctx|ctx|ctx]; simpl;
    unfold trace_softirq_raise, trace_softirq_entry, trace_softirq_exit, report_softirq_events;
    unfold_prog; simpl; destruct (filter_irqs irq_filter_bits (vec ctx)); simpl; try done.
  - by destruct (bpf_map_update_elem _ _ _ _ _).
  - destruct (bpf_map_lookup_elem _ _ _) as [t|]; simpl;
      [destruct (t =? 0); simpl; [|destruct (_ >? SOFTIRQ_THRESH); simpl]|];
      destruct (bpf_map_delete_elem _ _ _) as [m1 r1]; simpl; by destruct (bpf_map_update_elem _ _ _ _ _).
  - destruct (bpf_map_lookup_elem _ _ _) as [t|]; simpl; [|done].
    destruct (t =? 0); simpl; [done|].
    destruct (_ >? SOFTIRQ_THRESH); simpl; by destruct (bpf_map_delete_elem _ _ _).
Qed.
End run_lemmas.

(** Only 32 vectors can pass the filter, so the map needs at most 64 keys,
    which is its size. *)
Lemma filter_irqs_range (bits v : Z) : filter_irqs bits v = true -> 0 <= v < 32.
Proof.
  unfold filter_irqs. intros H%negb_true_iff%Z.eqb_neq.
  destruct (Z.leb_spec 0 v); [|by rewrite Z.shiftl_1_l, Z.pow_neg_r, wrap_0, Z.land_0_r in H by lia].
  destruct (Z.ltb_spec v 32); [done|].
  rewrite Z.shiftl_1_l in H. unfold wrap in H.
  replace v with (32 + (v - 32)) in H by lia.
  rewrite Z.pow_add_r, Z.mul_comm, Z.mod_mul, Z.land_0_r in H by lia. done.
Qed.

Definition valid_keys : gset insp_softirq_entry_key :=
  list_to_set (seqZ 0 32 ≫= λ v, [EntryKey v PHASE_SCHED; EntryKey v PHASE_EXCUTE]).

Lemma valid_keys_size : size valid_keys = 64%nat.
Proof. vm_compute. done. Qed.

Lemma valid_keys_elem (v ph : Z) :
  0 <= v < 32 -> ph = PHASE_SCHED ∨ ph = PHASE_EXCUTE -> EntryKey v ph ∈ valid_keys.
Proof.
  intros Hv Hph. unfold valid_keys. apply elem_of_list_to_set, list_elem_of_bind.
  exists v. split; [destruct Hph as [-> | ->]; set_solver|]. apply elem_of_seqZ. lia.
Qed.

Definition entry_map : Type := percpu_htab 64 insp_softirq_entry_key Z.

Lemma room (m : entry_map) (k : insp_softirq_entry_key) :
  dom (percpu_elems m) ⊆ valid_keys -> k ∈ valid_keys -> percpu_elems m !! k = None ->
  percpu_full m = false.
Proof.
  intros Hd Hk Hn. unfold percpu_full. apply N.leb_gt.
  assert (dom (percpu_elems m) ⊆ valid_keys ∖ {[k]}) as Hs.
  { apply not_elem_of_dom in Hn. set_solver. }
  apply subseteq_size in Hs. rewrite size_difference, size_singleton, valid_keys_size in Hs by set_solver.
  rewrite size_dom in Hs. lia.
Qed.

Section exact.
Context (irq_filter_bits : Z).
Implicit Types (m : entry_map) (c : env * op) (tr : list (env * op)).

(** The map after the calls [tr] is the one that [owner] and [running]
    describe. *)
Definition represents tr m : Prop :=
  dom (percpu_elems m) ⊆ valid_keys ∧
  ∀ v, filter_irqs irq_filter_bits v = true ->
    percpu_elems m !! EntryKey v PHASE_SCHED = (λ p : Z * Z, {[p.1 := p.2]}) <$> owner v tr ∧
    percpu_elems m !! EntryKey v PHASE_EXCUTE = running v tr.

Lemma owner_snoc (v : Z) tr c : owner v (tr ++ [c]) = owner_step v (owner v tr) c.
Proof. unfold owner. by rewrite foldl_app. Qed.
Lemma running_snoc (v : Z) tr c : running v (tr ++ [c]) = running_step v (running v tr) c.
Proof. unfold running. by rewrite foldl_app. Qed.

(** The three map operations of the handlers, on the elements. *)
Lemma raise_elems m (cpu t v : Z) :
  dom (percpu_elems m) ⊆ valid_keys -> 0 <= v < 32 ->
  percpu_elems (bpf_map_update_elem cpu m (EntryKey v PHASE_SCHED) t BPF_NOEXIST).1 =
  match percpu_elems m !! EntryKey v PHASE_SCHED with
  | Some _ => percpu_elems m
  | None => <[EntryKey v PHASE_SCHED := {[cpu := t]}]> (percpu_elems m)
  end.
Proof.
  intros Hd Hv. simpl. unfold percpu_update. rewrite update_errno_noexist.
  destruct (percpu_elems m !! EntryKey v PHASE_SCHED) eqn:E.
  - by rewrite bool_decide_true by eauto.
  - rewrite bool_decide_false by (by intros [? ?]).
    rewrite (room _ _ Hd (valid_keys_elem v PHASE_SCHED Hv (or_introl eq_refl)) E). done.
Qed.

Lemma entry_elems m (cpu t v : Z) :
  dom (percpu_elems m) ⊆ valid_keys -> 0 <= v < 32 ->
  percpu_elems (bpf_map_update_elem cpu m (EntryKey v PHASE_EXCUTE) t BPF_ANY).1 =
  <[EntryKey v PHASE_EXCUTE := <[cpu := t]> (default ∅ (percpu_elems m !! EntryKey v PHASE_EXCUTE))]>
    (percpu_elems m).
Proof.
  intros Hd Hv. simpl. unfold percpu_update. rewrite update_errno_any.
  destruct (percpu_elems m !! EntryKey v PHASE_EXCUTE) eqn:E.
  - by rewrite bool_decide_true by eauto.
  - rewrite bool_decide_false by (by intros [? ?]).
    rewrite (room _ _ Hd (valid_keys_elem v PHASE_EXCUTE Hv (or_intror eq_refl)) E). done.
Qed.

Lemma key_sched_exec (v v' : Z) : EntryKey v PHASE_SCHED ≠ EntryKey v' PHASE_EXCUTE.
Proof. by intros [=]. Qed.
Lemma key_ne (v v' ph : Z) : v ≠ v' -> EntryKey v ph ≠ EntryKey v' ph.
Proof. by intros ? [=]. Qed.

(** A call changes what is stored under the two keys of its vector only. *)
Lemma entry_update tr c m (m' : entry_map) :
  represents tr m -> dom (percpu_elems m') ⊆ valid_keys ->
  (∀ k, k_vec_nr k ≠ op_vec c.2 -> percpu_elems m' !! k = percpu_elems m !! k) ->
  percpu_elems m' !! EntryKey (op_vec c.2) PHASE_SCHED =
    (λ p : Z * Z, {[p.1 := p.2]}) <$> owner (op_vec c.2) (tr ++ [c]) ->
  percpu_elems m' !! EntryKey (op_vec c.2) PHASE_EXCUTE = running (op_vec c.2) (tr ++ [c]) ->
  represents (tr ++ [c]) m'.
Proof.
  intros [_ Hm] Hd Hne HS HX. split; [done|]. intros v Hv.
  destruct (Z.eq_dec (op_vec c.2) v) as [<-|E]; [done|].
  rewrite !Hne by done. destruct (Hm v Hv) as [-> ->].
  rewrite owner_snoc, running_snoc. unfold owner_step, running_step.
  by rewrite (proj2 (Z.eqb_neq _ _) E).
Qed.

Local Ltac represent tr c m :=
  apply (entry_update tr c m); [done|..]; rewrite ?owner_snoc, ?running_snoc;
  unfold owner_step, running_step; cbn [fst snd op_vec]; rewrite ?Z.eqb_refl.

Lemma represents_raise tr e (ctx : softirq_args) m :
  represents tr m -> filter_irqs irq_filter_bits (vec ctx) = true ->
  represents (tr ++ [(e, softirq_raise ctx)])
    (bpf_map_update_elem (smp_id e) m (EntryKey (vec ctx) PHASE_SCHED) (ktime e) BPF_NOEXIST).1.
Proof.
  intros Hrep Hf. pose proof Hrep as [Hd Hm]. destruct (Hm _ Hf) as [HS HX].
  pose proof (filter_irqs_range _ _ Hf) as Hr.
  pose proof (valid_keys_elem (vec ctx) PHASE_SCHED Hr (or_introl eq_refl)) as Hk.
  represent tr (e, softirq_raise ctx) m; rewrite raise_elems by done;
    destruct (owner (vec ctx) tr) as [p|]; simpl in HS; rewrite HS; try done.
  - rewrite dom_insert. set_solver.
  - intros k Hne. apply lookup_insert_ne. intros <-. done.
  - apply lookup_insert_eq.
  - by rewrite lookup_insert_ne by apply key_sched_exec.
Qed.

Lemma represents_entry tr e (ctx : softirq_args) m :
  represents tr m -> filter_irqs irq_filter_bits (vec ctx) = true ->
  represents (tr ++ [(e, softirq_entry ctx)])
    (bpf_map_update_elem (smp_id e) (bpf_map_delete_elem (smp_id e) m (EntryKey (vec ctx) PHASE_SCHED)).1
       (EntryKey (vec ctx) PHASE_EXCUTE) (ktime e) BPF_ANY).1.
Proof.
  intros Hrep Hf. pose proof Hrep as [Hd Hm]. destruct (Hm _ Hf) as [HS HX].
  pose proof (filter_irqs_range _ _ Hf) as Hr.
  pose proof (valid_keys_elem (vec ctx) PHASE_EXCUTE Hr (or_intror eq_refl)) as Hk.
  assert (dom (delete (EntryKey (vec ctx) PHASE_SCHED) (percpu_elems m)) ⊆ valid_keys) as Hd'.
  { rewrite dom_delete. set_solver. }
  represent tr (e, softirq_entry ctx) m; rewrite entry_elems by done; simpl.
  - rewrite dom_insert. set_solver.
  - intros k Hne. rewrite lookup_insert_ne, lookup_delete_ne by (by intros <-). done.
  - rewrite lookup_insert_ne by (apply not_eq_sym, key_sched_exec). apply lookup_delete_eq.
  - rewrite lookup_insert_eq, lookup_delete_ne by apply key_sched_exec. by rewrite HX.
Qed.

Lemma represents_exit tr e (ctx : softirq_args) m :
  represents tr m -> filter_irqs irq_filter_bits (vec ctx) = true ->
  represents (tr ++ [(e, softirq_exit ctx)])
    (if default 0 (bpf_map_lookup_elem (smp_id e) m (EntryKey (vec ctx) PHASE_EXCUTE)) =? 0 then m
     else (bpf_map_delete_elem (smp_id e) m (EntryKey (vec ctx) PHASE_EXCUTE)).1).
Proof.
  intros Hrep Hf. pose proof Hrep as [Hd Hm]. destruct (Hm _ Hf) as [HS HX].
  simpl. unfold percpu_lookup. rewrite HX.
  represent tr (e, softirq_exit ctx) m; destruct (running (vec ctx) tr) as [slots|]; simpl; try done;
    destruct (default 0 (slots !! smp_id e) =? 0) eqn:E; unfold zeroed, Z_zeroed; rewrite ?E; simpl; try done.
  - rewrite dom_delete. set_solver.
  - intros k Hne. apply lookup_delete_ne. by intros <-.
  - by rewrite lookup_delete_ne by (apply not_eq_sym, key_sched_exec).
  - apply lookup_delete_eq.
Qed.

Lemma represents_step tr c m :
  represents tr m -> represents (tr ++ [c]) (handler irq_filter_bits c.2 c.1 m).1.2.
Proof.
  intros Hrep. pose proof Hrep as [Hd Hm]. rewrite softirq_handler_run.
  destruct (filter_irqs irq_filter_bits (op_vec c.2)) eqn:Hf; cbn [fst snd].
  2: { split; [done|]. intros v Hv. rewrite owner_snoc, running_snoc. unfold owner_step, running_step.
       destruct (Z.eqb_spec (op_vec c.2) v); [congruence|]. by apply Hm. }
  pose proof (filter_irqs_range _ _ Hf) as Hr. destruct (Hm _ Hf) as [HS HX].
  destruct c as [e o]. destruct o as [ctx|ctx|ctx]; unfold map_after; cbn [fst snd op_vec] in *.
  - by apply represents_raise.
  - by apply represents_entry.
  - by apply represents_exit.
Qed.

Abbreviation run tr := (run_calls (handler irq_filter_bits) tr (percpu_empty : entry_map)).

Lemma represents_run tr : represents tr (run tr).1.
Proof.
  revert tr. apply run_calls_history.
  - split; simpl; [by rewrite dom_empty|]. intros v _. by rewrite !lookup_empty.
  - intros. by apply represents_step.
Qed.

(** The measurement of a call, from the history alone. *)
Definition history_measured tr c : option (Z * Z) :=
  match c.2 with
  | softirq_raise _ => None
  | softirq_entry _ =>
      '(cpu, t) ← owner (op_vec c.2) tr; if cpu =? smp_id c.1 then Some (PHASE_SCHED, t) else None
  | softirq_exit _ => slots ← running (op_vec c.2) tr; t ← slots !! smp_id c.1; Some (PHASE_EXCUTE, t)
  end.

Lemma handler_events tr c m :
  represents tr m -> filter_irqs irq_filter_bits (op_vec c.2) = true ->
  measure_events c (measured c m) = measure_events c (history_measured tr c).
Proof.
  intros [_ Hm] Hf. destruct (Hm _ Hf) as [HS HX]. unfold measured, history_measured.
  destruct c as [e o]. destruct o as [ctx|ctx|ctx]; cbn [fst snd op_vec] in *; [done|..];
    simpl; unfold percpu_lookup; rewrite ?HS, ?HX.
  - destruct (owner (vec ctx) tr) as [[cpu t]|]; simpl; [|done].
    destruct (Z.eqb_spec cpu (smp_id e)) as [->|].
    + by rewrite lookup_singleton_eq.
    + by rewrite lookup_singleton_ne by done.
  - destruct (running (vec ctx) tr) as [slots|]; simpl; [|done]. by destruct (slots !! smp_id e).
Qed.

Lemma run_snoc_events tr c :
  (run (tr ++ [c])).2 = (run tr).2 ++
    if filter_irqs irq_filter_bits (op_vec c.2) then measure_events c (history_measured tr c) else [].
Proof.
  pose proof (represents_run tr) as Hr. rewrite run_calls_snoc. destruct (run tr) as [m o].
  rewrite softirq_handler_run. destruct (filter_irqs irq_filter_bits (op_vec c.2)) eqn:Hf; [|done]. simpl.
  by rewrite (handler_events tr).
Qed.
End exact.

(** What [owner] and [running] mean. *)
Lemma owner_since (v cpu t : Z) (tr : list (env * op)) :
  owner v tr = Some (cpu, t) ->
  ∃ pre e ctx mid, tr = pre ++ (e, softirq_raise ctx) :: mid ∧ vec ctx = v ∧ smp_id e = cpu ∧
    ktime e = t ∧ Forall (λ c, op_vec c.2 = v -> match c.2 with softirq_entry _ => False | _ => True end) mid.
Proof.
  induction tr as [|c tr IH] using rev_ind; [done|]. rewrite owner_snoc. unfold owner_step.
  assert (owner v tr = Some (cpu, t) ->
    (op_vec c.2 = v -> match c.2 with softirq_entry _ => False | _ => True end) ->
    ∃ pre e ctx mid, tr ++ [c] = pre ++ (e, softirq_raise ctx) :: mid ∧ vec ctx = v ∧ smp_id e = cpu ∧
    ktime e = t ∧ Forall (λ c, op_vec c.2 = v -> match c.2 with softirq_entry _ => False | _ => True end) mid)
    as Hext.
  { intros (pre & e & ctx & mid & -> & Hv & Hc & Ht & Hm)%IH Hn. exists pre, e, ctx, (mid ++ [c]).
    rewrite <- app_assoc. split_and!; [done..|]. apply Forall_app. auto. }
  destruct (Z.eqb_spec (op_vec c.2) v) as [Hv|]; [|intros; by apply Hext].
  destruct c as [e o]. destruct o as [ctx|ctx|ctx]; simpl in *; [|done|intros; by apply Hext].
  destruct (owner v tr) as [p|] eqn:E; [intros; by apply Hext|].
  intros [= <- <-]. exists tr, e, ctx, []. by split_and!.
Qed.

Lemma running_since (v cpu t : Z) (slots : gmap Z Z) (tr : list (env * op)) :
  running v tr = Some slots -> slots !! cpu = Some t -> t ≠ 0 ->
  ∃ pre e ctx mid, tr = pre ++ (e, softirq_entry ctx) :: mid ∧ vec ctx = v ∧ smp_id e = cpu ∧
    ktime e = t ∧
    Forall (λ c, op_vec c.2 = v -> smp_id c.1 = cpu -> match c.2 with softirq_raise _ => True | _ => False end) mid.
Proof.
  revert slots. induction tr as [|c tr IH] using rev_ind; [done|]. intros slots.
  rewrite running_snoc. unfold running_step.
  assert (∀ slots, running v tr = Some slots -> slots !! cpu = Some t -> t ≠ 0 ->
    (op_vec c.2 = v -> smp_id c.1 = cpu -> match c.2 with softirq_raise _ => True | _ => False end) ->
    ∃ pre e ctx mid, tr ++ [c] = pre ++ (e, softirq_entry ctx) :: mid ∧ vec ctx = v ∧ smp_id e = cpu ∧
    ktime e = t ∧
    Forall (λ c, op_vec c.2 = v -> smp_id c.1 = cpu -> match c.2 with softirq_raise _ => True | _ => False end) mid)
    as Hext.
  { intros sl H1 H2 H3 Hn. destruct (IH sl H1 H2 H3) as (pre & e & ctx & mid & -> & Hv & Hc & Ht & Hm).
    exists pre, e, ctx, (mid ++ [c]).
    rewrite <- app_assoc. split_and!; [done..|]. apply Forall_app. auto. }
  destruct (Z.eqb_spec (op_vec c.2) v) as [Hv|]; [|intros; by eapply Hext].
  destruct c as [e o]. destruct o as [ctx|ctx|ctx]; simpl in *.
  - intros. by eapply Hext.
  - intros [= <-]. rewrite lookup_insert. destruct (decide (smp_id e = cpu)) as [Hc|Hc].
    + intros [= <-] _. exists tr, e, ctx, []. by split_and!.
    + destruct (running v tr) as [sl|]; simpl; [|by rewrite lookup_empty]. intros. by eapply Hext.
  - destruct (running v tr) as [sl|] eqn:E; [|done].
    destruct (Z.eqb_spec (default 0 (sl !! smp_id e)) 0) as [Hz|]; [|done].
    intros [= <-] Hs Ht. eapply Hext; [done..|]. intros _ Hcpu. rewrite Hcpu, Hs in Hz. done.
Qed.

(** The opening call of a phase and the calls that may not intervene. *)
Definition opening (o o1 : op) : Prop :=
  match o, o1 with
  | softirq_entry _, softirq_raise _ | softirq_exit _, softirq_entry _ => True
  | _, _ => False
  end.
Definition undisturbed (cpu v : Z) (o : op) (c : env * op) : Prop :=
  match o, c.2 with
  | softirq_entry _, softirq_entry _ => op_vec c.2 ≠ v
  | softirq_exit _, softirq_entry _ | softirq_exit _, softirq_exit _ => op_vec c.2 = v -> smp_id c.1 ≠ cpu
  | _, _ => True
  end.

(** ** Properties *)

(** C24: exact state under any interleaving of CPUs.  After any sequence of
    raises, entries and exits on any CPUs, the 64-entry map never refuses a
    key for want of room, and holds for every enabled vector exactly the
    pending raise (its CPU and time only) and the entry times of the running
    handlers. *)
Theorem softirq_map_exact (irq_filter_bits : Z) (tr : list (env * op)) :
  let m := (run_calls (handler irq_filter_bits) tr (percpu_empty : entry_map)).1 in
  (N.of_nat (size (percpu_elems m)) <= 64)%N ∧
  ∀ v, filter_irqs irq_filter_bits v = true ->
    percpu_elems m !! EntryKey v PHASE_SCHED = (λ p : Z * Z, {[p.1 := p.2]}) <$> owner v tr ∧
    percpu_elems m !! EntryKey v PHASE_EXCUTE = running v tr.
Proof.
  intros m. destruct (represents_run irq_filter_bits tr) as [Hd Hm]. split; [|done].
  apply subseteq_size in Hd. rewrite size_dom, valid_keys_size in Hd. fold m in Hd. lia.
Qed.

(** Every reported softirq latency is a true interval on one CPU: from
    a raise to the next entry of the same vector (no entry of it on any CPU
    between), or from an entry to the exit on the same CPU (no entry or exit
    of it on that CPU between), longer than 10 ms. *)
Theorem softirq_event_sound (irq_filter_bits : Z) (tr : list (env * op)) (ev : insp_softirq_event_t)
    (Hev : ev ∈ (run_calls (handler irq_filter_bits) tr (percpu_empty : entry_map)).2) :
  ∃ pre e1 o1 mid e o post ph,
    tr = pre ++ (e1, o1) :: mid ++ (e, o) :: post ∧ opening o o1 ∧
    op_vec o1 = op_vec o ∧ smp_id e1 = smp_id e ∧
    Forall (undisturbed (smp_id e) (op_vec o) o) mid ∧
    ev = softirq_event e (op_vec o) ph (u64 (ktime e - ktime e1)) ∧ SOFTIRQ_THRESH < latency ev.
Proof.
  induction tr as [|c tr IH] using rev_ind; [by apply elem_of_nil in Hev|].
  rewrite run_snoc_events in Hev. apply elem_of_app in Hev as [Hev|Hev].
  { destruct (IH Hev) as (pre & e1 & o1 & mid & e & o & post & ph & -> & H).
    exists pre, e1, o1, mid, e, o, (post ++ [c]), ph. split; [|done].
    by rewrite <- (app_assoc pre), <- app_comm_cons, <- (app_assoc mid). }
  destruct (filter_irqs _ _); [|by apply elem_of_nil in Hev]. destruct c as [e o].
  assert (∃ ph t, history_measured tr (e, o) = Some (ph, t) ∧ t ≠ 0 ∧
    ev = softirq_event e (op_vec o) ph (u64 (ktime e - t)) ∧ SOFTIRQ_THRESH < latency ev)
    as (ph & t & Hm & Ht & -> & Hlat).
  { unfold measure_events in Hev. destruct (history_measured tr (e, o)) as [[ph t]|]; [|by apply elem_of_nil in Hev].
    simpl in Hev. destruct (Z.eqb_spec t 0); [by apply elem_of_nil in Hev|]. simpl in Hev.
    destruct (Z.gtb_spec (u64 (ktime e - t)) SOFTIRQ_THRESH); [|by apply elem_of_nil in Hev].
    apply list_elem_of_singleton in Hev as ->. eauto 8. }
  unfold history_measured in Hm. destruct o as [ctx|ctx|ctx]; simpl in Hm; [done|..].
  - destruct (owner (vec ctx) tr) as [[cpu t']|] eqn:E; simpl in Hm; [|done].
    destruct (Z.eqb_spec cpu (smp_id e)) as [->|]; [|done]. injection Hm as <- ->.
    apply owner_since in E as (pre & e1 & ctx1 & mid & -> & Hv & Hc & <- & Hmid).
    exists pre, e1, (softirq_raise ctx1), mid, e, (softirq_entry ctx), [], PHASE_SCHED.
    split; [by rewrite <- app_assoc|]. split_and!; [done..| |done|done].
    eapply Forall_impl; [exact Hmid|]. intros [e' [c'|c'|c']]; unfold undisturbed; simpl; auto.
  - destruct (running (vec ctx) tr) as [slots|] eqn:E; simpl in Hm; [|done].
    destruct (slots !! smp_id e) as [t'|] eqn:Es; simpl in Hm; [|done]. injection Hm as <- ->.
    apply (running_since _ _ _ _ _ E Es) in Ht as (pre & e1 & ctx1 & mid & -> & Hv & Hc & <- & Hmid).
    exists pre, e1, (softirq_entry ctx1), mid, e, (softirq_exit ctx), [], PHASE_EXCUTE.
    split; [by rewrite <- app_assoc|]. split_and!; [done..| |done|done].
    eapply Forall_impl; [exact Hmid|]. intros [e' [c'|c'|c']]; unfold undisturbed; simpl; auto.
Qed.

(** Raises on two CPUs hide each other.  A delay of CPU [c0] between
    raise and entry that is reported when [c0] is alone is lost when another
    CPU raises and enters the same vector in between: its raise is refused
    (the key exists), its entry finds a zero slot and deletes the key for all
    CPUs, so neither delay is reported, however long. *)
Theorem softirq_lost_on_two_cpus (irq_filter_bits : Z) (ctx : softirq_args) (e0 e1 e2 e3 : env)
    (Hf : filter_irqs irq_filter_bits (vec ctx) = true)
    (H03 : smp_id e0 = smp_id e3) (H12 : smp_id e1 = smp_id e2) (H01 : smp_id e0 ≠ smp_id e1)
    (Ht : ktime e0 ≠ 0) (Hlat : SOFTIRQ_THRESH < u64 (ktime e3 - ktime e0)) :
  let run tr := run_calls (handler irq_filter_bits) tr (percpu_empty : entry_map) in
  (run [(e0, softirq_raise ctx); (e3, softirq_entry ctx)]).2 =
    [softirq_event e3 (vec ctx) PHASE_SCHED (u64 (ktime e3 - ktime e0))] ∧
  (run [(e0, softirq_raise ctx); (e1, softirq_raise ctx); (e2, softirq_entry ctx);
        (e3, softirq_entry ctx)]).2 = [].
Proof.
  intros run. split.
  - change [(e0, softirq_raise ctx); (e3, softirq_entry ctx)]
      with ([(e0, softirq_raise ctx)] ++ [(e3, softirq_entry ctx)]).
    change [(e0, softirq_raise ctx)] with ([] ++ [(e0, softirq_raise ctx)]).
    unfold run. rewrite !run_snoc_events. simpl. rewrite Hf. unfold measure_events, history_measured. simpl.
    unfold owner. simpl. unfold owner_step. simpl. rewrite Z.eqb_refl. simpl.
    rewrite H03, Z.eqb_refl. simpl. rewrite (proj2 (Z.eqb_neq _ _) Ht). simpl.
    by destruct (Z.gtb_spec (u64 (ktime e3 - ktime e0)) SOFTIRQ_THRESH); [|lia].
  - change [(e0, softirq_raise ctx); (e1, softirq_raise ctx); (e2, softirq_entry ctx);
        (e3, softirq_entry ctx)] with (((([] ++ [(e0, softirq_raise ctx)]) ++ [(e1, softirq_raise ctx)]) ++
        [(e2, softirq_entry ctx)]) ++ [(e3, softirq_entry ctx)]).
    unfold run. rewrite !run_snoc_events. simpl. rewrite Hf. unfold measure_events, history_measured. simpl.
    unfold owner. simpl. unfold owner_step. simpl. rewrite !Z.eqb_refl. simpl.
    rewrite <- H12. by rewrite (proj2 (Z.eqb_neq _ _) H01).
Qed.

(** The CPU number of a softirq event is always 0:
    [report_softirq_events] never sets [event.cpu], which the agent prints. *)
Theorem softirq_event_cpu_zero (irq_filter_bits : Z) (tr : list (env * op)) :
  Forall (λ ev, cpu ev = 0)
    (run_calls (handler irq_filter_bits) tr (percpu_empty : entry_map)).2.
Proof.
  induction tr as [|c tr IH] using rev_ind; [done|]. rewrite run_snoc_events.
  apply Forall_app. split; [done|]. destruct (filter_irqs _ _); [|done].
  unfold measure_events. destruct (history_measured tr c) as [[ph t]|]; [|done].
  destruct (_ && _); [|done]. by constructor.
Qed.

(** ** Witnesses: net_rx (vector 3) with the default filter *)

Definition demo_at (c t : Z) : env := demo_env (mem_of []) c t.
Definition demo_args : softirq_args := SoftirqArgs 0 3.

Lemma softirq_event_sound_witness :
  let tr := [(demo_at 2 50, softirq_raise demo_args); (demo_at 2 20000050, softirq_entry demo_args)] in
  let ev := SoftirqEvent 4242 0 PHASE_SCHED 3 20000000 in
  ev ∈ (run_calls (handler 0x8) tr (percpu_empty : entry_map)).2 ∧
  ∃ pre e1 o1 mid e o post ph,
    tr = pre ++ (e1, o1) :: mid ++ (e, o) :: post ∧ opening o o1 ∧
    op_vec o1 = op_vec o ∧ smp_id e1 = smp_id e ∧
    Forall (undisturbed (smp_id e) (op_vec o) o) mid ∧
    ev = softirq_event e (op_vec o) ph (u64 (ktime e - ktime e1)) ∧ SOFTIRQ_THRESH < latency ev.
Proof.
  intros tr ev. assert (ev ∈ (run_calls (handler 0x8) tr (percpu_empty : entry_map)).2) as Hev
    by (vm_compute; left).
  split; [exact Hev|]. exact (softirq_event_sound 0x8 tr ev Hev).
Defined.

Lemma softirq_lost_on_two_cpus_witness :
  (run_calls (handler 0x8)
    [(demo_at 0 1, softirq_raise demo_args); (demo_at 1 2, softirq_raise demo_args);
     (demo_at 1 3, softirq_entry demo_args); (demo_at 0 30000001, softirq_entry demo_args)]
    (percpu_empty : entry_map)).2 = [].
Proof.
  refine (proj2 (softirq_lost_on_two_cpus 0x8 demo_args (demo_at 0 1) (demo_at 1 2) (demo_at 1 3)
    (demo_at 0 30000001) _ _ _ _ _ _)); vm_compute; done.
Defined.
End Softirq.
