(* ===== verification/VirtcmdLatency.v ===== *)
(** src/bpf/virtcmdlatency.c: time a task spends in [virtnet_send_command].

    State: the per-CPU hash [insp_virtcmdlat] from thread id to start time.
    The function sleeps, so a task may return on another CPU than it started
    on; the theorems say what is reported then. *)

From S2P Require Import Prelude CLayout KernelMem BpfMaps BpfTracing BpfRuntime Intervals.

Module VirtcmdLatency.

Definition VIRTCMDLAT_THRESH : Z := 10000000.

Record insp_virtcmdlat_event_t := VirtcmdlatEvent { pid : Z; cpu : Z; latency : Z }.

#[global] Instance insp_virtcmdlat_event_t_eq_dec : EqDecision insp_virtcmdlat_event_t.
Proof. solve_decision. Defined.

Section probe.
Context {M : Type} `{!BpfMap M Z Z}.

Definition insp_virtcmdlat : lens M M := Lens id (λ m _, m).

Abbreviation prog' := (prog M insp_virtcmdlat_event_t).

Definition report_virtcmdlat_events (latency : Z) : prog' unit :=
  pid_tgid ← bpf_get_current_pid_tgid;
  cpu ← bpf_get_smp_processor_id;
  bpf_perf_event_output (VirtcmdlatEvent (u32 (Z.shiftr pid_tgid 32)) cpu latency).

Definition trace_virtcmd : prog' Z :=
  pid_tgid ← bpf_get_current_pid_tgid;
  let key := u32 pid_tgid in
  ts ← bpf_ktime_get_ns;
  _ ← map_update insp_virtcmdlat key ts BPF_ANY;
  mret 0.

Definition trace_virtcmdret (ctx : pt_regs) : prog' Z :=
  pid_tgid ← bpf_get_current_pid_tgid;
  let key := u32 pid_tgid in
  ts ← bpf_ktime_get_ns;
  tsp ← map_lookup insp_virtcmdlat key;
  match tsp with
  | Some t =>
      let latency := u64 (ts - t) in
      _ ← when (latency >? VIRTCMDLAT_THRESH) (report_virtcmdlat_events latency);
      _ ← map_delete insp_virtcmdlat key;
      mret 0
  | None => mret 0
  end.

Inductive op :=
  | virtnet_send_command
  | virtnet_send_command_ret (ctx : pt_regs).

Definition handler (o : op) : prog' Z :=
  match o with
  | virtnet_send_command => trace_virtcmd
  | virtnet_send_command_ret ctx => trace_virtcmdret ctx
  end.
End probe.

(** ** Specification vocabulary *)

Definition tid (c : env * op) : Z := u32 (pid_tgid c.1).

(** The start of a command on a given CPU, and the return on any CPU. *)
Definition starts_on (cpu : Z) (c : env * op) : option Z :=
  match c.2 with
  | virtnet_send_command => if smp_id c.1 =? cpu then Some (ktime c.1) else None
  | virtnet_send_command_ret _ => None
  end.
Definition returns (c : env * op) : bool :=
  match c.2 with virtnet_send_command => false | virtnet_send_command_ret _ => true end.

Definition virtcmd_event (e : env) (lat : Z) : insp_virtcmdlat_event_t :=
  VirtcmdlatEvent (u32 (Z.shiftr (pid_tgid e) 32)) (smp_id e) lat.

(** ** Lemmas *)

Section lemmas.
Context {M : Type} `{!BpfMap M Z Z, !PercpuLaws M Z Z}.
Implicit Types (m : M) (c : env * op) (tr : list (env * op)).

Definition map_after c m : M :=
  match c.2 with
  | virtnet_send_command => (bpf_map_update_elem (smp_id c.1) m (tid c) (ktime c.1) BPF_ANY).1
  | virtnet_send_command_ret _ =>
      if bpf_map_lookup_elem (smp_id c.1) m (tid c)
      then (bpf_map_delete_elem (smp_id c.1) m (tid c)).1 else m
  end.

Definition events_of c m : list insp_virtcmdlat_event_t :=
  match c.2, bpf_map_lookup_elem (smp_id c.1) m (tid c) with
  | virtnet_send_command_ret _, Some t =>
      if u64 (ktime c.1 - t) >? VIRTCMDLAT_THRESH then [virtcmd_event c.1 (u64 (ktime c.1 - t))] else []
  | _, _ => []
  end.

Lemma virtcmd_handler_run c m : handler c.2 c.1 m = (0, map_after c m, events_of c m).
Proof.
  destruct c as [e o]. unfold map_after, events_of. destruct o as [|ctx]; simpl;
    unfold trace_virtcmd, trace_virtcmdret, report_virtcmdlat_events; unfold_prog; simpl; unfold tid; simpl.
  - by destruct (bpf_map_update_elem _ _ _ _ _).
  - destruct (bpf_map_lookup_elem _ _ _) as [t|]; [|done].
    destruct (_ >? VIRTCMDLAT_THRESH); simpl; by destruct (bpf_map_delete_elem _ _ _).
Qed.

(** A slot is zero or holds the start of the thread's command on that CPU. *)
Definition slots_ok tr m : Prop := ∀ cpu k t,
  bpf_map_lookup_elem cpu m k = Some t -> t = 0 ∨ last_call tid (starts_on cpu) returns k tr = Some t.

Lemma percpu_absent m (cpu cpu' k : Z) :
  bpf_map_lookup_elem cpu m k = None -> bpf_map_lookup_elem cpu' m k = None.
Proof.
  intros Hn. destruct (bpf_map_lookup_elem cpu' m k) eqn:E; [|done].
  destruct (percpu_keys cpu' cpu m k) as [? ?]; [eauto|congruence].
Qed.

Lemma slots_ok_step tr c m : slots_ok tr m -> slots_ok (tr ++ [c]) (handler c.2 c.1 m).1.2.
Proof.
  intros IH cpu k t. rewrite virtcmd_handler_run. cbn [fst snd]. rewrite last_open_snoc. unfold open_step.
  destruct c as [e o]. destruct o as [|ctx]; unfold map_after, tid, starts_on, returns; cbn [fst snd].
  - destruct (decide (u32 (pid_tgid e) = k)) as [Hk|Hk]; [rewrite Hk|by rewrite percpu_update_ne; eauto].
    destruct (bpf_map_update_elem (smp_id e) m k (ktime e) BPF_ANY) as [m' r] eqn:E. cbn [fst].
    destruct (Z.eq_dec r 0) as [->|Hr].
    + destruct (Z.eqb_spec (smp_id e) cpu) as [<-|Hc].
      * rewrite (law_update_eq _ _ _ _ _ _ E). intros [= ->]. by right.
      * rewrite (percpu_update_other _ _ _ _ _ _ _ Hc E). intros [= <-].
        destruct (bpf_map_lookup_elem cpu m k) eqn:El; simpl; [by apply IH|by left].
    + pose proof (law_update_fail _ _ _ _ _ _ _ E Hr) as ->. intros Hl.
      destruct (percpu_keys cpu (smp_id e) m k) as [w Hw]; [eauto|].
      apply (law_update_any_present _ _ _ (ktime e)) in Hw. by rewrite E in Hw.
  - destruct (decide (u32 (pid_tgid e) = k)) as [Hk|Hk].
    + rewrite Hk. destruct (bpf_map_lookup_elem (smp_id e) m k) eqn:El.
      * by rewrite (percpu_absent _ (smp_id e) cpu) by apply law_delete_eq.
      * by rewrite (percpu_absent _ (smp_id e) cpu).
    + destruct (bpf_map_lookup_elem (smp_id e) m _); [rewrite percpu_delete_ne by done|]; apply IH.
Qed.
End lemmas.

(** ** Properties *)

Section properties.
Context {M : Type} `{!BpfMap M Z Z, !PercpuLaws M Z Z}.

(** What virtcmdlatency reports.  Every event comes from a return of
    [virtnet_send_command] and is longer than 10 ms; its latency is the time
    since the latest start of a command by the same thread on the same CPU
    with no return in between, or else the slot of this CPU was zero and the
    "latency" is the current time stamp itself. *)
Theorem virtcmd_event_sound (m0 : M) (tr : list (env * op)) (ev : insp_virtcmdlat_event_t)
    (H0 : ∀ cpu k, bpf_map_lookup_elem cpu m0 k = None) (Hev : ev ∈ (run_calls handler tr m0).2) :
  ∃ pre e ctx post t,
    tr = pre ++ (e, virtnet_send_command_ret ctx) :: post ∧
    ev = virtcmd_event e (u64 (ktime e - t)) ∧ VIRTCMDLAT_THRESH < latency ev ∧
    (t = 0 ∨ latest_call tid (starts_on (smp_id e)) returns (u32 (pid_tgid e)) pre t).
Proof.
  apply run_calls_events in Hev as (pre & [e o] & post & -> & Hev).
  rewrite virtcmd_handler_run in Hev. cbn [fst snd] in Hev. unfold events_of, tid in Hev. cbn [fst snd] in Hev.
  destruct o as [|ctx]; [by apply elem_of_nil in Hev|].
  destruct (bpf_map_lookup_elem _ _ _) as [t|] eqn:E; [|by apply elem_of_nil in Hev].
  destruct (Z.gtb_spec (u64 (ktime e - t)) VIRTCMDLAT_THRESH); [|by apply elem_of_nil in Hev].
  apply list_elem_of_singleton in Hev as ->. exists pre, e, ctx, post, t. split_and!; [done..|].
  rewrite <- last_open_latest. revert E. generalize (u32 (pid_tgid e)) t. generalize (smp_id e).
  revert pre. apply (run_calls_history handler slots_ok).
  - intros cpu k t'. by rewrite H0.
  - intros. by apply slots_ok_step.
Qed.

(** A migrating task is misreported.  If a thread starts a command on
    one CPU and returns on another one, the return reads the zero slot of its
    CPU: it reports the time since boot as latency, however short the command
    was. *)
Theorem virtcmd_migration (m0 m1 : M) (e0 e1 : env) (ctx : pt_regs)
    (Hnew : bpf_map_lookup_elem (smp_id e1) m0 (u32 (pid_tgid e0)) = None)
    (Hroom : bpf_map_update_elem (smp_id e0) m0 (u32 (pid_tgid e0)) (ktime e0) BPF_ANY = (m1, 0))
    (Htask : pid_tgid e1 = pid_tgid e0) (Hcpu : smp_id e0 ≠ smp_id e1)
    (Hfit : fits 64 (ktime e1)) (Hup : VIRTCMDLAT_THRESH < ktime e1) :
  (run_calls handler [(e0, virtnet_send_command); (e1, virtnet_send_command_ret ctx)] m0).2 =
  [virtcmd_event e1 (ktime e1)].
Proof.
  rewrite run_calls_cons, virtcmd_handler_run, run_calls_cons, virtcmd_handler_run. unfold run_calls. simpl.
  unfold events_of, map_after, tid. cbn [fst snd]. rewrite Hroom, Htask. cbn [fst].
  rewrite (percpu_update_other _ _ _ _ _ _ _ Hcpu Hroom), Hnew. cbn [default].
  unfold zeroed, Z_zeroed. rewrite Z.sub_0_r, wrap_small by done.
  by destruct (Z.gtb_spec (ktime e1) VIRTCMDLAT_THRESH); [|lia].
Qed.
End properties.

(** ** Witnesses *)

Definition demo_at (c t : Z) : env := demo_env (mem_of []) c t.
Definition demo_map : percpu_htab 1024 Z Z := percpu_empty.

Lemma virtcmd_event_sound_witness :
  let tr := [(demo_at 1 1000, virtnet_send_command);
             (demo_at 1 12001000, virtnet_send_command_ret (demo_regs 0 0 0))] in
  let ev := VirtcmdlatEvent 4242 1 12000000 in
  ev ∈ (run_calls handler tr demo_map).2 ∧
  ∃ pre e ctx post t,
    tr = pre ++ (e, virtnet_send_command_ret ctx) :: post ∧
    ev = virtcmd_event e (u64 (ktime e - t)) ∧ VIRTCMDLAT_THRESH < latency ev ∧
    (t = 0 ∨ latest_call tid (starts_on (smp_id e)) returns (u32 (pid_tgid e)) pre t).
Proof.
  intros tr ev. assert (ev ∈ (run_calls handler tr demo_map).2) as Hev by (vm_compute; left).
  split; [exact Hev|]. refine (virtcmd_event_sound demo_map tr ev _ Hev).
  intros. done.
Defined.

(** A command of 1 microsecond, one hour after boot. *)
Lemma virtcmd_migration_witness :
  (run_calls handler [(demo_at 0 3600000000000, virtnet_send_command);
                      (demo_at 1 3600000001000, virtnet_send_command_ret (demo_regs 0 0 0))] demo_map).2 =
  [VirtcmdlatEvent 4242 1 3600000001000].
Proof.
  refine (virtcmd_migration demo_map
    (bpf_map_update_elem 0 demo_map 4242 3600000000000 BPF_ANY).1
    (demo_at 0 3600000000000) (demo_at 1 3600000001000) (demo_regs 0 0 0) _ _ _ _ _ _);
    vm_compute; done.
Defined.
End VirtcmdLatency.
