(* ===== verification/BioLatency.v ===== *)
(** src/bpf/tracebiolatency.c: time from the issue of a block request to its
    completion, with the task that issued it.

    State: the hash [insp_biolat_entry] from request address to the issuing
    task and time (the second hash of the file is never used). *)

From S2P Require Import Prelude CLayout KernelMem BpfMaps BpfTracing BpfRuntime Intervals Inspector.

Module BioLatency.

Record insp_biolat_event_t := BiolatEvent {
  target : list Z;
  disk : list Z;
  pid : Z;
  latency : Z;
}.

Record insp_biolat_entry_t := BiolatEntry {
  en_target : list Z;
  en_disk : list Z;
  en_pid : Z;
  en_start : Z;
  en_latency : Z;
}.

#[global] Instance insp_biolat_event_t_eq_dec : EqDecision insp_biolat_event_t.
Proof. solve_decision. Defined.
#[global] Instance insp_biolat_entry_t_eq_dec : EqDecision insp_biolat_entry_t.
Proof. solve_decision. Defined.

Section probe.
Context {M : Type} `{!BpfMap M Z insp_biolat_entry_t}.

Definition insp_biolat_entry : lens M M := Lens id (λ m _, m).

Abbreviation prog' := (prog M insp_biolat_event_t).

Definition biolat_start (ctx : pt_regs) : prog' Z :=
  let rq := PT_REGS_PARM1 ctx in
  pid_tgid ← bpf_get_current_pid_tgid;
  start ← bpf_ktime_get_ns;
  target ← bpf_get_current_comm TASK_COMM_LEN;
  let et := BiolatEntry target (replicate TASK_COMM_LEN 0) (u32 (Z.shiftr pid_tgid 32)) start 0 in
  _ ← map_update insp_biolat_entry rq et 0;
  mret 0.

Definition biolat_finish (ctx : pt_regs) : prog' Z :=
  let rq := PT_REGS_PARM1 ctx in
  biot ← map_lookup insp_biolat_entry rq;
  match biot with
  | Some biot =>
      now ← bpf_ktime_get_ns;
      let latency := u64 (now - en_start biot) in
      _ ← when (latency >? 10000000) (
        bpf_perf_event_output
          (BiolatEvent (en_target biot) (replicate TASK_COMM_LEN 0) (en_pid biot) latency));
      _ ← map_delete insp_biolat_entry rq;
      mret 0
  | None => mret 0
  end.

Inductive op :=
  | blk_account_io_start (ctx : pt_regs)
  | blk_account_io_done (ctx : pt_regs).

Definition handler (o : op) : prog' Z :=
  match o with
  | blk_account_io_start ctx => biolat_start ctx
  | blk_account_io_done ctx => biolat_finish ctx
  end.
End probe.

(** ** Specification vocabulary *)

Definition op_rq (o : op) : Z :=
  match o with blk_account_io_start ctx | blk_account_io_done ctx => PT_REGS_PARM1 ctx end.

(** The issue of a request, with its environment, and its completion. *)
Definition issues (c : env * op) : option env :=
  match c.2 with blk_account_io_start _ => Some c.1 | blk_account_io_done _ => None end.
Definition completes (o : op) : bool :=
  match o with blk_account_io_start _ => false | blk_account_io_done _ => true end.

(** The entry that an issue in environment [e] makes, and the event of its
    completion at time [now]. *)
Definition issued (e : env) : insp_biolat_entry_t :=
  BiolatEntry (comm e TASK_COMM_LEN) (replicate TASK_COMM_LEN 0) (u32 (Z.shiftr (pid_tgid e) 32))
    (ktime e) 0.
Definition bio_event (e : env) (now : Z) : insp_biolat_event_t := {|
  target := comm e TASK_COMM_LEN;
  disk := replicate TASK_COMM_LEN 0;
  pid := u32 (Z.shiftr (pid_tgid e) 32);
  latency := u64 (now - ktime e);
|}.

(** ** Lemmas *)

Section lemmas.
Context {M : Type} `{!BpfMap M Z insp_biolat_entry_t, !HashLaws M Z insp_biolat_entry_t}.
Implicit Types (m : M) (c : env * op) (tr : list (env * op)).

Definition map_after c m : M :=
  match c.2 with
  | blk_account_io_start _ => (bpf_map_update_elem (smp_id c.1) m (op_rq c.2) (issued c.1) BPF_ANY).1
  | blk_account_io_done _ =>
      if bpf_map_lookup_elem (smp_id c.1) m (op_rq c.2)
      then (bpf_map_delete_elem (smp_id c.1) m (op_rq c.2)).1 else m
  end.

Definition events_of c m : list insp_biolat_event_t :=
  match c.2, bpf_map_lookup_elem (smp_id c.1) m (op_rq c.2) with
  | blk_account_io_done _, Some b =>
      let lat := u64 (ktime c.1 - en_start b) in
      if lat >? 10000000
      then [BiolatEvent (en_target b) (replicate TASK_COMM_LEN 0) (en_pid b) lat] else []
  | _, _ => []
  end.

Lemma biolat_handler_run c m : handler c.2 c.1 m = (0, map_after c m, events_of c m).
Proof.
  destruct c as [e o]. unfold map_after, events_of. destruct o as [ctx|ctx]; simpl;
    unfold biolat_start, biolat_finish; unfold_prog; simpl; unfold issued, BPF_ANY.
  - by destruct (bpf_map_update_elem _ _ _ _ _).
  - destruct (bpf_map_lookup_elem _ _ _) as [b|]; [|done].
    destruct (_ >? 10000000); simpl; by destruct (bpf_map_delete_elem _ _ _).
Qed.

(** An entry is that of the latest issue of the request. *)
Lemma entries_issued (m0 : M) tr (cpu rq : Z) (b : insp_biolat_entry_t) :
  (∀ cpu k, bpf_map_lookup_elem cpu m0 k = None) ->
  bpf_map_lookup_elem cpu (run_calls handler tr m0).1 rq = Some b ->
  ∃ e, last_open op_rq issues completes rq tr = Some e ∧ b = issued e.
Proof.
  intros H0. revert tr b.
  apply (run_calls_history handler (λ tr m, ∀ b, bpf_map_lookup_elem cpu m rq = Some b ->
    ∃ e, last_open op_rq issues completes rq tr = Some e ∧ b = issued e)).
  { intros b. by rewrite H0. }
  intros tr c m IH b. rewrite biolat_handler_run. cbn [fst snd]. rewrite last_open_snoc. unfold open_step, map_after.
  destruct c as [e o]. destruct o as [ctx|ctx]; cbn [fst snd].
  - rewrite hash_update_lookup. destruct (decide _) as [E|]; [|apply IH].
    destruct (accepts _ _ _); [|done]. intros [= <-]. exists e. done.
  - rewrite hash_drop_lookup. destruct (decide _); [done|apply IH].
Qed.
End lemmas.

(** ** Properties *)

Section properties.
Context {M : Type} `{!BpfMap M Z insp_biolat_entry_t, !HashLaws M Z insp_biolat_entry_t}.

(** Every event of biolatency names the issuer.  It is submitted by
    [blk_account_io_done] of a request; pid and task name are those of the
    task that ran the latest [blk_account_io_start] of that request, with no
    completion in between, not those of the task that happens to run the
    completion; the latency is the time between the two, over 10 ms; the disk
    name is always empty. *)
Theorem biolat_event_sound (m0 : M) (tr : list (env * op)) (ev : insp_biolat_event_t)
    (H0 : ∀ cpu k, bpf_map_lookup_elem cpu m0 k = None) (Hev : ev ∈ (run_calls handler tr m0).2) :
  ∃ pre e ctx post e1,
    tr = pre ++ (e, blk_account_io_done ctx) :: post ∧
    latest op_rq issues completes (PT_REGS_PARM1 ctx) pre e1 ∧
    ev = bio_event e1 (ktime e) ∧ 10000000 < latency ev.
Proof.
  apply run_calls_events in Hev as (pre & [e o] & post & -> & Hev).
  rewrite biolat_handler_run in Hev. cbn [fst snd] in Hev. unfold events_of in Hev. cbn [fst snd] in Hev.
  destruct o as [ctx|ctx]; [by apply elem_of_nil in Hev|].
  destruct (bpf_map_lookup_elem _ _ _) as [b|] eqn:E; [|by apply elem_of_nil in Hev].
  apply (entries_issued m0) in E as (e1 & Hl & ->); [|done].
  unfold issued in Hev. cbn [en_start en_target en_pid] in Hev.
  destruct (Z.gtb_spec (u64 (ktime e - ktime e1)) 10000000); [|by apply elem_of_nil in Hev].
  apply list_elem_of_singleton in Hev as ->. exists pre, e, ctx, post, e1.
  split; [done|]. split; [by apply last_open_latest|]. done.
Qed.

(** No slow tracked request is missed, and each is reported once: its
    completion submits one event and forgets the request. *)
Theorem biolat_event_complete (m0 : M) (pre : list (env * op)) (e e1 : env) (ctx : pt_regs)
    (H0 : ∀ cpu k, bpf_map_lookup_elem cpu m0 k = None)
    (Htracked : is_Some (bpf_map_lookup_elem (smp_id e) (run_calls handler pre m0).1 (PT_REGS_PARM1 ctx)))
    (Hl : latest op_rq issues completes (PT_REGS_PARM1 ctx) pre e1)
    (Hlat : 10000000 < u64 (ktime e - ktime e1)) :
  let run := run_calls handler (pre ++ [(e, blk_account_io_done ctx)]) m0 in
  run.2 = (run_calls handler pre m0).2 ++ [bio_event e1 (ktime e)] ∧
  ∀ cpu, bpf_map_lookup_elem cpu run.1 (PT_REGS_PARM1 ctx) = None.
Proof.
  destruct Htracked as [b E]. pose proof (entries_issued m0 pre _ _ _ H0 E) as (e' & Hl' & ->).
  apply last_open_latest in Hl. rewrite Hl in Hl'. injection Hl' as <-.
  cbv zeta. rewrite run_calls_snoc. destruct (run_calls handler pre m0) as [m1 o1]. cbn [fst snd] in E.
  rewrite biolat_handler_run. cbn [fst snd]. split.
  - f_equal. unfold events_of. cbn [fst snd op_rq]. rewrite E. unfold issued. cbn [en_start en_target en_pid].
    by destruct (Z.gtb_spec (u64 (ktime e - ktime e1)) 10000000); [|lia].
  - intros cpu. unfold map_after. cbn [fst snd]. by rewrite hash_drop_lookup, decide_True.
Qed.
End properties.

(** ** Witnesses: a request issued by task 4242, completed 30 ms later *)

Definition demo_map : htab 10000 Z insp_biolat_entry_t := htab_empty.
Definition demo_at (t : Z) : env := demo_env (mem_of []) 0 t.
Definition demo_ctx : pt_regs := demo_regs 512 0 0.
Definition demo_pre : list (env * op) := [(demo_at 7, blk_account_io_start demo_ctx)].

Lemma biolat_event_sound_witness :
  let tr := demo_pre ++ [(demo_at 30000007, blk_account_io_done demo_ctx)] in
  let ev := bio_event (demo_at 7) 30000007 in
  ev ∈ (run_calls handler tr demo_map).2 ∧
  ∃ pre e ctx post e1,
    tr = pre ++ (e, blk_account_io_done ctx) :: post ∧
    latest op_rq issues completes (PT_REGS_PARM1 ctx) pre e1 ∧
    ev = bio_event e1 (ktime e) ∧ 10000000 < latency ev.
Proof.
  intros tr ev. assert (ev ∈ (run_calls handler tr demo_map).2) as Hev by (vm_compute; left).
  split; [exact Hev|]. refine (biolat_event_sound demo_map tr ev _ Hev). intros. done.
Defined.

Lemma biolat_event_complete_witness :
  (run_calls handler (demo_pre ++ [(demo_at 30000007, blk_account_io_done demo_ctx)]) demo_map).2 =
  [] ++ [bio_event (demo_at 7) 30000007].
Proof.
  refine (proj1 (biolat_event_complete demo_map demo_pre (demo_at 30000007) (demo_at 7) demo_ctx _ _ _ _)).
  - intros. done.
  - vm_compute. eauto.
  - apply last_open_latest. done.
  - vm_compute. done.
Defined.
End BioLatency.
