(* ===== verification/PacketLoss.v ===== *)
(** src/bpf/packetloss.c: one event per dropped packet (tracepoint
    [kfree_skb]), with its addresses, the dropping code location and, if the
    feature is switched on, the kernel stack. *)

From S2P Require Import Prelude Endian CLayout KernelMem BpfMaps BpfRuntime Inspector FeatureSwitch SetTuple.

Module PacketLoss.

Record kfree_skb_args := KfreeSkbArgs { pad : Z; skb : Z; location : Z; protocol : Z }.

Record insp_pl_event_t := PlEvent { ev_tuple : tuple; ev_location : Z; stack_id : Z }.

#[global] Instance insp_pl_event_t_eq_dec : EqDecision insp_pl_event_t.
Proof. solve_decision. Defined.

Section probe.
Context `{KernelLayout} {MF : Type} `{!BpfMap MF Z Z}.

Definition insp_packetloss_feature_switch : lens MF MF := Lens id (λ m _, m).

Definition kfree_skb (args : kfree_skb_args) : prog MF insp_pl_event_t Z :=
  '(tpl, ret) ← with_mem (λ m, set_tuple m (skb args) zero_tuple);
  if ret <? 0 then mret 0 else
  let packetloss_stack_key := 0 in
  enable_packetloss_stack ← is_enable insp_packetloss_feature_switch packetloss_stack_key;
  stack_id ← (if enable_packetloss_stack : bool then bpf_get_stackid KERN_STACKID_FLAGS else mret 0);
  _ ← bpf_perf_event_output (PlEvent tpl (location args) stack_id);
  mret 0.
End probe.

Definition handler `{KernelLayout} {MF : Type} `{!BpfMap MF Z Z} (args : kfree_skb_args) :
  prog MF insp_pl_event_t Z := kfree_skb args.

(** ** Lemmas *)

Section lemmas.
Context `{KernelLayout} {MF : Type} `{!BpfMap MF Z Z}.

Definition drop_event (e : env) (args : kfree_skb_args) (t : tuple) (feat : MF) : insp_pl_event_t :=
  PlEvent t (location args) (if enabled_on (smp_id e) feat 0 then stackid e 512 else 0).

Lemma kfree_skb_run (args : kfree_skb_args) (e : env) (feat : MF) :
  kfree_skb args e feat =
  (0, feat, if (set_tuple (kmem e) (skb args) zero_tuple).2 <? 0 then []
            else [drop_event e args (set_tuple (kmem e) (skb args) zero_tuple).1 feat]).
Proof.
  unfold kfree_skb, drop_event. unfold_prog.
  destruct (set_tuple (kmem e) (skb args) zero_tuple) as [t r]. simpl.
  destruct (r <? 0); [done|]. simpl. unfold id, enabled_on.
  destruct (bpf_map_lookup_elem _ _ _) as [v|]; [|done]. by destruct (negb (v =? 0)).
Qed.

(** The event of the drop of a well-formed IPv4 packet. *)
Definition frame_tuple (f : ipv4_frame) : tuple :=
  Tuple (f_src f ++ replicate 12 0) (f_dst f ++ replicate 12 0)
    (if has_ports (f_proto f) then f_sport f else 0)
    (if has_ports (f_proto f) then f_dport f else 0) ETH_P_IP (f_proto f) 0.

Lemma handler_frame (args : kfree_skb_args) (e : env) (feat : MF) (head l3 : Z) (f : ipv4_frame) :
  wire_layout _ -> wf_frame f -> skb_at (kmem e) (skb args) head l3 (l3 + 4 * f_ihl f) (emit4 f) ->
  (handler args e feat).2 = [drop_event e args (frame_tuple f) feat].
Proof.
  intros Hw Hf Hskb. unfold handler. rewrite kfree_skb_run.
  by rewrite (set_tuple_v4 _ (kmem e) (skb args) head l3 f Hw Hf Hskb).
Qed.
End lemmas.

(** ** Properties *)

(** End to end for IPv4.  A drop of a well-formed IPv4 packet produces
    exactly one event, which carries the packet's protocol, addresses and
    ports (in host order), the drop location, and a stack id exactly when the
    feature switch is on for the CPU. *)
Theorem packetloss_ipv4 (L : KernelLayout) {MF : Type} `{!BpfMap MF Z Z} (feat : MF) (e : env)
    (args : kfree_skb_args) (head l3 : Z) (f : ipv4_frame)
    (Hw : wire_layout L) (Hf : wf_frame f)
    (Hskb : skb_at (kmem e) (skb args) head l3 (l3 + 4 * f_ihl f) (emit4 f)) :
  (handler args e feat).2 =
  [PlEvent (Tuple (f_src f ++ replicate 12 0) (f_dst f ++ replicate 12 0)
      (if has_ports (f_proto f) then f_sport f else 0)
      (if has_ports (f_proto f) then f_dport f else 0) ETH_P_IP (f_proto f) 0)
    (location args) (if enabled_on (smp_id e) feat 0 then stackid e KERN_STACKID_FLAGS else 0)].
Proof. exact (handler_frame args e feat head l3 f Hw Hf Hskb). Qed.

(** Only packets are reported.  Over any sequence of drops, the number
    of events is the number of dropped buffers that have a network header and
    an IP version of 4 or 6; every event is well formed. *)
Theorem packetloss_counts (L : KernelLayout) {MF : Type} `{!BpfMap MF Z Z} (feat : MF)
    (tr : list (env * kfree_skb_args)) (Henv : Forall (λ c, wf_env c.1) tr) :
  let valid (c : env * kfree_skb_args) :=
    let l3 := BPF_CORE_READ (kmem c.1) (skb c.2) [] skb_network_header 2 in
    let version := Z.shiftr (read_u8 (kmem c.1)
      (ptr_add (BPF_CORE_READ (kmem c.1) (skb c.2) [] skb_head 8) l3)) 4 in
    negb (l3 =? 0) && ((version =? 4) || (version =? 6)) in
  length (run_calls handler tr feat).2 = length (filter (λ c, valid c = true) tr) ∧
  Forall (λ ev, wf_tuple (ev_tuple ev)) (run_calls handler tr feat).2.
Proof.
  intros valid. induction tr as [|c tr IH]; [done|].
  apply Forall_cons in Henv as [(_ & _ & _ & Hm & _) Henv]. destruct (IH Henv) as [Hn Hwf].
  rewrite run_calls_cons. unfold handler at 1 3. rewrite kfree_skb_run.
  destruct (run_calls handler tr feat) as [s2 o2]. cbn [fst snd] in *.
  rewrite filter_cons, length_app, Forall_app.
  destruct (set_tuple_wf (kmem c.1) (skb c.2) zero_tuple Hm wf_zero_tuple) as [Ht _].
  rewrite set_tuple_ret.
  assert (set_tuple_bad (kmem c.1) (skb c.2) = negb (valid c)) as ->.
  { unfold set_tuple_bad, valid. by destruct (_ =? 0), (_ =? 4), (_ =? 6). }
  destruct (valid c); cbn [negb Z.ltb Z.compare]; simpl.
  - split; [by rewrite Hn|]. split; [|done]. by constructor.
  - by split.
Qed.

(** ** Witnesses: the sample datagram, dropped at 0xabc, with stacks enabled *)

Definition demo_features : percpu_array 16 Z := PercpuArray {[0 := {[1 := 1]}]}.
Definition demo_e : env := demo_env (demo_mem amd64_layout 38 (emit4 sample_frame)) 1 100.
Definition demo_args : kfree_skb_args := KfreeSkbArgs 0 4096 0xabc 8.

Lemma packetloss_ipv4_witness :
  (@handler amd64_layout _ _ demo_args demo_e demo_features).2 =
  [PlEvent (Tuple ([10; 0; 0; 1] ++ replicate 12 0) ([10; 0; 0; 2] ++ replicate 12 0) 53 4660 ETH_P_IP 17 0)
     0xabc 7].
Proof.
  exact (packetloss_ipv4 amd64_layout demo_features demo_e demo_args 65536 14 sample_frame
    amd64_wire_layout sample_frame_wf demo_skb_at).
Defined.

Lemma packetloss_counts_witness :
  length (run_calls (@handler amd64_layout _ _) [(demo_e, demo_args); (demo_e, KfreeSkbArgs 0 9 0 0)]
    demo_features).2 = 1%nat.
Proof.
  assert (wf_env demo_e) as He by (apply demo_env_wf; [exact demo_mem_sample_wf|done|done]).
  rewrite (proj1 (packetloss_counts amd64_layout demo_features
    [(demo_e, demo_args); (demo_e, KfreeSkbArgs 0 9 0 0)]
    ltac:(repeat (apply Forall_cons; split; [exact He|]); done))).
  vm_compute. done.
Defined.
End PacketLoss.
