(* ===== verification/TcpEvents.v ===== *)
(** The two TCP event probes without maps of their own.

    [TcpReset] is src/bpf/tcpreset.c: a RST sent for a received segment, a RST
    sent by the application's close, a RST received.  [TcpRetrans] is
    src/bpf/tcpretrans.c: a retransmitted segment. *)

From S2P Require Import Prelude Endian CLayout VmlinuxAmd64 KernelMem BpfMaps BpfTracing BpfRuntime Inspector SetTuple.

Module TcpReset.

Definition RESET_NOSOCK : Z := 1.
Definition RESET_ACTIVE : Z := 2.
Definition RESET_PROCESS : Z := 4.
Definition RESET_RECEIVE : Z := 8.

Record receive_reset_args := ReceiveResetArgs {
  pad : Z;
  skaddr : Z;
  r_sport : Z;
  r_dport : Z;
  r_saddr : list Z;
  r_daddr : list Z;
  r_saddr_v6 : list Z;
  r_daddr_v6 : list Z;
  sock_cookie : Z;
}.

Record insp_tcpreset_event_t := TcpresetEvent {
  type : Z;
  state : Z;
  ev_tuple : tuple;
  ev_skb_meta : skb_meta;
  stack_id : Z;
}.

#[global] Instance insp_tcpreset_event_t_eq_dec : EqDecision insp_tcpreset_event_t.
Proof. solve_decision. Defined.

Section probe.
Context `{KernelLayout}.

(** No maps but the stack traces, which the kernel fills. *)
Abbreviation prog' := (prog unit insp_tcpreset_event_t).

Definition trace_sendreset (ctx : pt_regs) : prog' Z :=
  let sk := PT_REGS_PARM1 ctx in
  let skb := PT_REGS_PARM2 ctx in
  let type := if negb (sk =? 0) then RESET_PROCESS else RESET_NOSOCK in
  state ← with_mem (λ m, read_u8 m (ptr_add sk sk_skc_state));
  stack_id ← bpf_get_stackid BPF_F_FAST_STACK_CMP;
  tpl ← with_mem (λ m, (set_tuple m skb zero_tuple).1);
  meta ← with_mem (λ m, set_meta m skb zero_meta);
  _ ← bpf_perf_event_output (TcpresetEvent type state tpl meta stack_id);
  mret 0.

Definition trace_sendactive (ctx : pt_regs) : prog' Z :=
  let sk := PT_REGS_PARM1 ctx in
  state ← with_mem (λ m, read_u8 m (ptr_add sk sk_skc_state));
  tpl ← with_mem (λ m, set_tuple_sock m sk zero_tuple);
  meta ← with_mem (λ m, set_meta_sock m sk zero_meta);
  _ ← bpf_perf_event_output (TcpresetEvent RESET_ACTIVE state tpl meta 0);
  mret 0.

Definition insp_rstrx (ctx : receive_reset_args) : prog' Z :=
  stack_id ← bpf_get_stackid BPF_F_FAST_STACK_CMP;
  if s32 stack_id <? 0 then mret 0 else
  let sk := skaddr ctx in
  state ← with_mem (λ m, read_u8 m (ptr_add sk sk_skc_state));
  tpl ← with_mem (λ m, set_tuple_sock m sk zero_tuple);
  meta ← with_mem (λ m, set_meta_sock m sk zero_meta);
  _ ← bpf_perf_event_output (TcpresetEvent RESET_RECEIVE state tpl meta stack_id);
  mret 0.

Inductive op :=
  | tcp_v4_send_reset (ctx : pt_regs)
  | tcp_send_active_reset (ctx : pt_regs)
  | tcp_receive_reset (ctx : receive_reset_args).

Definition handler (o : op) : prog' Z :=
  match o with
  | tcp_v4_send_reset ctx => trace_sendreset ctx
  | tcp_send_active_reset ctx => trace_sendactive ctx
  | tcp_receive_reset ctx => insp_rstrx ctx
  end.

(** ** Specification vocabulary *)

(** The event of a call, if it submits one. *)
Definition reset_event (c : env * op) : option insp_tcpreset_event_t :=
  let m := kmem c.1 in
  match c.2 with
  | tcp_v4_send_reset ctx =>
      Some (TcpresetEvent (if negb (PT_REGS_PARM1 ctx =? 0) then RESET_PROCESS else RESET_NOSOCK)
              (read_u8 m (ptr_add (PT_REGS_PARM1 ctx) sk_skc_state))
              (set_tuple m (PT_REGS_PARM2 ctx) zero_tuple).1
              (set_meta m (PT_REGS_PARM2 ctx) zero_meta) (stackid c.1 BPF_F_FAST_STACK_CMP))
  | tcp_send_active_reset ctx =>
      Some (TcpresetEvent RESET_ACTIVE (read_u8 m (ptr_add (PT_REGS_PARM1 ctx) sk_skc_state))
              (set_tuple_sock m (PT_REGS_PARM1 ctx) zero_tuple)
              (set_meta_sock m (PT_REGS_PARM1 ctx) zero_meta) 0)
  | tcp_receive_reset ctx =>
      if s32 (stackid c.1 BPF_F_FAST_STACK_CMP) <? 0 then None
      else Some (TcpresetEvent RESET_RECEIVE (read_u8 m (ptr_add (skaddr ctx) sk_skc_state))
                   (set_tuple_sock m (skaddr ctx) zero_tuple)
                   (set_meta_sock m (skaddr ctx) zero_meta) (stackid c.1 BPF_F_FAST_STACK_CMP))
  end.

Definition wf_event (ev : insp_tcpreset_event_t) : Prop :=
  fits 32 (type ev) ∧ fits 8 (state ev) ∧ wf_tuple (ev_tuple ev) ∧ wf_meta (ev_skb_meta ev).

(** ** Lemmas *)

Lemma tcpreset_handler_run (c : env * op) (s : unit) :
  handler c.2 c.1 s = (0, s, match reset_event c with Some ev => [ev] | None => [] end).
Proof.
  destruct c as [e o]. destruct o as [ctx|ctx|ctx]; [done|done|]. cbn [fst snd handler reset_event].
  unfold insp_rstrx. unfold_prog. by destruct (s32 (stackid e BPF_F_FAST_STACK_CMP) <? 0).
Qed.

Lemma reset_event_wf (c : env * op) (ev : insp_tcpreset_event_t) :
  wf_mem (kmem c.1) -> reset_event c = Some ev -> wf_event ev.
Proof.
  intros Hm. pose proof (λ src, probe_fits (kmem c.1) 1 src Hm) as H8.
  destruct c as [e o]; destruct o as [ctx|ctx|ctx]; cbn [fst snd reset_event] in *.
  - intros [= <-]. unfold wf_event. cbn [type state ev_tuple ev_skb_meta].
    split; [destruct (negb _); split; [done|done|done|done]|]. split; [apply H8|].
    split; [by apply set_tuple_wf, wf_zero_tuple|by apply set_meta_wf, wf_zero_meta].
  - intros [= <-]. unfold wf_event. cbn [type state ev_tuple ev_skb_meta].
    split; [by split|]. split; [apply H8|].
    split; [by apply set_tuple_sock_wf, wf_zero_tuple|by apply set_meta_sock_wf, wf_zero_meta].
  - destruct (s32 (stackid e BPF_F_FAST_STACK_CMP) <? 0); [discriminate|].
    intros [= <-]. unfold wf_event. cbn [type state ev_tuple ev_skb_meta].
    split; [by split|]. split; [apply H8|].
    split; [by apply set_tuple_sock_wf, wf_zero_tuple|by apply set_meta_sock_wf, wf_zero_meta].
Qed.

Lemma events_run (tr : list (env * op)) (s : unit) :
  (run_calls handler tr s).2 = omap reset_event tr.
Proof.
  revert s. induction tr as [|c tr IH]; intros s; [done|]. rewrite run_calls_cons, tcpreset_handler_run.
  specialize (IH s). destruct (run_calls handler tr s) as [s2 o2]. simpl in *. subst o2.
  by destruct (reset_event c).
Qed.
End probe.

(** ** Properties *)

(** The events of tcpreset are, in order, one per reset sent by the
    kernel (classified by whether a socket exists), one per reset sent by the
    application, and one per received reset whose stack id is valid; received
    resets are dropped when the stack trace fails.  All are well formed. *)
Theorem tcpreset_events (L : KernelLayout) (tr : list (env * op)) (Henv : Forall (λ c, wf_env c.1) tr) :
  (run_calls handler tr tt).2 = omap reset_event tr ∧
  Forall wf_event (run_calls handler tr tt).2 ∧
  (∀ e ctx, s32 (stackid e BPF_F_FAST_STACK_CMP) < 0 ->
     (handler (tcp_receive_reset ctx) e tt).2 = []) .
Proof.
  rewrite events_run. split; [done|]. split.
  - apply Forall_forall. intros ev (c & Hin & Hc)%list_elem_of_omap.
    rewrite Forall_forall in Henv. destruct (Henv c Hin) as (_ & _ & _ & Hm & _).
    by apply (reset_event_wf c).
  - intros e ctx Hs. pose proof (tcpreset_handler_run (e, tcp_receive_reset ctx) tt) as Hr.
    cbn [fst snd reset_event] in Hr. rewrite Hr.
    by destruct (Z.ltb_spec (s32 (stackid e BPF_F_FAST_STACK_CMP)) 0); [|lia].
Qed.

Lemma tcpreset_events_witness :
  let e := demo_env (mem_of []) 0 1 in
  let tr := [(e, tcp_v4_send_reset (demo_regs 0 4096 0))] in
  type <$> (run_calls (@handler amd64_layout) tr tt).2 = [RESET_NOSOCK].
Proof.
  intros e tr.
  rewrite (proj1 (tcpreset_events amd64_layout tr ltac:(apply Forall_cons; split;
    [apply demo_env_wf; [apply mem_of_wf; done|done|done]|done]))).
  vm_compute. done.
Defined.
End TcpReset.

Module TcpRetrans.

(** The tracepoint record, read from memory: not a kernel type, so its
    declaration in the probe fixes the positions. *)
Definition tp_tcp_retransmit_skb_args : ctype :=
  struct ["unused" ∷ CInt 8; "skbaddr" ∷ CPtr "void"; "skaddr" ∷ CPtr "void"; "state" ∷ CInt 4;
    "sport" ∷ CInt 2; "dport" ∷ CInt 2; "saddr" ∷ CArray (CInt 1) 4; "daddr" ∷ CArray (CInt 1) 4;
    "saddr_v6" ∷ CArray (CInt 1) 16; "daddr_v6" ∷ CArray (CInt 1) 16].

Record insp_tcpretrans_event_t := TcpretransEvent { ev_tuple : tuple; stack_id : Z }.

#[global] Instance insp_tcpretrans_event_t_eq_dec : EqDecision insp_tcpretrans_event_t.
Proof. solve_decision. Defined.

Definition args_field (args : Z) (name : string) : Z :=
  ptr_add args (off tp_tcp_retransmit_skb_args [name]).

Definition tcpretrans (args : Z) : prog unit insp_tcpretrans_event_t Z :=
  sport ← with_mem (λ m, le_val (bpf_probe_read_kernel m 2 (args_field args "sport")).1);
  dport ← with_mem (λ m, le_val (bpf_probe_read_kernel m 2 (args_field args "dport")).1);
  saddr ← with_mem (λ m, (bpf_probe_read_kernel m 16 (args_field args "saddr_v6")).1);
  daddr ← with_mem (λ m, (bpf_probe_read_kernel m 16 (args_field args "daddr_v6")).1);
  stack_id ← bpf_get_stackid KERN_STACKID_FLAGS;
  _ ← bpf_perf_event_output (TcpretransEvent (Tuple saddr daddr sport dport 0 IPPROTO_TCP 0) stack_id);
  mret 0.

(** A record of the tracepoint, member by member. *)
Definition record_bytes (head : list Z) (sport dport : Z) (v4 saddr6 daddr6 : list Z) : list Z :=
  head ++ le_bytes 2 sport ++ le_bytes 2 dport ++ v4 ++ saddr6 ++ daddr6.

Lemma args_offsets :
  off tp_tcp_retransmit_skb_args ["sport"] = 28 ∧ off tp_tcp_retransmit_skb_args ["dport"] = 30 ∧
  off tp_tcp_retransmit_skb_args ["saddr_v6"] = 40 ∧ off tp_tcp_retransmit_skb_args ["daddr_v6"] = 56.
Proof. vm_compute. done. Qed.

(** Tcpretrans copies the tracepoint record.  For every record in
    memory, the one event of the call has the record's ports and IPv6 (or
    IPv4-mapped) addresses, protocol TCP, the stack id, and layer-3 protocol
    0, which the probe never sets. *)
Theorem tcpretrans_event (e : env) (args sport dport : Z) (head v4 saddr6 daddr6 : list Z)
    (Hh : length head = 28%nat) (Hv4 : length v4 = 8%nat)
    (Hs : length saddr6 = 16%nat) (Hd : length daddr6 = 16%nat)
    (Hsp : fits 16 sport) (Hdp : fits 16 dport) (Ha : 0 <= args) (Htop : args + 72 < 2 ^ 64)
    (Hat : bytes_at (kmem e) args (record_bytes head sport dport v4 saddr6 daddr6)) :
  (tcpretrans args e tt).2 =
  [TcpretransEvent (Tuple saddr6 daddr6 sport dport 0 IPPROTO_TCP 0) (stackid e KERN_STACKID_FLAGS)].
Proof.
  assert (length (record_bytes head sport dport v4 saddr6 daddr6) = 72%nat) as Hlen.
  { unfold record_bytes. rewrite !length_app, !le_bytes_length, Hh, Hv4, Hs, Hd. done. }
  assert (∀ a x b o n, record_bytes head sport dport v4 saddr6 daddr6 = a ++ x ++ b ->
    o = Z.of_nat (length a) -> n = length x -> (bpf_probe_read (kmem e) n (ptr_add args o)).1 = x) as Hrd.
  { intros a x b o n Heq Ho ->. eapply read_field; [exact Heq|done|exact Hat|done|rewrite Hlen; lia]. }
  destruct args_offsets as (O1 & O2 & O3 & O4).
  unfold tcpretrans, args_field. rewrite O1, O2, O3, O4. unfold_prog. unfold bpf_probe_read_kernel. simpl.
  rewrite (Hrd head (le_bytes 2 sport) (le_bytes 2 dport ++ v4 ++ saddr6 ++ daddr6) 28 2%nat);
    [|done|rewrite Hh; done|by rewrite le_bytes_length].
  rewrite (Hrd (head ++ le_bytes 2 sport) (le_bytes 2 dport) (v4 ++ saddr6 ++ daddr6) 30 2%nat);
    [|unfold record_bytes; by rewrite <- !app_assoc|rewrite length_app, Hh, le_bytes_length; done|by rewrite le_bytes_length].
  rewrite (Hrd (head ++ le_bytes 2 sport ++ le_bytes 2 dport ++ v4) saddr6 daddr6 40 16%nat);
    [|unfold record_bytes; by rewrite <- !app_assoc
     |rewrite !length_app, Hh, !le_bytes_length, Hv4; done|done].
  rewrite (Hrd (head ++ le_bytes 2 sport ++ le_bytes 2 dport ++ v4 ++ saddr6) daddr6 [] 56 16%nat);
    [|unfold record_bytes; by rewrite app_nil_r, <- !app_assoc
     |rewrite !length_app, Hh, !le_bytes_length, Hv4, Hs; done|done].
  rewrite !le_val_bytes, !wrap_small by done. done.
Qed.

Definition demo_record : list Z :=
  record_bytes (replicate 28 0) 443 51000 (replicate 8 0)
    (replicate 15 0 ++ [1]) (replicate 15 0 ++ [2]).

Lemma tcpretrans_event_witness :
  (tcpretrans 4096 (demo_env (mem_of [(4096, demo_record)]) 0 1) tt).2 =
  [TcpretransEvent (Tuple (replicate 15 0 ++ [1]) (replicate 15 0 ++ [2]) 443 51000 0 6 0) 7].
Proof.
  refine (tcpretrans_event (demo_env (mem_of [(4096, demo_record)]) 0 1) 4096 443 51000
    (replicate 28 0) (replicate 8 0) (replicate 15 0 ++ [1]) (replicate 15 0 ++ [2])
    eq_refl eq_refl eq_refl eq_refl _ _ _ _ _); try done.
Defined.
End TcpRetrans.
