(* ===== verification/Flow.v ===== *)
(** src/bpf/flow.c: per-flow packet and byte counters at the tc hooks.

    State: the LRU per-CPU hash [insp_flow4_metrics] and the feature switch of
    the probe.  The theorems say what a counter counts under any traffic on
    any number of CPUs, with and without eviction. *)

From S2P Require Import Prelude Endian CLayout KernelMem BpfMaps BpfRuntime Inspector FeatureSwitch.

Module Flow.

Definition TC_ACT_OK : Z := 0.

Record flow_metrics := FlowMetrics { packets : Z; bytes : Z; drops : Z; retrans : Z }.

#[global] Instance flow_metrics_eq_dec : EqDecision flow_metrics.
Proof. solve_decision. Defined.
#[global] Instance flow_metrics_zeroed : Zeroed flow_metrics := FlowMetrics 0 0 0 0.

(** The two atomic additions through the value pointer. *)
Definition add_packets (n : Z) (m : flow_metrics) : flow_metrics :=
  FlowMetrics (u64 (packets m + n)) (bytes m) (drops m) (retrans m).
Definition add_bytes (n : Z) (m : flow_metrics) : flow_metrics :=
  FlowMetrics (packets m) (u64 (bytes m + n)) (drops m) (retrans m).

Section probe.
Context {M MF : Type} `{!BpfMap M flow_tuple_4 flow_metrics, !BpfMap MF Z Z}.

Record state := State { metrics : M; features : MF }.

Definition insp_flow4_metrics : lens state M := Lens metrics (λ m s, State m (features s)).
Definition insp_flow_feature_switch : lens state MF := Lens features (λ m s, State (metrics s) m).

(** The object file submits no perf events. *)
Abbreviation prog' := (prog state Empty_set).

Definition __do_flow (skb : __sk_buff) : prog' Z :=
  let flow_port_key := 0 in
  enable_flow_port ← is_enable insp_flow_feature_switch flow_port_key;
  match set_flow_tuple4 skb zero_flow_tuple enable_flow_port with
  | Some (tuple, ret) =>
      if ret <? 0 then mret TC_ACT_OK else
      metric ← map_lookup insp_flow4_metrics tuple;
      match metric with
      | Some _ =>
          _ ← map_store insp_flow4_metrics tuple (add_packets 1);
          _ ← map_store insp_flow4_metrics tuple (add_bytes (skb_len_ skb));
          mret TC_ACT_OK
      | None =>
          _ ← map_update insp_flow4_metrics tuple (FlowMetrics 1 (skb_len_ skb) 0 0) BPF_ANY;
          mret TC_ACT_OK
      end
  | None => mret TC_ACT_OK
  end.

Definition tc_ingress (skb : __sk_buff) : prog' Z := __do_flow skb.
Definition tc_egress (skb : __sk_buff) : prog' Z := __do_flow skb.

Inductive op := ingress (skb : __sk_buff) | egress (skb : __sk_buff).

Definition handler (o : op) : prog' Z :=
  match o with ingress skb => tc_ingress skb | egress skb => tc_egress skb end.

(** ** Specification vocabulary *)

Definition op_skb (o : op) : __sk_buff := match o with ingress skb | egress skb => skb end.

(** The flow a packet is accounted to, if any. *)
Definition flow_of (feat : MF) (c : env * op) : option flow_tuple_4 :=
  match set_flow_tuple4 (op_skb c.2) zero_flow_tuple (enabled_on (smp_id c.1) feat 0) with
  | Some (t, ret) => if ret <? 0 then None else Some t
  | None => None
  end.

(** The packets and bytes of a flow on a CPU. *)
Definition on_flow (feat : MF) (cpu : Z) (t : flow_tuple_4) (c : env * op) : bool :=
  bool_decide (flow_of feat c = Some t) && (smp_id c.1 =? cpu).

Fixpoint npackets (feat : MF) (cpu : Z) (t : flow_tuple_4) (tr : list (env * op)) : Z :=
  match tr with
  | [] => 0
  | c :: tr' => (if on_flow feat cpu t c then 1 else 0) + npackets feat cpu t tr'
  end.
Fixpoint nbytes (feat : MF) (cpu : Z) (t : flow_tuple_4) (tr : list (env * op)) : Z :=
  match tr with
  | [] => 0
  | c :: tr' => (if on_flow feat cpu t c then skb_len_ (op_skb c.2) else 0) + nbytes feat cpu t tr'
  end.

(** The counters of the packets of [tr]. *)
Definition counters (feat : MF) (cpu : Z) (t : flow_tuple_4) (tr : list (env * op)) : flow_metrics :=
  FlowMetrics (u64 (npackets feat cpu t tr)) (u64 (nbytes feat cpu t tr)) 0 0.
End probe.
Arguments state : clear implicits.

(** ** Lemmas *)

Section lemmas.
Context {M MF : Type} `{!BpfMap M flow_tuple_4 flow_metrics, !BpfMap MF Z Z}.
Implicit Types (s : state M MF) (c : env * op) (tr : list (env * op)).

Definition metrics_after c s : M :=
  let cpu := smp_id c.1 in
  match flow_of (features s) c with
  | Some t =>
      match bpf_map_lookup_elem cpu (metrics s) t with
      | Some _ => bpf_map_store cpu (bpf_map_store cpu (metrics s) t (add_packets 1)) t
                    (add_bytes (skb_len_ (op_skb c.2)))
      | None => (bpf_map_update_elem cpu (metrics s) t
                   (FlowMetrics 1 (skb_len_ (op_skb c.2)) 0 0) BPF_ANY).1
      end
  | None => metrics s
  end.

Lemma flow_handler_run c s :
  handler c.2 c.1 s = (TC_ACT_OK, State (metrics_after c s) (features s), []).
Proof.
  assert (handler c.2 c.1 s = __do_flow (op_skb c.2) c.1 s) as -> by (by destruct c as [e []]).
  unfold __do_flow, metrics_after, flow_of. unfold_prog. rewrite is_enable_run. simpl.
  destruct (set_flow_tuple4 _ _ _) as [[t ret]|]; [|by destruct s].
  destruct (ret <? 0); [by destruct s|]. simpl.
  destruct (bpf_map_lookup_elem _ _ _); [done|]. by destruct (bpf_map_update_elem _ _ _ _ _).
Qed.

Lemma npackets_snoc (feat : MF) (cpu : Z) (t : flow_tuple_4) tr c :
  npackets feat cpu t (tr ++ [c]) = npackets feat cpu t tr + if on_flow feat cpu t c then 1 else 0.
Proof. induction tr as [|c' tr IH]; simpl; [lia|]. rewrite IH. lia. Qed.

Lemma nbytes_snoc (feat : MF) (cpu : Z) (t : flow_tuple_4) tr c :
  nbytes feat cpu t (tr ++ [c]) =
  nbytes feat cpu t tr + if on_flow feat cpu t c then skb_len_ (op_skb c.2) else 0.
Proof. induction tr as [|c' tr IH]; simpl; [lia|]. rewrite IH. lia. Qed.

(** A packet of another flow or CPU does not change the counters. *)
Lemma counters_other (feat : MF) (cpu : Z) (t : flow_tuple_4) tr c :
  on_flow feat cpu t c = false -> counters feat cpu t (tr ++ [c]) = counters feat cpu t tr.
Proof. intros E. unfold counters. by rewrite npackets_snoc, nbytes_snoc, E, !Z.add_0_r. Qed.

Lemma counters_add (feat : MF) (cpu : Z) (t : flow_tuple_4) tr c :
  on_flow feat cpu t c = true ->
  add_bytes (skb_len_ (op_skb c.2)) (add_packets 1 (counters feat cpu t tr)) =
  counters feat cpu t (tr ++ [c]).
Proof.
  intros E. unfold counters, add_bytes, add_packets. simpl. rewrite npackets_snoc, nbytes_snoc, E.
  unfold wrap. by rewrite !Zplus_mod_idemp_l.
Qed.

Lemma counters_single (feat : MF) (cpu : Z) (t : flow_tuple_4) c :
  fits 32 (skb_len_ (op_skb c.2)) ->
  counters feat cpu t [c] =
  if on_flow feat cpu t c then FlowMetrics 1 (skb_len_ (op_skb c.2)) 0 0 else zeroed.
Proof.
  intros Hl. unfold counters. simpl. destruct (on_flow feat cpu t c); [|done].
  rewrite !Z.add_0_r, !(wrap_small 64); [done|..].
  - by apply (fits_mono 32).
  - split; lia.
Qed.

Lemma on_flow_spec (feat : MF) (cpu : Z) (t : flow_tuple_4) c :
  on_flow feat cpu t c = true ↔ flow_of feat c = Some t ∧ smp_id c.1 = cpu.
Proof. unfold on_flow. by rewrite andb_true_iff, bool_decide_eq_true, Z.eqb_eq. Qed.
End lemmas.

Section since_creation.
Context {M MF : Type} `{!BpfMap M flow_tuple_4 flow_metrics, !BpfMap MF Z Z}.
Context `{!LruLaws M flow_tuple_4 flow_metrics}.
Implicit Types (s : state M MF) (c : env * op) (tr : list (env * op)).

(** The map has a key on one CPU exactly if it has it on all. *)
Definition known (m : M) (t : flow_tuple_4) : Prop := ∃ cpu, is_Some (bpf_map_lookup_elem cpu m t).

(** The kernel refuses to insert the flow of a packet. *)
Definition refused (m : M) (t : flow_tuple_4) c : Prop :=
  (bpf_map_update_elem (smp_id c.1) m t (FlowMetrics 1 (skb_len_ (op_skb c.2)) 0 0) BPF_ANY).2 ≠ 0.

(** What a packet does to the flow [t]. *)
Inductive effect (t : flow_tuple_4) c s : Prop :=
  | kept : flow_of (features s) c ≠ Some t ->
      (∀ cpu, bpf_map_lookup_elem cpu (metrics_after c s) t = bpf_map_lookup_elem cpu (metrics s) t) -> effect t c s
  | counted : flow_of (features s) c = Some t -> known (metrics s) t ->
      (∀ cpu v, bpf_map_lookup_elem cpu (metrics s) t = Some v ->
       bpf_map_lookup_elem cpu (metrics_after c s) t =
       Some (if smp_id c.1 =? cpu then add_bytes (skb_len_ (op_skb c.2)) (add_packets 1 v) else v)) -> effect t c s
  | created : flow_of (features s) c = Some t -> ¬ known (metrics s) t ->
      (∀ cpu, bpf_map_lookup_elem cpu (metrics_after c s) t =
       Some (if smp_id c.1 =? cpu then FlowMetrics 1 (skb_len_ (op_skb c.2)) 0 0 else zeroed)) -> effect t c s
  | not_created : flow_of (features s) c = Some t -> ¬ known (metrics s) t -> refused (metrics s) t c ->
      metrics_after c s = metrics s -> effect t c s
  | evicted t' : flow_of (features s) c = Some t' -> t' ≠ t -> ¬ known (metrics s) t' ->
      ¬ known (metrics_after c s) t -> effect t c s.

Lemma known_all (m : M) (t : flow_tuple_4) (cpu : Z) : known m t -> is_Some (bpf_map_lookup_elem cpu m t).
Proof. intros [cpu' H]. by apply (lru_keys cpu'). Qed.

Lemma unknown_lookup (m : M) (t : flow_tuple_4) (cpu : Z) : ¬ known m t -> bpf_map_lookup_elem cpu m t = None.
Proof. intros Hn. apply eq_None_not_Some. intros H. apply Hn. by exists cpu. Qed.

Lemma store_effect (t : flow_tuple_4) c s (v0 : flow_metrics) (t0 : flow_tuple_4) :
  flow_of (features s) c = Some t0 -> bpf_map_lookup_elem (smp_id c.1) (metrics s) t0 = Some v0 -> effect t c s.
Proof.
  intros Hf Hv. assert (metrics_after c s = bpf_map_store (smp_id c.1) (bpf_map_store (smp_id c.1) (metrics s) t0 (add_packets 1))
    t0 (add_bytes (skb_len_ (op_skb c.2)))) as E by (unfold metrics_after; by rewrite Hf, Hv).
  destruct (decide (t0 = t)) as [->|Hne].
  - apply counted; [done|exists (smp_id c.1); by rewrite Hv|]. intros cpu v Hl. rewrite E.
    destruct (Z.eqb_spec (smp_id c.1) cpu) as [<-|Hcpu]; [by rewrite !law_store_eq, Hl|by rewrite !lru_store_other].
  - apply kept; [congruence|]. intros cpu. rewrite E.
    destruct (Z.eq_dec (smp_id c.1) cpu) as [<-|Hcpu]; [by rewrite !law_store_ne|by rewrite !lru_store_other].
Qed.

Lemma insert_effect (t : flow_tuple_4) c s (t0 : flow_tuple_4) :
  flow_of (features s) c = Some t0 -> bpf_map_lookup_elem (smp_id c.1) (metrics s) t0 = None -> effect t c s.
Proof.
  intros Hf Hv. assert (¬ known (metrics s) t0) as Hn.
  { intros H. destruct (known_all _ _ (smp_id c.1) H) as [? ?]. congruence. }
  destruct (bpf_map_update_elem (smp_id c.1) (metrics s) t0 (FlowMetrics 1 (skb_len_ (op_skb c.2)) 0 0) BPF_ANY)
    as [m' r] eqn:E.
  assert (metrics_after c s = m') as Em by (unfold metrics_after; by rewrite Hf, Hv, E).
  destruct (Z.eq_dec r 0) as [->|Hr]; destruct (decide (t0 = t)) as [->|Hne].
  - apply created; [done|done|]. intros cpu. rewrite Em. destruct (Z.eqb_spec (smp_id c.1) cpu) as [<-|Hcpu].
    + by apply (law_update_eq _ _ _ _ _ _ E).
    + by rewrite (lru_update_other _ cpu _ _ _ _ _ Hcpu E), unknown_lookup.
  - destruct (lru_update_ne (smp_id c.1) (metrics s) t0 t (FlowMetrics 1 (skb_len_ (op_skb c.2)) 0 0) BPF_ANY Hne)
      as [Hs|Hs]; rewrite E in Hs; simpl in Hs.
    + apply kept; [congruence|]. by rewrite Em.
    + eapply evicted; [done|done|done|]. rewrite Em. intros [cpu [v Hc]]. by rewrite Hs in Hc.
  - apply not_created; [done|done|by unfold refused; rewrite E|]. rewrite Em. by apply law_update_fail in E.
  - apply kept; [congruence|]. rewrite Em. by apply law_update_fail in E as ->.
Qed.

Lemma packet_effect (t : flow_tuple_4) c s : effect t c s.
Proof.
  destruct (flow_of (features s) c) as [t0|] eqn:Hf.
  - destruct (bpf_map_lookup_elem (smp_id c.1) (metrics s) t0) as [v|] eqn:Hv.
    + by eapply store_effect.
    + by eapply insert_effect.
  - apply kept; [congruence|]. intros cpu. unfold metrics_after. by rewrite Hf.
Qed.

Lemma features_run tr s : features (run_calls handler tr s).1 = features s.
Proof.
  revert tr. apply (run_calls_history handler (λ _ s', features s' = features s)); [done|].
  intros tr c s' IH. by rewrite flow_handler_run.
Qed.

(** The map after a history. *)
Definition map_after s tr : M := metrics (run_calls handler tr s).1.

Lemma map_after_snoc s tr c :
  map_after s (tr ++ [c]) = metrics_after c (run_calls handler tr s).1.
Proof.
  unfold map_after. rewrite run_calls_snoc. destruct (run_calls handler tr s) as [s1 o1]. simpl.
  by rewrite flow_handler_run.
Qed.

Lemma after_effect (t : flow_tuple_4) s tr c :
  effect t c (run_calls handler tr s).1 ∧ features (run_calls handler tr s).1 = features s.
Proof. split; [apply packet_effect|apply features_run]. Qed.

(** The packet [c] created the entry of [t], and it was never evicted during
    the rest of the history. *)
Definition alive_since s (t : flow_tuple_4) (pre : list (env * op)) c (post : list (env * op)) : Prop :=
  flow_of (features s) c = Some t ∧ ¬ known (map_after s pre) t ∧
  ∀ mid, mid `prefix_of` post -> known (map_after s (pre ++ c :: mid)) t.

(** The entry of [t] counts the packets from its creation on. *)
Definition counted_since s (t : flow_tuple_4) tr : Prop :=
  ∃ pre c post, tr = pre ++ c :: post ∧ alive_since s t pre c post ∧
    ∀ cpu, bpf_map_lookup_elem cpu (map_after s tr) t = Some (counters (features s) cpu t (c :: post)).

Lemma on_flow_eq (feat : MF) (cpu : Z) (t : flow_tuple_4) c :
  flow_of feat c = Some t -> on_flow feat cpu t c = (smp_id c.1 =? cpu).
Proof. intros E. unfold on_flow. by rewrite bool_decide_true. Qed.

Lemma prefix_of_snoc {A : Type} (l l' : list A) (x : A) : l `prefix_of` l' ++ [x] -> l = l' ++ [x] ∨ l `prefix_of` l'.
Proof.
  intros [k E]. destruct k as [|y k _] using rev_ind; [left; by rewrite app_nil_r in E|right].
  rewrite app_assoc in E. apply app_inj_tail in E as [-> _]. by apply prefix_app_r.
Qed.

Lemma alive_since_snoc s (t : flow_tuple_4) (pre post : list (env * op)) c c' :
  alive_since s t pre c post -> known (map_after s ((pre ++ c :: post) ++ [c'])) t ->
  alive_since s t pre c (post ++ [c']).
Proof.
  intros (H1 & H2 & H3) Hk. split_and!; [done|done|]. intros mid Hm. apply prefix_of_snoc in Hm as [->|Hm]; [|by apply H3].
  by rewrite <- app_assoc in Hk.
Qed.

Lemma counted_since_snoc s (t : flow_tuple_4) tr c :
  fits 32 (skb_len_ (op_skb c.2)) -> (known (map_after s tr) t -> counted_since s t tr) ->
  known (map_after s (tr ++ [c])) t -> counted_since s t (tr ++ [c]).
Proof.
  intros Hlen IH Hk. destruct (after_effect t s tr c) as [He Hfeat].
  destruct He as [Hne Hm|Hf Hkn Hm|Hf Hn Hm|Hf Hn _ Hm|t' _ _ _ Hm]; rewrite <- ?map_after_snoc, ?Hfeat in *.
  - assert (known (map_after s tr) t) as Hk0 by (destruct Hk as [cpu Hc]; exists cpu; by rewrite Hm in Hc).
    destruct (IH Hk0) as (pre & c0 & post & -> & Ha & Hc). exists pre, c0, (post ++ [c]).
    split_and!; [by rewrite <- app_assoc|by apply alive_since_snoc|]. intros cpu. rewrite Hm. fold (map_after s (pre ++ c0 :: post)).
    rewrite Hc, app_comm_cons, (counters_other _ _ _ (c0 :: post)); [done|]. apply not_true_iff_false. rewrite on_flow_spec. by intros [? _].
  - destruct (IH Hkn) as (pre & c0 & post & -> & Ha & Hc). exists pre, c0, (post ++ [c]).
    split_and!; [by rewrite <- app_assoc|by apply alive_since_snoc|]. intros cpu. rewrite (Hm cpu _ (Hc cpu)).
    pose proof (on_flow_eq (features s) cpu t c Hf) as Ho. rewrite app_comm_cons. destruct (smp_id c.1 =? cpu).
    + by rewrite (counters_add _ _ _ (c0 :: post)).
    + by rewrite (counters_other _ _ _ (c0 :: post)).
  - exists tr, c, []. split_and!; [done| |].
    + split_and!; [done|done|]. intros mid ->%prefix_nil_inv. done.
    + intros cpu. by rewrite Hm, counters_single, on_flow_eq by done.
  - destruct (Hn). destruct Hk as [cpu Hc]. exists cpu. by rewrite Hm in Hc.
  - by destruct Hm.
Qed.
End since_creation.

(** The flows seen in a history. *)
Definition flows {MF : Type} `{!BpfMap MF Z Z} (feat : MF) (tr : list (env * op)) : gset flow_tuple_4 :=
  list_to_set (omap (flow_of feat) tr).

Lemma flows_snoc {MF : Type} `{!BpfMap MF Z Z} (feat : MF) (tr : list (env * op)) (c : env * op) :
  flows feat (tr ++ [c]) =
  match flow_of feat c with Some t => {[t]} ∪ flows feat tr | None => flows feat tr end.
Proof.
  unfold flows. rewrite omap_app, list_to_set_app_L. simpl.
  destruct (flow_of feat c); simpl; set_solver.
Qed.

(** A flow not yet seen has counted nothing. *)
Lemma counters_unseen {MF : Type} `{!BpfMap MF Z Z} (feat : MF) (cpu : Z) (t : flow_tuple_4)
    (tr : list (env * op)) :
  t ∉ flows feat tr -> counters feat cpu t tr = zeroed.
Proof.
  induction tr as [|c tr IH] using rev_ind; [done|]. rewrite flows_snoc. intros Hn.
  rewrite counters_other; [apply IH; by destruct (flow_of feat c); set_solver|].
  apply not_true_iff_false. rewrite on_flow_spec. intros [E _]. rewrite E in Hn. set_solver.
Qed.

Section capacity.
Context {MF : Type} `{!BpfMap MF Z Z} `{!LruPolicy flow_tuple_4 flow_metrics}.
Implicit Types (c : env * op) (tr : list (env * op)).

Definition flow_map : Type := lru_percpu_htab 65535 flow_tuple_4 flow_metrics.

(** The map holds exactly the flows seen, with all their packets. *)
Definition counted_all (feat : MF) tr (m : flow_map) : Prop :=
  dom (lru_elems m) = flows feat tr ∧
  ∀ t cpu, t ∈ flows feat tr -> bpf_map_lookup_elem cpu m t = Some (counters feat cpu t tr).

Lemma lru_update_room (m : flow_map) (cpu : Z) (t : flow_tuple_4) (v : flow_metrics) :
  lru_elems m !! t = None -> (size (lru_elems m) < N.to_nat 65535)%nat ->
  bpf_map_update_elem cpu m t v BPF_ANY = (LruPercpuHtab (lru_set cpu (lru_elems m) t v), 0).
Proof.
  intros Hn Hs. simpl. unfold lru_update. rewrite update_errno_any.
  rewrite bool_decide_false by (rewrite Hn; by intros [? ?]).
  rewrite (proj2 (N.ltb_lt _ _)) by lia. done.
Qed.

Lemma counted_all_step (s : state flow_map MF) tr c :
  fits 32 (skb_len_ (op_skb c.2)) ->
  (size (flows (features s) (tr ++ [c])) <= N.to_nat 65535)%nat ->
  counted_all (features s) tr (metrics s) -> counted_all (features s) (tr ++ [c]) (metrics_after c s).
Proof.
  intros Hlen Hsize [Hdom Hall]. unfold metrics_after, counted_all. rewrite flows_snoc in *.
  destruct (flow_of (features s) c) as [t0|] eqn:Hf.
  2: { split; [done|]. intros t cpu Ht. rewrite counters_other; [by apply Hall|].
       apply not_true_iff_false. rewrite on_flow_spec. by intros [? _]; congruence. }
  assert (∀ t cpu, t0 ≠ t ∨ smp_id c.1 ≠ cpu -> on_flow (features s) cpu t c = false) as Hoff.
  { intros t cpu Hne. apply not_true_iff_false. rewrite on_flow_spec, Hf. by intros [[= ->] <-]; destruct Hne. }
  destruct (decide (t0 ∈ flows (features s) tr)) as [Hin|Hout].
  - assert ({[t0]} ∪ flows (features s) tr = flows (features s) tr) as Heq by set_solver. rewrite Heq.
    rewrite (Hall _ _ Hin). split.
    + simpl. by rewrite !dom_alter_L.
    + intros t cpu Ht. destruct (Z.eq_dec (smp_id c.1) cpu) as [<-|Hcpu].
      * destruct (decide (t0 = t)) as [<-|Hne].
        { rewrite !law_store_eq, (Hall _ _ Hin). simpl. by rewrite counters_add by (by apply on_flow_spec). }
        { rewrite !law_store_ne, (Hall _ _ Ht), counters_other by auto. done. }
      * rewrite !lru_store_other, (Hall _ _ Ht), counters_other by auto. done.
  - assert (lru_elems (metrics s) !! t0 = None) as Hn by (apply not_elem_of_dom; by rewrite Hdom).
    assert (bpf_map_lookup_elem (smp_id c.1) (metrics s) t0 = None) as -> by (simpl; unfold lru_lookup; by rewrite Hn).
    rewrite lru_update_room; [|done|].
    2: { rewrite size_union, size_singleton in Hsize by set_solver. rewrite <- size_dom, Hdom. lia. }
    cbn [fst]. split.
    + simpl. unfold lru_set. by rewrite dom_insert_L, Hdom.
    + intros t cpu Ht. simpl. unfold lru_lookup. simpl. rewrite lru_set_lookup.
      destruct (decide (t0 = t)) as [<-|Hne].
      * rewrite Hn. simpl. rewrite lookup_insert. destruct (decide (smp_id c.1 = cpu)) as [<-|Hcpu].
        { rewrite <- counters_add by (by apply on_flow_spec). rewrite counters_unseen by done.
          unfold add_bytes, add_packets, zeroed, flow_metrics_zeroed. cbn [packets bytes drops retrans].
          rewrite !Z.add_0_l, (wrap_small 64 (skb_len_ (op_skb c.2))) by (by apply (fits_mono 32)). done. }
        { by rewrite lookup_empty, counters_other, counters_unseen by auto. }
      * rewrite counters_other by auto. apply Hall. set_solver.
Qed.
End capacity.

(** ** Properties *)

Section properties.
Context {M MF : Type} `{!BpfMap M flow_tuple_4 flow_metrics, !BpfMap MF Z Z}.
Context `{!LruLaws M flow_tuple_4 flow_metrics}.

(** C27: flow counters never lie.  Under any traffic on any CPUs, with any
    evictions, starting from an empty map, and for packets whose length fits in
    32 bits:
    - a flow that is in the map was inserted by one of its packets, when it was
      not in the map, and has been there since; its counters on every CPU are
      exactly the number of packets and bytes of the flow from that packet on,
      that packet included (modulo 2^64);
    - after a packet of a flow the flow is in the map, unless it was not there
      before and the kernel refused the insertion;
    - a flow that leaves the map is evicted by a packet that inserts another
      flow;
    - packets are never dropped: each call returns [TC_ACT_OK]. *)
Theorem flow_counts_since_creation (s0 : state M MF) (tr : list (env * op)) (t : flow_tuple_4)
    (H0 : ∀ cpu t, bpf_map_lookup_elem cpu (metrics s0) t = None)
    (Hlen : Forall (λ c, fits 32 (skb_len_ (op_skb c.2))) tr) :
  (known (map_after s0 tr) t -> counted_since s0 t tr) ∧
  (∀ pre c, tr = pre ++ [c] -> flow_of (features s0) c = Some t ->
   known (map_after s0 tr) t ∨ ¬ known (map_after s0 pre) t ∧ refused (map_after s0 pre) t c) ∧
  (∀ pre c, tr = pre ++ [c] -> known (map_after s0 pre) t -> ¬ known (map_after s0 tr) t ->
   ∃ t', flow_of (features s0) c = Some t' ∧ t' ≠ t ∧ ¬ known (map_after s0 pre) t') ∧
  Forall (λ c, ∀ s : state M MF, (handler c.2 c.1 s).1.1 = TC_ACT_OK) tr.
Proof.
  split_and!; [|intros pre c -> Hf|intros pre c -> Hk Hn|apply Forall_true; intros c s; by rewrite flow_handler_run].
  - induction tr as [|c tr IH] using rev_ind; [intros [cpu [v Hv]]; pose proof (H0 cpu t); unfold map_after in Hv; simpl in Hv; congruence|].
    apply Forall_app in Hlen as [Hlen [Hc _]%Forall_cons]. apply counted_since_snoc; [done|by apply IH].
  - destruct (after_effect t s0 pre c) as [He Hfeat].
    destruct He as [Hne _|_ Hkn Hm|_ _ Hm|_ Hn Hr _|t' Hf' Hne _ _]; rewrite <- ?map_after_snoc, ?Hfeat in *.
    + done.
    + left. destruct (known_all _ _ 0 Hkn) as [v Hv]. exists 0. by rewrite (Hm 0 v Hv).
    + left. exists 0. by rewrite Hm.
    + by right.
    + congruence.
  - destruct (after_effect t s0 pre c) as [He Hfeat].
    destruct He as [_ Hm|_ _ Hm|_ Hx _|_ Hx _ _|t' Hf' Hne Hx _]; rewrite <- ?map_after_snoc, ?Hfeat in *.
    + destruct Hn, Hk as [cpu Hc]. exists cpu. by rewrite Hm.
    + destruct Hn, (known_all _ _ 0 Hk) as [v Hv]. exists 0. by rewrite (Hm 0 v Hv).
    + by destruct Hx.
    + by destruct Hx.
    + by exists t'.
Qed.
End properties.

Section exact_properties.
Context {MF : Type} `{!BpfMap MF Z Z} `{!LruPolicy flow_tuple_4 flow_metrics}.

Lemma run_counted_all (s0 : state flow_map MF) (tr : list (env * op))
    (H0 : lru_elems (metrics s0) = ∅)
    (Hlen : Forall (λ c, fits 32 (skb_len_ (op_skb c.2))) tr)
    (Hsize : (size (flows (features s0) tr) <= N.to_nat 65535)%nat) :
  counted_all (features s0) tr (metrics (run_calls handler tr s0).1).
Proof.
  induction tr as [|c tr IH] using rev_ind.
  { split; [unfold run_calls; simpl; by rewrite H0, dom_empty_L|]. intros t cpu Ht. set_solver. }
  apply Forall_app in Hlen as [Hlen [Hc _]%Forall_cons].
  assert (size (flows (features s0) tr) <= N.to_nat 65535)%nat as Hsize'.
  { etrans; [|exact Hsize]. apply subseteq_size. rewrite flows_snoc. destruct (flow_of _ c); set_solver. }
  specialize (IH Hlen Hsize'). pose proof (features_run tr s0) as Hfeat. rewrite run_calls_snoc.
  destruct (run_calls handler tr s0) as [s1 o1]. simpl in *. rewrite flow_handler_run. simpl.
  rewrite <- Hfeat in *. by apply counted_all_step.
Qed.

(** Accounting is exact up to the capacity.  As long as at most 65535
    different flows were seen, the map holds exactly these flows, and the
    counters of each on each CPU are all its packets and bytes there, whatever
    the eviction policy. *)
Theorem flow_exact_below_capacity (s0 : state flow_map MF) (tr : list (env * op))
    (H0 : lru_elems (metrics s0) = ∅)
    (Hlen : Forall (λ c, fits 32 (skb_len_ (op_skb c.2))) tr)
    (Hsize : (size (flows (features s0) tr) <= N.to_nat 65535)%nat) :
  counted_all (features s0) tr (metrics (run_calls handler tr s0).1).
Proof. by apply run_counted_all. Qed.
End exact_properties.

(** Frames that are not IPv4 share one flow.  A frame with a complete
    Ethernet header whose type is not IPv4 is accounted to the all-zero
    tuple, whatever it carries (IPv6 is "not supported yet" and not
    skipped). *)
Theorem flow_non_ipv4 {MF : Type} `{!BpfMap MF Z Z} (feat : MF) (e : env) (skb : __sk_buff) (ty : Z)
    (Hlen : (14 <= length (skb_data skb))%nat) (Hty : ld (skb_data skb) 12 2 = Some ty)
    (Hne : ty ≠ bpf_htons ORDER_LITTLE_ENDIAN true ETH_P_IP) :
  flow_of feat (e, ingress skb) = Some zero_flow_tuple ∧
  flow_of feat (e, egress skb) = Some zero_flow_tuple.
Proof.
  unfold flow_of, set_flow_tuple4. cbn [op_skb snd fst]. unfold sizeof_ethhdr.
  destruct (Z.gtb_spec (0 + 14) (Z.of_nat (length (skb_data skb)))); [lia|]. rewrite Hty. cbn [mbind option_bind].
  rewrite (proj2 (Z.eqb_neq _ _) Hne). by destruct (_ =? _).
Qed.

(** ** Witnesses *)

Definition demo_features : percpu_array 16 Z := PercpuArray {[0 := {[0 := 1; 1 := 1]}]}.
#[local] Instance demo_policy : LruPolicy flow_tuple_4 flow_metrics := λ m, fst <$> head (map_to_list m).
Definition demo_state : state flow_map (percpu_array 16 Z) := State (LruPercpuHtab ∅) demo_features.
Definition demo_skb : __sk_buff := SkBuff (emit sample_frame) 46.
Definition demo_trace : list (env * op) :=
  [(demo_env (mem_of []) 0 1, ingress demo_skb); (demo_env (mem_of []) 1 2, egress demo_skb);
   (demo_env (mem_of []) 0 3, egress demo_skb)].
Definition demo_flow : flow_tuple_4 := FlowTuple4 17 16777226 33554442 13568 13330.

Lemma demo_lengths : Forall (λ c, fits 32 (skb_len_ (op_skb c.2))) demo_trace.
Proof. repeat (apply Forall_cons; split; [by split|]). done. Qed.

Lemma flow_counts_since_creation_witness :
  counted_since demo_state demo_flow demo_trace ∧
  bpf_map_lookup_elem 0 (map_after demo_state demo_trace) demo_flow = Some (FlowMetrics 2 92 0 0).
Proof.
  split; [|vm_compute; done].
  refine (proj1 (flow_counts_since_creation demo_state demo_trace demo_flow _ demo_lengths) _).
  - intros. done.
  - exists 0. vm_compute. by eexists.
Defined.

Lemma flow_exact_below_capacity_witness :
  bpf_map_lookup_elem 1 (metrics (run_calls handler demo_trace demo_state).1) demo_flow =
  Some (counters demo_features 1 demo_flow demo_trace) ∧
  counters demo_features 1 demo_flow demo_trace = FlowMetrics 1 46 0 0.
Proof.
  split; [|vm_compute; done].
  refine (proj2 (flow_exact_below_capacity demo_state demo_trace eq_refl demo_lengths _) demo_flow 1 _).
  - assert (size (flows demo_features demo_trace) = 1%nat) as Hs by (vm_compute; done).
    cbn [features demo_state]. rewrite Hs. lia.
  - apply (bool_decide_unpack _). vm_compute. done.
Defined.

(** An ARP frame. *)
Lemma flow_non_ipv4_witness :
  flow_of demo_features (demo_env (mem_of []) 0 1,
    ingress (SkBuff (replicate 12 1 ++ [8; 6] ++ replicate 28 0) 42)) = Some zero_flow_tuple.
Proof.
  refine (proj1 (flow_non_ipv4 demo_features (demo_env (mem_of []) 0 1)
    (SkBuff (replicate 12 1 ++ [8; 6] ++ replicate 28 0) 42) 1544 _ _ _)).
  - simpl. lia.
  - vm_compute. done.
  - vm_compute. done.
Defined.
End Flow.
