(* ===== verification/Kprobe.v ===== *)
(** src/bpf/kprobe.c: the sample program that counts [execve] calls in a
    one-element array. *)

From S2P Require Import Prelude KernelMem BpfMaps BpfRuntime.

Module Kprobe.

Section probe.
Context {M : Type} `{!BpfMap M Z Z}.

Definition kprobe_map : lens M M := Lens id (λ m _, m).

Definition kprobe_execve : prog M Empty_set Z :=
  let key := 0 in
  let initval := 1 in
  valp ← map_lookup kprobe_map key;
  match valp with
  | None => _ ← map_update kprobe_map key initval BPF_ANY; mret 0
  | Some _ => _ ← map_store kprobe_map key (λ v, u64 (v + 1)); mret 0
  end.
End probe.

Definition execve_map : Type := array 1 Z.

Lemma execve_run (e : env) (m : execve_map) :
  kprobe_execve e m = (0, array_store m 0 (λ v, u64 (v + 1)), []).
Proof. done. Qed.

(** The program counts.  After [n] calls on any CPUs, starting from the
    zero-initialised array, the element holds [n] modulo 2^64: the lookup of
    an array element never fails, so no call is lost and none is counted
    twice. *)
Theorem execve_counts (es : list env) :
  bpf_map_lookup_elem 0
    (run_trace ((λ e, (e, kprobe_execve (M := execve_map))) <$> es) (Array ∅)).1 0 =
  Some (u64 (Z.of_nat (length es))).
Proof.
  induction es as [|e es IH] using rev_ind; [done|].
  rewrite fmap_app, run_trace_app. destruct (run_trace _ (Array ∅)) as [m o]. cbn [fst snd] in *.
  cbn [fmap list_fmap run_trace]. rewrite execve_run. cbn [fst snd].
  simpl in *. unfold array_lookup, array_store in *. simpl in *. rewrite lookup_insert_eq. simpl.
  injection IH as ->. rewrite length_app. simpl.
  rewrite Nat2Z.inj_add. simpl. unfold wrap. by rewrite Zplus_mod_idemp_l.
Qed.
End Kprobe.
