(* ===== verification/EventLayout.v ===== *)
(** The wire format between the probes and the agent.

    A probe submits its event struct as raw memory; the agent decodes it with
    [binary.Read] into the Go struct that bpf2go generated
    (src/pkg/exporter/probe/*/bpf_bpfel_x86.go).  The C side is the layout of
    CLayout.v with its padding; the Go side reads the fields one after the
    other, without padding but for explicit blank fields.  The theorem is that
    every Go field gets the bytes of the C member of the same name. *)

From Stdlib Require Import Ascii.
From S2P Require Import Prelude CLayout Inspector.

(** ** The C structs *)

Definition comm_ctype : ctype := CArray (CInt 1) 20.

Definition insp_sklat_event_ctype : ctype :=
  struct ["target" ∷ comm_ctype; "tuple" ∷ tuple_ctype; "skb_meta" ∷ skb_meta_ctype; "pid" ∷ CInt 4;
    "cpu" ∷ CInt 4; "direction" ∷ CInt 4; "latency" ∷ CInt 8].
Definition insp_sklat_metric_ctype : ctype :=
  struct ["netns" ∷ CInt 4; "pid" ∷ CInt 4; "cpu" ∷ CInt 4; "bucket" ∷ CInt 4; "action" ∷ CInt 4].
Definition sklat_key_ctype : ctype :=
  packed_struct ["createat" ∷ CInt 8; "lastreceive" ∷ CInt 8; "lastread" ∷ CInt 8;
    "lastwrite" ∷ CInt 8; "lastsend" ∷ CInt 8].
Definition insp_nftxlat_event_ctype : ctype :=
  struct ["target" ∷ comm_ctype; "type" ∷ CInt 4; "tuple" ∷ tuple_ctype; "skb_meta" ∷ skb_meta_ctype;
    "pid" ∷ CInt 4; "cpu" ∷ CInt 4; "latency" ∷ CInt 8; "stack_id" ∷ CInt 8].
Definition insp_kl_event_ctype : ctype :=
  struct ["target" ∷ comm_ctype; "tuple" ∷ tuple_ctype; "skb_meta" ∷ skb_meta_ctype; "pid" ∷ CInt 4;
    "cpu" ∷ CInt 4; "direction" ∷ CInt 4; "latency" ∷ CInt 8; "point1" ∷ CInt 8; "point2" ∷ CInt 8;
    "point3" ∷ CInt 8; "point4" ∷ CInt 8].
Definition insp_softirq_event_ctype : ctype :=
  struct ["pid" ∷ CInt 4; "cpu" ∷ CInt 4; "phase" ∷ CInt 4; "vec_nr" ∷ CInt 4; "latency" ∷ CInt 8].
Definition insp_virtcmdlat_event_ctype : ctype :=
  struct ["pid" ∷ CInt 4; "cpu" ∷ CInt 4; "latency" ∷ CInt 8].
Definition insp_biolat_event_ctype : ctype :=
  struct ["target" ∷ comm_ctype; "disk" ∷ comm_ctype; "pid" ∷ CInt 4; "latency" ∷ CInt 8].
Definition insp_tcpreset_event_ctype : ctype :=
  struct ["type" ∷ CInt 4; "state" ∷ CInt 1; "tuple" ∷ tuple_ctype; "skb_meta" ∷ skb_meta_ctype;
    "stack_id" ∷ CInt 8].
Definition insp_tcpretrans_event_ctype : ctype :=
  struct ["tuple" ∷ tuple_ctype; "stack_id" ∷ CInt 8].
Definition insp_pl_event_ctype : ctype :=
  struct ["tuple" ∷ tuple_ctype; "location" ∷ CInt 8; "stack_id" ∷ CInt 8].
Definition flow_metrics_ctype : ctype :=
  struct ["packets" ∷ CInt 8; "bytes" ∷ CInt 8; "drops" ∷ CInt 4; "retrans" ∷ CInt 4].

(** ** The Go structs *)

Inductive gotype :=
  | GInt (sz : Z)                          (** intN or uintN *)
  | GBytes (n : Z)                         (** array of n bytes *)
  | GStruct (fs : list (string * gotype)).

Definition bpfAddr : gotype := GStruct [("V6addr", GBytes 16)]%string.
Definition bpfTuple : gotype :=
  GStruct [("Saddr", bpfAddr); ("Daddr", bpfAddr); ("Sport", GInt 2); ("Dport", GInt 2);
    ("L3Proto", GInt 2); ("L4Proto", GInt 1); ("Pad", GInt 1)]%string.
Definition goSkbMeta : gotype :=
  GStruct [("Netns", GInt 4); ("Mark", GInt 4); ("Ifindex", GInt 4); ("Len", GInt 4); ("Mtu", GInt 4);
    ("SkState", GInt 4); ("Protocol", GInt 2); ("Pad", GInt 2)]%string.

Definition bpfInspSklatEventT : gotype :=
  GStruct [("Target", GBytes 20); ("Tuple", bpfTuple); ("SkbMeta", goSkbMeta); ("Pid", GInt 4);
    ("Cpu", GInt 4); ("Direction", GInt 4); ("_", GBytes 4); ("Latency", GInt 8)]%string.
Definition bpfInspSklatMetricT : gotype :=
  GStruct [("Netns", GInt 4); ("Pid", GInt 4); ("Cpu", GInt 4); ("Bucket", GInt 4); ("Action", GInt 4)]%string.
Definition bpfSklatKeyT : gotype :=
  GStruct [("Createat", GInt 8); ("Lastreceive", GInt 8); ("Lastread", GInt 8); ("Lastwrite", GInt 8);
    ("Lastsend", GInt 8)]%string.
Definition bpfInspNftxlatEventT : gotype :=
  GStruct [("Target", GBytes 20); ("Type", GInt 4); ("Tuple", bpfTuple); ("SkbMeta", goSkbMeta);
    ("Pid", GInt 4); ("Cpu", GInt 4); ("_", GBytes 4); ("Latency", GInt 8); ("StackId", GInt 8)]%string.
Definition bpfInspKlEventT : gotype :=
  GStruct [("Target", GBytes 20); ("Tuple", bpfTuple); ("SkbMeta", goSkbMeta); ("Pid", GInt 4);
    ("Cpu", GInt 4); ("Direction", GInt 4); ("_", GBytes 4); ("Latency", GInt 8); ("Point1", GInt 8);
    ("Point2", GInt 8); ("Point3", GInt 8); ("Point4", GInt 8)]%string.
Definition bpfInspSoftirqEventT : gotype :=
  GStruct [("Pid", GInt 4); ("Cpu", GInt 4); ("Phase", GInt 4); ("VecNr", GInt 4); ("Latency", GInt 8)]%string.
Definition bpfInspVirtcmdlatEventT : gotype :=
  GStruct [("Pid", GInt 4); ("Cpu", GInt 4); ("Latency", GInt 8)]%string.
Definition bpfInspBiolatEventT : gotype :=
  GStruct [("Target", GBytes 20); ("Disk", GBytes 20); ("Pid", GInt 4); ("_", GBytes 4); ("Latency", GInt 8)]%string.
Definition bpfInspTcpresetEventT : gotype :=
  GStruct [("Type", GInt 4); ("State", GInt 1); ("Tuple", bpfTuple); ("SkbMeta", goSkbMeta);
    ("_", GBytes 7); ("StackId", GInt 8)]%string.
Definition bpfInspTcpretransEventT : gotype := GStruct [("Tuple", bpfTuple); ("StackId", GInt 8)]%string.
Definition bpfInspPlEventT : gotype :=
  GStruct [("Tuple", bpfTuple); ("Location", GInt 8); ("StackId", GInt 8)]%string.
Definition bpfFlowMetrics : gotype :=
  GStruct [("Packets", GInt 8); ("Bytes", GInt 8); ("Drops", GInt 4); ("Retrans", GInt 4)]%string.
Definition bpfFlowTuple4 : gotype :=
  GStruct [("Proto", GInt 1); ("_", GBytes 3); ("Src", GInt 4); ("Dst", GInt 4); ("Sport", GInt 2);
    ("Dport", GInt 2)]%string.

(** Every struct that crosses from a probe to the agent, with its Go type. *)
Definition event_types : list (ctype * gotype) :=
  [(insp_sklat_event_ctype, bpfInspSklatEventT); (insp_sklat_metric_ctype, bpfInspSklatMetricT);
   (sklat_key_ctype, bpfSklatKeyT); (insp_nftxlat_event_ctype, bpfInspNftxlatEventT);
   (insp_kl_event_ctype, bpfInspKlEventT); (insp_softirq_event_ctype, bpfInspSoftirqEventT);
   (insp_virtcmdlat_event_ctype, bpfInspVirtcmdlatEventT); (insp_biolat_event_ctype, bpfInspBiolatEventT);
   (insp_tcpreset_event_ctype, bpfInspTcpresetEventT);
   (insp_tcpretrans_event_ctype, bpfInspTcpretransEventT); (insp_pl_event_ctype, bpfInspPlEventT);
   (flow_metrics_ctype, bpfFlowMetrics); (flow_tuple_4_ctype, bpfFlowTuple4)].

(** ** Leaves and decoding *)

(** The scalar and array members of a C struct: access path, byte position and
    size.  Of a union bpf2go keeps the first member. *)
Fixpoint c_leaves (t : ctype) : list (list string * Z * Z) :=
  match t with
  | CInt sz => [([], 0, sz)]
  | CPtr _ => [([], 0, 8)]
  | CArray t n => [([], 0, n * sizeof t)]
  | CStruct p ms =>
      (fix go (pos : Z) (ms : list (string * ctype * option Z)) :=
         match ms with
         | [] => []
         | (n, t', b) :: ms' =>
             let start := place p pos (alignof t') (sizeof t') b in
             ((λ l, (n :: l.1.1, start / 8 + l.1.2, l.2)) <$> c_leaves t') ++
             go (start + extent (sizeof t') b) ms'
         end) 0 ms
  | CUnion p ms =>
      match ms with
      | [] => []
      | (n, t', b) :: _ => (λ l, (n :: l.1.1, l.1.2, l.2)) <$> c_leaves t'
      end
  end.

(** The name that bpf2go gives a C identifier: underscores dropped, the first
    letter and each letter after an underscore in upper case. *)
Definition upper (c : Ascii.ascii) : Ascii.ascii :=
  let n := Ascii.nat_of_ascii c in
  if (97 <=? n)%nat && (n <=? 122)%nat then Ascii.ascii_of_nat (n - 32) else c.
Fixpoint camel (up : bool) (s : string) : string :=
  match s with
  | EmptyString => EmptyString
  | String c s' =>
      if Ascii.eqb c "_"%char then camel true s'
      else String (if up then upper c else c) (camel false s')
  end.

(** [binary.Read]: consume the fields in order; blank fields are skipped; too
    short an input is an error. *)
Fixpoint binary_read (g : gotype) (bs : list Z) : option (list (list string * list Z) * list Z) :=
  let take_bytes n :=
    if (n <=? length bs)%nat then Some ([([], take n bs)], drop n bs) else None in
  match g with
  | GInt sz => take_bytes (Z.to_nat sz)
  | GBytes n => take_bytes (Z.to_nat n)
  | GStruct fs =>
      (fix go (fs : list (string * gotype)) (bs : list Z) :=
         match fs with
         | [] => Some ([], bs)
         | (n, g') :: fs' =>
             '(ls, bs1) ← binary_read g' bs;
             '(rs, bs2) ← go fs' bs1;
             Some ((if String.eqb n "_"%string then [] else (λ l, (n :: l.1, l.2)) <$> ls) ++ rs, bs2)
         end) fs bs
  end.

(** The positions at which it reads. *)
Fixpoint go_size (g : gotype) : Z :=
  match g with
  | GInt sz => sz
  | GBytes n => n
  | GStruct fs => (fix go fs := match fs with [] => 0 | (_, g') :: fs' => go_size g' + go fs' end) fs
  end.
Fixpoint go_leaves (g : gotype) (pos : Z) : list (list string * Z * Z) :=
  match g with
  | GInt sz => [([], pos, sz)]
  | GBytes n => [([], pos, n)]
  | GStruct fs =>
      (fix go (pos : Z) (fs : list (string * gotype)) :=
         match fs with
         | [] => []
         | (n, g') :: fs' =>
             (if String.eqb n "_"%string then [] else (λ l, (n :: l.1.1, l.1.2, l.2)) <$> go_leaves g' pos) ++
             go (pos + go_size g') fs'
         end) pos fs
  end.

(** All sizes are non-negative. *)
Fixpoint wf_gotype (g : gotype) : bool :=
  match g with
  | GInt sz => (0 <=? sz)%Z
  | GBytes n => (0 <=? n)%Z
  | GStruct fs => (fix go fs := match fs with [] => true | (_, g') :: fs' => wf_gotype g' && go fs' end) fs
  end.

(** The bytes of a member. *)
Definition member_bytes (bs : list Z) (l : list string * Z * Z) : list string * list Z :=
  (l.1.1, slice bs (Z.to_nat l.1.2) (Z.to_nat l.2)).

(** What the agent should see of a C member: its Go name and its bytes. *)
Definition decoded (bs : list Z) (l : list string * Z * Z) : list string * list Z :=
  (camel true <$> l.1.1, slice bs (Z.to_nat l.1.2) (Z.to_nat l.2)).

(** ** Lemmas *)

Section gotype_induction.
Context (P : gotype -> Prop).
Context (HI : ∀ sz, P (GInt sz)) (HB : ∀ n, P (GBytes n)).
Context (HS : ∀ fs, Forall (λ f : string * gotype, P f.2) fs -> P (GStruct fs)).

Fixpoint gotype_induction (g : gotype) : P g :=
  match g with
  | GInt sz => HI sz
  | GBytes n => HB n
  | GStruct fs =>
      HS fs ((fix go fs : Forall (λ f : string * gotype, P f.2) fs :=
        match fs with
        | [] => Forall_nil_2 _
        | f :: fs' => Forall_cons_2 _ f fs' (gotype_induction f.2) (go fs')
        end) fs)
  end.
End gotype_induction.

Lemma go_size_nonneg (g : gotype) : wf_gotype g = true -> 0 <= go_size g.
Proof.
  induction g as [sz|n|fs IH] using gotype_induction; simpl; [lia|lia|].
  induction IH as [|[n g'] fs Hg _ IHfs]; [done|]. intros [H1 H2]%andb_true_iff.
  specialize (Hg H1). specialize (IHfs H2). simpl in *. lia.
Qed.

(** [binary.Read] from position [pos] of the sample [bs]. *)
Lemma binary_read_at (g : gotype) (bs : list Z) (pos : Z) :
  wf_gotype g = true -> 0 <= pos -> pos + go_size g <= Z.of_nat (length bs) ->
  binary_read g (drop (Z.to_nat pos) bs) =
  Some (member_bytes bs <$> go_leaves g pos, drop (Z.to_nat (pos + go_size g)) bs).
Proof.
  assert (∀ n pos, 0 <= n -> 0 <= pos -> pos + n <= Z.of_nat (length bs) ->
    (if (Z.to_nat n <=? length (drop (Z.to_nat pos) bs))%nat
     then Some ([([], take (Z.to_nat n) (drop (Z.to_nat pos) bs))], drop (Z.to_nat n) (drop (Z.to_nat pos) bs))
     else None) =
    Some (member_bytes bs <$> [([], pos, n)], drop (Z.to_nat (pos + n)) bs)) as Hleaf.
  { intros n p Hn Hp Hl. rewrite length_drop, (proj2 (Nat.leb_le _ _)) by lia.
    rewrite drop_drop. do 2 f_equal. f_equal. lia. }
  revert pos. induction g as [sz|n|fs IH] using gotype_induction; intros pos Hwf Hpos Hlen; simpl in *.
  - apply Hleaf; lia.
  - apply Hleaf; lia.
  - revert pos Hpos Hlen Hwf. induction IH as [|[n g'] fs Hg _ IHfs]; intros pos Hpos Hlen Hwf.
    + by rewrite Z.add_0_r.
    + apply andb_true_iff in Hwf as [H1 H2].
      pose proof (go_size_nonneg g' H1) as Hn1.
      assert (0 <= go_size (GStruct fs)) as Hn2 by (by apply go_size_nonneg). simpl in *.
      rewrite (Hg pos H1 Hpos) by lia. simpl.
      rewrite (IHfs (pos + go_size g')) by (done || lia). simpl.
      rewrite fmap_app, Z.add_assoc. destruct (String.eqb n "_"); [done|].
      rewrite <- !list_fmap_compose. done.
Qed.

Lemma binary_read_whole (g : gotype) (bs : list Z) :
  wf_gotype g = true -> go_size g <= Z.of_nat (length bs) ->
  binary_read g bs = Some (member_bytes bs <$> go_leaves g 0, drop (Z.to_nat (go_size g)) bs).
Proof. intros. exact (binary_read_at g bs 0 ltac:(done) ltac:(lia) ltac:(lia)). Qed.

(** The layouts of the two sides agree, by computation. *)
Definition layouts_agree (tg : ctype * gotype) : bool :=
  bool_decide (go_leaves tg.2 0 = (λ l, (camel true <$> l.1.1, l.1.2, l.2)) <$> c_leaves tg.1) &&
  (go_size tg.2 =? sizeof tg.1) && wf_gotype tg.2.

Lemma event_layouts_agree : forallb layouts_agree event_types = true.
Proof. vm_compute. done. Qed.

(** ** Properties *)

(** C32: The agent decodes what the probes wrote.  For every struct that
    crosses from a BPF program to the agent, and every sample at least as long
    as the C struct, [binary.Read] succeeds, and the Go field of each name
    gets exactly the bytes of the C member of that name, padding skipped. *)
Theorem event_decoding (t : ctype) (g : gotype) (bs : list Z)
    (Hin : (t, g) ∈ event_types) (Hlen : sizeof t <= Z.of_nat (length bs)) :
  binary_read g bs =
  Some (decoded bs <$> c_leaves t, drop (Z.to_nat (sizeof t)) bs).
Proof.
  pose proof event_layouts_agree as Hall. rewrite forallb_forall in Hall.
  apply list_elem_of_In, Hall in Hin. unfold layouts_agree in Hin.
  apply andb_true_iff in Hin as [[Hl Hs]%andb_true_iff Hwf]. simpl in *.
  apply bool_decide_eq_true in Hl. apply Z.eqb_eq in Hs.
  rewrite binary_read_whole, Hl, Hs by (done || lia). by rewrite <- list_fmap_compose.
Qed.

(** A softirq event. *)
Lemma event_decoding_witness :
  let bs := le_bytes 4 4242 ++ le_bytes 4 0 ++ le_bytes 4 1 ++ le_bytes 4 3 ++ le_bytes 8 20000000 in
  binary_read bpfInspSoftirqEventT bs =
  Some ([(["Pid"], le_bytes 4 4242); (["Cpu"], le_bytes 4 0); (["Phase"], le_bytes 4 1);
         (["VecNr"], le_bytes 4 3); (["Latency"], le_bytes 8 20000000)]%string, []).
Proof.
  intros bs. rewrite (event_decoding insp_softirq_event_ctype bpfInspSoftirqEventT bs).
  - vm_compute. done.
  - unfold event_types. do 5 apply list_elem_of_further. apply list_elem_of_here.
  - vm_compute. done.
Defined.
