(* ===== verification/IpCacheService.v ===== *)
(** src/pkg/controller/ipcache/ipcache.go: the controller's service that tells
    every agent which pod or node an IP address belongs to.

    Informer callbacks append set and delete operations, numbered by a
    revision counter, to the channel [logChan]; the goroutine [syncControl]
    moves them to the log and pushes them into one channel per watching
    client; the goroutine of each [WatchCache] call sends them on.  An agent
    lists the snapshot once and then watches from the revision that it has.

    The state is the [Service] struct with the local variables of
    [syncControl].  [exec] runs one atomic step of one goroutine; the number
    of pushes that find room in a client's channel while [syncControl] works
    on it is an input of the step ([room]), because the client's goroutine
    empties the channel concurrently.  Revisions are naturals: [exec] logs no
    change once the 64-bit counter is at its maximum. *)

From S2P Require Import Prelude.

Module IpCache.

(** ** Messages (ipcache.pb.go) *)

Inductive meta :=
  | MetaPod (Namespace Name : string)
  | MetaNode (Name : string)
  | MetaNone.

Record CacheEntry := Entry { IP : string; Meta : meta }.

Inductive OpCode := OpCode_Set | OpCode_Del | OpCode_Other (n : Z).

Record ListCacheResponse := ListResponse {
  list_period : string; list_revision : nat; list_entries : list CacheEntry }.

Inductive watch_error := InvalidArgument | DataLoss.

(** ** State *)

Definition MaxSyncBatchSize : nat := 20.
Definition CompactThreshold : nat := Z.to_nat 10240.
Definition client_capacity : nat := (4 * 1024)%nat.
Definition logChan_capacity : nat := Z.to_nat (10 * 1024).

Record changeLog := ChangeLog { revision : nat; opcode : OpCode; entry : CacheEntry }.

Record snapshot := Snapshot { snap_revision : nat; entries : gmap string CacheEntry }.

Inductive clientstate := stale | uptodate | blocking.

#[global] Instance clientstate_eq_dec : EqDecision clientstate.
Proof. solve_decision. Defined.

(** A client with its channel; [c_id] stands for its address, [c_from] is the
    revision that it asked for, and [sent] the responses of its stream. *)
Record client := Client {
  c_id : nat;
  c_from : nat;
  c_revision : nat;
  closed : bool;
  c_state : clientstate;
  ch : list changeLog;
  sent : list changeLog;
}.

Record Service := MkService {
  storage_revision : nat;
  snap : snapshot;
  log : list changeLog;
  clients : list client;
  period : string;
  logChan : list changeLog;
  (** local variables of [syncControl] *)
  pendingLogs : list changeLog;
  maxSyncedRevision : nat;
  ticking : bool;          (** between the two halves of the ticker case *)
  next_id : nat;
}.

Definition set_log (l : list changeLog) (s : Service) : Service :=
  MkService (storage_revision s) (snap s) l (clients s) (period s) (logChan s) (pendingLogs s)
    (maxSyncedRevision s) (ticking s) (next_id s).
Definition set_snap (x : snapshot) (s : Service) : Service :=
  MkService (storage_revision s) x (log s) (clients s) (period s) (logChan s) (pendingLogs s)
    (maxSyncedRevision s) (ticking s) (next_id s).
Definition set_clients (cs : list client) (s : Service) : Service :=
  MkService (storage_revision s) (snap s) (log s) cs (period s) (logChan s) (pendingLogs s)
    (maxSyncedRevision s) (ticking s) (next_id s).
Definition set_pending (p : list changeLog) (m : nat) (s : Service) : Service :=
  MkService (storage_revision s) (snap s) (log s) (clients s) (period s) (logChan s) p m (ticking s) (next_id s).
Definition set_ticking (b : bool) (s : Service) : Service :=
  MkService (storage_revision s) (snap s) (log s) (clients s) (period s) (logChan s) (pendingLogs s)
    (maxSyncedRevision s) b (next_id s).
Definition set_chan (r : nat) (q : list changeLog) (s : Service) : Service :=
  MkService r (snap s) (log s) (clients s) (period s) q (pendingLogs s) (maxSyncedRevision s) (ticking s) (next_id s).

Definition NewService (period : string) : Service :=
  MkService 0 (Snapshot 0 ∅) [] [] period [] [] 0 false 0.

(** ** Requests *)

Definition ListCache (s : Service) : ListCacheResponse :=
  ListResponse (period s) (snap_revision (snap s)) ((map_to_list (entries (snap s))).*2).

(** The first part of [WatchCache]: admission of a client. *)
Definition WatchCache (req_period : string) (req_revision : nat) (s : Service) : Service + watch_error :=
  if negb (String.eqb req_period (period s)) then inr InvalidArgument
  else if bool_decide (req_revision < snap_revision (snap s))%nat then inr DataLoss
  else
    let c := Client (next_id s) req_revision req_revision false stale [] [] in
    inl (MkService (storage_revision s) (snap s) (log s) (clients s ++ [c]) (period s) (logChan s)
           (pendingLogs s) (maxSyncedRevision s) (ticking s) (S (next_id s))).

(** [update_client id f]: an assignment through the pointer to a client. *)
Definition update_client (id : nat) (f : client -> client) (cs : list client) : list client :=
  (λ c, if bool_decide (c_id c = id) then f c else c) <$> cs.

(** The loop of [WatchCache]: the stream's context ends, or one response is
    sent ([ok]) or fails to be sent. *)
Definition watch_done (c : client) : client :=
  Client (c_id c) (c_from c) (c_revision c) true (c_state c) (ch c) (sent c).
Definition watch_send (ok : bool) (c : client) : client :=
  match ch c with
  | [] => c
  | cl :: q =>
      if ok then Client (c_id c) (c_from c) (c_revision c) (closed c) (c_state c) q (sent c ++ [cl])
      else Client (c_id c) (c_from c) (c_revision c) true (c_state c) q (sent c)
  end.

(** ** The log *)

(** Binary search; [fuel] bounds the iterations, [length slice + 1] is enough. *)
Fixpoint findNext_loop (slice : list changeLog) (target : nat) (start end_ ret : Z) (fuel : nat) : option Z :=
  match fuel with
  | O => None
  | S fuel' =>
      if start <=? end_ then
        let mid := (start + end_) / 2 in
        match slice !! Z.to_nat mid with
        | None => None
        | Some cl =>
            if (revision cl <=? target)%nat then findNext_loop slice target (mid + 1) end_ ret fuel'
            else findNext_loop slice target start (mid - 1) mid fuel'
        end
      else Some ret
  end.

Definition findNext (slice : list changeLog) (target : nat) : option Z :=
  findNext_loop slice target 0 (Z.of_nat (length slice) - 1) (-1) (S (length slice)).

(** One iteration of [logChange]: the counter and the send happen under
    [logLock]. *)
Definition log_one (op : OpCode) (e : CacheEntry) (s : Service) : Service :=
  let r := S (storage_revision s) in
  set_chan r (logChan s ++ [ChangeLog r op e]) s.

Definition logChange (op : OpCode) (es : list CacheEntry) (s : Service) : Service :=
  foldl (λ s e, log_one op e s) s es.

Definition apply (m : gmap string CacheEntry) (cl : changeLog) : gmap string CacheEntry :=
  match opcode cl with
  | OpCode_Set => <[IP (entry cl) := entry cl]> m
  | OpCode_Del => delete (IP (entry cl)) m
  | OpCode_Other _ => m
  end.

(** The loop of [compactLog] over [i], which it never increments; [None] if
    [fuel] iterations do not end it. *)
Fixpoint compact_loop (log : list changeLog) (minRevision i : nat) (sn : snapshot) (fuel : nat) : option snapshot :=
  match fuel with
  | O => None
  | S fuel' =>
      match log !! i with
      | None => Some sn
      | Some cl =>
          if (minRevision <? revision cl)%nat then Some sn
          else compact_loop log minRevision i (Snapshot (revision cl) (apply (entries sn) cl)) fuel'
      end
  end.

Definition min_revision (cs : list client) : nat :=
  foldl (λ m c, if closed c then m else if (c_revision c <? m)%nat then c_revision c else m) 0%nat cs.

Definition compactLog (fuel : nat) (s : Service) : option Service :=
  let minRevision := min_revision (clients s) in
  if (minRevision =? 0)%nat then Some s
  else (λ sn, set_snap sn s) <$> compact_loop (log s) minRevision 0 (snap s) fuel.

(** ** Synchronisation *)

(** [copyClients]: the selected clients and the list that remains.  An element
    that [list.Remove] took out of its list has no [Next], so the loop ends
    after the first closed client. *)
Fixpoint copyClients (filter : clientstate -> bool) (cs : list client) : list nat * list client :=
  match cs with
  | [] => ([], [])
  | c :: cs' =>
      if closed c then ([], cs')
      else
        let '(ret, rest) := copyClients filter cs' in
        ((if filter (c_state c) then [c_id c] else []) ++ ret, c :: rest)
  end.

Definition push (cl : changeLog) (c : client) : client :=
  Client (c_id c) (c_from c) (revision cl) (closed c) (c_state c) (ch c ++ [cl]) (sent c).
Definition set_state (st : clientstate) (c : client) : client :=
  Client (c_id c) (c_from c) (c_revision c) (closed c) st (ch c) (sent c).

Fixpoint syncOneUpdateToDateClient (room : nat) (cls : list changeLog) (c : client) {struct cls} : client :=
  match cls with
  | [] => set_state uptodate c
  | cl :: cls' =>
      match room with
      | O => set_state blocking c
      | S room' => syncOneUpdateToDateClient room' cls' (push cl c)
      end
  end.

Definition find_client (id : nat) (cs : list client) : option client :=
  snd <$> list_find (λ c, c_id c = id) cs.

(** [None]: the goroutine panics, which ends the controller. *)
Fixpoint sync_uptodate (ids : list nat) (room : nat -> nat) (cls : list changeLog) (upToDateRevision : nat)
    (cs : list client) : option (list client) :=
  match ids with
  | [] => Some cs
  | id :: ids' =>
      c ← find_client id cs;
      if negb (c_revision c =? upToDateRevision)%nat then None
      else sync_uptodate ids' room cls upToDateRevision
             (update_client id (syncOneUpdateToDateClient (room id) cls) cs)
  end.

Definition is_uptodate (st : clientstate) : bool := bool_decide (st = uptodate).

Definition syncUpToDateClients (room : nat -> nat) (cls : list changeLog) (upToDateRevision : nat)
    (s : Service) : option Service :=
  let '(ids, cs) := copyClients is_uptodate (clients s) in
  (λ cs', set_clients cs' s) <$> sync_uptodate ids room cls upToDateRevision cs.

Fixpoint sync_one_loop (room : nat) (cls : list changeLog) (upToDateRevision : nat) (c : client)
    {struct cls} : client :=
  match cls with
  | [] => c
  | cl :: cls' =>
      match room with
      | O => set_state blocking c
      | S room' =>
          let c := push cl c in
          if (revision cl =? upToDateRevision)%nat then set_state uptodate c
          else if (upToDateRevision <? revision cl)%nat then set_state stale c
          else sync_one_loop room' cls' upToDateRevision c
      end
  end.

Definition syncOne (room : nat) (log : list changeLog) (upToDateRevision : nat) (c : client) : client :=
  match findNext log (c_revision c) with
  | Some index => if index =? -1 then c else sync_one_loop room (drop (Z.to_nat index) log) upToDateRevision c
  | None => c
  end.

Definition is_behind (st : clientstate) : bool := bool_decide (st = stale) || bool_decide (st = blocking).

Definition syncClients (room : nat -> nat) (upToDateRevision : nat) (s : Service) : Service :=
  let '(ids, cs) := copyClients is_behind (clients s) in
  set_clients (foldl (λ cs id, update_client id (syncOne (room id) (log s) upToDateRevision) cs) cs ids) s.

Definition last_revision (cls : list changeLog) : nat := default 0%nat (revision <$> last cls).

(** Hand the pending changes to the up-to-date clients. *)
Definition flush (room : nat -> nat) (s : Service) : option Service :=
  s' ← syncUpToDateClients room (pendingLogs s) (maxSyncedRevision s) s;
  Some (set_pending [] (last_revision (pendingLogs s)) s').

(** [case cl := <-s.logChan] *)
Definition on_log (room : nat -> nat) (cl : changeLog) (s : Service) : option Service :=
  let s := set_log (log s ++ [cl]) s in
  s ← (if (CompactThreshold <? length (log s))%nat then compactLog (S (length (log s))) s else Some s);
  let s := set_pending (pendingLogs s ++ [cl]) (maxSyncedRevision s) s in
  if (MaxSyncBatchSize <? length (pendingLogs s))%nat then flush room s else Some s.

(** [case <-ticker.C], up to and from the call of [syncClients]. *)
Definition on_tick_flush (room : nat -> nat) (s : Service) : option Service :=
  set_ticking true <$> (if (0 <? length (pendingLogs s))%nat then flush room s else Some s).
Definition on_tick_sync (room : nat -> nat) (s : Service) : Service :=
  set_ticking false (syncClients room (maxSyncedRevision s) s).

(** ** Steps *)

Inductive action :=
  | Log (op : OpCode) (e : CacheEntry)             (** an informer callback logs a change *)
  | Receive (room : nat -> nat)                    (** [syncControl] takes a change *)
  | TickFlush (room : nat -> nat)                  (** [syncControl] handles a tick *)
  | TickSync (room : nat -> nat)
  | Watch (req_period : string) (req_revision : nat)
  | Send (id : nat) (ok : bool)                    (** the goroutine of a client sends a response *)
  | Done (id : nat).                               (** the stream of a client ends *)

Inductive outcome := Ok (s : Service) | Blocked | Panic.

Definition of_option (o : option Service) : outcome := from_option Ok Panic o.

Definition exec (a : action) (s : Service) : outcome :=
  match a with
  | Log op e =>
      if (length (logChan s) <? logChan_capacity)%nat && (Z.of_nat (storage_revision s) <? 2 ^ 64 - 1)
      then Ok (log_one op e s) else Blocked
  | Receive room =>
      if ticking s then Blocked else
      match logChan s with
      | [] => Blocked
      | cl :: q => of_option (on_log room cl (set_chan (storage_revision s) q s))
      end
  | TickFlush room => if ticking s then Blocked else of_option (on_tick_flush room s)
  | TickSync room => if ticking s then Ok (on_tick_sync room s) else Blocked
  | Watch p r => match WatchCache p r s with inl s' => Ok s' | inr _ => Blocked end
  | Send id ok => Ok (set_clients (update_client id (λ c, if closed c then c else watch_send ok c) (clients s)) s)
  | Done id => Ok (set_clients (update_client id watch_done (clients s)) s)
  end.

(** The states that actions satisfying [P] lead to. *)
Inductive reachable (P : action -> Prop) (p : string) : Service -> Prop :=
  | reach_init : reachable P p (NewService p)
  | reach_step (s s' : Service) (a : action) :
      reachable P p s -> P a -> exec a s = Ok s' -> reachable P p s'.

Fixpoint run (tr : list action) (s : Service) : outcome :=
  match tr with
  | [] => Ok s
  | a :: tr' => match exec a s with Ok s' => run tr' s' | o => o end
  end.

(** Streams stay open. *)
Definition keeps_open (a : action) : Prop :=
  match a with Done _ | Send _ false => False | _ => True end.

(** ** Invariants *)

(** What a client got is the log from its start to its revision. *)
Definition client_ok (l : list changeLog) (c : client) : Prop :=
  (c_from c <= c_revision c)%nat ∧
  (c_revision c = c_from c ∨ c_revision c <= length l)%nat ∧
  sent c `prefix_of` drop (c_from c) (take (c_revision c) l) ∧
  (closed c = false -> sent c ++ ch c = drop (c_from c) (take (c_revision c) l)).

Record inv (s : Service) : Prop := Inv {
  inv_numbers : revision <$> (log s ++ logChan s) = seq 1 (storage_revision s);
  inv_snapshot : snap s = Snapshot 0 ∅;
  inv_pending : ∃ synced, log s = synced ++ pendingLogs s ∧ length synced = maxSyncedRevision s;
  inv_ids : NoDup (c_id <$> clients s);
  inv_fresh : Forall (λ i, i < next_id s)%nat (c_id <$> clients s);
  inv_clients : Forall (client_ok (log s)) (clients s);
}.

(** While all streams are open, the clients marked up to date are. *)
Definition open_ok (s : Service) : Prop :=
  Forall (λ c, closed c = false ∧ (c_state c = uptodate -> c_revision c = maxSyncedRevision s)) (clients s).

(** ** Lemmas *)

Lemma findNext_loop_spec (l : list changeLog) (target fuel : nat) (start end_ ret : Z) :
  (∀ i j a b, (i <= j)%nat -> l !! i = Some a -> l !! j = Some b -> (revision a <= revision b)%nat) ->
  0 <= start -> end_ < Z.of_nat (length l) -> start <= end_ + 1 ->
  (end_ - start + 1 < Z.of_nat fuel) ->
  (∀ i a, Z.of_nat i < start -> l !! i = Some a -> (revision a <= target)%nat) ->
  (∀ i a, end_ < Z.of_nat i -> l !! i = Some a -> (target < revision a)%nat) ->
  ret = (if end_ =? Z.of_nat (length l) - 1 then -1 else end_ + 1) ->
  ∃ n, (n <= length l)%nat ∧
    findNext_loop l target start end_ ret fuel = Some (if (n =? length l)%nat then -1 else Z.of_nat n) ∧
    (∀ i a, l !! i = Some a -> (revision a <= target)%nat <-> (i < n)%nat).
Proof.
  intros Hsort. revert start end_ ret. induction fuel as [|fuel IH]; intros start end_ ret H0 Hl Hle Hf Hlo Hhi Hret;
    [lia|]. cbn [findNext_loop]. destruct (Z.leb_spec start end_) as [Hse|Hse].
  - assert (start <= (start + end_) / 2 <= end_) as [Hm1 Hm2]
      by (split; [apply Z.div_le_lower_bound|apply Z.div_le_upper_bound]; lia).
    set (mid := (start + end_) / 2) in *. clearbody mid.
    destruct (lookup_lt_is_Some_2 l (Z.to_nat mid)) as [cl Hcl]; [lia|]. rewrite Hcl.
    destruct (Nat.leb_spec (revision cl) target) as [Hr|Hr].
    + apply IH; try done; try lia. intros i a Hi Ha.
      pose proof (Hsort i (Z.to_nat mid) a cl ltac:(lia) Ha Hcl). lia.
    + apply IH; try done; try lia.
      * intros i a Hi Ha. pose proof (Hsort (Z.to_nat mid) i cl a ltac:(lia) Hcl Ha). lia.
      * destruct (Z.eqb_spec (mid - 1) (Z.of_nat (length l) - 1)); lia.
  - assert (end_ = start - 1) as -> by lia. exists (Z.to_nat start). split_and!; [lia| |].
    + f_equal. rewrite Hret. destruct (Z.eqb_spec (start - 1) (Z.of_nat (length l) - 1)), (Nat.eqb_spec (Z.to_nat start) (length l)); lia.
    + intros i a Ha. split; intros Hi.
      * destruct (decide (i < Z.to_nat start)%nat) as [|Hn]; [done|]. specialize (Hhi i a ltac:(lia) Ha). lia.
      * apply (Hlo i a); [lia|done].
Qed.

(** Consecutive revisions. *)
Lemma numbered_lookup (l : list changeLog) (k i : nat) (a : changeLog) :
  revision <$> l = seq k (length l) -> l !! i = Some a -> revision a = (k + i)%nat.
Proof.
  intros Hn Hi. pose proof (list_lookup_fmap revision l i) as H. rewrite Hn, Hi in H. simpl in H.
  apply lookup_seq in H. lia.
Qed.

Lemma findNext_numbered (l : list changeLog) (r : nat) :
  revision <$> l = seq 1 (length l) ->
  findNext l r = Some (if (r <? length l)%nat then Z.of_nat r else -1).
Proof.
  intros Hn. destruct (findNext_loop_spec l r (S (length l)) 0 (Z.of_nat (length l) - 1) (-1)) as (n & Hle & E & Hiff);
    try lia.
  - intros i j a b Hij Ha Hb. rewrite (numbered_lookup _ _ _ _ Hn Ha), (numbered_lookup _ _ _ _ Hn Hb). lia.
  - intros i a Hi Ha%lookup_lt_Some. lia.
  - by rewrite Z.eqb_refl.
  - unfold findNext. rewrite E. f_equal. assert (n = length l ∨ n < length l)%nat as [->|Hlt] by lia.
    + rewrite Nat.eqb_refl. destruct (Nat.ltb_spec r (length l)) as [Hr|Hr]; [|done].
      destruct (lookup_lt_is_Some_2 l r Hr) as [a Ha]. pose proof (numbered_lookup _ _ _ _ Hn Ha).
      pose proof (proj2 (Hiff r a Ha) Hr). lia.
    + destruct (Nat.eqb_spec n (length l)); [lia|].
      destruct (lookup_lt_is_Some_2 l n Hlt) as [a Ha]. pose proof (numbered_lookup _ _ _ _ Hn Ha).
      assert (r < S n)%nat by (destruct (decide (revision a <= r)%nat) as [Hd|]; [apply (Hiff n a Ha) in Hd; lia|lia]).
      destruct (decide (n = 0)%nat) as [->|Hn0]; [destruct (Nat.ltb_spec r (length l)); lia|].
      destruct (lookup_lt_is_Some_2 l (n - 1)) as [b Hb]; [lia|]. pose proof (numbered_lookup _ _ _ _ Hn Hb).
      pose proof (proj2 (Hiff (n - 1) b Hb) ltac:(lia))%nat. destruct (Nat.ltb_spec r (length l)); lia.
Qed.

(** [compactLog] never compacts: the minimum starts at 0, and no revision is
    below it. *)
Lemma min_revision_zero (cs : list client) : min_revision cs = 0%nat.
Proof.
  unfold min_revision. induction cs as [|c cs IH]; [done|]. simpl.
  destruct (closed c); [done|]. by destruct (Nat.ltb_spec (c_revision c) 0) as [|_]; [lia|].
Qed.

Lemma compactLog_id (fuel : nat) (s : Service) : compactLog fuel s = Some s.
Proof. unfold compactLog. by rewrite min_revision_zero. Qed.

(** *** Pushing changes to one client *)

Lemma push_ok (l : list changeLog) (c : client) (cl : changeLog) :
  client_ok l c -> l !! c_revision c = Some cl -> revision cl = S (c_revision c) -> client_ok l (push cl c).
Proof.
  intros (Hf & Hb & Hp & Hs) Hl Hr. pose proof (lookup_lt_Some _ _ _ Hl) as Hlt.
  assert (drop (c_from c) (take (S (c_revision c)) l) = drop (c_from c) (take (c_revision c) l) ++ [cl]) as E.
  { rewrite (take_S_r _ _ _ Hl), drop_app_le; [done|]. rewrite length_take. lia. }
  unfold client_ok, push. cbn [c_from c_revision sent ch closed]. rewrite Hr, E. split_and!; [lia|lia| |].
  - by apply prefix_app_r.
  - intros Hc. by rewrite app_assoc, Hs.
Qed.

Lemma set_state_ok (l : list changeLog) (c : client) (st : clientstate) : client_ok l c -> client_ok l (set_state st c).
Proof. done. Qed.

(** The changes that a client has not got. *)
Lemma missing_cons (l : list changeLog) (r : nat) (cl : changeLog) (cls : list changeLog) :
  revision <$> l = seq 1 (length l) -> cl :: cls = drop r l ->
  l !! r = Some cl ∧ revision cl = S r ∧ cls = drop (S r) l.
Proof.
  intros Hn E. assert (l !! r = Some cl) as Hl.
  { pose proof (lookup_drop l r 0) as H. rewrite <- E, Nat.add_0_r in H. done. }
  split_and!; [done|by rewrite (numbered_lookup _ _ _ _ Hn Hl)|].
  pose proof (drop_drop l 1 r) as H. rewrite <- E in H. cbn [drop] in H. rewrite drop_0 in H. by rewrite H, Nat.add_1_r.
Qed.

Record advance (l : list changeLog) (c c' : client) : Prop := Advance {
  adv_ok : client_ok l c -> client_ok l c';
  adv_id : c_id c' = c_id c;
  adv_from : c_from c' = c_from c;
  adv_closed : closed c' = closed c;
}.

Lemma advance_trans (l : list changeLog) (c1 c2 c3 : client) : advance l c1 c2 -> advance l c2 c3 -> advance l c1 c3.
Proof. intros [] []. split; [auto|congruence..]. Qed.

Lemma advance_push (l : list changeLog) (c : client) (cl : changeLog) :
  l !! c_revision c = Some cl -> revision cl = S (c_revision c) -> advance l c (push cl c).
Proof. intros. split; [|done..]. intros. by apply push_ok. Qed.

Lemma advance_state (l : list changeLog) (c : client) (st : clientstate) : advance l c (set_state st c).
Proof. by split. Qed.

Lemma syncOneUpdateToDate_advance (l cls : list changeLog) (room : nat) (c : client) :
  revision <$> l = seq 1 (length l) -> cls = drop (c_revision c) l ->
  advance l c (syncOneUpdateToDateClient room cls c) ∧
  (c_state (syncOneUpdateToDateClient room cls c) = uptodate ->
   (c_revision c <= length l)%nat -> c_revision (syncOneUpdateToDateClient room cls c) = length l) ∧
  (length cls <= room -> c_state (syncOneUpdateToDateClient room cls c) = uptodate)%nat.
Proof.
  intros Hn. revert room c. induction cls as [|cl cls IH]; intros room c E.
  - split_and!; [apply advance_state| |done]. intros _ Hle. simpl.
    assert (length (drop (c_revision c) l) = 0%nat) as H by by rewrite <- E. rewrite length_drop in H. lia.
  - destruct (missing_cons _ _ _ _ Hn E) as (Hl & Hr & Hd). destruct room as [|room].
    + cbn [syncOneUpdateToDateClient length]. split_and!; [apply advance_state|done|lia].
    + cbn [syncOneUpdateToDateClient]. destruct (IH room (push cl c)) as (Ha & Hu & Hroom);
        [by cbn [push c_revision]; rewrite Hr|]. split_and!.
      * eapply advance_trans; [|exact Ha]. by apply advance_push.
      * intros Hs _. apply Hu; [done|]. cbn [push c_revision]. apply lookup_lt_Some in Hl. lia.
      * intros ?. apply Hroom. simpl in *. lia.
Qed.

Lemma sync_one_loop_advance (l cls : list changeLog) (room up : nat) (c : client) :
  revision <$> l = seq 1 (length l) -> cls = drop (c_revision c) l ->
  advance l c (sync_one_loop room cls up c) ∧
  (c_state c ≠ uptodate -> c_state (sync_one_loop room cls up c) = uptodate ->
   c_revision (sync_one_loop room cls up c) = up) ∧
  (length cls <= room -> up = length l -> c_revision c <= length l ->
   c_revision (sync_one_loop room cls up c) = length l)%nat.
Proof.
  intros Hn. revert room c. induction cls as [|cl cls IH]; intros room c E.
  - split_and!; [by split|done|]. intros _ _ Hle. simpl.
    assert (length (drop (c_revision c) l) = 0%nat) as H by by rewrite <- E. rewrite length_drop in H. lia.
  - destruct (missing_cons _ _ _ _ Hn E) as (Hl & Hr & Hd). pose proof (lookup_lt_Some _ _ _ Hl) as Hlt.
    destruct room as [|room].
    + cbn [sync_one_loop length]. split_and!; [apply advance_state|done|lia].
    + cbn [sync_one_loop]. pose proof (advance_push l c cl Hl Hr) as Hp.
      destruct (Nat.eqb_spec (revision cl) up) as [Hu|Hu]; [|destruct (Nat.ltb_spec up (revision cl)) as [Hg|Hg]].
      * split_and!; [by split; apply Hp|done|]. cbn. lia.
      * split_and!; [by split; apply Hp|done|]. cbn. lia.
      * destruct (IH room (push cl c)) as (Ha & Hst & Hroom); [by cbn [push c_revision]; rewrite Hr|]. split_and!.
        -- by eapply advance_trans.
        -- intros Hne. by apply Hst.
        -- intros ? ? ?. apply Hroom; simpl in *; lia.
Qed.

Lemma syncOne_advance (l : list changeLog) (room up : nat) (c : client) :
  revision <$> l = seq 1 (length l) ->
  advance l c (syncOne room l up c) ∧
  (c_state c ≠ uptodate -> c_state (syncOne room l up c) = uptodate -> c_revision (syncOne room l up c) = up) ∧
  (length l - c_revision c <= room -> up = length l -> c_revision c <= length l ->
   c_revision (syncOne room l up c) = length l)%nat.
Proof.
  intros Hn. unfold syncOne. rewrite findNext_numbered by done.
  destruct (Nat.ltb_spec (c_revision c) (length l)) as [Hlt|Hge].
  - destruct (Z.eqb_spec (Z.of_nat (c_revision c)) (-1)); [lia|]. rewrite Nat2Z.id.
    destruct (sync_one_loop_advance l (drop (c_revision c) l) room up c Hn eq_refl) as (H1 & H2 & H3).
    split_and!; [done|done|]. intros. apply H3; [rewrite length_drop; lia|done|lia].
  - simpl. split_and!; [by split|done|lia].
Qed.

(** *** Lists of clients *)

Lemma update_client_ids (id : nat) (f : client -> client) (cs : list client) :
  (∀ c, c_id c = id -> c_id (f c) = c_id c) -> c_id <$> update_client id f cs = c_id <$> cs.
Proof.
  intros Hf. unfold update_client. rewrite <- list_fmap_compose. apply list_fmap_ext. intros _ c _. simpl.
  case_bool_decide; [by apply Hf|done].
Qed.

Lemma update_client_Forall (P : client -> Prop) (id : nat) (f : client -> client) (cs : list client) :
  (∀ c, c ∈ cs -> c_id c = id -> P c -> P (f c)) -> Forall P cs -> Forall P (update_client id f cs).
Proof.
  intros Hf H. apply Forall_fmap, Forall_forall. intros c Hc. simpl.
  pose proof (proj1 (Forall_forall P cs) H c Hc). case_bool_decide; [by apply Hf|done].
Qed.

Lemma find_client_Some (id : nat) (cs : list client) (c : client) :
  find_client id cs = Some c -> c ∈ cs ∧ c_id c = id.
Proof.
  unfold find_client. intros ([i c'] & E & ->)%fmap_Some. apply list_find_Some in E as (Hl & Hid & _).
  split; [by eapply list_elem_of_lookup_2|done].
Qed.

Lemma find_client_is_Some (id : nat) (cs : list client) : id ∈ c_id <$> cs -> is_Some (find_client id cs).
Proof.
  intros (c & -> & Hc)%list_elem_of_fmap. unfold find_client. apply fmap_is_Some.
  by apply (list_find_elem_of (λ c', c_id c' = c_id c) cs c).
Qed.

Lemma client_unique (cs : list client) (c c' : client) :
  NoDup (c_id <$> cs) -> c ∈ cs -> c' ∈ cs -> c_id c = c_id c' -> c = c'.
Proof.
  induction cs as [|x cs IH]; [by intros _ ?%elem_of_nil|]. rewrite fmap_cons, NoDup_cons, !elem_of_cons.
  intros [Hx Hnd] [->|Hc] [->|Hc'] E; [done| | |by apply IH].
  - destruct Hx. rewrite E. by apply list_elem_of_fmap_2.
  - destruct Hx. rewrite <- E. by apply list_elem_of_fmap_2.
Qed.

Lemma copyClients_sublist (f : clientstate -> bool) (cs : list client) : (copyClients f cs).2 `sublist_of` cs.
Proof.
  induction cs as [|c cs IH]; [done|]. simpl. destruct (closed c); [by apply sublist_cons|].
  destruct (copyClients f cs). by apply sublist_skip.
Qed.

Lemma copyClients_open (f : clientstate -> bool) (cs : list client) :
  Forall (λ c, closed c = false) cs ->
  copyClients f cs = (c_id <$> filter (λ c, f (c_state c) = true) cs, cs).
Proof.
  induction 1 as [|c cs Hc _ IH]; [done|]. cbn [copyClients]. rewrite Hc, IH.
  rewrite filter_cons. destruct (f (c_state c)) eqn:E.
  - by rewrite decide_True.
  - by rewrite decide_False by congruence.
Qed.

Lemma seq_app_l {A : Type} (f : A -> nat) (l1 l2 : list A) (n : nat) :
  f <$> (l1 ++ l2) = seq 1 n -> f <$> l1 = seq 1 (length l1).
Proof.
  intros H. assert (n = length l1 + length l2)%nat as ->.
  { rewrite <- (length_seq n 1), <- H, length_fmap. apply length_app. }
  rewrite fmap_app, seq_app in H. apply app_inj_1 in H as [H _]; [done|]. by rewrite length_fmap, length_seq.
Qed.

Lemma inv_log_numbers (s : Service) : inv s -> revision <$> log s = seq 1 (length (log s)).
Proof. intros H. exact (seq_app_l _ _ _ _ (inv_numbers s H)). Qed.

Lemma inv_pending_missing (s : Service) : inv s -> pendingLogs s = drop (maxSyncedRevision s) (log s).
Proof. intros H. destruct (inv_pending s H) as (l & -> & <-). by rewrite drop_app_length. Qed.

Lemma inv_max_le (s : Service) : inv s -> (maxSyncedRevision s <= length (log s))%nat.
Proof. intros H. destruct (inv_pending s H) as (l & -> & <-). rewrite length_app. lia. Qed.

Lemma Forall_sublist {A : Type} (P : A -> Prop) (l1 l2 : list A) : l1 `sublist_of` l2 -> Forall P l2 -> Forall P l1.
Proof. induction 1; rewrite ?Forall_cons; naive_solver. Qed.

Lemma inv_set_clients (s : Service) (cs : list client) :
  inv s -> c_id <$> cs `sublist_of` c_id <$> clients s -> Forall (client_ok (log s)) cs -> inv (set_clients cs s).
Proof.
  intros [] Hsub Hcs. split; try done; cbn [clients set_clients next_id].
  - by eapply sublist_NoDup.
  - eapply Forall_sublist; [exact Hsub|done].
Qed.

Lemma sync_uptodate_inv (l cls : list changeLog) (room : nat -> nat) (up : nat) (ids : list nat) (cs cs' : list client) :
  revision <$> l = seq 1 (length l) -> cls = drop up l -> NoDup (c_id <$> cs) ->
  sync_uptodate ids room cls up cs = Some cs' -> Forall (client_ok l) cs ->
  Forall (client_ok l) cs' ∧ c_id <$> cs' = c_id <$> cs.
Proof.
  intros Hn Hd. revert cs. induction ids as [|id ids IH]; intros cs Hnd E Hok; simpl in E; [by simplify_eq|].
  destruct (find_client id cs) as [c|] eqn:Ec; [|done]. simpl in E.
  destruct (Nat.eqb_spec (c_revision c) up) as [Hr|]; [|done]. simpl in E.
  apply find_client_Some in Ec as [Hc Hid].
  assert (c_id <$> update_client id (syncOneUpdateToDateClient (room id) cls) cs = c_id <$> cs) as Hids.
  { apply update_client_ids. clear. intros c _. revert c. generalize (room id) as r.
    induction cls as [|cl cls IH]; intros r c; [done|]. destruct r; [done|]. simpl. by rewrite IH. }
  destruct (IH _ ltac:(by rewrite Hids) E) as [Hf Hi].
  - apply update_client_Forall; [|done]. intros c' Hc' Hid' Hok'.
    assert (c' = c) as -> by (eapply client_unique; [exact Hnd|done|done|congruence]).
    apply (syncOneUpdateToDate_advance l cls (room id) c Hn); [congruence|done].
  - split; [done|congruence].
Qed.

Lemma last_revision_numbered (l : list changeLog) (k : nat) :
  l ≠ [] -> revision <$> l = seq (S k) (length l) -> last_revision l = (k + length l)%nat.
Proof.
  intros Hne Hn. unfold last_revision. destruct (last l) as [a|] eqn:E.
  - rewrite last_lookup in E. simpl. rewrite (numbered_lookup _ _ _ _ Hn E). destruct l; [done|]. simpl. lia.
  - by apply last_None in E.
Qed.

Lemma inv_last_revision (s : Service) :
  inv s -> pendingLogs s ≠ [] -> last_revision (pendingLogs s) = length (log s).
Proof.
  intros H Hne. destruct (inv_pending s H) as (l & E & Hl). rewrite E, length_app, Hl.
  apply last_revision_numbered; [done|]. pose proof (inv_log_numbers s H) as Hn.
  rewrite E, length_app, fmap_app, seq_app in Hn. apply app_inj_1 in Hn as [_ Hn]; [|by rewrite length_fmap, length_seq].
  by rewrite Hn, Hl.
Qed.

Lemma flush_inv (room : nat -> nat) (s s' : Service) :
  inv s -> pendingLogs s ≠ [] -> flush room s = Some s' -> inv s'.
Proof.
  intros H Hne E. unfold flush, syncUpToDateClients in E.
  pose proof (copyClients_sublist is_uptodate (clients s)) as Hsub.
  destruct (copyClients is_uptodate (clients s)) as [ids cs]. simpl in Hsub.
  destruct (sync_uptodate ids room (pendingLogs s) (maxSyncedRevision s) cs) as [cs'|] eqn:Es; [|done].
  simplify_eq/=. rewrite (inv_last_revision s H Hne).
  assert (c_id <$> cs `sublist_of` c_id <$> clients s) as Hids by by apply fmap_sublist.
  destruct (sync_uptodate_inv (log s) _ _ _ _ _ _ (inv_log_numbers s H) (inv_pending_missing s H)
    (sublist_NoDup _ _ (inv_ids s H) Hids) Es) as [Hok Hi].
  { eapply Forall_sublist; [exact Hsub|apply H]. }
  pose proof (inv_set_clients s cs' H ltac:(by rewrite Hi) Hok) as []. split; try done.
  exists (log s). by rewrite app_nil_r.
Qed.

Lemma client_ok_extend (l : list changeLog) (cl : changeLog) (c : client) : client_ok l c -> client_ok (l ++ [cl]) c.
Proof.
  intros (Hf & Hb & Hp & Hs).
  assert (drop (c_from c) (take (c_revision c) (l ++ [cl])) = drop (c_from c) (take (c_revision c) l)) as E.
  { destruct Hb as [->|Hb]; [|by rewrite take_app_le].
    rewrite !skipn_firstn_comm, Nat.sub_diag. done. }
  unfold client_ok. rewrite E, length_app. split_and!; [done|simpl; lia|done|done].
Qed.

Lemma sync_fold_Forall (P : client -> Prop) (f : nat -> client -> client) (ids : list nat) (cs : list client) :
  (∀ id c, c_id (f id c) = c_id c) -> (∀ id c, P c -> P (f id c)) -> Forall P cs ->
  Forall P (foldl (λ cs id, update_client id (f id) cs) cs ids) ∧
  c_id <$> foldl (λ cs id, update_client id (f id) cs) cs ids = c_id <$> cs.
Proof.
  intros Hid Hf. revert cs. induction ids as [|id ids IH]; intros cs HP; [done|]. simpl.
  destruct (IH (update_client id (f id) cs)) as [H1 H2].
  - apply update_client_Forall; [|done]. auto.
  - split; [done|]. rewrite H2. apply update_client_ids. auto.
Qed.

Lemma syncClients_inv (room : nat -> nat) (s : Service) : inv s -> inv (syncClients room (maxSyncedRevision s) s).
Proof.
  intros H. unfold syncClients. pose proof (copyClients_sublist is_behind (clients s)) as Hsub.
  destruct (copyClients is_behind (clients s)) as [ids cs]. simpl in Hsub.
  destruct (sync_fold_Forall (client_ok (log s)) (λ id, syncOne (room id) (log s) (maxSyncedRevision s)) ids cs)
    as [Hok Hids].
  - intros id c. apply (syncOne_advance (log s) (room id) (maxSyncedRevision s) c (inv_log_numbers s H)).
  - intros id c. apply (syncOne_advance (log s) (room id) (maxSyncedRevision s) c (inv_log_numbers s H)).
  - eapply Forall_sublist; [exact Hsub|apply H].
  - apply inv_set_clients; [done| |done]. rewrite Hids. by apply fmap_sublist.
Qed.

(** A change moves from the channel to the log and the pending list. *)
Definition take_change (cl : changeLog) (q : list changeLog) (s : Service) : Service :=
  set_pending (pendingLogs s ++ [cl]) (maxSyncedRevision s)
    (set_log (log s ++ [cl]) (set_chan (storage_revision s) q s)).

Lemma take_change_inv (s : Service) (cl : changeLog) (q : list changeLog) :
  inv s -> logChan s = cl :: q -> inv (take_change cl q s).
Proof.
  intros [] E. split; try done; cbn.
  - rewrite E in inv_numbers0. by rewrite <- app_assoc.
  - destruct inv_pending0 as (l & -> & Hl). exists l. by rewrite app_assoc.
  - eapply Forall_impl; [done|]. intros c. apply client_ok_extend.
Qed.

Lemma on_log_eq (room : nat -> nat) (s : Service) (cl : changeLog) (q : list changeLog) :
  on_log room cl (set_chan (storage_revision s) q s) =
  if (MaxSyncBatchSize <? length (pendingLogs (take_change cl q s)))%nat
  then flush room (take_change cl q s) else Some (take_change cl q s).
Proof. unfold on_log. rewrite compactLog_id. by destruct (CompactThreshold <? _)%nat. Qed.

Lemma on_log_inv (room : nat -> nat) (s s' : Service) (cl : changeLog) (q : list changeLog) :
  inv s -> logChan s = cl :: q -> on_log room cl (set_chan (storage_revision s) q s) = Some s' -> inv s'.
Proof.
  intros H E. rewrite on_log_eq. pose proof (take_change_inv s cl q H E) as H1.
  destruct (Nat.ltb_spec MaxSyncBatchSize (length (pendingLogs (take_change cl q s)))) as [Hl|_]; [|by intros [= <-]].
  apply flush_inv; [done|]. intros Hn. rewrite Hn in Hl. simpl in Hl. lia.
Qed.

Lemma inv_ticking (s : Service) (b : bool) : inv s -> inv (set_ticking b s).
Proof. by intros []. Qed.

Lemma on_tick_flush_inv (room : nat -> nat) (s s' : Service) : inv s -> on_tick_flush room s = Some s' -> inv s'.
Proof.
  intros H. unfold on_tick_flush. destruct (Nat.ltb_spec 0 (length (pendingLogs s))) as [Hl|_].
  - intros (s1 & E & ->)%fmap_Some. apply inv_ticking. eapply flush_inv; [exact H| |exact E].
    intros Hn. rewrite Hn in Hl. simpl in Hl. lia.
  - intros [= <-]. by apply inv_ticking.
Qed.

Lemma log_one_inv (op : OpCode) (e : CacheEntry) (s : Service) : inv s -> inv (log_one op e s).
Proof.
  intros []. split; try done. cbn [log_one set_chan logChan log storage_revision].
  by rewrite app_assoc, fmap_app, inv_numbers0, seq_S.
Qed.

Lemma watch_inv (p : string) (r : nat) (s s' : Service) : inv s -> WatchCache p r s = inl s' -> inv s'.
Proof.
  intros [] E. unfold WatchCache in E. destruct (negb _); [done|]. case_bool_decide; [done|]. simplify_eq.
  split; try done; cbn; rewrite ?fmap_app.
  - apply NoDup_app. split_and!; [done| |apply NoDup_singleton]. intros i Hi ->%list_elem_of_singleton.
    rewrite Forall_forall in inv_fresh0. specialize (inv_fresh0 _ Hi). simpl in *. lia.
  - apply Forall_app. split; [|by apply Forall_singleton; simpl; lia].
    eapply Forall_impl; [done|]. simpl. lia.
  - apply Forall_app. split; [done|]. apply Forall_singleton. unfold client_ok. cbn.
    rewrite skipn_firstn_comm, Nat.sub_diag. split_and!; [done|by left|done|done].
Qed.

Lemma watch_send_ok (l : list changeLog) (ok : bool) (c : client) :
  client_ok l c -> client_ok l (if closed c then c else watch_send ok c).
Proof.
  intros H. destruct (closed c) eqn:Hc; [done|]. unfold watch_send. destruct (ch c) as [|cl q] eqn:E; [done|].
  destruct H as (Hf & Hb & Hp & Hs). specialize (Hs Hc). destruct ok; unfold client_ok; cbn; [|done].
  assert ((sent c ++ [cl]) ++ q = drop (c_from c) (take (c_revision c) l)) as E' by by rewrite <- app_assoc, <- Hs, E.
  split_and!; [done|done| |done]. rewrite <- E'. by apply prefix_app_r.
Qed.

Lemma exec_inv (a : action) (s s' : Service) : inv s -> exec a s = Ok s' -> inv s'.
Proof.
  intros H E. destruct a; cbn [exec] in E.
  - destruct (_ && _); [|done]. injection E as <-. by apply log_one_inv.
  - destruct (ticking s); [done|]. destruct (logChan s) as [|cl q] eqn:Eq; [done|].
    destruct (on_log _ _ _) eqn:El; [|done]. injection E as <-. by eapply on_log_inv.
  - destruct (ticking s); [done|]. destruct (on_tick_flush _ _) eqn:El; [|done]. injection E as <-.
    by eapply on_tick_flush_inv.
  - destruct (ticking s); [|done]. injection E as <-. unfold on_tick_sync. apply inv_ticking. by apply syncClients_inv.
  - destruct (WatchCache _ _ _) eqn:Ew; [|done]. injection E as <-. by eapply watch_inv.
  - injection E as <-. apply inv_set_clients; [done| |].
    + rewrite update_client_ids; [done|]. intros c _. destruct (closed c); [done|].
      unfold watch_send. destruct (ch c); [done|]. by destruct ok.
    + apply update_client_Forall; [|apply H]. intros c _ _. apply watch_send_ok.
  - injection E as <-. apply inv_set_clients; [done| |].
    + by rewrite update_client_ids.
    + apply update_client_Forall; [|apply H]. intros c _ _ (? & ? & ? & ?). by split_and!.
Qed.

Lemma reachable_inv (P : action -> Prop) (p : string) (s : Service) : reachable P p s -> inv s.
Proof.
  induction 1 as [|s s' a _ IH _ E]; [|by eapply exec_inv].
  split; cbn; try done; [by exists []|apply NoDup_nil_2].
Qed.

(** *** Open streams *)

Lemma syncOneUpdateToDate_id (room : nat) (cls : list changeLog) (c : client) :
  c_id (syncOneUpdateToDateClient room cls c) = c_id c ∧ closed (syncOneUpdateToDateClient room cls c) = closed c.
Proof. revert room c. induction cls as [|cl cls IH]; intros [|room] c; try done. apply (IH room (push cl c)). Qed.

Lemma sync_uptodate_open (l cls : list changeLog) (room : nat -> nat) (up : nat) (ids : list nat) (cs : list client) :
  revision <$> l = seq 1 (length l) -> cls = drop up l -> (up <= length l)%nat ->
  NoDup ids -> ids ⊆ c_id <$> cs ->
  Forall (λ c, closed c = false ∧ (c_id c ∈ ids -> c_revision c = up) ∧
               (c_id c ∉ ids -> c_state c = uptodate -> c_revision c = length l)) cs ->
  ∃ cs', sync_uptodate ids room cls up cs = Some cs' ∧
    Forall (λ c, closed c = false ∧ (c_state c = uptodate -> c_revision c = length l)) cs'.
Proof.
  intros Hn Hd Hup. revert cs. induction ids as [|id ids IH]; intros cs Hnd Hsub Hcs.
  - exists cs. split; [done|]. eapply Forall_impl; [exact Hcs|]. intros c (? & _ & Hx). split; [done|].
    apply Hx. apply not_elem_of_nil.
  - apply NoDup_cons in Hnd as [Hid Hnd]. cbn [sync_uptodate].
    destruct (find_client_is_Some id cs) as [c Ec]; [apply Hsub, list_elem_of_here|]. rewrite Ec. simpl.
    apply find_client_Some in Ec as [Hc <-].
    rewrite (proj1 (proj2 (proj1 (Forall_forall _ _) Hcs c Hc))), Nat.eqb_refl by apply list_elem_of_here. simpl.
    apply IH; [done| |].
    + intros i Hi. rewrite update_client_ids by (intros; apply syncOneUpdateToDate_id). by apply Hsub, list_elem_of_further.
    + apply Forall_fmap, Forall_forall. intros c' Hc'. simpl.
      destruct (proj1 (Forall_forall _ _) Hcs c' Hc') as (Hcl & Hin & Hout). case_bool_decide as He.
      * destruct (syncOneUpdateToDate_id (room (c_id c)) cls c') as [E1 E2]. rewrite E1, E2, He. split_and!; [done|done|].
        intros _ Hs. assert (c_revision c' = up) as Hr by (apply Hin; rewrite He; apply list_elem_of_here).
        apply (syncOneUpdateToDate_advance l cls (room (c_id c)) c' Hn); [by rewrite Hr|done|lia].
      * split_and!; [done| |]; [intros; apply Hin; by apply list_elem_of_further|].
        intros Hni. apply Hout. rewrite not_elem_of_cons. done.
Qed.

Lemma flush_open (room : nat -> nat) (s : Service) :
  inv s -> open_ok s -> pendingLogs s ≠ [] ->
  ∃ s', flush room s = Some s' ∧ open_ok s' ∧ maxSyncedRevision s' = length (log s') ∧ log s' = log s.
Proof.
  intros H Ho Hne. unfold flush, syncUpToDateClients.
  assert (Forall (λ c, closed c = false) (clients s)) as Hopen by (eapply Forall_impl; [exact Ho|by intros c []]).
  rewrite copyClients_open by done.
  destruct (sync_uptodate_open (log s) (pendingLogs s) room (maxSyncedRevision s)
    (c_id <$> filter (λ c, is_uptodate (c_state c) = true) (clients s)) (clients s)) as (cs' & -> & Hcs').
  - by apply inv_log_numbers.
  - by apply inv_pending_missing.
  - by apply inv_max_le.
  - eapply sublist_NoDup; [apply H|]. apply fmap_sublist. apply sublist_filter.
  - intros i (c & -> & [_ Hc]%list_elem_of_filter)%list_elem_of_fmap. by apply list_elem_of_fmap_2.
  - apply Forall_forall. intros c Hc. destruct (proj1 (Forall_forall _ _) Ho c Hc) as [Hcl Hu]. split_and!; [done| |].
    + intros (c' & E & [Hst Hc']%list_elem_of_filter)%list_elem_of_fmap.
      assert (c' = c) as -> by (eapply client_unique; [apply H|done..]).
      apply Hu. by apply bool_decide_eq_true in Hst.
    + intros Hni Hst. destruct Hni. apply list_elem_of_fmap_2, list_elem_of_filter. split; [|done].
      by apply bool_decide_eq_true.
  - eexists. split; [done|]. unfold open_ok. cbn. by rewrite (inv_last_revision s H Hne).
Qed.

(** Updating clients one after the other, each at most once. *)
Lemma sync_fold_map (f : nat -> client -> client) (ids : list nat) (cs : list client) :
  (∀ id c, c_id (f id c) = c_id c) -> NoDup ids ->
  foldl (λ cs id, update_client id (f id) cs) cs ids =
  (λ c, if decide (c_id c ∈ ids) then f (c_id c) c else c) <$> cs.
Proof.
  intros Hid. revert cs. induction ids as [|id ids IH]; intros cs Hnd.
  - simpl. trans (id <$> cs); [by rewrite list_fmap_id|]. by apply list_fmap_ext.
  - apply NoDup_cons in Hnd as [Hi Hnd]. simpl. rewrite IH by done. unfold update_client.
    rewrite <- list_fmap_compose. apply list_fmap_ext. intros _ c _. simpl. case_bool_decide as He.
    + rewrite !Hid, He, (decide_True (P := id ∈ id :: ids)) by apply list_elem_of_here. by rewrite decide_False.
    + destruct (decide (c_id c ∈ ids)) as [Hin|Hin].
      * by rewrite decide_True by by apply list_elem_of_further.
      * by rewrite decide_False by by rewrite not_elem_of_cons.
Qed.

Lemma syncClients_open (room : nat -> nat) (s : Service) :
  inv s -> Forall (λ c, closed c = false) (clients s) ->
  clients (syncClients room (maxSyncedRevision s) s) =
  (λ c, if is_behind (c_state c) then syncOne (room (c_id c)) (log s) (maxSyncedRevision s) c else c) <$> clients s.
Proof.
  intros H Hopen. unfold syncClients. rewrite copyClients_open by done. cbn [clients set_clients].
  rewrite (sync_fold_map (λ id, syncOne (room id) (log s) (maxSyncedRevision s))).
  - apply list_fmap_ext. intros i c Hc. apply list_elem_of_lookup_2 in Hc.
    destruct (is_behind (c_state c)) eqn:Eb.
    + rewrite decide_True; [done|]. by apply list_elem_of_fmap_2, list_elem_of_filter.
    + rewrite decide_False; [done|]. intros (c' & E & [Hst Hc']%list_elem_of_filter)%list_elem_of_fmap.
      assert (c' = c) as -> by (eapply client_unique; [apply H|done..]). congruence.
  - intros id c. apply (syncOne_advance (log s) (room id) (maxSyncedRevision s) c (inv_log_numbers s H)).
  - eapply sublist_NoDup; [apply H|]. apply fmap_sublist. apply sublist_filter.
Qed.

Lemma is_behind_not_uptodate (st : clientstate) : is_behind st = negb (is_uptodate st).
Proof. by destruct st. Qed.

Lemma syncClients_open_ok (room : nat -> nat) (s : Service) :
  inv s -> open_ok s -> open_ok (syncClients room (maxSyncedRevision s) s).
Proof.
  intros H Ho. assert (Forall (λ c, closed c = false) (clients s)) as Hopen by (eapply Forall_impl; [exact Ho|by intros c []]).
  unfold open_ok. rewrite syncClients_open by done.
  assert (maxSyncedRevision (syncClients room (maxSyncedRevision s) s) = maxSyncedRevision s) as ->
    by (unfold syncClients; by destruct (copyClients _ _)).
  apply Forall_fmap, Forall_forall. intros c Hc. simpl. destruct (proj1 (Forall_forall _ _) Ho c Hc) as [Hcl Hu].
  rewrite is_behind_not_uptodate. destruct (is_uptodate (c_state c)) eqn:Eu; [done|]. simpl.
  destruct (syncOne_advance (log s) (room (c_id c)) (maxSyncedRevision s) c (inv_log_numbers s H)) as (Ha & Hs & _).
  split; [by rewrite (adv_closed _ _ _ Ha)|]. apply Hs. by apply bool_decide_eq_false in Eu.
Qed.

Lemma update_client_open (s : Service) (id : nat) (f : client -> client) :
  (∀ c, closed (f c) = closed c ∧ c_state (f c) = c_state c ∧ c_revision (f c) = c_revision c) ->
  open_ok s -> open_ok (set_clients (update_client id f (clients s)) s).
Proof.
  intros Hf Ho. unfold open_ok. cbn [clients set_clients maxSyncedRevision].
  apply update_client_Forall; [|done]. intros c _ _. by destruct (Hf c) as (-> & -> & ->).
Qed.

Lemma exec_open (a : action) (s : Service) :
  inv s -> open_ok s -> keeps_open a ->
  exec a s ≠ Panic ∧ ∀ s', exec a s = Ok s' -> open_ok s'.
Proof.
  intros H Ho Ha. destruct a; cbn [exec].
  - destruct (_ && _); [|done]. split; [done|]. by intros s' [= <-].
  - destruct (ticking s); [done|]. destruct (logChan s) as [|cl q] eqn:Eq; [done|]. rewrite on_log_eq.
    pose proof (take_change_inv s cl q H Eq) as H1. assert (open_ok (take_change cl q s)) as Ho1 by done.
    destruct (Nat.ltb_spec MaxSyncBatchSize (length (pendingLogs (take_change cl q s)))) as [Hl|_].
    + destruct (flush_open room _ H1 Ho1) as (s1 & -> & Ho2 & _); [intros Hn; rewrite Hn in Hl; simpl in Hl; lia|].
      split; [done|]. by intros s' [= <-].
    + split; [done|]. by intros s' [= <-].
  - destruct (ticking s); [done|]. unfold on_tick_flush.
    destruct (Nat.ltb_spec 0 (length (pendingLogs s))) as [Hl|_].
    + destruct (flush_open room _ H Ho) as (s1 & -> & Ho2 & _); [intros Hn; rewrite Hn in Hl; simpl in Hl; lia|].
      split; [done|]. by intros s' [= <-].
    + split; [done|]. by intros s' [= <-].
  - destruct (ticking s); [|done]. split; [done|]. intros s' [= <-]. by apply syncClients_open_ok.
  - unfold WatchCache. destruct (negb _); [done|]. case_bool_decide; [done|]. split; [done|]. intros s' [= <-].
    unfold open_ok. cbn. apply Forall_app. split; [done|]. apply Forall_singleton. done.
  - destruct ok; [|done]. split; [done|]. intros s' [= <-]. apply update_client_open; [|done].
    intros c. destruct (closed c) eqn:Ec; [done|]. unfold watch_send. by destruct (ch c).
  - done.
Qed.

Lemma reachable_open (p : string) (s : Service) : reachable keeps_open p s -> open_ok s.
Proof.
  induction 1 as [|s s' a Hr IH Ha E]; [by apply Forall_nil_2|].
  by apply (proj2 (exec_open a s (reachable_inv _ _ _ Hr) IH Ha)).
Qed.

(** A client that is marked up to date and is not stops [syncUpToDateClients]. *)
Lemma sync_uptodate_panics (room : nat -> nat) (cls : list changeLog) (up : nat) (ids : list nat) (cs : list client) (b : client) :
  NoDup (c_id <$> cs) -> b ∈ cs -> c_id b ∈ ids -> c_revision b ≠ up -> sync_uptodate ids room cls up cs = None.
Proof.
  revert cs. induction ids as [|id ids IH]; intros cs Hnd Hb Hin Hr; [by apply elem_of_nil in Hin|]. cbn [sync_uptodate].
  destruct (find_client id cs) as [c|] eqn:Ec; [|done]. simpl.
  destruct (Nat.eqb_spec (c_revision c) up) as [Hu|]; [|done]. simpl.
  apply find_client_Some in Ec as [Hc Hid]. assert (c_id b ≠ id) as Hne.
  { intros He. assert (b = c) as -> by (eapply client_unique; [exact Hnd|done|done|congruence]). done. }
  apply IH; [by rewrite update_client_ids by (intros; apply syncOneUpdateToDate_id)| | |done].
  - apply list_elem_of_fmap. exists b. by rewrite bool_decide_false.
  - apply elem_of_cons in Hin as [Heq|]; [congruence|done].
Qed.

(** ** Properties *)

(** [findNext] is a correct binary search.  On a log whose revisions
    do not decrease it terminates with the index of the first change after
    [target], or with -1 if there is none. *)
Theorem findNext_correct (l : list changeLog) (target : nat)
    (Hsort : ∀ i j a b, (i <= j)%nat -> l !! i = Some a -> l !! j = Some b -> (revision a <= revision b)%nat) :
  ∃ ret, findNext l target = Some ret ∧
    (ret = -1 ∧ Forall (λ a, revision a <= target)%nat l ∨
     ∃ i a, ret = Z.of_nat i ∧ l !! i = Some a ∧ (target < revision a)%nat ∧
       Forall (λ b, revision b <= target)%nat (take i l)).
Proof.
  destruct (findNext_loop_spec l target (S (length l)) 0 (Z.of_nat (length l) - 1) (-1)) as (n & Hle & E & Hiff);
    try done; try lia.
  { intros i a Hi Ha%lookup_lt_Some. lia. }
  { by rewrite Z.eqb_refl. }
  eexists. split; [exact E|]. destruct (Nat.eqb_spec n (length l)) as [->|Hn].
  - left. split; [done|]. apply Forall_lookup. intros i a Ha. apply (Hiff i a Ha). by eapply lookup_lt_Some.
  - right. destruct (lookup_lt_is_Some_2 l n) as [a Ha]; [lia|]. exists n, a. split_and!; [done|done| |].
    + destruct (decide (revision a <= target)%nat) as [Hd|]; [apply (Hiff n a Ha) in Hd; lia|lia].
    + apply Forall_lookup. intros i b Hb. apply lookup_take_Some in Hb as [Hb Hi]. by apply (Hiff i b Hb).
Qed.

(** C4: every watch stream is an exact piece of the log.  In every reachable
    state, under any interleaving of informer callbacks, the sync goroutine,
    watch requests and closing streams, what a client has been sent is the log
    from the revision it asked for on, without gap, duplicate or reordering;
    for an open stream the channel holds the continuation up to the client's
    revision. *)
Theorem watch_stream_exact (p : string) (s : Service) (c : client)
    (Hs : reachable (λ _, True) p s) (Hc : c ∈ clients s) :
  revision <$> sent c = seq (S (c_from c)) (length (sent c)) ∧
  sent c = take (length (sent c)) (drop (c_from c) (log s)) ∧
  (closed c = false -> sent c ++ ch c = drop (c_from c) (take (c_revision c) (log s))).
Proof.
  pose proof (reachable_inv _ _ _ Hs) as H. pose proof (inv_log_numbers s H) as Hn.
  destruct (proj1 (Forall_forall _ _) (inv_clients s H) c Hc) as (Hf & Hb & [k Hk] & Ho).
  assert (sent c = take (length (sent c)) (drop (c_from c) (log s))) as E.
  { rewrite skipn_firstn_comm in Hk. pose proof (take_drop (c_revision c - c_from c) (drop (c_from c) (log s))) as Ht.
    rewrite Hk, <- app_assoc in Ht. by rewrite <- Ht, take_app_length. }
  split_and!; [|done|done]. apply list_eq. intros i. destruct (sent c !! i) as [a|] eqn:Ea.
  - pose proof (lookup_lt_Some _ _ _ Ea) as Hi. rewrite list_lookup_fmap, Ea, lookup_seq_lt by done. simpl. f_equal.
    rewrite E in Ea. apply lookup_take_Some in Ea as [Ea _]. rewrite lookup_drop in Ea.
    rewrite (numbered_lookup _ _ _ _ Hn Ea). lia.
  - rewrite list_lookup_fmap, Ea. symmetry. apply lookup_seq_ge. by apply lookup_ge_None.
Qed.

(** The second half of a tick, after which the pending list is empty. *)
Lemma tick_sync_catches_up (s : Service) (room : nat -> nat) (c : client) :
  inv s -> open_ok s -> maxSyncedRevision s = length (log s) ->
  (∀ c, c ∈ clients s -> length (log s) - c_revision c <= room (c_id c))%nat ->
  c ∈ clients (syncClients room (maxSyncedRevision s) s) -> (c_from c <= length (log s))%nat ->
  c_revision c = length (log s) ∧ closed c = false.
Proof.
  intros H Ho Hm Hroom Hc Hfrom.
  assert (Forall (λ c, closed c = false) (clients s)) as Hopen by (eapply Forall_impl; [exact Ho|by intros ? []]).
  rewrite (syncClients_open room s H Hopen) in Hc. apply list_elem_of_fmap in Hc as (c0 & -> & Hc0).
  destruct (proj1 (Forall_forall _ _) Ho c0 Hc0) as [Hcl Hu].
  destruct (proj1 (Forall_forall _ _) (inv_clients s H) c0 Hc0) as (Hf & Hb & _).
  destruct (syncOne_advance (log s) (room (c_id c0)) (maxSyncedRevision s) c0 (inv_log_numbers s H)) as ([] & _ & Hr).
  rewrite is_behind_not_uptodate in *. destruct (is_uptodate (c_state c0)) eqn:Eu; cbn [negb] in *.
  - split; [|done]. rewrite Hu, Hm; [done|]. by apply bool_decide_eq_true in Eu.
  - split; [|congruence]. apply Hr; [by apply Hroom|done|]. rewrite adv_from0 in Hfrom. lia.
Qed.

(** The first half of a tick empties the pending list. *)
Lemma tick_flush_open (s : Service) (room : nat -> nat) :
  inv s -> open_ok s ->
  ∃ s1, on_tick_flush room s = Some (set_ticking true s1) ∧ inv s1 ∧ open_ok s1 ∧
    maxSyncedRevision s1 = length (log s1) ∧ log s1 = log s.
Proof.
  intros H Ho. unfold on_tick_flush. destruct (Nat.ltb_spec 0 (length (pendingLogs s))) as [Hp|Hp].
  - assert (pendingLogs s ≠ []) as Hne by (intros Hn; rewrite Hn in Hp; simpl in Hp; lia).
    destruct (flush_open room s H Ho Hne) as (s1 & E & Ho1 & Hm & Hl). exists s1. rewrite E.
    split_and!; try done. by eapply flush_inv.
  - exists s. split_and!; try done. destruct (inv_pending s H) as (l & E & <-). rewrite E, length_app. lia.
Qed.

(** C5: one tick brings every client up to date.  While all streams are
    open, the two halves of the ticker case run to the end; if the channels
    have room for what is missing, every client that asked for a revision of
    the log then has, sent or in its channel, the whole log after it. *)
Theorem tick_catches_up (p : string) (s : Service) (room1 : nat -> nat)
    (Hs : reachable keeps_open p s) (Ht : ticking s = false) :
  ∃ s1, exec (TickFlush room1) s = Ok s1 ∧
    ∀ room2, (∀ c, c ∈ clients s1 -> length (log s1) - c_revision c <= room2 (c_id c))%nat ->
    ∃ s2, exec (TickSync room2) s1 = Ok s2 ∧ log s2 = log s ∧
      ∀ c, c ∈ clients s2 -> (c_from c <= length (log s2))%nat ->
        c_revision c = length (log s2) ∧ sent c ++ ch c = drop (c_from c) (log s2).
Proof.
  destruct (tick_flush_open s room1 (reachable_inv _ _ _ Hs) (reachable_open _ _ Hs)) as (s1 & E & H1 & Ho1 & Hm & Hl).
  exists (set_ticking true s1). cbn [exec]. rewrite Ht, E. split; [done|]. intros room2 Hroom.
  exists (on_tick_sync room2 (set_ticking true s1)). split; [done|].
  pose proof (inv_ticking _ true H1) as H1'. pose proof (syncClients_inv room2 _ H1') as H2.
  assert (log (on_tick_sync room2 (set_ticking true s1)) = log s1) as El
    by (unfold on_tick_sync, syncClients; by destruct (copyClients _ _)).
  split; [congruence|]. intros c Hc Hfrom. rewrite El in *.
  destruct (tick_sync_catches_up (set_ticking true s1) room2 c H1' Ho1 Hm Hroom Hc Hfrom) as [Hr Hcl].
  split; [done|]. destruct (proj1 (Forall_forall _ _) (inv_clients _ (inv_ticking _ false H2)) c Hc) as (_ & _ & _ & Hseg).
  fold (on_tick_sync room2 (set_ticking true s1)) in Hseg. rewrite El, Hr in Hseg. cbn [log set_ticking] in Hseg.
  rewrite Hseg by done. by rewrite take_ge.
Qed.

(** Without closing streams the controller does not panic.  The
    consistency check of [syncUpToDateClients] never fails while no stream
    ends: every client that is marked up to date is. *)
Theorem open_streams_no_panic (p : string) (s : Service) (a : action)
    (Hs : reachable keeps_open p s) (Ha : keeps_open a) : exec a s ≠ Panic.
Proof. apply exec_open; [by eapply reachable_inv|by eapply reachable_open|done]. Qed.

(** Two agents watch and get the first change; the stream of the first ends;
    two more changes arrive. *)
Definition crash_trace (p : string) : list action :=
  let all := λ _ : nat, 100%nat in
  let e := Entry "10.0.0.1" (MetaNode "n") in
  [Watch p 0; Watch p 0; Log OpCode_Set e; Receive all; TickFlush all; TickSync all;
   Done 0; Log OpCode_Set e; Receive all; TickFlush all; TickSync all;
   Log OpCode_Set e; Receive all; TickFlush all].

(** A closing stream crashes the controller.  [copyClients] removes
    the first closed client from the list and with that ends its loop, so the
    clients behind it miss the batch being synchronised: an up-to-date client
    keeps its mark but not its revision, and the next batch that finds it in
    the list panics.  The trace shows that this is reachable from the start,
    with two agents and one of them disconnecting. *)
Theorem closed_client_panics :
  (∀ s a rest b room, inv s -> pendingLogs s ≠ [] -> clients s = a :: rest -> closed a = true -> b ∈ rest ->
     (c_revision b <= maxSyncedRevision s)%nat ->
     ∃ s1, flush room s = Some s1 ∧ b ∈ clients s1 ∧ (c_revision b < maxSyncedRevision s1)%nat) ∧
  (∀ s b room, inv s -> Forall (λ c, closed c = false) (clients s) -> b ∈ clients s -> c_state b = uptodate ->
     (c_revision b < maxSyncedRevision s)%nat -> flush room s = None) ∧
  run (crash_trace "period") (NewService "period") = Panic.
Proof.
  split_and!.
  - intros s a rest b room H Hne Ecs Ha Hb Hr. unfold flush, syncUpToDateClients. rewrite Ecs. cbn [copyClients].
    rewrite Ha. eexists. split; [done|]. cbn. split; [done|]. rewrite (inv_last_revision s H Hne).
    destruct (inv_pending s H) as (l & -> & Hl). rewrite length_app. destruct (pendingLogs s); [done|]. simpl. lia.
  - intros s b room H Hopen Hb Hst Hr. unfold flush, syncUpToDateClients. rewrite copyClients_open by done.
    rewrite (sync_uptodate_panics _ _ _ _ _ b); [done|apply H|done| |lia].
    apply list_elem_of_fmap_2, list_elem_of_filter. split; [|done]. by apply bool_decide_eq_true.
  - vm_compute. done.
Qed.

(** The log is never compacted.  [compactLog] returns without effect in
    every state, because its minimum starts at 0; so every change since the
    start stays in memory, numbered without gap, and [ListCache] always
    answers with revision 0 and no entries. *)
Theorem log_never_compacted (p : string) (s : Service) (Hs : reachable (λ _, True) p s) :
  (∀ fuel, compactLog fuel s = Some s) ∧
  (length (log s) + length (logChan s))%nat = storage_revision s ∧
  revision <$> (log s ++ logChan s) = seq 1 (storage_revision s) ∧
  list_revision (ListCache s) = 0%nat ∧ list_entries (ListCache s) = [].
Proof.
  pose proof (reachable_inv _ _ _ Hs) as [Hn Hsn _ _ _ _]. split_and!.
  - intros fuel. apply compactLog_id.
  - rewrite <- length_app, <- (length_fmap revision), Hn. apply length_seq.
  - done.
  - unfold ListCache. by rewrite Hsn.
  - unfold ListCache. rewrite Hsn. simpl. by rewrite map_to_list_empty.
Qed.

(** ** Witnesses *)

Definition demo_log : list changeLog :=
  [ChangeLog 1 OpCode_Set (Entry "10.0.0.1" (MetaNode "n")); ChangeLog 2 OpCode_Del (Entry "10.0.0.1" (MetaNode "n"))].

(** An agent watches from the start, a change is logged and handed on. *)
Definition demo_actions : list action :=
  let all := λ _ : nat, 100%nat in
  [Watch "p" 0; Log OpCode_Set (Entry "10.0.0.1" (MetaNode "n")); Receive all].

Lemma run_reachable (P : action -> Prop) (p : string) (tr : list action) (s s' : Service) :
  Forall P tr -> reachable P p s -> run tr s = Ok s' -> reachable P p s'.
Proof.
  intros HP. revert s. induction HP as [|a tr Ha _ IH]; intros s Hs E; [by injection E as <-|].
  cbn [run] in E. destruct (exec a s) eqn:Ea; [|done|done]. eapply IH; [|exact E]. by eapply reach_step.
Qed.

(** The state after a run, the initial one if the run fails. *)
Definition final (p : string) (tr : list action) : Service :=
  match run tr (NewService p) with Ok s => s | _ => NewService p end.

Lemma final_reachable (P : action -> Prop) (p : string) (tr : list action) :
  Forall P tr -> reachable P p (final p tr).
Proof.
  intros HP. unfold final. destruct (run tr (NewService p)) eqn:E; [|apply reach_init..].
  eapply run_reachable; [exact HP|apply reach_init|exact E].
Qed.

Lemma demo_open : Forall keeps_open demo_actions.
Proof. repeat (apply Forall_cons; split; [done|]). by apply Forall_nil_2. Qed.

Lemma findNext_correct_witness : ∃ ret, findNext demo_log 1 = Some ret.
Proof.
  destruct (findNext_correct demo_log 1) as (ret & E & _); [|by exists ret].
  intros [|[|i]] [|[|j]] a b Hij Ha Hb; simplify_eq/=; lia.
Defined.

Lemma watch_stream_exact_witness :
  ∃ c, clients (final "p" demo_actions) !! 0%nat = Some c ∧
    revision <$> sent c = seq (S (c_from c)) (length (sent c)).
Proof.
  destruct (clients (final "p" demo_actions) !! 0%nat) as [c|] eqn:E; [|discriminate (E)].
  exists c. split; [done|].
  refine (proj1 (watch_stream_exact "p" (final "p" demo_actions) c _ (list_elem_of_lookup_2 _ _ _ E))).
  apply final_reachable. repeat (apply Forall_cons; split; [done|]). by apply Forall_nil_2.
Defined.

Lemma tick_catches_up_witness :
  ∃ s1, exec (TickFlush (λ _, 100%nat)) (final "p" demo_actions) = Ok s1.
Proof.
  destruct (tick_catches_up "p" (final "p" demo_actions) (λ _, 100%nat)) as (s1 & E & _); [| |by exists s1].
  - apply final_reachable, demo_open.
  - vm_compute. done.
Defined.

Lemma open_streams_no_panic_witness : exec (TickFlush (λ _, 100%nat)) (final "p" demo_actions) ≠ Panic.
Proof. refine (open_streams_no_panic "p" _ _ _ _); [apply final_reachable, demo_open|done]. Defined.

Lemma log_never_compacted_witness : list_entries (ListCache (final "p" demo_actions)) = [].
Proof.
  refine (proj2 (proj2 (proj2 (proj2 (log_never_compacted "p" (final "p" demo_actions) _))))).
  apply final_reachable. repeat (apply Forall_cons; split; [done|]). by apply Forall_nil_2.
Defined.
End IpCache.
