(* ===== verification/IpCacheInformers.v ===== *)
(** src/pkg/controller/ipcache/ipcache.go: the informer callbacks, which turn
    notifications about pods and nodes into changes of the IP cache.

    A pod or node is what the callbacks read of it.  [replay] is the map that
    the changes logged so far describe; the theorems relate it to the objects
    that are alive. *)

From S2P Require Import Prelude IpCacheService.
Import IpCache.

Module Informers.

(** ** Kubernetes objects *)

Record Pod := MkPod {
  PodNamespace : string;
  PodName : string;
  PodResourceVersion : string;
  HostNetwork : bool;
  PodIPs : option (list string);   (** [Status.PodIPs]; [None] is nil *)
  PodIP : string;                  (** [Status.PodIP] *)
}.

Inductive AddressType := NodeInternalIP | NodeExternalIP | OtherAddress (t : string).

Record Node := MkNode {
  NodeName : string;
  NodeResourceVersion : string;
  Addresses : list (AddressType * string);
}.

(** The argument of a delete callback: the object, the last state that the
    informer knew, or something else. *)
Inductive deleted (A : Type) := Deleted (obj : A) | DeletedFinalStateUnknown (obj : A) | NotAnObject.
Arguments Deleted {A} _.
Arguments DeletedFinalStateUnknown {A} _.
Arguments NotAnObject {A}.

(** ** Entries *)

Definition allPodIPs (pod : Pod) : list string :=
  match PodIPs pod with
  | Some ips => ips
  | None => if String.eqb (PodIP pod) "" then [] else [PodIP pod]
  end.

Definition createCacheEntries4Pod (pod : Pod) : list CacheEntry :=
  if HostNetwork pod then []
  else (λ ip, Entry ip (MetaPod (PodNamespace pod) (PodName pod))) <$> allPodIPs pod.

Definition allNodeIPs (node : Node) : list string :=
  omap (λ a : AddressType * string,
    match a.1 with NodeInternalIP | NodeExternalIP => Some a.2 | OtherAddress _ => None end) (Addresses node).

Definition createCacheEntries4Node (node : Node) : list CacheEntry :=
  (λ ip, Entry ip (MetaNode (NodeName node))) <$> allNodeIPs node.

(** ** Callbacks *)

Definition when_some (es : list CacheEntry) (f : Service -> Service) (s : Service) : Service :=
  if (0 <? length es)%nat then f s else s.

Definition onAddPod (pod : Pod) (s : Service) : Service :=
  let entries := createCacheEntries4Pod pod in
  when_some entries (logChange OpCode_Set entries) s.

Definition onDeletePod (obj : deleted Pod) (s : Service) : Service :=
  match obj with
  | NotAnObject => s
  | Deleted pod | DeletedFinalStateUnknown pod =>
      let entries := createCacheEntries4Pod pod in
      if (length entries =? 0)%nat then s else logChange OpCode_Del entries s
  end.

Definition onUpdatePod (oldPod newPod : Pod) (s : Service) : Service :=
  if String.eqb (PodResourceVersion newPod) (PodResourceVersion oldPod) then s
  else if bool_decide (allPodIPs oldPod = allPodIPs newPod) then s
  else
    let toRemove := createCacheEntries4Pod oldPod in
    let s := when_some toRemove (logChange OpCode_Del toRemove) s in
    let toAdd := createCacheEntries4Pod newPod in
    when_some toAdd (logChange OpCode_Set toAdd) s.

Definition onAddNode (node : Node) (s : Service) : Service :=
  let entries := createCacheEntries4Node node in
  when_some entries (logChange OpCode_Set entries) s.

Definition onDeleteNode (obj : deleted Node) (s : Service) : Service :=
  match obj with
  | NotAnObject => s
  | Deleted node | DeletedFinalStateUnknown node =>
      let entries := createCacheEntries4Node node in
      when_some entries (logChange OpCode_Del entries) s
  end.

Definition onUpdateNode (oldNode newNode : Node) (s : Service) : Service :=
  if String.eqb (NodeResourceVersion newNode) (NodeResourceVersion oldNode) then s
  else if bool_decide (allNodeIPs oldNode = allNodeIPs newNode) then s
  else
    let toRemove := createCacheEntries4Node oldNode in
    let s := when_some toRemove (logChange OpCode_Del toRemove) s in
    let toAdd := createCacheEntries4Node newNode in
    when_some toAdd (logChange OpCode_Set toAdd) s.

(** ** The cluster *)

Inductive object := ObjPod (p : Pod) | ObjNode (n : Node).

Definition entries_of (o : object) : list CacheEntry :=
  match o with
  | ObjPod p => createCacheEntries4Pod p
  | ObjNode n => createCacheEntries4Node n
  end.

Inductive notification :=
  | PodAdded (p : Pod) | PodUpdated (old new : Pod) | PodDeleted (d : deleted Pod)
  | NodeAdded (n : Node) | NodeUpdated (old new : Node) | NodeDeleted (d : deleted Node).

Definition notify (n : notification) : Service -> Service :=
  match n with
  | PodAdded p => onAddPod p
  | PodUpdated old new => onUpdatePod old new
  | PodDeleted d => onDeletePod d
  | NodeAdded n => onAddNode n
  | NodeUpdated old new => onUpdateNode old new
  | NodeDeleted d => onDeleteNode d
  end.

(** An update keeps the identity of the object; an unchanged resource version
    means an unchanged object; [hostNetwork] is immutable. *)
Definition same_pod (old new : Pod) : Prop :=
  PodNamespace old = PodNamespace new ∧ PodName old = PodName new ∧ HostNetwork old = HostNetwork new ∧
  (PodResourceVersion new = PodResourceVersion old -> new = old).
Definition same_node (old new : Node) : Prop :=
  NodeName old = NodeName new ∧ (NodeResourceVersion new = NodeResourceVersion old -> new = old).

(** The live objects before and after a notification; a tombstone carries the
    current state. *)
Inductive cluster_step : list object -> notification -> list object -> Prop :=
  | pod_added p w : cluster_step w (PodAdded p) (ObjPod p :: w)
  | pod_updated old new w w' :
      w ≡ₚ ObjPod old :: w' -> same_pod old new -> cluster_step w (PodUpdated old new) (ObjPod new :: w')
  | pod_deleted p w w' : w ≡ₚ ObjPod p :: w' -> cluster_step w (PodDeleted (Deleted p)) w'
  | pod_tombstone p w w' : w ≡ₚ ObjPod p :: w' -> cluster_step w (PodDeleted (DeletedFinalStateUnknown p)) w'
  | node_added n w : cluster_step w (NodeAdded n) (ObjNode n :: w)
  | node_updated old new w w' :
      w ≡ₚ ObjNode old :: w' -> same_node old new -> cluster_step w (NodeUpdated old new) (ObjNode new :: w')
  | node_deleted n w w' : w ≡ₚ ObjNode n :: w' -> cluster_step w (NodeDeleted (Deleted n)) w'
  | node_tombstone n w w' : w ≡ₚ ObjNode n :: w' -> cluster_step w (NodeDeleted (DeletedFinalStateUnknown n)) w'.

(** A history of notifications in which no two live objects ever share an
    address. *)
Definition addresses (w : list object) : list string := IP <$> (w ≫= entries_of).

Inductive history : list object -> list notification -> Prop :=
  | history_start : history [] []
  | history_next w ns n w' : history w ns -> cluster_step w n w' -> NoDup (addresses w') -> history w' (ns ++ [n]).

Definition notify_all (ns : list notification) (s : Service) : Service := foldl (λ s n, notify n s) s ns.

(** The map that a list of changes describes. *)
Definition replay (l : list changeLog) : gmap string CacheEntry := foldl apply ∅ l.

Definition changes (s : Service) : list changeLog := log s ++ logChan s.

(** The map holds exactly the entries of a list, under their addresses. *)
Definition represents (es : list CacheEntry) (m : gmap string CacheEntry) : Prop :=
  ∀ ip e, m !! ip = Some e <-> e ∈ es ∧ IP e = ip.

(** ** Lemmas *)

Lemma replay_app (l1 l2 : list changeLog) : replay (l1 ++ l2) = foldl apply (replay l1) l2.
Proof. apply foldl_app. Qed.

(** The map after logging set or delete operations. *)
Lemma replay_logChange (op : OpCode) (es : list CacheEntry) (s : Service) :
  replay (changes (logChange op es s)) = foldl (λ m e, apply m (ChangeLog 0 op e)) (replay (changes s)) es.
Proof.
  revert s. induction es as [|e es IH]; intros s; [done|]. simpl. rewrite IH. f_equal.
  unfold changes. cbn [log_one set_chan log logChan]. by rewrite app_assoc, replay_app.
Qed.

Lemma set_all_lookup (es : list CacheEntry) (m : gmap string CacheEntry) (ip : string) (e : CacheEntry) :
  NoDup (IP <$> es) ->
  foldl (λ m e, apply m (ChangeLog 0 OpCode_Set e)) m es !! ip = Some e <->
  e ∈ es ∧ IP e = ip ∨ ip ∉ IP <$> es ∧ m !! ip = Some e.
Proof.
  revert m. induction es as [|x es IH]; intros m Hnd.
  - simpl. rewrite elem_of_nil. split; [|by intros [[]|[_ ?]]]. intros. right. split; [apply not_elem_of_nil|done].
  - rewrite fmap_cons, NoDup_cons in Hnd. destruct Hnd as [Hx Hnd]. cbn [foldl]. rewrite IH by done. cbn [apply opcode entry].
    rewrite elem_of_cons, fmap_cons, not_elem_of_cons. destruct (decide (IP x = ip)) as [<-|Hne].
    + rewrite lookup_insert_eq. naive_solver.
    + rewrite lookup_insert_ne by done. naive_solver.
Qed.

Lemma del_all_lookup (es : list CacheEntry) (m : gmap string CacheEntry) (ip : string) (e : CacheEntry) :
  foldl (λ m e, apply m (ChangeLog 0 OpCode_Del e)) m es !! ip = Some e <-> ip ∉ IP <$> es ∧ m !! ip = Some e.
Proof.
  revert m. induction es as [|x es IH]; intros m.
  - simpl. split; [|by intros [_ ?]]. intros. split; [apply not_elem_of_nil|done].
  - cbn [foldl]. rewrite IH. cbn [apply opcode entry]. rewrite fmap_cons, not_elem_of_cons.
    destruct (decide (IP x = ip)) as [<-|Hne].
    + rewrite lookup_delete_eq. naive_solver.
    + rewrite lookup_delete_ne by done. naive_solver.
Qed.

Lemma logChange_nil (op : OpCode) (s : Service) : logChange op [] s = s.
Proof. done. Qed.

Lemma when_some_log (op : OpCode) (es : list CacheEntry) (s : Service) :
  when_some es (logChange op es) s = logChange op es s.
Proof. by destruct es. Qed.

Lemma represents_perm (es es' : list CacheEntry) (m : gmap string CacheEntry) :
  es ≡ₚ es' -> represents es m -> represents es' m.
Proof. intros Hp H ip e. by rewrite (H ip e), Hp. Qed.

Lemma represents_set (es rest : list CacheEntry) (m : gmap string CacheEntry) :
  NoDup (IP <$> (es ++ rest)) -> represents rest m ->
  represents (es ++ rest) (foldl (λ m e, apply m (ChangeLog 0 OpCode_Set e)) m es).
Proof.
  intros Hnd H ip e. rewrite fmap_app in Hnd. apply NoDup_app in Hnd as (Hes & Hdis & _).
  rewrite set_all_lookup, (H ip e), elem_of_app by done. split.
  - intros [[? ?]|(_ & ? & ?)]; auto.
  - intros [[He|He] Hip]; [by left|]. right. split_and!; [|done|done]. intros Hin. apply (Hdis ip Hin).
    rewrite <- Hip. by apply list_elem_of_fmap_2.
Qed.

Lemma represents_del (es rest : list CacheEntry) (m : gmap string CacheEntry) :
  NoDup (IP <$> (es ++ rest)) -> represents (es ++ rest) m ->
  represents rest (foldl (λ m e, apply m (ChangeLog 0 OpCode_Del e)) m es).
Proof.
  intros Hnd H ip e. rewrite fmap_app in Hnd. apply NoDup_app in Hnd as (_ & Hdis & _).
  rewrite del_all_lookup, (H ip e), elem_of_app. split.
  - intros (Hn & [He|He] & Hip); [|done]. destruct Hn. rewrite <- Hip. by apply list_elem_of_fmap_2.
  - intros [He Hip]. split_and!; [|by right|done]. intros Hin. apply (Hdis ip Hin).
    rewrite <- Hip. by apply list_elem_of_fmap_2.
Qed.

Lemma entries_cons (w w' : list object) (o : object) :
  w ≡ₚ o :: w' -> w ≫= entries_of ≡ₚ entries_of o ++ (w' ≫= entries_of).
Proof. intros Hp. by rewrite Hp. Qed.

Lemma represents_add (w : list object) (o : object) (s : Service) :
  NoDup (addresses (o :: w)) -> represents (w ≫= entries_of) (replay (changes s)) ->
  represents ((o :: w) ≫= entries_of) (replay (changes (logChange OpCode_Set (entries_of o) s))).
Proof. intros Hnd H. rewrite replay_logChange. by apply (represents_set (entries_of o)). Qed.

Lemma represents_remove (w w' : list object) (o : object) (s : Service) :
  NoDup (addresses w) -> w ≡ₚ o :: w' -> represents (w ≫= entries_of) (replay (changes s)) ->
  represents (w' ≫= entries_of) (replay (changes (logChange OpCode_Del (entries_of o) s))).
Proof.
  intros Hnd Hp H. rewrite replay_logChange. apply represents_del.
  - unfold addresses in Hnd. by rewrite <- (entries_cons _ _ _ Hp).
  - by eapply represents_perm; [apply entries_cons|].
Qed.

(** An update either leaves the entries as they are or replaces them. *)
Lemma onUpdatePod_spec (old new : Pod) (s : Service) :
  same_pod old new ->
  onUpdatePod old new s = s ∧ entries_of (ObjPod old) = entries_of (ObjPod new) ∨
  onUpdatePod old new s =
    logChange OpCode_Set (entries_of (ObjPod new)) (logChange OpCode_Del (entries_of (ObjPod old)) s).
Proof.
  intros (Hns & Hname & Hhost & Hrv). unfold onUpdatePod. destruct (String.eqb_spec (PodResourceVersion new) (PodResourceVersion old)) as [E|_].
  - left. by rewrite (Hrv E).
  - case_bool_decide as Hips; [left; split; [done|]|right; by rewrite !when_some_log].
    simpl. unfold createCacheEntries4Pod. by rewrite Hhost, Hips, Hns, Hname.
Qed.

Lemma onUpdateNode_spec (old new : Node) (s : Service) :
  same_node old new ->
  onUpdateNode old new s = s ∧ entries_of (ObjNode old) = entries_of (ObjNode new) ∨
  onUpdateNode old new s =
    logChange OpCode_Set (entries_of (ObjNode new)) (logChange OpCode_Del (entries_of (ObjNode old)) s).
Proof.
  intros (Hname & Hrv). unfold onUpdateNode. destruct (String.eqb_spec (NodeResourceVersion new) (NodeResourceVersion old)) as [E|_].
  - left. by rewrite (Hrv E).
  - case_bool_decide as Hips; [left; split; [done|]|right; by rewrite !when_some_log].
    simpl. unfold createCacheEntries4Node. by rewrite Hips, Hname.
Qed.

Lemma represents_update (w w' : list object) (old new : object) (s s' : Service) :
  NoDup (addresses w) -> NoDup (addresses (new :: w')) -> w ≡ₚ old :: w' ->
  s' = s ∧ entries_of old = entries_of new ∨
  s' = logChange OpCode_Set (entries_of new) (logChange OpCode_Del (entries_of old) s) ->
  represents (w ≫= entries_of) (replay (changes s)) ->
  represents ((new :: w') ≫= entries_of) (replay (changes s')).
Proof.
  intros Hw Hw' Hp [[-> E]| ->] H.
  - eapply represents_perm; [|exact H]. rewrite (entries_cons _ _ _ Hp), E. done.
  - apply represents_add; [done|]. by apply (represents_remove w w' old s).
Qed.

Lemma cluster_step_represents (w w' : list object) (n : notification) (s : Service) :
  NoDup (addresses w) -> NoDup (addresses w') -> cluster_step w n w' ->
  represents (w ≫= entries_of) (replay (changes s)) ->
  represents (w' ≫= entries_of) (replay (changes (notify n s))).
Proof.
  intros Hw Hw' Hs H. destruct Hs as [p w|old new w w' Hp Hsame|p w w' Hp|p w w' Hp|n w|old new w w' Hp Hsame|n w w' Hp|n w w' Hp];
    cbv beta iota zeta delta [notify onAddPod onDeletePod onAddNode onDeleteNode].
  - rewrite when_some_log. by apply (represents_add w (ObjPod p)).
  - eapply represents_update; [exact Hw|done|done|by apply onUpdatePod_spec|done].
  - change (createCacheEntries4Pod p) with (entries_of (ObjPod p)).
    destruct (Nat.eqb_spec (length (entries_of (ObjPod p))) 0) as [E|_]; [|by apply (represents_remove w w' (ObjPod p))].
    apply length_zero_iff_nil in E. eapply represents_perm; [|exact H]. by rewrite (entries_cons _ _ _ Hp), E.
  - change (createCacheEntries4Pod p) with (entries_of (ObjPod p)).
    destruct (Nat.eqb_spec (length (entries_of (ObjPod p))) 0) as [E|_]; [|by apply (represents_remove w w' (ObjPod p))].
    apply length_zero_iff_nil in E. eapply represents_perm; [|exact H]. by rewrite (entries_cons _ _ _ Hp), E.
  - rewrite when_some_log. by apply (represents_add w (ObjNode n)).
  - eapply represents_update; [exact Hw|done|done|by apply onUpdateNode_spec|done].
  - rewrite when_some_log. by apply (represents_remove w w' (ObjNode n)).
  - rewrite when_some_log. by apply (represents_remove w w' (ObjNode n)).
Qed.

Lemma history_represents (w : list object) (ns : list notification) (p : string) :
  history w ns -> NoDup (addresses w) ∧ represents (w ≫= entries_of) (replay (changes (notify_all ns (NewService p)))).
Proof.
  induction 1 as [|w ns n w' _ [Hw IH] Hs Hnd].
  - split; [apply NoDup_nil_2|]. intros ip e.
    change (replay (changes (notify_all [] (NewService p)))) with (∅ : gmap string CacheEntry).
    rewrite lookup_empty. cbn [mbind list_bind]. rewrite elem_of_nil. naive_solver.
  - split; [done|]. unfold notify_all. rewrite foldl_app. simpl. by apply (cluster_step_represents w w' n).
Qed.

(** ** Properties *)

(** C8: the cache describes the cluster.  After any history of pod and
    node notifications in which no two live objects share an address, the map
    that the logged changes describe has exactly one entry for every address of
    a live node and of a live pod outside the host network, and it names that
    object. *)
Theorem informers_exact (w : list object) (ns : list notification) (p ip : string) (e : CacheEntry)
    (Hh : history w ns) :
  replay (changes (notify_all ns (NewService p))) !! ip = Some e <-> ∃ o, o ∈ w ∧ e ∈ entries_of o ∧ IP e = ip.
Proof.
  rewrite (proj2 (history_represents w ns p Hh) ip e), list_elem_of_bind. naive_solver.
Qed.

(** A reused address is lost.  If a pod gets the address of another
    that has not been deleted yet (a completed pod keeps its status address),
    then the later deletion of the first removes the entry of the second,
    although that is alive and its notifications were all handled. *)
Theorem reused_address_lost (a b : Pod) (ip : string) (s : Service)
    (Ha : HostNetwork a = false ∧ allPodIPs a = [ip]) (Hb : HostNetwork b = false ∧ allPodIPs b = [ip]) :
  let s1 := notify_all [PodAdded a; PodAdded b] s in
  replay (changes s1) !! ip = Some (Entry ip (MetaPod (PodNamespace b) (PodName b))) ∧
  replay (changes (notify (PodDeleted (Deleted a)) s1)) !! ip = None.
Proof.
  destruct Ha as [Ha1 Ha2], Hb as [Hb1 Hb2]. cbn [notify_all foldl notify].
  unfold onAddPod, onDeletePod, createCacheEntries4Pod.
  rewrite Ha1, Ha2, Hb1, Hb2. cbn [fmap list_fmap length Nat.eqb]. rewrite !when_some_log, !replay_logChange.
  cbn [foldl apply opcode entry IP]. split.
  - by rewrite lookup_insert_eq.
  - by rewrite lookup_delete_eq.
Qed.

(** ** Witnesses *)

Definition demo_pod (ns name ip : string) : Pod := MkPod ns name "1" false (Some [ip]) ip.

Lemma informers_exact_witness :
  replay (changes (notify_all [PodAdded (demo_pod "ns" "a" "10.0.0.1")] (NewService "p"))) !! "10.0.0.1"%string =
  Some (Entry "10.0.0.1" (MetaPod "ns" "a")).
Proof.
  apply (informers_exact [ObjPod (demo_pod "ns" "a" "10.0.0.1")] [PodAdded (demo_pod "ns" "a" "10.0.0.1")]).
  - apply (history_next [] [] _ _ history_start (pod_added _ _)). apply NoDup_singleton.
  - exists (ObjPod (demo_pod "ns" "a" "10.0.0.1")). split_and!; [apply list_elem_of_here|apply list_elem_of_here|done].
Defined.

Lemma reused_address_lost_witness :
  replay (changes (notify (PodDeleted (Deleted (demo_pod "ns" "job" "10.0.0.1")))
    (notify_all [PodAdded (demo_pod "ns" "job" "10.0.0.1"); PodAdded (demo_pod "ns" "web" "10.0.0.1")] (NewService "p"))))
  !! "10.0.0.1"%string = None.
Proof.
  exact (proj2 (reused_address_lost (demo_pod "ns" "job" "10.0.0.1") (demo_pod "ns" "web" "10.0.0.1") "10.0.0.1"
    (NewService "p") (conj eq_refl eq_refl) (conj eq_refl eq_refl))).
Defined.
End Informers.
