(* ===== verification/IpCacheAgent.v ===== *)
(** The agent's copy of the IP cache: src/pkg/exporter/nettop/ipcache.go, and
    the client of the controller's service in
    src/pkg/exporter/task-agent/agent.go ([syncIPCache]).

    The agent lists the cache once, then applies the changes of its watch
    stream, and after a broken stream watches again from the revision that it
    has.  IpCacheSystem.v composes this with IpCacheService.v and
    IpCacheInformers.v. *)

From S2P Require Import Prelude IpCacheService IpCacheInformers.
Import IpCache Informers.

Module IpCacheAgent.

(** ** nettop/ipcache.go *)

Definition IPTypeNode : string := "node".
Definition IPTypePod : string := "pod".

Record IPInfo := IPInfoOf {
  Type_ : string;
  info_IP : string;
  info_NodeName : string;
  info_PodName : string;
  info_PodNamespace : string;
}.

Record IPCache := MkIPCache {
  cache_period : string;
  cache_revision : nat;
  cache_entries : gmap string IPInfo;
}.

(** The value that [init] stores in [cacheHolder]. *)
Definition init_cache : IPCache := MkIPCache "" 0 ∅.

Definition GetIPInfo (c : IPCache) (ip : string) : option IPInfo := cache_entries c !! ip.

Definition IPCacheRevision (c : IPCache) : string * nat := (cache_period c, cache_revision c).

Definition UpdateIPCache (period : string) (revision : nat) (entries : list IPInfo) : IPCache :=
  MkIPCache period revision (foldl (λ m e, <[info_IP e := e]> m) ∅ entries).

(** [info] may be nil; then [info.IP] is a nil dereference, and the agent
    panics ([None]). *)
Definition ApplyIPCacheChange (revision : nat) (op : OpCode) (info : option IPInfo) (c : IPCache) : option IPCache :=
  match op, info with
  | OpCode_Set, Some i => Some (MkIPCache (cache_period c) revision (<[info_IP i := i]> (cache_entries c)))
  | OpCode_Del, Some i => Some (MkIPCache (cache_period c) revision (delete (info_IP i) (cache_entries c)))
  | OpCode_Other _, _ => Some (MkIPCache (cache_period c) revision (cache_entries c))
  | _, None => None
  end.

(** ** task-agent/agent.go *)

Definition entry2IPInfo (e : CacheEntry) : option IPInfo :=
  match Meta e with
  | MetaNode name => Some (IPInfoOf IPTypeNode (IP e) name "" "")
  | MetaPod ns name => Some (IPInfoOf IPTypePod (IP e) "" name ns)
  | MetaNone => None
  end.

(** [reconn]: whether the agent lists first, and the cache with which it
    watches. *)
Definition must_list (relist : bool) (c : IPCache) : bool := relist || String.eqb (cache_period c) "".

Definition reconn (relist : bool) (resp : ListCacheResponse) (c : IPCache) : IPCache :=
  if must_list relist c
  then UpdateIPCache (list_period resp) (list_revision resp) (omap entry2IPInfo (list_entries resp))
  else c.

(** The argument of [reconn] after an error of the stream: [None] stands for
    an error other than the two that [WatchCache] returns. *)
Definition relist_after (err : option watch_error) : bool :=
  match err with
  | Some DataLoss | Some InvalidArgument => true
  | None => false
  end.

(** One response of the stream. *)
Definition on_response (cl : changeLog) (c : IPCache) : option IPCache :=
  ApplyIPCacheChange (revision cl) (opcode cl) (entry2IPInfo (entry cl)) c.

Definition on_responses (cls : list changeLog) (c : IPCache) : option IPCache :=
  foldl (λ oc cl, c ← oc; on_response cl c) (Some c) cls.

(** ** Replication *)

(** The agent's view of the controller's map. *)
Definition infos (m : gmap string CacheEntry) : gmap string IPInfo := omap entry2IPInfo m.

(** The cache is the state of the log at the revision of the cache. *)
Definition follows (s : Service) (c : IPCache) : Prop :=
  cache_period c = period s ∧ (cache_revision c <= length (log s))%nat ∧
  cache_entries c = infos (replay (take (cache_revision c) (log s))).

(** Entries that the informer callbacks create. *)
Definition has_meta (cl : changeLog) : Prop := Meta (entry cl) ≠ MetaNone.

(** ** Lemmas *)

Lemma entry2IPInfo_Some (e : CacheEntry) :
  Meta e ≠ MetaNone -> ∃ i, entry2IPInfo e = Some i ∧ info_IP i = IP e.
Proof. unfold entry2IPInfo. destruct (Meta e); [by eexists..|done]. Qed.

Lemma on_response_apply (cl : changeLog) (c : IPCache) (m : gmap string CacheEntry) :
  has_meta cl -> cache_entries c = infos m ->
  on_response cl c = Some (MkIPCache (cache_period c) (revision cl) (infos (apply m cl))).
Proof.
  intros Hm E. destruct (entry2IPInfo_Some _ Hm) as (i & Ei & Hip).
  unfold on_response, ApplyIPCacheChange, apply, infos. rewrite Ei, E. destruct (opcode cl); [| |done].
  - by rewrite (omap_insert_Some _ _ _ _ i), Hip by done.
  - by rewrite omap_delete, Hip.
Qed.

(** Applying the next changes of the log, in order. *)
Lemma on_responses_follow (cls rest : list changeLog) (s : Service) (c : IPCache) :
  revision <$> log s = seq 1 (length (log s)) -> Forall has_meta (log s) -> follows s c ->
  drop (cache_revision c) (log s) = cls ++ rest ->
  ∃ c', on_responses cls c = Some c' ∧ follows s c' ∧ cache_revision c' = (cache_revision c + length cls)%nat.
Proof.
  intros Hn Hmeta. revert c. induction cls as [|cl cls IH]; intros c (Hp & Hle & He) Hd.
  { exists c. split_and!; [done|done|simpl; lia]. }
  destruct (missing_cons (log s) (cache_revision c) cl (cls ++ rest) Hn (eq_sym Hd)) as (Hl & Hr & Hd').
  unfold on_responses. cbn [foldl]. simpl (mbind _ _).
  rewrite (on_response_apply cl c (replay (take (cache_revision c) (log s)))); [|by eapply Forall_lookup_1|done].
  set (c1 := MkIPCache _ _ _). destruct (IH c1) as (c' & E & Hf & Hrev).
  - unfold follows, c1. cbn. rewrite Hr. split_and!; [done|by eapply lookup_lt_Some|].
    by rewrite (take_S_r _ _ _ Hl), replay_app.
  - unfold c1. cbn. by rewrite Hr.
  - exists c'. split_and!; [done|done|]. rewrite Hrev. unfold c1. cbn. rewrite Hr. lia.
Qed.

Lemma follows_extend (s s' : Service) (c : IPCache) :
  log s `prefix_of` log s' -> period s' = period s -> follows s c -> follows s' c.
Proof.
  intros [k E] Hp (H1 & H2 & H3). unfold follows. rewrite E, Hp, length_app, take_app_le by done.
  split_and!; [done|lia|done].
Qed.
End IpCacheAgent.
