(* ===== verification/IpCacheSystem.v ===== *)
(** The controller's IP cache with one agent that follows it: [Service] of
    src/pkg/controller/ipcache/ipcache.go and [syncIPCache] of
    src/pkg/exporter/task-agent/agent.go, connected by a stream.

    A step is a step of the controller (among them the watch requests of other
    agents), its restart with a new period, or a step of the agent: the list
    and the watch request of [reconn], the receipt of one response, the end of
    the stream.  Responses that were sent and not received yet are in flight;
    they are lost if the stream ends. *)

From S2P Require Import Prelude IpCacheService IpCacheInformers IpCacheAgent.
Import IpCache Informers IpCacheAgent.

Module IpCacheSystem.

(** ** State and steps *)

(** Where [syncIPCache] is: about to call [ListCache] (if it has to), about to
    call [WatchCache], or in the loop around [Recv] of the stream of client
    [id] of the controller.  [relist] is the captured argument of [reconn]. *)
Inductive connection :=
  | Disconnected (relist : bool)
  | Listed (relist : bool)
  | Watching (id : nat) (inflight : list changeLog).

Record system := System { controller : Service; agent : IPCache; conn : connection }.

Inductive event :=
  | Control (a : action)
  | Restart (p : string)                     (** a new controller, with period [p] *)
  | AgentList
  | AgentWatch
  | AgentRetry                               (** a request of [reconn] failed *)
  | AgentRecv
  | AgentBreak (err : option watch_error).   (** [Recv] returns an error *)

Inductive sys_outcome := Runs (x : system) | NotEnabled | ControllerPanic | AgentPanic.

(** The responses that a step of the controller sends to a client. *)
Definition newly_sent (id : nat) (s s' : Service) : list changeLog :=
  match find_client id (clients s), find_client id (clients s') with
  | Some c, Some c' => drop (length (sent c)) (sent c')
  | _, _ => []
  end.

Definition carry (s s' : Service) (k : connection) : connection :=
  match k with
  | Watching id q => Watching id (q ++ newly_sent id s s')
  | _ => k
  end.

(** The connections of the old controller break. *)
Definition cut (k : connection) : connection :=
  match k with Watching _ _ => Disconnected (relist_after None) | Listed r => Disconnected r | _ => k end.

(** The first half of [reconn]. *)
Definition agent_list (x : system) (relist : bool) : system :=
  System (controller x) (reconn relist (ListCache (controller x)) (agent x)) (Listed (must_list relist (agent x))).

(** The second half: the errors of [WatchCache] arrive at the first [Recv]. *)
Definition agent_watch (x : system) : system :=
  match WatchCache (cache_period (agent x)) (cache_revision (agent x)) (controller x) with
  | inl s' => System s' (agent x) (Watching (next_id (controller x)) [])
  | inr err => System (controller x) (agent x) (Disconnected (relist_after (Some err)))
  end.

Definition sys_exec (e : event) (x : system) : sys_outcome :=
  match e, conn x with
  | Control a, k =>
      match exec a (controller x) with
      | Ok s' => Runs (System s' (agent x) (carry (controller x) s' k))
      | Blocked => NotEnabled
      | Panic => ControllerPanic
      end
  | Restart p, k => Runs (System (NewService p) (agent x) (cut k))
  | AgentList, Disconnected relist => Runs (agent_list x relist)
  | AgentWatch, Listed _ => Runs (agent_watch x)
  | AgentRetry, Listed relist => Runs (System (controller x) (agent x) (Disconnected relist))
  | AgentRecv, Watching id (cl :: q) =>
      match on_response cl (agent x) with
      | Some c => Runs (System (controller x) c (Watching id q))
      | None => AgentPanic
      end
  | AgentBreak err, Watching _ _ => Runs (System (controller x) (agent x) (Disconnected (relist_after err)))
  | _, _ => NotEnabled
  end.

(** What the informer callbacks log: set and delete operations with the
    entries of a pod or a node. *)
Definition from_callbacks (a : action) : Prop :=
  match a with
  | Log op e => (op = OpCode_Set ∨ op = OpCode_Del) ∧ ∃ o, e ∈ entries_of o
  | _ => True
  end.

(** A new controller has a period that the agent has not seen: the period is a
    new UUID. *)
Definition allowed (x : system) (e : event) : Prop :=
  match e with
  | Control a => from_callbacks a
  | Restart p => p ≠ cache_period (agent x)
  | _ => True
  end.

(** The runs of a new agent with a new controller. *)
Inductive sys_reachable (p : string) : system -> Prop :=
  | sys_init : sys_reachable p (System (NewService p) init_cache (Disconnected false))
  | sys_step x x' e : sys_reachable p x -> allowed x e -> sys_exec e x = Runs x' -> sys_reachable p x'.

Fixpoint sys_run (es : list event) (x : system) : sys_outcome :=
  match es with
  | [] => Runs x
  | e :: es' => match sys_exec e x with Runs x' => sys_run es' x' | o => o end
  end.

(** ** Streams *)

(** Every client is an earlier one, whose stream only grew. *)
Definition streams (cs cs' : list client) : Prop :=
  ∀ c', c' ∈ cs' -> ∃ c, c ∈ cs ∧ c_id c' = c_id c ∧ c_from c' = c_from c ∧ sent c `prefix_of` sent c'.

#[local] Instance streams_refl : Reflexive streams.
Proof. intros cs c Hc. by exists c. Qed.

#[local] Instance streams_trans : Transitive streams.
Proof.
  intros cs1 cs2 cs3 H1 H2 c3 Hc3. destruct (H2 c3 Hc3) as (c2 & Hc2 & E1 & E2 & P2).
  destruct (H1 c2 Hc2) as (c1 & Hc1 & E3 & E4 & P1). exists c1. split_and!; [done|congruence|congruence|by etrans].
Qed.

Definition grown (f : client -> client) : Prop :=
  ∀ c, c_id (f c) = c_id c ∧ c_from (f c) = c_from c ∧ sent c `prefix_of` sent (f c).

Lemma update_streams (id : nat) (f : client -> client) (cs : list client) :
  grown f -> streams cs (update_client id f cs).
Proof.
  intros Hf c' (c & -> & Hc)%list_elem_of_fmap. exists c. split; [done|]. case_bool_decide; [apply Hf|done].
Qed.

Lemma copy_streams (f : clientstate -> bool) (cs : list client) : streams cs (copyClients f cs).2.
Proof.
  intros c Hc. exists c. split_and!; [|done..].
  by eapply elem_of_submseteq; [|apply sublist_submseteq, copyClients_sublist].
Qed.

Lemma syncOneUpdateToDate_grown (room : nat) (cls : list changeLog) : grown (syncOneUpdateToDateClient room cls).
Proof. intros c. revert room c. induction cls as [|cl cls IH]; intros [|room] c; try done. apply (IH room (push cl c)). Qed.

Lemma sync_one_loop_grown (room : nat) (cls : list changeLog) (up : nat) : grown (sync_one_loop room cls up).
Proof.
  intros c. revert room c. induction cls as [|cl cls IH]; intros [|room] c; try done. cbn [sync_one_loop].
  destruct (_ =? _)%nat; [done|]. destruct (_ <? _)%nat; [done|]. apply (IH room (push cl c)).
Qed.

Lemma syncOne_grown (room : nat) (l : list changeLog) (up : nat) : grown (syncOne room l up).
Proof.
  intros c. unfold syncOne. destruct (findNext _ _) as [i|]; [|done]. destruct (i =? -1); [done|].
  apply sync_one_loop_grown.
Qed.

Lemma watch_send_grown (ok : bool) : grown (λ c, if closed c then c else watch_send ok c).
Proof.
  intros c. destruct (closed c); [done|]. unfold watch_send. destruct (ch c); [done|]. destruct ok; [|done].
  split_and!; [done|done|]. by apply prefix_app_r.
Qed.

Lemma sync_uptodate_streams (ids : list nat) (room : nat -> nat) (cls : list changeLog) (up : nat) (cs cs' : list client) :
  sync_uptodate ids room cls up cs = Some cs' -> streams cs cs'.
Proof.
  revert cs. induction ids as [|id ids IH]; intros cs E; simpl in E; [by simplify_eq|].
  destruct (find_client id cs) as [c|]; [|done]. simpl in E. destruct (negb _); [done|].
  etrans; [|by apply IH]. apply update_streams, syncOneUpdateToDate_grown.
Qed.

Lemma syncClients_streams (room : nat -> nat) (up : nat) (s : Service) :
  streams (clients s) (clients (syncClients room up s)).
Proof.
  unfold syncClients. pose proof (copy_streams is_behind (clients s)) as H.
  destruct (copyClients is_behind (clients s)) as [ids cs]. cbn [clients set_clients]. simpl in H.
  etrans; [exact H|]. clear H. revert cs. induction ids as [|id ids IH]; intros cs; [done|]. simpl.
  etrans; [|apply IH]. apply update_streams, syncOne_grown.
Qed.

(** What a step of the controller leaves alone. *)
Record extends (s s' : Service) : Prop := Extends {
  ext_log : log s `prefix_of` log s';
  ext_period : period s' = period s;
  ext_next : (next_id s <= next_id s')%nat;
  ext_clients : ∀ c', c' ∈ clients s' -> (c_id c' < next_id s)%nat ->
    ∃ c, c ∈ clients s ∧ c_id c' = c_id c ∧ c_from c' = c_from c ∧ sent c `prefix_of` sent c';
}.

Lemma extends_of (s s' : Service) :
  log s `prefix_of` log s' -> period s' = period s -> next_id s' = next_id s -> streams (clients s) (clients s') ->
  extends s s'.
Proof. intros ? ? E H. split; [done|done|by rewrite E|]. intros c' Hc' _. by apply H. Qed.

Lemma flush_extends (room : nat -> nat) (s s' : Service) : flush room s = Some s' -> extends s s'.
Proof.
  intros E. unfold flush, syncUpToDateClients in E. pose proof (copy_streams is_uptodate (clients s)) as H.
  destruct (copyClients is_uptodate (clients s)) as [ids cs]. simpl in H.
  destruct (sync_uptodate ids room _ _ cs) as [cs'|] eqn:Es; [|done]. simplify_eq/=.
  apply extends_of; [done..|]. cbn. etrans; [exact H|]. by eapply sync_uptodate_streams.
Qed.

Lemma on_log_extends (room : nat -> nat) (s s' : Service) (cl : changeLog) (q : list changeLog) :
  on_log room cl (set_chan (storage_revision s) q s) = Some s' -> extends s s'.
Proof.
  rewrite on_log_eq. assert (log s `prefix_of` log (take_change cl q s)) as Hp by by apply prefix_app_r.
  destruct (_ <? _)%nat.
  - intros [H1 H2 H3 H4]%flush_extends. split; [by etrans|done|done|done].
  - intros [= <-]. by apply extends_of.
Qed.

Lemma watch_extends (p : string) (r : nat) (s s' : Service) : WatchCache p r s = inl s' -> extends s s'.
Proof.
  unfold WatchCache. destruct (negb _); [done|]. case_bool_decide; [done|]. intros [= <-].
  split; cbn; [done|done|lia|]. intros c' [Hc'| ->%list_elem_of_singleton]%elem_of_app Hlt; [by exists c'|].
  simpl in Hlt. lia.
Qed.

Lemma exec_extends (a : action) (s s' : Service) : exec a s = Ok s' -> extends s s'.
Proof.
  intros E. destruct a; cbn [exec] in E.
  - destruct (_ && _); [|done]. injection E as <-. by apply extends_of.
  - destruct (ticking s); [done|]. destruct (logChan s) as [|cl q] eqn:Eq; [done|].
    destruct (on_log _ _ _) eqn:El; [|done]. injection E as <-. by eapply on_log_extends.
  - destruct (ticking s); [done|]. unfold on_tick_flush in E. destruct (_ <? _)%nat.
    + destruct (flush room s) as [s1|] eqn:Ef; [|done]. injection E as <-. by destruct (flush_extends _ _ _ Ef).
    + injection E as <-. by apply extends_of.
  - destruct (ticking s); [|done]. injection E as <-. unfold on_tick_sync.
    pose proof (syncClients_streams room (maxSyncedRevision s) s) as H. unfold syncClients in *.
    destruct (copyClients _ _). by apply extends_of.
  - destruct (WatchCache _ _ _) eqn:Ew; [|done]. injection E as <-. by eapply watch_extends.
  - injection E as <-. apply extends_of; [done..|]. apply update_streams, watch_send_grown.
  - injection E as <-. apply extends_of; [done..|]. by apply update_streams.
Qed.

(** ** Metadata *)

Lemma entries_of_meta (o : object) (e : CacheEntry) : e ∈ entries_of o -> Meta e ≠ MetaNone.
Proof.
  destruct o as [p|n]; simpl.
  - unfold createCacheEntries4Pod. destruct (HostNetwork p); [by intros ?%elem_of_nil|].
    by intros (ip & -> & _)%list_elem_of_fmap.
  - by intros (ip & -> & _)%list_elem_of_fmap.
Qed.

Lemma flush_changes (room : nat -> nat) (s s' : Service) : flush room s = Some s' -> changes s' = changes s.
Proof.
  unfold flush, syncUpToDateClients. destruct (copyClients _ _) as [ids cs]. intros E.
  destruct (sync_uptodate _ _ _ _ _); [|done]. by simplify_eq/=.
Qed.

(** Only [Log] adds a change; the other steps at most move one. *)
Lemma exec_changes (a : action) (s s' : Service) :
  exec a s = Ok s' ->
  changes s' = changes s ++ match a with Log op e => [ChangeLog (S (storage_revision s)) op e] | _ => [] end.
Proof.
  intros E. destruct a; cbn [exec] in E; rewrite ?app_nil_r.
  - destruct (_ && _); [|done]. injection E as <-. unfold changes. cbn. by rewrite app_assoc.
  - destruct (ticking s); [done|]. destruct (logChan s) as [|cl q] eqn:Eq; [done|]. rewrite on_log_eq in E.
    assert (changes (take_change cl q s) = changes s) as H
      by (unfold changes; cbn; rewrite Eq, <- app_assoc; done).
    rewrite <- H. destruct (_ <? _)%nat; [|by injection E as <-].
    destruct (flush room _) as [s1|] eqn:Ef; [|done]. injection E as <-. by eapply flush_changes.
  - destruct (ticking s); [done|]. unfold on_tick_flush in E. destruct (_ <? _)%nat; [|by injection E as <-].
    destruct (flush room s) as [s1|] eqn:Ef; [|done]. injection E as <-.
    rewrite <- (flush_changes _ _ _ Ef). done.
  - destruct (ticking s); [|done]. injection E as <-. unfold on_tick_sync, syncClients.
    by destruct (copyClients _ _).
  - unfold WatchCache in E. destruct (negb _); [done|]. case_bool_decide; [done|]. by injection E as <-.
  - by injection E as <-.
  - by injection E as <-.
Qed.

Lemma exec_meta (a : action) (s s' : Service) :
  from_callbacks a -> exec a s = Ok s' -> Forall has_meta (changes s) -> Forall has_meta (changes s').
Proof.
  intros Ha E H. rewrite (exec_changes _ _ _ E). apply Forall_app. split; [done|].
  destruct a; try apply Forall_nil_2. apply Forall_singleton. destruct Ha as (_ & o & Ho). by eapply entries_of_meta.
Qed.

(** ** The invariant *)

(** The responses in flight continue the agent's cache, and the rest of the
    stream continues them. *)
Definition in_flight (s : Service) (c : IPCache) (id : nat) (q : list changeLog) : Prop :=
  cache_period c = period s ∧ (id < next_id s)%nat ∧ q `prefix_of` drop (cache_revision c) (log s) ∧
  ∀ cl, cl ∈ clients s -> c_id cl = id -> (c_from cl + length (sent cl) = cache_revision c + length q)%nat.

Record sys_inv (x : system) : Prop := SysInv {
  si_inv : inv (controller x);
  si_meta : Forall has_meta (changes (controller x));
  si_follows : cache_period (agent x) = period (controller x) -> follows (controller x) (agent x);
  si_conn : match conn x with Watching id q => in_flight (controller x) (agent x) id q | _ => True end;
}.

Lemma prefix_drop {A : Type} (n : nat) (l1 l2 : list A) : l1 `prefix_of` l2 -> drop n l1 `prefix_of` drop n l2.
Proof. intros [k ->]. rewrite drop_app. by apply prefix_app_r. Qed.

Lemma log_meta (x : system) : sys_inv x -> Forall has_meta (log (controller x)).
Proof. intros H. by destruct (proj1 (Forall_app _ _ _) (si_meta x H)). Qed.

Lemma find_client_unique (cs : list client) (c : client) :
  NoDup (c_id <$> cs) -> c ∈ cs -> find_client (c_id c) cs = Some c.
Proof.
  intros Hnd Hc. destruct (find_client_is_Some (c_id c) cs) as [c' E]; [by apply list_elem_of_fmap_2|].
  destruct (find_client_Some _ _ _ E) as [Hc' Hid]. rewrite E. f_equal. by eapply client_unique.
Qed.

(** What a client is sent next is next in the log. *)
Lemma sent_next (s : Service) (c' : client) (l k : list changeLog) :
  inv s -> c' ∈ clients s -> sent c' = l ++ k -> k `prefix_of` drop (c_from c' + length l) (log s).
Proof.
  intros H Hc E. destruct (proj1 (Forall_forall _ _) (inv_clients s H) c' Hc) as (_ & _ & Hp & _).
  assert (sent c' `prefix_of` drop (c_from c') (log s)) as [z Hz]
    by (etrans; [exact Hp|]; apply prefix_drop, prefix_take).
  rewrite <- drop_drop, Hz, E, <- app_assoc, drop_app_length. by apply prefix_app_r.
Qed.

Lemma in_flight_step (s s' : Service) (c : IPCache) (id : nat) (q : list changeLog) :
  inv s -> inv s' -> extends s s' -> in_flight s c id q -> in_flight s' c id (q ++ newly_sent id s s').
Proof.
  intros H H' [Hl Hp Hn Hcs] (Ep & Hid & Hq & Hsent).
  assert (q `prefix_of` drop (cache_revision c) (log s')) as Hq' by (etrans; [exact Hq|by apply prefix_drop]).
  destruct (find_client id (clients s')) as [c'|] eqn:Ef'.
  - destruct (find_client_Some _ _ _ Ef') as [Hc' <-]. destruct (Hcs c' Hc' Hid) as (c0 & Hc0 & E1 & E2 & [k E3]).
    assert (newly_sent (c_id c') s s' = k) as ->.
    { unfold newly_sent. rewrite Ef'. rewrite E1, (find_client_unique _ _ (inv_ids s H) Hc0).
      by rewrite E3, drop_app_length. }
    specialize (Hsent c0 Hc0 (eq_sym E1)). split_and!; [congruence|lia| |].
    + destruct Hq' as [z Hz]. rewrite Hz. apply prefix_app.
      pose proof (sent_next s' c' (sent c0) k H' Hc' E3) as Hk.
      rewrite E2, Hsent, <- drop_drop, Hz, drop_app_length in Hk. done.
    + intros cl Hcl Hi. assert (cl = c') as -> by (eapply client_unique; [apply H'|done..]).
      rewrite E2, E3, !length_app. lia.
  - assert (newly_sent id s s' = []) as -> by (unfold newly_sent; rewrite Ef'; by destruct (find_client id (clients s))).
    rewrite app_nil_r. split_and!; [congruence|lia|done|].
    intros cl Hcl <-. by rewrite (find_client_unique _ _ (inv_ids s' H') Hcl) in Ef'.
Qed.

Lemma control_inv (a : action) (x : system) (s' : Service) :
  from_callbacks a -> exec a (controller x) = Ok s' -> sys_inv x ->
  sys_inv (System s' (agent x) (carry (controller x) s' (conn x))).
Proof.
  intros Ha E [H1 H2 H3 H4]. pose proof (exec_inv _ _ _ H1 E) as H'. pose proof (exec_extends _ _ _ E) as Hx.
  split; cbn; [done|by eapply exec_meta| |].
  - intros Hp. destruct Hx as [Hl Ep _ _]. rewrite Ep in Hp. by eapply follows_extend; [| |apply H3].
  - destruct (conn x) as [r|r|id q]; [done|done|]. by apply in_flight_step.
Qed.

Lemma NewService_inv (p : string) : inv (NewService p).
Proof. apply (reachable_inv (λ _, True) p). apply reach_init. Qed.

(** Listing gives the state of the log at revision 0: no log is compacted. *)
Lemma list_follows (s : Service) : inv s ->
  follows s (UpdateIPCache (period s) (snap_revision (snap s)) (omap entry2IPInfo (list_entries (ListCache s)))).
Proof.
  intros H. unfold ListCache. rewrite (inv_snapshot s H). cbn. rewrite map_to_list_empty. cbn.
  unfold follows, UpdateIPCache. cbn. split_and!; [done|lia|].
  unfold infos, replay. rewrite take_0. cbn [foldl]. by rewrite omap_empty.
Qed.

Lemma agent_list_inv (x : system) (relist : bool) : sys_inv x -> sys_inv (agent_list x relist).
Proof.
  intros [H1 H2 H3 _]. split; cbn; [done|done| |done]. unfold reconn. destruct (must_list _ _); [|done].
  intros _. by apply list_follows.
Qed.

Lemma agent_watch_inv (x : system) : sys_inv x -> sys_inv (agent_watch x).
Proof.
  intros [H1 H2 H3 _]. unfold agent_watch. destruct (WatchCache _ _ _) as [s'|err] eqn:E; [|by split].
  pose proof (watch_inv _ _ _ _ H1 E) as H'. pose proof (watch_extends _ _ _ _ E) as Hx.
  unfold WatchCache in E. destruct (String.eqb_spec (cache_period (agent x)) (period (controller x))) as [Ep|]; [|done].
  cbn [negb] in E. case_bool_decide; [done|]. injection E as <-. split; cbn; [done|done| |].
  - intros _. by eapply follows_extend; [| |apply (H3 Ep)].
  - split_and!; [done|cbn; lia|apply prefix_nil|]. cbn. intros cl [Hcl| ->%list_elem_of_singleton]%elem_of_app Hid; [|cbn; lia].
    pose proof (proj1 (Forall_forall _ _) (inv_fresh _ H1) (c_id cl) (list_elem_of_fmap_2 _ _ _ Hcl)). simpl in *. lia.
Qed.

Lemma recv_step (x : system) (id : nat) (cl : changeLog) (q : list changeLog) :
  sys_inv x -> conn x = Watching id (cl :: q) ->
  ∃ c', on_response cl (agent x) = Some c' ∧ cache_revision c' = S (cache_revision (agent x)) ∧
    follows (controller x) c' ∧ sys_inv (System (controller x) c' (Watching id q)).
Proof.
  intros H Hc. pose proof (si_conn x H) as Hk. rewrite Hc in Hk. destruct Hk as (Ep & Hid & [rest Hq] & Hsent).
  destruct (on_responses_follow [cl] (q ++ rest) (controller x) (agent x) (inv_log_numbers _ (si_inv x H)) (log_meta x H)
    (si_follows x H Ep) Hq) as (c' & E & Hf & Hr).
  exists c'. rewrite Nat.add_1_r in Hr. split_and!; [exact E|done|done|].
  destruct H as [H1 H2 _ _]. split; cbn; [done|done|done|]. split_and!; [apply Hf|done| |].
  - exists rest. rewrite Hr, <- Nat.add_1_r, <- drop_drop, Hq. done.
  - intros c Hin Hi. rewrite (Hsent c Hin Hi), Hr. cbn. lia.
Qed.

Lemma sys_exec_inv (e : event) (x x' : system) :
  allowed x e -> sys_exec e x = Runs x' -> sys_inv x -> sys_inv x'.
Proof.
  intros Ha E H. destruct e as [a|p| | | | |err]; cbn [sys_exec] in E.
  - destruct (exec a (controller x)) eqn:Ee; [|done..]. injection E as <-. by apply (control_inv a).
  - injection E as <-. split; cbn; [apply NewService_inv|apply Forall_nil_2| |by destruct (conn x)].
    intros Hp. by destruct Ha.
  - destruct (conn x); [|done..]. injection E as <-. by apply agent_list_inv.
  - destruct (conn x); [done| |done]. injection E as <-. by apply agent_watch_inv.
  - destruct (conn x); [done| |done]. injection E as <-. destruct H. by split.
  - destruct (conn x) as [|?|id [|cl q]] eqn:Ec; [done|done|done|].
    destruct (recv_step x id cl q H Ec) as (c' & Er & _ & _ & H'). rewrite Er in E. by injection E as <-.
  - destruct (conn x); [done|done|]. injection E as <-. destruct H. by split.
Qed.

Lemma sys_reachable_inv (p : string) (x : system) : sys_reachable p x -> sys_inv x.
Proof.
  induction 1 as [|x x' e _ IH Ha E]; [|by eapply sys_exec_inv].
  split; cbn; [apply NewService_inv|apply Forall_nil_2| |done].
  intros <-. split_and!; [done|cbn; lia|]. unfold infos, replay. cbn. by rewrite omap_empty.
Qed.

(** An agent at the controller's revision has replayed every change. *)
Lemma caught_up (x : system) :
  sys_inv x -> cache_period (agent x) = period (controller x) ->
  cache_revision (agent x) = storage_revision (controller x) ->
  cache_entries (agent x) = infos (replay (changes (controller x))).
Proof.
  intros H Hp Hrev. destruct (si_follows x H Hp) as (_ & Hle & ->). do 2 f_equal.
  pose proof (inv_numbers _ (si_inv x H)) as Hn. set (s := controller x) in *.
  assert (length (log s) + length (logChan s) = storage_revision s)%nat as Hlen
    by (rewrite <- length_app, <- (length_fmap revision), Hn; apply length_seq).
  unfold changes. assert (logChan s = []) as -> by (apply length_zero_iff_nil; lia).
  rewrite app_nil_r. apply take_ge. lia.
Qed.

(** ** Properties *)

(** C6: the agent's cache is the controller's map at the agent's revision, in
    every run of an agent with the controller: with other agents watching,
    streams that break at any time, responses lost with them, and restarts of
    the controller.  As long as the period of the cache is the controller's
    (always, while a stream is open), the cache is the replay of the log up to
    the revision of the cache.  No response makes the agent dereference nil;
    the next response in flight takes the cache to the next revision.  The
    only assumptions on the run are that the controller logs what its informer
    callbacks create, and that a new controller has a new period. *)
Theorem agent_replicates (p : string) (x : system) (Hx : sys_reachable p x) :
  (cache_period (agent x) = period (controller x) -> follows (controller x) (agent x)) ∧
  (∀ e, sys_exec e x ≠ AgentPanic) ∧
  (∀ id q, conn x = Watching id q -> cache_period (agent x) = period (controller x)) ∧
  (∀ id cl q, conn x = Watching id (cl :: q) ->
   ∃ c', sys_exec AgentRecv x = Runs (System (controller x) c' (Watching id q)) ∧ follows (controller x) c' ∧
     cache_revision c' = S (cache_revision (agent x))).
Proof.
  pose proof (sys_reachable_inv p x Hx) as H. split_and!.
  - apply H.
  - intros e. destruct e; cbn [sys_exec]; try (by destruct (conn x)); [by destruct (exec _ _)|].
    destruct (conn x) as [|?|id [|cl q]] eqn:Ec; [done..|].
    by destruct (recv_step x id cl q H Ec) as (c' & -> & _).
  - intros id q Hc. pose proof (si_conn x H) as Hk. rewrite Hc in Hk. apply Hk.
  - intros id cl q Hc. destruct (recv_step x id cl q H Hc) as (c' & E & Hr & Hf & _). exists c'.
    cbn [sys_exec]. by rewrite Hc, E.
Qed.

(** C7: end to end, an agent that has caught up names live objects.  In every
    run of an agent with the controller: if the changes that the controller
    logged are those of a history of pod and node notifications in which no two
    live objects share an address, and the agent has the period and the
    revision of the controller, then it looks up an address successfully
    exactly if a live pod outside the host network or a live node has it, and
    gets that object. *)
Theorem agent_names_live_objects (p : string) (x : system) (w : list object) (ns : list notification)
    (ip : string) (info : IPInfo)
    (Hx : sys_reachable p x)
    (Hch : changes (controller x) = changes (notify_all ns (NewService (period (controller x)))))
    (Hh : history w ns)
    (Hcaught : IPCacheRevision (agent x) = (period (controller x), storage_revision (controller x))) :
  GetIPInfo (agent x) ip = Some info <->
  ∃ o e, o ∈ w ∧ e ∈ entries_of o ∧ IP e = ip ∧ entry2IPInfo e = Some info.
Proof.
  injection Hcaught as Hp Hrev. unfold GetIPInfo.
  rewrite (caught_up x (sys_reachable_inv p x Hx) Hp Hrev), Hch. unfold infos. rewrite lookup_omap, bind_Some.
  destruct (history_represents w ns (period (controller x)) Hh) as [_ Hrep].
  setoid_rewrite (Hrep ip). setoid_rewrite list_elem_of_bind. naive_solver.
Qed.

(** ** Witnesses *)

Lemma sys_run_reachable (p : string) (es : list event) (x x' : system) :
  sys_reachable p x -> (∀ e, e ∈ es -> ∀ y, allowed y e) -> sys_run es x = Runs x' -> sys_reachable p x'.
Proof.
  revert x. induction es as [|e es IH]; intros x Hx Ha E; simpl in E; [by injection E as <-|].
  destruct (sys_exec e x) as [x1| | |] eqn:Ee; [|done..]. apply (IH x1); [|set_solver|done].
  eapply sys_step; [exact Hx|apply Ha, list_elem_of_here|exact Ee].
Qed.

Definition demo_ns : list notification :=
  [PodAdded (demo_pod "ns" "a" "10.0.0.1"); PodAdded (demo_pod "ns" "b" "10.0.0.2");
   PodDeleted (Deleted (demo_pod "ns" "a" "10.0.0.1"))].
Definition demo_world : list object := [ObjPod (demo_pod "ns" "b" "10.0.0.2")].
Definition room100 (_ : nat) : nat := 100.

(** The agent lists and watches; two pods appear; the agent gets the first
    change, its stream breaks with the second in flight; the first pod goes;
    the agent watches again and gets the rest. *)
Definition demo_events : list event :=
  [AgentList; AgentWatch;
   Control (Log OpCode_Set (Entry "10.0.0.1" (MetaPod "ns" "a")));
   Control (Log OpCode_Set (Entry "10.0.0.2" (MetaPod "ns" "b")));
   Control (Receive room100); Control (Receive room100); Control (TickFlush room100); Control (TickSync room100);
   Control (Send 0 true); AgentRecv; Control (Send 0 true); AgentBreak None;
   Control (Log OpCode_Del (Entry "10.0.0.1" (MetaPod "ns" "a")));
   AgentList; AgentWatch; Control (Receive room100); Control (TickFlush room100); Control (TickSync room100);
   Control (Send 1 true); Control (Send 1 true); AgentRecv].

Definition demo_final (es : list event) : system :=
  match sys_run es (System (NewService "p") init_cache (Disconnected false)) with
  | Runs x => x
  | _ => System (NewService "p") init_cache (Disconnected false)
  end.

Lemma demo_allowed (e : event) : e ∈ demo_events -> ∀ y, allowed y e.
Proof.
  revert e. apply (proj1 (Forall_forall (λ e, ∀ y, allowed y e) demo_events)).
  repeat (apply Forall_cons; split; [intros y; try done|]); [| | |by apply Forall_nil_2]; split; try (by auto);
    [exists (ObjPod (demo_pod "ns" "a" "10.0.0.1"))|exists (ObjPod (demo_pod "ns" "b" "10.0.0.2"))
    |exists (ObjPod (demo_pod "ns" "a" "10.0.0.1"))]; apply list_elem_of_here.
Qed.

(** One change is still in flight: the deletion. *)
Lemma demo_reachable : sys_reachable "p" (demo_final demo_events).
Proof. eapply sys_run_reachable; [apply sys_init|apply demo_allowed|vm_compute; reflexivity]. Qed.

Definition demo_caught_up : system := demo_final (demo_events ++ [AgentRecv]).

Lemma demo_caught_up_reachable : sys_reachable "p" demo_caught_up.
Proof. apply (sys_step "p" (demo_final demo_events) _ AgentRecv); [apply demo_reachable|done|vm_compute; reflexivity]. Qed.

Lemma agent_replicates_witness :
  cache_revision (agent (demo_final demo_events)) = 2%nat ∧
  ∃ c', sys_exec AgentRecv (demo_final demo_events) = Runs (System (controller (demo_final demo_events)) c' (Watching 1 [])) ∧
    follows (controller (demo_final demo_events)) c' ∧ cache_revision c' = 3%nat.
Proof.
  split; [vm_compute; reflexivity|].
  exact (proj2 (proj2 (proj2 (agent_replicates "p" (demo_final demo_events) demo_reachable))) 1%nat
    (ChangeLog 3 OpCode_Del (Entry "10.0.0.1" (MetaPod "ns" "a"))) [] eq_refl).
Defined.

Lemma demo_history : history demo_world demo_ns.
Proof.
  assert (history [ObjPod (demo_pod "ns" "a" "10.0.0.1")] [PodAdded (demo_pod "ns" "a" "10.0.0.1")]) as H1
    by (apply (history_next [] [] _ _ history_start (pod_added _ _)); apply NoDup_singleton).
  assert (NoDup (addresses [ObjPod (demo_pod "ns" "b" "10.0.0.2"); ObjPod (demo_pod "ns" "a" "10.0.0.1")])) as Hnd
    by (vm_compute; apply (bool_decide_unpack _); vm_compute; exact I).
  pose proof (history_next _ _ _ _ H1 (pod_added (demo_pod "ns" "b" "10.0.0.2") _) Hnd) as H2.
  refine (history_next _ _ _ _ H2 (pod_deleted (demo_pod "ns" "a" "10.0.0.1") _ _ _) _); [|apply NoDup_singleton].
  apply perm_swap.
Qed.

Lemma agent_names_live_objects_witness :
  GetIPInfo (agent demo_caught_up) "10.0.0.2" = Some (IPInfoOf "pod" "10.0.0.2" "" "b" "ns").
Proof.
  refine (proj2 (agent_names_live_objects "p" demo_caught_up demo_world demo_ns "10.0.0.2"
    (IPInfoOf "pod" "10.0.0.2" "" "b" "ns") demo_caught_up_reachable _ demo_history _) _).
  - vm_compute. reflexivity.
  - vm_compute. reflexivity.
  - exists (ObjPod (demo_pod "ns" "b" "10.0.0.2")), (Entry "10.0.0.2" (MetaPod "ns" "b")).
    split_and!; [apply list_elem_of_here|apply list_elem_of_here|done|done].
Defined.
End IpCacheSystem.
