(* ===== verification/AgentTuple.v ===== *)
(** How the agent shows a tuple: src/pkg/exporter/probe.

    [Ports] follows a port number from the packet or socket through the probe
    to the text the agent prints; the probes convert to host order in some
    places, the agent in others.  [Labels] is the labelling of a tuple with
    what the IP cache knows (legacy.go). *)

From stdpp Require Import pretty.
From S2P Require Import Prelude Endian CLayout KernelMem Inspector SetTuple IpCacheAgent.

Module Ports.

(** math/bits.ReverseBytes16 *)
Definition ReverseBytes16 (x : Z) : Z := u16 (Z.lor (Z.shiftr x 8) (Z.shiftl x 8)).

(** The ports in the event messages of tracekernel, tracenetiftxlatency,
    tracetcpreset and tracesocketlatency: both reversed. *)
Definition message_ports (t : tuple) : Z * Z := (ReverseBytes16 (sport t), ReverseBytes16 (dport t)).

(** The ports of [toProbeTuple] in packetloss and tcpretrans, and in flow:
    both as they are. *)
Definition probe_tuple_ports (t : tuple) : Z * Z := (sport t, dport t).
Definition flow_tuple_ports (t : flow_tuple_4) : Z * Z := (ft_sport t, ft_dport t).

Lemma reverse_bytes_bswap (x : Z) : fits 16 x -> ReverseBytes16 x = __builtin_bswap 2 x.
Proof.
  intros [Hx0 Hx]. unfold ReverseBytes16, __builtin_bswap. cbn [le_bytes rev app le_val].
  pose proof (Z.div_mod x 256 ltac:(lia)) as Hd. pose proof (Z.mod_pos_bound x 256 ltac:(lia)) as Hm.
  assert (0 <= x / 256 < 256) as Hq by (split; [apply Z.div_pos|apply Z.div_lt_upper_bound]; lia).
  rewrite Z.shiftr_div_pow2, Z.shiftl_mul_pow2, Z.lor_comm, lor_disjoint by (change (2 ^ 8) with 256; lia).
  change (2 ^ 8) with 256. rewrite (Z.mod_small (x / 256)) by done.
  unfold wrap. change (2 ^ 16) with 65536.
  replace (x * 256 + x / 256) with (x / 256 + 256 * (x mod 256) + (x / 256) * 65536) by lia.
  rewrite Z.mod_add, Z.mod_small by lia. lia.
Qed.

Lemma reverse_bytes_fix (x : Z) : fits 16 x -> ReverseBytes16 x = x ↔ x / 256 = x mod 256.
Proof.
  intros Hx. rewrite reverse_bytes_bswap by done. unfold __builtin_bswap. cbn [le_bytes rev app le_val].
  destruct Hx as [Hx0 Hx]. pose proof (Z.div_mod x 256 ltac:(lia)) as Hd.
  pose proof (Z.mod_pos_bound x 256 ltac:(lia)) as Hm.
  assert (0 <= x / 256 < 256) as Hq by (split; [apply Z.div_pos|apply Z.div_lt_upper_bound]; lia).
  rewrite (Z.mod_small (x / 256)) by done. lia.
Qed.

(** Which port numbers the agent shows.  For a TCP or UDP packet with
    ports [p] and [q]: packetloss shows them; kernellatency, netiftxlatency
    and tcpreset, whose probes also use [set_tuple], reverse the bytes of both
    once more, so a port is right only if its two bytes are equal; flow, whose
    probe keeps network order, shows both reversed. *)
Theorem shown_packet_ports (L : KernelLayout) (m : mem) (skb head l3 len : Z) (f : ipv4_frame)
    (t0 : flow_tuple_4) (Hw : wire_layout L) (Hf : wf_frame f)
    (Hskb : skb_at m skb head l3 (l3 + 4 * f_ihl f) (emit4 f))
    (Hp : f_proto f = IPPROTO_TCP) (Hrest : (16 <= length (f_rest f))%nat) :
  let t := (set_tuple m skb zero_tuple).1 in
  probe_tuple_ports t = (f_sport f, f_dport f) ∧
  message_ports t = (ReverseBytes16 (f_sport f), ReverseBytes16 (f_dport f)) ∧
  (message_ports t = (f_sport f, f_dport f) ↔
     f_sport f / 256 = f_sport f mod 256 ∧ f_dport f / 256 = f_dport f mod 256) ∧
  (∃ ft, set_flow_tuple4 (SkBuff (emit f) len) t0 true = Some (ft, 0) ∧
     flow_tuple_ports ft = (ReverseBytes16 (f_sport f), ReverseBytes16 (f_dport f))).
Proof.
  assert (fits 16 (f_sport f) ∧ fits 16 (f_dport f)) as [Hs Hd] by (unfold wf_frame in Hf; tauto).
  cbv zeta. rewrite (set_tuple_v4 L m skb head l3 f Hw Hf Hskb), Hp. cbn [fst].
  unfold probe_tuple_ports, message_ports, flow_tuple_ports. cbn [sport dport has_ports].
  change (has_ports IPPROTO_TCP) with true. cbn [fst snd].
  split; [done|]. split; [done|]. split.
  - rewrite <- (reverse_bytes_fix (f_sport f)), <- (reverse_bytes_fix (f_dport f)) by done.
    split; [by intros [= -> ->]|by intros [-> ->]].
  - eexists. rewrite (set_flow_tuple4_v4 f len t0 Hf (or_introl (conj Hp Hrest))).
    split; [done|]. cbn [ft_sport ft_dport]. by rewrite !htons_builtin, !reverse_bytes_bswap.
Qed.

(** Which port numbers the agent shows for a socket.  tcpreset and
    socketlatency reverse both ports of a tuple that [set_tuple_sock] filled:
    the remote port is right, the local port has its bytes swapped. *)
Theorem shown_socket_ports (L : KernelLayout) (m : mem) (sk p q : Z)
    (Hnum : mem_read m (ptr_add sk sk_skc_num) 2 = Some (le_bytes 2 p))
    (Hdport : mem_read m (ptr_add sk sk_skc_dport) 2 = Some (be_bytes 2 q))
    (Hp : fits 16 p) (Hq : fits 16 q) :
  message_ports (set_tuple_sock m sk zero_tuple) = (ReverseBytes16 p, q).
Proof.
  destruct (set_tuple_sock_port_values L m sk p q Hnum Hdport Hp) as [Es Ed].
  unfold message_ports. rewrite Es, Ed, htons_builtin.
  by rewrite (reverse_bytes_bswap (__builtin_bswap 2 q)), bswap_involutive by (done || apply (bswap_fits 2)).
Qed.

(** ** Witnesses *)

(** A TCP segment from port 80 to port 443. *)
Definition sample_tcp : ipv4_frame := {|
  f_macs := replicate 12 2; f_ihl := 5; f_tos_to_ttl := replicate 8 0; f_proto := 6;
  f_check := [0; 0]; f_src := [10; 0; 0; 1]; f_dst := [10; 0; 0; 2];
  f_options := []; f_sport := 80; f_dport := 443; f_rest := replicate 16 0 |}.

Lemma shown_packet_ports_witness :
  message_ports (@set_tuple amd64_layout (demo_mem amd64_layout 34 (emit4 sample_tcp)) 4096 zero_tuple).1 =
  (20480, 47873).
Proof.
  refine (proj1 (proj2 (shown_packet_ports amd64_layout (demo_mem amd64_layout 34 (emit4 sample_tcp)) 4096
    65536 14 54 sample_tcp zero_flow_tuple amd64_wire_layout _ _ _ _))).
  - unfold wf_frame, is_byte, fits. simpl. lia.
  - vm_compute. by split_and!.
  - done.
  - simpl. lia.
Defined.

Lemma shown_socket_ports_witness :
  message_ports (@set_tuple_sock amd64_layout (demo_sock amd64_layout) 8192 zero_tuple) = (20480, 443).
Proof.
  refine (shown_socket_ports amd64_layout (demo_sock amd64_layout) 8192 80 443 _ _ _ _);
    try (vm_compute; done).
Defined.
End Ports.

Module Labels.
Import IpCacheAgent.

(** probe.Tuple *)
Record Tuple := TupleOf { Protocol : Z; Sport : Z; Dport : Z; Src : string; Dst : string }.

Definition GetProtoStr (proto : Z) : string :=
  if proto =? 6 then "TCP" else if proto =? 17 then "UDP" else if proto =? 1 then "ICMP"
  else if proto =? 58 then "ICMP6" else "IP".

Definition TupleMetricsLabels : list string :=
  ["protocol"; "src"; "src_type"; "src_node"; "src_namespace"; "src_pod"; "dst"; "dst_type"; "dst_node";
   "dst_namespace"; "dst_pod"; "sport"; "dport"]%string.

(** The closure [ipInfo] of [BuildTupleMetricsLabels]. *)
Definition metrics_ipInfo (c : IPCache) (ip : string) : list string :=
  match GetIPInfo c ip with
  | None => ["unknown"; ""; ""; ""]%string
  | Some info =>
      if String.eqb (Type_ info) IPTypeNode then ["node"; info_NodeName info; ""; ""]%string
      else if String.eqb (Type_ info) IPTypePod then ["pod"; ""; info_PodNamespace info; info_PodName info]%string
      else ["unknown"; ""; ""; ""]%string
  end.

Definition BuildTupleMetricsLabels (c : IPCache) (t : Tuple) : list string :=
  [GetProtoStr (Protocol t)] ++ [Src t] ++ metrics_ipInfo c (Src t) ++
  [Dst t] ++ metrics_ipInfo c (Dst t) ++ [pretty (Sport t)] ++ [pretty (Dport t)].

(** The closure [ipInfo] of [BuildTupleEventLabels]: the deferred function
    builds the result from the variable [values] when the closure returns, and
    the last assignment before the return is unconditional. *)
Definition event_ipInfo (c : IPCache) (prefix ip : string) : list (string * string) :=
  let deferred (values : list string) :=
    zip ((λ s, (prefix ++ s)%string) <$> ["_type"; "_node"; "_namespace"; "_pod"]%string) values in
  match GetIPInfo c ip with
  | None => deferred ["unknown"; ""; ""; ""]%string
  | Some info =>
      let values :=
        if String.eqb (Type_ info) IPTypeNode then ["node"; info_NodeName info; ""; ""]%string
        else if String.eqb (Type_ info) IPTypePod then ["pod"; ""; info_PodNamespace info; info_PodName info]%string
        else [""; ""; ""; ""]%string in
      let values := ["unknown"; ""; ""; ""]%string in
      deferred values
  end.

Definition BuildTupleEventLabels (c : IPCache) (t : Tuple) : list (string * string) :=
  [("protocol", GetProtoStr (Protocol t))%string] ++ [("src", Src t)%string] ++ event_ipInfo c "src" (Src t) ++
  [("dst", Dst t)%string] ++ event_ipInfo c "dst" (Dst t) ++
  [("sport", pretty (Sport t))%string] ++ [("dport", pretty (Dport t))%string].

(** A range of a label list. *)
Definition slice_labels (i n : nat) (l : list string) : list string := take n (drop i l).

(** Labels of metrics and events.  Both builders give one value for
    each of the thirteen declared labels, in order.  The metrics labels carry
    what the cache knows about the two addresses; the event labels never do:
    an unconditional assignment overwrites it, so every event says "unknown"
    for both ends, whatever the cache holds, while protocol, addresses and
    ports agree with the metrics. *)
Theorem tuple_labels (c : IPCache) (t : Tuple) :
  length (BuildTupleMetricsLabels c t) = length TupleMetricsLabels ∧
  (BuildTupleEventLabels c t).*1 = TupleMetricsLabels ∧
  BuildTupleEventLabels c t = BuildTupleEventLabels init_cache t ∧
  (BuildTupleEventLabels c t).*2 = BuildTupleMetricsLabels init_cache t ∧
  (∀ info, GetIPInfo c (Src t) = Some info -> Type_ info = IPTypePod ->
     slice_labels 2 4 (BuildTupleMetricsLabels c t) = ["pod"; ""; info_PodNamespace info; info_PodName info]%string).
Proof.
  assert (∀ ip, length (metrics_ipInfo c ip) = 4%nat) as Hl.
  { intros ip. unfold metrics_ipInfo. destruct (GetIPInfo c ip); [|done]. repeat case_match; done. }
  assert (∀ p ip, event_ipInfo c p ip = event_ipInfo init_cache p ip) as He.
  { intros p ip. unfold event_ipInfo. by destruct (GetIPInfo c ip). }
  split_and!.
  - unfold BuildTupleMetricsLabels. by rewrite !length_app, !Hl.
  - unfold BuildTupleEventLabels. by rewrite !He.
  - unfold BuildTupleEventLabels. by rewrite !He.
  - unfold BuildTupleEventLabels, BuildTupleMetricsLabels. by rewrite !He.
  - intros info Hc Ht. unfold BuildTupleMetricsLabels, metrics_ipInfo. rewrite Hc, Ht. done.
Qed.
End Labels.
