(* ===== verification/ProbeServer.v ===== *)
(** src/pkg/exporter/cmd/server.go ([DynamicProbeServer]), metricserver.go and
    eventserver.go (the two probe managers) and src/pkg/exporter/probe/proto.go
    ([simpleProbe]): which probes run after a configuration reload.

    Probe objects live in a heap, because the server, the manager and the
    Prometheus registry share pointers to them.  The outcome of creating,
    starting and stopping a concrete probe is an input of each operation
    ([outcomes]); the order in which Go ranges over a map is the parameter
    [range].  The manager is an interface with two implementations; the
    theorems about the server are proved against its laws. *)

From S2P Require Import Prelude.

Module ProbeServer.

(** ** proto.go *)

Inductive State :=
  | ProbeStateStopped | ProbeStateStarting | ProbeStateRunning | ProbeStateStopping | ProbeStateFailed.

#[global] Instance State_eq_dec : EqDecision State.
Proof. solve_decision. Defined.

Section server.
Context {Args : Type}.

Record ProbeConfig := MkConfig { cfg_Name : string; cfg_Args : Args }.

(** A [simpleProbe]; [p_cfg] is the configuration that it was created with. *)
Record simpleProbe := MkProbe { p_name : string; p_state : State; p_cfg : ProbeConfig }.

Definition with_state (st : State) (p : simpleProbe) : simpleProbe := MkProbe (p_name p) st (p_cfg p).

(** Whether the inner calls succeed in one operation of the server. *)
Record outcomes := MkOutcomes {
  create_ok : ProbeConfig -> bool;
  start_ok : nat -> bool;
  stop_ok : nat -> bool;
}.

(** [simpleProbe.Start] and [Stop]: the error and the new state. *)
Definition Start (o : outcomes) (ptr : nat) (h : gmap nat simpleProbe) : bool * gmap nat simpleProbe :=
  match h !! ptr with
  | None => (true, h)
  | Some p =>
      if bool_decide (p_state p = ProbeStateStopped) then
        if start_ok o ptr then (false, <[ptr := with_state ProbeStateRunning p]> h)
        else (true, <[ptr := with_state ProbeStateFailed p]> h)
      else (true, h)
  end.

Definition Stop (o : outcomes) (ptr : nat) (h : gmap nat simpleProbe) : bool * gmap nat simpleProbe :=
  match h !! ptr with
  | None => (true, h)
  | Some p =>
      if bool_decide (p_state p = ProbeStateRunning) then
        if stop_ok o ptr then (false, <[ptr := with_state ProbeStateStopped p]> h)
        else (true, <[ptr := with_state ProbeStateFailed p]> h)
      else (true, h)
  end.

(** ** The managers *)

(** The heap and the names whose collectors are registered with Prometheus. *)
Record world := MkWorld { objs : gmap nat simpleProbe; registry : gset string }.

(** [None]: panic. *)
Class ProbeManager := {
  StartProbe : outcomes -> nat -> world -> option (bool * world);
  StopProbe : outcomes -> nat -> world -> option (bool * world);
}.

Definition is_idle (st : State) : bool :=
  bool_decide (st = ProbeStateStopped) || bool_decide (st = ProbeStateStopping) || bool_decide (st = ProbeStateFailed).

(** [MustRegister] panics if the collector's metrics are registered already;
    a probe's metrics are determined by its name. *)
Definition MetricsProbeManager : ProbeManager := {|
  StartProbe o ptr w :=
    let '(err, h) := Start o ptr (objs w) in
    if err then Some (true, MkWorld h (registry w))
    else match h !! ptr with
         | Some p => if bool_decide (p_name p ∈ registry w) then None
                     else Some (false, MkWorld h ({[p_name p]} ∪ registry w))
         | None => None
         end;
  StopProbe o ptr w :=
    match objs w !! ptr with
    | None => None
    | Some p =>
        if is_idle (p_state p) then Some (false, w)
        else
          let '(err, h) := Stop o ptr (objs w) in
          if err then Some (true, MkWorld h (registry w))
          else Some (false, MkWorld h (registry w ∖ {[p_name p]}))
    end;
|}.

Definition EventProbeManager : ProbeManager := {|
  StartProbe o ptr w := let '(err, h) := Start o ptr (objs w) in Some (err, MkWorld h (registry w));
  StopProbe o ptr w :=
    match objs w !! ptr with
    | None => None
    | Some p =>
        if is_idle (p_state p) then Some (false, w)
        else let '(err, h) := Stop o ptr (objs w) in Some (err, MkWorld h (registry w))
    end;
|}.

(** ** The server *)

Record server := MkServer {
  lastConfig : list ProbeConfig;
  probes : gmap string nat;
  wld : world;
  next_ptr : nat;
}.

Definition NewDynamicProbeServer : server := MkServer [] ∅ (MkWorld ∅ ∅) 0.

(** [reflect.DeepEqual] on configurations, and the iteration order of Go maps. *)
Context (DeepEqual : ProbeConfig -> ProbeConfig -> bool).
Context (range : gmap string ProbeConfig -> list (string * ProbeConfig)).
Context (range_probes : gmap string nat -> list (string * nat)).
Context `{!ProbeManager}.

Definition toMap (configs : list ProbeConfig) : gmap string ProbeConfig :=
  foldl (λ ret c, <[cfg_Name c := c]> ret) ∅ configs.

Definition probeChanges (last config : list ProbeConfig) : list ProbeConfig * list string :=
  let lastConfigMap := toMap last in
  let configMap := toMap config in
  let toClose1 := omap (λ '(name, _), match configMap !! name with None => Some name | Some _ => None end)
                    (range lastConfigMap) in
  foldl (λ '(toAdd, toClose) '(name, probeConf),
    match lastConfigMap !! name with
    | None => (toAdd ++ [probeConf], toClose)
    | Some lastConf =>
        if negb (DeepEqual lastConf probeConf) then (toAdd ++ [probeConf], toClose ++ [name])
        else (toAdd, toClose)
    end) ([], toClose1) (range configMap).

(** Create the probes of [toAdd]; [None]: a creator returned an error. *)
Fixpoint create_all (o : outcomes) (toAdd : list ProbeConfig) (ptr : nat) (h : gmap nat simpleProbe)
    : option (list nat) * nat * gmap nat simpleProbe :=
  match toAdd with
  | [] => (Some [], ptr, h)
  | c :: toAdd' =>
      if create_ok o c then
        let '(ptrs, ptr', h') := create_all o toAdd' (S ptr) (<[ptr := MkProbe (cfg_Name c) ProbeStateStopped c]> h) in
        (cons ptr <$> ptrs, ptr', h')
      else (None, ptr, h)
  end.

Fixpoint close_all (o : outcomes) (toClose : list string) (ps : gmap string nat) (w : world) : option (bool * world) :=
  match toClose with
  | [] => Some (false, w)
  | name :: toClose' =>
      match ps !! name with
      | None => close_all o toClose' ps w
      | Some ptr =>
          '(err, w') ← StopProbe o ptr w;
          if err : bool then Some (true, w') else close_all o toClose' ps w'
      end
  end.

Fixpoint start_all (o : outcomes) (ptrs : list nat) (ps : gmap string nat) (w : world)
    : option (gmap string nat * world) :=
  match ptrs with
  | [] => Some (ps, w)
  | ptr :: ptrs' =>
      p ← objs w !! ptr;
      '(_, w') ← StartProbe o ptr w;
      start_all o ptrs' (<[p_name p := ptr]> ps) w'
  end.

(** The error and the new state; [None]: panic. *)
Definition Reload (o : outcomes) (config : list ProbeConfig) (s : server) : option (bool * server) :=
  let '(toAdd, toClose) := probeChanges (lastConfig s) config in
  let '(created, next, h) := create_all o toAdd (next_ptr s) (objs (wld s)) in
  let w := MkWorld h (registry (wld s)) in
  match created with
  | None => Some (true, MkServer (lastConfig s) (probes s) w next)
  | Some toAddProbes =>
      '(err, w) ← close_all o toClose (probes s) w;
      if err : bool then Some (true, MkServer (lastConfig s) (probes s) w next)
      else
        '(ps, w) ← start_all o toAddProbes (probes s) w;
        Some (false, MkServer config ps w next)
  end.

(** [Stop]: the loop over the probes ends at the first error. *)
Fixpoint stop_all (o : outcomes) (ptrs : list nat) (w : world) : option (bool * world) :=
  match ptrs with
  | [] => Some (false, w)
  | ptr :: ptrs' =>
      '(err, w') ← StopProbe o ptr w;
      if err : bool then Some (true, w') else stop_all o ptrs' w'
  end.

Definition Stop_server (o : outcomes) (s : server) : option (bool * server) :=
  '(err, w) ← stop_all o (range_probes (probes s)).*2 (wld s);
  Some (err, MkServer (lastConfig s) (probes s) w (next_ptr s)).

(** [DynamicProbeServer.Start] is a reload. *)
Definition Start_server (o : outcomes) (config : list ProbeConfig) (s : server) : option (bool * server) :=
  Reload o config s.

Inductive server_op :=
  | OpReload (o : outcomes) (config : list ProbeConfig)
  | OpStop (o : outcomes).

Definition do_op (op : server_op) (s : server) : option (bool * server) :=
  match op with
  | OpReload o config => Reload o config s
  | OpStop o => Stop_server o s
  end.

(** A sequence of operations whose errors are logged; [None]: panic. *)
Fixpoint run_ops (ops : list server_op) (s : server) : option server :=
  match ops with
  | [] => Some s
  | op :: ops' => '(_, s') ← do_op op s; run_ops ops' s'
  end.

(** Start with the first configuration and reload the others; [None]: panic
    or error. *)
Fixpoint reloads (o : outcomes) (configs : list (list ProbeConfig)) (s : server) : option server :=
  match configs with
  | [] => Some s
  | config :: configs' =>
      '(err, s') ← Reload o config s;
      if err : bool then None else reloads o configs' s'
  end.
End server.

Arguments ProbeConfig : clear implicits.
Arguments simpleProbe : clear implicits.
Arguments outcomes : clear implicits.
Arguments world : clear implicits.
Arguments server : clear implicits.
Arguments ProbeManager : clear implicits.

(** ** What the server relies on *)

Section laws.
Context {Args : Type}.
Implicit Types (w : world Args) (p : simpleProbe Args) (o : outcomes Args).

Definition running w (ptr : nat) p : Prop := objs w !! ptr = Some p ∧ p_state p = ProbeStateRunning.

(** Between operations no probe is starting or stopping. *)
Definition settled p : Prop :=
  p_state p = ProbeStateStopped ∨ p_state p = ProbeStateRunning ∨ p_state p = ProbeStateFailed.

(** What [StartProbe] and [StopProbe] do to the probe, and when they do not
    panic: [registered] relates the registry to the running probes. *)
Class ManagerLaws `{!ProbeManager Args} := {
  registered : world Args -> Prop;
  law_registered_empty : registered (MkWorld ∅ ∅);
  law_registered w w' :
    registry w' = registry w -> (∀ q p, running w' q p <-> running w q p) -> registered w -> registered w';
  law_start o ptr w p err w' :
    objs w !! ptr = Some p -> p_state p = ProbeStateStopped -> StartProbe o ptr w = Some (err, w') ->
    objs w' = <[ptr := with_state (if start_ok o ptr then ProbeStateRunning else ProbeStateFailed) p]> (objs w);
  law_start_total o ptr w p :
    objs w !! ptr = Some p -> p_state p = ProbeStateStopped -> registered w ->
    (∀ q p', running w q p' -> p_name p' ≠ p_name p) ->
    ∃ err w', StartProbe o ptr w = Some (err, w') ∧ registered w';
  law_stop o ptr w p :
    objs w !! ptr = Some p -> settled p ->
    ∃ w', StopProbe o ptr w =
            Some (bool_decide (p_state p = ProbeStateRunning) && negb (stop_ok o ptr), w') ∧
      objs w' = (if bool_decide (p_state p = ProbeStateRunning)
                 then <[ptr := with_state (if stop_ok o ptr then ProbeStateStopped else ProbeStateFailed) p]> (objs w)
                 else objs w) ∧
      (stop_ok o ptr = true -> (∀ q p', running w q p' -> p_name p' = p_name p -> q = ptr) ->
       registered w -> registered w');
}.

(** The metrics of exactly the running probes are registered. *)
Definition metrics_registered w : Prop := ∀ n, n ∈ registry w <-> ∃ q p, running w q p ∧ p_name p = n.
End laws.

Arguments ManagerLaws Args {_}.

#[global] Instance EventProbeManager_laws (Args : Type) : @ManagerLaws Args EventProbeManager.
Proof.
  refine {| registered := λ _, True |}.
  - done.
  - done.
  - intros o ptr w p err w' Hp Hs. simpl. unfold Start. rewrite Hp, bool_decide_true by done.
    by destruct (start_ok o ptr); intros [= <- <-].
  - intros o ptr w p Hp Hs _ _. simpl. destruct (Start o ptr (objs w)) as [err h]. by eexists _, _.
  - intros o ptr w p Hp Hs. simpl. rewrite Hp. unfold Stop. rewrite Hp. destruct Hs as [E|[E|E]]; rewrite E; simpl;
      [by eexists| |by eexists]. destruct (stop_ok o ptr); by eexists.
Defined.

Lemma running_insert {Args : Type} (h : gmap nat (simpleProbe Args)) (r r' : gset string) (ptr q : nat) (p0 p : simpleProbe Args) (st : State) :
  h !! ptr = Some p0 -> running (MkWorld (<[ptr := with_state st p0]> h) r) q p <->
  q = ptr ∧ p = with_state st p0 ∧ st = ProbeStateRunning ∨ q ≠ ptr ∧ running (MkWorld h r') q p.
Proof.
  intros Hp. unfold running. cbn [objs]. destruct (decide (q = ptr)) as [->|Hne].
  - rewrite lookup_insert_eq. naive_solver.
  - rewrite lookup_insert_ne by done. naive_solver.
Qed.

#[global] Instance MetricsProbeManager_laws (Args : Type) : @ManagerLaws Args MetricsProbeManager.
Proof.
  refine {| registered := metrics_registered |}.
  - intros n. cbn [registry]. split; [by intros ?%not_elem_of_empty|]. intros (q & p & [Hq _] & _). cbn [objs] in Hq.
    by rewrite lookup_empty in Hq.
  - intros w w' Er Hrun Hreg n. rewrite Er, (Hreg n). split; intros (q & p & Hr & Hn); exists q, p; by rewrite (Hrun q p) in *.
  - intros o ptr w p err w' Hp Hs. simpl. unfold Start. rewrite Hp, bool_decide_true by done.
    destruct (start_ok o ptr); [|by intros [= <- <-]]. rewrite lookup_insert_eq. cbn [p_name with_state].
    case_bool_decide; [done|]. by intros [= <- <-].
  - intros o ptr [h r] p Hp Hs Hreg Hno. simpl in *. unfold Start. rewrite Hp, bool_decide_true by done.
    destruct (start_ok o ptr).
    + rewrite lookup_insert_eq. cbn [p_name with_state]. rewrite bool_decide_false.
      * eexists _, _. split; [done|]. intros n. cbn [registry]. rewrite elem_of_union, elem_of_singleton, (Hreg n). split.
        -- intros [->|(q & p' & Hr & <-)].
           ++ exists ptr, (with_state ProbeStateRunning p). split; [|done]. rewrite (running_insert h _ r) by done. by left.
           ++ exists q, p'. split; [|done]. rewrite (running_insert h _ r) by done. right. split; [|done].
              intros ->. destruct Hr as [E Er]. cbn [objs] in E. congruence.
        -- intros (q & p' & Hr & <-). rewrite (running_insert h _ r) in Hr by done. destruct Hr as [(-> & -> & _)|[_ Hr]];
             [by left|right]. by exists q, p'.
      * intros (q & p' & Hr & E)%Hreg. by apply (Hno q p').
    + eexists _, _. split; [done|]. intros n. cbn [registry]. rewrite (Hreg n). split.
      * intros (q & p' & Hr & <-). exists q, p'. split; [|done]. rewrite (running_insert h _ r) by done. right.
        split; [|done]. intros ->. destruct Hr as [E Er]. cbn [objs] in E. congruence.
      * intros (q & p' & Hr & <-). rewrite (running_insert h _ r) in Hr by done. destruct Hr as [(_ & _ & ?)|[_ Hr]]; [done|].
        by exists q, p'.
  - intros o ptr [h r] p Hp Hs. simpl in *. rewrite Hp. unfold Stop. rewrite Hp. destruct Hs as [E|[E|E]]; rewrite E; simpl;
      [by eexists| |by eexists]. destruct (stop_ok o ptr) eqn:Eo; [|by eexists].
    eexists. split; [done|]. split; [done|]. intros _ Hu Hreg n. cbn [registry].
    rewrite elem_of_difference, elem_of_singleton, (Hreg n). split.
    + intros [(q & p' & Hr & <-) Hne]. exists q, p'. split; [|done]. rewrite (running_insert h _ r) by done. right.
      split; [|done]. intros ->. destruct Hr as [E' _]. cbn [objs] in E'. congruence.
    + intros (q & p' & Hr & <-). rewrite (running_insert h _ r) in Hr by done. destruct Hr as [(_ & _ & ?)|[Hne Hr]]; [done|].
      split; [by exists q, p'|]. intros Hn. apply Hne. by apply (Hu q p').
Defined.

(** ** Lemmas *)

Section lemmas.
Context {Args : Type} (DeepEqual : ProbeConfig Args -> ProbeConfig Args -> bool).
Context (range : gmap string (ProbeConfig Args) -> list (string * ProbeConfig Args)).
Context (DeepEqual_eq : ∀ a b, DeepEqual a b = true -> a = b) (range_perm : ∀ m, range m ≡ₚ map_to_list m).
Context `{!ProbeManager Args, !ManagerLaws Args}.
Implicit Types (s : server Args) (w : world Args) (p : simpleProbe Args) (o : outcomes Args) (c : ProbeConfig Args).

Lemma toMap_name (cs : list (ProbeConfig Args)) (n : string) c : toMap cs !! n = Some c -> cfg_Name c = n.
Proof.
  unfold toMap. induction cs as [|x cs IH] using rev_ind; [cbn [foldl]; by rewrite lookup_empty|]. rewrite foldl_app. simpl.
  destruct (decide (cfg_Name x = n)) as [<-|Hne]; [rewrite lookup_insert_eq; by intros [= <-]|].
  by rewrite lookup_insert_ne.
Qed.

Lemma range_elem (m : gmap string (ProbeConfig Args)) (n : string) c : (n, c) ∈ range m <-> m !! n = Some c.
Proof. by rewrite (range_perm m), elem_of_map_to_list. Qed.

(** A configuration that is new or has changed. *)
Definition changed (last : list (ProbeConfig Args)) c : Prop :=
  match toMap last !! cfg_Name c with None => True | Some lc => DeepEqual lc c = false end.

#[local] Instance changed_dec last c : Decision (changed last c).
Proof. unfold changed. destruct (toMap last !! cfg_Name c); apply _. Defined.

Lemma probeChanges_eq (last config : list (ProbeConfig Args)) :
  probeChanges DeepEqual range last config =
  (filter (changed last) (range (toMap config)).*2,
   omap (λ '(n, _), match toMap config !! n with None => Some n | Some _ => None end) (range (toMap last)) ++
   omap (λ '(n, c), match toMap last !! n with
                    | Some lc => if DeepEqual lc c then None else Some n | None => None end) (range (toMap config))).
Proof.
  unfold probeChanges. set (cl := omap _ (range (toMap last))).
  assert (∀ l add close, Forall (λ x, cfg_Name x.2 = x.1) l ->
    foldl (λ '(toAdd, toClose) '(name, probeConf),
      match toMap last !! name with
      | None => (toAdd ++ [probeConf], toClose)
      | Some lastConf => if negb (DeepEqual lastConf probeConf) then (toAdd ++ [probeConf], toClose ++ [name])
                         else (toAdd, toClose)
      end) (add, close) l =
    (add ++ filter (changed last) l.*2,
     close ++ omap (λ '(n, c), match toMap last !! n with
                    | Some lc => if DeepEqual lc c then None else Some n | None => None end) l)) as H.
  { induction l as [|[n c] l IH]; intros add close Hl; [by rewrite !app_nil_r|].
    apply Forall_cons in Hl as [Hn Hl]. simpl in Hn. cbn [foldl fmap list_fmap snd omap list_omap].
    rewrite filter_cons.
    destruct (toMap last !! n) as [lc|] eqn:El.
    - destruct (DeepEqual lc c) eqn:Ed; simpl.
      + rewrite IH by done. rewrite decide_False; [done|]. unfold changed. rewrite Hn, El. congruence.
      + rewrite IH by done. rewrite decide_True; [by rewrite <- !app_assoc|]. unfold changed. by rewrite Hn, El.
    - rewrite IH by done. rewrite decide_True; [by rewrite <- app_assoc|]. unfold changed. by rewrite Hn, El. }
  rewrite H; [done|]. apply Forall_forall. intros [n c] Hin. apply range_elem in Hin. by eapply toMap_name.
Qed.

Lemma toAdd_elem (last config : list (ProbeConfig Args)) c :
  c ∈ (probeChanges DeepEqual range last config).1 <-> changed last c ∧ toMap config !! cfg_Name c = Some c.
Proof.
  rewrite probeChanges_eq. cbn [fst]. rewrite list_elem_of_filter, list_elem_of_fmap. split.
  - intros [Hch ([n c'] & -> & Hin%range_elem)]. split; [done|]. simpl. by rewrite (toMap_name _ _ _ Hin).
  - intros [Hch E]. split; [done|]. exists (cfg_Name c, c). by rewrite range_elem.
Qed.

Lemma toAdd_names (last config : list (ProbeConfig Args)) :
  NoDup (cfg_Name <$> (probeChanges DeepEqual range last config).1).
Proof.
  rewrite probeChanges_eq. cbn [fst]. eapply sublist_NoDup; [|apply fmap_sublist, sublist_filter].
  rewrite <- list_fmap_compose.
  assert ((cfg_Name ∘ snd) <$> range (toMap config) = fst <$> range (toMap config)) as ->.
  { apply list_fmap_ext. intros i [n c] Hin. apply list_elem_of_lookup_2, range_elem, toMap_name in Hin. done. }
  rewrite (range_perm (toMap config)). apply NoDup_fst_map_to_list.
Qed.

Lemma toClose_elem (last config : list (ProbeConfig Args)) (n : string) :
  n ∈ (probeChanges DeepEqual range last config).2 <->
  ∃ lc, toMap last !! n = Some lc ∧
    match toMap config !! n with None => True | Some c => DeepEqual lc c = false end.
Proof.
  rewrite probeChanges_eq. cbn [snd]. rewrite elem_of_app, !list_elem_of_omap. split.
  - intros [([m lc] & Hin%range_elem & E)|([m c] & Hin%range_elem & E)]; simpl in E.
    + destruct (toMap config !! m) eqn:Em; simplify_eq. exists lc. by rewrite Em.
    + destruct (toMap last !! m) as [lc|] eqn:Em; [|done]. destruct (DeepEqual lc c) eqn:Ed; simplify_eq.
      exists lc. by rewrite Hin.
  - intros (lc & El & Hc). destruct (toMap config !! n) as [c|] eqn:Ec.
    + right. exists (n, c). rewrite range_elem. split; [done|]. by rewrite El, Hc.
    + left. exists (n, lc). rewrite range_elem. split; [done|]. by rewrite Ec.
Qed.

(** *** The three loops of [Reload] *)

Definition fresh_probe c : simpleProbe Args := MkProbe (cfg_Name c) ProbeStateStopped c.

Lemma create_all_spec o (cs : list (ProbeConfig Args)) (ptr ptr' : nat) (h h' : gmap nat (simpleProbe Args)) r :
  create_all o cs ptr h = (r, ptr', h') -> (∀ q p, h !! q = Some p -> q < ptr)%nat ->
  (ptr <= ptr')%nat ∧ (∀ q, (q < ptr)%nat -> h' !! q = h !! q) ∧
  (∀ q p, h' !! q = Some p -> (q < ptr')%nat ∧ (h !! q = Some p ∨ (ptr <= q)%nat ∧ ∃ c, p = fresh_probe c)) ∧
  (∀ ptrs, r = Some ptrs -> NoDup ptrs ∧ Forall2 (λ q c, (ptr <= q)%nat ∧ h' !! q = Some (fresh_probe c)) ptrs cs) ∧
  (Forall (λ c, create_ok o c = true) cs -> is_Some r).
Proof.
  revert ptr h r. induction cs as [|c cs IH]; intros ptr h r E Hb; cbn [create_all] in E.
  { simplify_eq. split_and!; [done|done|naive_solver| |done]. intros ptrs [= <-]. split; [apply NoDup_nil_2|constructor]. }
  destruct (create_ok o c) eqn:Eo.
  - destruct (create_all o cs (S ptr) _) as [[r1 ptr1] h1] eqn:E1. simplify_eq.
    destruct (IH _ _ _ E1) as (H1 & H2 & H3 & H4 & H5).
    { intros q p. destruct (decide (q = ptr)) as [->|]; [lia|]. rewrite lookup_insert_ne by done. intros Hq%Hb. lia. }
    assert (h' !! ptr = Some (fresh_probe c)) as Hptr by (rewrite H2 by lia; by rewrite lookup_insert_eq).
    split_and!; [lia| | | |].
    + intros q Hq. rewrite H2 by lia. by rewrite lookup_insert_ne by lia.
    + intros q p Hq. destruct (H3 q p Hq) as [Hlt [Hin|[Hle Hf]]].
      * split; [done|]. destruct (decide (q = ptr)) as [->|Hne].
        -- right. split; [done|]. exists c. congruence.
        -- left. by rewrite lookup_insert_ne in Hin.
      * split; [done|]. right. split; [lia|done].
    + intros ptrs (ptrs1 & -> & ->)%fmap_Some. destruct (H4 _ eq_refl) as [Hnd Hf]. split.
      * apply NoDup_cons. split; [|done]. intros Hin.
        apply list_elem_of_lookup in Hin as [k Hk]. destruct (Forall2_lookup_l _ _ _ _ _ Hf Hk) as (c' & _ & Hle & _). lia.
      * constructor; [done|]. eapply Forall2_impl; [exact Hf|]. intros q c' [? ?]. split; [lia|done].
    + intros [_ Hok]%Forall_cons. apply fmap_is_Some. auto.
  - simplify_eq. split_and!; [done|done|naive_solver|done|]. intros [? _]%Forall_cons. congruence.
Qed.

Lemma with_state_name (st : State) p : p_name (with_state st p) = p_name p ∧ p_cfg (with_state st p) = p_cfg p.
Proof. done. Qed.

(** [w'] is [w] after the end of some running probes with names in [names]. *)
Definition ends (names : list string) w w' : Prop :=
  ∀ q, objs w' !! q = objs w !! q ∨
    ∃ p st, p_name p ∈ names ∧ objs w !! q = Some p ∧ p_state p = ProbeStateRunning ∧
      objs w' !! q = Some (with_state st p) ∧ (st = ProbeStateStopped ∨ st = ProbeStateFailed).

Lemma ends_running (names : list string) w w' (q : nat) p : ends names w w' -> running w' q p -> running w q p.
Proof.
  intros He [Hq Hr]. destruct (He q) as [E|(p' & st & _ & _ & _ & E & Hs)]; rewrite E in Hq; [done|].
  simplify_eq. simpl in Hr. by destruct Hs; congruence.
Qed.

Lemma ends_mono (names names' : list string) w w' : names ⊆ names' -> ends names w w' -> ends names' w w'.
Proof. intros Hsub He q. destruct (He q) as [?|(p & st & Hin & Hrest)]; [by left|right]. exists p, st. auto. Qed.

Lemma ends_trans (names : list string) w1 w2 w3 : ends names w1 w2 -> ends names w2 w3 -> ends names w1 w3.
Proof.
  intros H12 H23 q. destruct (H23 q) as [->|(p & st & Hin & Hq & Hr & Hrest)]; [apply H12|right].
  destruct (ends_running _ _ _ _ _ H12 (conj Hq Hr)) as [Hq1 _]. by exists p, st.
Qed.

(** A probe keeps its name and configuration, and stays settled. *)
Lemma ends_object (names : list string) w w' (q : nat) p :
  ends names w w' -> objs w !! q = Some p -> settled p ->
  ∃ p', objs w' !! q = Some p' ∧ settled p' ∧ p_name p' = p_name p ∧ p_cfg p' = p_cfg p.
Proof.
  intros He Hq Hs. destruct (He q) as [E|(p' & st & _ & Hq' & _ & E & Hst)]; rewrite E; [by exists p|].
  simplify_eq. eexists. split; [done|]. split_and!; [|done|done]. destruct Hst as [->| ->]; [by left|by right; right].
Qed.

Lemma stop_spec o (ptr : nat) w p :
  objs w !! ptr = Some p -> settled p ->
  ∃ err w', StopProbe o ptr w = Some (err, w') ∧ ends [p_name p] w w' ∧ (∀ p', ¬ running w' ptr p') ∧
    (stop_ok o ptr = true -> err = false) ∧
    (stop_ok o ptr = true -> (∀ q p', running w q p' -> p_name p' = p_name p -> q = ptr) -> registered w -> registered w').
Proof.
  intros Hp Hs. destruct (law_stop o ptr w p Hp Hs) as (w' & E & Ho & Hr). eexists _, w'. split; [exact E|].
  split_and!; [| |intros ->; apply andb_false_r|done].
  - intros q. rewrite Ho. case_bool_decide as Er; [|by left].
    destruct (decide (q = ptr)) as [->|Hne]; [right|left; by rewrite lookup_insert_ne].
    rewrite lookup_insert_eq. eexists p, _. split_and!; [apply list_elem_of_here|done|done|done|].
    destruct (stop_ok o ptr); auto.
  - intros p' [Hq Hr']. rewrite Ho in Hq. case_bool_decide as Er; [|congruence].
    rewrite lookup_insert_eq in Hq. simplify_eq. simpl in Hr'. by destruct (stop_ok o ptr).
Qed.

Lemma close_all_spec o (names : list string) (ps : gmap string nat) w :
  (∀ n q, ps !! n = Some q -> ∃ p, objs w !! q = Some p ∧ settled p ∧ p_name p = n) ->
  (∀ q p, running w q p -> ps !! p_name p = Some q) ->
  ∃ err w', close_all o names ps w = Some (err, w') ∧ ends names w w' ∧
    (err = false -> ∀ n q p, n ∈ names -> ps !! n = Some q -> ¬ running w' q p) ∧
    ((∀ q, stop_ok o q = true) -> err = false ∧ (registered w -> registered w')).
Proof.
  revert w. induction names as [|n names IH]; intros w Hps Hrun; cbn [close_all].
  { eexists _, _. split; [done|]. split_and!; [by left|by intros _ n q p ?%elem_of_nil|done]. }
  assert (names ⊆ n :: names) as Hsub by (intros ? ?; by apply list_elem_of_further).
  destruct (ps !! n) as [ptr|] eqn:En.
  - destruct (Hps _ _ En) as (p & Hp & Hset & <-).
    destruct (stop_spec o ptr w p Hp Hset) as (err1 & w1 & E1 & Hend & Hno & Herr & Hreg). rewrite E1. cbn [mbind option_bind].
    apply (ends_mono _ (p_name p :: names)) in Hend; [|intros ? ->%list_elem_of_singleton; apply list_elem_of_here].
    destruct err1.
    + eexists _, _. split; [done|]. split_and!; [done|done|]. intros Hok. by specialize (Herr (Hok ptr)).
    + destruct (IH w1) as (err & w' & E & Hchg & Hdone & Hok).
      { intros m q Hm. destruct (Hps m q Hm) as (p' & Hp' & Hs' & <-).
        destruct (ends_object _ _ _ _ _ Hend Hp' Hs') as (p2 & ? & ? & ? & _). by exists p2. }
      { intros q p' Hr. by eapply Hrun, ends_running. }
      exists err, w'. split; [exact E|]. apply (ends_mono _ _ _ _ Hsub) in Hchg. split_and!.
      * by eapply ends_trans.
      * intros -> m q p' [->|Hm]%elem_of_cons Hmq Hr; [|by apply (Hdone eq_refl m q p')].
        rewrite En in Hmq. injection Hmq as <-. apply (Hno p'). by eapply ends_running.
      * intros Hall. destruct (Hok Hall) as [-> Hr]. split; [done|]. intros Hw. apply Hr, Hreg; [done| |done].
        intros q p' Hq Hn. apply Hrun in Hq. rewrite Hn, En in Hq. by injection Hq.
  - destruct (IH w Hps Hrun) as (err & w' & E & Hchg & Hdone & Hok). exists err, w'. split; [done|]. split_and!; [| |done].
    + by eapply ends_mono.
    + intros He m q p' [->|Hm]%elem_of_cons Hmq; [congruence|by apply (Hdone He m)].
Qed.

Definition started o (q : nat) c : simpleProbe Args :=
  with_state (if start_ok o q then ProbeStateRunning else ProbeStateFailed) (fresh_probe c).

Lemma start_all_spec o (ptrs : list nat) (cs : list (ProbeConfig Args)) (ps ps' : gmap string nat) w w' :
  Forall2 (λ q c, objs w !! q = Some (fresh_probe c)) ptrs cs -> NoDup ptrs -> NoDup (cfg_Name <$> cs) ->
  start_all o ptrs ps w = Some (ps', w') ->
  (∀ n, n ∉ cfg_Name <$> cs -> ps' !! n = ps !! n) ∧
  Forall2 (λ q c, ps' !! cfg_Name c = Some q ∧ objs w' !! q = Some (started o q c)) ptrs cs ∧
  (∀ q, q ∉ ptrs -> objs w' !! q = objs w !! q).
Proof.
  intros Hf. revert ps w Hf. revert cs. induction ptrs as [|ptr ptrs IH]; intros cs ps w Hf Hnd Hnames E.
  { apply Forall2_nil_inv_l in Hf as ->. simpl in E. simplify_eq. split_and!; [done|constructor|done]. }
  apply Forall2_cons_inv_l in Hf as (c & cs' & Hc & Hf & ->). cbn [start_all] in E. rewrite Hc in E. cbn [mbind option_bind] in E.
  destruct (StartProbe o ptr w) as [[err w1]|] eqn:E1; [|done]. cbn [mbind option_bind] in E.
  apply NoDup_cons in Hnd as [Hptr Hnd]. rewrite fmap_cons in Hnames. apply NoDup_cons in Hnames as [Hname Hnames].
  pose proof (law_start o ptr w _ _ _ Hc eq_refl E1) as Ho. fold (started o ptr c) in Ho.
  destruct (IH cs' (<[p_name (fresh_probe c) := ptr]> ps) w1) as (H1 & H2 & H3); [|done|done|exact E|].
  { rewrite Ho. apply Forall2_same_length_lookup. split; [by eapply Forall2_length|]. intros k q c' Hq Hc'.
    rewrite lookup_insert_ne by (intros ->; apply Hptr; by eapply list_elem_of_lookup_2).
    exact (Forall2_lookup_lr _ _ _ _ _ _ Hf Hq Hc'). }
  split_and!.
  - intros n Hn. rewrite fmap_cons, not_elem_of_cons in Hn. rewrite H1 by apply Hn. rewrite lookup_insert_ne; [done|]. naive_solver.
  - constructor; [|done]. rewrite H1, H3 by done. rewrite Ho, !lookup_insert_eq. done.
  - intros q Hq. rewrite not_elem_of_cons in Hq. rewrite H3 by apply Hq. rewrite Ho, lookup_insert_ne; [done|]. naive_solver.
Qed.

Lemma start_all_total o (ptrs : list nat) (cs : list (ProbeConfig Args)) (ps : gmap string nat) w :
  Forall2 (λ q c, objs w !! q = Some (fresh_probe c)) ptrs cs -> NoDup ptrs -> NoDup (cfg_Name <$> cs) ->
  registered w -> (∀ q p, running w q p -> p_name p ∉ cfg_Name <$> cs) ->
  ∃ ps' w', start_all o ptrs ps w = Some (ps', w') ∧ registered w'.
Proof.
  intros Hf. revert ps w Hf. revert cs. induction ptrs as [|ptr ptrs IH]; intros cs ps w Hf Hnd Hnames Hreg Hno.
  { by eexists _, _. }
  apply Forall2_cons_inv_l in Hf as (c & cs' & Hc & Hf & ->). cbn [start_all]. rewrite Hc. cbn [mbind option_bind].
  apply NoDup_cons in Hnd as [Hptr Hnd]. rewrite fmap_cons in Hnames. apply NoDup_cons in Hnames as [Hname Hnames].
  destruct (law_start_total o ptr w _ Hc eq_refl Hreg) as (err & w1 & E1 & Hreg1).
  { intros q p Hr Hn. apply (Hno q p Hr). rewrite fmap_cons, Hn. apply list_elem_of_here. }
  rewrite E1. cbn [mbind option_bind]. pose proof (law_start o ptr w _ _ _ Hc eq_refl E1) as Ho.
  apply (IH cs'); [|done|done|done|].
  - rewrite Ho. apply Forall2_same_length_lookup. split; [by eapply Forall2_length|]. intros k q c' Hq Hc'.
    rewrite lookup_insert_ne by (intros ->; apply Hptr; by eapply list_elem_of_lookup_2).
    exact (Forall2_lookup_lr _ _ _ _ _ _ Hf Hq Hc').
  - intros q p [Hq Hr] Hin. rewrite Ho in Hq. destruct (decide (q = ptr)) as [->|Hne].
    + rewrite lookup_insert_eq in Hq. simplify_eq. done.
    + rewrite lookup_insert_ne in Hq by done. apply (Hno q p (conj Hq Hr)). by apply list_elem_of_further.
Qed.

(** *** The invariant of the server *)

Record wf s : Prop := Wf {
  wf_bound : ∀ q p, objs (wld s) !! q = Some p -> (q < next_ptr s)%nat;
  wf_object : ∀ q p, objs (wld s) !! q = Some p -> settled p;
  wf_probes : ∀ n q, probes s !! n = Some q -> ∃ p, objs (wld s) !! q = Some p ∧ p_name p = n;
  wf_running : ∀ q p, running (wld s) q p ->
    probes s !! p_name p = Some q ∧ toMap (lastConfig s) !! p_name p = Some (p_cfg p);
}.

(** What the server has after creating the probes to add. *)
Record created s (w : world Args) (next : nat) (ptrs : list nat) (cs : list (ProbeConfig Args)) : Prop := Created {
  cr_bound : ∀ q p, objs w !! q = Some p -> (q < next)%nat;
  cr_object : ∀ q p, objs w !! q = Some p -> settled p;
  cr_old : ∀ q p, objs (wld s) !! q = Some p -> objs w !! q = Some p;
  cr_running : ∀ q p, running w q p <-> running (wld s) q p;
  cr_fresh : Forall2 (λ q c, objs w !! q = Some (fresh_probe c)) ptrs cs;
  cr_new : ∀ q, q ∈ ptrs -> objs (wld s) !! q = None;
  cr_nodup : NoDup ptrs;
}.

Lemma create_created o s (cs : list (ProbeConfig Args)) r (next : nat) (h : gmap nat (simpleProbe Args)) :
  wf s -> create_all o cs (next_ptr s) (objs (wld s)) = (r, next, h) ->
  (∀ ptrs, r = Some ptrs -> created s (MkWorld h (registry (wld s))) next ptrs cs) ∧
  created s (MkWorld h (registry (wld s))) next [] [] ∧
  (Forall (λ c, create_ok o c = true) cs -> is_Some r).
Proof.
  intros [Hb Hs _ _] E. destruct (create_all_spec o cs _ _ _ _ _ E Hb) as (H1 & H2 & H3 & H4 & H5).
  assert (∀ q p, objs (wld s) !! q = Some p -> h !! q = Some p) as Hold.
  { intros q p Hq. rewrite H2; [done|]. by eapply Hb. }
  assert (created s (MkWorld h (registry (wld s))) next [] []) as Hc0.
  { split; cbn [objs]; [| |done| |by apply Forall2_nil|by intros q ?%elem_of_nil|apply NoDup_nil_2].
    - intros q p Hq. by apply (H3 q p).
    - intros q p Hq. destruct (H3 q p Hq) as [_ [?|[_ [c ->]]]]; [by eapply Hs|by left].
    - intros q p. split; intros [Hq Hr]; (split; [|done]); [|by apply Hold].
      by destruct (H3 q p Hq) as [_ [?|[_ [c ->]]]]. }
  split_and!; [|done|done]. intros ptrs ->. destruct (H4 _ eq_refl) as [Hnd Hf]. destruct Hc0. split; try done.
  - cbn [objs]. eapply Forall2_impl; [exact Hf|]. by intros q c [_ ?].
  - intros q Hq. apply list_elem_of_lookup in Hq as [k Hk]. destruct (Forall2_lookup_l _ _ _ _ _ Hf Hk) as (c & _ & Hle & _).
    destruct (objs (wld s) !! q) eqn:Eq; [|done]. apply Hb in Eq. lia.
Qed.

Abbreviation toAdd last config := ((probeChanges DeepEqual range last config).1).
Abbreviation toClose last config := ((probeChanges DeepEqual range last config).2).

Lemma unchanged_spec (last config : list (ProbeConfig Args)) (n : string) lc :
  toMap last !! n = Some lc -> n ∉ toClose last config ->
  toMap config !! n = Some lc ∧ n ∉ cfg_Name <$> toAdd last config.
Proof.
  intros El Hn. rewrite toClose_elem in Hn. destruct (toMap config !! n) as [c|] eqn:Ec.
  - destruct (DeepEqual lc c) eqn:Ed; [|by destruct Hn; exists lc]. pose proof (DeepEqual_eq _ _ Ed) as ->.
    split; [done|]. intros (c' & -> & [Hch Hc']%toAdd_elem)%list_elem_of_fmap. unfold changed in Hch. rewrite El in Hch.
    rewrite Ec in Hc'. simplify_eq. congruence.
  - destruct Hn. by exists lc.
Qed.

(** The last loop of [Reload]: after creating [ptrs] for [toAdd] in [w1] and
    closing in [w2]. *)
Section final.
Context o (config : list (ProbeConfig Args)) s (w1 w2 w3 : world Args) (next : nat) (ptrs : list nat) (ps3 : gmap string nat).
Context (Hwf : wf s) (Hcr : created s w1 next ptrs (toAdd (lastConfig s) config)).
Context (Hends : ends (toClose (lastConfig s) config) w1 w2).
Context (Hclosed : ∀ n q p, n ∈ toClose (lastConfig s) config -> probes s !! n = Some q -> ¬ running w2 q p).
Context (Hstart : start_all o ptrs (probes s) w2 = Some (ps3, w3)).

Lemma final_fresh : Forall2 (λ q c, objs w2 !! q = Some (fresh_probe c)) ptrs (toAdd (lastConfig s) config).
Proof.
  eapply Forall2_impl; [exact (cr_fresh _ _ _ _ _ Hcr)|]. intros q c Hq.
  destruct (Hends q) as [->|(p & st & _ & Hq' & Hr & _)]; [done|]. rewrite Hq in Hq'. by simplify_eq.
Qed.

Lemma final_start :
  (∀ n, n ∉ cfg_Name <$> toAdd (lastConfig s) config -> ps3 !! n = probes s !! n) ∧
  Forall2 (λ q c, ps3 !! cfg_Name c = Some q ∧ objs w3 !! q = Some (started o q c)) ptrs (toAdd (lastConfig s) config) ∧
  (∀ q, q ∉ ptrs -> objs w3 !! q = objs w2 !! q).
Proof. eapply start_all_spec; [exact final_fresh|by eapply cr_nodup|apply toAdd_names|exact Hstart]. Qed.

Lemma final_new (q : nat) :
  q ∈ ptrs -> ∃ c, c ∈ toAdd (lastConfig s) config ∧ ps3 !! cfg_Name c = Some q ∧ objs w3 !! q = Some (started o q c).
Proof.
  intros (k & Hk)%list_elem_of_lookup. destruct (Forall2_lookup_l _ _ _ _ _ (proj1 (proj2 final_start)) Hk) as (c & Hc & Hrest).
  exists c. split; [by eapply list_elem_of_lookup_2|done].
Qed.

Lemma final_old (q : nat) : q ∉ ptrs -> objs w3 !! q = objs w2 !! q.
Proof. apply final_start. Qed.

(** The probes that run afterwards: started ones, and unchanged ones. *)
Lemma final_running (q : nat) p :
  running w3 q p ->
  (∃ c, q ∈ ptrs ∧ c ∈ toAdd (lastConfig s) config ∧ ps3 !! cfg_Name c = Some q ∧ p = started o q c) ∨
  running (wld s) q p ∧ p_name p ∉ toClose (lastConfig s) config.
Proof.
  intros [Hq Hr]. destruct (decide (q ∈ ptrs)) as [Hin|Hin].
  - left. destruct (final_new q Hin) as (c & Hc & Hps & E). exists c. split_and!; [done|done|done|congruence].
  - right. rewrite final_old in Hq by done. pose proof (ends_running _ _ _ _ _ Hends (conj Hq Hr)) as Hr1.
    apply (cr_running _ _ _ _ _ Hcr) in Hr1. split; [done|]. intros Hcl.
    apply (Hclosed _ q p Hcl); [by apply (wf_running s Hwf)|done].
Qed.

Lemma final_wf : wf (MkServer config ps3 w3 next).
Proof.
  assert (∀ q p, objs w3 !! q = Some p -> settled p ∧ ∃ p1, objs w1 !! q = Some p1) as Hobj.
  { intros q p Hq. destruct (decide (q ∈ ptrs)) as [Hin|Hin].
    - destruct (final_new q Hin) as (c & _ & _ & E). rewrite E in Hq. simplify_eq. split.
      + unfold started, settled. simpl. destruct (start_ok o q); auto.
      + apply list_elem_of_lookup in Hin as [k Hk].
        destruct (Forall2_lookup_l _ _ _ _ _ (cr_fresh _ _ _ _ _ Hcr) Hk) as (c' & _ & E'). eauto.
    - rewrite final_old in Hq by done. destruct (Hends q) as [E|(p1 & st & _ & E & _ & E' & Hs)].
      + rewrite E in Hq. split; [by eapply (cr_object _ _ _ _ _ Hcr)|eauto].
      + rewrite E' in Hq. simplify_eq. split; [|eauto]. destruct Hs as [->| ->]; [by left|by right; right]. }
  split; cbn [wld next_ptr probes lastConfig].
  - intros q p Hq. destruct (Hobj q p Hq) as [_ [p1 H1]]. by eapply (cr_bound _ _ _ _ _ Hcr).
  - intros q p Hq. by apply (Hobj q p).
  - intros n q Hn. destruct (decide (n ∈ cfg_Name <$> toAdd (lastConfig s) config)) as [Hin|Hin].
    + apply list_elem_of_fmap in Hin as (c & -> & Hc). apply list_elem_of_lookup in Hc as [k Hk].
      destruct (Forall2_lookup_r _ _ _ _ _ (proj1 (proj2 final_start)) Hk) as (q' & _ & Hps & E).
      rewrite Hps in Hn. simplify_eq. by exists (started o q c).
    + rewrite (proj1 final_start) in Hn by done. destruct (wf_probes s Hwf _ _ Hn) as (p & Hp & <-).
      rewrite final_old by (intros Hq; by rewrite (cr_new _ _ _ _ _ Hcr q Hq) in Hp).
      destruct (ends_object _ _ _ _ _ Hends (cr_old _ _ _ _ _ Hcr _ _ Hp) (wf_object s Hwf _ _ Hp)) as (p' & ? & _ & ? & _).
      by exists p'.
  - intros q p [(c & _ & [_ Hc]%toAdd_elem & Hps & ->)|[Hr Hcl]]%final_running; [done|].
    destruct (wf_running s Hwf q p Hr) as [Hps Hlast]. destruct (unchanged_spec _ _ _ _ Hlast Hcl) as [Hcfg Hadd].
    by rewrite (proj1 final_start).
Qed.

(** With all starts successful the whole configuration runs. *)
Lemma final_complete (n : string) c :
  (∀ q, start_ok o q = true) ->
  (∀ n lc, toMap (lastConfig s) !! n = Some lc -> n ∉ toClose (lastConfig s) config ->
     ∃ q p, running (wld s) q p ∧ p_name p = n) ->
  toMap config !! n = Some c -> ∃ q p, running w3 q p ∧ p_name p = n ∧ p_cfg p = c.
Proof.
  intros Hok Hrun Hc. pose proof (toMap_name _ _ _ Hc) as Hname. destruct (decide (changed (lastConfig s) c)) as [Hch|Hch].
  - assert (c ∈ toAdd (lastConfig s) config) as Hin by (apply toAdd_elem; by rewrite Hname).
    apply list_elem_of_lookup in Hin as [k Hk].
    destruct (Forall2_lookup_r _ _ _ _ _ (proj1 (proj2 final_start)) Hk) as (q & _ & _ & E).
    exists q, (started o q c). split_and!; [|done|done]. split; [done|]. unfold started. by rewrite Hok.
  - unfold changed in Hch. rewrite Hname in Hch. destruct (toMap (lastConfig s) !! n) as [lc|] eqn:El; [|done].
    destruct (DeepEqual lc c) eqn:Ed; [|done]. pose proof (DeepEqual_eq _ _ Ed) as ->.
    assert (n ∉ toClose (lastConfig s) config) as Hcl.
    { rewrite toClose_elem. intros (lc & El' & Hd). rewrite Hc in Hd. simplify_eq. congruence. }
    destruct (Hrun n c El Hcl) as (q & p & Hr & <-). destruct (wf_running s Hwf q p Hr) as [_ Hlast].
    exists q, p. split_and!; [|done|congruence]. destruct Hr as [Hq Hr].
    split; [|done]. rewrite final_old by (intros Hin; by rewrite (cr_new _ _ _ _ _ Hcr q Hin) in Hq).
    destruct (Hends q) as [->|(p' & st & Hin & Hq' & _)]; [by apply (cr_old _ _ _ _ _ Hcr)|].
    apply (cr_old _ _ _ _ _ Hcr) in Hq. rewrite Hq in Hq'. by simplify_eq.
Qed.
End final.

(** Ending probes keeps the invariant. *)
Lemma created_ends_wf s w1 w (next : nat) (names : list string) :
  wf s -> created s w1 next [] [] -> ends names w1 w -> wf (MkServer (lastConfig s) (probes s) w next).
Proof.
  intros Hwf Hcr0 He. split; cbn [wld next_ptr probes lastConfig].
  - intros q p Hq. destruct (He q) as [E'|(p' & st & _ & E' & _)]; [rewrite E' in Hq|]; by eapply (cr_bound _ _ _ _ _ Hcr0).
  - intros q p Hq. destruct (He q) as [E'|(p' & st & _ & E' & _ & E2 & Hs)].
    + rewrite E' in Hq. by eapply (cr_object _ _ _ _ _ Hcr0).
    + rewrite E2 in Hq. simplify_eq. destruct Hs as [->| ->]; [by left|by right; right].
  - intros n q Hn. destruct (wf_probes s Hwf _ _ Hn) as (p & Hp & <-).
    destruct (ends_object _ _ _ _ _ He (cr_old _ _ _ _ _ Hcr0 _ _ Hp) (wf_object s Hwf _ _ Hp)) as (p' & ? & _ & ? & _).
    by exists p'.
  - intros q p Hr. apply (wf_running s Hwf). apply (cr_running _ _ _ _ _ Hcr0). by eapply ends_running.
Qed.

Lemma Reload_wf o (config : list (ProbeConfig Args)) s (err : bool) s' :
  wf s -> Reload DeepEqual range o config s = Some (err, s') -> wf s'.
Proof.
  intros Hwf E. unfold Reload in E. destruct (probeChanges DeepEqual range (lastConfig s) config) as [ta tc] eqn:Ep.
  destruct (create_all o ta (next_ptr s) (objs (wld s))) as [[r next] h] eqn:Ec.
  destruct (create_created o s ta r next h Hwf Ec) as (Hcr & Hcr0 & _).
  set (w1 := MkWorld h (registry (wld s))) in *.
  destruct r as [ptrs|]; [|simplify_eq; apply (created_ends_wf s w1 w1 next []); [done|done|by left]].
  destruct (close_all_spec o tc (probes s) w1) as (err1 & w2 & Ecl & He & Hcl & _).
  { intros n q Hn. destruct (wf_probes s Hwf _ _ Hn) as (p & Hp & Hname). exists p. split_and!; [|by eapply wf_object|done].
    by apply (cr_old _ _ _ _ _ Hcr0). }
  { intros q p Hr. by apply (wf_running s Hwf), (cr_running _ _ _ _ _ Hcr0). }
  rewrite Ecl in E. cbn [mbind option_bind] in E. destruct err1; [simplify_eq; by eapply created_ends_wf|].
  destruct (start_all o ptrs (probes s) w2) as [[ps3 w3]|] eqn:Es; [|done]. simplify_eq/=.
  apply (final_wf o config s w1 w2 w3 next ptrs ps3 Hwf); rewrite ?Ep; try done; [by apply Hcr|by apply Hcl].
Qed.

(** The state of a server whose whole configuration runs. *)
Record good s : Prop := Good {
  good_wf : wf s;
  good_registered : registered (wld s);
  good_complete : ∀ n c, toMap (lastConfig s) !! n = Some c ->
    ∃ q p, running (wld s) q p ∧ p_name p = n ∧ p_cfg p = c;
}.

Lemma ends_keeps_running (names : list string) w w' (q : nat) p :
  ends names w w' -> running w q p -> p_name p ∉ names -> running w' q p.
Proof.
  intros He [Hq Hr] Hn. destruct (He q) as [E|(p' & st & Hin & Hq' & _)]; [split; [by rewrite E|done]|].
  rewrite Hq in Hq'. by simplify_eq.
Qed.

Lemma Reload_good o (config : list (ProbeConfig Args)) s :
  (∀ c, create_ok o c = true) -> (∀ q, start_ok o q = true) -> (∀ q, stop_ok o q = true) -> good s ->
  ∃ s', Reload DeepEqual range o config s = Some (false, s') ∧ good s' ∧ lastConfig s' = config.
Proof.
  intros Hco Hsta Hsto [Hwf Hreg Hcom]. unfold Reload.
  destruct (probeChanges DeepEqual range (lastConfig s) config) as [ta tc] eqn:Ep.
  destruct (create_all o ta (next_ptr s) (objs (wld s))) as [[r next] h] eqn:Ec.
  destruct (create_created o s ta r next h Hwf Ec) as (Hcr & Hcr0 & Hsome).
  destruct Hsome as [ptrs ->]; [apply Forall_forall; auto|]. specialize (Hcr ptrs eq_refl).
  set (w1 := MkWorld h (registry (wld s))) in *.
  destruct (close_all_spec o tc (probes s) w1) as (err1 & w2 & Ecl & He & Hcl & Hok).
  { intros n q Hn. destruct (wf_probes s Hwf _ _ Hn) as (p & Hp & Hname). exists p. split_and!; [|by eapply wf_object|done].
    by apply (cr_old _ _ _ _ _ Hcr0). }
  { intros q p Hr. by apply (wf_running s Hwf), (cr_running _ _ _ _ _ Hcr0). }
  destruct (Hok Hsto) as [-> Hreg2]. rewrite Ecl. cbn [mbind option_bind].
  assert (ta = toAdd (lastConfig s) config ∧ tc = toClose (lastConfig s) config) as [-> ->] by by rewrite Ep.
  destruct (start_all_total o ptrs (toAdd (lastConfig s) config) (probes s) w2) as (ps3 & w3 & Es & Hreg3).
  - by eapply final_fresh.
  - by eapply cr_nodup.
  - apply toAdd_names.
  - apply Hreg2. apply (law_registered (wld s) w1); [done|apply Hcr|done].
  - intros q p Hr. pose proof (ends_running _ _ _ _ _ He Hr) as Hr1. apply (cr_running _ _ _ _ _ Hcr) in Hr1.
    destruct (wf_running s Hwf q p Hr1) as [Hps Hl].
    destruct (decide (p_name p ∈ toClose (lastConfig s) config)) as [Hin|Hin]; [by destruct (Hcl eq_refl _ q p Hin Hps)|].
    by apply (unchanged_spec _ config _ _ Hl).
  - rewrite Es. eexists. split; [done|]. split; [|done]. split; [|done|].
    + exact (final_wf o config s w1 w2 w3 next ptrs ps3 Hwf Hcr He (Hcl eq_refl) Es).
    + intros n c. apply (final_complete o config s w1 w2 w3 next ptrs ps3 Hwf Hcr He Es n c Hsta).
      intros m lc Hm _. destruct (Hcom m lc Hm) as (q & p & ? & ? & _). eauto.
Qed.

Lemma stop_all_ends o (ptrs : list nat) w (err : bool) w' :
  (∀ q, q ∈ ptrs -> ∃ p, objs w !! q = Some p ∧ settled p) -> stop_all o ptrs w = Some (err, w') ->
  ∃ names, ends names w w'.
Proof.
  revert w. induction ptrs as [|q ptrs IH]; intros w Hq E; simpl in E; [simplify_eq; exists []; by left|].
  destruct (Hq q) as (p & Hp & Hs); [apply list_elem_of_here|].
  destruct (stop_spec o q w p Hp Hs) as (err1 & w1 & E1 & He & _). rewrite E1 in E. cbn [mbind option_bind] in E.
  destruct err1; [simplify_eq; by eexists|]. destruct (IH w1) as [names Hn]; [|done|].
  - intros q' Hq'. destruct (Hq q') as (p' & Hp' & Hs'); [by apply list_elem_of_further|].
    destruct (ends_object _ _ _ _ _ He Hp' Hs') as (p2 & ? & ? & _). eauto.
  - exists (p_name p :: names). eapply ends_trans; eapply ends_mono; [|exact He| |exact Hn].
    + intros x ->%list_elem_of_singleton. apply list_elem_of_here.
    + intros x Hx. by apply list_elem_of_further.
Qed.

Lemma Stop_server_wf (range_probes : gmap string nat -> list (string * nat)) o s (err : bool) s' :
  (∀ m, range_probes m ≡ₚ map_to_list m) ->
  wf s -> Stop_server range_probes o s = Some (err, s') -> wf s'.
Proof.
  intros Hrp Hwf E. unfold Stop_server in E. destruct (stop_all o _ (wld s)) as [[err1 w']|] eqn:Es; [|done]. simplify_eq/=.
  apply stop_all_ends in Es as [names He].
  - eapply (created_ends_wf s (wld s)); [done| |exact He].
    destruct Hwf. by split; [..|by apply Forall2_nil|by intros q ?%elem_of_nil|apply NoDup_nil_2].
  - intros q ([n q'] & -> & Hin)%list_elem_of_fmap. rewrite (Hrp (probes s)) in Hin. apply elem_of_map_to_list in Hin.
    destruct (wf_probes s Hwf _ _ Hin) as (p & Hp & _). exists p. split; [done|by eapply wf_object].
Qed.

Lemma initial_wf : wf (NewDynamicProbeServer (Args := Args)).
Proof.
  split; cbn; intros q p; rewrite ?lookup_empty; try done. intros [Hq _]. cbn in Hq. by rewrite lookup_empty in Hq.
Qed.

Lemma initial_good : good (NewDynamicProbeServer (Args := Args)).
Proof.
  split; [apply initial_wf|apply law_registered_empty|]. intros n c. cbn. by rewrite lookup_empty.
Qed.

Lemma reloads_good o (configs : list (list (ProbeConfig Args))) (config : list (ProbeConfig Args)) s :
  (∀ c, create_ok o c = true) -> (∀ q, start_ok o q = true) -> (∀ q, stop_ok o q = true) -> good s ->
  ∃ s', reloads DeepEqual range o (configs ++ [config]) s = Some s' ∧ good s' ∧ lastConfig s' = config.
Proof.
  intros Hc Ha Ho. revert s. induction configs as [|c0 configs IH]; intros s Hg; cbn [app reloads].
  - destruct (Reload_good o config s Hc Ha Ho Hg) as (s' & -> & Hg' & Hl). by exists s'.
  - destruct (Reload_good o c0 s Hc Ha Ho Hg) as (s1 & -> & Hg1 & _). cbn [mbind option_bind]. by apply IH.
Qed.

Lemma create_all_fails o c (cs : list (ProbeConfig Args)) (ptr ptr' : nat) (h h' : gmap nat (simpleProbe Args)) r :
  c ∈ cs -> create_ok o c = false -> create_all o cs ptr h = (r, ptr', h') -> r = None.
Proof.
  intros Hin Hfail. revert ptr h r ptr' h'. induction cs as [|c' cs IH]; [by apply elem_of_nil in Hin|].
  intros ptr h r ptr' h'. cbn [create_all]. apply elem_of_cons in Hin as [<-|Hin]; [rewrite Hfail; by intros [= <- _ _]|].
  destruct (create_ok o c'); [|by intros [= <- _ _]].
  destruct (create_all o cs (S ptr) _) as [[r1 p1] h1] eqn:E1. intros [= <- _ _]. by rewrite (IH Hin _ _ _ _ _ E1).
Qed.

Lemma running_unique s (q1 q2 : nat) (p1 p2 : simpleProbe Args) :
  wf s -> running (wld s) q1 p1 -> running (wld s) q2 p2 -> p_name p1 = p_name p2 -> q1 = q2.
Proof.
  intros Hwf H1 H2 E. apply (wf_running s Hwf) in H1 as [H1 _]. apply (wf_running s Hwf) in H2 as [H2 _].
  rewrite E in H1. congruence.
Qed.
End lemmas.

(** ** Properties *)

Section properties.
Context {Args : Type} (DeepEqual : ProbeConfig Args -> ProbeConfig Args -> bool).
Context (range : gmap string (ProbeConfig Args) -> list (string * ProbeConfig Args)).
Context (range_probes : gmap string nat -> list (string * nat)).
Context (DeepEqual_eq : ∀ a b, DeepEqual a b = true -> a = b) (range_perm : ∀ m, range m ≡ₚ map_to_list m).
Context (range_probes_perm : ∀ m, range_probes m ≡ₚ map_to_list m).
Context `{!ProbeManager Args, !ManagerLaws Args}.

(** C21: reloading runs the configuration.  If creating, starting and
    stopping probes succeeds, then after any sequence of reloads, whatever the
    order in which maps are ranged over, no call fails or panics, and the
    running probes are exactly those of the last configuration, one object per
    name, each created from its entry (the last of that name); for the metrics
    manager exactly their metrics are registered. *)
Theorem reload_runs_config (o : outcomes Args) (configs : list (list (ProbeConfig Args)))
    (config : list (ProbeConfig Args))
    (Hcreate : ∀ c, create_ok o c = true) (Hstart : ∀ q, start_ok o q = true) (Hstop : ∀ q, stop_ok o q = true) :
  ∃ s, reloads DeepEqual range o (configs ++ [config]) NewDynamicProbeServer = Some s ∧
    (∀ n c, toMap config !! n = Some c <-> ∃ q p, running (wld s) q p ∧ p_name p = n ∧ p_cfg p = c) ∧
    (∀ q1 p1 q2 p2, running (wld s) q1 p1 -> running (wld s) q2 p2 -> p_name p1 = p_name p2 -> q1 = q2) ∧
    registered (wld s).
Proof.
  destruct (reloads_good DeepEqual range DeepEqual_eq range_perm o configs config NewDynamicProbeServer Hcreate Hstart Hstop
    initial_good) as (s & E & [Hwf Hreg Hcom] & Hl). exists s. split_and!; [done| | |done].
  - intros n c. rewrite <- Hl. split; [apply Hcom|]. intros (q & p & Hr & <- & <-). by apply (wf_running s Hwf) in Hr as [_ ?].
  - intros q1 p1 q2 p2. by apply running_unique.
Qed.

(** C22: failures never leave a probe running unnoticed.  After any
    sequence of reloads and stops with any outcomes of the probes' own
    operations, every running probe is the one that the server's table has
    under its name and was created from the entry of the current
    configuration, and no two running probes have the same name. *)
Theorem reload_safe (ops : list server_op) (s : server Args)
    (Hrun : run_ops DeepEqual range range_probes ops NewDynamicProbeServer = Some s) :
  (∀ q p, running (wld s) q p ->
     probes s !! p_name p = Some q ∧ toMap (lastConfig s) !! p_name p = Some (p_cfg p)) ∧
  (∀ q1 p1 q2 p2, running (wld s) q1 p1 -> running (wld s) q2 p2 -> p_name p1 = p_name p2 -> q1 = q2).
Proof.
  assert (∀ s0, wf s0 -> run_ops DeepEqual range range_probes ops s0 = Some s -> wf s) as H.
  { clear Hrun. induction ops as [|op ops IH]; intros s0 Hwf E; cbn [run_ops] in E; [by simplify_eq|].
    destruct (do_op DeepEqual range range_probes op s0) as [[err s1]|] eqn:Ed; [|done]. cbn [mbind option_bind] in E.
    apply (IH s1); [|done]. destruct op; cbn [do_op] in Ed.
    - by apply (Reload_wf DeepEqual range DeepEqual_eq range_perm o config s0 err s1).
    - by apply (Stop_server_wf range_probes o s0 err s1). }
  pose proof (H _ initial_wf Hrun) as Hwf. split; [apply Hwf|]. intros q1 p1 q2 p2. by apply running_unique.
Qed.

(** A reload that cannot create a probe changes nothing: it returns an
    error, and table, configuration and the state of every probe stay as they
    were. *)
Theorem reload_create_error (o : outcomes Args) (config : list (ProbeConfig Args)) (s : server Args)
    (c : ProbeConfig Args) (Hwf : wf s) (Hc : c ∈ (probeChanges DeepEqual range (lastConfig s) config).1)
    (Hfail : create_ok o c = false) :
  ∃ s', Reload DeepEqual range o config s = Some (true, s') ∧ probes s' = probes s ∧ lastConfig s' = lastConfig s ∧
    registry (wld s') = registry (wld s) ∧
    (∀ q p, objs (wld s) !! q = Some p -> objs (wld s') !! q = Some p) ∧
    (∀ q p, running (wld s') q p <-> running (wld s) q p).
Proof.
  unfold Reload. destruct (probeChanges DeepEqual range (lastConfig s) config) as [ta tc] eqn:Ep.
  destruct (create_all o ta (next_ptr s) (objs (wld s))) as [[r next] h] eqn:Ec.
  destruct (create_created o s ta r next h Hwf Ec) as (_ & [] & _).
  rewrite (create_all_fails o c ta _ _ _ _ _ Hc Hfail Ec) in *.
  eexists. split; [done|]. cbn. done.
Qed.

(** Reloading the current configuration does nothing; in particular a
    probe that failed to start is not retried. *)
Theorem reload_same_config (o : outcomes Args) (s : server Args) (Hrefl : ∀ c, DeepEqual c c = true) :
  Reload DeepEqual range o (lastConfig s) s = Some (false, s).
Proof.
  unfold Reload. destruct (probeChanges DeepEqual range (lastConfig s) (lastConfig s)) as [ta tc] eqn:Ep.
  assert (ta = []) as ->.
  { destruct ta as [|c ta]; [done|]. exfalso.
    destruct (proj1 (toAdd_elem DeepEqual range range_perm (lastConfig s) (lastConfig s) c)) as [Hch E];
      [rewrite Ep; by apply list_elem_of_here|]. unfold changed in Hch. by rewrite E, Hrefl in Hch. }
  assert (tc = []) as ->.
  { destruct tc as [|n tc]; [done|]. exfalso.
    destruct (proj1 (toClose_elem DeepEqual range range_perm (lastConfig s) (lastConfig s) n)) as (c & E & Hch);
      [rewrite Ep; by apply list_elem_of_here|]. by rewrite E, Hrefl in Hch. }
  by destruct s as [lc ps [h r] next].
Qed.
End properties.

(** ** Evaluation on an example *)

Definition demo_equal (a b : ProbeConfig nat) : bool :=
  bool_decide (cfg_Name a = cfg_Name b) && bool_decide (cfg_Args a = cfg_Args b).
Definition demo_ok (start stop : bool) : outcomes nat := MkOutcomes (λ _, true) (λ _, start) (λ _, stop).
Definition demo_config (v : nat) : list (ProbeConfig nat) := [MkConfig "softirq" v; MkConfig "tcp" 0%nat].

Lemma demo_equal_eq (a b : ProbeConfig nat) : demo_equal a b = true -> a = b.
Proof.
  destruct a, b. unfold demo_equal. simpl. intros [H1%bool_decide_eq_true H2%bool_decide_eq_true]%andb_true_iff. congruence.
Qed.

Lemma demo_equal_refl (a : ProbeConfig nat) : demo_equal a a = true.
Proof. unfold demo_equal. by rewrite !bool_decide_true. Qed.

(** A probe whose stop failed crashes a later reload of the metrics
    server.  The failed probe keeps its collector registered
    ([StopProbe] returns before [Unregister]), the next reload skips it because
    it is in state failed, and [MustRegister] of its successor panics. *)
Theorem failed_stop_crashes_metrics_server :
  let run ops := run_ops (H := MetricsProbeManager) demo_equal map_to_list map_to_list ops NewDynamicProbeServer in
  let ok := demo_ok true true in
  (∃ s, run [OpReload ok (demo_config 1); OpReload (demo_ok true false) (demo_config 2)] = Some s) ∧
  run [OpReload ok (demo_config 1); OpReload (demo_ok true false) (demo_config 2); OpReload ok (demo_config 2)] = None.
Proof. split; [eexists|]; vm_compute; reflexivity. Qed.

(** ** Witnesses *)

Definition demo_server : server nat :=
  default NewDynamicProbeServer
    (reloads (H := MetricsProbeManager) demo_equal map_to_list (demo_ok true true) [demo_config 1] NewDynamicProbeServer).

Lemma reload_runs_config_witness :
  ∃ s, reloads (H := MetricsProbeManager) demo_equal map_to_list (demo_ok true true)
         ([demo_config 1; []] ++ [demo_config 2]) NewDynamicProbeServer = Some s ∧
    (∃ q p, running (wld s) q p ∧ p_name p = "softirq" ∧ p_cfg p = MkConfig "softirq" 2%nat) ∧
    metrics_registered (wld s).
Proof.
  destruct (reload_runs_config (ProbeManager0 := MetricsProbeManager) demo_equal map_to_list demo_equal_eq
    (λ m, reflexivity (map_to_list m)) (demo_ok true true) [demo_config 1; []] (demo_config 2)
    (λ _, eq_refl) (λ _, eq_refl) (λ _, eq_refl)) as (s & E & Hiff & _ & Hreg).
  exists s. split; [exact E|]. split; [|exact Hreg]. apply Hiff. vm_compute. reflexivity.
Defined.

Lemma reload_safe_witness :
  ∃ s, run_ops (H := MetricsProbeManager) demo_equal map_to_list map_to_list
         [OpReload (demo_ok true true) (demo_config 1); OpReload (demo_ok true false) (demo_config 2)]
         NewDynamicProbeServer = Some s ∧
    ∀ q p, running (wld s) q p ->
      probes s !! p_name p = Some q ∧ toMap (lastConfig s) !! p_name p = Some (p_cfg p).
Proof.
  eexists. split; [vm_compute; reflexivity|].
  refine (proj1 (reload_safe (ProbeManager0 := MetricsProbeManager) demo_equal map_to_list map_to_list demo_equal_eq
    (λ m, reflexivity (map_to_list m)) (λ m, reflexivity (map_to_list m))
    [OpReload (demo_ok true true) (demo_config 1); OpReload (demo_ok true false) (demo_config 2)] _ _)).
  vm_compute. reflexivity.
Defined.

Lemma demo_server_wf : wf demo_server.
Proof.
  destruct (reloads_good demo_equal map_to_list (ProbeManager0 := MetricsProbeManager) demo_equal_eq
    (λ m, reflexivity (map_to_list m)) (demo_ok true true) [] (demo_config 1) NewDynamicProbeServer
    (λ _, eq_refl) (λ _, eq_refl) (λ _, eq_refl) initial_good) as (s & E & Hg & _).
  unfold demo_server. change [demo_config 1] with ([] ++ [demo_config 1]). rewrite E. apply Hg.
Qed.

Lemma reload_create_error_witness :
  ∃ s', Reload (H := MetricsProbeManager) demo_equal map_to_list (MkOutcomes (λ _, false) (λ _, true) (λ _, true))
          (demo_config 2) demo_server = Some (true, s') ∧ lastConfig s' = demo_config 1.
Proof.
  assert (probeChanges demo_equal map_to_list (lastConfig demo_server) (demo_config 2) =
    ([MkConfig "softirq" 2%nat], ["softirq"])) as Ech by (vm_compute; reflexivity).
  assert (MkConfig "softirq" 2%nat ∈ (probeChanges demo_equal map_to_list (lastConfig demo_server) (demo_config 2)).1)
    as Hc by (rewrite Ech; apply list_elem_of_here).
  destruct (reload_create_error (ProbeManager0 := MetricsProbeManager) demo_equal map_to_list
    (MkOutcomes (λ _, false) (λ _, true) (λ _, true)) (demo_config 2) demo_server (MkConfig "softirq" 2%nat)
    demo_server_wf Hc eq_refl) as (s' & E & _ & Hl & _).
  exists s'. split; [exact E|]. rewrite Hl. vm_compute. reflexivity.
Defined.

(** The probe that failed to start stays failed. *)
Lemma reload_same_config_witness :
  ∃ s, reloads (H := MetricsProbeManager) demo_equal map_to_list (demo_ok false true) [demo_config 1]
         NewDynamicProbeServer = Some s ∧
    (p_state <$> (probes s !! "softirq" ≫= λ q, objs (wld s) !! q)) = Some ProbeStateFailed ∧
    Reload (H := MetricsProbeManager) demo_equal map_to_list (demo_ok true true) (lastConfig s) s = Some (false, s).
Proof.
  eexists. split; [vm_compute; reflexivity|]. split; [vm_compute; reflexivity|].
  apply (reload_same_config (ProbeManager0 := MetricsProbeManager) demo_equal map_to_list
    (λ m, reflexivity (map_to_list m)) (demo_ok true true)). exact demo_equal_refl.
Defined.
End ProbeServer.
