(* ===== verification/AgentLifecycle.v ===== *)
(** How the agent's probes start and stop their BPF programs
    (src/pkg/exporter/probe).

    Every traced feature has one BPF object behind a metrics probe and an
    event probe.  The first part is what the features share: the two probe
    types, and the BPF side of a probe (attached programs, perf readers).
    [Refcounted] is the reference counting that socketlatency.go,
    tracenetiftxlatency.go and tracevirtcmdlat.go have in common.  Whether
    loading the programs and opening the perf reader succeeds is an input of
    each start.  The theorems say when the programs are attached and read,
    and what a failed start leaves behind. *)

From S2P Require Import Prelude.

(** ** Shared state *)

(** [probe.Type] *)
Inductive ProbeType := ProbeTypeMetrics | ProbeTypeEvent.

#[global] Instance ProbeType_eq_dec : EqDecision ProbeType.
Proof. solve_decision. Defined.

(** An array indexed by [probe.Type]. *)
Record per_type (A : Type) := PerType { of_metrics : A; of_event : A }.
Arguments PerType {A} _ _.
Arguments of_metrics {A} _.
Arguments of_event {A} _.

Definition at_type {A : Type} (a : per_type A) (t : ProbeType) : A :=
  match t with ProbeTypeMetrics => of_metrics a | ProbeTypeEvent => of_event a end.
Definition set_type {A : Type} (t : ProbeType) (x : A) (a : per_type A) : per_type A :=
  match t with ProbeTypeMetrics => PerType x (of_event a) | ProbeTypeEvent => PerType (of_metrics a) x end.

Definition totalReferenceCountLocked (refcnt : per_type nat) : nat := (of_metrics refcnt + of_event refcnt)%nat.
Definition incr (t : ProbeType) (r : per_type nat) : per_type nat := set_type t (S (at_type r t)) r.
Definition decr (t : ProbeType) (r : per_type nat) : per_type nat := set_type t (Nat.pred (at_type r t)) r.

(** The BPF side of a probe: what is attached (with the load-time parameter
    [P] of the programs), the current perf reader, and all readers that are
    open; each has a goroutine in [perfLoop]. *)
Record bpf_side (P : Type) := Bpf {
  attached : option P;
  perfReader : option nat;
  open_readers : gset nat;
  next_reader : nat;
}.
Arguments Bpf {P} _ _ _ _.
Arguments attached {P} _.
Arguments perfReader {P} _.
Arguments open_readers {P} _.
Arguments next_reader {P} _.

Definition bpf_init {P : Type} : bpf_side P := Bpf None None ∅ 0.

Section bpf_side.
Context {P : Type}.
Implicit Types (b : bpf_side P).

(** [perfReader.Close()], which may be called again. *)
Definition close_reader b : bpf_side P :=
  Bpf (attached b) (perfReader b)
      (match perfReader b with Some r => open_readers b ∖ {[r]} | None => open_readers b end) (next_reader b).

(** [cleanup]: close the reader, the links and the objects. *)
Definition cleanup b : bpf_side P :=
  let b := close_reader b in Bpf None (perfReader b) (open_readers b) (next_reader b).

Definition attach (x : P) b : bpf_side P := Bpf (Some x) (perfReader b) (open_readers b) (next_reader b).

(** [p.perfReader, err = perf.NewReader(..)] *)
Definition new_reader (ok : bool) b : bpf_side P :=
  if ok then Bpf (attached b) (Some (next_reader b)) ({[next_reader b]} ∪ open_readers b) (S (next_reader b))
  else Bpf (attached b) None (open_readers b) (next_reader b).

(** Events of the programs reach the agent. *)
Definition reading b : bool :=
  match perfReader b with Some r => bool_decide (r ∈ open_readers b) | None => false end.
Definition watching b : bool := bool_decide (is_Some (attached b)) && reading b.
End bpf_side.

(** Whether [loadAndAttachBPF] and [perf.NewReader] succeed. *)
Record attempt := Attempt { load_ok : bool; reader_ok : bool }.
Definition both_ok : attempt := Attempt true true.

(** The errors of a sequence of operations and the final state. *)
Fixpoint run_all {S O : Type} (exec : O -> S -> bool * S) (os : list O) (s : S) : list bool * S :=
  match os with
  | [] => ([], s)
  | o :: os' => let '(err, s) := exec o s in let '(errs, s) := run_all exec os' s in (err :: errs, s)
  end.

(** ** Lemmas on the shared state *)

Lemma run_all_invariant {S O : Type} (exec : O -> S -> bool * S) (Q : O -> Prop) (I : S -> Prop) (os : list O) (s : S) :
  (∀ o s, Q o -> I s -> I (exec o s).2) -> Forall Q os -> I s -> I (run_all exec os s).2.
Proof.
  intros Hstep Hq. revert s. induction Hq as [|o os Ho _ IH]; intros s Hs; [done|]. cbn [run_all].
  specialize (Hstep o s Ho Hs). destruct (exec o s) as [err s1]. specialize (IH s1 Hstep).
  by destruct (run_all exec os s1).
Qed.

Lemma total_incr (t : ProbeType) (r : per_type nat) :
  totalReferenceCountLocked (incr t r) = S (totalReferenceCountLocked r).
Proof. destruct t; unfold totalReferenceCountLocked; simpl; lia. Qed.
Lemma total_decr (t : ProbeType) (r : per_type nat) :
  at_type r t ≠ 0%nat -> S (totalReferenceCountLocked (decr t r)) = totalReferenceCountLocked r.
Proof. destruct t; unfold totalReferenceCountLocked; simpl; lia. Qed.
Lemma at_type_le (t : ProbeType) (r : per_type nat) : (at_type r t <= totalReferenceCountLocked r)%nat.
Proof. destruct t; unfold totalReferenceCountLocked; simpl; lia. Qed.

Section bpf_lemmas.
Context {P : Type}.
Implicit Types (b : bpf_side P).

Lemma reading_close b : reading (close_reader b) = false.
Proof.
  unfold reading, close_reader. simpl. destruct (perfReader b) as [r|]; [|done].
  apply bool_decide_eq_false. set_solver.
Qed.
Lemma reading_cleanup b : reading (cleanup b) = false.
Proof. apply (reading_close b). Qed.
Lemma reading_new (ok : bool) b : reading (new_reader ok b) = ok.
Proof. destruct ok; unfold reading, new_reader; simpl; [|done]. apply bool_decide_eq_true. set_solver. Qed.
Lemma attached_new (ok : bool) b : attached (new_reader ok b) = attached b.
Proof. by destruct ok. Qed.
End bpf_lemmas.

(** ** socketlatency.go, tracenetiftxlatency.go, tracevirtcmdlat.go *)

Module Refcounted.

Record probe := Probe { refcnt : per_type nat; bpf : bpf_side unit; sink : bool }.
Definition init : probe := Probe (PerType 0 0)%nat bpf_init false.

(** The error and the new state. *)
Definition start (a : attempt) (t : ProbeType) (p : probe) : bool * probe :=
  let r := incr t (refcnt p) in
  if (totalReferenceCountLocked r =? 1)%nat then
    if load_ok a then
      (negb (reader_ok a), Probe r (new_reader (reader_ok a) (attach tt (bpf p))) (sink p))
    else (true, Probe r (cleanup (bpf p)) (sink p))
  else (false, Probe r (bpf p) (sink p)).

Definition stop (t : ProbeType) (p : probe) : bool * probe :=
  if (at_type (refcnt p) t =? 0)%nat then (true, p)
  else
    let r := decr t (refcnt p) in
    if (totalReferenceCountLocked r =? 0)%nat then (false, Probe r (cleanup (bpf p)) (sink p))
    else (false, Probe r (bpf p) (sink p)).

(** [metricsProbe.Start] and [eventProbe.Start]; the latter also sets the sink. *)
Definition Start (a : attempt) (t : ProbeType) (p : probe) : bool * probe :=
  let '(err, p) := start a t p in
  match t with
  | ProbeTypeMetrics => (err, p)
  | ProbeTypeEvent => if err then (true, p) else (false, Probe (refcnt p) (bpf p) true)
  end.
Definition Stop : ProbeType -> probe -> bool * probe := stop.

Inductive op := DoStart (a : attempt) (t : ProbeType) | DoStop (t : ProbeType).

Definition exec (o : op) (p : probe) : bool * probe :=
  match o with DoStart a t => Start a t p | DoStop t => Stop t p end.

Definition run : list op -> probe -> list bool * probe := run_all exec.
End Refcounted.


(** ** Lemmas *)

Section refcounted_lemmas.
Import Refcounted.
Implicit Types (p : probe) (t : ProbeType) (os : list op).

(** The programs are attached and read exactly while a probe is started. *)
Definition in_service p : Prop :=
  match totalReferenceCountLocked (refcnt p) with
  | O => attached (bpf p) = None ∧ reading (bpf p) = false
  | S _ => watching (bpf p) = true
  end.

Definition succeeds (o : op) : Prop := match o with DoStart a _ => a = both_ok | DoStop _ => True end.

(** A caller that stops a probe only after a start that succeeded, as the
    server does; [held] counts the probes it has running. *)
Fixpoint disciplined (held : per_type nat) (os : list op) : bool :=
  match os with
  | [] => true
  | DoStart _ t :: os' => disciplined (incr t held) os'
  | DoStop t :: os' => negb (at_type held t =? 0)%nat && disciplined (decr t held) os'
  end.

(** What the operations do to counts and BPF side, the sink aside. *)
Lemma Start_spec (a : attempt) t p :
  refcnt (Start a t p).2 = incr t (refcnt p) ∧
  match totalReferenceCountLocked (refcnt p) with
  | O => (Start a t p).1 = negb (load_ok a && reader_ok a) ∧
         bpf (Start a t p).2 = (if load_ok a then new_reader (reader_ok a) (attach tt (bpf p)) else cleanup (bpf p))
  | S _ => (Start a t p).1 = false ∧ bpf (Start a t p).2 = bpf p
  end.
Proof.
  unfold Start, start. rewrite total_incr. destruct (totalReferenceCountLocked (refcnt p)); simpl; [|by destruct t].
  by destruct a as [[] []], t.
Qed.

Lemma Stop_spec t p :
  at_type (refcnt p) t ≠ 0%nat ->
  (Stop t p).1 = false ∧ refcnt (Stop t p).2 = decr t (refcnt p) ∧
  bpf (Stop t p).2 = match totalReferenceCountLocked (decr t (refcnt p)) with O => cleanup (bpf p) | S _ => bpf p end.
Proof.
  intros Ht. unfold Stop, stop. rewrite (proj2 (Nat.eqb_neq _ _) Ht).
  by destruct (totalReferenceCountLocked (decr t (refcnt p))).
Qed.

Lemma Stop_unstarted t p : at_type (refcnt p) t = 0%nat -> Stop t p = (true, p).
Proof. intros Ht. unfold Stop, stop. by rewrite Ht. Qed.

Lemma exec_in_service (o : op) p : succeeds o -> in_service p -> in_service (exec o p).2.
Proof.
  unfold in_service. destruct o as [a t|t]; cbn [exec succeeds].
  - intros -> H. destruct (Start_spec both_ok t p) as [Hr Hb]. rewrite Hr, total_incr.
    destruct (totalReferenceCountLocked (refcnt p)); destruct Hb as [_ ->]; [|done].
    cbn [load_ok reader_ok both_ok]. unfold watching. by rewrite reading_new, attached_new.
  - intros _ H. destruct (decide (at_type (refcnt p) t = 0%nat)) as [E|E]; [by rewrite Stop_unstarted|].
    destruct (Stop_spec t p E) as (_ & -> & ->). pose proof (total_decr t (refcnt p) E) as Ht.
    destruct (totalReferenceCountLocked (decr t (refcnt p))); rewrite <- Ht in H; [|done].
    by rewrite reading_cleanup.
Qed.

(** One count that nobody gives back keeps the BPF side as it is. *)
Lemma run_frozen t0 os (held : per_type nat) p :
  refcnt p = incr t0 held -> disciplined held os = true ->
  (run os p).1 = replicate (length os) false ∧ bpf (run os p).2 = bpf p.
Proof.
  unfold run. revert held p. induction os as [|o os IH]; intros held p Hr Hd; [done|]. cbn [run_all].
  assert (∃ held', (exec o p).1 = false ∧ bpf (exec o p).2 = bpf p ∧ refcnt (exec o p).2 = incr t0 held' ∧
    disciplined held' os = true) as (held' & He & Hb & Hr' & Hd').
  { destruct o as [a t|t]; cbn [disciplined exec] in *.
    - exists (incr t held). destruct (Start_spec a t p) as [-> Hb].
      assert (totalReferenceCountLocked (refcnt p) ≠ 0%nat) as Hne by (rewrite Hr, total_incr; lia).
      destruct (totalReferenceCountLocked (refcnt p)); [done|]. destruct Hb as [-> ->]. split_and!; try done.
      rewrite Hr. by destruct t0, t.
    - apply andb_true_iff in Hd as [Ht%negb_true_iff%Nat.eqb_neq Hd]. exists (decr t held).
      assert (at_type (refcnt p) t ≠ 0%nat) as Hp by (rewrite Hr; destruct t0, t; simpl in *; lia).
      destruct (Stop_spec t p Hp) as (-> & -> & ->).
      assert (refcnt p = incr t0 held ∧ decr t (refcnt p) = incr t0 (decr t held)) as [_ E].
      { split; [done|]. rewrite Hr. destruct t0, t; unfold decr, incr; simpl in *; f_equal; lia. }
      rewrite E, total_incr. by split_and!. }
  destruct (exec o p) as [err p1]. simpl in He, Hb, Hr'. subst err.
  destruct (IH held' p1 Hr' Hd') as [Hes Hbs]. destruct (run_all exec os p1) as [errs p2].
  simpl in *. rewrite Hes, Hbs. by split.
Qed.
End refcounted_lemmas.

(** ** Properties *)

Section refcounted_properties.
Import Refcounted.

(** The reference counts work.  If loading and opening the reader
    succeeds, then after any interleaving of starts and stops of the metrics
    and the event probe, surplus stops included, the programs are attached and
    their events are read exactly when some probe is started. *)
Theorem refcounted_in_service (os : list op) (Hok : Forall succeeds os) : in_service (run os init).2.
Proof. by apply (run_all_invariant exec succeeds); [apply exec_in_service|..]. Qed.

(** A failed start blinds the probe for good.  [start] leaves the
    reference count incremented when loading fails or the reader cannot be
    opened, and the server does not stop a failed probe; so every later start
    returns success although no event is read any more. *)
Theorem failed_start_blinds (a : attempt) (t : ProbeType) (os : list op)
    (Hfail : load_ok a && reader_ok a = false) (Hd : disciplined (PerType 0 0)%nat os = true) :
  let '(errs, p) := run (DoStart a t :: os) init in
  errs = true :: replicate (length os) false ∧ watching (bpf p) = false.
Proof.
  destruct (run (DoStart a t :: os) init) as [errs p] eqn:E. unfold run in E. cbn [run_all exec] in E.
  destruct (Start_spec a t init) as [Hr He]. cbn in He.
  destruct (Start a t init) as [err p1]. simpl in Hr, He. destruct He as [-> Hb].
  destruct (run_frozen t os (PerType 0 0)%nat p1 Hr Hd) as [Hes Hbs]. unfold run in Hes, Hbs.
  destruct (run_all exec os p1) as [errs' p2]. injection E as <- <-. simpl in *. rewrite Hes, Hfail, Hbs, Hb.
  split; [done|]. destruct a as [[] []]; done.
Qed.

(** The sink survives: after the event probe was started once, nothing
    removes its sink, so its events are delivered after it was stopped for as
    long as the metrics probe keeps the programs attached. *)
Theorem sink_survives_stop (os : list op) (p : probe) (Hsink : sink p = true) : sink (run os p).2 = true.
Proof.
  apply (run_all_invariant exec (λ _, True) (λ p, sink p = true)); [|by apply Forall_true|done].
  intros [a []|t] q _ Hq; cbn [exec]; unfold Start, start, Stop, stop; repeat case_match; simplify_eq/=; done.
Qed.

(** ** Witnesses *)

Lemma refcounted_in_service_witness :
  in_service (run [DoStart both_ok ProbeTypeMetrics; DoStart both_ok ProbeTypeEvent; DoStop ProbeTypeMetrics] init).2.
Proof. apply refcounted_in_service. repeat constructor. Defined.

Lemma failed_start_blinds_witness :
  let '(errs, p) := run [DoStart (Attempt false true) ProbeTypeMetrics; DoStart both_ok ProbeTypeMetrics] init in
  errs = [true; false] ∧ watching (bpf p) = false.
Proof.
  exact (failed_start_blinds (Attempt false true) ProbeTypeMetrics [DoStart both_ok ProbeTypeMetrics] eq_refl eq_refl).
Defined.
End refcounted_properties.
