(* ===== verification/Kallsyms.v ===== *)
(** src/pkg/exporter/bpfutil/kallsyms.go: the kernel symbol table of the agent.

    The table is read from /proc/kallsyms when the program starts and sorted
    by address; the probes look up the symbol that contains a code address,
    with a binary search behind a cache.  A Go panic (index out of range) is
    an outcome of its own.  The cache (a third-party package) is a parameter
    with its laws, [sort.Slice] any function that sorts.  The theorems show
    that a lookup ends and finds the symbol with the greatest address that is
    not above the given one, whatever the cache holds. *)

From Stdlib Require Import Ascii.
From stdpp Require Import sorting.
From S2P Require Import Prelude.

Module Kallsyms.

Record KernelSymbol := MkSymbol {
  start : Z;
  symboltype : string;
  symbol : string;
  module : string;
  offset : Z;
}.

#[global] Instance KernelSymbol_eq_dec : EqDecision KernelSymbol.
Proof. solve_decision. Defined.

(** ** Reading the table *)

Definition hex_digit (c : ascii) : option Z :=
  let n := Z.of_N (Ascii.N_of_ascii c) in
  if (48 <=? n) && (n <=? 57) then Some (n - 48)
  else if (97 <=? n) && (n <=? 102) then Some (n - 87)
  else if (65 <=? n) && (n <=? 70) then Some (n - 55)
  else None.

(** [strconv.ParseUint(s, 16, 64)]; [None] is its error. *)
Fixpoint parse_hex (acc : Z) (s : string) : option Z :=
  match s with
  | EmptyString => Some acc
  | String c s' => d ← hex_digit c; if acc * 16 + d <? 2 ^ 64 then parse_hex (acc * 16 + d) s' else None
  end.
Definition ParseUint16 (s : string) : option Z :=
  match s with EmptyString => None | _ => parse_hex 0 s end.

(** One line of the file, as [strings.Fields] splits it: [None] is a panic,
    [Some None] a line that is skipped. *)
Definition parse_line (rawsym : list string) : option (option KernelSymbol) :=
  f0 ← rawsym !! 0%nat;
  match ParseUint16 f0 with
  | None => Some None
  | Some pt =>
      ty ← rawsym !! 1%nat; sym ← rawsym !! 2%nat;
      let mod_ := if bool_decide (length rawsym = 4%nat) then default "" (rawsym !! 3%nat) else "kernel"%string in
      Some (Some (MkSymbol pt ty sym mod_ 0))
  end.

Section table.
(** [sort.Slice] by [GetAddr]. *)
Context (sort : list KernelSymbol -> list KernelSymbol).

Definition getAllSyms (lines : list (list string)) : option (list KernelSymbol) :=
  syms ← mapM parse_line lines; Some (sort (omap id syms)).
End table.

(** ** Lookup *)

Inductive outcome := Symbol (ks : KernelSymbol) | NotFound | Panic.

(** [kallsyms[i]] *)
Definition at_index (kallsyms : list KernelSymbol) (i : Z) : option KernelSymbol :=
  if 0 <=? i then kallsyms !! Z.to_nat i else None.

(** The loop: [inl found] when it breaks, [inr i] when it ends; [None] is a
    panic or, if the fuel is too small, no result. *)
Fixpoint search (fuel : nat) (kallsyms : list KernelSymbol) (pt i j : Z) : option (Z + Z) :=
  match fuel with
  | O => None
  | S fuel' =>
      if i <? j then
        let mid := i + (j - i) / 2 in
        s ← at_index kallsyms mid;
        let midVal := start s in
        if pt <? midVal then search fuel' kallsyms pt i mid
        else if midVal <? pt then search fuel' kallsyms pt (mid + 1) j
        else Some (inl mid)
      else Some (inr i)
  end.

(** What follows a loop that ended at [i]: the index found, or -1. *)
Definition settle (kallsyms : list KernelSymbol) (pt i : Z) : option Z :=
  found ← (if 1 <=? i then
             prev ← at_index kallsyms (i - 1);
             if start prev <? pt then
               cur ← at_index kallsyms i; Some (if pt <? start cur then i - 1 else -1)
             else Some (-1)
           else Some (-1));
  cur ← at_index kallsyms i;
  Some (if start cur <=? pt then i else found).

Definition symbol_at (kallsyms : list KernelSymbol) (pt found : Z) : outcome :=
  match at_index kallsyms found with
  | Some s => Symbol (MkSymbol (start s) (symbol s) (symbol s) (module s) (sext 64 (pt - start s)))
  | None => Panic
  end.

Definition lookup_symbol (kallsyms : list KernelSymbol) (pt : Z) : outcome :=
  match search (S (length kallsyms)) kallsyms pt 0 (Z.of_nat (length kallsyms) - 1) with
  | Some (inl found) => symbol_at kallsyms pt found
  | Some (inr i) =>
      match settle kallsyms pt i with
      | Some found => if found =? -1 then NotFound else symbol_at kallsyms pt found
      | None => Panic
      end
  | None => Panic
  end.

(** [expirable.LRU] with no expiry. *)
Class LocationCache (C : Type) := {
  cache_get : C -> Z -> option KernelSymbol;
  cache_add : C -> Z -> KernelSymbol -> C;
}.
Class LocationCacheLaws (C : Type) `{!LocationCache C} := {
  cache_get_add c k v k' w :
    cache_get (cache_add c k v) k' = Some w -> (k' = k ∧ w = v) ∨ cache_get c k' = Some w;
}.

Definition GetSymPtFromBpfLocation {C : Type} `{!LocationCache C} (kallsyms : list KernelSymbol) (pt : Z) (cache : C)
    : outcome * C :=
  match cache_get cache pt with
  | Some sym => (Symbol sym, cache)
  | None =>
      match lookup_symbol kallsyms pt with
      | Symbol ks => (Symbol ks, cache_add cache pt ks)
      | r => (r, cache)
      end
  end.

(** [GetSymByPt] on an address already parsed: the linear search. *)
Fixpoint scan (pt : Z) (l : list KernelSymbol) : outcome :=
  match l with
  | [] => NotFound
  | s :: l' =>
      if start s <=? pt then
        match l' with
        | [] => Panic
        | s' :: _ =>
            if pt <? start s' then
              Symbol (MkSymbol (start s) (symbol s) (symbol s) (module s) (sext 64 (pt - start s)))
            else scan pt l'
        end
      else scan pt l'
  end.
Definition GetSymByPt (kallsyms : list KernelSymbol) (pt : Z) : outcome :=
  match last kallsyms with
  | None => Panic
  | Some l => if start l <? pt then NotFound else scan pt kallsyms
  end.

(** [GetSymsByStack]: the symbols of the addresses of a stack, those without
    one left out; the inner [None] is the error of the map lookup, the outer
    one a panic. *)
Fixpoint callers {C : Type} `{!LocationCache C} (kallsyms : list KernelSymbol) (addrs : list Z) (cache : C)
    : option (list KernelSymbol * C) :=
  match addrs with
  | [] => Some ([], cache)
  | addr :: addrs' =>
      let '(r, cache) := GetSymPtFromBpfLocation kallsyms addr cache in
      match r with
      | Panic => None
      | NotFound => callers kallsyms addrs' cache
      | Symbol sym => '(syms, cache) ← callers kallsyms addrs' cache; Some (sym :: syms, cache)
      end
  end.
Definition GetSymsByStack {C : Type} `{!LocationCache C} (kallsyms : list KernelSymbol)
    (stackmap : Z -> option (list Z)) (stack : Z) (cache : C) : option (option (list KernelSymbol) * C) :=
  match stackmap stack with
  | None => Some (None, cache)
  | Some addrs => '(syms, cache) ← callers kallsyms addrs cache; Some (Some syms, cache)
  end.

(** The verb [%X] on an int, at most 16 digits. *)
Definition hex_char (d : Z) : ascii := Ascii.ascii_of_N (Z.to_N (if d <? 10 then 48 + d else 55 + d)).
Fixpoint hex_upper (fuel : nat) (n : Z) (acc : string) : string :=
  match fuel with
  | O => acc
  | S fuel' =>
      let acc := String (hex_char (n mod 16)) acc in
      if n <? 16 then acc else hex_upper fuel' (n / 16) acc
  end.
Definition fmt_X (z : Z) : string :=
  if z <? 0 then String.append "-" (hex_upper 16 (- z) "") else hex_upper 16 z "".
Definition GetExpr (k : KernelSymbol) : string := (symbol k ++ "+0x" ++ fmt_X (offset k))%string.

(** ** Specification *)

(** Sorted by address, as [sort.Slice] leaves it. *)
Definition sorted (l : list KernelSymbol) : Prop :=
  ∀ i j a b, (i <= j)%nat -> l !! i = Some a -> l !! j = Some b -> start a <= start b.
Definition strictly_sorted (l : list KernelSymbol) : Prop :=
  ∀ i j a b, (i < j)%nat -> l !! i = Some a -> l !! j = Some b -> start a < start b.

(** [s] contains [pt]: no symbol starts between [s] and [pt]. *)
Definition contains (l : list KernelSymbol) (pt : Z) (s : KernelSymbol) : Prop :=
  s ∈ l ∧ start s <= pt ∧ ∀ s', s' ∈ l -> start s' <= pt -> start s' <= start s.

(** The symbol as it is returned. *)
Definition returned (pt : Z) (s : KernelSymbol) : KernelSymbol :=
  MkSymbol (start s) (symbol s) (symbol s) (module s) (sext 64 (pt - start s)).

(** ** Lemmas *)

Implicit Types (l : list KernelSymbol) (pt : Z).

Lemma at_index_Some l (i : Z) : 0 <= i < Z.of_nat (length l) -> ∃ s, at_index l i = Some s ∧ l !! Z.to_nat i = Some s.
Proof.
  intros Hi. unfold at_index. destruct (Z.leb_spec 0 i); [|lia].
  destruct (lookup_lt_is_Some_2 l (Z.to_nat i)) as [s Hs]; [lia|]. by exists s.
Qed.

Lemma at_index_lookup l (i : Z) s : at_index l i = Some s -> 0 <= i ∧ l !! Z.to_nat i = Some s.
Proof. unfold at_index. by destruct (Z.leb_spec 0 i). Qed.

(** Every symbol before index [i] starts below [pt]. *)
Definition below l pt (i : Z) : Prop := ∀ k s, Z.of_nat k < i -> l !! k = Some s -> start s < pt.
(** From index [j] on every symbol starts above [pt], or [j] is the last. *)
Definition above l pt (j : Z) : Prop :=
  j = Z.of_nat (length l) - 1 ∨ ∃ s, at_index l j = Some s ∧ pt < start s.

Lemma search_spec l pt (fuel : nat) (i j : Z) :
  sorted l -> 0 <= i <= j -> j <= Z.of_nat (length l) - 1 -> j - i < Z.of_nat fuel -> below l pt i -> above l pt j ->
  ∃ r, search fuel l pt i j = Some r ∧
    match r with
    | inl m => ∃ s, at_index l m = Some s ∧ start s = pt
    | inr k => 0 <= k <= Z.of_nat (length l) - 1 ∧ below l pt k ∧ above l pt k
    end.
Proof.
  intros Hs. revert i j. induction fuel as [|fuel IH]; intros i j Hi Hj Hf Hb Ha; [lia|]. cbn [search].
  destruct (Z.ltb_spec i j) as [Hlt|Hge]; [|exists (inr i); replace i with j in * by lia; split_and!; done || lia].
  pose proof (Z.div_mod (j - i) 2 ltac:(lia)). pose proof (Z.mod_pos_bound (j - i) 2 ltac:(lia)).
  set (mid := i + (j - i) / 2) in *.
  destruct (at_index_Some l mid) as (s & Es & Hl); [lia|]. rewrite Es. cbn [mbind option_bind].
  destruct (Z.ltb_spec pt (start s)) as [Hc|Hc].
  - apply IH; [lia|lia|lia|done|]. right. by exists s.
  - destruct (Z.ltb_spec (start s) pt) as [Hc'|Hc']; [|exists (inl mid); split; [done|]; exists s; split; [done|lia]].
    apply IH; [lia|lia|lia| |done]. intros k x Hk Hx.
    pose proof (Hs k (Z.to_nat mid) x s ltac:(lia) Hx Hl). lia.
Qed.

(** The symbol found is the last one that is not above [pt]. *)
Lemma contains_last l pt (k : nat) s :
  sorted l -> l !! k = Some s -> start s <= pt ->
  (∀ k' s', (k < k')%nat -> l !! k' = Some s' -> pt < start s' ∨ start s' = start s) -> contains l pt s.
Proof.
  intros Hs Hk Hle Hnext. split_and!; [by eapply list_elem_of_lookup_2|done|].
  intros s' [k' Hk']%list_elem_of_lookup_1 Hle'. destruct (decide (k' <= k)%nat) as [|Hgt].
  - by apply (Hs k' k).
  - destruct (Hnext k' s' ltac:(lia) Hk'); lia.
Qed.

Lemma contains_exact l pt s : s ∈ l -> start s = pt -> contains l pt s.
Proof. intros Hin <-. split_and!; [done|lia|]. intros. lia. Qed.

Lemma settle_spec l pt (i : Z) :
  sorted l -> 0 <= i <= Z.of_nat (length l) - 1 -> below l pt i -> above l pt i ->
  ∃ found, settle l pt i = Some found ∧
    ((found = -1 ∧ ∀ s, s ∈ l -> pt < start s) ∨
     (found ≠ -1 ∧ ∃ s, at_index l found = Some s ∧ contains l pt s)).
Proof.
  intros Hs Hi Hb Ha. destruct (at_index_Some l i) as (cur & Ec & Hc); [lia|].
  destruct (Z.leb_spec (start cur) pt) as [Hle|Hgt].
  - (* the symbol at [i] contains [pt] *)
    assert (∃ found, (if 1 <=? i then
        prev ← at_index l (i - 1);
        if start prev <? pt then cur ← at_index l i; Some (if pt <? start cur then i - 1 else -1) else Some (-1)
      else Some (-1)) = Some found) as [f Ef].
    { destruct (Z.leb_spec 1 i); [|by eexists]. destruct (at_index_Some l (i - 1)) as (prev & -> & _); [lia|].
      cbn [mbind option_bind]. destruct (start prev <? pt); [|by eexists]. rewrite Ec. by eexists. }
    exists i. unfold settle. rewrite Ef. cbn [mbind option_bind]. rewrite Ec. cbn [mbind option_bind].
    destruct (Z.leb_spec (start cur) pt); [|lia]. split; [done|]. right. split; [lia|]. exists cur. split; [done|].
    apply (contains_last l pt (Z.to_nat i)); [done|done|done|]. intros k' s' Hk' Hs'.
    destruct Ha as [->|(s & Es & Hlt)]; [apply lookup_lt_Some in Hs'; lia|]. rewrite Ec in Es. injection Es as ->. lia.
  - assert (∀ k s, Z.of_nat k >= i -> l !! k = Some s -> pt < start s) as Hup.
    { intros k s Hk Hl. pose proof (Hs (Z.to_nat i) k cur s ltac:(lia) Hc Hl). lia. }
    unfold settle. destruct (Z.leb_spec 1 i) as [H1|H1].
    + destruct (at_index_Some l (i - 1)) as (prev & Ep & Hp); [lia|]. rewrite Ep. cbn [mbind option_bind].
      pose proof (Hb (Z.to_nat (i - 1)) prev ltac:(lia) Hp) as Hlt.
      destruct (Z.ltb_spec (start prev) pt); [|lia]. rewrite Ec. cbn [mbind option_bind].
      destruct (Z.ltb_spec pt (start cur)); [|lia]. cbn [mbind option_bind].
      destruct (Z.leb_spec (start cur) pt); [lia|]. exists (i - 1). split; [done|]. right. split; [lia|].
      exists prev. split; [done|]. apply (contains_last l pt (Z.to_nat (i - 1))); [done|done|lia|].
      intros k' s' Hk' Hs'. left. apply (Hup k'); [lia|done].
    + cbn [mbind option_bind]. rewrite Ec. cbn [mbind option_bind]. destruct (Z.leb_spec (start cur) pt); [lia|].
      exists (-1). split; [done|]. left. split; [done|]. intros s [k Hk]%list_elem_of_lookup_1. apply (Hup k); [lia|done].
Qed.

Lemma symbol_at_spec l pt (i : Z) s : at_index l i = Some s -> symbol_at l pt i = Symbol (returned pt s).
Proof. intros E. unfold symbol_at. by rewrite E. Qed.

Lemma lookup_spec l pt :
  sorted l -> l ≠ [] ->
  (∃ s, contains l pt s ∧ lookup_symbol l pt = Symbol (returned pt s)) ∨
  ((∀ s, s ∈ l -> pt < start s) ∧ lookup_symbol l pt = NotFound).
Proof.
  intros Hs Hne. assert (0 < length l)%nat by (destruct l; [done|simpl; lia]).
  unfold lookup_symbol.
  destruct (search_spec l pt (S (length l)) 0 (Z.of_nat (length l) - 1)) as ([m|i] & -> & Hr);
    [done|lia|lia|lia|intros k s Hk; lia|by left|..].
  - destruct Hr as (s & Es & <-). left. exists s. rewrite (symbol_at_spec _ _ _ _ Es). split; [|done].
    apply contains_exact; [|done]. apply at_index_lookup in Es as [_ E]. by eapply list_elem_of_lookup_2.
  - destruct Hr as (Hi & Hb & Ha). destruct (settle_spec l pt i Hs Hi Hb Ha) as (f & -> & [[-> Hnone]|(Hf & s & Es & Hc)]).
    + by right.
    + left. exists s. destruct (Z.eqb_spec f (-1)); [done|]. by rewrite (symbol_at_spec _ _ _ _ Es).
Qed.

(** The cache holds only results of the search. *)
Definition cache_ok {C : Type} `{!LocationCache C} l (c : C) : Prop :=
  ∀ pt ks, cache_get c pt = Some ks -> lookup_symbol l pt = Symbol ks.

Lemma cached_lookup {C : Type} `{!LocationCache C, !LocationCacheLaws C} l pt (c : C) :
  cache_ok l c ->
  (GetSymPtFromBpfLocation l pt c).1 = lookup_symbol l pt ∧ cache_ok l (GetSymPtFromBpfLocation l pt c).2.
Proof.
  intros Hc. unfold GetSymPtFromBpfLocation. destruct (cache_get c pt) as [ks|] eqn:E.
  - split; [|done]. simpl. symmetry. by apply Hc.
  - destruct (lookup_symbol l pt) as [ks| |] eqn:Er; [|done|done]. split; [done|].
    intros pt' ks' [[-> ->]|H]%cache_get_add; [done|by apply Hc].
Qed.

(** The cache after a sequence of lookups. *)
Definition lookups {C : Type} `{!LocationCache C} l (pts : list Z) (c : C) : C :=
  foldl (λ c pt, (GetSymPtFromBpfLocation l pt c).2) c pts.

Lemma lookups_ok {C : Type} `{!LocationCache C, !LocationCacheLaws C} l (pts : list Z) (c : C) :
  cache_ok l c -> cache_ok l (lookups l pts c).
Proof. revert c. induction pts as [|pt pts IH]; intros c Hc; [done|]. apply IH. by apply cached_lookup. Qed.

(** The symbol at an address, if there is one. *)
Definition symbol_of l pt : option KernelSymbol := match lookup_symbol l pt with Symbol s => Some s | _ => None end.

(** On a readable table no lookup panics: a symbol or none. *)
Lemma cached_symbol {C : Type} `{!LocationCache C, !LocationCacheLaws C} l pt (c : C) :
  sorted l -> l ≠ [] -> cache_ok l c ->
  ∃ c', GetSymPtFromBpfLocation l pt c = (match symbol_of l pt with Some s => Symbol s | None => NotFound end, c') ∧
    cache_ok l c'.
Proof.
  intros Hs Hne Hc. destruct (cached_lookup l pt c Hc) as [E Hc'].
  destruct (GetSymPtFromBpfLocation l pt c) as [r c'] eqn:Er. exists c'. simpl in *. split; [|done]. f_equal.
  rewrite E. unfold symbol_of. by destruct (lookup_spec l pt Hs Hne) as [(s & _ & ->)|[_ ->]].
Qed.

Lemma callers_spec {C : Type} `{!LocationCache C, !LocationCacheLaws C} l (addrs : list Z) (c : C) :
  sorted l -> l ≠ [] -> cache_ok l c -> ∃ c', callers l addrs c = Some (omap (symbol_of l) addrs, c') ∧ cache_ok l c'.
Proof.
  intros Hs Hne. revert c. induction addrs as [|a addrs IH]; intros c Hc; [by exists c|]. cbn [callers omap list_omap].
  destruct (cached_symbol l a c Hs Hne Hc) as (c1 & -> & H1). destruct (IH c1 H1) as (c2 & E2 & H2).
  exists c2. destruct (symbol_of l a); [|done]. by rewrite E2.
Qed.

Lemma scan_cons pt s s' l :
  scan pt (s :: s' :: l) =
  if (start s <=? pt) && (pt <? start s') then Symbol (returned pt s) else scan pt (s' :: l).
Proof. cbn [scan]. destruct (start s <=? pt); [|done]. by destruct (pt <? start s'). Qed.

(** What the linear search finds. *)
Lemma scan_spec l pt s0 :
  strictly_sorted l -> last l = Some s0 -> pt < start s0 ->
  (∃ s, contains l pt s ∧ scan pt l = Symbol (returned pt s)) ∨
  ((∀ s, s ∈ l -> pt < start s) ∧ scan pt l = NotFound).
Proof.
  induction l as [|s l IH]; intros Hs Hl Hlt; [done|].
  assert (∀ x, x ∈ l -> start s < start x) as Hhead.
  { intros x [k Hk]%list_elem_of_lookup_1. by apply (Hs 0%nat (S k) s x); [lia|..]. }
  assert (strictly_sorted l) as Hs' by (intros i j a b Hij Ha Hb; by apply (Hs (S i) (S j)); [lia|..]).
  destruct l as [|s' l].
  - injection Hl as ->. cbn [scan]. destruct (Z.leb_spec (start s0) pt); [lia|]. right. split; [|done].
    intros x ->%list_elem_of_singleton. done.
  - rewrite scan_cons. rewrite last_cons_cons in Hl. destruct (IH Hs' Hl Hlt) as [(x & (Hx & Hle & Hmax) & E)|[Hnone E]]; rewrite E.
    + left. exists x. pose proof (Hhead x Hx). assert (start s' <= start x) as Hf.
      { apply elem_of_cons in Hx as [->|[k Hk]%list_elem_of_lookup_1]; [lia|].
        pose proof (Hs' 0%nat (S k) s' x ltac:(lia) eq_refl Hk). lia. }
      destruct (Z.ltb_spec pt (start s')); [lia|]. rewrite andb_false_r. split; [|done]. split_and!; [apply elem_of_cons; by right|done|].
      intros y [->|Hy]%elem_of_cons Hle'; [lia|]. by apply Hmax.
    + destruct (Z.leb_spec (start s) pt) as [Hc|Hc].
      * pose proof (Hnone s' ltac:(apply elem_of_cons; by left)). destruct (Z.ltb_spec pt (start s')); [|lia].
        left. exists s. split; [|done]. split_and!; [apply elem_of_cons; by left|done|].
        intros y [->|Hy]%elem_of_cons Hle'; [lia|]. pose proof (Hnone y Hy). lia.
      * right. split; [|done]. intros y [->|Hy]%elem_of_cons; [done|by apply Hnone].
Qed.

Lemma strictly_sorted_sorted l : strictly_sorted l -> sorted l.
Proof.
  intros Hs i j a b Hij Ha Hb. destruct (decide (i = j)) as [->|]; [replace a with b by congruence; lia|].
  pose proof (Hs i j a b ltac:(lia) Ha Hb). lia.
Qed.

Lemma strictly_sorted_inj l s s' : strictly_sorted l -> s ∈ l -> s' ∈ l -> start s = start s' -> s = s'.
Proof.
  intros Hs [i Hi]%list_elem_of_lookup_1 [j Hj]%list_elem_of_lookup_1 E.
  destruct (lt_eq_lt_dec i j) as [[H| ->]|H]; [|congruence|].
  - pose proof (Hs i j s s' H Hi Hj). lia.
  - pose proof (Hs j i s' s H Hj Hi). lia.
Qed.

Lemma table_elem (lines : list (list string)) (syms : list (option KernelSymbol)) s :
  mapM parse_line lines = Some syms ->
  (∃ line, line ∈ lines ∧ parse_line line = Some (Some s)) <-> s ∈ omap id syms.
Proof.
  intros Hm%mapM_Some. rewrite list_elem_of_omap. split.
  - intros (line & [k Hk]%list_elem_of_lookup_1 & E). destruct (Forall2_lookup_l _ _ _ _ _ Hm Hk) as (o & Ho & E').
    exists o. split; [by eapply list_elem_of_lookup_2|]. rewrite E in E'. by injection E' as <-.
  - intros (o & [k Hk]%list_elem_of_lookup_1 & E). destruct (Forall2_lookup_r _ _ _ _ _ Hm Hk) as (line & Hl & E').
    exists line. split; [by eapply list_elem_of_lookup_2|]. simpl in E. by rewrite E', E.
Qed.

Lemma hex_digit_char (d : Z) : 0 <= d < 16 -> hex_digit (hex_char d) = Some d.
Proof.
  intros Hd. assert (d ∈ [0;1;2;3;4;5;6;7;8;9;10;11;12;13;14;15]) as H.
  { rewrite !elem_of_cons. lia. }
  repeat (apply elem_of_cons in H as [->|H]; [done|]). by apply elem_of_nil in H.
Qed.

Lemma hex_upper_parse (fuel : nat) (n : Z) (tail : string) :
  0 <= n < 16 ^ Z.of_nat fuel -> n < 2 ^ 64 -> fuel ≠ 0%nat -> parse_hex 0 (hex_upper fuel n tail) = parse_hex n tail.
Proof.
  revert n tail. induction fuel as [|fuel IH]; intros n tail Hn H64 Hf; [done|]. cbn [hex_upper].
  pose proof (Z.div_mod n 16 ltac:(lia)). pose proof (Z.mod_pos_bound n 16 ltac:(lia)).
  destruct (Z.ltb_spec n 16) as [Hlt|Hge].
  - cbn [parse_hex]. rewrite hex_digit_char by lia. cbn [mbind option_bind]. rewrite Z.mod_small by lia.
    destruct (Z.ltb_spec (0 * 16 + n) (2 ^ 64)); [|lia]. f_equal; lia.
  - assert (n / 16 < 16 ^ Z.of_nat fuel) as Hd.
    { apply Z.div_lt_upper_bound; [lia|]. rewrite Nat2Z.inj_succ, Z.pow_succ_r in Hn by lia. lia. }
    rewrite IH; [|split; [apply Z.div_pos; lia|done]|apply Z.div_lt_upper_bound; lia|].
    + cbn [parse_hex]. rewrite hex_digit_char by lia. cbn [mbind option_bind].
      destruct (Z.ltb_spec (n / 16 * 16 + n mod 16) (2 ^ 64)); [|lia]. f_equal; lia.
    + intros ->. simpl in Hd. pose proof (Z.div_pos n 16). lia.
Qed.

Lemma hex_upper_cons (fuel : nat) (n : Z) (tail : string) : ∃ c s, hex_upper (S fuel) n tail = String c s.
Proof.
  revert n tail. induction fuel as [|fuel IH]; intros n tail; cbn [hex_upper]; destruct (n <? 16); try by eexists _, _.
  apply IH.
Qed.

(** The offset of a symbol that contains an address reads back. *)
Lemma hex_roundtrip (z : Z) : 0 <= z < 2 ^ 63 -> ParseUint16 (fmt_X z) = Some z.
Proof.
  intros Hz. unfold fmt_X. destruct (Z.ltb_spec z 0); [lia|]. unfold ParseUint16.
  pose proof (hex_upper_parse 16 z "" ltac:(change (16 ^ Z.of_nat 16) with (2 ^ 64); lia) ltac:(lia) ltac:(done)) as E.
  by destruct (hex_upper_cons 15 z "") as (c & s & Ec); rewrite Ec in *.
Qed.

(** ** Properties *)

(** C39: symbol lookup.  Let the table be read from the lines of
    /proc/kallsyms and sorted by any sorting function, and be non-empty.  Then
    after any sequence of lookups, whatever the cache kept of them, a lookup
    terminates without panic: it returns the symbol of a line with the
    greatest address not above the given one and the distance to it, or
    "not found" if every symbol lies above. *)
Theorem symbol_lookup {C : Type} `{!LocationCache C, !LocationCacheLaws C}
    (sort : list KernelSymbol -> list KernelSymbol) (lines : list (list string)) (table : list KernelSymbol)
    (c0 : C) (pts : list Z) pt
    (Hsort : ∀ l, sorted (sort l) ∧ sort l ≡ₚ l) (Htable : getAllSyms sort lines = Some table) (Hne : table ≠ [])
    (H0 : ∀ pt, cache_get c0 pt = None) :
  let found s := (∃ line, line ∈ lines ∧ parse_line line = Some (Some s)) in
  let r := (GetSymPtFromBpfLocation table pt (lookups table pts c0)).1 in
  (∃ s, found s ∧ start s <= pt ∧ (∀ s', found s' -> start s' <= pt -> start s' <= start s) ∧ r = Symbol (returned pt s)) ∨
  ((∀ s, found s -> pt < start s) ∧ r = NotFound).
Proof.
  cbv zeta. unfold getAllSyms in Htable. destruct (mapM parse_line lines) as [syms|] eqn:Em; [|done].
  injection Htable as <-. destruct (Hsort (omap id syms)) as [Hs Hperm].
  assert (∀ s, (∃ line, line ∈ lines ∧ parse_line line = Some (Some s)) <-> s ∈ sort (omap id syms)) as Hfound
    by (intros s; rewrite Hperm; by apply table_elem).
  rewrite (proj1 (cached_lookup (sort (omap id syms)) pt _ (lookups_ok _ pts c0 ltac:(intros ??; by rewrite H0)))).
  destruct (lookup_spec _ pt Hs Hne) as [(s & (Hin & Hle & Hmax) & ->)|[Hnone ->]].
  - left. exists s. rewrite Hfound. split_and!; [done|done| |done]. intros s' Hs'%Hfound. by apply Hmax.
  - right. split; [|done]. intros s Hs'%Hfound. by apply Hnone.
Qed.

(** The binary and the linear search agree.  On a table without
    duplicate addresses, for an address below the last symbol, the search of
    [GetSymPtFromBpfLocation] returns what the scan of [GetSymByPt] does. *)
Theorem symbol_lookup_linear l pt s0 (Hs : strictly_sorted l) (Hl : last l = Some s0) (Hlt : pt < start s0) :
  lookup_symbol l pt = GetSymByPt l pt.
Proof.
  unfold GetSymByPt. rewrite Hl. destruct (Z.ltb_spec (start s0) pt); [lia|].
  assert (l ≠ []) as Hne by (by intros ->).
  destruct (lookup_spec l pt (strictly_sorted_sorted l Hs) Hne) as [(s & (Hin & Hle & Hmax) & ->)|[Hnone ->]];
    destruct (scan_spec l pt s0 Hs Hl Hlt) as [(s' & (Hin' & Hle' & Hmax') & ->)|[Hnone' ->]].
  - f_equal. f_equal. apply (strictly_sorted_inj l); [done..|]. pose proof (Hmax s' Hin' Hle'). pose proof (Hmax' s Hin Hle). lia.
  - pose proof (Hnone' s Hin). lia.
  - pose proof (Hnone s' Hin'). lia.
  - done.
Qed.

(** If the table could not be read, the first lookup panics; so does the
    linear search at the address of the last symbol. *)
Theorem symbol_lookup_panics pt :
  lookup_symbol [] pt = Panic ∧
  ∀ l s, strictly_sorted (l ++ [s]) -> GetSymByPt (l ++ [s]) (start s) = Panic.
Proof.
  split; [done|]. intros l s Hs. unfold GetSymByPt. rewrite last_snoc. destruct (Z.ltb_spec (start s) (start s)); [lia|].
  induction l as [|x l IH].
  - cbn [app scan]. destruct (Z.leb_spec (start s) (start s)); [done|lia].
  - assert (strictly_sorted (l ++ [s])) as Hs' by (intros i j a b Hij Ha Hb; by apply (Hs (S i) (S j)); [lia|..]).
    destruct l as [|y l]; cbn [app] in *; rewrite scan_cons.
    + destruct (Z.ltb_spec (start s) (start s)); [lia|]. rewrite andb_false_r. by apply IH.
    + assert (start y < start s).
      { apply (Hs' 0%nat (S (length l)) y s); [lia|done|]. by apply list_lookup_middle. }
      destruct (Z.ltb_spec (start s) (start y)); [lia|]. rewrite andb_false_r. by apply IH.
Qed.

(** ** Examples *)

Definition by_start (a b : KernelSymbol) : Prop := start a <= start b.
#[local] Instance by_start_dec : RelDecision by_start.
Proof. intros a b. unfold by_start. apply _. Defined.
#[local] Instance by_start_total : Total by_start.
Proof. intros a b. unfold by_start. lia. Qed.
#[local] Instance by_start_trans : Transitive by_start.
Proof. intros a b c. unfold by_start. lia. Qed.

Definition demo_sort : list KernelSymbol -> list KernelSymbol := merge_sort by_start.

Lemma strongly_sorted l : StronglySorted by_start l -> sorted l.
Proof.
  induction 1 as [|x l _ IH Hx]; [done|]. rewrite Forall_lookup in Hx.
  intros [|i] [|j] a b Hij Ha Hb; simpl in *; simplify_eq; [lia|by apply (Hx j)|lia|]. by apply (IH i j); [lia|..].
Qed.

Lemma demo_sort_sorts l : sorted (demo_sort l) ∧ demo_sort l ≡ₚ l.
Proof. split; [apply strongly_sorted, StronglySorted_merge_sort; apply _|apply merge_sort_Permutation]. Qed.

(** A cache that keeps everything. *)
#[local] Instance demo_cache : LocationCache (gmap Z KernelSymbol) :=
  {| cache_get c k := c !! k; cache_add c k v := <[k := v]> c |}.
#[local] Instance demo_cache_laws : LocationCacheLaws (gmap Z KernelSymbol).
Proof. split. simpl. intros c k v k' w H. apply lookup_insert_Some in H. naive_solver. Qed.

Definition demo_lines : list (list string) :=
  [["ffff20"; "T"; "tcp_v4_rcv"]; ["ffff00"; "T"; "ip_rcv"]; ["ffff80"; "t"; "nf_hook_slow"; "[nf]"]]%string.
Definition demo_table : list KernelSymbol := default [] (getAllSyms demo_sort demo_lines).

Lemma symbol_lookup_witness :
  (GetSymPtFromBpfLocation demo_table 0xffff24 (lookups demo_table [0xffff24; 0xffff90] (∅ : gmap Z KernelSymbol))).1
  ≠ Panic.
Proof.
  destruct (symbol_lookup demo_sort demo_lines demo_table (∅ : gmap Z KernelSymbol) [0xffff24; 0xffff90] 0xffff24
    demo_sort_sorts) as [(s & _ & _ & _ & E)|[_ E]]; [vm_compute; done|vm_compute; done|done|..];
    by rewrite E.
Defined.

Lemma symbol_lookup_linear_witness : lookup_symbol demo_table 0xffff24 = GetSymByPt demo_table 0xffff24.
Proof.
  refine (symbol_lookup_linear demo_table 0xffff24 (MkSymbol 0xffff80 "t" "nf_hook_slow" "[nf]" 0) _ _ _).
  - intros [|[|[|i]]] [|[|[|j]]] a b Hij Ha Hb; try lia; vm_compute in Ha, Hb; simplify_eq; simpl; lia.
  - vm_compute. done.
  - vm_compute. done.
Defined.
End Kallsyms.
