(* ===== verification/AgentPacketLoss.v ===== *)
(** src/pkg/exporter/probe/tracepacketloss/packetloss.go: the agent's side of
    the packet loss probe (the lifecycle is also that of
    tracetcpretrans/tcpretrans.go).

    [Lifecycle]: a start reinstalls the BPF program with the current
    configurations; the perf goroutine runs beside it.  [Counters]: drop
    events are counted per protocol and address pair in a third-party LRU
    cache, a parameter with its laws, and the collector exports and expires
    the counters.  The drop locations are resolved by [Kallsyms].  The
    theorems say when the program is attached with which feature, what the
    exported counters add up to, and how the perf goroutine can crash. *)

From Stdlib Require Import Ascii.
From S2P Require Import Prelude KernelMem BpfMaps BpfRuntime Inspector FeatureSwitch SetTuple PacketLoss AgentLifecycle Kallsyms.

(** ** Starting and stopping *)

Module Lifecycle.

(** [packetLossProbe]: a configuration is its [enableStack]; the attached
    program is known by whether its stack feature is switched on. *)
Record packetLossProbe := MkProbe { probeConfig : per_type (option bool); bpf : bpf_side bool; sink : bool }.
Definition init : packetLossProbe := MkProbe (PerType None None) bpf_init false.

Definition probeCount (p : packetLossProbe) : nat :=
  length (omap id [of_metrics (probeConfig p); of_event (probeConfig p)]).

Definition enableStack (p : packetLossProbe) : bool :=
  match of_event (probeConfig p) with Some b => b | None => false end.

(** Closes the reader, forgets it, closes links and objects. *)
Definition cleanup (p : packetLossProbe) : packetLossProbe :=
  let b := close_reader (bpf p) in
  MkProbe (probeConfig p) (Bpf None None (open_readers b) (next_reader b)) (sink p).

Definition stop (t : ProbeType) (p : packetLossProbe) : bool * packetLossProbe :=
  match at_type (probeConfig p) t with
  | None => (true, p)
  | Some _ =>
      let p := MkProbe (set_type t None (probeConfig p)) (bpf p) (sink p) in
      (false, if (probeCount p =? 0)%nat then cleanup p else p)
  end.

(** The error and the state; [a] says whether [loadAndAttachBPF] and
    [perf.NewReader] succeed. *)
Definition reinstallBPFLocked (a : attempt) (p : packetLossProbe) : bool * packetLossProbe :=
  let p := cleanup p in
  if load_ok a then
    let p := MkProbe (probeConfig p) (new_reader (reader_ok a) (attach (enableStack p) (bpf p))) (sink p) in
    if reader_ok a then (false, p) else (true, cleanup p)
  else (true, cleanup p).

Definition start (a : attempt) (t : ProbeType) (cfg : bool) (p : packetLossProbe) : bool * packetLossProbe :=
  match at_type (probeConfig p) t with
  | Some _ => (true, p)
  | None => reinstallBPFLocked a (MkProbe (set_type t (Some cfg) (probeConfig p)) (bpf p) (sink p))
  end.

(** [metricsProbe.Start] passes a configuration without stacks;
    [eventProbe.Start] also sets the sink. *)
Definition Start (a : attempt) (t : ProbeType) (cfg : bool) (p : packetLossProbe) : bool * packetLossProbe :=
  match t with
  | ProbeTypeMetrics => start a t false p
  | ProbeTypeEvent =>
      let '(err, p) := start a t cfg p in
      if err then (true, p) else (false, MkProbe (probeConfig p) (bpf p) true)
  end.

Inductive op := DoStart (a : attempt) (t : ProbeType) (cfg : bool) | DoStop (t : ProbeType).
Definition exec (o : op) (p : packetLossProbe) : bool * packetLossProbe :=
  match o with DoStart a t cfg => Start a t cfg p | DoStop t => stop t p end.
Definition run : list op -> packetLossProbe -> list bool * packetLossProbe := run_all exec.

(** ** The perf goroutine

    [perfLoop] evaluates [p.perfReader.Read()] again in every round, without
    the probe's lock.  A goroutine is about to do so, blocked in the [Read] of
    one reader, or has returned; calling [Read] on a nil reader panics. *)
Inductive goroutine := AtTop | Reading (r : nat) | Returned.

Record process := Process { probe : packetLossProbe; loops : list goroutine; panicked : bool }.
Definition start_process : process := Process init [] false.

Inductive step : process -> process -> Prop :=
  | step_op o s p' :
      exec o (probe s) = (false, p') ->
      step s (Process p' (loops s ++ match o with DoStart _ _ _ => [AtTop] | DoStop _ => [] end) (panicked s))
  | step_error o s p' :
      exec o (probe s) = (true, p') -> step s (Process p' (loops s) (panicked s))
  | step_read g s r :
      loops s !! g = Some AtTop -> perfReader (bpf (probe s)) = Some r ->
      step s (Process (probe s) (<[g := Reading r]> (loops s)) (panicked s))
  | step_nil g s :
      loops s !! g = Some AtTop -> perfReader (bpf (probe s)) = None ->
      step s (Process (probe s) (loops s) true)
  | step_event g s r :
      loops s !! g = Some (Reading r) -> r ∈ open_readers (bpf (probe s)) ->
      step s (Process (probe s) (<[g := AtTop]> (loops s)) (panicked s))
  | step_closed g s r :
      loops s !! g = Some (Reading r) -> r ∉ open_readers (bpf (probe s)) ->
      step s (Process (probe s) (<[g := Returned]> (loops s)) (panicked s)).

End Lifecycle.

(** ** Counting *)

Module Counters.

Record Counter := MkCounter { lastUpdate : Z; snatched : bool; Total : Z; Netfilter : Z }.
Definition zero_counter : Counter := MkCounter 0 false 0 0.

(** [cacheKey]: protocol, source and destination. *)
Definition cacheKey : Type := Z * string * string.

(** [lru.Cache]; a [*Counter] that was taken from the cache and is written
    through is [cache_modify]. *)
Class Lru (C : Type) := {
  cache_get : C -> cacheKey -> option Counter * C;
  cache_add : C -> cacheKey -> Counter -> C;
  cache_modify : C -> cacheKey -> (Counter -> Counter) -> C;
  cache_remove : C -> cacheKey -> C;
  cache_keys : C -> list cacheKey;
}.

(** The cache keeps up to [capacity] entries; adding a new key to a full cache
    evicts others. *)
Definition capacity : nat := N.to_nat 10240.
Class LruLaws (C : Type) `{!Lru C} := {
  elems : C -> gmap cacheKey Counter;
  get_value c k : (cache_get c k).1 = elems c !! k;
  get_elems c k : elems (cache_get c k).2 = elems c;
  add_elems c k v :
    is_Some (elems c !! k) ∨ (size (elems c) < capacity)%nat -> elems (cache_add c k v) = <[k := v]> (elems c);
  modify_elems c k f : elems (cache_modify c k f) = alter f k (elems c);
  remove_elems c k : elems (cache_remove c k) = delete k (elems c);
  keys_elems c k : k ∈ cache_keys c <-> is_Some (elems c !! k);
  keys_NoDup c : NoDup (cache_keys c);
}.

Definition uselessSymbols : list string :=
  ["sk_stream_kill_queues"; "unix_release_sock"; "nfnetlink_rcv_batch"; "skb_queue_purge"]%string.
Definition netfilterSymbol : string := "nf_hook_slow".
Definition newline : string := String (Ascii.ascii_of_nat 10) "".

Definition ignoreSymbolList : list string := [].

(** What the agent's surroundings are when a record is read: the times of the
    counter's update and of the event, [enableStack()], the stack map, and
    whether there is a sink. *)
Record context := Context_ { now : Z; event_time : Z; stack_on : bool; stackmap : Z -> option (list Z); has_sink : bool }.

(** [probe.Event]: its time, its tuple (protocol, addresses, ports) and its
    message. *)
Record Event := MkEvent { Timestamp : Z; event_tuple : cacheKey * (Z * Z); Message : string }.

Section agent.
Context {LC C : Type} `{!Kallsyms.LocationCache LC, !Lru C}.
(** The symbol table, and [GetAddrStr]. *)
Context (kallsyms : list Kallsyms.KernelSymbol) (GetAddrStr : Z -> list Z -> string).

(** The location cache and the counters. *)
Definition state : Type := LC * C.

(** The name at a location: the outer [None] is a panic, the inner an error. *)
Definition symbol_name (loc : Z) (lc : LC) : option (option string * LC) :=
  let '(r, lc) := Kallsyms.GetSymPtFromBpfLocation kallsyms loc lc in
  match r with
  | Kallsyms.Symbol sym => Some (Some (Kallsyms.symbol sym), lc)
  | Kallsyms.NotFound => Some (None, lc)
  | Kallsyms.Panic => None
  end.

Definition ignoreLocation (loc : Z) (lc : LC) : option (bool * LC) :=
  '(sym, lc) ← symbol_name loc lc;
  Some (match sym with Some name => bool_decide (name ∈ uselessSymbols) | None => false end, lc).

Definition toProbeTuple (t : tuple) : cacheKey * (Z * Z) :=
  ((l4_proto t, GetAddrStr (l3_proto t) (saddr t), GetAddrStr (l3_proto t) (daddr t)), (sport t, dport t)).

(** The change to the counter. *)
Definition countByLocation (loc : Z) (lc : LC) : option ((Counter -> Counter) * LC) :=
  '(sym, lc) ← symbol_name loc lc;
  Some (if bool_decide (sym = Some netfilterSymbol)
        then λ counter, MkCounter (lastUpdate counter) (snatched counter) (Total counter) (u32 (Netfilter counter + 1))
        else id, lc).

Definition add2Cache (now loc : Z) (key : cacheKey) (s : state) : option state :=
  let '(lc, c) := s in
  let '(v, c) := cache_get c key in
  let c := match v with Some _ => c | None => cache_add c key zero_counter end in
  let c := cache_modify c key (λ v, MkCounter (lastUpdate v) (snatched v) (u32 (Total v + 1)) (Netfilter v)) in
  '(f, lc) ← countByLocation loc lc;
  let c := cache_modify c key f in
  Some (lc, cache_modify c key (λ v, MkCounter now false (Total v) (Netfilter v))).

(** The message of the event; [Some None] if the event is given up. *)
Definition message (x : context) (stack_id : Z) (lc : LC) : option (option string * LC) :=
  if stack_on x then
    '(stacks, lc) ← Kallsyms.GetSymsByStack kallsyms (stackmap x) (u32 stack_id) lc;
    Some (match stacks with
          | None => None
          | Some stacks =>
              if existsb (λ sym, bool_decide (Kallsyms.symbol sym ∈ ignoreSymbolList)) stacks then None
              else Some (String.concat newline (Kallsyms.GetExpr <$> stacks))
          end, lc)
  else Some (Some ""%string, lc).

(** [perfLoop] on a decoded record: the event sent, if any, and the state. *)
Definition perf_record (x : context) (ev : PacketLoss.insp_pl_event_t) (s : state) : option (option Event * state) :=
  let '(lc, c) := s in
  '(ignore, lc) ← ignoreLocation (PacketLoss.ev_location ev) lc;
  if ignore : bool then Some (None, (lc, c))
  else
    let tuple := toProbeTuple (PacketLoss.ev_tuple ev) in
    '(lc, c) ← add2Cache (now x) (PacketLoss.ev_location ev) tuple.1 (lc, c);
    '(msg, lc) ← message x (PacketLoss.stack_id ev) lc;
    Some (match msg with
          | Some msg => if has_sink x then Some (MkEvent (event_time x) tuple msg) else None
          | None => None
          end, (lc, c)).

(** One key of [collectOnce]: the samples emitted for it, and the cache. *)
Definition collect_key (now : Z) (key : cacheKey) (c : C) : list (cacheKey * (Z * Z)) * C :=
  let '(v, c) := cache_get c key in
  match v with
  | None => ([], c)
  | Some counter =>
      if (now - lastUpdate counter >? 30 * 1000000000) && snatched counter
      then ([(key, (0, 0))], cache_remove c key)
      else ([(key, (Total counter, Netfilter counter))],
            cache_modify c key (λ v, MkCounter (lastUpdate v) true (Total v) (Netfilter v)))
  end.

Fixpoint collect_keys (now : cacheKey -> Z) (keys : list cacheKey) (c : C) : list (cacheKey * (Z * Z)) * C :=
  match keys with
  | [] => ([], c)
  | key :: keys' =>
      let '(out, c) := collect_key (now key) key c in
      let '(outs, c) := collect_keys now keys' c in (out ++ outs, c)
  end.
(** [now] is the time at which the loop comes to a key. *)
Definition collectOnce (now : cacheKey -> Z) (c : C) : list (cacheKey * (Z * Z)) * C := collect_keys now (cache_keys c) c.

(** A history of records and scrapes: the events sent, the samples of the
    scrapes one after the other, and the state; [None] is a panic. *)
Inductive op := Drop (x : context) (ev : PacketLoss.insp_pl_event_t) | Scrape (now : cacheKey -> Z).
Fixpoint run (ops : list op) (s : state) : option (list Event * list (cacheKey * (Z * Z)) * state) :=
  match ops with
  | [] => Some ([], [], s)
  | Drop x ev :: ops' =>
      '(sent, s) ← perf_record x ev s;
      '(events, samples, s) ← run ops' s; Some ((match sent with Some e => [e] | None => [] end) ++ events, samples, s)
  | Scrape now :: ops' =>
      let '(out, c) := collectOnce now s.2 in
      '(events, samples, s) ← run ops' (s.1, c); Some (events, out ++ samples, s)
  end.
End agent.

End Counters.

(** ** Lemmas on starting and stopping *)

Section lifecycle_lemmas.
Import Lifecycle.
Implicit Types (p : packetLossProbe) (t : ProbeType).

(** In service: while a probe is started the program is attached, with stacks
    if the event probe wants them, and its reader is the only open one; else
    nothing is left. *)
Definition serving p : Prop :=
  match probeCount p with
  | O => attached (bpf p) = None ∧ perfReader (bpf p) = None ∧ open_readers (bpf p) = ∅
  | S _ => ∃ stack r, attached (bpf p) = Some stack ∧ (enableStack p = true -> stack = true) ∧
             perfReader (bpf p) = Some r ∧ open_readers (bpf p) = {[r]}
  end.

(** No reader but the current one is open. *)
Definition no_leak p : Prop := open_readers (bpf p) = match perfReader (bpf p) with Some r => {[r]} | None => ∅ end.

Definition start_ok (o : op) : Prop := match o with DoStart a _ _ => a = both_ok | DoStop _ => True end.

Lemma serving_no_leak p : serving p -> no_leak p.
Proof. unfold serving, no_leak. destruct (probeCount p); [by intros (_ & -> & ->)|by intros (? & ? & _ & _ & -> & ->)]. Qed.

Lemma cleanup_empty p :
  no_leak p -> attached (bpf (cleanup p)) = None ∧ perfReader (bpf (cleanup p)) = None ∧ open_readers (bpf (cleanup p)) = ∅.
Proof.
  unfold no_leak, cleanup, close_reader. simpl. intros ->. split_and!; [done..|].
  destruct (perfReader (bpf p)); [set_solver|done].
Qed.

Lemma probeCount_set t (cfg : bool) p :
  ∃ n, probeCount (MkProbe (set_type t (Some cfg) (probeConfig p)) (bpf p) (sink p)) = S n.
Proof. destruct p as [[m e] b s], t; simpl; [by eexists|]. destruct m; by eexists. Qed.

Lemma reinstall_serving p : no_leak p -> probeCount p ≠ 0%nat -> serving (reinstallBPFLocked both_ok p).2.
Proof.
  intros (Ha & Hr & Ho)%cleanup_empty Hc. unfold reinstallBPFLocked. cbn [load_ok reader_ok both_ok].
  unfold serving, probeCount. cbn [snd probeConfig]. change (probeConfig (cleanup p)) with (probeConfig p).
  change (length (omap id _)) with (probeCount p). destruct (probeCount p); [done|].
  exists (enableStack p), (next_reader (bpf (cleanup p))). split_and!; [done|done|done|].
  cbn [bpf new_reader attach open_readers next_reader]. rewrite Ho. set_solver.
Qed.

(** A failed installation leaves nothing attached and nothing open. *)
Lemma reinstall_fails (a : attempt) p :
  no_leak p -> load_ok a && reader_ok a = false ->
  (reinstallBPFLocked a p).1 = true ∧ probeConfig (reinstallBPFLocked a p).2 = probeConfig p ∧
  attached (bpf (reinstallBPFLocked a p).2) = None ∧ perfReader (bpf (reinstallBPFLocked a p).2) = None ∧
  open_readers (bpf (reinstallBPFLocked a p).2) = ∅.
Proof.
  intros Hl Hf. pose proof (cleanup_empty p Hl) as (Ha & Hr & Ho).
  destruct a as [[] []]; [done|unfold reinstallBPFLocked; simpl in *; by rewrite ?Ho..].
Qed.

Lemma exec_serving (o : op) p : start_ok o -> serving p -> serving (exec o p).2.
Proof.
  intros Ho Hp. assert (∀ t cfg, serving (start both_ok t cfg p).2) as Hstart.
  { intros t cfg. unfold start. destruct (at_type (probeConfig p) t); [done|]. apply reinstall_serving.
    - by apply (serving_no_leak p).
    - destruct (probeCount_set t cfg p) as [n ->]. done. }
  destruct o as [a t cfg|t]; cbn [exec start_ok] in *.
  - subst a. unfold Start. destruct t; [apply Hstart|].
    specialize (Hstart ProbeTypeEvent cfg). by destruct (start both_ok ProbeTypeEvent cfg p) as [[] q].
  - unfold stop. destruct (at_type (probeConfig p) t) as [cfg|] eqn:E; [|done]. cbn [snd].
    set (q := MkProbe _ _ _). assert (no_leak q) as Hq by (by apply (serving_no_leak p)).
    destruct (probeCount q) as [|n] eqn:Ec; simpl.
    + unfold serving. change (probeCount (cleanup q)) with (probeCount q). rewrite Ec. by apply cleanup_empty.
    + unfold serving in *. rewrite Ec. destruct p as [[m e] b s], t, m, e; simpl in *; try done;
        destruct Hp as (stack & r & H1 & H2 & H3 & H4); exists stack, r; by split_and!.
Qed.

(** Whatever fails, no reader leaks. *)
Lemma exec_no_leak (o : op) p : no_leak p -> no_leak (exec o p).2.
Proof.
  intros Hp. assert (∀ a t cfg, no_leak (start a t cfg p).2) as Hstart.
  { intros a t cfg. unfold start. destruct (at_type (probeConfig p) t); [done|]. set (q := MkProbe _ _ _).
    destruct (load_ok a && reader_ok a) eqn:Ea.
    - replace a with both_ok by (by destruct a as [[] []]). apply serving_no_leak, reinstall_serving; [done|].
      unfold q. destruct (probeCount_set t cfg p) as [n ->]. done.
    - destruct (reinstall_fails a q Hp Ea) as (_ & _ & _ & Hr & Ho). unfold no_leak. by rewrite Hr, Ho. }
  destruct o as [a t cfg|t]; cbn [exec].
  - unfold Start. destruct t; [apply Hstart|].
    specialize (Hstart a ProbeTypeEvent cfg). by destruct (start a ProbeTypeEvent cfg p) as [[] q].
  - unfold stop. destruct (at_type (probeConfig p) t); [|done]. cbn [snd]. destruct (_ =? _)%nat; [|done].
    unfold no_leak. by destruct (cleanup_empty _ (Hp : no_leak (MkProbe (set_type t None (probeConfig p)) (bpf p) (sink p)))) as (_ & -> & ->).
Qed.

Lemma run_no_leak (os : list op) : no_leak (run os init).2.
Proof. apply (run_all_invariant exec (λ _, True) no_leak); [intros; by apply exec_no_leak|by apply Forall_true|done]. Qed.
End lifecycle_lemmas.

(** ** What the counters should be *)

Section specification.
Import Counters.
Context (kallsyms : list Kallsyms.KernelSymbol) (GetAddrStr : Z -> list Z -> string).

(** The name at a location. *)
Definition name_of (loc : Z) : option string := Kallsyms.symbol <$> Kallsyms.symbol_of kallsyms loc.

(** Drops that count, with their key, and drops made by netfilter. *)
Definition counted (ev : PacketLoss.insp_pl_event_t) : bool :=
  match name_of (PacketLoss.ev_location ev) with
  | Some name => negb (bool_decide (name ∈ uselessSymbols))
  | None => true
  end.
Definition event_key (ev : PacketLoss.insp_pl_event_t) : cacheKey := (toProbeTuple GetAddrStr (PacketLoss.ev_tuple ev)).1.
Definition by_netfilter (ev : PacketLoss.insp_pl_event_t) : bool :=
  bool_decide (name_of (PacketLoss.ev_location ev) = Some netfilterSymbol).

(** The drops with a key in a history ([nf]: only those by netfilter). *)
Definition counts (nf : bool) (k : cacheKey) (o : op) : bool :=
  match o with
  | Drop _ ev => counted ev && bool_decide (event_key ev = k) && (negb nf || by_netfilter ev)
  | Scrape _ => false
  end.
Definition drops (nf : bool) (k : cacheKey) (ops : list op) : Z := Z.of_nat (length (filter (λ o, counts nf k o = true) ops)).

(** The event of a drop. *)
Definition message_of (x : context) (stack_id : Z) : option string :=
  if stack_on x then
    (λ addrs, String.concat newline (Kallsyms.GetExpr <$> omap (Kallsyms.symbol_of kallsyms) addrs)) <$> stackmap x (u32 stack_id)
  else Some ""%string.
Definition event_of (o : op) : option Event :=
  match o with
  | Drop x ev =>
      if counted ev && has_sink x
      then MkEvent (event_time x) (toProbeTuple GetAddrStr (PacketLoss.ev_tuple ev)) <$> message_of x (PacketLoss.stack_id ev)
      else None
  | Scrape _ => None
  end.

(** The keys a history counts. *)
Definition keys_of (ops : list op) : gset cacheKey :=
  list_to_set (omap (λ o, match o with Drop _ ev => if counted ev then Some (event_key ev) else None | Scrape _ => None end) ops).
End specification.

(** *** From the kernel to the consumer *)

(** A packet dropped in the kernel, with the state of the agent when it reads
    the record; or a scrape. *)
Record kernel_drop := KernelDrop {
  at_env : env; at_args : PacketLoss.kfree_skb_args; frame : ipv4_frame; at_head : Z; at_l3 : Z; agent : Counters.context;
}.
Inductive happening := Dropped (d : kernel_drop) | Scraped (t : Counters.cacheKey -> Z).

(** The packet in memory is the frame. *)
Definition dropped_ok `{KernelLayout} (d : kernel_drop) : Prop :=
  wf_frame (frame d) ∧
  skb_at (kmem (at_env d)) (PacketLoss.skb (at_args d)) (at_head d) (at_l3 d) (at_l3 d + 4 * f_ihl (frame d)) (emit4 (frame d)).

(** What the agent sees of it: the records the BPF program puts out. *)
Definition ops_of `{KernelLayout} {MF : Type} `{!BpfMap MF Z Z} (feat : MF) (h : happening) : list Counters.op :=
  match h with
  | Dropped d => Counters.Drop (agent d) <$> (PacketLoss.handler (at_args d) (at_env d) feat).2
  | Scraped t => [Counters.Scrape t]
  end.

(** The drops of packets of a protocol between two addresses, outside the
    ignored functions ([nf]: inside netfilter). *)
Definition lost (kallsyms : list Kallsyms.KernelSymbol) (GetAddrStr : Z -> list Z -> string) (nf : bool)
    (k : Counters.cacheKey) (h : happening) : bool :=
  match h with
  | Dropped d =>
      let f := frame d in
      let name := name_of kallsyms (PacketLoss.location (at_args d)) in
      match name with Some n => negb (bool_decide (n ∈ Counters.uselessSymbols)) | None => true end
      && bool_decide ((f_proto f, GetAddrStr ETH_P_IP (f_src f ++ replicate 12 0), GetAddrStr ETH_P_IP (f_dst f ++ replicate 12 0)) = k)
      && (negb nf || bool_decide (name = Some Counters.netfilterSymbol))
  | Scraped _ => false
  end.
Definition losses (kallsyms : list Kallsyms.KernelSymbol) (GetAddrStr : Z -> list Z -> string) (nf : bool)
    (k : Counters.cacheKey) (hs : list happening) : Z :=
  Z.of_nat (length (filter (λ h, lost kallsyms GetAddrStr nf k h = true) hs)).

(** The samples of a key. *)
Definition samples_of (k : Counters.cacheKey) (samples : list (Counters.cacheKey * (Z * Z))) : list (Z * Z) :=
  omap (λ s, if bool_decide (s.1 = k) then Some s.2 else None) samples.

(** What a consumer of a counter (Prometheus' [increase]) adds up from its
    samples: the differences, where a smaller value is a restart from zero. *)
Fixpoint consumed (last : Z) (vs : list Z) : Z :=
  match vs with
  | [] => 0
  | v :: vs' => (if v <? last then v else v - last) + consumed v vs'
  end.

(** ** Lemmas on the counters *)

Section counter_lemmas.
Import Counters.
Context {LC C : Type} `{!Kallsyms.LocationCache LC, !Kallsyms.LocationCacheLaws LC, !Lru C, !LruLaws C}.
Context (kallsyms : list Kallsyms.KernelSymbol) (GetAddrStr : Z -> list Z -> string).
Context (Hsorted : Kallsyms.sorted kallsyms) (Hne : kallsyms ≠ []).
Implicit Types (lc : LC) (c : C) (k : cacheKey) (v : Counter) (ops : list op).

Notation key_of := (event_key GetAddrStr).
Notation counted := (counted kallsyms).
Notation name_of := (name_of kallsyms).
Notation run := (run kallsyms GetAddrStr).

Lemma symbol_name_spec (loc : Z) lc :
  Kallsyms.cache_ok kallsyms lc ->
  ∃ lc', symbol_name kallsyms loc lc = Some (name_of loc, lc') ∧ Kallsyms.cache_ok kallsyms lc'.
Proof.
  intros Hlc. destruct (Kallsyms.cached_symbol kallsyms loc lc Hsorted Hne Hlc) as (lc' & E & H').
  exists lc'. split; [|done]. unfold symbol_name, AgentPacketLoss.name_of. rewrite E. by destruct (Kallsyms.symbol_of kallsyms loc).
Qed.

Lemma message_spec (x : context) (id : Z) lc :
  Kallsyms.cache_ok kallsyms lc ->
  ∃ lc', message kallsyms x id lc = Some (message_of kallsyms x id, lc') ∧ Kallsyms.cache_ok kallsyms lc'.
Proof.
  intros Hlc. unfold message, message_of, Kallsyms.GetSymsByStack. destruct (stack_on x); [|by exists lc].
  destruct (stackmap x (u32 id)) as [addrs|]; [|by exists lc].
  destruct (Kallsyms.callers_spec kallsyms addrs lc Hsorted Hne Hlc) as (lc' & -> & H'). exists lc'. split; [|done].
  cbn [mbind option_bind]. destruct (existsb _ _) eqn:E; [|done].
  apply existsb_exists in E as (s & _ & Hs%bool_decide_eq_true). by apply elem_of_nil in Hs.
Qed.

(** A counted drop on its counter. *)
Definition bump (x : context) (ev : PacketLoss.insp_pl_event_t) v : Counter :=
  MkCounter (now x) false (u32 (Total v + 1))
    (if by_netfilter kallsyms ev then u32 (Netfilter v + 1) else Netfilter v).

Lemma add2Cache_spec (x : context) (ev : PacketLoss.insp_pl_event_t) k lc c :
  Kallsyms.cache_ok kallsyms lc -> is_Some (elems c !! k) ∨ (size (elems c) < capacity)%nat ->
  ∃ lc' c', add2Cache kallsyms (now x) (PacketLoss.ev_location ev) k (lc, c) = Some (lc', c') ∧
    Kallsyms.cache_ok kallsyms lc' ∧ elems c' = <[k := bump x ev (default zero_counter (elems c !! k))]> (elems c).
Proof.
  intros Hlc Hcap. unfold add2Cache, countByLocation.
  pose proof (get_value c k) as Hv. pose proof (get_elems c k) as He. destruct (cache_get c k) as [w c1]. simpl in Hv, He. subst w.
  set (c2 := match elems c !! k with Some _ => c1 | None => _ end).
  assert (elems c2 = <[k := default zero_counter (elems c !! k)]> (elems c)) as E2.
  { unfold c2. destruct (elems c !! k) as [v|] eqn:Ek; simpl; [by rewrite He, insert_id|].
    rewrite add_elems by (rewrite He; destruct Hcap as [[? ?]|]; [congruence|by right]). by rewrite He. }
  destruct (symbol_name_spec (PacketLoss.ev_location ev) lc Hlc) as (lc' & -> & H'). cbn [mbind option_bind].
  eexists lc', _. split_and!; [done|done|]. rewrite !modify_elems, E2, !alter_insert_eq. unfold bump, by_netfilter.
  by destruct (bool_decide _).
Qed.

Lemma perf_record_spec (x : context) (ev : PacketLoss.insp_pl_event_t) lc c :
  Kallsyms.cache_ok kallsyms lc ->
  (counted ev = true -> is_Some (elems c !! key_of ev) ∨ (size (elems c) < capacity)%nat) ->
  ∃ lc' c', perf_record kallsyms GetAddrStr x ev (lc, c) = Some (event_of kallsyms GetAddrStr (Drop x ev), (lc', c')) ∧
    Kallsyms.cache_ok kallsyms lc' ∧
    elems c' = if counted ev then <[key_of ev := bump x ev (default zero_counter (elems c !! key_of ev))]> (elems c)
               else elems c.
Proof.
  intros Hlc Hcap. unfold perf_record, ignoreLocation, event_of.
  destruct (symbol_name_spec (PacketLoss.ev_location ev) lc Hlc) as (lc1 & -> & H1). cbn [mbind option_bind].
  replace (match name_of (PacketLoss.ev_location ev) with Some name => bool_decide (name ∈ uselessSymbols) | None => false end)
    with (negb (counted ev)) by (unfold AgentPacketLoss.counted; destruct (name_of _); [apply negb_involutive|done]).
  destruct (counted ev); cbn [negb andb]; [|by exists lc1, c].
  destruct (add2Cache_spec x ev (key_of ev) lc1 c H1 (Hcap eq_refl)) as (lc2 & c2 & E2 & H2 & He).
  unfold event_key in *. rewrite E2. cbn [mbind option_bind].
  destruct (message_spec x (PacketLoss.stack_id ev) lc2 H2) as (lc3 & -> & H3). cbn [mbind option_bind].
  exists lc3, c2. split_and!; [|done|done]. destruct (message_of kallsyms x _), (has_sink x); done.
Qed.

(** A scrape on a counter: what it shows, and what it leaves. *)
Definition stale (now : Z) v : bool := (now - lastUpdate v >? 30 * 1000000000) && snatched v.
Definition shown (now : Z) v : Z * Z := if stale now v then (0, 0) else (Total v, Netfilter v).
Definition kept (now : Z) v : option Counter :=
  if stale now v then None else Some (MkCounter (lastUpdate v) true (Total v) (Netfilter v)).

Lemma samples_of_app k (a b : list (cacheKey * (Z * Z))) : samples_of k (a ++ b) = samples_of k a ++ samples_of k b.
Proof. apply omap_app. Qed.

Lemma collect_key_spec (t : Z) k c :
  let '(out, c') := collect_key t k c in
  elems c' = match elems c !! k with Some v => partial_alter (λ _, kept t v) k (elems c) | None => elems c end ∧
  ∀ k', samples_of k' out = if decide (k' = k) then option_list (shown t <$> elems c !! k) else [].
Proof.
  unfold collect_key. pose proof (get_value c k) as Hv. pose proof (get_elems c k) as He.
  destruct (cache_get c k) as [w c1]. simpl in Hv, He. subst w.
  destruct (elems c !! k) as [v|] eqn:Ek; [|split; [done|intros k'; by destruct (decide _)]].
  unfold kept, shown. cbn [fmap option_fmap option_map]. change ((_ >? _) && _) with (stale t v). destruct (stale t v).
  all: split; [|intros k'; unfold samples_of; cbn [omap list_omap fst snd]; destruct (decide (k' = k)) as [->|];
    [by rewrite bool_decide_eq_true_2|by rewrite bool_decide_eq_false_2]].
  - by rewrite remove_elems, He.
  - rewrite modify_elems, He. apply map_eq. intros k'. destruct (decide (k' = k)) as [->|].
    + by rewrite lookup_alter_eq, lookup_partial_alter_eq, Ek.
    + by rewrite lookup_alter_ne, lookup_partial_alter_ne.
Qed.

Lemma collect_keys_spec (t : cacheKey -> Z) (keys : list cacheKey) c :
  NoDup keys ->
  let '(out, c') := collect_keys t keys c in
  ∀ k, elems c' !! k = (if decide (k ∈ keys) then elems c !! k ≫= kept (t k) else elems c !! k) ∧
       samples_of k out = if decide (k ∈ keys) then option_list (shown (t k) <$> elems c !! k) else [].
Proof.
  intros Hnd. revert c. induction Hnd as [|k0 keys Hk0 _ IH]; intros c; cbn [collect_keys].
  { intros k. by destruct (decide (k ∈ [])) as [?%elem_of_nil|]. }
  pose proof (collect_key_spec (t k0) k0 c) as H1. destruct (collect_key (t k0) k0 c) as [out c1]. destruct H1 as [He Hs].
  specialize (IH c1). destruct (collect_keys t keys c1) as [outs c2]. intros k. destruct (IH k) as [He2 Hs2].
  rewrite samples_of_app, Hs, Hs2, He2. destruct (decide (k = k0)) as [->|Hk].
  - destruct (decide (k0 ∈ keys)) as [|_]; [done|]. destruct (decide (k0 ∈ k0 :: keys)) as [_|[]]; [|set_solver].
    rewrite app_nil_r. split; [|done].
    rewrite He. destruct (elems c !! k0) eqn:E; simpl; [by rewrite lookup_partial_alter_eq|done].
  - assert (elems c1 !! k = elems c !! k) as ->.
    { rewrite He. destruct (elems c !! k0); [by rewrite lookup_partial_alter_ne|done]. }
    by destruct (decide (k ∈ keys)), (decide (k ∈ k0 :: keys)); try set_solver.
Qed.

Lemma collectOnce_spec (t : cacheKey -> Z) c :
  let '(out, c') := collectOnce t c in
  ∀ k, elems c' !! k = elems c !! k ≫= kept (t k) ∧ samples_of k out = option_list (shown (t k) <$> elems c !! k).
Proof.
  unfold collectOnce. pose proof (collect_keys_spec t (cache_keys c) c (keys_NoDup c)) as H1.
  destruct (collect_keys t (cache_keys c) c) as [out c']. intros k. destruct (H1 k) as [He Hs]. rewrite He, Hs.
  destruct (decide (k ∈ cache_keys c)) as [_|Hk]; [done|].
  destruct (elems c !! k) eqn:E; [|done]. destruct Hk. apply keys_elems. by rewrite E.
Qed.

(** The history of one key on its own: its samples and its counter. *)
Fixpoint key_run k ops (v : option Counter) : list (Z * Z) * option Counter :=
  match ops with
  | [] => ([], v)
  | Drop x ev :: ops' =>
      key_run k ops' (if counted ev && bool_decide (key_of ev = k) then Some (bump x ev (default zero_counter v)) else v)
  | Scrape t :: ops' => let '(vs, v') := key_run k ops' (v ≫= kept (t k)) in (option_list (shown (t k) <$> v) ++ vs, v')
  end.

(** The keys stay within the capacity, so nothing is evicted. *)
Lemma cache_room c k (K : gset cacheKey) :
  dom (elems c) ⊆ K -> k ∈ K -> (size K <= capacity)%nat -> is_Some (elems c !! k) ∨ (size (elems c) < capacity)%nat.
Proof.
  intros Hd Hk Hcap. destruct (elems c !! k) eqn:E; [by left; eexists|]. right.
  apply not_elem_of_dom in E. pose proof (subseteq_size ({[k]} ∪ dom (elems c)) K ltac:(set_solver)) as Hs.
  rewrite size_union, size_singleton, size_dom in Hs by set_solver. lia.
Qed.

Lemma keys_of_cons (o : op) ops :
  keys_of kallsyms GetAddrStr (o :: ops) =
  match o with Drop _ ev => if counted ev then {[key_of ev]} else ∅ | Scrape _ => ∅ end ∪ keys_of kallsyms GetAddrStr ops.
Proof. unfold keys_of. destruct o as [x ev|t]; simpl; [destruct (counted ev)|]; set_solver. Qed.

(** The agent runs every key's history. *)
Lemma run_spec ops (K : gset cacheKey) lc c :
  Kallsyms.cache_ok kallsyms lc -> dom (elems c) ⊆ K -> keys_of kallsyms GetAddrStr ops ⊆ K -> (size K <= capacity)%nat ->
  ∃ samples lc' c', run ops (lc, c) = Some (omap (event_of kallsyms GetAddrStr) ops, samples, (lc', c')) ∧
    ∀ k, key_run k ops (elems c !! k) = (samples_of k samples, elems c' !! k).
Proof.
  intros Hlc Hd HK Hcap. revert lc c Hlc Hd. induction ops as [|o ops IH]; intros lc c Hlc Hd; [by exists [], lc, c|].
  rewrite keys_of_cons in HK. apply union_subseteq in HK as [Ho HK]. specialize (IH HK). destruct o as [x ev|t].
  - destruct (perf_record_spec x ev lc c Hlc) as (lc1 & c1 & E1 & H1 & He).
    { intros Hc. rewrite Hc in Ho. apply (cache_room c _ K); [done|set_solver|done]. }
    destruct (IH lc1 c1 H1) as (samples & lc2 & c2 & E2 & Hk).
    { rewrite He. destruct (counted ev); [rewrite dom_insert; set_solver|done]. }
    exists samples, lc2, c2. cbn [Counters.run omap list_omap key_run]. rewrite E1. cbn [mbind option_bind]. rewrite E2. cbn [mbind option_bind].
    split; [by destruct (event_of kallsyms GetAddrStr (Drop x ev))|].
    intros k. rewrite <- Hk, He. destruct (counted ev); cbn [andb]; [|done].
    destruct (decide (key_of ev = k)) as [<-|Hne']; [by rewrite bool_decide_eq_true_2, lookup_insert_eq|].
    by rewrite bool_decide_eq_false_2, lookup_insert_ne.
  - cbn [Counters.run omap list_omap key_run event_of snd fst]. pose proof (collectOnce_spec t c) as Hco.
    destruct (collectOnce t c) as [out c1]. destruct (IH lc c1 Hlc) as (samples & lc2 & c2 & E2 & Hk).
    { intros k. rewrite elem_of_dom. destruct (Hco k) as [-> _]. intros Hs. apply Hd, elem_of_dom.
      by destruct (elems c !! k); [eexists|destruct Hs]. }
    exists (out ++ samples), lc2, c2. rewrite E2. split; [done|]. intros k. destruct (Hco k) as [He Hs].
    rewrite <- He, Hk, samples_of_app, Hs. done.
Qed.

(** ** Adding up the samples of a key *)

Definition sel (nf : bool) v : Z := if nf then Netfilter v else Total v.
Definition pick (nf : bool) (s : Z * Z) : Z := if nf then s.2 else s.1.

(** [last] is the consumer's last value, [n] bounds the counter. *)
Definition key_inv (nf : bool) (n : Z) (v : option Counter) (last : Z) : Prop :=
  match v with
  | None => last = 0
  | Some v => 0 <= last <= sel nf v ∧ sel nf v <= n ∧ (snatched v = true -> last = sel nf v)
  end.
Definition held (nf : bool) (v : option Counter) : Z := match v with Some v => sel nf v | None => 0 end.

Lemma sel_bump nf (x : context) (ev : PacketLoss.insp_pl_event_t) v :
  0 <= sel nf v < 2 ^ 32 - 1 ->
  sel nf (bump x ev v) = sel nf v + (if negb nf || by_netfilter kallsyms ev then 1 else 0).
Proof.
  intros Hv. unfold bump, sel in *. destruct nf; simpl in *; [destruct (by_netfilter kallsyms ev)|].
  all: rewrite ?wrap_small by (unfold fits; lia); lia.
Qed.

(** One scrape: the consumer gets what is held and not yet consumed. *)
Lemma scrape_key nf (n t : Z) v (last : Z) :
  key_inv nf n (Some v) last ->
  let s := pick nf (shown t v) in
  (if s <? last then s else s - last) = sel nf v - last ∧ key_inv nf n (kept t v) s ∧ held nf (kept t v) = s.
Proof.
  intros (Hl & Hn & Hs). cbv zeta. unfold shown, kept. destruct (stale t v) eqn:E.
  - unfold stale in E. apply andb_true_iff in E as [_ E]. specialize (Hs E).
    replace (pick nf (0, 0)) with 0 by (by destruct nf). split_and!; [|done|done]. destruct (Z.ltb_spec 0 last); lia.
  - replace (pick nf (Total v, Netfilter v)) with (sel nf v) by (by destruct nf).
    destruct (Z.ltb_spec (sel nf v) last); [lia|]. unfold key_inv, held.
    replace (sel nf (MkCounter _ _ _ _)) with (sel nf v) by (by destruct nf). split_and!; done || lia.
Qed.

Lemma drops_cons nf k (o : op) ops :
  drops kallsyms GetAddrStr nf k (o :: ops) =
  (if counts kallsyms GetAddrStr nf k o then 1 else 0) + drops kallsyms GetAddrStr nf k ops.
Proof.
  unfold drops. destruct (counts kallsyms GetAddrStr nf k o) eqn:E.
  - rewrite filter_cons_True by done. simpl. lia.
  - rewrite filter_cons_False by congruence. lia.
Qed.

(** Until the last scrape, a consumer adds up what was held before and not
    consumed, and the drops. *)
Lemma key_run_total nf k ops (t : cacheKey -> Z) (v : option Counter) (last n : Z) :
  0 <= n -> key_inv nf n v last -> n + Z.of_nat (length ops) < 2 ^ 32 - 1 ->
  consumed last (pick nf <$> (key_run k (ops ++ [Scrape t]) v).1) =
  held nf v - last + drops kallsyms GetAddrStr nf k ops.
Proof.
  revert v last n. induction ops as [|[x ev|t'] ops IH]; intros v last n Hpos Hi Hn; cbn [app key_run].
  - change (drops kallsyms GetAddrStr nf k []) with 0. destruct v as [v|]; cbn; [|simpl in Hi; lia].
    destruct (scrape_key nf n (t k) v last Hi) as (E & _). rewrite E. lia.
  - rewrite drops_cons. cbn [counts]. destruct (counted ev && bool_decide (key_of ev = k)) eqn:Ec; cbn [andb];
      [|rewrite (IH v last n); simpl in Hn; [lia|lia|done|lia]].
    assert (sel nf (default zero_counter v) = held nf v) as Eh by (destruct v; [done|by destruct nf]).
    assert (0 <= last <= held nf v ∧ held nf v <= n) as Hh by (destruct v; simpl in *; lia).
    pose proof (sel_bump nf x ev (default zero_counter v)) as Hb. rewrite Eh in Hb. cbn [length] in Hn. specialize (Hb ltac:(lia)).
    rewrite (IH _ last (n + 1)); cbn [held key_inv]; [rewrite Hb; lia|lia| |lia].
    rewrite Hb. destruct (negb nf || by_netfilter kallsyms ev); split_and!; done || lia.
  - rewrite drops_cons. cbn [counts length] in *. destruct v as [v|]; cbn [mbind option_bind]; [change (option_list (shown (t' k) <$> Some v)) with [shown (t' k) v]|change (option_list (shown (t' k) <$> None)) with (@nil (Z * Z))].
    + destruct (scrape_key nf n (t' k) v last Hi) as (E & Hi' & Hh).
      destruct (key_run k (ops ++ [Scrape t]) (kept (t' k) v)) as [vs v'] eqn:Er. cbn [fst app]. rewrite fmap_cons. cbn [consumed].
      specialize (IH (kept (t' k) v) _ n Hpos Hi' ltac:(lia)). rewrite Er in IH. cbn [fst] in IH. rewrite IH, E, Hh. cbn [held]. lia.
    + specialize (IH None last n Hpos Hi ltac:(lia)). destruct (key_run k (ops ++ [Scrape t]) None). cbn [fst app] in *. rewrite IH. lia.
Qed.
End counter_lemmas.

(** *** The whole path *)

Section path_lemmas.
Import Counters.

(** The agent alone: on any history of records and scrapes that ends with a
    scrape it sends the events of the drops that count, and its samples add
    up to their numbers. *)
Lemma counters_exact {LC C : Type}
    `{!Kallsyms.LocationCache LC, !Kallsyms.LocationCacheLaws LC, !Lru C, !LruLaws C}
    (kallsyms : list Kallsyms.KernelSymbol) (GetAddrStr : Z -> list Z -> string) (ops : list op) (t : cacheKey -> Z) (lc : LC) (c : C)
    (Hsorted : Kallsyms.sorted kallsyms) (Hne : kallsyms ≠ []) (Hlc : ∀ pt, Kallsyms.cache_get lc pt = None)
    (Hc : elems c = ∅) (Hroom : (size (keys_of kallsyms GetAddrStr ops) <= capacity)%nat)
    (Hlen : Z.of_nat (length ops) < 2 ^ 32 - 1) :
  ∃ samples s, run kallsyms GetAddrStr (ops ++ [Scrape t]) (lc, c) =
      Some (omap (event_of kallsyms GetAddrStr) ops, samples, s) ∧
    ∀ k, consumed 0 (fst <$> samples_of k samples) = drops kallsyms GetAddrStr false k ops ∧
         consumed 0 (snd <$> samples_of k samples) = drops kallsyms GetAddrStr true k ops.
Proof.
  assert (keys_of kallsyms GetAddrStr (ops ++ [Scrape t]) = keys_of kallsyms GetAddrStr ops) as HK.
  { unfold keys_of. by rewrite omap_app, app_nil_r. }
  destruct (run_spec kallsyms GetAddrStr Hsorted Hne (ops ++ [Scrape t]) (keys_of kallsyms GetAddrStr ops) lc c)
    as (samples & lc' & c' & E & Hk); [intros ??; by rewrite Hlc|rewrite Hc; set_solver|by rewrite HK|done|].
  exists samples, (lc', c'). split; [by rewrite E, omap_app, app_nil_r|]. intros k.
  specialize (Hk k). rewrite Hc, lookup_empty in Hk.
  pose proof (λ nf, key_run_total kallsyms GetAddrStr nf k ops t None 0 0 ltac:(lia) eq_refl ltac:(lia)) as Ht.
  rewrite Hk in Ht. split; [exact (Ht false)|exact (Ht true)].
Qed.

Lemma drops_app (kallsyms : list Kallsyms.KernelSymbol) (GetAddrStr : Z -> list Z -> string) (nf : bool) (k : cacheKey)
    (a b : list op) :
  drops kallsyms GetAddrStr nf k (a ++ b) = drops kallsyms GetAddrStr nf k a + drops kallsyms GetAddrStr nf k b.
Proof. unfold drops. rewrite filter_app, length_app. lia. Qed.

(** The records of the kernel's drops. *)
Lemma drops_losses (L : KernelLayout) {MF : Type} `{!BpfMap MF Z Z} (feat : MF) (kallsyms : list Kallsyms.KernelSymbol)
    (GetAddrStr : Z -> list Z -> string) (nf : bool) (k : cacheKey) (hs : list happening) :
  wire_layout L -> Forall (λ h, match h with Dropped d => dropped_ok d | Scraped _ => True end) hs ->
  length (hs ≫= ops_of feat) = length hs ∧
  drops kallsyms GetAddrStr nf k (hs ≫= ops_of feat) = losses kallsyms GetAddrStr nf k hs.
Proof.
  intros Hw. induction 1 as [|h hs Hh _ [IHl IHd]]; [done|]. rewrite bind_cons, length_app, drops_app, IHl, IHd.
  assert (∃ o, ops_of feat h = [o] ∧ counts kallsyms GetAddrStr nf k o = lost kallsyms GetAddrStr nf k h) as (o & -> & E).
  { destruct h as [d|t]; [|by exists (Scrape t)]. destruct Hh as [Hf Hskb]. unfold ops_of.
    rewrite (PacketLoss.handler_frame _ _ feat _ _ _ Hw Hf Hskb). by eexists. }
  split; [done|]. rewrite drops_cons, E. change (drops kallsyms GetAddrStr nf k []) with 0. unfold losses.
  destruct (lost kallsyms GetAddrStr nf k h) eqn:El.
  - rewrite filter_cons_True by done. cbn [length]. lia.
  - rewrite filter_cons_False by congruence. lia.
Qed.
End path_lemmas.

(** ** Properties *)

Section properties.
Import Counters.

(** C26: packet loss, end to end.  Let well-formed IPv4 packets be dropped
    in the kernel, at any locations, interleaved in any way with scrapes, the
    last of which comes after the last drop; let every record be read, and the
    packets have at most as many address pairs as the cache has room for.
    Then the agent does not panic, and for each protocol and address pair a
    consumer of the exported counters, who adds up the differences between
    samples and takes a decrease for a restart, gets the number of the packets
    dropped between the two addresses outside the ignored functions, and from
    the second counter the number of those dropped by netfilter, although idle
    counters are zeroed and removed on the way. *)
Theorem packetloss_end_to_end (L : KernelLayout) {MF LC C : Type}
    `{!BpfMap MF Z Z, !Kallsyms.LocationCache LC, !Kallsyms.LocationCacheLaws LC, !Lru C, !LruLaws C} (feat : MF)
    (kallsyms : list Kallsyms.KernelSymbol) (GetAddrStr : Z -> list Z -> string) (hs : list happening) (t : cacheKey -> Z) (lc : LC) (c : C)
    (Hw : wire_layout L) (Hdrops : Forall (λ h, match h with Dropped d => dropped_ok d | Scraped _ => True end) hs)
    (Hsorted : Kallsyms.sorted kallsyms) (Hne : kallsyms ≠ []) (Hlc : ∀ pt, Kallsyms.cache_get lc pt = None)
    (Hc : elems c = ∅) (Hroom : (size (keys_of kallsyms GetAddrStr (hs ≫= ops_of feat)) <= capacity)%nat)
    (Hlen : Z.of_nat (length hs) < 2 ^ 32 - 1) :
  ∃ events samples s,
    run kallsyms GetAddrStr ((hs ≫= ops_of feat) ++ [Scrape t]) (lc, c) = Some (events, samples, s) ∧
    ∀ k, consumed 0 (fst <$> samples_of k samples) = losses kallsyms GetAddrStr false k hs ∧
         consumed 0 (snd <$> samples_of k samples) = losses kallsyms GetAddrStr true k hs.
Proof.
  pose proof (λ nf k, drops_losses L feat kallsyms GetAddrStr nf k hs Hw Hdrops) as Hd.
  destruct (counters_exact kallsyms GetAddrStr (hs ≫= ops_of feat) t lc c Hsorted Hne Hlc Hc Hroom) as (samples & s & E & Hk).
  { destruct (Hd false (0, EmptyString, EmptyString)) as [-> _]. done. }
  exists (omap (event_of kallsyms GetAddrStr) (hs ≫= ops_of feat)), samples, s. split; [done|]. intros k.
  rewrite <- (proj2 (Hd false k)), <- (proj2 (Hd true k)). apply Hk.
Qed.

End properties.

Section lifecycle_properties.
Import Lifecycle.

(** The packet loss program follows the probes.  If loading and opening
    the reader succeeds, then after any sequence of starts and stops of the
    metrics and the event probe the program is attached, and its reader is the
    only one open, exactly while some probe is started; and the kernel stacks
    are switched on whenever the event probe asked for them.  Even if starts
    fail, no reader is left open. *)
Theorem packetloss_serving (os : list op) :
  no_leak (run os init).2 ∧ (Forall start_ok os -> serving (run os init).2).
Proof.
  split.
  - apply run_no_leak.
  - intros Hos. by apply (run_all_invariant exec start_ok serving); [apply exec_serving|..].
Qed.

(** A failed start sticks, and takes the other probe down: nothing is
    attached any more, and every further start of the same type fails without
    trying. *)
Theorem packetloss_failed_start (os : list op) (a : attempt) (t : ProbeType) (cfg : bool)
    (Hfree : at_type (probeConfig (run os init).2) t = None) (Hfail : load_ok a && reader_ok a = false) :
  let '(err, p) := exec (DoStart a t cfg) (run os init).2 in
  err = true ∧ attached (bpf p) = None ∧ perfReader (bpf p) = None ∧
  ∀ a' cfg', exec (DoStart a' t cfg') p = (true, p).
Proof.
  pose proof (run_no_leak os) as Hl.
  set (p := (run os init).2) in *.
  assert (∀ cfg, let '(err, q) := start a t cfg p in err = true ∧ attached (bpf q) = None ∧ perfReader (bpf q) = None ∧
    at_type (probeConfig q) t = Some cfg) as H.
  { intros cfg0. unfold start. rewrite Hfree. set (q := MkProbe _ _ _).
    destruct (reinstall_fails a q Hl Hfail) as (He & Hcfg & Ha & Hr & _). destruct (reinstallBPFLocked a q) as [err q']. simpl in *.
    rewrite Hcfg. split_and!; [done..|]. by destruct t. }
  assert (∀ a' t' cfg' q cfg, at_type (probeConfig q) t' = Some cfg -> Start a' t' cfg' q = (true, q)) as Hagain.
  { intros a' t' cfg' q cfg0 Hq. unfold Start, start. destruct t'; by rewrite Hq. }
  cbn [exec]. unfold Start at 1. destruct t; [specialize (H false)|specialize (H cfg)].
  - destruct (start a ProbeTypeMetrics false p) as [err q]. destruct H as (-> & Ha & Hr & Hq). split_and!; [done..|].
    intros. by eapply Hagain.
  - destruct (start a ProbeTypeEvent cfg p) as [err q]. destruct H as (-> & Ha & Hr & Hq). split_and!; [done..|].
    intros. by eapply Hagain.
Qed.

(** The perf goroutine can crash the agent: it is about to read when the last
    probe is stopped, and the reader is nil. *)
Theorem packetloss_nil_reader : ∃ s, rtc step start_process s ∧ panicked s = true.
Proof.
  eexists. split; [|shelve].
  eapply rtc_l; [by apply (step_op (DoStart both_ok ProbeTypeMetrics false))|].
  eapply rtc_l; [by apply (step_op (DoStop ProbeTypeMetrics))|].
  eapply rtc_l; [by apply (step_nil 0)|]. apply rtc_refl.
  Unshelve. done.
Qed.
End lifecycle_properties.

(** ** Examples *)

Section examples.
Import Counters.

(** A cache that keeps everything. *)
#[local] Instance demo_lru : Lru (gmap cacheKey Counter) := {|
  cache_get c k := (c !! k, c);
  cache_add c k v := <[k := v]> c;
  cache_modify c k f := alter f k c;
  cache_remove c k := delete k c;
  cache_keys c := (map_to_list c).*1;
|}.
#[local] Instance demo_lru_laws : LruLaws (gmap cacheKey Counter).
Proof.
  refine {| elems c := c |}; [done|done|done|done|done| |].
  - intros c k. cbn [cache_keys demo_lru]. rewrite list_elem_of_fmap. split.
    + intros ([k' v] & -> & H%elem_of_map_to_list). by exists v.
    + intros [v H]. exists (k, v). by rewrite elem_of_map_to_list.
  - intros c. apply NoDup_fst_map_to_list.
Defined.
#[local] Instance demo_locations : Kallsyms.LocationCache (gmap Z Kallsyms.KernelSymbol) := Kallsyms.demo_cache.
#[local] Instance demo_locations_laws : Kallsyms.LocationCacheLaws (gmap Z Kallsyms.KernelSymbol) := Kallsyms.demo_cache_laws.

Definition demo_addr (l3 : Z) (a : list Z) : string := if l3 =? ETH_P_IP then "v4"%string else "v6"%string.
Definition demo_tuple : tuple := Tuple [10; 0; 0; 1] [10; 0; 0; 2] 40000 80 ETH_P_IP IPPROTO_TCP 0.
Definition demo_context (t : Z) : context := Context_ t t false (λ _, None) true.
Definition demo_drop (t loc : Z) : op := Drop (demo_context t) (PacketLoss.PlEvent demo_tuple loc 0).

(** Two drops, one by netfilter, a long pause in which the counter expires,
    and one more drop. *)
Definition demo_ops : list op :=
  [demo_drop 0 0xffff24; demo_drop 1 0xffff90; Scrape (λ _, 2); Scrape (λ _, 40000000000); demo_drop 50000000000 0xffff24].

Definition demo_happening : happening :=
  Dropped (KernelDrop PacketLoss.demo_e PacketLoss.demo_args sample_frame 65536 14 (demo_context 0)).

Lemma packetloss_end_to_end_witness :
  ∃ events samples s,
    run Kallsyms.demo_table demo_addr
      (([demo_happening; Scraped (λ _, 1); demo_happening] ≫= @ops_of amd64_layout _ _ PacketLoss.demo_features) ++ [Scrape (λ _, 2)])
      ((∅ : gmap Z Kallsyms.KernelSymbol), (∅ : gmap cacheKey Counter)) = Some (events, samples, s) ∧
    ∀ k, consumed 0 (fst <$> samples_of k samples) =
           losses Kallsyms.demo_table demo_addr false k [demo_happening; Scraped (λ _, 1); demo_happening] ∧
         consumed 0 (snd <$> samples_of k samples) =
           losses Kallsyms.demo_table demo_addr true k [demo_happening; Scraped (λ _, 1); demo_happening].
Proof.
  apply (packetloss_end_to_end amd64_layout PacketLoss.demo_features Kallsyms.demo_table demo_addr
    [demo_happening; Scraped (λ _, 1); demo_happening] (λ _, 2) (∅ : gmap Z Kallsyms.KernelSymbol) (∅ : gmap cacheKey Counter)
    amd64_wire_layout).
  - assert (@dropped_ok amd64_layout (KernelDrop PacketLoss.demo_e PacketLoss.demo_args sample_frame 65536 14 (demo_context 0)))
      by (split; [exact sample_frame_wf|exact demo_skb_at]).
    by repeat constructor.
  - apply Kallsyms.strongly_sorted. vm_compute. repeat constructor; done.
  - vm_compute. done.
  - intros pt. done.
  - done.
  - apply (bool_decide_unpack _). vm_compute. done.
  - vm_compute. done.
Defined.

(** The scrapes show 2, 0 and 1 for the pair, 1, 0 and 0 of them by
    netfilter. *)
Lemma demo_samples :
  option_map (λ r, map snd r.1.2) (run Kallsyms.demo_table demo_addr (demo_ops ++ [Scrape (λ _, 50000000001)])
      ((∅ : gmap Z Kallsyms.KernelSymbol), (∅ : gmap cacheKey Counter))) = Some [(2, 1); (0, 0); (1, 0)].
Proof. vm_compute. done. Qed.

Lemma packetloss_serving_witness :
  serving (Lifecycle.run [Lifecycle.DoStart both_ok ProbeTypeMetrics false; Lifecycle.DoStart both_ok ProbeTypeEvent true]
    Lifecycle.init).2.
Proof. apply (packetloss_serving [_; _]). repeat constructor. Defined.

Lemma packetloss_failed_start_witness :
  let '(err, p) := Lifecycle.exec (Lifecycle.DoStart (Attempt true false) ProbeTypeEvent true)
    (Lifecycle.run [Lifecycle.DoStart both_ok ProbeTypeMetrics false] Lifecycle.init).2 in
  err = true ∧ attached (Lifecycle.bpf p) = None ∧ perfReader (Lifecycle.bpf p) = None ∧
  ∀ a' cfg', Lifecycle.exec (Lifecycle.DoStart a' ProbeTypeEvent cfg') p = (true, p).
Proof.
  exact (packetloss_failed_start [Lifecycle.DoStart both_ok ProbeTypeMetrics false] (Attempt true false) ProbeTypeEvent true
    eq_refl eq_refl).
Defined.
End examples.
