(* ===== verification/GoStrings.v ===== *)
(** The part of Go's strings, strconv, fmt and flag packages that the
    diagnosis command (src/pkg/skoop) parses its dumps with, on ASCII text.

    Errors are values ([None], or a flag beside the value where the code uses
    the value in spite of the error).  The lemmas relate printing to parsing:
    splitting undoes joining, and [Atoi] reads back what [%d] prints. *)

From Stdlib Require Import Ascii.
From S2P Require Import Prelude.

(** ** strings *)

Definition char (n : nat) : ascii := Ascii.ascii_of_nat n.
Definition code (c : ascii) : Z := Z.of_N (Ascii.N_of_ascii c).

(** Pieces between the characters that satisfy [sep]. *)
Fixpoint split_at (sep : ascii -> bool) (s : string) : list string :=
  match s with
  | EmptyString => [EmptyString]
  | String c s' =>
      if sep c then EmptyString :: split_at sep s'
      else match split_at sep s' with
           | [] => [String c EmptyString]
           | piece :: rest => String c piece :: rest
           end
  end.

Definition is_space (c : ascii) : bool := ((9 <=? code c) && (code c <=? 13)) || (code c =? 32).

(** [strings.Split] with a separator of one character, [strings.Fields],
    [strings.Contains] for one character. *)
Definition Split (sep : ascii) : string -> list string := split_at (Ascii.eqb sep).
Definition Fields (s : string) : list string := filter (λ f, f ≠ EmptyString) (split_at is_space s).
Fixpoint exists_char (p : ascii -> bool) (s : string) : bool :=
  match s with EmptyString => false | String c s' => p c || exists_char p s' end.
Definition Contains (sep : ascii) : string -> bool := exists_char (Ascii.eqb sep).

Definition to_lower (c : ascii) : ascii :=
  if (65 <=? code c) && (code c <=? 90) then char (Z.to_nat (code c + 32)) else c.
Fixpoint ToLower (s : string) : string :=
  match s with EmptyString => EmptyString | String c s' => String (to_lower c) (ToLower s') end.
Definition EqualFold (a b : string) : bool := String.eqb (ToLower a) (ToLower b).

Definition is_digit (c : ascii) : bool := (48 <=? code c) && (code c <=? 57).
(** The digits a text begins with, and the rest. *)
Fixpoint digits (s : string) : string * string :=
  match s with
  | String c s' => if is_digit c then let '(a, b) := digits s' in (String c a, b) else (EmptyString, s)
  | EmptyString => (EmptyString, EmptyString)
  end.
(** The text after a prefix. *)
Fixpoint strip (prefix s : string) : option string :=
  match prefix, s with
  | EmptyString, _ => Some s
  | String a p, String b s' => if Ascii.eqb a b then strip p s' else None
  | _, _ => None
  end.
(** [strings.Contains], and [strings.Replace] of all occurrences of a
    character. *)
Fixpoint ContainsText (sub s : string) : bool :=
  match strip sub s with
  | Some _ => true
  | None => match s with EmptyString => false | String _ s' => ContainsText sub s' end
  end.
Fixpoint ReplaceAll (old new : ascii) (s : string) : string :=
  match s with EmptyString => EmptyString | String c s' => String (if Ascii.eqb c old then new else c) (ReplaceAll old new s') end.

(** Words with single spaces in between. *)
Fixpoint unwords (ws : list string) : string :=
  match ws with
  | [] => EmptyString
  | [w] => w
  | w :: ws' => (w ++ String " " (unwords ws'))%string
  end.

(** ** strconv *)

Definition digit (c : ascii) : option Z :=
  let n := code c in
  if (48 <=? n) && (n <=? 57) then Some (n - 48)
  else let l := code (to_lower c) in
  if (97 <=? l) && (l <=? 122) then Some (l - 87) else None.

(** [numError]: the value is 0 for a syntax error and the nearest bound for a
    range error. *)
Inductive num := Num (v : Z) | SyntaxErr | RangeErr (v : Z).
Definition value (n : num) : Z := match n with Num v => v | SyntaxErr => 0 | RangeErr v => v end.
Definition ok (n : num) : option Z := match n with Num v => Some v | _ => None end.

(** The loop of [ParseUint]; [under] says whether underscores are skipped
    (base 0). *)
Fixpoint parse_digits (base maxVal : Z) (under : bool) (n : Z) (s : string) : num :=
  match s with
  | EmptyString => Num n
  | String c s' =>
      if under && Ascii.eqb c "_" then parse_digits base maxVal under n s'
      else match digit c with
           | None => SyntaxErr
           | Some d =>
               if base <=? d then SyntaxErr
               else if maxVal <? n * base + d then RangeErr maxVal
               else parse_digits base maxVal under (n * base + d) s'
           end
  end.

(** [underscoreOK]: underscores only between digits or after the prefix. *)
Inductive seen := SawStart | SawDigit | SawUnder | SawOther.
Fixpoint under_ok (hex : bool) (saw : seen) (s : string) : bool :=
  match s with
  | EmptyString => match saw with SawUnder => false | _ => true end
  | String c s' =>
      let l := code (to_lower c) in
      if ((48 <=? code c) && (code c <=? 57)) || (hex && (97 <=? l) && (l <=? 102)) then under_ok hex SawDigit s'
      else if Ascii.eqb c "_" then match saw with SawDigit => under_ok hex SawUnder s' | _ => false end
      else match saw with SawUnder => false | _ => under_ok hex SawOther s' end
  end.
Definition prefix_base (s : string) : option (Z * string) :=
  match s with
  | String "0" (String c s') =>
      let l := to_lower c in
      if Ascii.eqb l "b" then Some (2, s') else if Ascii.eqb l "o" then Some (8, s')
      else if Ascii.eqb l "x" then Some (16, s') else None
  | _ => None
  end.
Definition underscoreOK (s : string) : bool :=
  match prefix_base s with
  | Some (b, s') => under_ok (b =? 16) SawDigit s'
  | None => under_ok false SawStart s
  end.

(** [ParseUint] with base 10 or 0. *)
Definition ParseUint (s : string) (base bitSize : Z) : num :=
  let maxVal := 2 ^ bitSize - 1 in
  match s with
  | EmptyString => SyntaxErr
  | String c rest =>
      if base =? 0 then
        let '(b, digits) :=
          match prefix_base s with
          | Some (b, s') => if String.eqb s' EmptyString then (8, rest) else (b, s')
          | None => if Ascii.eqb c "0" then (8, rest) else (10, s)
          end in
        let r := parse_digits b maxVal true 0 digits in
        match r with
        | Num _ => if exists_char (Ascii.eqb "_") digits && negb (underscoreOK s) then SyntaxErr else r
        | _ => r
        end
      else parse_digits base maxVal false 0 s
  end.

Definition ParseInt (s : string) (base bitSize : Z) : num :=
  let '(neg, t) :=
    match s with
    | String "+" t => (false, t)
    | String "-" t => (true, t)
    | _ => (false, s)
    end in
  let cutoff := 2 ^ (bitSize - 1) in
  let bound (un : Z) : num :=
    if neg : bool then (if cutoff <? un then RangeErr (- cutoff) else Num (- un))
    else (if cutoff <=? un then RangeErr (cutoff - 1) else Num un) in
  match ParseUint t base bitSize with
  | SyntaxErr => SyntaxErr
  | Num un => bound un
  | RangeErr un => match bound un with Num v => RangeErr v | r => r end
  end.
Definition Atoi (s : string) : num := ParseInt s 10 64.

(** ** fmt: the verb [%d] *)

Definition digit_char (d : Z) : ascii := char (Z.to_nat (48 + d)).
Fixpoint dec_go (fuel : nat) (n : Z) (acc : string) : string :=
  match fuel with
  | O => acc
  | S fuel' =>
      let acc := String (digit_char (n mod 10)) acc in
      if n <? 10 then acc else dec_go fuel' (n / 10) acc
  end.
(** At most 20 digits: enough for 64 bits. *)
Definition dec (n : Z) : string :=
  if n <? 0 then String "-" (dec_go 20 (- n) EmptyString) else dec_go 20 n EmptyString.

(** ** Lemmas *)

(** No character of the text satisfies [p]. *)
Definition free_of (p : ascii -> bool) (s : string) : Prop := exists_char p s = false.

Lemma exists_char_app (p : ascii -> bool) (a b : string) :
  exists_char p (a ++ b)%string = exists_char p a || exists_char p b.
Proof. induction a as [|c a IH]; [done|]. simpl. rewrite IH. apply orb_assoc. Qed.

Lemma free_of_app (p : ascii -> bool) (a b : string) : free_of p (a ++ b)%string <-> free_of p a ∧ free_of p b.
Proof. unfold free_of. rewrite exists_char_app. apply orb_false_iff. Qed.

Lemma split_at_free (p : ascii -> bool) (s : string) : free_of p s -> split_at p s = [s].
Proof.
  unfold free_of. induction s as [|c s IH]; [done|]. simpl. intros [-> H]%orb_false_iff. by rewrite (IH H).
Qed.

Lemma split_at_cons (p : ascii -> bool) (a b : string) (c : ascii) :
  free_of p a -> p c = true -> split_at p (a ++ String c b)%string = a :: split_at p b.
Proof.
  unfold free_of. intros Ha Hc. induction a as [|x a IH]; simpl in *; [by rewrite Hc|].
  apply orb_false_iff in Ha as [-> Ha]. by rewrite (IH Ha).
Qed.

Definition word (w : string) : Prop := w ≠ EmptyString ∧ free_of is_space w.

Lemma Fields_unwords (ws : list string) : Forall word ws -> Fields (unwords ws) = ws.
Proof.
  unfold Fields. induction 1 as [|w ws [Hne Hw] Hws IH]; [done|]. destruct ws as [|w' ws].
  - simpl. rewrite (split_at_free _ _ Hw). by rewrite filter_cons_True.
  - change (unwords (w :: w' :: ws)) with (w ++ String " " (unwords (w' :: ws)))%string.
    rewrite split_at_cons by done. rewrite filter_cons_True by done. by rewrite IH.
Qed.

Lemma digit_digit_char (d : Z) : 0 <= d < 10 -> digit (digit_char d) = Some d.
Proof.
  intros Hd. assert (d ∈ [0;1;2;3;4;5;6;7;8;9]) as H by (rewrite !elem_of_cons; lia).
  repeat (apply elem_of_cons in H as [->|H]; [done|]). by apply elem_of_nil in H.
Qed.

Lemma dec_go_parse (fuel : nat) (n maxVal : Z) (tail : string) :
  0 <= n < 10 ^ Z.of_nat fuel -> n <= maxVal -> fuel ≠ 0%nat ->
  parse_digits 10 maxVal false 0 (dec_go fuel n tail) = parse_digits 10 maxVal false n tail.
Proof.
  revert n tail. induction fuel as [|fuel IH]; intros n tail Hn Hmax Hf; [done|]. cbn [dec_go].
  pose proof (Z.div_mod n 10 ltac:(lia)). pose proof (Z.mod_pos_bound n 10 ltac:(lia)).
  assert (∀ m, 0 <= m -> m * 10 + n mod 10 = n ->
    parse_digits 10 maxVal false m (String (digit_char (n mod 10)) tail) = parse_digits 10 maxVal false n tail) as Hstep.
  { intros m Hm E. cbn [parse_digits andb]. rewrite digit_digit_char by lia.
    destruct (Z.leb_spec 10 (n mod 10)); [lia|]. rewrite E. by destruct (Z.ltb_spec maxVal n); [lia|]. }
  destruct (Z.ltb_spec n 10) as [Hlt|Hge].
  - apply Hstep; [lia|]. rewrite Z.mod_small; lia.
  - assert (n / 10 < 10 ^ Z.of_nat fuel) as Hd.
    { apply Z.div_lt_upper_bound; [lia|]. rewrite Nat2Z.inj_succ, Z.pow_succ_r in Hn by lia. lia. }
    rewrite IH; [apply Hstep; [apply Z.div_pos|]; lia|split; [apply Z.div_pos; lia|done]|lia|].
    intros ->. simpl in Hd. pose proof (Z.div_pos n 10). lia.
Qed.

(** Decimal text: only digits, and at least one. *)
Lemma dec_go_digits (p : ascii -> bool) (fuel : nat) (n : Z) (tail : string) :
  (∀ d, 0 <= d < 10 -> p (digit_char d) = false) -> 0 <= n -> free_of p tail -> free_of p (dec_go fuel n tail).
Proof.
  intros Hp. revert n tail. induction fuel as [|fuel IH]; intros n tail Hn Ht; [done|]. cbn [dec_go].
  assert (free_of p (String (digit_char (n mod 10)) tail)).
  { unfold free_of. simpl. rewrite Hp by (apply Z.mod_pos_bound; lia). done. }
  destruct (n <? 10); [done|]. apply IH; [apply Z.div_pos; lia|done].
Qed.

Lemma dec_go_cons (fuel : nat) (n : Z) (tail : string) :
  0 <= n -> ∃ d s, 0 <= d < 10 ∧ dec_go (S fuel) n tail = String (digit_char d) s.
Proof.
  revert n tail. induction fuel as [|fuel IH]; intros n tail Hn; cbn [dec_go];
    pose proof (Z.mod_pos_bound n 10 ltac:(lia)); destruct (n <? 10); try by eexists _, _.
  apply IH. apply Z.div_pos; lia.
Qed.

(** A character class without digits. *)
Definition no_digits (p : ascii -> bool) : Prop := ∀ d, 0 <= d < 10 -> p (digit_char d) = false.
Lemma no_digits_dec (p : ascii -> bool) :
  forallb (λ d, negb (p (digit_char d))) [0;1;2;3;4;5;6;7;8;9] = true -> no_digits p.
Proof.
  intros H d Hd. rewrite forallb_forall in H. apply negb_true_iff, H, list_elem_of_In. rewrite !elem_of_cons. lia.
Qed.

Lemma dec_free (p : ascii -> bool) (n : Z) : no_digits p -> 0 <= n -> free_of p (dec n).
Proof. intros Hp Hn. unfold dec. destruct (Z.ltb_spec n 0); [lia|]. by apply dec_go_digits. Qed.

Lemma dec_word (n : Z) : 0 <= n -> word (dec n).
Proof.
  intros Hn. split; [|apply dec_free; [apply no_digits_dec; vm_compute; done|done]].
  unfold dec. destruct (Z.ltb_spec n 0); [lia|]. destruct (dec_go_cons 19 n EmptyString Hn) as (d & s & _ & E). by rewrite E.
Qed.

(** [Atoi] reads what [%d] prints. *)
Lemma Atoi_dec (n : Z) : 0 <= n < 2 ^ 63 -> Atoi (dec n) = Num n.
Proof.
  intros Hn. unfold Atoi, ParseInt, dec. destruct (Z.ltb_spec n 0); [lia|].
  pose proof (dec_go_parse 20 n (2 ^ 64 - 1) EmptyString ltac:(change (10 ^ Z.of_nat 20) with 100000000000000000000; lia)
    ltac:(lia) ltac:(done)) as E. cbn [parse_digits] in E.
  destruct (dec_go_cons 19 n EmptyString ltac:(lia)) as (d & s & Hd & Ec). rewrite Ec in *.
  assert (ParseUint (String (digit_char d) s) 10 64 = Num n) as Eu by exact E.
  assert (d ∈ [0;1;2;3;4;5;6;7;8;9]) as Hin by (rewrite !elem_of_cons; lia).
  assert ((match String (digit_char d) s with
    | String "+" t => (false, t) | String "-" t => (true, t) | _ => (false, String (digit_char d) s) end)
    = (false, String (digit_char d) s)) as ->.
  { repeat (apply elem_of_cons in Hin as [->|Hin]; [done|]). by apply elem_of_nil in Hin. }
  rewrite Eu. cbv beta iota zeta. by destruct (Z.leb_spec (2 ^ (64 - 1)) n); [lia|].
Qed.

(** And so does [ParseUint]. *)
Lemma ParseUint_dec (n : Z) : 0 <= n < 2 ^ 64 -> ParseUint (dec n) 10 64 = Num n.
Proof.
  intros Hn. unfold dec. destruct (Z.ltb_spec n 0); [lia|].
  pose proof (dec_go_parse 20 n (2 ^ 64 - 1) EmptyString ltac:(change (10 ^ Z.of_nat 20) with 100000000000000000000; lia)
    ltac:(lia) ltac:(done)) as E. cbn [parse_digits] in E.
  destruct (dec_go_cons 19 n EmptyString ltac:(lia)) as (d & s & Hd & Ec). by rewrite Ec in *.
Qed.

Lemma append_cons (x : ascii) (a b : string) : (String x a ++ b)%string = String x (a ++ b)%string.
Proof. reflexivity. Qed.
Lemma append_nil (b : string) : (EmptyString ++ b)%string = b.
Proof. reflexivity. Qed.
Lemma string_assoc (a b c : string) : ((a ++ b) ++ c)%string = (a ++ b ++ c)%string.
Proof. induction a as [|x a IH]; [done|]. by rewrite !append_cons, IH. Qed.

Definition digit_text (s : string) : Prop := free_of (λ c, negb (is_digit c)) s.
(** The text does not go on with a digit. *)
Definition ends_digits (s : string) : Prop := match s with String c _ => is_digit c = false | EmptyString => True end.
Lemma digits_app (a b : string) : digit_text a -> ends_digits b -> digits (a ++ b)%string = (a, b).
Proof.
  unfold digit_text, free_of. induction a as [|c a IH]; rewrite ?append_cons; cbn [exists_char digits].
  - intros _ Hb. rewrite append_nil. destruct b as [|c b]; [done|]. cbn in Hb. cbn [digits]. by rewrite Hb.
  - intros [Hc Ha]%orb_false_iff Hb. apply negb_false_iff in Hc. rewrite Hc, (IH Ha Hb). done.
Qed.
Lemma strip_app (p s : string) : strip p (p ++ s)%string = Some s.
Proof. induction p as [|c p IH]; [by destruct s|]. rewrite append_cons. cbn [strip]. by rewrite Ascii.eqb_refl. Qed.
