(* ===== verification/GoFloat.v ===== *)
(** Floating-point numbers as the Go code uses them: non-negative numbers read
    from decimal text (strconv.ParseFloat) and narrowed to 32 bits, and
    unsigned integers converted to 64 bits.

    A finite number is [m * 2 ^ e].  Rounding is IEEE 754's, to nearest with
    ties to the even significand; the theorems bound its error. *)

From Stdlib Require Import Ascii.
From S2P Require Import Prelude GoStrings.

Inductive float := Fin (m e : Z) | Inf.

#[global] Instance float_eq_dec : EqDecision float.
Proof. solve_decision. Defined.

(** A format: the bits of the significand, and the exponents of its last
    bit. *)
Record format := MkFormat { prec : Z; emin : Z; emax : Z }.
Definition binary64 : format := MkFormat 53 (-1074) 971.
Definition binary32 : format := MkFormat 24 (-149) 104.

Definition pow2 (e : Z) : Z := 2 ^ Z.max 0 e.

(** The exponent at which [n / d] has [prec] bits, or the least one. *)
Definition exponent (f : format) (n d : Z) : Z :=
  let e := Z.log2 n - Z.log2 d - prec f in
  Z.max (emin f) (if n * pow2 (- e) <? 2 ^ prec f * (d * pow2 e) then e else e + 1).

(** [a / b], to the nearest integer, ties to even. *)
Definition nearest (a b : Z) : Z :=
  let q := a / b in let r := a mod b in
  if 2 * r <? b then q else if b <? 2 * r then q + 1 else if Z.even q then q else q + 1.

(** The number of the format nearest to [n / d]. *)
Definition round (f : format) (n d : Z) : float :=
  if n =? 0 then Fin 0 0 else
  let e := exponent f n d in
  let m := nearest (n * pow2 (- e)) (d * pow2 e) in
  let '(m, e) := if m =? 2 ^ prec f then (2 ^ (prec f - 1), e + 1) else (m, e) in
  if emax f <? e then Inf else Fin m e.

(** [float32(x)]; [float64] of the outcome is the same number. *)
Definition narrow (x : float) : float :=
  match x with Fin m e => round binary32 (m * pow2 e) (pow2 (- e)) | Inf => Inf end.

(** [float64(n)] of an unsigned integer: the nearest number of 64 bits, which
    is an integer. *)
Definition float64 (n : Z) : Z :=
  match round binary64 n 1 with Fin m e => m * pow2 e / pow2 (- e) | Inf => 0 end.

(** ** strconv.ParseFloat, on digits with at most one point *)

Fixpoint digits_value (n : Z) (s : string) : option Z :=
  match s with
  | EmptyString => Some n
  | String c s' => match digit c with Some d => if d <? 10 then digits_value (10 * n + d) s' else None | None => None end
  end.
(** The number that a decimal text stands for, as a fraction. *)
Definition decimal (whole frac : string) : option (Z * Z) :=
  n ← digits_value 0 (whole ++ frac)%string; Some (n, 10 ^ Z.of_nat (String.length frac)).
(** A number too large is an error. *)
Definition ParseFloat (whole frac : string) : option float :=
  '(n, d) ← decimal whole frac; match round binary64 n d with Inf => None | x => Some x end.

(** ** Lemmas *)

Lemma pow2_pos (e : Z) : 0 < pow2 e.
Proof. unfold pow2. apply Z.pow_pos_nonneg; lia. Qed.

Lemma nearest_half (a b : Z) : 0 < b -> 2 * Z.abs (nearest a b * b - a) <= b.
Proof.
  intros Hb. unfold nearest. pose proof (Z.div_mod a b ltac:(lia)). pose proof (Z.mod_pos_bound a b Hb).
  destruct (Z.ltb_spec (2 * (a mod b)) b); [nia|]. destruct (Z.ltb_spec b (2 * (a mod b))); [nia|].
  destruct (Z.even (a / b)); nia.
Qed.

(** The scaled fraction has [prec] bits or more, unless the exponent is the
    least one. *)
Lemma exponent_low (f : format) (n d : Z) :
  0 < n -> 0 < d -> 0 < prec f -> emin f < exponent f n d ->
  2 ^ (prec f - 1) * (d * pow2 (exponent f n d)) <= n * pow2 (- exponent f n d).
Proof.
  intros Hn Hd Hp. unfold exponent. set (e := Z.log2 n - Z.log2 d - prec f).
  pose proof (Z.log2_spec n Hn) as [Hn1 _]. pose proof (Z.log2_spec d Hd) as [_ Hd2].
  assert (2 ^ (prec f - 1) * (d * pow2 e) < n * pow2 (- e)) as Hlow.
  { unfold pow2. assert (2 ^ (prec f - 1) * 2 ^ Z.max 0 e * 2 ^ Z.succ (Z.log2 d) = 2 ^ Z.log2 n * 2 ^ Z.max 0 (- e)) as E.
    { pose proof (Z.log2_nonneg n). pose proof (Z.log2_nonneg d). rewrite <- !Z.pow_add_r by lia. f_equal. lia. }
    assert (0 < 2 ^ (prec f - 1) * 2 ^ Z.max 0 e) by (apply Z.mul_pos_pos; apply Z.pow_pos_nonneg; lia).
    assert (0 < 2 ^ Z.max 0 (- e)) by (apply Z.pow_pos_nonneg; lia). nia. }
  destruct (Z.ltb_spec (n * pow2 (- e)) (2 ^ prec f * (d * pow2 e))) as [Hlt|Hge]; intros Hmax.
  - rewrite Z.max_r by lia. lia.
  - rewrite Z.max_r by lia. clear Hlow Hmax. unfold pow2 in *.
    replace (2 ^ prec f) with (2 * 2 ^ (prec f - 1)) in Hge by (rewrite <- Z.pow_succ_r by lia; f_equal; lia).
    destruct (Z.leb_spec 0 e).
    + rewrite (Z.max_l 0 (- e)), (Z.max_r 0 e) in Hge by lia. rewrite (Z.max_r 0 (e + 1)), (Z.max_l 0 (- (e + 1))) by lia.
      rewrite Z.pow_add_r by lia. lia.
    + rewrite (Z.max_r 0 (- e)) in Hge by lia. rewrite (Z.max_l 0 e) in Hge by lia.
      rewrite (Z.max_r 0 (- (e + 1))), (Z.max_l 0 (e + 1)) by lia.
      replace (2 ^ - e) with (2 * 2 ^ - (e + 1)) in Hge by (rewrite <- Z.pow_succ_r by lia; f_equal; lia). lia.
Qed.

(** The error of rounding, scaled by the fraction's denominator: half a unit
    in the last place, and so at most one part in [2 ^ prec] for a number
    that is not below the format's normal range. *)
Lemma round_error (f : format) (n d m e : Z) :
  0 < n -> 0 < d -> 0 < prec f -> round f n d = Fin m e -> emin f < exponent f n d ->
  2 ^ prec f * Z.abs (m * (d * pow2 e) - n * pow2 (- e)) <= n * pow2 (- e).
Proof.
  intros Hn Hd Hp Hr Hmin. unfold round in Hr. rewrite (proj2 (Z.eqb_neq n 0)) in Hr by lia. cbv zeta in Hr.
  pose proof (exponent_low f n d Hn Hd Hp Hmin) as Hlow. set (e0 := exponent f n d) in *.
  assert (0 < d * pow2 e0) as Hb by (apply Z.mul_pos_pos; [done|apply pow2_pos]).
  pose proof (nearest_half (n * pow2 (- e0)) (d * pow2 e0) Hb) as Hh. set (q := nearest _ _) in *.
  replace (2 ^ prec f) with (2 * 2 ^ (prec f - 1)) in * by (rewrite <- Z.pow_succ_r by lia; f_equal; lia).
  assert (0 < 2 ^ (prec f - 1)) as Hpos by (apply Z.pow_pos_nonneg; lia). set (p := 2 ^ (prec f - 1)) in *.
  destruct (Z.eqb_spec q (2 * p)) as [E|].
  - destruct (emax f <? e0 + 1); [done|]. injection Hr as <- <-. rewrite E in Hh. clear - Hh Hlow Hpos.
    unfold pow2 in *. destruct (Z.leb_spec 0 e0).
    + rewrite (Z.max_r 0 e0), (Z.max_l 0 (- e0)) in * by lia. rewrite (Z.max_r 0 (e0 + 1)), (Z.max_l 0 (- (e0 + 1))) by lia.
      rewrite Z.pow_add_r by lia. replace (p * (d * (2 ^ e0 * 2 ^ 1))) with (2 * p * (d * 2 ^ e0)) by lia. nia.
    + rewrite (Z.max_l 0 e0), (Z.max_r 0 (- e0)) in * by lia. rewrite (Z.max_l 0 (e0 + 1)), (Z.max_r 0 (- (e0 + 1))) by lia.
      replace (2 ^ - e0) with (2 * 2 ^ - (e0 + 1)) in * by (rewrite <- Z.pow_succ_r by lia; f_equal; lia). nia.
  - destruct (emax f <? e0); [done|]. injection Hr as <- <-. nia.
Qed.

(** Rounding gives a finite number in the middle of the range. *)
Lemma round_finite (f : format) (n d : Z) :
  0 < n -> 0 < d -> 0 < prec f -> emin f < Z.log2 n - Z.log2 d - prec f -> Z.log2 n - Z.log2 d - prec f + 2 <= emax f ->
  emin f < exponent f n d ∧ ∃ m e, round f n d = Fin m e.
Proof.
  intros Hn Hd Hp Hlo Hhi. assert (emin f < exponent f n d <= Z.log2 n - Z.log2 d - prec f + 1) as He.
  { unfold exponent. destruct (_ <? _); lia. }
  split; [lia|]. unfold round. rewrite (proj2 (Z.eqb_neq n 0)) by lia. cbv zeta.
  destruct (_ =? 2 ^ prec f); rewrite (proj2 (Z.ltb_ge _ _)) by lia; by eexists _, _.
Qed.

(** A float within one part in [2 ^ k] of a fraction. *)
Definition near (k n d : Z) (x : float) : Prop :=
  match x with Fin m e => 2 ^ k * Z.abs (m * (d * pow2 e) - n * pow2 (- e)) <= n * pow2 (- e) | Inf => False end.

Lemma near_log2 (n d m e : Z) : 0 < n -> 0 < d -> near 53 n d (Fin m e) ->
  0 < m * pow2 e ∧ Z.log2 n - Z.log2 d - 2 <= Z.log2 (m * pow2 e) - Z.log2 (pow2 (- e)) <= Z.log2 n - Z.log2 d + 2.
Proof.
  intros Hn Hd H. unfold near in H. pose proof (pow2_pos e) as HA. pose proof (pow2_pos (- e)) as HB.
  set (A := pow2 e) in *. set (B := pow2 (- e)) in *. assert (0 < n * B) as HnB by nia.
  assert (m * A * d <= 2 * (n * B) ∧ n * B <= 2 * (m * A * d)) as [H1 H2] by lia.
  assert (0 < m * A) as HP by nia. set (P := m * A) in *. split; [done|].
  pose proof (Z.log2_mul_below P d ltac:(lia) ltac:(lia)). pose proof (Z.log2_mul_above P d ltac:(lia) ltac:(lia)).
  pose proof (Z.log2_mul_below n B ltac:(lia) ltac:(lia)). pose proof (Z.log2_mul_above n B ltac:(lia) ltac:(lia)).
  pose proof (Z.log2_le_mono _ _ H1) as L1. pose proof (Z.log2_le_mono _ _ H2) as L2.
  rewrite (Z.log2_double (n * B)) in L1 by lia. rewrite (Z.log2_double (P * d)) in L2 by nia. lia.
Qed.

(** Reading to 64 bits and narrowing to 32 loses at most one part in
    [2 ^ 23]. *)
Lemma near_narrow (n d : Z) :
  0 < n -> 0 < d -> -110 <= Z.log2 n - Z.log2 d <= 110 -> ∃ x, round binary64 n d = x ∧ x ≠ Inf ∧ near 23 n d (narrow x).
Proof.
  intros Hn Hd Hl. destruct (round_finite binary64 n d) as (Hmin & m1 & e1 & E1); [done..|cbn; lia|cbn; lia|].
  exists (Fin m1 e1). split_and!; [done|done|]. assert (near 53 n d (Fin m1 e1)) as N1 by exact (round_error binary64 n d m1 e1 Hn Hd ltac:(done) E1 Hmin).
  destruct (near_log2 n d m1 e1 Hn Hd N1) as [HP Hlog]. pose proof (pow2_pos (- e1)) as HQ. cbn [narrow].
  destruct (round_finite binary32 (m1 * pow2 e1) (pow2 (- e1))) as (Hmin2 & m & e & E2); [done..|cbn; lia|cbn; lia|]. rewrite E2.
  pose proof (round_error binary32 _ _ m e HP HQ ltac:(done) E2 Hmin2) as N2. cbn [prec binary32] in N2. unfold near in N1 |- *.
  pose proof (pow2_pos (- e)) as HF. set (P := m1 * pow2 e1) in *. set (Q := pow2 (- e1)) in *. set (E := pow2 e) in *. set (F := pow2 (- e)) in *.
  replace (m1 * (d * pow2 e1)) with (P * d) in N1 by (unfold P; ring).
  assert (Q * (m * (d * E) - n * F) = d * (m * (Q * E) - P * F) + F * (P * d - n * Q)) as Heq by ring.
  assert (2 ^ 24 * (d * Z.abs (m * (Q * E) - P * F)) <= d * (P * F)) as B1 by nia.
  assert (2 ^ 53 * (F * Z.abs (P * d - n * Q)) <= F * (n * Q)) as B2 by nia.
  assert (2 ^ 53 * (F * (P * d)) <= (2 ^ 53 + 1) * (F * (n * Q))) as B3 by nia.
  assert (Q * Z.abs (m * (d * E) - n * F) <= d * Z.abs (m * (Q * E) - P * F) + F * Z.abs (P * d - n * Q)) as B4 by nia.
  assert (Q * (2 ^ 23 * Z.abs (m * (d * E) - n * F)) <= Q * (n * F)) as B5; [|by apply Z.mul_le_mono_pos_l in B5].
  replace (d * (P * F)) with (F * (P * d)) in B1 by ring. replace (Q * (n * F)) with (F * (n * Q)) by ring. lia.
Qed.

(** ** Unsigned integers *)

Lemma nearest_1 (a : Z) : nearest a 1 = a.
Proof. unfold nearest. by rewrite Z.mod_1_r, Z.div_1_r. Qed.

(** Below 2^53 the conversion is exact. *)
Lemma float64_exact (n : Z) : 0 <= n < 2 ^ 53 -> float64 n = n.
Proof.
  intros Hn. destruct (decide (n = 0)) as [->|Hne]; [done|]. pose proof (Z.log2_spec n ltac:(lia)) as [Hl Hu].
  assert (Z.log2 n < 53) as Hlog by (apply Z.log2_lt_pow2; lia). pose proof (Z.log2_nonneg n) as H0.
  assert (exponent binary64 n 1 = Z.log2 n - 52) as He.
  { unfold exponent. cbn [prec emin binary64]. change (Z.log2 1) with 0. rewrite Z.sub_0_r. unfold pow2.
    rewrite (Z.max_r 0 (- (Z.log2 n - 53))), (Z.max_l 0 (Z.log2 n - 53)) by lia.
    rewrite (proj2 (Z.ltb_ge _ _)); [lia|]. rewrite Z.pow_0_r, !Z.mul_1_r.
    replace (2 ^ 53) with (2 ^ Z.log2 n * 2 ^ - (Z.log2 n - 53)) by (rewrite <- Z.pow_add_r by lia; f_equal; lia).
    apply Z.mul_le_mono_nonneg_r; [apply Z.pow_nonneg; lia|done]. }
  set (k := 2 ^ (52 - Z.log2 n)). assert (0 < k) as Hk by (apply Z.pow_pos_nonneg; lia).
  assert (n * k < 2 ^ 53) as Hlt.
  { replace (2 ^ 53) with (2 ^ Z.succ (Z.log2 n) * k) by (unfold k; rewrite <- Z.pow_add_r by lia; f_equal; lia).
    by apply Z.mul_lt_mono_pos_r. }
  unfold float64, round. rewrite (proj2 (Z.eqb_neq n 0)) by done. cbv zeta. rewrite He.
  assert (pow2 (Z.log2 n - 52) = 1) as E1 by (unfold pow2; rewrite Z.max_l by lia; done).
  assert (pow2 (- (Z.log2 n - 52)) = k) as E2 by (unfold pow2, k; rewrite Z.max_r by lia; f_equal; lia).
  rewrite E1, E2, Z.mul_1_r, nearest_1. cbn [prec emax binary64]. rewrite (proj2 (Z.eqb_neq (n * k) (2 ^ 53))) by lia.
  rewrite (proj2 (Z.ltb_ge 971 (Z.log2 n - 52))) by lia. rewrite E1, E2, Z.mul_1_r. apply Z.div_mul. lia.
Qed.

(** Otherwise it loses at most one part in 2^53. *)
Lemma float64_error (n : Z) : 0 <= n < 2 ^ 64 -> 2 ^ 53 * Z.abs (float64 n - n) <= n.
Proof.
  intros Hn. destruct (Z.ltb_spec n (2 ^ 53)) as [Hlt|Hge]; [rewrite float64_exact by lia; lia|].
  assert (53 <= Z.log2 n) as Hlo by (apply Z.log2_le_pow2; lia).
  assert (Z.log2 n < 64) as Hhi by (apply Z.log2_lt_pow2; lia).
  destruct (round_finite binary64 n 1) as (Hmin & m & e & E); [lia|done|done|cbn; lia|cbn; lia|].
  pose proof (round_error binary64 n 1 m e ltac:(lia) ltac:(lia) ltac:(done) E Hmin) as Herr. cbn [prec binary64] in Herr.
  assert (0 <= e) as He.
  { unfold round in E. rewrite (proj2 (Z.eqb_neq n 0)) in E by lia. cbv zeta in E.
    assert (0 <= exponent binary64 n 1) by (unfold exponent; cbn; destruct (_ <? _); lia).
    destruct (nearest _ _ =? _); destruct (_ <? _); simplify_eq; lia. }
  unfold float64. rewrite E. assert (pow2 (- e) = 1) as E1 by (unfold pow2; rewrite Z.max_l by lia; done).
  rewrite E1, Z.div_1_r. rewrite E1, Z.mul_1_l, Z.mul_1_r in Herr. done.
Qed.
