(* ===== verification/AgentMetrics.v ===== *)
(** The agent's legacy metrics: src/pkg/exporter/probe/legacy.go,
    src/pkg/exporter/nettop/interface.go, and the perf loops of
    tracenetiftxlatency.go and tracevirtcmdlat.go that count events into them.

    A metrics map has, for each metric name and network namespace, a counter;
    [CopyLegacyMetricsMap] copies it for the collector, and [Collect] turns it
    into samples labelled with the pod that owns the namespace.  [emits] is
    the common shape of the perf loops: each event increments some counters
    and sends at most one event to the sink. *)

From stdpp Require Import pretty.
From S2P Require Import Prelude CLayout KernelMem BpfMaps BpfRuntime Inspector NetifTxLatency VirtcmdLatency GoStrings GoFloat.

(** ** Counters *)

Section counters.
(** The key of a counter within a metric: a namespace, or for the softirq
    probe a softirq type. *)
Context {K : Type} `{Countable K}.

(** [updateMetrics] of tracekernel.go and tracenetiftxlatency.go, and the
    counting part of tracesoftirq.go's. *)
Definition updateMetrics (netns : K) (metrics : string) (m : gmap string (gmap K Z)) : gmap string (gmap K Z) :=
  let m := match m !! metrics with Some _ => m | None => <[metrics := ∅]> m end in
  alter (λ inner, <[netns := u64 (default 0 (inner !! netns) + 1)]> inner) metrics m.

(** [m[metrics][netns]], with Go's zero values. *)
Definition metric (m : gmap string (gmap K Z)) (metrics : string) (netns : K) : Z :=
  default 0 (m !! metrics ≫= λ inner, inner !! netns).
End counters.

(** The counters of most probes, by metric name and namespace. *)
Abbreviation metrics_map := (gmap string (gmap Z Z)).

Definition CopyLegacyMetricsMap (range : metrics_map -> list (string * gmap Z Z))
    (range_ns : gmap Z Z -> list (Z * Z)) (m : metrics_map) : metrics_map :=
  foldl (λ ret '(key, nsMap),
           foldl (λ ret '(ns, data), alter (λ inner, <[ns := data]> inner) key ret)
                 (<[key := ∅]> ret) (range_ns nsMap))
        ∅ (range m).

(** ** tracenetiftxlatency.go *)

Definition TXLAT_QDISC_SLOW : string := "qdiscslow100ms".
Definition TXLAT_NETDEV_SLOW : string := "netdevslow100ms".

(** The body of [perfLoop] after decoding: the counters, and the type of the
    event for the sink (empty if the event has an unknown type). *)
Definition netiftxlat_event (event : NetifTxLatency.insp_nftxlat_event_t) (m : metrics_map)
    : metrics_map * option string :=
  if NetifTxLatency.type event =? 1 then
    (updateMetrics (netns (NetifTxLatency.ev_skb_meta event)) TXLAT_QDISC_SLOW m, Some "NETIFTXLAT_QDISC")
  else if NetifTxLatency.type event =? 2 then
    (updateMetrics (netns (NetifTxLatency.ev_skb_meta event)) TXLAT_NETDEV_SLOW m, Some "NETIFTXLAT_XMIT")
  else (m, Some "").

(** ** tracevirtcmdlat.go *)

Definition VIRTCMD100MS : string := "latency100ms".
Definition VIRTCMD : string := "latency".

Definition virtcmd_event (event : VirtcmdLatency.insp_virtcmdlat_event_t) (m : metrics_map)
    : metrics_map * option string :=
  let m := updateMetrics 0 VIRTCMD m in
  if VirtcmdLatency.latency event >? 100000000 then (updateMetrics 0 VIRTCMD100MS m, Some "VIRTCMDEXCUTE_100MS")
  else (m, Some "VIRTCMDEXCUTE").

(** [perfLoop]: the events in order, the counters, and what goes to the sink
    if there is one ([None]: the body skips the event). *)
Definition perf_loop {Ev Out : Type} (body : Ev -> metrics_map -> metrics_map * option Out) (sink : bool)
    (events : list Ev) (m : metrics_map) : metrics_map * list Out :=
  foldl (λ '(m, sunk) event,
           let '(m, out) := body event m in
           (m, match out with Some x => if sink then sunk ++ [x] else sunk | None => sunk end))
        (m, []) events.

(** ** legacy.go and nettop/interface.go *)

Record Entity := MkEntity { podNamespace : string; podName : string }.

Section collect.
(** [prometheus.BuildFQName]; the node name; the values of the configured
    additional labels. *)
Context (BuildFQName : string -> string -> string -> string) (nodeName : string).
Context (BuildAdditionalLabelsValues : Entity -> list string).
Context (range : metrics_map -> list (string * gmap Z Z)) (range_ns : gmap Z Z -> list (Z * Z)).
(** The entity of the host network, and the unexpired entries of the
    namespace cache, keyed by the decimal inode number. *)
Context (defaultEntity : Entity) (nsCache : gmap string Entity).

Definition GetEntityByNetns (nsinum : Z) : option Entity :=
  if nsinum =? 0 then Some defaultEntity else nsCache !! pretty nsinum.

Definition BuildStandardMetricsLabelValues (entity : Entity) : list string :=
  [nodeName; podNamespace entity; podName entity] ++ BuildAdditionalLabelsValues entity.

Definition newMetricsName (module name : string) : string := BuildFQName "kubeskoop" module name.

Record legacyBatchMetrics := MkLegacy { module : string; descs : gset string }.

Definition newLegacyBatchMetrics (module : string) (metrics : list string) : legacyBatchMetrics :=
  MkLegacy module (foldl (λ ds name, {[newMetricsName module name]} ∪ ds) ∅ metrics).

(** A sample: metric name, label values, and the value, a [float64] that is an
    integer. *)
Record sample := Sample { s_name : string; s_labels : list string; s_value : Z }.

Definition emit (l : legacyBatchMetrics) (name : string) (labels : list string) (value : Z) (out : list sample)
    : list sample :=
  if bool_decide (name ∈ descs l) then out ++ [Sample name labels value] else out.

Definition Collect (l : legacyBatchMetrics) (data : metrics_map) : list sample :=
  foldl (λ out '(key, namespaceData),
           foldl (λ out '(nsinum, value),
                    match GetEntityByNetns nsinum with
                    | None => out
                    | Some et => emit l (newMetricsName (module l) key) (BuildStandardMetricsLabelValues et) (float64 value) out
                    end) out (range_ns namespaceData))
        [] (range data).
End collect.

(** ** Lemmas *)

Section counter_lemmas.
Context {K : Type} `{Countable K}.

Definition bump (m : gmap string (gmap K Z)) (c : string * K) : gmap string (gmap K Z) := updateMetrics c.2 c.1 m.

Lemma metric_update (m : gmap string (gmap K Z)) (n n' : string) (ns ns' : K) :
  metric (updateMetrics ns n m) n' ns' =
  if decide ((n, ns) = (n', ns')) then u64 (metric m n' ns' + 1) else metric m n' ns'.
Proof.
  unfold metric, updateMetrics.
  set (m1 := match m !! n with Some _ => m | None => <[n := ∅]> m end).
  assert (∃ inner, m1 !! n = Some inner ∧ ∀ x, inner !! x = (m !! n ≫= λ i, i !! x)) as (inner & E & Hi).
  { subst m1. destruct (m !! n) as [i|] eqn:E; [by exists i|]. exists ∅. by rewrite lookup_insert_eq. }
  destruct (decide (n = n')) as [<-|Hn].
  - rewrite lookup_alter_eq, E. simpl. destruct (decide (ns = ns')) as [<-|Hns].
    + rewrite decide_True by done. rewrite lookup_insert_eq, Hi. done.
    + rewrite decide_False by congruence. by rewrite lookup_insert_ne, Hi.
  - rewrite decide_False by congruence. rewrite lookup_alter_ne by done. subst m1.
    destruct (m !! n); [done|]. by rewrite lookup_insert_ne.
Qed.

(** The number of occurrences of a counter in a list of increments. *)
Definition occurrences (c : string * K) (l : list (string * K)) : Z := Z.of_nat (length (filter (λ x, x = c) l)).

Lemma occurrences_app c (l1 l2 : list (string * K)) : occurrences c (l1 ++ l2) = occurrences c l1 + occurrences c l2.
Proof. unfold occurrences. rewrite filter_app, length_app. lia. Qed.

Lemma occurrences_one (c x : string * K) : occurrences c [x] = if decide (x = c) then 1 else 0.
Proof. unfold occurrences. rewrite filter_cons. by destruct (decide (x = c)). Qed.

Lemma metric_bumps (m : gmap string (gmap K Z)) (n : string) (ns : K) (l : list (string * K)) :
  fits 64 (metric m n ns) -> metric (foldl bump m l) n ns = u64 (metric m n ns + occurrences (n, ns) l).
Proof.
  intros Hm. induction l as [|c l IH] using rev_ind.
  - simpl. unfold occurrences. simpl. by rewrite Z.add_0_r, wrap_small.
  - rewrite foldl_app, occurrences_app. simpl. unfold bump at 1. rewrite metric_update, IH.
    rewrite occurrences_one. destruct c as [n' ns']. cbn [fst snd].
    destruct (decide ((n', ns') = (n, ns))).
    + unfold wrap. rewrite Zplus_mod_idemp_l. f_equal. lia.
    + by rewrite Z.add_0_r.
Qed.

Lemma occurrences_cons (c x : string * K) (l : list (string * K)) :
  occurrences c (x :: l) = (if decide (x = c) then 1 else 0) + occurrences c l.
Proof. change (x :: l) with ([x] ++ l). by rewrite occurrences_app, occurrences_one. Qed.

End counter_lemmas.

(** A body that performs a list of increments. *)
Lemma perf_loop_metrics {Ev Out : Type} (body : Ev -> metrics_map -> metrics_map * option Out)
    (incs : Ev -> list (string * Z)) (sink : bool) (events : list Ev) (m : metrics_map) :
  (∀ event m, (body event m).1 = foldl bump m (incs event)) ->
  (perf_loop body sink events m).1 = foldl bump m (events ≫= incs).
Proof.
  intros Hb. induction events as [|event events IH] using rev_ind; [done|].
  unfold perf_loop in *. rewrite foldl_app, bind_app, foldl_app. simpl.
  destruct (foldl _ (m, []) events) as [m1 sunk]. simpl in *. rewrite app_nil_r, <- IH, <- Hb.
  by destruct (body event m1).
Qed.

Lemma perf_loop_sunk {Ev Out : Type} (body : Ev -> metrics_map -> metrics_map * option Out) (out : Ev -> option Out)
    (sink : bool) (events : list Ev) (m : metrics_map) :
  (∀ event m, (body event m).2 = out event) ->
  (perf_loop body sink events m).2 = if sink then omap out events else [].
Proof.
  intros Hb. induction events as [|event events IH] using rev_ind; [by destruct sink|].
  unfold perf_loop in *. rewrite foldl_app, omap_app. simpl.
  destruct (foldl _ (m, []) events) as [m1 sunk]. simpl in *. rewrite IH. specialize (Hb event m1).
  destruct (body event m1) as [m2 o]. simpl in *. subst o. by destruct (out event), sink; rewrite ?app_nil_r.
Qed.

Lemma foldl_snoc_bind {A B : Type} (g : A -> list B) (f : list B -> A -> list B) (l : list A) (out : list B) :
  (∀ out x, f out x = out ++ g x) -> foldl f out l = out ++ (l ≫= g).
Proof.
  intros Hf. revert out. induction l as [|x l IH]; intros out; simpl; [by rewrite app_nil_r|].
  rewrite Hf, IH. by rewrite <- app_assoc.
Qed.

Lemma foldl_insert_range {K A : Type} `{Countable K} (range : gmap K A -> list (K * A)) :
  (∀ m, range m ≡ₚ map_to_list m) ->
  ∀ m, foldl (λ ret '(k, x), <[k := x]> ret) ∅ (range m) = m.
Proof.
  intros Hr m.
  assert (∀ l, foldl (λ ret '(k, x), <[k := x]> ret) ∅ l = (list_to_map (reverse l) : gmap K A)) as ->.
  { induction l as [|[k x] l IH] using rev_ind; [done|]. rewrite foldl_app, reverse_snoc. simpl. by rewrite IH. }
  rewrite (list_to_map_proper (reverse (range m)) (map_to_list m)); [apply list_to_map_to_list| |].
  - rewrite reverse_Permutation, (Hr m). apply NoDup_fst_map_to_list.
  - by rewrite reverse_Permutation.
Qed.

Section collect_lemmas.
Context (BuildFQName : string -> string -> string -> string) (nodeName : string).
Context (BuildAdditionalLabelsValues : Entity -> list string).
Context (range : metrics_map -> list (string * gmap Z Z)) (range_ns : gmap Z Z -> list (Z * Z)).
Context (defaultEntity : Entity) (nsCache : gmap string Entity).
Context (range_perm : ∀ m, range m ≡ₚ map_to_list m) (range_ns_perm : ∀ m, range_ns m ≡ₚ map_to_list m).

Abbreviation entity_of := (GetEntityByNetns defaultEntity nsCache).
Abbreviation labels_of := (BuildStandardMetricsLabelValues nodeName BuildAdditionalLabelsValues).
Abbreviation name_of := (newMetricsName BuildFQName).

(** The sample of one counter. *)
Definition counter_sample (l : legacyBatchMetrics) (key : string) (ns v : Z) : list sample :=
  match entity_of ns with
  | Some et => if bool_decide (name_of (module l) key ∈ descs l) then [Sample (name_of (module l) key) (labels_of et) (float64 v)] else []
  | None => []
  end.

Lemma Collect_eq (l : legacyBatchMetrics) (data : metrics_map) :
  Collect BuildFQName nodeName BuildAdditionalLabelsValues range range_ns defaultEntity nsCache l data =
  range data ≫= λ kd, range_ns kd.2 ≫= λ nv, counter_sample l kd.1 nv.1 nv.2.
Proof.
  unfold Collect. refine (foldl_snoc_bind _ _ _ [] _). intros out [key nsd]. simpl.
  apply foldl_snoc_bind. intros out' [ns v]. unfold counter_sample, emit. simpl.
  destruct (entity_of ns); [|by rewrite app_nil_r]. by case_bool_decide; [|rewrite app_nil_r].
Qed.

Lemma new_legacy_descs (mod_ : string) (metrics : list string) (n : string) :
  n ∈ descs (newLegacyBatchMetrics BuildFQName mod_ metrics) <-> ∃ key, key ∈ metrics ∧ n = name_of mod_ key.
Proof.
  unfold newLegacyBatchMetrics. cbn [descs]. induction metrics as [|k ks IH] using rev_ind.
  - simpl. split; [by intros ?%not_elem_of_empty|]. intros (? & ?%elem_of_nil & _). done.
  - rewrite foldl_app. cbn [foldl]. rewrite elem_of_union, elem_of_singleton, IH. split.
    + intros [->|(key & Hk & ->)]; eexists; (split; [|done]); rewrite elem_of_app, list_elem_of_singleton; auto.
    + intros (key & [Hk| ->%list_elem_of_singleton]%elem_of_app & ->); eauto.
Qed.

Lemma counter_sample_elem (l : legacyBatchMetrics) (key : string) (ns v : Z) (s : sample) :
  s ∈ counter_sample l key ns v <->
  ∃ et, entity_of ns = Some et ∧ name_of (module l) key ∈ descs l ∧ s = Sample (name_of (module l) key) (labels_of et) (float64 v).
Proof.
  unfold counter_sample. destruct (entity_of ns) as [et|].
  - case_bool_decide.
    + rewrite list_elem_of_singleton. split; [intros ->; eauto|by intros (? & [= <-] & _ & ->)].
    + split; [by intros ?%elem_of_nil|by intros (? & _ & ? & _)].
  - split; [by intros ?%elem_of_nil|by intros (? & ? & _)].
Qed.

(** Lists of labelled pieces whose labels differ have different elements. *)
Lemma NoDup_bind_key {A B K : Type} (key : B -> K) (f : A -> list B) (l : list A) :
  NoDup l -> (∀ x, x ∈ l -> NoDup (key <$> f x)) ->
  (∀ x y b c, x ∈ l -> y ∈ l -> b ∈ f x -> c ∈ f y -> key b = key c -> x = y) ->
  NoDup (key <$> (l ≫= f)).
Proof.
  intros Hl Hf Hd. induction Hl as [|x l Hx Hl IH]; [apply NoDup_nil_2|].
  cbn [mbind list_bind]. rewrite fmap_app. apply NoDup_app. split_and!.
  - apply Hf, list_elem_of_here.
  - intros k (b & -> & Hb)%list_elem_of_fmap (c & E & Hc)%list_elem_of_fmap.
    apply list_elem_of_bind in Hc as (y & Hc & Hy). apply Hx.
    rewrite (Hd x y b c); [done|apply list_elem_of_here|by apply list_elem_of_further|done..].
  - apply IH; [intros; apply Hf; by apply list_elem_of_further|].
    intros y z b c Hy Hz. apply Hd; by apply list_elem_of_further.
Qed.
End collect_lemmas.

(** ** Properties *)

Definition has_type (t : Z) (ns : Z) (event : NetifTxLatency.insp_nftxlat_event_t) : bool :=
  (NetifTxLatency.type event =? t) && (netns (NetifTxLatency.ev_skb_meta event) =? ns).

Definition netiftxlat_type (event : NetifTxLatency.insp_nftxlat_event_t) : string :=
  if NetifTxLatency.type event =? 1 then "NETIFTXLAT_QDISC"
  else if NetifTxLatency.type event =? 2 then "NETIFTXLAT_XMIT" else "".

(** The counters that an event increments. *)
Definition netiftxlat_incs (event : NetifTxLatency.insp_nftxlat_event_t) : list (string * Z) :=
  if NetifTxLatency.type event =? 1 then [(TXLAT_QDISC_SLOW, netns (NetifTxLatency.ev_skb_meta event))]
  else if NetifTxLatency.type event =? 2 then [(TXLAT_NETDEV_SLOW, netns (NetifTxLatency.ev_skb_meta event))]
  else [].
Definition virtcmd_incs (event : VirtcmdLatency.insp_virtcmdlat_event_t) : list (string * Z) :=
  (VIRTCMD, 0) :: if VirtcmdLatency.latency event >? 100000000 then [(VIRTCMD100MS, 0)] else [].

(** The events that satisfy a condition. *)
Definition count {Ev : Type} (sel : Ev -> bool) (events : list Ev) : Z :=
  Z.of_nat (length (filter (λ event, sel event = true) events)).

Lemma count_cons {Ev : Type} (sel : Ev -> bool) (event : Ev) (events : list Ev) :
  count sel (event :: events) = (if sel event then 1 else 0) + count sel events.
Proof.
  unfold count. rewrite filter_cons. destruct (sel event).
  - rewrite decide_True by done. cbn [length]. lia.
  - by rewrite decide_False.
Qed.

Lemma occurrences_bind {Ev K : Type} `{Countable K} (incs : Ev -> list (string * K)) (c : string * K) (sel : Ev -> bool) (events : list Ev) :
  (∀ event, occurrences c (incs event) = if sel event then 1 else 0) ->
  occurrences c (events ≫= incs) = count sel events.
Proof.
  intros Hsel. induction events as [|event events IH]; [done|].
  change (event :: events) with ([event] ++ events) at 1. rewrite bind_app, occurrences_app, count_cons, IH. simpl. by rewrite app_nil_r, Hsel.
Qed.

(** A perf loop whose body performs [incs], seen at one counter. *)
Lemma perf_loop_counts {Ev Out : Type} (body : Ev -> metrics_map -> metrics_map * option Out) (incs : Ev -> list (string * Z))
    (c : string * Z) (sel : Ev -> bool) (sink : bool) (events : list Ev) :
  (∀ event m, (body event m).1 = foldl bump m (incs event)) ->
  (∀ event, occurrences c (incs event) = if sel event then 1 else 0) ->
  metric (perf_loop body sink events ∅).1 c.1 c.2 = u64 (count sel events).
Proof.
  intros Hb Hc. rewrite (perf_loop_metrics body incs) by done. destruct c as [n ns]. cbn [fst snd].
  assert (metric ∅ n ns = 0) as E by (unfold metric; by rewrite lookup_empty).
  rewrite metric_bumps by (rewrite E; by split). by rewrite E, (occurrences_bind incs (n, ns) sel).
Qed.

(** Cases of a goal [occurrences c (incs event) = if sel event then 1 else 0]. *)
Ltac solve_occurrences :=
  repeat (case_match; simpl); rewrite ?occurrences_cons; simpl;
  repeat (case_decide || (rewrite Z.eqb_eq in *) || (rewrite Z.eqb_neq in *)); simplify_eq/=; try done; try lia.

(** The counters of the transmit probe are exact: after any events from
    an empty map, the queueing (driver) counter of a namespace is the number
    of queueing (driver) events of that namespace, and the sink, if there is
    one, gets one event of the right type for each, in order. *)
Theorem netiftxlat_counts (sink : bool) (events : list NetifTxLatency.insp_nftxlat_event_t) (ns : Z) :
  let '(m, sunk) := perf_loop netiftxlat_event sink events ∅ in
  metric m TXLAT_QDISC_SLOW ns = u64 (count (has_type 1 ns) events) ∧
  metric m TXLAT_NETDEV_SLOW ns = u64 (count (has_type 2 ns) events) ∧
  sunk = if sink then netiftxlat_type <$> events else [].
Proof.
  assert (∀ event m, (netiftxlat_event event m).1 = foldl bump m (netiftxlat_incs event)) as Hb.
  { intros event m'. unfold netiftxlat_event, netiftxlat_incs. by repeat case_match. }
  pose proof (perf_loop_counts _ netiftxlat_incs (TXLAT_QDISC_SLOW, ns) (has_type 1 ns) sink events Hb) as H1.
  pose proof (perf_loop_counts _ netiftxlat_incs (TXLAT_NETDEV_SLOW, ns) (has_type 2 ns) sink events Hb) as H2.
  pose proof (perf_loop_sunk netiftxlat_event (λ event, Some (netiftxlat_type event)) sink events ∅) as Hs.
  destruct (perf_loop netiftxlat_event sink events ∅) as [m sunk]. cbn [fst snd] in *. split_and!.
  - apply H1. intros event. unfold netiftxlat_incs, has_type. solve_occurrences.
  - apply H2. intros event. unfold netiftxlat_incs, has_type. solve_occurrences.
  - rewrite Hs; [destruct sink; [|done]|].
    + clear. induction events as [|event events IH]; [done|]. cbn. by rewrite IH.
    + intros event m'. unfold netiftxlat_type, netiftxlat_event. by repeat case_match.
Qed.

(** The counters of the virtio command probe are exact: all events, and
    those of more than 100 ms. *)
Theorem virtcmd_counts (sink : bool) (events : list VirtcmdLatency.insp_virtcmdlat_event_t) :
  let m := (perf_loop virtcmd_event sink events ∅).1 in
  metric m VIRTCMD 0 = u64 (Z.of_nat (length events)) ∧
  metric m VIRTCMD100MS 0 = u64 (count (λ event, VirtcmdLatency.latency event >? 100000000) events).
Proof.
  assert (∀ event m, (virtcmd_event event m).1 = foldl bump m (virtcmd_incs event)) as Hb.
  { intros event m'. unfold virtcmd_event, virtcmd_incs. by repeat case_match. }
  cbv zeta. split.
  - pose proof (perf_loop_counts _ virtcmd_incs (VIRTCMD, 0) (λ _, true) sink events Hb) as H. cbn [fst snd] in H.
    rewrite H; [|intros event; unfold virtcmd_incs; solve_occurrences].
    f_equal. clear. induction events as [|event events IH]; [done|]. rewrite count_cons, IH. cbn [length]. lia.
  - apply (perf_loop_counts _ virtcmd_incs (VIRTCMD100MS, 0)); [done|].
    intros event. unfold virtcmd_incs. solve_occurrences.
Qed.

Section collect_properties.
Context (BuildFQName : string -> string -> string -> string) (nodeName : string).
Context (BuildAdditionalLabelsValues : Entity -> list string).
Context (range : metrics_map -> list (string * gmap Z Z)) (range_ns : gmap Z Z -> list (Z * Z)).
Context (defaultEntity : Entity) (nsCache : gmap string Entity).
Context (range_perm : ∀ m, range m ≡ₚ map_to_list m) (range_ns_perm : ∀ m, range_ns m ≡ₚ map_to_list m).

(** The copy is the map, for any iteration order. *)
Theorem copy_legacy_exact (m : metrics_map) : CopyLegacyMetricsMap range range_ns m = m.
Proof.
  unfold CopyLegacyMetricsMap. rewrite <- (foldl_insert_range range range_perm m) at 2.
  generalize (∅ : metrics_map). induction (range m) as [|[key nsMap] l IH]; intros ret; [done|]. cbn [foldl].
  rewrite IH. f_equal. clear IH.
  rewrite <- (foldl_insert_range range_ns range_ns_perm nsMap) at 2. generalize (∅ : gmap Z Z).
  induction (range_ns nsMap) as [|[ns d] xs IH]; intros inner; [done|]. cbn [foldl]. by rewrite alter_insert_eq.
Qed.

(** A scrape is faithful.  With a name function that is injective for
    the module and label values that tell the namespaces apart, [Collect]
    returns exactly one sample for each counter of a declared metric whose
    namespace has a known entity, with the counter's value, as a float, and that entity's
    labels, and no two samples have the same name and labels (which Prometheus
    would reject). *)
Theorem legacy_collect_exact (mod_ : string) (metrics : list string) (data : metrics_map)
    (Hname : ∀ k k', newMetricsName BuildFQName mod_ k = newMetricsName BuildFQName mod_ k' -> k = k')
    (Hlabels : ∀ ns ns' et et', GetEntityByNetns defaultEntity nsCache ns = Some et ->
       GetEntityByNetns defaultEntity nsCache ns' = Some et' ->
       BuildStandardMetricsLabelValues nodeName BuildAdditionalLabelsValues et =
       BuildStandardMetricsLabelValues nodeName BuildAdditionalLabelsValues et' -> ns = ns') :
  let samples := Collect BuildFQName nodeName BuildAdditionalLabelsValues range range_ns defaultEntity nsCache
                   (newLegacyBatchMetrics BuildFQName mod_ metrics) data in
  (∀ s, s ∈ samples <-> ∃ key inner ns v et, key ∈ metrics ∧ data !! key = Some inner ∧ inner !! ns = Some v ∧
     GetEntityByNetns defaultEntity nsCache ns = Some et ∧
     s = Sample (newMetricsName BuildFQName mod_ key) (BuildStandardMetricsLabelValues nodeName BuildAdditionalLabelsValues et) (float64 v)) ∧
  NoDup ((λ s, (s_name s, s_labels s)) <$> samples).
Proof.
  cbv zeta. rewrite Collect_eq. set (l := newLegacyBatchMetrics BuildFQName mod_ metrics). split.
  - intros s. rewrite list_elem_of_bind. split.
    + intros ([key inner] & Hs & Hin). apply list_elem_of_bind in Hs as ([ns v] & Hs & Hns).
      rewrite (range_perm data) in Hin. apply elem_of_map_to_list in Hin.
      rewrite (range_ns_perm _) in Hns. apply elem_of_map_to_list in Hns. cbn [fst snd] in *.
      apply counter_sample_elem in Hs as (et & He & Hd & ->).
      apply new_legacy_descs in Hd as (key' & Hk & ->%Hname). by exists key', inner, ns, v, et.
    + intros (key & inner & ns & v & et & Hk & Hin & Hns & He & ->). exists (key, inner).
      rewrite (range_perm data), elem_of_map_to_list. split; [|done]. apply list_elem_of_bind. exists (ns, v).
      rewrite (range_ns_perm _), elem_of_map_to_list. split; [|done]. apply counter_sample_elem. exists et.
      split_and!; [done| |done]. apply new_legacy_descs. eauto.
  - apply NoDup_bind_key.
    + rewrite (range_perm data). apply NoDup_map_to_list.
    + intros [key inner] _. apply NoDup_bind_key.
      * rewrite (range_ns_perm _). apply NoDup_map_to_list.
      * intros [ns v] _. unfold counter_sample. repeat case_match; try apply NoDup_nil_2. apply NoDup_singleton.
      * intros [ns v] [ns' v'] b c Hn Hn'. cbn [fst snd] in *.
        rewrite (range_ns_perm _), elem_of_map_to_list in Hn, Hn'.
        intros (et & He & _ & ->)%counter_sample_elem (et' & He' & _ & ->)%counter_sample_elem.
        intros E. pose proof (f_equal snd E) as El. pose proof (Hlabels ns ns' et et' He He' El) as <-. congruence.
    + intros [key inner] [key' inner'] b c Hk Hk'. rewrite (range_perm data), elem_of_map_to_list in Hk, Hk'.
      intros ([ns v] & (et & _ & _ & ->)%counter_sample_elem & _)%list_elem_of_bind
        ([ns' v'] & (et' & _ & _ & ->)%counter_sample_elem & _)%list_elem_of_bind.
      intros E. pose proof (Hname key key' (f_equal fst E)) as <-. congruence.
Qed.
End collect_properties.

(** ** Witness *)

Definition demo_name (ns m n : string) : string := ns +:+ "_" +:+ m +:+ "_" +:+ n.
Definition demo_data : metrics_map := {["qdiscslow100ms" := {[4026531840 := 3; 4026532000 := 5]}]}.
Definition demo_host : Entity := MkEntity "" "".
Definition demo_ns_cache : gmap string Entity := {["4026532000" := MkEntity "default" "web"]}.

Lemma demo_entities (ns : Z) (et : Entity) :
  GetEntityByNetns demo_host demo_ns_cache ns = Some et ->
  ns = 0 ∧ et = demo_host ∨ ns = 4026532000 ∧ et = MkEntity "default" "web".
Proof.
  unfold GetEntityByNetns, demo_ns_cache. destruct (Z.eqb_spec ns 0) as [->|]; [intros [= <-]; by left|].
  intros [E ->]%lookup_singleton_Some. right. split; [|done].
  apply (inj pretty). rewrite <- E. by vm_compute.
Qed.

Lemma legacy_collect_exact_witness :
  Sample (demo_name "kubeskoop" "netiftxlat" "qdiscslow100ms") ["node1"; "default"; "web"] 5 ∈
  Collect demo_name "node1" (λ _, []) map_to_list map_to_list demo_host demo_ns_cache
    (newLegacyBatchMetrics demo_name "netiftxlat" ["qdiscslow100ms"; "netdevslow100ms"]) demo_data.
Proof.
  refine (proj2 (proj1 (legacy_collect_exact demo_name "node1" (λ _, []) map_to_list map_to_list demo_host demo_ns_cache
    (λ m, reflexivity _) (λ m, reflexivity _) "netiftxlat" ["qdiscslow100ms"; "netdevslow100ms"] demo_data _ _) _) _).
  - intros k k'. unfold newMetricsName, demo_name. intros E.
    apply (inj (String.append "_")), (inj (String.append "netiftxlat")). by do 2 apply (inj (String.append _)) in E.
  - intros ns ns' et et' [[-> ->]|[-> ->]]%demo_entities [[-> ->]|[-> ->]]%demo_entities; done.
  - exists "qdiscslow100ms", {[4026531840 := 3; 4026532000 := 5]}, 4026532000, 5, (MkEntity "default" "web").
    split_and!; [by left|by vm_compute..].
Defined.
