(* ===== verification/AgentKernel.v ===== *)
(** src/pkg/exporter/probe/tracekernel/tracekernel.go: the agent's side of the
    kernel latency probe.

    [start] and [stopLocked] are the probe's own variant of the shared
    lifecycle: a failed start gives its reference back, and the perf reader is
    tied to the event probe.  [kernel_event] is the body of [perfLoop]: it
    counts the event and breaks its latency down into the parts of the path
    through the IP layer. *)

From S2P Require Import Prelude KernelMem BpfMaps BpfTracing BpfRuntime Intervals Inspector KernelLatency AgentLifecycle AgentMetrics.

Module AgentKernel.
Import Refcounted.

(** ** Lifecycle *)

Definition stopLocked (t : ProbeType) (p : probe) : bool * probe :=
  if (at_type (refcnt p) t =? 0)%nat then (true, p)
  else
    let r := decr t (refcnt p) in
    let b := if (of_event r =? 0)%nat then close_reader (bpf p) else bpf p in
    if (totalReferenceCountLocked r =? 0)%nat then (false, Probe r (cleanup b) (sink p))
    else (false, Probe r b (sink p)).

Definition start (a : attempt) (t : ProbeType) (p : probe) : bool * probe :=
  if negb (at_type (refcnt p) t =? 0)%nat then (true, p)
  else
    let r := incr t (refcnt p) in
    let first := (totalReferenceCountLocked r =? 1)%nat in
    if first && negb (load_ok a) then (true, Probe (decr t r) (cleanup (bpf p)) (sink p))
    else
      let b := if first then attach tt (bpf p) else bpf p in
      if (of_event r =? 1)%nat then
        let b := new_reader (reader_ok a) b in
        if reader_ok a then (false, Probe r b (sink p))
        else (true, (stopLocked t (Probe r b (sink p))).2)
      else (false, Probe r b (sink p)).

Definition Start (a : attempt) (t : ProbeType) (p : probe) : bool * probe :=
  let '(err, p) := start a t p in
  match t with
  | ProbeTypeMetrics => (err, p)
  | ProbeTypeEvent => if err then (true, p) else (false, Probe (refcnt p) (bpf p) true)
  end.
Definition Stop : ProbeType -> probe -> bool * probe := stopLocked.

Definition exec (o : op) (p : probe) : bool * probe :=
  match o with DoStart a t => Start a t p | DoStop t => Stop t p end.
Definition run : list op -> probe -> list bool * probe := run_all exec.

(** ** The perf loop *)

Definition RXKERNEL_SLOW_METRIC : string := "rxslow".
Definition TXKERNEL_SLOW_METRIC : string := "txslow".
Definition RXKERNEL_SLOW100MS_METRIC : string := "rxslow100ms".
Definition TXKERNEL_SLOW100MS_METRIC : string := "txslow100ms".

(** [metrics]: what the probe declares. *)
Definition metrics : list string :=
  [RXKERNEL_SLOW_METRIC; RXKERNEL_SLOW100MS_METRIC; TXKERNEL_SLOW_METRIC; TXKERNEL_SLOW100MS_METRIC].

(** The type of the event and the parts of its message, in nanoseconds. *)
Record kernel_message := Message { m_type : string; m_latency : Z; m_parts : list (string * Z) }.

Definition part (c : bool) (name : string) (d : Z) : list (string * Z) := if c then [(name, u64 d)] else [].

Definition kernel_event (event : KernelLatency.insp_kl_event_t) (m : metrics_map) : metrics_map * option kernel_message :=
  let ns := netns (KernelLatency.ev_skb_meta event) in
  let p1 := KernelLatency.point1 event in let p2 := KernelLatency.point2 event in
  let p3 := KernelLatency.point3 event in let p4 := KernelLatency.point4 event in
  if KernelLatency.direction event =? 1 then
    (updateMetrics ns RXKERNEL_SLOW_METRIC m,
     Some (Message "RXKERNEL_SLOW" (KernelLatency.latency event)
       (part (p2 >? p1) "PREROUTING" (p2 - p1) ++
        part ((p3 >? p2) && negb (p2 =? 0)) "ROUTE" (p3 - p2) ++
        part ((p4 >? p3) && negb (p3 =? 0)) "LOCAL_IN" (p4 - p3))))
  else if KernelLatency.direction event =? 2 then
    (updateMetrics ns TXKERNEL_SLOW_METRIC m,
     Some (Message "TXKERNEL_SLOW" (KernelLatency.latency event)
       (part ((p3 >? p1) && negb (p1 =? 0)) "LOCAL_OUT" (p3 - p1) ++
        part ((p4 >? p3) && negb (p3 =? 0)) "POSTROUTING" (p4 - p3))))
  else (m, None).

(** ** Lemmas *)

Definition parts_total (msg : kernel_message) : Z := foldr (λ p acc, p.2 + acc) 0 (m_parts msg).

(** The state between operations: attached while counted, read while the
    event probe is counted, each probe counted at most once. *)
Definition kernel_service (p : probe) : Prop :=
  (of_metrics (refcnt p) <= 1)%nat ∧ (of_event (refcnt p) <= 1)%nat ∧
  (is_Some (attached (bpf p)) <-> totalReferenceCountLocked (refcnt p) ≠ 0%nat) ∧
  reading (bpf p) = negb (of_event (refcnt p) =? 0)%nat.

Definition reader_opens (o : op) : Prop := match o with DoStart a _ => reader_ok a = true | DoStop _ => True end.

(** Both counts are 0 or 1: decide each case by evaluation. *)
Ltac service_cases p :=
  let nm := fresh "nm" in let ne := fresh "ne" in let b := fresh "b" in let sk := fresh "sk" in
  destruct p as [[nm ne] b sk];
  unfold kernel_service, totalReferenceCountLocked in *;
  cbn [refcnt bpf sink of_metrics of_event] in *;
  repeat match goal with H : (_ <= 1)%nat ∧ _ |- _ => destruct H as [? H] end;
  destruct nm as [|[|]]; try lia; destruct ne as [|[|]]; try lia; cbn in *;
  rewrite ?reading_cleanup, ?reading_close;
  repeat rewrite bool_decide_true by set_solver;
  split_and!; first [done | lia | by (split; [done|by eauto]) | naive_solver lia].

Lemma stopLocked_service (t : ProbeType) (p : probe) : kernel_service p -> kernel_service (stopLocked t p).2.
Proof. intros H. unfold stopLocked. destruct t; service_cases p. Qed.

Lemma Start_service (a : attempt) (t : ProbeType) (p : probe) :
  reader_ok a = true -> kernel_service p ->
  kernel_service (Start a t p).2 ∧
  (Start a t p).1 = negb (at_type (refcnt p) t =? 0)%nat ||
                    ((totalReferenceCountLocked (refcnt p) =? 0)%nat && negb (load_ok a)) ∧
  refcnt (Start a t p).2 = if (Start a t p).1 then refcnt p else incr t (refcnt p).
Proof.
  intros Hok H. unfold Start, start. rewrite Hok. destruct a as [ld rd]. simpl in Hok. subst rd.
  destruct t, ld; service_cases p.
Qed.

Lemma kernel_exec_service (o : op) (p : probe) : reader_opens o -> kernel_service p -> kernel_service (exec o p).2.
Proof.
  destruct o as [a t|t]; cbn [exec reader_opens]; [intros H1 H2; by apply Start_service|intros _; apply stopLocked_service].
Qed.

Lemma init_service : kernel_service init.
Proof. split_and!; cbn; try lia; try done; by intros []. Qed.

(** The counters that an event increments. *)
Definition kernel_incs (event : KernelLatency.insp_kl_event_t) : list (string * Z) :=
  if KernelLatency.direction event =? 1 then [(RXKERNEL_SLOW_METRIC, netns (KernelLatency.ev_skb_meta event))]
  else if KernelLatency.direction event =? 2 then [(TXKERNEL_SLOW_METRIC, netns (KernelLatency.ev_skb_meta event))]
  else [].

Definition has_direction (d ns : Z) (event : KernelLatency.insp_kl_event_t) : bool :=
  (KernelLatency.direction event =? d) && (netns (KernelLatency.ev_skb_meta event) =? ns).

Lemma kernel_event_incs (event : KernelLatency.insp_kl_event_t) (m : metrics_map) :
  (kernel_event event m).1 = foldl bump m (kernel_incs event).
Proof. unfold kernel_event, kernel_incs. by repeat case_match. Qed.

Lemma part_total (c : bool) (name : string) (d : Z) (l : list (string * Z)) :
  foldr (λ p acc, p.2 + acc) 0 (part c name d ++ l) = (if c then u64 d else 0) + foldr (λ p acc, p.2 + acc) 0 l.
Proof. by destruct c. Qed.

(** ** Properties *)

(** The kernel probe survives failed loads.  After any sequence of
    starts and stops of the two probes, in which loading may fail at will but
    a reader can be opened, the programs are attached exactly when some probe
    is started and their events are read exactly when the event probe is. *)
Theorem kernel_lifecycle (os : list op) (Hos : Forall reader_opens os) :
  let p := (run os init).2 in
  (is_Some (attached (bpf p)) <-> totalReferenceCountLocked (refcnt p) ≠ 0%nat) ∧
  (reading (bpf p) = true <-> of_event (refcnt p) ≠ 0%nat).
Proof.
  pose proof (run_all_invariant exec reader_opens kernel_service os init kernel_exec_service Hos init_service) as (_ & _ & Ha & Hr).
  cbv zeta. split; [exact Ha|]. unfold run. rewrite Hr. rewrite negb_true_iff, Nat.eqb_neq. done.
Qed.

(** Starting the metrics probe after the event probe opens a second reader
    and forgets the first, which stays open after both were stopped. *)
Theorem kernel_reader_leak :
  let p := (run [DoStart both_ok ProbeTypeEvent; DoStart both_ok ProbeTypeMetrics;
                 DoStop ProbeTypeEvent; DoStop ProbeTypeMetrics] init).2 in
  refcnt p = (PerType 0 0)%nat ∧ open_readers (bpf p) = {[0%nat]}.
Proof. split; vm_compute; reflexivity. Qed.

(** The kernel probe's counters.  After any events, the slow counters
    of a namespace are the numbers of its receive and transmit events; the
    two counters for 100 ms that the probe declares are never incremented,
    whatever the latencies. *)
Theorem kernel_counts (sink : bool) (events : list KernelLatency.insp_kl_event_t) (ns : Z) :
  let m := (perf_loop kernel_event sink events ∅).1 in
  metric m RXKERNEL_SLOW_METRIC ns = u64 (count (has_direction KernelLatency.RX_KLATENCY ns) events) ∧
  metric m TXKERNEL_SLOW_METRIC ns = u64 (count (has_direction KernelLatency.TX_KLATENCY ns) events) ∧
  metric m RXKERNEL_SLOW100MS_METRIC ns = 0 ∧ metric m TXKERNEL_SLOW100MS_METRIC ns = 0.
Proof.
  assert (∀ n (sel : KernelLatency.insp_kl_event_t -> bool), (∀ event, occurrences (n, ns) (kernel_incs event) = if sel event then 1 else 0) ->
    metric (perf_loop kernel_event sink events ∅).1 n ns = u64 (count sel events)) as H.
  { intros n sel. apply (perf_loop_counts kernel_event kernel_incs (n, ns)), kernel_event_incs. }
  assert (count (λ _, false) events = 0) as E0.
  { clear. induction events as [|event events IH]; [done|]. by rewrite count_cons. }
  cbv zeta. split_and!.
  - apply H. intros event. unfold kernel_incs, has_direction, KernelLatency.RX_KLATENCY, KernelLatency.TX_KLATENCY. solve_occurrences.
  - apply H. intros event. unfold kernel_incs, has_direction, KernelLatency.RX_KLATENCY, KernelLatency.TX_KLATENCY. solve_occurrences.
  - rewrite (H _ (λ _, false)); [by rewrite E0|]. intros event. unfold kernel_incs. solve_occurrences.
  - rewrite (H _ (λ _, false)); [by rewrite E0|]. intros event. unfold kernel_incs. solve_occurrences.
Qed.

(** The latency is the difference of the first and the last stamp, and a
    station in between is skipped (0) or passed between these. *)
Definition points_ok (ev : KernelLatency.insp_kl_event_t) : Prop :=
  KernelLatency.point1 ev < KernelLatency.point4 ev ∧
  KernelLatency.latency ev = KernelLatency.point4 ev - KernelLatency.point1 ev ∧
  Forall (λ p, p = 0 ∨ KernelLatency.point1 ev <= p <= KernelLatency.point4 ev)
    [KernelLatency.point2 ev; KernelLatency.point3 ev].

(** The message accounts for the latency.  For a receive (transmit)
    event whose stamps are ordered, as the BPF program delivers them, the
    parts that the message names add up to the event's latency if the packet
    was seen at every station in between, and never exceed it. *)
Theorem kernel_breakdown (event : KernelLatency.insp_kl_event_t) (m : metrics_map)
    (Hfit : fits 64 (KernelLatency.point4 event)) (Hpos : 0 < KernelLatency.point1 event)
    (Hdir : KernelLatency.direction event = KernelLatency.RX_KLATENCY ∨
            KernelLatency.direction event = KernelLatency.TX_KLATENCY)
    (Hok : points_ok event)
    (Hord : KernelLatency.point3 event = 0 ∨ KernelLatency.point2 event <= KernelLatency.point3 event) :
  ∃ msg, (kernel_event event m).2 = Some msg ∧ m_latency msg = KernelLatency.latency event ∧
    parts_total msg <= KernelLatency.latency event ∧
    (KernelLatency.point2 event ≠ 0 -> KernelLatency.point3 event ≠ 0 -> parts_total msg = KernelLatency.latency event).
Proof.
  destruct Hok as (H14 & Hlat & [H2 [H3 _]%Forall_cons]%Forall_cons).
  assert (∀ a b, 0 <= b -> b < a -> a <= KernelLatency.point4 event -> u64 (a - b) = a - b) as Hu.
  { intros a b ? ? ?. apply wrap_sub_le; [done| |lia]. split; [lia|]. destruct Hfit. lia. }
  unfold kernel_event.
  destruct Hdir as [->| ->]; cbn; eexists; (split; [reflexivity|]); (split; [done|]);
    unfold parts_total; cbn [m_parts]; rewrite !part_total, Hlat; cbn [foldr];
    repeat match goal with |- context [?a >? ?b] => destruct (Z.gtb_spec a b) end;
    repeat match goal with |- context [?a =? 0] => destruct (Z.eqb_spec a 0) end; cbn [negb andb part foldr snd app];
    repeat match goal with |- context [u64 (?a - ?b)] => rewrite (Hu a b) by lia end; lia.
Qed.

(** ** Witnesses *)

Lemma kernel_lifecycle_witness :
  let p := (run [DoStart (Attempt false true) ProbeTypeMetrics; DoStart both_ok ProbeTypeMetrics] init).2 in
  is_Some (attached (bpf p)) ∧ reading (bpf p) = false.
Proof.
  pose proof (kernel_lifecycle [DoStart (Attempt false true) ProbeTypeMetrics; DoStart both_ok ProbeTypeMetrics]
    ltac:(repeat constructor)) as [Ha Hr]. cbv zeta. split; [apply Ha; vm_compute; done|].
  apply not_true_iff_false. intros E. apply Hr in E. vm_compute in E. done.
Defined.

Lemma kernel_breakdown_witness :
  let event := KernelLatency.KlEvent [] zero_tuple zero_meta 1 0 1 25000000 1000 2000 5001000 25001000 in
  ∃ msg, (kernel_event event ∅).2 = Some msg ∧
    m_parts msg = [("PREROUTING", 1000); ("ROUTE", 4999000); ("LOCAL_IN", 20000000)] ∧
    parts_total msg = 25000000.
Proof.
  intros event. destruct (kernel_breakdown event ∅) as (msg & E & _ & _ & Ht).
  - by split.
  - done.
  - by left.
  - repeat constructor; cbn; lia.
  - right. done.
  - exists msg. split; [exact E|]. split; [|apply Ht; done]. cbn in E. by injection E as <-.
Defined.
End AgentKernel.
