(* ===== verification/AgentSoftirq.v ===== *)
(** src/pkg/exporter/probe/tracesoftirq/tracesoftirq.go: the agent's side of
    the softirq probe.

    The metrics and the event probe each select softirq types; the BPF
    program is loaded with the union of both selections as its filter
    constant, and the perf loop filters again for each of the two.  [None] is
    a panic (index out of range).  The theorems follow the selection from the
    configuration through the kernel to the counters and the sink. *)

From Stdlib Require Import Ascii.
From Stdlib Require String.
From S2P Require Import Prelude CLayout VmlinuxAmd64 VmlinuxArm64 KernelMem BpfMaps BpfRuntime Intervals Softirq AgentLifecycle AgentMetrics.

Module AgentSoftirq.

Definition SOFTIRQ_SCHED_SLOW : string := "schedslow".
Definition SOFTIRQ_SCHED_100MS : string := "schedslow100ms".
Definition SOFTIRQ_EXCUTE_SLOW : string := "excuteslow".
Definition SOFTIRQ_EXCUTE_100MS : string := "excuteslow100ms".

Definition softirqTypes : list string :=
  ["hi"; "timer"; "net_tx"; "net_rx"; "block"; "irq_poll"; "tasklet"; "sched"; "hrtimer"; "rcu"].

Section agent.
(** [lo.IndexOf] *)
Context (IndexOf : list string -> string -> Z).

Definition convertIrqType (vec : Z) : option string := softirqTypes !! Z.to_nat vec.

Definition filterIrqEvent (filterBits vec : Z) : bool :=
  negb (Z.land filterBits (u32 (Z.shiftl 1 vec)) =? 0).

Definition enabledIrqTypes (filterBits : Z) : list string :=
  omap (λ '(i, bit), if negb (Z.land filterBits (u32 (Z.shiftl 1 i)) =? 0) then Some bit else None)
       (zip (seqZ 0 (Z.of_nat (length softirqTypes))) softirqTypes).

Definition softirqTypesBits (types : list string) : Z :=
  foldl (λ bits softirqType,
           let index := IndexOf softirqTypes softirqType in
           if index >=? 0 then Z.lor bits (u32 (Z.shiftl 1 index)) else bits) 0 types.

(** ** State *)

Record softirqProbe := MkProbe {
  refcnt : per_type nat;
  bpf : bpf_side Z;
  sink : bool;
  metricsProbeIrqTypes : Z;
  eventProbeIrqTypes : Z;
  ebpfProbeIrqType : Z;
  metricsMap : gmap string (gmap string Z);
}.

Definition init : softirqProbe :=
  MkProbe (PerType 0 0)%nat bpf_init false 0 0 0
    (list_to_map ((λ n, (n, ∅)) <$> [SOFTIRQ_SCHED_SLOW; SOFTIRQ_SCHED_100MS; SOFTIRQ_EXCUTE_SLOW; SOFTIRQ_EXCUTE_100MS])).

Definition set_lifecycle (r : per_type nat) (b : bpf_side Z) (bits : Z) (p : softirqProbe) : softirqProbe :=
  MkProbe r b (sink p) (metricsProbeIrqTypes p) (eventProbeIrqTypes p) bits (metricsMap p).
Definition set_metrics (m : gmap string (gmap string Z)) (p : softirqProbe) : softirqProbe :=
  MkProbe (refcnt p) (bpf p) (sink p) (metricsProbeIrqTypes p) (eventProbeIrqTypes p) (ebpfProbeIrqType p) m.

(** [metricsProbeCreator] and [eventProbeCreator]: the selection takes effect
    when the probe is created, not when it is started. *)
Definition probeCreator (t : ProbeType) (types : list string) (p : softirqProbe) : softirqProbe :=
  let types := match types with [] => ["net_rx"] | _ => types end in
  let bits := softirqTypesBits types in
  match t with
  | ProbeTypeMetrics =>
      MkProbe (refcnt p) (bpf p) (sink p) bits (eventProbeIrqTypes p) (ebpfProbeIrqType p) (metricsMap p)
  | ProbeTypeEvent =>
      MkProbe (refcnt p) (bpf p) (sink p) (metricsProbeIrqTypes p) bits (ebpfProbeIrqType p) (metricsMap p)
  end.

(** ** Lifecycle *)

Definition stop (t : ProbeType) (p : softirqProbe) : bool * softirqProbe :=
  if (at_type (refcnt p) t =? 0)%nat then (true, p)
  else
    let r := decr t (refcnt p) in
    if (totalReferenceCountLocked r =? 0)%nat
    then (false, set_lifecycle r (cleanup (bpf p)) (ebpfProbeIrqType p) p)
    else (false, set_lifecycle r (bpf p) (ebpfProbeIrqType p) p).

Definition start (a : attempt) (t : ProbeType) (p : softirqProbe) : bool * softirqProbe :=
  let r := incr t (refcnt p) in
  let bits := Z.lor (metricsProbeIrqTypes p) (eventProbeIrqTypes p) in
  let '(needLoad, b) :=
    if (totalReferenceCountLocked r =? 1)%nat then (true, bpf p)
    else if negb (ebpfProbeIrqType p =? bits) then (true, cleanup (bpf p))
    else (false, bpf p) in
  if needLoad then
    if load_ok a then (negb (reader_ok a), set_lifecycle r (new_reader (reader_ok a) (attach bits b)) bits p)
    else (true, set_lifecycle r (cleanup b) bits p)
  else (false, set_lifecycle r b (ebpfProbeIrqType p) p).

Definition Start (a : attempt) (t : ProbeType) (p : softirqProbe) : bool * softirqProbe :=
  let '(err, p) := start a t p in
  match t with
  | ProbeTypeMetrics => (err, p)
  | ProbeTypeEvent =>
      if err then (true, p)
      else (false, MkProbe (refcnt p) (bpf p) true (metricsProbeIrqTypes p) (eventProbeIrqTypes p)
                     (ebpfProbeIrqType p) (metricsMap p))
  end.

Inductive op :=
  | DoCreate (t : ProbeType) (types : list string)
  | DoStart (a : attempt) (t : ProbeType)
  | DoStop (t : ProbeType).

Definition exec (o : op) (p : softirqProbe) : bool * softirqProbe :=
  match o with
  | DoCreate t types => (false, probeCreator t types p)
  | DoStart a t => Start a t p
  | DoStop t => stop t p
  end.
Definition run : list op -> softirqProbe -> list bool * softirqProbe := run_all exec.

(** ** The perf loop *)

Definition updateMetrics (metrics : string) (irqType : Z) (p : softirqProbe) : option softirqProbe :=
  if negb (filterIrqEvent (metricsProbeIrqTypes p) irqType) then Some p
  else
    t ← convertIrqType irqType;
    Some (set_metrics (AgentMetrics.updateMetrics t metrics (metricsMap p)) p).

(** One event: the new state and what goes to the sink (type and label). *)
Definition softirq_event (event : Softirq.insp_softirq_event_t) (p : softirqProbe)
    : option (softirqProbe * list (string * string)) :=
  let vec := Softirq.vec_nr event in
  label ← convertIrqType vec;
  let slow := Softirq.latency event >? 100000000 in
  let finish ty p := Some (p, if filterIrqEvent (eventProbeIrqTypes p) vec && sink p then [(ty, label)] else []) in
  if Softirq.phase event =? 1 then
    p ← updateMetrics SOFTIRQ_SCHED_SLOW vec p;
    if slow then p ← updateMetrics SOFTIRQ_SCHED_100MS vec p; finish "SOFTIRQ_SCHED_100MS" p
    else finish "SOFTIRQ_SCHED_SLOW" p
  else if Softirq.phase event =? 2 then
    p ← updateMetrics SOFTIRQ_EXCUTE_SLOW vec p;
    if slow then p ← updateMetrics SOFTIRQ_EXCUTE_100MS vec p; finish "SOFTIRQ_EXCUTE_100MS" p
    else finish "SOFTIRQ_EXCUTE_SLOW" p
  else Some (p, []).

Fixpoint perfLoop (events : list Softirq.insp_softirq_event_t) (p : softirqProbe)
    : option (softirqProbe * list (string * string)) :=
  match events with
  | [] => Some (p, [])
  | event :: events' =>
      '(p, out) ← softirq_event event p;
      '(p, outs) ← perfLoop events' p;
      Some (p, out ++ outs)
  end.

(** [collectOnce], for one metric. *)
Definition collectOnce (metricsName : string) (p : softirqProbe) : list (string * Z) :=
  let values := default ∅ (metricsMap p !! metricsName) in
  (λ irqType, (irqType, default 0 (values !! irqType))) <$> enabledIrqTypes (metricsProbeIrqTypes p).
End agent.

(** ** Lemmas *)

(** What the code relies on: the index of the first occurrence, or -1. *)
Definition index_of_spec (IndexOf : list string -> string -> Z) : Prop :=
  ∀ l x, (x ∉ l ∧ IndexOf l x = -1) ∨ ∃ i : nat, l !! i = Some x ∧ IndexOf l x = Z.of_nat i.

Lemma shift_bit (v : Z) : 0 <= v < 32 -> u32 (Z.shiftl 1 v) = 2 ^ v.
Proof.
  intros Hv. rewrite Z.shiftl_1_l. apply wrap_small. split; [lia|]. apply Z.pow_lt_mono_r; lia.
Qed.

Lemma filter_testbit (bits v : Z) : 0 <= v < 32 -> filterIrqEvent bits v = Z.testbit bits v.
Proof.
  intros Hv. unfold filterIrqEvent. rewrite shift_bit by done. destruct (Z.testbit bits v) eqn:E.
  - apply negb_true_iff, Z.eqb_neq. intros H. apply (f_equal (λ z, Z.testbit z v)) in H.
    rewrite Z.land_spec, Z.pow2_bits_true, E, Z.bits_0 in H by lia. done.
  - apply negb_false_iff, Z.eqb_eq, Z.bits_inj'. intros n Hn. rewrite Z.land_spec, Z.bits_0.
    destruct (decide (n = v)) as [->|]; [by rewrite E|]. rewrite Z.pow2_bits_false by done. apply andb_false_r.
Qed.

Lemma filter_lor (b1 b2 v : Z) : 0 <= v < 32 -> filterIrqEvent (Z.lor b1 b2) v = filterIrqEvent b1 v || filterIrqEvent b2 v.
Proof. intros Hv. rewrite !filter_testbit by done. apply Z.lor_spec. Qed.

Lemma softirqTypes_NoDup : NoDup softirqTypes.
Proof. by apply (bool_decide_unpack _). Qed.

Lemma filter_zero (v : Z) : filterIrqEvent 0 v = false.
Proof. unfold filterIrqEvent. by rewrite Z.land_0_l. Qed.

Section bits.
Context (IndexOf : list string -> string -> Z) (HIndexOf : index_of_spec IndexOf).

(** Exactly the selected types pass. *)
Lemma types_bits (types : list string) (i : nat) :
  (i < 32)%nat ->
  filterIrqEvent (softirqTypesBits IndexOf types) (Z.of_nat i) =
  match softirqTypes !! i with Some t => bool_decide (t ∈ types) | None => false end.
Proof.
  intros Hi. rewrite filter_testbit by lia. unfold softirqTypesBits.
  induction types as [|x types IH] using rev_ind.
  { cbn [foldl]. rewrite Z.bits_0. destruct (softirqTypes !! i); [|done]. symmetry. apply bool_decide_eq_false, not_elem_of_nil. }
  rewrite foldl_app. cbn [foldl]. destruct (HIndexOf softirqTypes x) as [[Hx ->]|(j & Hj & ->)].
  - cbn. rewrite IH. destruct (softirqTypes !! i) as [t|] eqn:Et; [|done]. apply bool_decide_ext.
    rewrite elem_of_app, list_elem_of_singleton. split; [by left|]. intros [?| ->]; [done|].
    exfalso. apply Hx. by eapply list_elem_of_lookup_2.
  - assert (j < 32)%nat as Hj' by (apply lookup_lt_Some in Hj; cbn in Hj; lia).
    destruct (Z.geb_spec (Z.of_nat j) 0); [|lia]. rewrite Z.lor_spec, IH, shift_bit by lia.
    destruct (decide (i = j)) as [->|Hne].
    + rewrite Hj, Z.pow2_bits_true, orb_true_r by lia. symmetry. apply bool_decide_eq_true.
      apply elem_of_app. right. apply list_elem_of_here.
    + rewrite Z.pow2_bits_false, orb_false_r by lia. destruct (softirqTypes !! i) as [t|] eqn:Et; [|done].
      apply bool_decide_ext. rewrite elem_of_app, list_elem_of_singleton. split; [by left|]. intros [?| ->]; [done|].
      exfalso. apply Hne. eapply NoDup_lookup; [apply softirqTypes_NoDup|done..].
Qed.
End bits.

(** The metrics that an event belongs to, and the type it is reported with. *)
Definition event_names (event : Softirq.insp_softirq_event_t) : list string :=
  let slow := Softirq.latency event >? 100000000 in
  if Softirq.phase event =? 1 then SOFTIRQ_SCHED_SLOW :: (if slow then [SOFTIRQ_SCHED_100MS] else [])
  else SOFTIRQ_EXCUTE_SLOW :: (if slow then [SOFTIRQ_EXCUTE_100MS] else []).
Definition event_type (event : Softirq.insp_softirq_event_t) : string :=
  let slow := Softirq.latency event >? 100000000 in
  if Softirq.phase event =? 1 then (if slow then "SOFTIRQ_SCHED_100MS" else "SOFTIRQ_SCHED_SLOW")
  else (if slow then "SOFTIRQ_EXCUTE_100MS" else "SOFTIRQ_EXCUTE_SLOW").

(** The increments of an event and what it sends to the sink, by the two
    filters. *)
Definition irq_incs (filterBits : Z) (event : Softirq.insp_softirq_event_t) : list (string * string) :=
  match convertIrqType (Softirq.vec_nr event) with
  | Some t => if filterIrqEvent filterBits (Softirq.vec_nr event) then (λ n, (n, t)) <$> event_names event else []
  | None => []
  end.
Definition irq_sunk (filterBits : Z) (event : Softirq.insp_softirq_event_t) : list (string * string) :=
  match convertIrqType (Softirq.vec_nr event) with
  | Some t => if filterIrqEvent filterBits (Softirq.vec_nr event) then [(event_type event, t)] else []
  | None => []
  end.

Definition known_event (event : Softirq.insp_softirq_event_t) : Prop :=
  is_Some (convertIrqType (Softirq.vec_nr event)) ∧
  (Softirq.phase event = Softirq.PHASE_SCHED ∨ Softirq.phase event = Softirq.PHASE_EXCUTE).

Lemma updateMetrics_spec (n : string) (v : Z) (t : string) (p : softirqProbe) :
  convertIrqType v = Some t ->
  updateMetrics n v p =
  Some (set_metrics (if filterIrqEvent (metricsProbeIrqTypes p) v then bump (metricsMap p) (n, t) else metricsMap p) p).
Proof. intros Ht. unfold updateMetrics. rewrite Ht. destruct (filterIrqEvent _ v), p; done. Qed.

Lemma softirq_event_spec (event : Softirq.insp_softirq_event_t) (p : softirqProbe) :
  known_event event ->
  softirq_event event p =
  Some (set_metrics (foldl bump (metricsMap p) (irq_incs (metricsProbeIrqTypes p) event)) p,
        if sink p then irq_sunk (eventProbeIrqTypes p) event else []).
Proof.
  intros [[t Ht] Hph]. unfold softirq_event, irq_incs, irq_sunk, event_names, event_type. rewrite Ht. cbn [mbind option_bind].
  destruct Hph as [->| ->]; cbn [Softirq.PHASE_SCHED Softirq.PHASE_EXCUTE Z.eqb Pos.eqb];
    rewrite (updateMetrics_spec _ _ t) by done; cbn [mbind option_bind];
    destruct (Softirq.latency event >? 100000000); rewrite ?(updateMetrics_spec _ _ t) by done; cbn [mbind option_bind];
    cbn [eventProbeIrqTypes metricsProbeIrqTypes metricsMap sink set_metrics];
    by destruct (filterIrqEvent (metricsProbeIrqTypes p) _), (filterIrqEvent (eventProbeIrqTypes p) _), (sink p).
Qed.

Lemma perfLoop_spec (events : list Softirq.insp_softirq_event_t) (p : softirqProbe) :
  Forall known_event events ->
  perfLoop events p =
  Some (set_metrics (foldl bump (metricsMap p) (events ≫= irq_incs (metricsProbeIrqTypes p))) p,
        if sink p then events ≫= irq_sunk (eventProbeIrqTypes p) else []).
Proof.
  intros Hk. revert p. induction Hk as [|event events He _ IH]; intros p; cbn [perfLoop].
  - destruct p as [? ? [] ? ? ? ?]; done.
  - rewrite softirq_event_spec by done. cbn [mbind option_bind]. rewrite IH.
    cbn [eventProbeIrqTypes metricsProbeIrqTypes metricsMap sink set_metrics mbind option_bind list_bind].
    rewrite <- foldl_app. by destruct (sink p).
Qed.

(** What the kernel's program reports passed its filter. *)
Lemma kernel_events (bits : Z) (tr : list (env * Softirq.op)) (event : Softirq.insp_softirq_event_t) :
  event ∈ (run_calls (Softirq.handler bits) tr (percpu_empty : Softirq.entry_map)).2 ->
  filterIrqEvent bits (Softirq.vec_nr event) = true ∧
  (Softirq.phase event = Softirq.PHASE_SCHED ∨ Softirq.phase event = Softirq.PHASE_EXCUTE).
Proof.
  induction tr as [|c tr IH] using rev_ind; [by intros ?%elem_of_nil|].
  rewrite Softirq.run_snoc_events. intros [?|Hin]%elem_of_app; [by apply IH|].
  destruct (Softirq.filter_irqs bits (Softirq.op_vec c.2)) eqn:Hf; [|by apply elem_of_nil in Hin].
  unfold Softirq.measure_events in Hin.
  destruct (Softirq.history_measured tr c) as [[ph t]|] eqn:Em; [|by apply elem_of_nil in Hin].
  assert (ph = Softirq.PHASE_SCHED ∨ ph = Softirq.PHASE_EXCUTE) as Hph.
  { unfold Softirq.history_measured in Em. destruct c.2; [done|..].
    - destruct (Softirq.owner _ _) as [[]|]; simpl in Em; [|done]. destruct (_ =? _); [|done]. left. congruence.
    - destruct (Softirq.running _ _) as [slots|]; simpl in Em; [|done]. destruct (slots !! _); [|done]. right.
      simpl in Em. congruence. }
  destruct (negb _); [|by apply elem_of_nil in Hin]. destruct (_ >? _); [|by apply elem_of_nil in Hin].
  apply list_elem_of_singleton in Hin as ->. done.
Qed.

Lemma kernel_events_known (IndexOf : list string -> string -> Z) (HIndexOf : index_of_spec IndexOf)
    (tm te : list string) (tr : list (env * Softirq.op)) :
  Forall known_event
    (run_calls (Softirq.handler (Z.lor (softirqTypesBits IndexOf tm) (softirqTypesBits IndexOf te))) tr
       (percpu_empty : Softirq.entry_map)).2.
Proof.
  apply Forall_forall. intros event [Hf Hph]%kernel_events. split; [|done].
  pose proof (Softirq.filter_irqs_range _ _ Hf) as Hv. rewrite filter_lor in Hf by done.
  rewrite <- (Z2Nat.id (Softirq.vec_nr event)), !types_bits in Hf by (done || lia). unfold convertIrqType.
  destruct (softirqTypes !! Z.to_nat (Softirq.vec_nr event)); [by eexists|done].
Qed.

(** An event of type [t] that belongs to the metric [n]. *)
Definition counts_in (n t : string) (event : Softirq.insp_softirq_event_t) : bool :=
  bool_decide (convertIrqType (Softirq.vec_nr event) = Some t) && bool_decide (n ∈ event_names event).

Lemma event_names_NoDup (event : Softirq.insp_softirq_event_t) : NoDup (event_names event).
Proof. unfold event_names. repeat case_match; by apply (bool_decide_unpack _). Qed.

Lemma occurrences_names (n t t' : string) (names : list string) :
  NoDup names -> occurrences (n, t) ((λ n, (n, t')) <$> names) = if decide (t' = t ∧ n ∈ names) then 1 else 0.
Proof.
  induction 1 as [|x names Hx _ IH].
  - rewrite decide_False; [done|]. by intros [_ ?%elem_of_nil].
  - rewrite fmap_cons, occurrences_cons, IH.
    repeat case_decide; rewrite ?elem_of_cons in *; simplify_eq; naive_solver.
Qed.

(** A type passes the filter of a selection exactly if it is selected. *)
Lemma filter_selected (IndexOf : list string -> string -> Z) (HIndexOf : index_of_spec IndexOf) (types : list string)
    (v : Z) (t : string) :
  0 <= v -> convertIrqType v = Some t -> filterIrqEvent (softirqTypesBits IndexOf types) v = bool_decide (t ∈ types).
Proof.
  intros Hv Ht. pose proof (lookup_lt_Some _ _ _ Ht) as Hlt. cbn in Hlt.
  pose proof (types_bits IndexOf HIndexOf types (Z.to_nat v) ltac:(lia)) as H. unfold convertIrqType in Ht.
  rewrite Z2Nat.id, Ht in H by done. exact H.
Qed.

(** The state between operations that succeed. *)
Definition softirq_service (p : softirqProbe) : Prop :=
  match totalReferenceCountLocked (refcnt p) with
  | O => attached (bpf p) = None ∧ reading (bpf p) = false
  | S _ => attached (bpf p) = Some (ebpfProbeIrqType p) ∧ reading (bpf p) = true
  end.

Definition succeeds (o : op) : Prop := match o with DoStart a _ => a = both_ok | _ => True end.

Lemma Start_installs (t : ProbeType) (p : softirqProbe) :
  softirq_service p ->
  let p' := (Start both_ok t p).2 in
  (Start both_ok t p).1 = false ∧ refcnt p' = incr t (refcnt p) ∧
  metricsProbeIrqTypes p' = metricsProbeIrqTypes p ∧ eventProbeIrqTypes p' = eventProbeIrqTypes p ∧
  ebpfProbeIrqType p' = Z.lor (metricsProbeIrqTypes p) (eventProbeIrqTypes p) ∧
  attached (bpf p') = Some (ebpfProbeIrqType p') ∧ reading (bpf p') = true.
Proof.
  intros Hs. unfold softirq_service in Hs. unfold Start, start. rewrite total_incr.
  destruct (totalReferenceCountLocked (refcnt p)) as [|k]; cbn [Nat.eqb].
  - cbn [load_ok reader_ok both_ok negb]. destruct t; cbv zeta; cbn [fst snd set_lifecycle bpf refcnt ebpfProbeIrqType
      metricsProbeIrqTypes eventProbeIrqTypes]; by rewrite reading_new, attached_new.
  - destruct Hs as [Ha Hr]. destruct (Z.eqb_spec (ebpfProbeIrqType p) (Z.lor (metricsProbeIrqTypes p) (eventProbeIrqTypes p)));
      cbn [negb load_ok reader_ok both_ok]; destruct t; cbv zeta; cbn [fst snd set_lifecycle bpf refcnt ebpfProbeIrqType
      metricsProbeIrqTypes eventProbeIrqTypes]; rewrite ?reading_new, ?attached_new; split_and!; first [done|congruence].
Qed.

Lemma softirq_exec_service (IndexOf : list string -> string -> Z) (o : op) (p : softirqProbe) :
  succeeds o -> softirq_service p -> softirq_service (exec IndexOf o p).2.
Proof.
  destruct o as [t types|a t|t]; cbn [exec succeeds].
  - intros _. by destruct t.
  - intros -> Hs. destruct (Start_installs t p Hs) as (_ & Hr & _ & _ & _ & Ha & Hrd).
    unfold softirq_service. by rewrite Hr, total_incr.
  - intros _ Hs. unfold stop. destruct (Nat.eqb_spec (at_type (refcnt p) t) 0) as [E|E]; [done|].
    pose proof (total_decr t (refcnt p) E) as Ht. unfold softirq_service in *.
    destruct (totalReferenceCountLocked (decr t (refcnt p))) as [|k] eqn:Ed; cbn [Nat.eqb snd set_lifecycle refcnt bpf ebpfProbeIrqType];
      rewrite Ed; [by rewrite reading_cleanup|]. by rewrite <- Ht in Hs.
Qed.

Lemma omap_zip_filter {A : Type} (P : A -> Prop) `{!∀ x, Decision (P x)} (f : Z -> bool) (l : list A) :
  (∀ i x, l !! i = Some x -> f (Z.of_nat i) = bool_decide (P x)) ->
  omap (λ '(i, x), if f i then Some x else None) (zip (seqZ 0 (Z.of_nat (length l))) l) = filter P l.
Proof.
  change 0 with (Z.of_nat 0).
  assert (∀ k, (∀ i x, l !! i = Some x -> f (Z.of_nat (k + i)) = bool_decide (P x)) ->
    omap (λ '(i, x), if f i then Some x else None) (zip (seqZ (Z.of_nat k) (Z.of_nat (length l))) l) = filter P l) as Hk;
    [|by intros Hf; apply (Hk 0%nat)].
  induction l as [|x l IH]; intros k Hf; [done|]. cbn [length]. rewrite seqZ_cons by lia.
  replace (Z.succ (Z.of_nat k)) with (Z.of_nat (S k)) by lia.
  replace (Z.pred (Z.of_nat (S (length l)))) with (Z.of_nat (length l)) by lia. cbn [zip_with].
  pose proof (Hf 0%nat x eq_refl) as H0. rewrite Nat.add_0_r in H0. rewrite filter_cons.
  assert (∀ i y, l !! i = Some y -> f (Z.of_nat (S k + i)) = bool_decide (P y)) as Hf'.
  { intros i y Hy. replace (S k + i)%nat with (k + S i)%nat by lia. by apply Hf. }
  rewrite <- (IH (S k) Hf'). cbn. rewrite H0. by case_bool_decide; case_decide.
Qed.

(** The name the kernel gives to a type. *)
Definition upper (c : ascii) : ascii :=
  let n := Ascii.N_of_ascii c in if (97 <=? n)%N && (n <=? 122)%N then Ascii.ascii_of_N (n - 32) else c.
Definition kernel_name (type : string) : string :=
  (Stdlib.Strings.String.string_of_list_ascii (map upper (Stdlib.Strings.String.list_ascii_of_string type)) ++ "_SOFTIRQ")%string.

(** The agent names vectors as the kernel does: the position of a type in
    [softirqTypes] is the value of its enumerator, on both targets. *)
Lemma softirq_names :
  let named := zip (kernel_name <$> softirqTypes) (seqZ 0 10) in
  Amd64.softirqs = named ++ [("NR_SOFTIRQS"%string, 10)] ∧ Arm64.softirqs = named ++ [("NR_SOFTIRQS"%string, 10)].
Proof. split; vm_compute; done. Qed.

(** ** Properties *)

Section properties.
Context (IndexOf : list string -> string -> Z) (HIndexOf : index_of_spec IndexOf).

(** The selection survives its encoding: the enabled types of the filter bits
    are the selected ones, in the kernel's order; unknown names are ignored. *)
Theorem softirq_types_roundtrip (types : list string) :
  enabledIrqTypes (softirqTypesBits IndexOf types) = filter (λ t, t ∈ types) softirqTypes.
Proof.
  apply (omap_zip_filter (λ t, t ∈ types)). intros i t Ht.
  pose proof (filter_selected IndexOf HIndexOf types (Z.of_nat i) t) as Hf. unfold convertIrqType in Hf.
  rewrite Nat2Z.id in Hf. by apply Hf; [lia|].
Qed.

(** C25: End to end, counters and events follow the configuration.  Let the
    metrics and the event probe select types [tm] and [te], and let the
    kernel's program run with the union as its filter over any trace.  Then
    the agent handles all its events without panic; each counter grows by the
    number of events of its metric and type if the type is in [tm], and stays
    otherwise; and the sink gets exactly the events of types in [te], in
    order. *)
Theorem softirq_end_to_end (tm te : list string) (p : softirqProbe) (tr : list (env * Softirq.op))
    (Hm : metricsProbeIrqTypes p = softirqTypesBits IndexOf tm) (He : eventProbeIrqTypes p = softirqTypesBits IndexOf te) :
  let bits := Z.lor (metricsProbeIrqTypes p) (eventProbeIrqTypes p) in
  let events := (run_calls (Softirq.handler bits) tr (percpu_empty : Softirq.entry_map)).2 in
  ∃ p' sunk, perfLoop events p = Some (p', sunk) ∧
    (∀ n t, fits 64 (metric (metricsMap p) n t) ->
       metric (metricsMap p') n t =
       u64 (metric (metricsMap p) n t + if decide (t ∈ tm) then count (counts_in n t) events else 0)) ∧
    sunk = (if sink p
            then events ≫= λ event,
                   match convertIrqType (Softirq.vec_nr event) with
                   | Some t => if decide (t ∈ te) then [(event_type event, t)] else []
                   | None => []
                   end
            else []).
Proof.
  intros bits events. pose proof (kernel_events_known IndexOf HIndexOf tm te tr) as Hk.
  rewrite <- Hm, <- He in Hk. change (Forall known_event events) in Hk.
  assert (Forall (λ event, 0 <= Softirq.vec_nr event) events) as Hv.
  { apply Forall_forall. intros event [Hf _]%kernel_events. by apply Softirq.filter_irqs_range in Hf as [? _]. }
  eexists _, _. split; [by apply perfLoop_spec|]. split.
  - intros n t Hfit. cbn [metricsMap set_metrics]. rewrite metric_bumps by done. f_equal. f_equal.
    clearbody events. clear tr bits. rewrite Hm. induction events as [|event events IH]; [by case_decide|].
    apply Forall_cons in Hk as [[[t' Ht'] _] Hk]. apply Forall_cons in Hv as [Hv0 Hv].
    change (event :: events) with ([event] ++ events) at 1. rewrite bind_app, occurrences_app, (IH Hk Hv), count_cons. clear IH.
    assert (occurrences (n, t) ([event] ≫= irq_incs (softirqTypesBits IndexOf tm)) =
      if decide (t ∈ tm) then if counts_in n t event then 1 else 0 else 0) as ->; [|by case_decide].
    cbn [mbind list_bind]. rewrite app_nil_r. unfold irq_incs, counts_in. rewrite Ht', (filter_selected _ HIndexOf _ _ t') by done.
    case_bool_decide as Hin; [rewrite occurrences_names by apply event_names_NoDup|];
      repeat case_bool_decide; repeat case_decide; simplify_eq/=; naive_solver.
  - destruct (sink p); [|done]. rewrite He. clear Hk. clearbody events. induction Hv as [|event events Hv0 Hv IH]; [done|].
    cbn [mbind list_bind]. f_equal; [|exact IH]. unfold irq_sunk.
    destruct (convertIrqType (Softirq.vec_nr event)) as [t|] eqn:Et; [|done].
    rewrite (filter_selected _ HIndexOf _ _ t) by done. by case_bool_decide; case_decide.
Qed.
End properties.

(** The kernel filters what is configured.  If loading succeeds, then
    after any history of creating, starting and stopping the two probes with
    any selections, a start succeeds and leaves the program attached and read
    with the union of the two current selections as its filter. *)
Theorem softirq_start_installs (IndexOf : list string -> string -> Z) (os : list op) (t : ProbeType)
    (Hos : Forall succeeds os) :
  let p := (run IndexOf os init).2 in
  let p' := (Start both_ok t p).2 in
  (Start both_ok t p).1 = false ∧
  attached (bpf p') = Some (Z.lor (metricsProbeIrqTypes p') (eventProbeIrqTypes p')) ∧ reading (bpf p') = true.
Proof.
  assert (softirq_service (run IndexOf os init).2) as Hs
    by (apply (run_all_invariant (exec IndexOf) succeeds softirq_service); [apply softirq_exec_service|done|done]).
  cbv zeta. destruct (Start_installs t _ Hs) as (-> & _ & -> & -> & Hb & Ha & Hr). split; [done|]. by rewrite Ha, Hb.
Qed.

(** A failed start is not made up for: the filter bits are recorded before
    loading and the reference stays counted, so the next start returns success
    without loading anything. *)
Theorem softirq_failed_start (a a' : attempt) (t t' : ProbeType) (p : softirqProbe)
    (H0 : totalReferenceCountLocked (refcnt p) = 0%nat) (Hfail : load_ok a = false) :
  let p1 := (Start a t p).2 in
  (Start a t p).1 = true ∧ (Start a' t' p1).1 = false ∧ attached (bpf (Start a' t' p1).2) = None.
Proof.
  assert (Start a t p = (true, set_lifecycle (incr t (refcnt p)) (cleanup (bpf p))
    (Z.lor (metricsProbeIrqTypes p) (eventProbeIrqTypes p)) p)) as ->.
  { unfold Start, start. rewrite total_incr, H0, Hfail. by destruct t. }
  cbv zeta. cbn [fst snd]. split; [done|]. unfold Start, start. rewrite total_incr.
  cbn [refcnt set_lifecycle ebpfProbeIrqType metricsProbeIrqTypes eventProbeIrqTypes bpf]. rewrite total_incr, H0.
  cbn [Nat.eqb]. rewrite Z.eqb_refl. by destruct t'.
Qed.

(** ** Witnesses *)

Definition demo_index (l : list string) (x : string) : Z :=
  match list_find (x =.) l with Some (i, _) => Z.of_nat i | None => -1 end.

Lemma demo_index_spec : index_of_spec demo_index.
Proof.
  intros l x. unfold demo_index. destruct (list_find (x =.) l) as [[i y]|] eqn:E.
  - right. exists i. apply list_find_Some in E as (Hi & <- & _). by rewrite Hi.
  - left. split; [|done]. apply list_find_None in E. rewrite Forall_forall in E. intros Hin. by apply (E x Hin).
Qed.

Definition demo_probe : softirqProbe :=
  (run demo_index [DoCreate ProbeTypeMetrics ["net_rx"; "rcu"]; DoCreate ProbeTypeEvent ["net_tx"]] init).2.

Definition demo_trace : list (env * Softirq.op) :=
  let call t o := (demo_env (mem_of []) 0 t, o) in
  [call 1000 (Softirq.softirq_raise (Softirq.SoftirqArgs 0 3));
   call 150000000 (Softirq.softirq_entry (Softirq.SoftirqArgs 0 3));
   call 170000000 (Softirq.softirq_exit (Softirq.SoftirqArgs 0 3))].

Lemma softirq_end_to_end_witness :
  let events := (run_calls (Softirq.handler 524) demo_trace (percpu_empty : Softirq.entry_map)).2 in
  length events = 2%nat ∧
  ∃ p' sunk, perfLoop events demo_probe = Some (p', sunk) ∧
    metric (metricsMap p') SOFTIRQ_SCHED_100MS "net_rx" = 1 ∧ sunk = [].
Proof.
  split; [vm_compute; reflexivity|].
  destruct (softirq_end_to_end demo_index demo_index_spec ["net_rx"; "rcu"] ["net_tx"] demo_probe demo_trace
    ltac:(vm_compute; reflexivity) ltac:(vm_compute; reflexivity)) as (p' & sunk & E & Hm & Hs).
  exists p', sunk. split; [exact E|]. split; [|rewrite Hs; vm_compute; reflexivity].
  rewrite Hm; [vm_compute; reflexivity|]. vm_compute. split; [discriminate|reflexivity].
Defined.

Lemma softirq_start_installs_witness :
  attached (bpf (Start both_ok ProbeTypeEvent (run demo_index
    [DoCreate ProbeTypeMetrics ["net_rx"]; DoStart both_ok ProbeTypeMetrics; DoCreate ProbeTypeEvent ["net_tx"]] init).2).2)
  = Some 12.
Proof.
  destruct (softirq_start_installs demo_index
    [DoCreate ProbeTypeMetrics ["net_rx"]; DoStart both_ok ProbeTypeMetrics; DoCreate ProbeTypeEvent ["net_tx"]]
    ProbeTypeEvent ltac:(repeat constructor)) as (_ & -> & _). vm_compute. reflexivity.
Defined.
End AgentSoftirq.
