(* ===== verification/AgentSocket.v ===== *)
(** src/pkg/exporter/probe/tracesocketlatency/socketlatency.go: how the agent
    turns the counter map of socketlatency.c into the four metrics of a
    namespace.

    The BPF program counts per namespace, process, CPU, bucket and action,
    with an operation slower than 100 ms in one bucket only; [collect] adds
    the counters up.  The theorem follows the operations of a trace through
    both. *)

From S2P Require Import Prelude KernelMem BpfMaps BpfTracing BpfRuntime Intervals Inspector SocketLatency AgentMetrics.

Module AgentSocket.
Import SocketLatency.

Definition READ100MS : string := "read100ms".
Definition READ1MS : string := "read1ms".
Definition WRITE100MS : string := "write100ms".
Definition WRITE1MS : string := "write1ms".

Definition socketlatencyMetrics : list string := [READ100MS; READ1MS; WRITE100MS; WRITE1MS].

(** [res[name][netns] += value] *)
Definition add_metric (name : string) (netns value : Z) (res : metrics_map) : metrics_map :=
  alter (λ inner, <[netns := u64 (default 0 (inner !! netns) + value)]> inner) name res.

(** One entry of the map. *)
Definition collect_entry (res : metrics_map) (entry : insp_sklat_metric_t * Z) : metrics_map :=
  let '(key, value) := entry in
  let ns := m_netns key in
  if ns =? 0 then res else
  let res :=
    if m_action key =? 1 then
      if m_bucket key =? 1 then add_metric READ1MS ns value (add_metric READ100MS ns value res)
      else if m_bucket key =? 4 then add_metric READ1MS ns value res else res
    else res in
  if m_action key =? 2 then
    if m_bucket key =? 1 then add_metric WRITE1MS ns value (add_metric WRITE100MS ns value res)
    else if m_bucket key =? 4 then add_metric WRITE1MS ns value res else res
  else res.

(** [collect], with the entries in the order of the map iterator. *)
Definition collect (entries : list (insp_sklat_metric_t * Z)) : metrics_map :=
  foldl collect_entry (list_to_map ((λ name, (name, ∅)) <$> socketlatencyMetrics)) entries.

(** ** Specification vocabulary *)

(** The keys that a metric adds up. *)
Definition belongs (a : action) (slow : bool) (ns : Z) (k : insp_sklat_metric_t) : bool :=
  (m_netns k =? ns) && (m_action k =? action_code a) &&
  ((m_bucket k =? BUCKET100MS) || (negb slow && (m_bucket k =? BUCKET1MS))).

Definition metric_name (a : action) (slow : bool) : string :=
  match a, slow with
  | READ, true => READ100MS | READ, false => READ1MS | WRITE, true => WRITE100MS | WRITE, false => WRITE1MS
  end.

Definition threshold (slow : bool) : Z := if slow then LAT_THRESH_NS_100MS else LAT_THRESH_NS.

(** The reads (sends) of a history that come later than the threshold after
    the last receive (write) of their socket, in a namespace.  [pre] are the
    calls before. *)
Fixpoint slow_ops `{KernelLayout} (a : action) (slow : bool) (ns : Z) (pre tr : list (env * op)) : Z :=
  match tr with
  | [] => 0
  | c :: tr' =>
      (match latency_of_call pre c with
       | Some (a', lat) =>
           if (action_code a' =? action_code a) && (lat >? threshold slow) && (get_sock_netns (kmem c.1) (op_sk c.2) =? ns)
           then 1 else 0
       | None => 0
       end) + slow_ops a slow ns (pre ++ [c]) tr'
  end.

(** ** Lemmas *)

(** The names that an entry is added to. *)
Definition entry_names (k : insp_sklat_metric_t) : list string :=
  if m_netns k =? 0 then []
  else if m_action k =? 1 then
    if m_bucket k =? 1 then [READ100MS; READ1MS] else if m_bucket k =? 4 then [READ1MS] else []
  else if m_action k =? 2 then
    if m_bucket k =? 1 then [WRITE100MS; WRITE1MS] else if m_bucket k =? 4 then [WRITE1MS] else []
  else [].

Definition add_all (names : list string) (ns v : Z) (res : metrics_map) : metrics_map :=
  foldl (λ res name, add_metric name ns v res) res names.

Lemma collect_entry_names (res : metrics_map) (k : insp_sklat_metric_t) (v : Z) :
  collect_entry res (k, v) = add_all (entry_names k) (m_netns k) v res.
Proof.
  unfold collect_entry, entry_names. destruct (m_netns k =? 0); [done|].
  destruct (Z.eqb_spec (m_action k) 1) as [->|]; cbn [Z.eqb Pos.eqb]; by repeat case_match.
Qed.

Lemma metric_add (res : metrics_map) (n n' : string) (ns ns' v : Z) :
  is_Some (res !! n) ->
  metric (add_metric n ns v res) n' ns' =
    (if decide ((n, ns) = (n', ns')) then u64 (metric res n' ns' + v) else metric res n' ns') ∧
  ∀ x, is_Some (add_metric n ns v res !! x) <-> is_Some (res !! x).
Proof.
  intros [inner E]. unfold metric, add_metric. split.
  - destruct (decide (n = n')) as [<-|Hn].
    + rewrite lookup_alter_eq, E. cbn [fmap option_fmap option_map mbind option_bind]. destruct (decide (ns = ns')) as [<-|Hns].
      * rewrite decide_True by done. by rewrite lookup_insert_eq.
      * rewrite decide_False by congruence. by rewrite lookup_insert_ne.
    + rewrite decide_False by congruence. by rewrite lookup_alter_ne.
  - intros x. destruct (decide (n = x)) as [<-|]; [rewrite lookup_alter_eq, E; simpl; split; eauto|by rewrite lookup_alter_ne].
Qed.

Lemma metric_add_all (names : list string) (ns v : Z) (n : string) (ns' : Z) (res : metrics_map) :
  NoDup names -> (∀ x, x ∈ names -> is_Some (res !! x)) ->
  metric (add_all names ns v res) n ns' =
    (if decide (n ∈ names ∧ ns = ns') then u64 (metric res n ns' + v) else metric res n ns') ∧
  ∀ x, is_Some (add_all names ns v res !! x) <-> is_Some (res !! x).
Proof.
  intros Hnd. revert res. induction Hnd as [|x names Hx _ IH]; intros res Hs.
  - split; [|done]. rewrite decide_False; [done|]. by intros [?%elem_of_nil _].
  - unfold add_all in *. cbn [foldl].
    destruct (metric_add res x n ns ns' v) as [Hm Hd]; [apply Hs, list_elem_of_here|].
    destruct (IH (add_metric x ns v res)) as [Hm' Hd'].
    { intros y Hy. apply Hd, Hs. by apply list_elem_of_further. }
    split; [|intros y; by rewrite Hd', Hd]. rewrite Hm', Hm. clear Hm' Hm IH Hd Hd'.
    repeat case_decide; rewrite ?elem_of_cons in *; simplify_eq/=; naive_solver.
Qed.

(** Sums over a list. *)
Definition sum {A : Type} (f : A -> Z) (l : list A) : Z := foldr (λ x acc, f x + acc) 0 l.

Lemma sum_snoc {A : Type} (f : A -> Z) (l : list A) (x : A) : sum f (l ++ [x]) = sum f l + f x.
Proof. unfold sum. induction l as [|y l IH]; cbn [foldr app]; [lia|]. rewrite IH. lia. Qed.

(** One more occurrence of [h] adds one at the key [h]. *)
Lemma sum_add_one {K : Type} `{EqDecision K} (P : K -> bool) (f : K -> Z) (h : K) (ks : list K) :
  NoDup ks -> h ∈ ks ->
  sum (λ k, if P k then (if decide (h = k) then 1 else 0) + f k else 0) ks =
  (if P h then 1 else 0) + sum (λ k, if P k then f k else 0) ks.
Proof.
  induction 1 as [|k ks Hk Hnd IH]; [by intros ?%elem_of_nil|].
  cbn [sum foldr]. fold (sum (λ k, if P k then (if decide (h = k) then 1 else 0) + f k else 0) ks).
  fold (sum (λ k, if P k then f k else 0) ks). intros [->|Hin]%elem_of_cons.
  - rewrite decide_True by done.
    assert (sum (λ k0, if P k0 then (if decide (k = k0) then 1 else 0) + f k0 else 0) ks =
      sum (λ k0, if P k0 then f k0 else 0) ks) as ->; [|destruct (P k); lia].
    clear IH Hnd. induction ks as [|k' ks IH]; [done|]. rewrite not_elem_of_cons in Hk. destruct Hk as [Hne Hk].
    cbn [sum foldr]. unfold sum in IH. rewrite (IH Hk), decide_False by done. done.
  - rewrite (IH Hin), decide_False; [destruct (P k); lia|]. by intros ->.
Qed.

Definition contribution (a : action) (slow : bool) (ns : Z) (e : insp_sklat_metric_t * Z) : Z :=
  if belongs a slow ns e.1 then e.2 else 0.

Lemma entry_names_spec (a : action) (slow : bool) (ns : Z) (k : insp_sklat_metric_t) :
  ns ≠ 0 -> metric_name a slow ∈ entry_names k ∧ m_netns k = ns <-> belongs a slow ns k = true.
Proof.
  intros Hns. unfold entry_names, belongs, BUCKET100MS, BUCKET1MS. rewrite !andb_true_iff, orb_true_iff, andb_true_iff, !Z.eqb_eq.
  destruct (Z.eqb_spec (m_netns k) 0); [split; [intros [?%elem_of_nil _]; done|lia]|].
  destruct (Z.eqb_spec (m_action k) 1) as [->|]; [|destruct (Z.eqb_spec (m_action k) 2) as [->|]];
    (destruct (Z.eqb_spec (m_bucket k) 1) as [->|]; [|destruct (Z.eqb_spec (m_bucket k) 4) as [->|]]);
    destruct a, slow; cbn; rewrite ?elem_of_cons, ?elem_of_nil; unfold READ100MS, READ1MS, WRITE100MS, WRITE1MS;
    naive_solver lia.
Qed.

Lemma entry_names_NoDup (k : insp_sklat_metric_t) : NoDup (entry_names k) ∧ entry_names k ⊆ socketlatencyMetrics.
Proof.
  unfold entry_names. repeat case_match; (split; [by apply (bool_decide_unpack _)|]); set_solver.
Qed.

(** A metric of [collect] is the sum of the counters that belong to it. *)
Lemma collect_sum (a : action) (slow : bool) (ns : Z) (es : list (insp_sklat_metric_t * Z)) :
  ns ≠ 0 ->
  metric (collect es) (metric_name a slow) ns = u64 (sum (contribution a slow ns) es) ∧
  ∀ x, x ∈ socketlatencyMetrics -> is_Some (collect es !! x).
Proof.
  intros Hns. unfold collect. induction es as [|[k v] es [IHm IHd]] using rev_ind.
  - cbn [foldl]. split.
    + unfold metric, sum. by destruct a, slow.
    + intros x Hx. unfold socketlatencyMetrics in Hx. rewrite !elem_of_cons, elem_of_nil in Hx.
      destruct Hx as [->|[->|[->|[->|[]]]]]; by eexists.
  - rewrite foldl_app. cbn [foldl]. rewrite collect_entry_names.
    destruct (entry_names_NoDup k) as [Hnd Hsub].
    destruct (metric_add_all (entry_names k) (m_netns k) v (metric_name a slow) ns _ Hnd (λ x Hx, IHd x (Hsub x Hx))) as [Hm Hd].
    split; [|intros x Hx; by apply Hd, IHd]. rewrite Hm, IHm, sum_snoc.
    change (contribution a slow ns (k, v)) with (if belongs a slow ns k then v else 0).
    pose proof (entry_names_spec a slow ns k Hns) as Hb. case_decide as Hin.
    + rewrite (proj1 Hb Hin). unfold wrap. by rewrite Zplus_mod_idemp_l.
    + destruct (belongs a slow ns k); [naive_solver|]. by rewrite Z.add_0_r.
Qed.

Lemma sum_wrap {A : Type} (f g : A -> Z) (l : list A) :
  (∀ x, x ∈ l -> f x = u64 (g x)) -> u64 (sum f l) = u64 (sum g l).
Proof.
  induction l as [|x l IH]; intros H; [done|]. cbn [sum foldr]. fold (sum f l) (sum g l).
  rewrite (H x (list_elem_of_here _ _)). unfold wrap in *.
  rewrite Zplus_mod_idemp_l, <- Zplus_mod_idemp_r, IH, Zplus_mod_idemp_r; [done|].
  intros y Hy. apply H. by apply list_elem_of_further.
Qed.

(** Counting by key: the occurrences of the selected keys add up to the
    selected elements, if every element is a key. *)
Lemma sum_occurrences {K : Type} `{EqDecision K} (P : K -> bool) (ks hl : list K) :
  NoDup ks -> hl ⊆ ks ->
  sum (λ k, if P k then sum (λ h, if decide (h = k) then 1 else 0) hl else 0) ks = sum (λ h, if P h then 1 else 0) hl.
Proof.
  intros Hnd. induction hl as [|h hl IH]; intros Hsub.
  - cbn [sum foldr]. clear Hnd Hsub. induction ks as [|k ks IH]; [done|].
    unfold sum in *. cbn [foldr]. rewrite IH. by destruct (P k).
  - cbn [sum foldr]. fold (sum (λ h, if P h then 1 else 0) hl). rewrite <- IH by set_solver. clear IH.
    assert (h ∈ ks) as Hh by set_solver. clear Hsub.
    rewrite <- sum_add_one with (h := h) by done. reflexivity.
Qed.

Section trace.
Context `{KernelLayout} {ME : Type} `{!BpfMap ME Z sklat_key_t, !HashLaws ME Z sklat_key_t}.
Abbreviation counters := (htab 4096 insp_sklat_metric_t Z).
Implicit Types (s : state ME counters) (tr : list (env * op)).

(** The counter keys that a trace hits, in order. *)
Fixpoint hit_list tr s : list insp_sklat_metric_t :=
  match tr with
  | [] => []
  | c :: tr' => match hit c s with Some k => [k] | None => [] end ++ hit_list tr' (handler c.2 c.1 s).1.2
  end.

Lemma hits_list (k : insp_sklat_metric_t) tr s :
  hits k tr s = sum (λ h, if decide (h = k) then 1 else 0) (hit_list tr s).
Proof.
  revert s. induction tr as [|c tr IH]; intros s; [done|]. cbn [hits hit_list]. rewrite IH.
  destruct (hit c s) as [k'|]; cbn [app].
  - cbn [sum foldr]. fold (sum (λ h, if decide (h = k) then 1 else 0) (hit_list tr (handler c.2 c.1 s).1.2)). f_equal.
    destruct (decide (k' = k)) as [->|]; [by rewrite decide_True|]. rewrite decide_False; [done|congruence].
  - rewrite decide_False by done. lia.
Qed.

(** Whether one call counts, by its history and by its key. *)
Lemma slow_key (a a' : action) (slow : bool) (ns lat : Z) (c : env * op) :
  (if (action_code a' =? action_code a) && (lat >? threshold slow) && (get_sock_netns (kmem c.1) (op_sk c.2) =? ns) then 1 else 0) =
  if lat >? LAT_THRESH_NS then if belongs a slow ns (slow_metric c.1 (op_sk c.2) lat a') then 1 else 0 else 0.
Proof.
  destruct (Z.gtb_spec lat LAT_THRESH_NS) as [Hlat|Hlat].
  - unfold belongs, slow_metric. cbn [m_netns m_action m_bucket]. rewrite (andb_comm (get_sock_netns _ _ =? ns)).
    destruct (action_code a' =? action_code a), (get_sock_netns (kmem c.1) (op_sk c.2) =? ns);
      cbn [andb]; rewrite ?andb_false_r; try done. rewrite andb_true_r.
    destruct slow; cbn [threshold negb orb andb].
    + by destruct (Z.gtb_spec lat LAT_THRESH_NS_100MS).
    + destruct (Z.gtb_spec lat LAT_THRESH_NS); [|lia]. by destruct (Z.gtb_spec lat LAT_THRESH_NS_100MS).
  - assert (lat >? threshold slow = false) as ->; [|by rewrite andb_false_r].
    destruct slow; cbn [threshold]; unfold LAT_THRESH_NS_100MS, LAT_THRESH_NS in *;
      destruct (Z.gtb_spec lat (100 * 1000 * 1000)); destruct (Z.gtb_spec lat (1000 * 1000)); lia.
Qed.

Lemma slow_ops_list (a : action) (slow : bool) (ns : Z) pre tr s0 : initial s0 -> entries_room s0 (pre ++ tr) ->
  slow_ops a slow ns pre tr = sum (λ h, if belongs a slow ns h then 1 else 0) (hit_list tr (run_calls handler pre s0).1).
Proof.
  intros H0. revert pre. induction tr as [|c tr IH]; intros pre Hr; [done|]. cbn [slow_ops hit_list].
  rewrite IH by (by rewrite <- app_assoc). rewrite <- (measured_history s0 pre c H0) by (intros p q ->; apply (Hr p (q ++ c :: tr)); by rewrite app_assoc).
  rewrite run_calls_snoc. destruct (run_calls handler pre s0) as [s1 o1]. cbn [fst]. destruct (handler c.2 c.1 s1) as [[r s2] o2] eqn:Eh. cbn [fst snd].
  unfold hit. destruct (measured c s1) as [[a' lat]|]; cbn [mbind option_bind]; [|cbn [app]; lia]. rewrite slow_key.
  destruct (lat >? LAT_THRESH_NS); cbn [app]; [|lia]. unfold sum. cbn [foldr]. lia.
Qed.

(** Every key that was hit is in the map, if it has room. *)
Lemma hit_in_map tr s (k : insp_sklat_metric_t) :
  initial s -> map_full (metrics (run_calls handler tr s).1) = false -> k ∈ hit_list tr s ->
  is_Some (htab_elems (metrics (run_calls handler tr s).1) !! k).
Proof.
  intros H0 Hroom Hin. pose proof (hits_counted k s tr H0 0) as Hc. cbn in Hc.
  destruct (htab_elems (metrics (run_calls handler tr s).1) !! k); [by eexists|]. exfalso.
  destruct Hc as [Hz|Hf]; [|cbn in Hroom; congruence]. rewrite hits_list in Hz. revert Hz Hin. generalize (hit_list tr s). clear.
  intros l. assert (∀ l, 0 <= sum (λ h : insp_sklat_metric_t, if decide (h = k) then 1 else 0) l) as Hpos.
  { induction l0 as [|h l0 IH]; [done|]. unfold sum in *. cbn [foldr]. case_decide; lia. }
  induction l as [|h l IH]; [by intros _ ?%elem_of_nil|]. intros Hz Hin. unfold sum in *. cbn [foldr] in Hz.
  specialize (Hpos l). apply elem_of_cons in Hin as [->|Hin]; [rewrite decide_True in Hz by done; lia|].
  apply IH; [|done]. case_decide; lia.
Qed.

(** ** Properties *)

(** C3: End to end, the four metrics count the slow operations.  Run the
    BPF program from load on any history, with room in its map of sockets all
    along and room left in its counter map, and let the agent read the
    counters in any order: the read (write) metric for 1 ms or 100 ms of a
    namespace other than 0 is, modulo 2^64, the number of reads (sends) in the
    history that came later than that after the last receive (write) of their
    socket, which was created and not destroyed, with nothing in between. *)
Theorem sklat_metrics_end_to_end s0 tr (a : action) (slow : bool) (ns : Z) (es : list (insp_sklat_metric_t * Z))
    (H0 : initial s0) (Hsockets : entries_room s0 tr) (Hroom : map_full (metrics (run_calls handler tr s0).1) = false)
    (Hes : es ≡ₚ map_to_list (htab_elems (metrics (run_calls handler tr s0).1))) (Hns : ns ≠ 0) :
  metric (collect es) (metric_name a slow) ns = u64 (slow_ops a slow ns [] tr).
Proof.
  rewrite (proj1 (collect_sum a slow ns es Hns)), (slow_ops_list a slow ns [] tr s0 H0 Hsockets).
  change (run_calls handler [] s0).1 with s0. rewrite <- (sum_occurrences (belongs a slow ns) es.*1).
  - assert (∀ f : insp_sklat_metric_t -> Z, sum f es.*1 = sum (λ e, f e.1) es) as Hmap.
    { intros f. clear. induction es as [|e es IH]; [done|]. unfold sum in *. cbn. by rewrite IH. }
    rewrite Hmap. apply sum_wrap. intros [k v] Hin. unfold contribution. cbn [fst snd].
    rewrite Hes, elem_of_map_to_list in Hin. pose proof (hits_counted k s0 tr H0 0) as Hc. cbn in Hc. rewrite Hin in Hc.
    destruct (belongs a slow ns k); [|by rewrite wrap_0]. by rewrite Hc, hits_list.
  - rewrite Hes. apply NoDup_fst_map_to_list.
  - intros k Hk. destruct (hit_in_map tr s0 k H0 Hroom Hk) as [v Hv].
    apply list_elem_of_fmap. exists (k, v). split; [done|]. by rewrite Hes, elem_of_map_to_list.
Qed.
End trace.

(** ** Witness: two reads of a socket in namespace 4026531840, the first 2 ms
    and the second 300 ms after a receive *)

#[local] Existing Instance amd64_layout.

Definition demo_mem : mem :=
  mem_of [(4096 + sk_skc_net_net, le_bytes 8 65536); (65536 + net_ns_inum, le_bytes 4 4026531840)].
Definition demo_call (t : Z) (o : pt_regs -> op) : env * op := (demo_env demo_mem 1 t, o (demo_regs 4096 0 0)).
Definition demo_trace : list (env * op) :=
  [demo_call 1 inet_ehash_nolisten; demo_call 5 sock_def_readable; demo_call 2000005 tcp_cleanup_rbuf;
   demo_call 3000000 sock_def_readable; demo_call 303000000 tcp_cleanup_rbuf].

Definition demo_entries : list (insp_sklat_metric_t * Z) :=
  map_to_list (htab_elems (metrics (run_calls handler demo_trace demo_state).1)).

Lemma demo_room : entries_room demo_state demo_trace.
Proof.
  intros pre post E. assert (Forall (λ n, map_full (entries (run_calls handler (take n demo_trace) demo_state).1) = false) (seq 0 6)) as Hn
    by (repeat constructor; vm_compute; reflexivity).
  rewrite Forall_forall in Hn. specialize (Hn (length pre)). rewrite E, take_app_length in Hn. apply Hn, elem_of_seq.
  apply (f_equal length) in E. rewrite length_app in E. cbn in E. lia.
Qed.
Lemma sklat_metrics_end_to_end_witness :
  metric (collect demo_entries) (metric_name READ false) 4026531840 = 2 ∧
  metric (collect demo_entries) (metric_name READ true) 4026531840 = 1.
Proof.
  assert (map_full (metrics (run_calls handler demo_trace demo_state).1) = false) as Hroom by (vm_compute; reflexivity).
  assert (∀ slow, metric (collect demo_entries) (metric_name READ slow) 4026531840 =
    u64 (slow_ops READ slow 4026531840 [] demo_trace)) as H.
  { intros slow. exact (sklat_metrics_end_to_end demo_state demo_trace READ slow 4026531840 demo_entries
      sklat_demo_initial demo_room Hroom (Permutation_refl demo_entries) ltac:(lia)). }
  rewrite !H. split; vm_compute; reflexivity.
Defined.
End AgentSocket.
