(* ===== verification/AgentFlow.v ===== *)
(** src/pkg/exporter/probe/flow/flow.go and
    src/pkg/exporter/bpfutil/feature-switch.go: the agent's side of the flow
    probe.

    [collectOnce] adds up the per-CPU counters of a flow; [UpdateFeatureSwitch]
    sets a feature on every CPU; [dynamicLinkFlowHelper] follows the network
    devices that match a pattern.  The theorems say what the exported numbers
    count, that the switch reaches the program on every CPU, and which devices
    the helper misses. *)

From S2P Require Import Prelude KernelMem BpfMaps BpfRuntime Inspector FeatureSwitch Flow GoStrings GoFloat.

Module AgentFlow.

(** ** [metricsProbe.collectOnce] *)

(** The loop over the per-CPU values of one key. *)
Definition sum_values (values : list Flow.flow_metrics) : Flow.flow_metrics :=
  foldl (λ val v, Flow.FlowMetrics (u64 (Flow.packets val + Flow.packets v)) (u64 (Flow.bytes val + Flow.bytes v))
                    (Flow.drops val) (Flow.retrans val))
        (Flow.FlowMetrics 0 0 0 0) values.

(** The iterator gives each key with the values of all possible CPUs. *)
Definition collectOnce (entries : list (flow_tuple_4 * list Flow.flow_metrics)) : list (flow_tuple_4 * string * Z) :=
  entries ≫= λ '(key, values),
    let val := sum_values values in [(key, "bytes", float64 (Flow.bytes val)); (key, "packets", float64 (Flow.packets val))].

(** ** [bpfutil.UpdateFeatureSwitch] *)

(** User space writes the slots of all CPUs at once. *)
Definition UpdateFeatureSwitch {max : Z} (numCPUs : nat) (key value : Z) (m : percpu_array max Z)
    : percpu_array max Z * Z :=
  let values := replicate numCPUs value in
  if u32 key <? max
  then (PercpuArray (<[u32 key := list_to_map (zip (seqZ 0 (Z.of_nat numCPUs)) values)]> (pa_elems m)), 0)
  else (m, - E2BIG).

(** ** [dynamicLinkFlowHelper] *)

Definition HasPrefix (s pre : string) : bool := String.prefix pre s.
Definition HasSuffix (s suf : string) : bool :=
  (String.length suf <=? String.length s)%nat &&
  String.eqb (String.substring (String.length s - String.length suf) (String.length suf) s) suf.

Record link := Link { Name : string; Index : Z }.

(** The flows by device index, with the device they were started on. *)
Record helper := Helper { pattern : string; flows : gmap Z string }.

(** [ok]: whether the programs can be attached to the device. *)
Definition tryStartLinkFlow (ok : bool) (l : link) (h : helper) : helper :=
  match flows h !! Index l with
  | Some _ => h
  | None => if ok then Helper (pattern h) (<[Index l := Name l]> (flows h)) else h
  end.

Definition tryStopLinkFlow (index : Z) (h : helper) : helper :=
  match flows h !! index with
  | Some _ => Helper (pattern h) (delete index (flows h))
  | None => h
  end.

(** [start], up to the goroutines: the devices that exist. *)
Definition start_links (ok : link -> bool) (links : list link) (h : helper) : helper :=
  foldl (λ h l, if negb (HasPrefix (Name l) (pattern h)) then h else tryStartLinkFlow (ok l) l h) h links.

(** A notification; for a new device, the result of [netlink.LinkByIndex]. *)
Inductive change :=
  | NewLink (name : string) (index : Z) (found : option link) (ok : bool)
  | DelLink (name : string) (index : Z).

Definition change_name (c : change) : string := match c with NewLink n _ _ _ | DelLink n _ => n end.

Definition on_change (h : helper) (c : change) : helper :=
  if negb (HasSuffix (change_name c) (pattern h)) then h else
  match c with
  | NewLink _ _ (Some l) ok => tryStartLinkFlow ok l h
  | NewLink _ _ None _ => h
  | DelLink _ index => tryStopLinkFlow index h
  end.

(** ** Specification vocabulary *)

(** All packets and bytes of a flow, on whatever CPU. *)
Fixpoint total_packets {MF : Type} `{!BpfMap MF Z Z} (feat : MF) (t : flow_tuple_4) (tr : list (env * Flow.op)) : Z :=
  match tr with
  | [] => 0
  | c :: tr' => (if bool_decide (Flow.flow_of feat c = Some t) then 1 else 0) + total_packets feat t tr'
  end.
Fixpoint total_bytes {MF : Type} `{!BpfMap MF Z Z} (feat : MF) (t : flow_tuple_4) (tr : list (env * Flow.op)) : Z :=
  match tr with
  | [] => 0
  | c :: tr' =>
      (if bool_decide (Flow.flow_of feat c = Some t) then skb_len_ (Flow.op_skb c.2) else 0) + total_bytes feat t tr'
  end.

(** The number that a sample is about. *)
Definition total {MF : Type} `{!BpfMap MF Z Z} (feat : MF) (t : flow_tuple_4) (tr : list (env * Flow.op)) (name : string)
    : option Z :=
  if String.eqb name "packets" then Some (total_packets feat t tr)
  else if String.eqb name "bytes" then Some (total_bytes feat t tr) else None.

(** What the iterator returns for a map on a machine with [n] CPUs. *)
Definition read_map (n : nat) (m : Flow.flow_map) : list (flow_tuple_4 * list Flow.flow_metrics) :=
  (λ '(t, slots), (t, (λ i, default zeroed (slots !! Z.of_nat i)) <$> seq 0 n)) <$> map_to_list (lru_elems m).

(** ** Lemmas *)

Definition zsum (l : list Z) : Z := foldr Z.add 0 l.

Lemma zsum_cons (x : Z) (l : list Z) : zsum (x :: l) = x + zsum l.
Proof. done. Qed.

Lemma zsum_app (l1 l2 : list Z) : zsum (l1 ++ l2) = zsum l1 + zsum l2.
Proof. induction l1 as [|x l1 IH]; [done|]. cbn [app]. rewrite !zsum_cons, IH. lia. Qed.

Lemma sum_values_spec (values : list Flow.flow_metrics) :
  sum_values values =
  Flow.FlowMetrics (u64 (zsum (Flow.packets <$> values))) (u64 (zsum (Flow.bytes <$> values))) 0 0.
Proof.
  unfold sum_values. induction values as [|v values IH] using rev_ind; [done|].
  rewrite foldl_app, !fmap_app, !zsum_app, IH. cbn [foldl Flow.packets Flow.bytes Flow.drops Flow.retrans].
  unfold wrap. rewrite !Zplus_mod_idemp_l. f_equal; f_equal; cbn; lia.
Qed.

(** A quantity that lives on one CPU is found once when adding up the CPUs. *)
Lemma zsum_one_cpu (n : nat) (c x : Z) :
  0 <= c < Z.of_nat n -> zsum ((λ i, if c =? Z.of_nat i then x else 0) <$> seq 0 n) = x.
Proof.
  intros Hc. assert (∀ k m, c < Z.of_nat k ∨ Z.of_nat (k + m) <= c ->
    zsum ((λ i, if c =? Z.of_nat i then x else 0) <$> seq k m) = 0) as H0.
  { intros k m. revert k. induction m as [|m IH]; intros k Hk; [done|]. cbn [seq]. rewrite fmap_cons, zsum_cons.
    destruct (Z.eqb_spec c (Z.of_nat k)); [lia|]. rewrite (IH (S k)); lia. }
  replace n with (Z.to_nat c + S (n - Z.to_nat c - 1))%nat by lia.
  rewrite seq_app, fmap_app, zsum_app. cbn [seq]. rewrite Nat.add_0_l. rewrite fmap_cons, zsum_cons.
  rewrite H0 by lia. rewrite Z2Nat.id, Z.eqb_refl by lia. rewrite H0; lia.
Qed.

Lemma zsum_fmap_add {A : Type} (f g : A -> Z) (l : list A) : zsum ((λ x, f x + g x) <$> l) = zsum (f <$> l) + zsum (g <$> l).
Proof. induction l as [|x l IH]; [done|]. rewrite !fmap_cons, !zsum_cons, IH. lia. Qed.

Lemma zsum_wrap {A : Type} (f : A -> Z) (l : list A) : u64 (zsum ((λ x, u64 (f x)) <$> l)) = u64 (zsum (f <$> l)).
Proof.
  induction l as [|x l IH]; [done|]. rewrite !fmap_cons, !zsum_cons.
  unfold wrap in *. rewrite Zplus_mod_idemp_l, <- Zplus_mod_idemp_r, IH. by rewrite Zplus_mod_idemp_r.
Qed.

Lemma cpus_total {MF : Type} `{!BpfMap MF Z Z} (feat : MF) (t : flow_tuple_4) (n : nat) (tr : list (env * Flow.op)) :
  Forall (λ c, 0 <= smp_id c.1 < Z.of_nat n) tr ->
  zsum ((λ i, Flow.npackets feat (Z.of_nat i) t tr) <$> seq 0 n) = total_packets feat t tr ∧
  zsum ((λ i, Flow.nbytes feat (Z.of_nat i) t tr) <$> seq 0 n) = total_bytes feat t tr.
Proof.
  assert (zsum ((λ _, 0) <$> seq 0 n) = 0) as Hz.
  { generalize (seq 0 n). induction l as [|i l IH]; [done|]. by rewrite fmap_cons, zsum_cons, IH. }
  induction 1 as [|c tr Hc _ [IHp IHb]]; [done|].
  cbn [Flow.npackets Flow.nbytes total_packets total_bytes]. rewrite !zsum_fmap_add, IHp, IHb. unfold Flow.on_flow.
  case_bool_decide; cbn [andb]; [|by rewrite Hz].
  by rewrite !zsum_one_cpu.
Qed.

Lemma total_nonneg {MF : Type} `{!BpfMap MF Z Z} (feat : MF) (t : flow_tuple_4) (tr : list (env * Flow.op)) (name : string) (x : Z) :
  Forall (λ c, fits 32 (skb_len_ (Flow.op_skb c.2))) tr -> total feat t tr name = Some x -> 0 <= x.
Proof.
  intros Hlen. assert (0 <= total_packets feat t tr ∧ 0 <= total_bytes feat t tr) as [Hp Hb].
  { induction Hlen as [|c tr [Hc _] _ [IHp IHb]]; [done|]. cbn [total_packets total_bytes]. case_bool_decide; lia. }
  unfold total. repeat case_match; intros [= <-]; done.
Qed.

Lemma total_elem {MF : Type} `{!BpfMap MF Z Z} (feat : MF) (t : flow_tuple_4) (tr : list (env * Flow.op)) (name : string) (v : Z) :
  (name, v) ∈ [("bytes", float64 (u64 (total_bytes feat t tr))); ("packets", float64 (u64 (total_packets feat t tr)))]%string <->
  ∃ x, total feat t tr name = Some x ∧ v = float64 (u64 x).
Proof.
  rewrite !elem_of_cons, elem_of_nil. unfold total.
  destruct (String.eqb_spec name "packets") as [->|]; [naive_solver|].
  destruct (String.eqb_spec name "bytes") as [->|]; naive_solver.
Qed.

(** The sum over the CPUs of the entry of a flow. *)
Lemma sum_entry {MF : Type} `{!BpfMap MF Z Z} `{!LruPolicy flow_tuple_4 Flow.flow_metrics} (n : nat) (feat : MF)
    (m : Flow.flow_map) (tr : list (env * Flow.op)) (t : flow_tuple_4) (slots : gmap Z Flow.flow_metrics) :
  Flow.counted_all feat tr m -> Forall (λ c, 0 <= smp_id c.1 < Z.of_nat n) tr -> lru_elems m !! t = Some slots ->
  sum_values ((λ i, default zeroed (slots !! Z.of_nat i)) <$> seq 0 n) =
  Flow.FlowMetrics (u64 (total_packets feat t tr)) (u64 (total_bytes feat t tr)) 0 0.
Proof.
  intros [Hdom Hall] Hcpu Hs. assert (t ∈ Flow.flows feat tr) as Ht by (rewrite <- Hdom; by apply elem_of_dom_2 in Hs).
  assert (∀ i : nat, default zeroed (slots !! Z.of_nat i) = Flow.counters feat (Z.of_nat i) t tr) as Hi.
  { intros i. specialize (Hall t (Z.of_nat i) Ht). cbn in Hall. unfold lru_lookup in Hall. rewrite Hs in Hall.
    cbn in Hall. by injection Hall as ->. }
  rewrite (list_fmap_ext _ _ _ (λ _ i _, Hi i)), sum_values_spec, <- !list_fmap_compose. unfold compose.
  cbn [Flow.packets Flow.bytes Flow.counters]. rewrite !zsum_wrap.
  by destruct (cpus_total feat t n tr Hcpu) as [-> ->].
Qed.

Lemma samples_spec {MF : Type} `{!BpfMap MF Z Z} `{!LruPolicy flow_tuple_4 Flow.flow_metrics} (n : nat) (feat : MF)
    (m : Flow.flow_map) (tr : list (env * Flow.op)) :
  Flow.counted_all feat tr m -> Forall (λ c, 0 <= smp_id c.1 < Z.of_nat n) tr ->
  ∀ t name v, (t, name, v) ∈ collectOnce (read_map n m) <->
    t ∈ Flow.flows feat tr ∧ ∃ x, total feat t tr name = Some x ∧ v = float64 (u64 x).
Proof.
  intros Hc Hcpu t name v. rewrite <- total_elem, <- (proj1 Hc), elem_of_dom. unfold collectOnce, read_map.
  rewrite list_elem_of_bind. split.
  - intros ([t' values] & Hin & ([t'' slots] & [= -> ->] & Hs%elem_of_map_to_list)%list_elem_of_fmap).
    rewrite (sum_entry n feat m tr t'' slots Hc Hcpu Hs) in Hin. cbv zeta in Hin.
    rewrite !elem_of_cons, elem_of_nil in Hin. rewrite !elem_of_cons. cbn in Hin. naive_solver.
  - intros [[slots Hs] Hv]. exists (t, (λ i, default zeroed (slots !! Z.of_nat i)) <$> seq 0 n).
    rewrite (sum_entry n feat m tr t slots Hc Hcpu Hs). cbv zeta. split.
    + rewrite !elem_of_cons, elem_of_nil in Hv. rewrite !elem_of_cons. cbn. naive_solver.
    + apply list_elem_of_fmap. exists (t, slots). split; [done|]. by apply elem_of_map_to_list.
Qed.

(** ** Properties *)

(** C28: End to end, the exported flow numbers.  Run the tc programs from an
    empty map on any traffic with at most 65535 flows on a machine with [n]
    CPUs, whatever the eviction policy: the agent exports two samples for
    exactly the flows that occurred, the float64 numbers nearest to their
    packets and to their bytes (modulo 2^64), summed over the CPUs.  A sample is
    the number itself below 2^53, and is at most one part in 2^53 off below
    2^64. *)
Theorem flow_export_exact {MF : Type} `{!BpfMap MF Z Z} `{!LruPolicy flow_tuple_4 Flow.flow_metrics}
    (n : nat) (s0 : Flow.state Flow.flow_map MF) (tr : list (env * Flow.op))
    (H0 : lru_elems (Flow.metrics s0) = ∅)
    (Hlen : Forall (λ c, fits 32 (skb_len_ (Flow.op_skb c.2))) tr)
    (Hcpu : Forall (λ c, 0 <= smp_id c.1 < Z.of_nat n) tr)
    (Hsize : (size (Flow.flows (Flow.features s0) tr) <= N.to_nat 65535)%nat) :
  let samples := collectOnce (read_map n (Flow.metrics (run_calls Flow.handler tr s0).1)) in
  (∀ t name v, (t, name, v) ∈ samples <->
    t ∈ Flow.flows (Flow.features s0) tr ∧
    ∃ x, total (Flow.features s0) t tr name = Some x ∧ v = float64 (u64 x)) ∧
  (∀ t name v x, (t, name, v) ∈ samples -> total (Flow.features s0) t tr name = Some x ->
    (x < 2 ^ 53 -> v = x) ∧ (x < 2 ^ 64 -> 2 ^ 53 * Z.abs (v - x) <= x)).
Proof.
  intros samples. assert (∀ t name v, (t, name, v) ∈ samples <-> t ∈ Flow.flows (Flow.features s0) tr ∧
    ∃ x, total (Flow.features s0) t tr name = Some x ∧ v = float64 (u64 x)) as Hs.
  { apply (samples_spec n _ _ _ (Flow.run_counted_all s0 tr H0 Hlen Hsize) Hcpu). }
  split; [exact Hs|]. intros t name v x (_ & x' & Ex & ->)%Hs Ex'. simplify_eq.
  pose proof (total_nonneg (Flow.features s0) t tr name _ Hlen Ex). split; intros Hx; rewrite wrap_small by (split; lia).
  - by apply float64_exact.
  - by apply float64_error.
Qed.

(** The feature switch reaches every CPU.  After the agent has set a
    feature of the array, the programs see it on each of the machine's CPUs,
    and all other features are as before. *)
Theorem feature_switch_set {max : Z} (n : nat) (key value : Z) (m : percpu_array max Z)
    (Hkey : 0 <= key < max) (Hmax : max <= 2 ^ 32) :
  let '(m', ret) := UpdateFeatureSwitch n key value m in
  ret = 0 ∧
  (∀ cpu, 0 <= cpu < Z.of_nat n -> enabled_on cpu m' key = negb (value =? 0)) ∧
  (∀ cpu key', 0 <= key' < max -> key' ≠ key -> enabled_on cpu m' key' = enabled_on cpu m key').
Proof.
  assert (∀ k, 0 <= k < max -> u32 k = k) as Hu by (intros k Hk; apply wrap_small; split; lia).
  unfold UpdateFeatureSwitch. rewrite Hu by done. rewrite (proj2 (Z.ltb_lt key max)) by lia. split; [done|].
  unfold enabled_on. cbn [bpf_map_lookup_elem percpu_array_map]. unfold percpu_array_lookup. cbn [pa_elems]. split.
  - intros cpu Hcpu. rewrite Hu by done. rewrite (proj2 (Z.ltb_lt key max)) by lia. rewrite lookup_insert_eq. cbn [from_option id].
    rewrite (elem_of_list_to_map_1 _ cpu value); [done| |].
    + rewrite fst_zip by (rewrite length_seqZ, length_replicate; lia). apply NoDup_seqZ.
    + apply list_elem_of_lookup. exists (Z.to_nat cpu). rewrite lookup_zip_with, lookup_seqZ_lt by lia.
      rewrite lookup_replicate_2 by lia. cbn. do 2 f_equal. lia.
  - intros cpu key' Hk' Hne. rewrite !Hu by done. by rewrite lookup_insert_ne by done.
Qed.

(** The pattern is a prefix when the helper starts and a suffix afterwards:
    a matching device that appears or disappears later is ignored unless its
    name also ends with the pattern. *)
Theorem dynamic_device_missed (h : helper) (name : string) (index : Z) (found : option link) (ok : bool)
    (Hpre : HasPrefix name (pattern h) = true) (Hsuf : HasSuffix name (pattern h) = false) :
  (∃ h', start_links (λ _, true) [Link name index] h = h' ∧ is_Some (flows h' !! index)) ∧
  on_change h (NewLink name index found ok) = h ∧ on_change h (DelLink name index) = h.
Proof.
  split.
  - eexists. split; [done|]. unfold start_links. cbn [foldl Name]. rewrite Hpre. cbn [negb]. unfold tryStartLinkFlow. cbn [Index Name].
    destruct (flows h !! index) as [d|] eqn:E; [by rewrite E|]. cbn [flows]. rewrite lookup_insert_eq. by eexists.
  - unfold on_change. cbn [change_name]. by rewrite Hsuf.
Qed.

(** ** Witnesses *)

#[local] Instance demo_policy : LruPolicy flow_tuple_4 Flow.flow_metrics := λ m, fst <$> head (map_to_list m).

Lemma flow_export_exact_witness :
  (Flow.demo_flow, "packets", 3) ∈
  collectOnce (read_map 4 (Flow.metrics (run_calls Flow.handler Flow.demo_trace Flow.demo_state).1)).
Proof.
  refine (proj2 (proj1 (flow_export_exact 4 Flow.demo_state Flow.demo_trace eq_refl Flow.demo_lengths _ _) Flow.demo_flow "packets" 3) _).
  - repeat (apply Forall_cons; split; [cbn; lia|]). done.
  - assert (size (Flow.flows Flow.demo_features Flow.demo_trace) = 1%nat) as Hs by (vm_compute; done).
    cbn [Flow.features Flow.demo_state]. rewrite Hs. lia.
  - split; [apply (bool_decide_unpack _); vm_compute; done|]. exists 3. split; vm_compute; reflexivity.
Defined.

Lemma feature_switch_set_witness :
  enabled_on 3 (UpdateFeatureSwitch 4 0 1 (PercpuArray ∅ : percpu_array 16 Z)).1 0 = true.
Proof.
  exact (proj1 (proj2 (feature_switch_set 4 0 1 (PercpuArray ∅ : percpu_array 16 Z) ltac:(lia) ltac:(lia))) 3 ltac:(lia)).
Defined.

Lemma dynamic_device_missed_witness :
  on_change (Helper "eth" ∅) (NewLink "eth1" 7 (Some (Link "eth1" 7)) true) = Helper "eth" ∅ ∧
  on_change (Helper "eth" ∅) (NewLink "veth" 8 (Some (Link "veth" 8)) true) = Helper "eth" {[8 := "veth"]}.
Proof.
  split; [|vm_compute; reflexivity].
  exact (proj1 (proj2 (dynamic_device_missed (Helper "eth" ∅) "eth1" 7 (Some (Link "eth1" 7)) true eq_refl eq_refl))).
Defined.
End AgentFlow.
