(* ===== verification/GoSha1.v ===== *)
(** crypto/sha1 and encoding/hex, as far as the names of Calico's interfaces
    need them: a text's bytes, padded and hashed block by block. *)

From Stdlib Require Import Ascii.
From S2P Require Import Prelude GoStrings.

Definition rotl (n x : Z) : Z := u32 (Z.lor (Z.shiftl x n) (Z.shiftr x (32 - n))).
Definition not32 (x : Z) : Z := Z.lxor x 0xFFFFFFFF.

(** Eight bytes of the length in bits, the high one first. *)
Definition be_bytes (n : nat) (x : Z) : list Z := (λ i, u8 (Z.shiftr x (8 * Z.of_nat (n - 1 - i)))) <$> seq 0 n.
Definition sha1_pad (msg : list Z) : list Z :=
  let l := length msg in
  let zeros := ((119 - l mod 64) mod 64)%nat in
  msg ++ 0x80 :: replicate zeros 0 ++ be_bytes 8 (8 * Z.of_nat l).

Definition word_of (bs : list Z) : Z := foldl (λ w b, 256 * w + b) 0 bs.
Fixpoint chunks (n fuel : nat) (l : list Z) : list (list Z) :=
  match fuel, l with S fuel', _ :: _ => take n l :: chunks n fuel' (drop n l) | _, _ => [] end.

(** The words of a block, extended to 80; the list is in reverse. *)
Definition extend (ws : list Z) : list Z := rotl 1 (Z.lxor (Z.lxor (nth 2 ws 0) (nth 7 ws 0)) (Z.lxor (nth 13 ws 0) (nth 15 ws 0))) :: ws.
Definition schedule (block : list Z) : list Z := rev (Nat.iter 64 extend (rev (word_of <$> chunks 4 16 block))).

Record digest := MkDigest { h0 : Z; h1 : Z; h2 : Z; h3 : Z; h4 : Z }.
Definition round (d : digest) (iw : nat * Z) : digest :=
  let '(MkDigest a b c d e) := d in let '(i, w) := iw in
  let '(f, k) :=
    if (i <? 20)%nat then (Z.lor (Z.land b c) (Z.land (not32 b) d), 0x5A827999)
    else if (i <? 40)%nat then (Z.lxor (Z.lxor b c) d, 0x6ED9EBA1)
    else if (i <? 60)%nat then (Z.lor (Z.land (Z.lor b c) d) (Z.land b c), 0x8F1BBCDC)
    else (Z.lxor (Z.lxor b c) d, 0xCA62C1D6) in
  MkDigest (u32 (rotl 5 a + f + e + w + k)) a (rotl 30 b) c d.
Definition block_step (d : digest) (block : list Z) : digest :=
  let r := foldl round d (zip (seq 0 80) (schedule block)) in
  MkDigest (u32 (h0 d + h0 r)) (u32 (h1 d + h1 r)) (u32 (h2 d + h2 r)) (u32 (h3 d + h3 r)) (u32 (h4 d + h4 r)).
Definition sha1_init : digest := MkDigest 0x67452301 0xEFCDAB89 0x98BADCFE 0x10325476 0xC3D2E1F0.

Definition string_bytes (s : string) : list Z := code <$> String.list_ascii_of_string s.
Definition Sum (s : string) : list Z :=
  let msg := sha1_pad (string_bytes s) in
  let d := foldl block_step sha1_init (chunks 64 (length msg) msg) in
  be_bytes 4 (h0 d) ++ be_bytes 4 (h1 d) ++ be_bytes 4 (h2 d) ++ be_bytes 4 (h3 d) ++ be_bytes 4 (h4 d).
Definition hex_char (d : Z) : ascii := char (Z.to_nat (if d <? 10 then 48 + d else 87 + d)).
Definition EncodeToString (bs : list Z) : string := String.string_of_list_ascii (bs ≫= λ b, [hex_char (b / 16); hex_char (b mod 16)]).

(** The test vectors of the standard. *)
Lemma sha1_samples :
  EncodeToString (Sum "abc") = "a9993e364706816aba3e25717850c26c9cd0d89d"%string ∧
  EncodeToString (Sum EmptyString) = "da39a3ee5e6b4b0d3255bfef95601890afd80709"%string ∧
  EncodeToString (Sum "abcdbcdecdefdefgefghfghighijhijkijkljklmklmnlmnomnopnopq") = "84983e441c3bd26ebaae4aa1f95129e5e54670f1"%string.
Proof. split_and!; vm_compute; reflexivity. Qed.

(** A digest has twenty bytes, and twice as many digits. *)
Lemma Sum_length (s : string) : length (Sum s) = 20%nat.
Proof. done. Qed.
Lemma hex_length (bs : list Z) : length (bs ≫= λ b, [hex_char (b / 16); hex_char (b mod 16)]) = (2 * length bs)%nat.
Proof. induction bs as [|b bs IH]; [done|]. cbn. rewrite IH. cbn. lia. Qed.
