(* ===== verification/GoResult.v ===== *)
(** Outcomes of Go code that can return an error or panic, and the stable
    sort of the sort package. *)

From S2P Require Import Prelude.

(** ** Outcomes *)

Inductive result (E A : Type) := Ok (a : A) | Err (e : E) | Panic.
Arguments Ok {E A} _.
Arguments Err {E A} _.
Arguments Panic {E A}.

#[global] Instance result_eq_dec {E A : Type} `{EqDecision E, EqDecision A} : EqDecision (result E A).
Proof. solve_decision. Defined.

#[global] Instance result_ret {E : Type} : MRet (result E) := λ A a, Ok a.
#[global] Instance result_bind {E : Type} : MBind (result E) :=
  λ A B f m, match m with Ok a => f a | Err e => Err e | Panic => Panic end.

(** A pointer that is followed. *)
Definition deref {E A : Type} (p : option A) : result E A := match p with Some a => Ok a | None => Panic end.

(** ** sort.SliceStable

    Its result is determined by its contract if [less] is a strict weak order:
    sorted, and equal elements in their old order.  Insertion from the right
    is the shortest program that fulfils it. *)

Section stable_sort.
Context {A : Type} (less : A -> A -> bool).

Fixpoint insert_stable (x : A) (l : list A) : list A :=
  match l with
  | [] => [x]
  | y :: l' => if less y x then y :: insert_stable x l' else x :: y :: l'
  end.
Fixpoint SliceStable (l : list A) : list A :=
  match l with [] => [] | x :: l' => insert_stable x (SliceStable l') end.

(** The element that a search for [p] finds in the sorted slice: none of those
    before it in the slice is as good, none of those after it is better. *)
Definition chosen (p : A -> Prop) (l : list A) (x : A) : Prop :=
  ∃ l1 l2, l = l1 ++ x :: l2 ∧ p x ∧ (∀ y, y ∈ l1 -> p y -> less x y = true) ∧ (∀ y, y ∈ l2 -> p y -> less y x = false).

(** ** Lemmas *)

(** [le] is "not greater". *)
Context (less_asym : ∀ a b, less a b = true -> less b a = false).
Context (le_trans : ∀ a b c, less b a = false -> less c b = false -> less c a = false).

Fixpoint sorted (l : list A) : Prop :=
  match l with [] => True | x :: l' => (∀ y, y ∈ l' -> less y x = false) ∧ sorted l' end.

Lemma insert_stable_elem (x y : A) (l : list A) : y ∈ insert_stable x l <-> y = x ∨ y ∈ l.
Proof.
  induction l as [|z l IH]; cbn [insert_stable]; [by rewrite !elem_of_cons|].
  destruct (less z x); rewrite !elem_of_cons, ?IH; naive_solver.
Qed.

Lemma insert_stable_sorted (x : A) (l : list A) : sorted l -> sorted (insert_stable x l).
Proof.
  induction l as [|z l IH]; cbn [insert_stable sorted]; [intros _; split; [by intros y ?%elem_of_nil|done]|].
  intros [Hz Hl]. destruct (less z x) eqn:E; cbn [sorted].
  - split; [|by apply IH]. intros y [-> | Hy]%insert_stable_elem; [by apply less_asym|by apply Hz].
  - split; [|done]. intros y [-> | Hy]%elem_of_cons; [done|]. eapply le_trans; [exact E|by apply Hz].
Qed.

Lemma SliceStable_sorted (l : list A) : sorted (SliceStable l).
Proof. induction l as [|x l IH]; [done|]. by apply insert_stable_sorted. Qed.

(** Searching the slice after an insertion. *)
Lemma find_insert (p : A -> bool) (x : A) (l : list A) :
  sorted l ->
  List.find p (insert_stable x l) =
  match List.find p l with
  | Some y => if p x && negb (less y x) then Some x else Some y
  | None => if p x then Some x else None
  end.
Proof.
  induction l as [|z l IH]; cbn [insert_stable sorted]; [done|]. intros [Hz Hl].
  destruct (less z x) eqn:E; cbn [List.find].
  - destruct (p z) eqn:Ez; [by rewrite E, andb_false_r|]. by apply IH.
  - destruct (p x) eqn:Ex; cbn [andb].
    + destruct (p z) eqn:Ez; [by rewrite E|]. destruct (List.find p l) as [y|] eqn:Ef; [|done].
      apply List.find_some in Ef as [Hy%list_elem_of_In _]. by rewrite (le_trans x z y E (Hz y Hy)).
    + destruct (p z); [done|]. by destruct (List.find p l).
Qed.

Lemma find_SliceStable (p : A -> bool) (l : list A) :
  match List.find p (SliceStable l) with
  | Some x => chosen (λ y, p y = true) l x
  | None => ∀ x, x ∈ l -> p x = false
  end.
Proof.
  induction l as [|z l IH]; cbn [SliceStable]; [by intros x ?%elem_of_nil|].
  rewrite find_insert by apply SliceStable_sorted. destruct (List.find p (SliceStable l)) as [y|].
  - destruct IH as (l1 & l2 & -> & Hp & H1 & H2). destruct (p z) eqn:Ez; cbn [andb].
    + destruct (less y z) eqn:E; cbn [negb].
      * exists (z :: l1), l2. split_and!; [done|done| |done]. intros w [-> | Hw]%elem_of_cons Hpw; [done|by apply H1].
      * exists [], (l1 ++ y :: l2). split_and!; [done|done|by intros w ?%elem_of_nil|].
        intros w Hw Hpw. apply elem_of_app in Hw as [Hw|[-> | Hw]%elem_of_cons]; [|done|].
        -- eapply le_trans; [exact E|]. by apply less_asym, H1.
        -- eapply le_trans; [exact E|]. by apply H2.
    + exists (z :: l1), l2. split_and!; [done|done| |done]. intros w [-> | Hw]%elem_of_cons Hpw; [congruence|by apply H1].
  - destruct (p z) eqn:Ez.
    + exists [], l. split_and!; [done|done|by intros w ?%elem_of_nil|]. intros w Hw Hpw. by rewrite IH in Hpw.
    + intros w [-> | Hw]%elem_of_cons; [done|by apply IH].
Qed.

Lemma chosen_ext (p q : A -> Prop) (l : list A) (x : A) : (∀ y, p y <-> q y) -> chosen p l x -> chosen q l x.
Proof.
  intros Hpq (l1 & l2 & E & Hx & H1 & H2). exists l1, l2. split_and!; [done|by apply Hpq| |].
  - intros y Hy Hq. apply H1; [done|by apply Hpq].
  - intros y Hy Hq. apply H2; [done|by apply Hpq].
Qed.

Lemma chosen_elem (p : A -> Prop) (l : list A) (x : A) : chosen p l x -> x ∈ l ∧ p x.
Proof. intros (l1 & l2 & -> & Hx & _). split; [|done]. rewrite elem_of_app, elem_of_cons. auto. Qed.

(** No other element with [p] is better. *)
Lemma chosen_best (p : A -> Prop) (l : list A) (x y : A) : chosen p l x -> y ∈ l -> p y -> less y x = true -> False.
Proof.
  intros (l1 & l2 & -> & Hx & H1 & H2) Hy Hp Hless. apply elem_of_app in Hy as [Hy|[-> |Hy]%elem_of_cons].
  - pose proof (less_asym _ _ Hless). pose proof (H1 y Hy Hp). congruence.
  - pose proof (less_asym _ _ Hless). congruence.
  - by rewrite (H2 y Hy Hp) in Hless.
Qed.

(** There is at most one such element. *)
Lemma chosen_unique (p : A -> Prop) (l : list A) (x y : A) : chosen p l x -> chosen p l y -> x = y.
Proof.
  intros (l1 & l2 & -> & Hx & H1 & H2) (k1 & k2 & E & Hy & G1 & G2).
  apply app_eq_inv in E as [(k & -> & E)|(k & -> & E)]; destruct k as [|z k]; simpl in E; try by injection E.
  - injection E as <- ->. assert (less x y = true) as Hless by (apply H1; [rewrite elem_of_app, elem_of_cons; auto|done]).
    rewrite (G2 x) in Hless; [done|rewrite elem_of_app, elem_of_cons; auto|done].
  - injection E as <- ->. assert (less y x = true) as Hless by (apply G1; [rewrite elem_of_app, elem_of_cons; auto|done]).
    rewrite (H2 y) in Hless; [done|rewrite elem_of_app, elem_of_cons; auto|done].
Qed.
End stable_sort.

(** Which element is chosen depends on the order, not on how it is written. *)
Lemma chosen_less {A : Type} (less less' : A -> A -> bool) (p : A -> Prop) (l : list A) (x : A) :
  (∀ a b, less a b = less' a b) -> chosen less p l x -> chosen less' p l x.
Proof.
  intros Heq (l1 & l2 & E & Hx & H1 & H2). exists l1, l2. split_and!; [done|done| |].
  - intros y Hy Hp. rewrite <- Heq. by apply H1.
  - intros y Hy Hp. rewrite <- Heq. by apply H2.
Qed.

(** The first element without [P] is determined. *)
Lemma first_unique {A : Type} (P : A -> Prop) (l1 l2 k1 k2 : list A) (x y : A) :
  k1 ++ y :: k2 = l1 ++ x :: l2 -> Forall P l1 -> Forall P k1 -> ¬ P x -> ¬ P y -> y = x.
Proof.
  intros E Hl Hk Hx Hy.
  apply app_eq_inv in E as [(k & -> & E)|(k & -> & E)]; destruct k as [|z k]; simpl in E; try congruence; injection E as <- ->.
  - rewrite Forall_app, Forall_cons in Hk. naive_solver.
  - rewrite Forall_app, Forall_cons in Hl. naive_solver.
Qed.
