(* ===== verification/GoNet.v ===== *)
(** The part of Go's net package that the diagnosis command (src/pkg/skoop)
    uses: addresses, masks, prefixes, and their text.

    An [IP] is the slice of its bytes: 4 or 16 of them, or none (nil).  The
    lemmas say that [Contains] compares leading bits, that [Size] counts them,
    and that parsing undoes printing. *)

From Stdlib Require Import Ascii.
From S2P Require Import Prelude GoStrings.

(** ** Addresses *)

Definition IP : Type := list Z.

Definition v4InV6Prefix : list Z := replicate 10 0 ++ [255; 255].
Definition IPv4 (a b c d : Z) : IP := v4InV6Prefix ++ [a; b; c; d].

Definition To4 (ip : IP) : option IP :=
  if bool_decide (length ip = 4%nat) then Some ip
  else if bool_decide (length ip = 16%nat) && bool_decide (take 12 ip = v4InV6Prefix) then Some (drop 12 ip)
  else None.

Definition Equal (ip x : IP) : bool :=
  if bool_decide (length ip = length x) then bool_decide (ip = x)
  else if bool_decide (length ip = 4%nat ∧ length x = 16%nat) then bool_decide (take 12 x = v4InV6Prefix ∧ ip = drop 12 x)
  else if bool_decide (length ip = 16%nat ∧ length x = 4%nat) then bool_decide (take 12 ip = v4InV6Prefix ∧ drop 12 ip = x)
  else false.

Definition IsUnspecified (ip : IP) : bool := Equal ip (IPv4 0 0 0 0) || Equal ip (replicate 16 0).
Definition IsMulticast (ip : IP) : bool :=
  match To4 ip with
  | Some ip4 => Z.land (default 0 (ip4 !! 0%nat)) 240 =? 224
  | None => bool_decide (length ip = 16%nat) && (default 0 (ip !! 0%nat) =? 255)
  end.

(** ** Masks and prefixes *)

Record IPNet := MkIPNet { net_IP : IP; net_Mask : list Z }.

#[global] Instance IPNet_eq_dec : EqDecision IPNet.
Proof. solve_decision. Defined.

(** The bytes of a mask with [n] leading ones. *)
Fixpoint mask_bytes (n : Z) (l : nat) : list Z :=
  match l with
  | O => []
  | S l' => if 8 <=? n then 255 :: mask_bytes (n - 8) l' else (255 - Z.shiftr 255 n) :: mask_bytes 0 l'
  end.
Definition CIDRMask (ones bits : Z) : list Z :=
  if ((bits =? 32) || (bits =? 128)) && (0 <=? ones) && (ones <=? bits) then mask_bytes ones (Z.to_nat (bits / 8)) else [].

(** The leading ones of a byte if the rest is zero. *)
Fixpoint byte_ones (fuel : nat) (v : Z) : option Z :=
  match fuel with
  | O => if v =? 0 then Some 0 else None
  | S fuel' => if Z.testbit v 7 then (Z.succ <$> byte_ones fuel' (u8 (2 * v))) else if v =? 0 then Some 0 else None
  end.
Fixpoint simpleMaskLength (mask : list Z) : option Z :=
  match mask with
  | [] => Some 0
  | v :: mask' =>
      if v =? 255 then (λ n, 8 + n) <$> simpleMaskLength mask'
      else if forallb (λ v, v =? 0) mask' then byte_ones 8 v else None
  end.
(** The first result of [Size]. *)
Definition Size (mask : list Z) : Z := default 0 (simpleMaskLength mask).

Definition networkNumberAndMask (n : IPNet) : list Z * list Z :=
  let ip := default (net_IP n) (To4 (net_IP n)) in
  let m := net_Mask n in
  if negb (bool_decide (length ip = 4%nat ∨ length ip = 16%nat)) then ([], [])
  else if bool_decide (length m = 4%nat) then (if bool_decide (length ip = 4%nat) then (ip, m) else ([], []))
  else if bool_decide (length m = 16%nat) then (ip, if bool_decide (length ip = 4%nat) then drop 12 m else m)
  else ([], []).

Fixpoint masked_eq (a b m : list Z) : bool :=
  match a, b, m with
  | x :: a', y :: b', v :: m' => (Z.land x v =? Z.land y v) && masked_eq a' b' m'
  | _, _, _ => true
  end.

(** [IPNet.Contains] *)
Definition Contains_IP (n : IPNet) (ip : IP) : bool :=
  let '(nn, m) := networkNumberAndMask n in
  let ip := default ip (To4 ip) in
  bool_decide (length ip = length nn) && masked_eq nn ip m.

(** [(IP).Mask] *)
Definition Mask (ip : IP) (mask : list Z) : IP :=
  let mask := if bool_decide (length mask = 16%nat ∧ length ip = 4%nat ∧ take 12 mask = replicate 12 255) then drop 12 mask else mask in
  let ip := if bool_decide (length mask = 4%nat ∧ length ip = 16%nat ∧ take 12 ip = v4InV6Prefix) then drop 12 ip else ip in
  if bool_decide (length ip = length mask) then zip_with Z.land ip mask else [].

(** ** Text *)

(** The four fields of an IPv4 address: no leading zero, no value above
    255, no empty field. *)
Definition parse_octet (f : string) : option Z :=
  match f with
  | EmptyString => None
  | String c rest =>
      if negb (exists_char (λ c, negb (is_digit c)) f) && negb (Ascii.eqb c "0" && negb (String.eqb rest EmptyString))
      then match parse_digits 10 255 false 0 f with Num v => Some v | _ => None end
      else None
  end.
Definition parseIPv4 (s : string) : option IP :=
  match Split "." s with
  | [a; b; c; d] => va ← parse_octet a; vb ← parse_octet b; vc ← parse_octet c; vd ← parse_octet d; Some [va; vb; vc; vd]
  | _ => None
  end.

(** Up to four hexadecimal digits: their value, their number, the rest. *)
Fixpoint hex_group (n : nat) (acc : Z) (s : string) : option (Z * nat * string) :=
  match s with
  | EmptyString => Some (acc, n, s)
  | String c s' =>
      match digit c with
      | Some d => if d <? 16 then (if (3 <? n)%nat then None else hex_group (S n) (acc * 16 + d) s') else Some (acc, n, s)
      | None => Some (acc, n, s)
      end
  end.

(** The loop of [parseIPv6]: the bytes read, and where the ellipsis is. *)
Fixpoint groups6 (fuel : nat) (ip : list Z) (ellipsis : option nat) (s : string) : option (list Z * option nat) :=
  match fuel with
  | O => match s with EmptyString => Some (ip, ellipsis) | _ => None end
  | S fuel' =>
      if bool_decide (16 ≤ length ip)%nat then match s with EmptyString => Some (ip, ellipsis) | _ => None end
      else
      '(acc, n, rest) ← hex_group 0 0 s;
      if bool_decide (n = 0%nat) then None else
      match rest with
      | String "." _ =>
          if bool_decide (ellipsis = None ∧ length ip ≠ 12%nat) || bool_decide (16 < length ip + 4)%nat then None
          else v4 ← parseIPv4 s; Some (ip ++ v4, ellipsis)
      | _ =>
          let ip := ip ++ [acc / 256; acc mod 256] in
          match rest with
          | EmptyString => Some (ip, ellipsis)
          | String ":" (String ":" rest') =>
              if bool_decide (is_Some ellipsis) then None
              else match rest' with
                   | EmptyString => Some (ip, Some (length ip))
                   | _ => groups6 fuel' ip (Some (length ip)) rest'
                   end
          | String ":" EmptyString => None
          | String ":" rest' => groups6 fuel' ip ellipsis rest'
          | _ => None
          end
      end
  end.
Definition parseIPv6 (s : string) : option IP :=
  if Contains "%" s then None else
  let '(ellipsis, s) := match s with String ":" (String ":" s') => (Some 0%nat, s') | _ => (None, s) end in
  if bool_decide (ellipsis = Some 0%nat ∧ s = EmptyString) then Some (replicate 16 0) else
  '(ip, ellipsis) ← groups6 9 [] ellipsis s;
  match ellipsis with
  | None => if bool_decide (length ip = 16%nat) then Some ip else None
  | Some e => if bool_decide (length ip < 16)%nat then Some (take e ip ++ replicate (16 - length ip) 0 ++ drop e ip) else None
  end.

(** [netip.ParseAddr] without zones: the first of '.' and ':' decides. *)
Fixpoint first_of (s : string) : option bool :=
  match s with
  | EmptyString => None
  | String "." _ => Some true
  | String ":" _ => Some false
  | String "%" _ => None
  | String _ s' => first_of s'
  end.
Definition ParseAddr (s : string) : option IP :=
  v4 ← first_of s; if v4 : bool then parseIPv4 s else parseIPv6 s.

Definition As16 (ip : IP) : IP := if bool_decide (length ip = 4%nat) then v4InV6Prefix ++ ip else ip.
Definition ParseIP (s : string) : option IP := As16 <$> ParseAddr s.

(** The network of [ParseCIDR]. *)
Definition ParseCIDR (s : string) : option IPNet :=
  match Split "/" s with
  | addr :: m :: rest =>
      let mask := String.concat "/" (m :: rest) in
      ip ← ParseAddr addr;
      if exists_char (λ c, negb (is_digit c)) mask || String.eqb mask EmptyString then None else
      match parse_digits 10 (0xFFFFFF - 1) false 0 mask with
      | Num n =>
          let bits := 8 * Z.of_nat (length ip) in
          if n <=? bits then Some (MkIPNet (Mask (As16 ip) (CIDRMask n bits)) (CIDRMask n bits)) else None
      | _ => None
      end
  | _ => None
  end.

(** [(IP).String] *)
Definition string4 (ip : IP) : string := String.concat "." (dec <$> ip).

Definition hex_digit_lower (d : Z) : ascii := char (Z.to_nat (if d <? 10 then 48 + d else 87 + d)).
Fixpoint hex_go (fuel : nat) (n : Z) (acc : string) : string :=
  match fuel with
  | O => acc
  | S fuel' =>
      let acc := String (hex_digit_lower (n mod 16)) acc in
      if n <? 16 then acc else hex_go fuel' (n / 16) acc
  end.
Definition hex (n : Z) : string := hex_go 16 n EmptyString.

Fixpoint groups_of (ip : IP) : list Z :=
  match ip with a :: b :: ip' => 256 * a + b :: groups_of ip' | _ => [] end.
Fixpoint zero_run (gs : list Z) : nat := match gs with g :: gs' => if g =? 0 then S (zero_run gs') else O | [] => O end.
(** The first longest run of at least two zero groups. *)
Fixpoint longest_run (i : nat) (gs : list Z) (best : option (nat * nat)) : option (nat * nat) :=
  match gs with
  | [] => best
  | _ :: gs' =>
      let n := zero_run gs in
      longest_run (S i) gs'
        (if ((2 <=? n) && (match best with Some (_, m) => m | None => 0 end <? n))%nat then Some (i, n) else best)
  end.
Definition string6 (ip : IP) : string :=
  let gs := groups_of ip in
  match longest_run 0 gs None with
  | Some (i, n) => (String.concat ":" (hex <$> take i gs) ++ "::" ++ String.concat ":" (hex <$> drop (i + n) gs))%string
  | None => String.concat ":" (hex <$> gs)
  end.

Definition hex_byte (b : Z) : string := String (hex_digit_lower (b / 16)) (String (hex_digit_lower (b mod 16)) EmptyString).
Definition IP_String (ip : IP) : string :=
  if bool_decide (ip = []) then "<nil>"
  else match To4 ip with
  | Some ip4 => string4 ip4
  | None =>
      if bool_decide (length ip = 16%nat) then string6 ip
      else String "?" (String.concat EmptyString (hex_byte <$> ip))
  end.

(** [IPNet.String] *)
Definition IPNet_String (n : IPNet) : string :=
  let '(nn, m) := networkNumberAndMask n in
  if bool_decide (nn = []) then "<nil>"
  else match simpleMaskLength m with
  | Some l => (IP_String nn ++ "/" ++ dec l)%string
  | None => (IP_String nn ++ "/" ++ String.concat EmptyString (hex_byte <$> m))%string
  end.

(** Some addresses, read and printed. *)
Lemma net_samples :
  ParseIP "10.0.0.1" = Some (IPv4 10 0 0 1) ∧ ParseIP "10.0.0.01" = None ∧ ParseIP "10.0.0.256" = None ∧
  ParseIP "10.0.0" = None ∧ ParseIP "fe80::1" = Some ([254; 128] ++ replicate 13 0 ++ [1]) ∧
  ParseIP "::ffff:10.0.0.1" = Some (IPv4 10 0 0 1) ∧ ParseIP "1:2" = None ∧ ParseIP "1::2::3" = None ∧
  IP_String <$> ParseIP "fe80:0:0:1:0:0:0:1" = Some "fe80:0:0:1::1"%string ∧
  IP_String <$> ParseIP "1:0:2:3:4:5:6:7" = Some "1:0:2:3:4:5:6:7"%string ∧
  IP_String <$> ParseIP "::" = Some "::"%string ∧
  ParseCIDR "10.1.2.3/16" = Some (MkIPNet [10; 1; 0; 0] [255; 255; 0; 0]) ∧
  (IPNet_String <$> ParseCIDR "0.0.0.0/0") = Some "0.0.0.0/0"%string ∧ ParseCIDR "10.0.0.0/33" = None ∧
  (IPNet_String <$> ParseCIDR "fe80::1/64") = Some "fe80::/64"%string.
Proof. split_and!; vm_compute; reflexivity. Qed.

(** ** Lemmas *)

(** The number that the bytes of an address write. *)
Fixpoint be_val (bs : list Z) : Z :=
  match bs with [] => 0 | b :: bs' => b * 2 ^ (8 * Z.of_nat (length bs')) + be_val bs' end.

Lemma be_val_bound (bs : list Z) : Forall is_byte bs -> 0 <= be_val bs < 2 ^ (8 * Z.of_nat (length bs)).
Proof.
  induction 1 as [|b bs Hb _ IH]; [done|]. cbn [be_val length]. unfold is_byte, fits in Hb.
  replace (8 * Z.of_nat (S (length bs))) with (8 + 8 * Z.of_nat (length bs)) by lia. rewrite Z.pow_add_r by lia.
  change (2 ^ 8) with 256 in *. nia.
Qed.

Lemma masked_eq_zero (a b : list Z) (l : nat) : masked_eq a b (mask_bytes 0 l) = true.
Proof.
  revert a b. induction l as [|l IH]; intros [|x a] [|y b]; try done. cbn [mask_bytes Z.leb masked_eq].
  change (0 <=? 0) with true. change (8 <=? 0) with false. cbn [masked_eq]. rewrite IH.
  change (255 - Z.shiftr 255 0) with 0. by rewrite !Z.land_0_r.
Qed.

(** The leading [n] bits of two bytes. *)
Lemma masked_byte (n x y : Z) :
  0 <= n < 8 -> is_byte x -> is_byte y ->
  Z.land x (255 - Z.shiftr 255 n) = Z.land y (255 - Z.shiftr 255 n) <-> x / 2 ^ (8 - n) = y / 2 ^ (8 - n).
Proof.
  intros Hn Hx Hy. unfold is_byte, fits in *. change (2 ^ 8) with 256 in *.
  assert (∀ x, 0 <= x < 256 -> Z.land x (255 - Z.shiftr 255 n) = x / 2 ^ (8 - n) * 2 ^ (8 - n)) as H.
  { intros z Hz. rewrite <- Z.shiftr_div_pow2, <- Z.shiftl_mul_pow2 by lia.
    apply Z.bits_inj'. intros i Hi. rewrite Z.land_spec, Z.shiftl_spec by done.
    assert (255 - Z.shiftr 255 n = Z.shiftl (Z.ones n) (8 - n)) as ->.
    { assert (n ∈ [0;1;2;3;4;5;6;7]) as Hin by (rewrite !elem_of_cons; lia).
      repeat (apply elem_of_cons in Hin as [->|Hin]; [done|]). by apply elem_of_nil in Hin. }
    rewrite Z.shiftl_spec by done. destruct (decide (i < 8 - n)).
    - rewrite !(Z.testbit_neg_r _ (i - (8 - n))) by lia. apply andb_false_r.
    - rewrite Z.shiftr_spec by lia. replace (i - (8 - n) + (8 - n)) with i by lia.
      destruct (decide (i < 8)).
      + rewrite Z.ones_spec_low by lia. apply andb_true_r.
      + replace (Z.testbit z i) with false; [done|]. symmetry. apply Z.testbit_false; [done|].
        rewrite Z.div_small; [done|]. split; [lia|]. assert (2 ^ 8 <= 2 ^ i) by (apply Z.pow_le_mono_r; lia).
        change (2 ^ 8) with 256 in *. lia. }
  rewrite !H by done. assert (0 < 2 ^ (8 - n)) by (apply Z.pow_pos_nonneg; lia). split; [|by intros ->].
  intros E. nia.
Qed.

Lemma div_split (a r q m : Z) : 0 <= m -> 0 <= r < 2 ^ (q + m) -> 0 <= q -> (a * 2 ^ (q + m) + r) / 2 ^ m = a * 2 ^ q + r / 2 ^ m.
Proof.
  intros Hm Hr Hq. assert (0 < 2 ^ m) by (apply Z.pow_pos_nonneg; lia).
  replace (a * 2 ^ (q + m) + r) with (r + a * 2 ^ q * 2 ^ m) by (rewrite Z.pow_add_r by lia; lia).
  rewrite Z.div_add by lia. lia.
Qed.

Lemma base_inj (p x y u v : Z) : 0 <= u < p -> 0 <= v < p -> x * p + u = y * p + v -> x = y ∧ u = v.
Proof.
  intros Hu Hv E. assert (x = y) as ->; [|lia].
  assert ((x * p + u) / p = (y * p + v) / p) as E' by (by rewrite E).
  rewrite !(Z.add_comm (_ * p)), !Z.div_add, !Z.div_small in E' by lia. lia.
Qed.

(** [Contains] compares the leading bits. *)
Lemma masked_eq_prefix (a b : list Z) (n : Z) :
  length a = length b -> Forall is_byte a -> Forall is_byte b -> 0 <= n <= 8 * Z.of_nat (length a) ->
  masked_eq a b (mask_bytes n (length a)) = true <->
  be_val a / 2 ^ (8 * Z.of_nat (length a) - n) = be_val b / 2 ^ (8 * Z.of_nat (length a) - n).
Proof.
  revert b n. induction a as [|x a IH]; intros [|y b] n Hl Ha Hb Hn; try done.
  injection Hl as Hl. apply Forall_cons in Ha as [Hx Ha]. apply Forall_cons in Hb as [Hy Hb].
  pose proof (be_val_bound a Ha) as Ba. pose proof (be_val_bound b Hb) as Bb. rewrite <- Hl in Bb.
  cbn [length mask_bytes be_val]. rewrite <- Hl. set (l := Z.of_nat (length a)) in *.
  replace (8 * Z.of_nat (S (length a)) - n) with (8 * l + (8 - n)) by lia. destruct (Z.leb_spec 8 n) as [H8|H8].
  - cbn [masked_eq]. unfold is_byte, fits in Hx, Hy. assert (∀ z, 0 <= z < 2 ^ 8 -> Z.land z 255 = z) as Hland.
    { intros z Hz. change 255 with (Z.ones 8). rewrite Z.land_ones, Z.mod_small by lia. done. }
    cbn [length] in Hn. rewrite !Hland by done. rewrite andb_true_iff, Z.eqb_eq, (IH b (n - 8)) by (done || lia).
    replace (8 * l - (n - 8)) with (8 * l + (8 - n)) by lia.
    replace (8 * l) with ((n - 8) + (8 * l + (8 - n))) in Ba, Bb |- * by lia.
    set (m := 8 * l + (8 - n)) in *. replace (n - 8 + m + (8 - n)) with m in * by lia.
    rewrite !(div_split _ _ (n - 8) m) by lia.
    assert (∀ r, 0 <= r < 2 ^ (n - 8 + m) -> 0 <= r / 2 ^ m < 2 ^ (n - 8)) as Hd.
    { intros r Hr. assert (0 < 2 ^ m) by (apply Z.pow_pos_nonneg; lia). rewrite Z.pow_add_r in Hr by lia.
      split; [apply Z.div_pos; lia|apply Z.div_lt_upper_bound; lia]. }
    pose proof (Hd _ Ba). pose proof (Hd _ Bb). split; [by intros [-> ->]|]. by apply base_inj.
  - cbn [masked_eq]. rewrite masked_eq_zero, andb_true_r, Z.eqb_eq, masked_byte by (done || lia).
    rewrite Z.pow_add_r by lia. rewrite <- !Z.div_div by (apply Z.pow_nonzero || apply Z.pow_pos_nonneg; lia).
    assert (∀ z r, 0 <= r < 2 ^ (8 * l) -> (z * 2 ^ (8 * l) + r) / 2 ^ (8 * l) = z) as Hq.
    { intros z r Hr. rewrite Z.add_comm, Z.div_add, Z.div_small by lia. lia. }
    by rewrite !Hq by done.
Qed.

Lemma mask_bytes_length (n : Z) (l : nat) : length (mask_bytes n l) = l.
Proof. revert n. induction l as [|l IH]; intros n; [done|]. simpl. destruct (8 <=? n); simpl; by rewrite IH. Qed.

Lemma Size_CIDRMask (n : Z) : 0 <= n <= 32 -> Size (CIDRMask n 32) = n.
Proof.
  intros Hn. assert (forallb (λ n, Size (CIDRMask n 32) =? n) (seqZ 0 33) = true) as H by (vm_compute; done).
  rewrite forallb_forall in H. apply Z.eqb_eq, H, list_elem_of_In, elem_of_seqZ. lia.
Qed.

(** An IPv4 network holds the addresses that agree with it in the first [n]
    bits; an address counts in its short and in its long form. *)
Definition ipv4 (ip : IP) (bs : list Z) : Prop := length bs = 4%nat ∧ Forall is_byte bs ∧ (ip = bs ∨ ip = v4InV6Prefix ++ bs).

Lemma ipv4_To4 (ip : IP) (bs : list Z) : ipv4 ip bs -> To4 ip = Some bs.
Proof.
  intros (Hl & _ & [-> | ->]); unfold To4.
  - by rewrite bool_decide_eq_true_2.
  - rewrite bool_decide_eq_false_2, !bool_decide_eq_true_2.
    + simpl. f_equal.
    + by rewrite take_app_length'.
    + rewrite length_app, Hl. done.
    + rewrite length_app, Hl. done.
Qed.

Lemma Contains_prefix (n : Z) (nip ip : IP) (nbs bs : list Z) :
  0 <= n <= 32 -> ipv4 nip nbs -> ipv4 ip bs ->
  Contains_IP (MkIPNet nip (CIDRMask n 32)) ip = true <-> be_val nbs / 2 ^ (32 - n) = be_val bs / 2 ^ (32 - n).
Proof.
  intros Hn Hnip Hip. pose proof Hnip as (Hl & Hb & _). pose proof Hip as (Hl' & Hb' & _).
  assert (CIDRMask n 32 = mask_bytes n 4) as Hmask.
  { unfold CIDRMask. change (32 =? 32) with true. simpl. destruct (Z.leb_spec 0 n), (Z.leb_spec n 32); try lia. done. }
  pose proof (masked_eq_prefix nbs bs n ltac:(congruence) Hb Hb') as E. rewrite Hl in E. rewrite <- E by lia.
  unfold Contains_IP, networkNumberAndMask. cbn [net_IP net_Mask]. rewrite (ipv4_To4 _ _ Hnip), (ipv4_To4 _ _ Hip), Hmask.
  cbn [default from_option id]. rewrite mask_bytes_length, Hl, Hl'. simpl. by rewrite Hl.
Qed.

(** *** Parsing undoes printing *)

Lemma concat_split (sep : ascii) (ws : list string) :
  ws ≠ [] -> Forall (free_of (Ascii.eqb sep)) ws -> Split sep (String.concat (String sep EmptyString) ws) = ws.
Proof.
  intros Hne Hws. destruct Hws as [|w ws Hw Hws]; [done|]. clear Hne. unfold Split.
  revert w Hw. induction Hws as [|w' ws Hw' _ IH]; intros w Hw; [by apply split_at_free|].
  change (String.concat (String sep EmptyString) (w :: w' :: ws))
    with (w ++ String sep (String.concat (String sep EmptyString) (w' :: ws)))%string.
  rewrite split_at_cons by (done || apply Ascii.eqb_refl). by rewrite IH.
Qed.

Lemma parse_octet_dec (b : Z) : is_byte b -> parse_octet (dec b) = Some b.
Proof.
  intros Hb. unfold is_byte, fits in Hb. change (2 ^ 8) with 256 in Hb.
  assert (forallb (λ b, bool_decide (parse_octet (dec b) = Some b)) (seqZ 0 256) = true) as H by (vm_compute; done).
  rewrite forallb_forall in H. apply (bool_decide_eq_true_1 _), H, list_elem_of_In, elem_of_seqZ. lia.
Qed.

Lemma first_of_string4 (bs : list Z) (b : Z) : Forall is_byte (b :: bs) -> bs ≠ [] -> first_of (string4 (b :: bs)) = Some true.
Proof.
  intros Hb Hne. apply Forall_cons in Hb as [Hb _]. unfold is_byte, fits in Hb. destruct bs as [|b' bs]; [done|].
  unfold string4. cbn [fmap list_fmap].
  change (String.concat "." (dec b :: dec b' :: list_fmap Z string dec bs)) with (dec b ++ String "." (String.concat "." (dec b' :: list_fmap Z string dec bs)))%string.
  generalize (String.concat "." (dec b' :: list_fmap Z string dec bs)). intros tail.
  assert (free_of (λ c, negb (is_digit c)) (dec b)) as Hf by (apply dec_free; [apply no_digits_dec; vm_compute; done|lia]).
  induction (dec b) as [|c s IH]; [done|]. unfold free_of in Hf. simpl in Hf. apply orb_false_iff in Hf as [Hd Hf].
  specialize (IH Hf). by destruct c as [[] [] [] [] [] [] [] []].
Qed.

Lemma ParseAddr_string4 (bs : list Z) : length bs = 4%nat -> Forall is_byte bs -> ParseAddr (string4 bs) = Some bs.
Proof.
  intros Hl Hb. unfold ParseAddr. do 4 (destruct bs as [|? bs]; [done|]). destruct bs; [|done].
  rewrite first_of_string4 by done. cbn [mbind option_bind]. unfold parseIPv4, string4.
  rewrite (concat_split "." (dec <$> [z; z0; z1; z2])).
  - simpl. rewrite !Forall_cons in Hb. destruct Hb as (H1 & H2 & H3 & H4 & _).
    rewrite !parse_octet_dec by done. done.
  - done.
  - apply Forall_fmap. eapply Forall_impl; [exact Hb|]. intros b Hbb. unfold is_byte, fits in Hbb. simpl.
    apply dec_free; [apply no_digits_dec; vm_compute; done|lia].
Qed.
Lemma string4_inj (bs bs' : list Z) : length bs = 4%nat -> Forall is_byte bs -> length bs' = 4%nat -> Forall is_byte bs' -> string4 bs = string4 bs' -> bs = bs'.
Proof. intros H1 H2 H3 H4 E. apply (ParseAddr_string4 _ H1) in H2. apply (ParseAddr_string4 _ H3) in H4. congruence. Qed.

Lemma ParseIP_String (ip : IP) (bs : list Z) : ipv4 ip bs -> ParseIP (IP_String ip) = Some (v4InV6Prefix ++ bs).
Proof.
  intros Hip. pose proof Hip as (Hl & Hb & _). unfold IP_String.
  rewrite bool_decide_eq_false_2 by (destruct Hip as (_ & _ & [-> | ->]); [by destruct bs|done]).
  rewrite (ipv4_To4 _ _ Hip). unfold ParseIP. rewrite (ParseAddr_string4 _ Hl Hb). cbn. unfold As16. by rewrite bool_decide_eq_true_2.
Qed.

(** A network of IPv4, by its address and the length of its mask. *)
Definition net4 (bs : list Z) (n : Z) : IPNet := MkIPNet bs (CIDRMask n 32).
Definition text4 (bs : list Z) (n : Z) : string := (string4 bs ++ "/" ++ dec n)%string.
Definition network4 (bs : list Z) (n : Z) : list Z := zip_with Z.land bs (CIDRMask n 32).

Lemma mask_cases (P : Z -> Prop) (f : Z -> bool) : (∀ n, f n = true -> P n) -> forallb f (seqZ 0 33) = true -> ∀ n, 0 <= n <= 32 -> P n.
Proof. intros Hf Hall n Hn. rewrite forallb_forall in Hall. apply Hf, Hall, list_elem_of_In, elem_of_seqZ. lia. Qed.

Lemma IPNet_String_4 (bs : list Z) (n : Z) : length bs = 4%nat -> Forall is_byte bs -> 0 <= n <= 32 -> IPNet_String (net4 bs n) = text4 bs n.
Proof.
  intros Hl Hb Hn. assert (To4 bs = Some bs) as E4 by (apply ipv4_To4; split; [done|split; [done|by left]]).
  assert (length (CIDRMask n 32) = 4%nat ∧ simpleMaskLength (CIDRMask n 32) = Some n) as [El Em].
  { revert n Hn. apply (mask_cases _ (λ n, bool_decide (length (CIDRMask n 32) = 4%nat ∧ simpleMaskLength (CIDRMask n 32) = Some n))); [|vm_compute; done].
    intros n. by rewrite bool_decide_eq_true. }
  unfold IPNet_String, networkNumberAndMask. cbn [net_IP net_Mask net4]. rewrite E4. cbn [default from_option id].
  rewrite (bool_decide_eq_true_2 (length bs = 4%nat ∨ _)) by (by left). cbn [negb]. rewrite (bool_decide_eq_true_2 (length (CIDRMask n 32) = _)) by done.
  rewrite (bool_decide_eq_true_2 (length bs = 4%nat)) by done. rewrite bool_decide_eq_false_2 by (by intros ->). rewrite Em.
  unfold text4, IP_String. rewrite bool_decide_eq_false_2 by (by intros ->). by rewrite E4.
Qed.

Lemma Split_text4 (bs : list Z) (n : Z) : Forall is_byte bs -> 0 <= n -> Split "/" (text4 bs n) = [string4 bs; dec n].
Proof.
  intros Hb Hn. apply (concat_split "/" [string4 bs; dec n]); [done|]. repeat apply Forall_cons_2; [| |by apply Forall_nil_2].
  - unfold string4. assert (Forall (free_of (Ascii.eqb "/")) (dec <$> bs)) as Hf.
    { apply Forall_fmap. eapply Forall_impl; [exact Hb|]. intros b Hbb. unfold is_byte, fits in Hbb. simpl. apply dec_free; [apply no_digits_dec; vm_compute; done|lia]. }
    induction Hf as [|w ws Hw Hws IH]; [done|]. cbn [String.concat]. destruct ws as [|w' ws]; [done|]. rewrite !free_of_app. done.
  - apply dec_free; [apply no_digits_dec; vm_compute; done|lia].
Qed.

Lemma ParseCIDR_text4 (bs : list Z) (n : Z) : length bs = 4%nat -> Forall is_byte bs -> 0 <= n <= 32 -> ParseCIDR (text4 bs n) = Some (net4 (network4 bs n) n).
Proof.
  intros Hl Hb Hn. pose proof (Split_text4 bs n Hb (proj1 Hn)) as Es.
  unfold ParseCIDR. rewrite Es, (ParseAddr_string4 _ Hl Hb). cbn [mbind option_bind String.concat]. rewrite Hl. change (8 * Z.of_nat 4) with 32.
  assert (exists_char (λ c, negb (is_digit c)) (dec n) || String.eqb (dec n) EmptyString = false ∧ parse_digits 10 (0xFFFFFF - 1) false 0 (dec n) = Num n ∧ length (CIDRMask n 32) = 4%nat) as (-> & -> & Em).
  { clear Es. revert n Hn. apply (mask_cases _ (λ n, negb (exists_char (λ c, negb (is_digit c)) (dec n) || String.eqb (dec n) EmptyString) &&
      match parse_digits 10 (0xFFFFFF - 1) false 0 (dec n) with Num v => v =? n | _ => false end && Nat.eqb (length (CIDRMask n 32)) 4)); [|vm_compute; done].
    intros n [[H1%negb_true_iff H2]%andb_true_iff H3%Nat.eqb_eq]%andb_true_iff. split_and!; [done| |done].
    destruct (parse_digits _ _ _ _ _); [|done..]. by apply Z.eqb_eq in H2 as ->. }
  destruct (Z.leb_spec n 32); [|lia]. unfold net4, network4. do 2 f_equal. unfold As16, Mask. rewrite (bool_decide_eq_true_2 (length bs = 4%nat)) by done.
  rewrite (bool_decide_eq_false_2 (length (CIDRMask n 32) = 16%nat ∧ _)) by (rewrite Em; by intros [? _]).
  rewrite (bool_decide_eq_true_2 (length (CIDRMask n 32) = 4%nat ∧ _)) by (split; [done|]; split; [by rewrite length_app, Hl|done]).
  change (drop 12 (v4InV6Prefix ++ bs)) with bs. by rewrite bool_decide_eq_true_2 by congruence.
Qed.

(** Hexadecimal text is read back by [ParseInt] with base 0, and clamped at the
    largest number of its width. *)
Lemma hex_digit_cases (d : Z) : 0 <= d < 16 -> digit (hex_digit_lower d) = Some d ∧ Ascii.eqb (hex_digit_lower d) "_" = false.
Proof.
  intros Hd. assert (forallb (λ d, bool_decide (digit (hex_digit_lower d) = Some d) && negb (Ascii.eqb (hex_digit_lower d) "_")) (seqZ 0 16) = true)
    as Hall by (vm_compute; done).
  rewrite forallb_forall in Hall. specialize (Hall d). rewrite <- list_elem_of_In, elem_of_seqZ in Hall.
  specialize (Hall ltac:(lia)). apply andb_true_iff in Hall as [H1%bool_decide_eq_true H2%negb_true_iff]. done.
Qed.

Lemma hex_go_parse (fuel : nat) (n maxVal : Z) (tail : string) :
  0 <= n < 16 ^ Z.of_nat fuel -> n <= maxVal -> fuel ≠ 0%nat ->
  parse_digits 16 maxVal true 0 (hex_go fuel n tail) = parse_digits 16 maxVal true n tail.
Proof.
  revert n tail. induction fuel as [|fuel IH]; intros n tail Hn Hmax Hf; [done|]. cbn [hex_go].
  pose proof (Z.div_mod n 16 ltac:(lia)). pose proof (Z.mod_pos_bound n 16 ltac:(lia)).
  assert (∀ m, 0 <= m -> m * 16 + n mod 16 = n ->
    parse_digits 16 maxVal true m (String (hex_digit_lower (n mod 16)) tail) = parse_digits 16 maxVal true n tail) as Hstep.
  { intros m Hm E. destruct (hex_digit_cases (n mod 16) ltac:(lia)) as [Ed Eu]. cbn [parse_digits]. rewrite Ed, Eu. cbn [andb].
    destruct (Z.leb_spec 16 (n mod 16)); [lia|]. rewrite E. by destruct (Z.ltb_spec maxVal n); [lia|]. }
  destruct (Z.ltb_spec n 16) as [Hlt|Hge].
  - apply Hstep; [lia|]. rewrite Z.mod_small; lia.
  - assert (n / 16 < 16 ^ Z.of_nat fuel) as Hd.
    { apply Z.div_lt_upper_bound; [lia|]. rewrite Nat2Z.inj_succ, Z.pow_succ_r in Hn by lia. lia. }
    rewrite IH; [apply Hstep; [apply Z.div_pos|]; lia|split; [apply Z.div_pos; lia|done]|lia|].
    intros ->. simpl in Hd. pose proof (Z.div_pos n 16). lia.
Qed.

Lemma hex_go_free (p : ascii -> bool) (fuel : nat) (n : Z) (tail : string) :
  forallb (λ d, negb (p (hex_digit_lower d))) (seqZ 0 16) = true -> 0 <= n -> free_of p tail -> free_of p (hex_go fuel n tail).
Proof.
  intros Hp. revert n tail. induction fuel as [|fuel IH]; intros n tail Hn Ht; [done|]. cbn [hex_go].
  assert (free_of p (String (hex_digit_lower (n mod 16)) tail)).
  { unfold free_of. simpl. rewrite forallb_forall in Hp. apply orb_false_iff. split; [|done].
    apply negb_true_iff, Hp, list_elem_of_In, elem_of_seqZ. pose proof (Z.mod_pos_bound n 16). lia. }
  destruct (n <? 16); [done|]. apply IH; [apply Z.div_pos; lia|done].
Qed.

Lemma hex_ne (n : Z) : hex n ≠ EmptyString.
Proof.
  unfold hex. assert (∀ fuel n acc, acc ≠ EmptyString -> hex_go fuel n acc ≠ EmptyString) as H.
  { induction fuel as [|fuel IH]; intros m acc Ha; [done|]. cbn [hex_go]. destruct (m <? 16); [done|by apply IH]. }
  change (hex_go 16 n EmptyString) with
    (if n <? 16 then String (hex_digit_lower (n mod 16)) EmptyString else hex_go 15 (n / 16) (String (hex_digit_lower (n mod 16)) EmptyString)).
  destruct (n <? 16); [done|]. by apply H.
Qed.

Definition hex_prefixed (n : Z) : string := String "0" (String "x" (hex n)).
Lemma ParseInt_hex (n : Z) : 0 <= n < 2 ^ 32 -> value (ParseInt (hex_prefixed n) 0 32) = Z.min n (2 ^ 31 - 1).
Proof.
  intros Hn. assert (ParseUint (hex_prefixed n) 0 32 = Num n) as E.
  { unfold ParseUint, hex_prefixed. change (0 =? 0) with true. cbv iota. cbn [prefix_base].
    change (to_lower "x") with "x"%char. simpl Ascii.eqb. cbv iota.
    destruct (String.eqb_spec (hex n) EmptyString) as [He|_]; [by destruct (hex_ne n)|].
    unfold hex. rewrite hex_go_parse by (try done; change (16 ^ Z.of_nat 16) with (2 ^ 64); lia). cbn [parse_digits].
    pose proof (hex_go_free (Ascii.eqb "_") 16 n EmptyString ltac:(vm_compute; done) ltac:(lia) eq_refl) as Hf.
    unfold free_of in Hf. by rewrite Hf. }
  unfold ParseInt. change (match hex_prefixed n with
    | String "+" t => (false, t) | String "-" t => (true, t) | _ => (false, hex_prefixed n) end) with (false, hex_prefixed n).
  cbv beta iota zeta. rewrite E. destruct (Z.leb_spec (2 ^ (32 - 1)) n); simpl; lia.
Qed.
