(* ===== verification/NettopCache.v ===== *)
(** src/pkg/exporter/nettop: cache.go, interface.go, netns.go, cgroup.go,
    docker.go and pod.go, the agent's table of the pods on its node, by which
    probes find out whose a network namespace or a process is.

    Every ten seconds the table is filled from the container runtime, or from
    the pods of the API server if there is none.  Entities are pointers into a
    heap, since the code compares pointers.  The caches with expiry are the
    library go-cache, known by its documented behaviour; the runtime, the files
    and the clock are arguments of a refresh. *)

From Stdlib Require Import Ascii.
From S2P Require Import Prelude GoStrings GoResult.

(** ** The cache library *)

(** [Set_] replaces; [None] for the duration is [NoExpiration].  An entry is
    found as long as its time is not over. *)
Class GoCache (C : Type) := {
  cache_New : C;
  cache_Set : Z -> string -> nat -> option Z -> C -> C;
  cache_Get : Z -> string -> C -> option nat;
  get_new (now : Z) (k : string) : cache_Get now k cache_New = None;
  get_set (now t : Z) (k : string) (v : nat) (d : option Z) (c : C) :
    cache_Get now k (cache_Set t k v d c) = match d with Some d => if now <=? t + d then Some v else None | None => Some v end;
  get_set_other (now t : Z) (k k' : string) (v : nat) (d : option Z) (c : C) : k ≠ k' -> cache_Get now k (cache_Set t k' v d c) = cache_Get now k c;
}.

(** One that fulfils it. *)
#[export] Instance map_cache : GoCache (gmap string (nat * option Z)).
Proof.
  refine {| cache_New := ∅; cache_Set := λ t k v d c, <[k := (v, (λ d, t + d) <$> d)]> c;
            cache_Get := λ now k c, '(v, e) ← c !! k; match e with Some e => if now <=? e then Some v else None | None => Some v end |}.
  - intros now k. by rewrite lookup_empty.
  - intros now t k v d c. rewrite lookup_insert_eq. by destruct d.
  - intros now t k k' v d c Hk. by rewrite lookup_insert_ne.
Defined.

Module NettopCache.

(** ** Data *)

Definition second : Z := 1000000000.
Definition cacheUpdateInterval : Z := 10 * second.

Record netnsMeta := MkNetnsMeta { inum : Z; mountPath : string; isHostNetwork : bool; ipList : list string }.
(** The entity that there is before [StartCache] has no namespace. *)
Record Entity := MkEntity { e_ns : option netnsMeta; e_name : string; e_namespace : string; e_initPid : Z; e_pids : list Z; e_labels : gmap string string }.
Definition no_entity : Entity := MkEntity None EmptyString EmptyString 0 [] ∅.

Definition IsHostNetwork (e : Entity) : result Empty_set bool := ns ← deref (e_ns e); Ok (isHostNetwork ns).
Definition GetNetns (e : Entity) : result Empty_set Z := ns ← deref (e_ns e); Ok (inum ns).

Record Linux := MkLinux { CgroupParent : string }.
Record sandboxInfoSpec := MkInfo { i_Pid : Z; i_Linux : Linux }.
Record slimDocker := MkSlimDocker { sd_Pid : Z; sd_CgroupParent : string }.

Record Sandbox := MkSandbox { sb_Id : string; sb_Metadata : option (string * string) (* namespace, name *); sb_Labels : gmap string string }.
Record SandboxStatus := MkStatus { ss_Id : string; ss_Network : option string (* address *) }.
Record StatusResponse := MkResponse { sr_Status : option SandboxStatus; sr_Info : gmap string string }.
(** A pod as the watch of the API server knows it. *)
Record PodCacheInfo := MkPodInfo {
  pi_UID : string; pi_IP : string; pi_Name : string; pi_Namespace : string; pi_Labels : gmap string string; pi_CgroupPath : string;
  pi_SandboxPID : Z; pi_NetNSPath : string; pi_NetNSInode : Z; pi_IsHostNetwork : bool;
}.

(** ** netns.go *)

Definition proc_ns (pid : Z) : string := ("/proc/" ++ dec pid ++ "/ns/net")%string.
Fixpoint cut (sep : ascii) (s : string) : option (string * string) :=
  match s with
  | EmptyString => None
  | String c s' => if Ascii.eqb c sep then Some (EmptyString, s') else '(a, b) ← cut sep s'; Some (String c a, b)
  end.
(** [strings.Trim] with a set of characters. *)
Fixpoint trim_left (p : ascii -> bool) (s : string) : string :=
  match s with String c s' => if p c then trim_left p s' else s | EmptyString => s end.
Fixpoint trim_right (p : ascii -> bool) (s : string) : string :=
  match s with
  | EmptyString => EmptyString
  | String c s' => match trim_right p s' with EmptyString => if p c then EmptyString else String c EmptyString | r => String c r end
  end.
Definition Trim (p : ascii -> bool) (s : string) : string := trim_right p (trim_left p s).
Definition TrimSpace : string -> string := Trim is_space.
Definition brackets (c : ascii) : bool := Ascii.eqb c "[" || Ascii.eqb c "]".

(** The namespace in the target of /proc/<pid>/ns/net. *)
Definition parse_netns (target : string) : option Z :=
  '(kind, rest) ← cut ":" target;
  if String.eqb kind "net" then ok (Atoi (Trim brackets rest)) else None.
(** [readlink] gives [None] where opening or reading fails. *)
Definition getNsInumByPid (readlink : Z -> option string) (pid : Z) : option Z := target ← readlink pid; parse_netns target.

(** ** cgroup.go *)

(** What [filepath.Walk] visits: a path, or an error. *)
Inductive walked := WalkError | Visited (path : string) (isDir : bool) (content : option string).
Fixpoint HasSuffix (suffix s : string) : bool := String.eqb s suffix || match s with String _ s' => HasSuffix suffix s' | EmptyString => false end.
(** The numbers of the lines up to the first that is none. *)
Fixpoint task_lines (lines : list string) (m : gset Z) : gset Z * bool :=
  match lines with
  | [] => (m, true)
  | s :: lines' =>
      let s := TrimSpace s in
      if String.eqb s EmptyString then task_lines lines' m
      else match Atoi s with Num i => task_lines lines' ({[i]} ∪ m) | _ => (m, false) end
  end.
Definition newline : ascii := "010".
Fixpoint walk_tasks (visits : list walked) (m : gset Z) : gset Z :=
  match visits with
  | [] | WalkError :: _ => m
  | Visited path isDir content :: visits' =>
      if negb isDir && HasSuffix "/tasks" path then
        match content with
        | None => m
        | Some text => let '(m, go) := task_lines (Split newline text) m in if go : bool then walk_tasks visits' m else m
        end
      else walk_tasks visits' m
  end.
(** [Walk] goes through the files under a path, which is absolute or one of the
    memory controller.  The order of the result is that of a range over a map. *)
Definition tasksInsidePodCgroup (range_keys : gset Z -> list Z) (Walk : string -> bool -> list walked) (path : string) (absolutePath : bool) : list Z :=
  if String.eqb path EmptyString then [] else range_keys (walk_tasks (Walk path absolutePath) ∅).

(** ** docker.go *)

Definition adjustCgroupParent (CgroupDriver rawCgroupParent : string) : string :=
  if String.eqb CgroupDriver "cgroupfs" then rawCgroupParent
  else match Split "-" rawCgroupParent with
  | [a; b] => ("/" ++ a ++ ".slice/" ++ a ++ "-" ++ b)%string
  | [a; b; c] => ("/" ++ a ++ ".slice/" ++ a ++ "-" ++ b ++ ".slice/" ++ a ++ "-" ++ b ++ "-" ++ c)%string
  | _ => EmptyString
  end.
Definition buildSandboxInfoSpecForDocker (CgroupDriver : string) (docker : slimDocker) : sandboxInfoSpec :=
  MkInfo (sd_Pid docker) (MkLinux (adjustCgroupParent CgroupDriver (sd_CgroupParent docker))).

(** ** State *)

Section nettop.
Context {C : Type} `{GoCache C}.

Record nettop := MkNettop {
  heap : list Entity; defaultEntity : nat; entities : option (list nat);
  nsCache : C; pidCache : C; ipCache : C; dockerInfo : option string (* its driver for cgroups *);
  history : list (Z * nat) (* of the model: the entities that refreshes recorded, and when *);
}.
Definition set_caches (ns pid ip : C) (s : nettop) : nettop := MkNettop (heap s) (defaultEntity s) (entities s) ns pid ip (dockerInfo s) (history s).
Definition set_entities (l : list nat) (s : nettop) : nettop := MkNettop (heap s) (defaultEntity s) (Some l) (nsCache s) (pidCache s) (ipCache s) (dockerInfo s) (history s).
Definition set_docker (d : option string) (s : nettop) : nettop := MkNettop (heap s) (defaultEntity s) (entities s) (nsCache s) (pidCache s) (ipCache s) d (history s).
Definition alloc (now : Z) (e : Entity) (s : nettop) : nat * nettop :=
  let p := length (heap s) in
  (p, MkNettop (heap s ++ [e]) (defaultEntity s) (entities s) (nsCache s) (pidCache s) (ipCache s) (dockerInfo s) (history s ++ [(now, p)])).
(** The state that the package begins with. *)
Definition initial : nettop := MkNettop [no_entity] 0 None cache_New cache_New cache_New None [].

Definition put (now : Z) (d : option Z) (e : nat) (keys : list string) (c : C) : C := foldl (λ c k, cache_Set now k e d c) c keys.
Definition addEntityToCache (now : Z) (p : nat) (ignoreHostPod noExpiration : bool) (s : nettop) : result Empty_set nettop :=
  let d := if noExpiration then None else Some (3 * cacheUpdateInterval) in
  e ← deref (heap s !! p);
  ns ← deref (e_ns e);
  Ok (set_caches (if negb (ignoreHostPod && isHostNetwork ns) then cache_Set now (dec (inum ns)) p d (nsCache s) else nsCache s)
        (put now d p (dec <$> e_pids e) (pidCache s)) (put now d p (ipList ns) (ipCache s)) s).

(** ** Filling the table *)

Inductive nettop_err := NsError | LinkError | PodInfoError | ListError | Timeout.

(** [initDefaultEntity]: the agent's own namespace.  [self] is its process,
    [links] the addresses of its interfaces, each with whether it is global
    unicast, and [pod] what it finds out about its own pod. *)
Definition hostIPList (links : option (list (option (list (string * bool))))) : option (list string) :=
  links ← links; Some (links ≫= λ addrs, match addrs with None => [] | Some addrs => (λ a, a.1) <$> List.filter (λ a, a.2) addrs end).
Definition initDefaultEntity (readlink : Z -> option string) (now self : Z) (links : option (list (option (list (string * bool))))) (pod : option (string * string))
    (sidecarMode : bool) (s : nettop) : nettop * result nettop_err () :=
  match getNsInumByPid readlink self, hostIPList links with
  | None, _ => (s, Err NsError)
  | Some _, None => (s, Err LinkError)
  | Some n, Some ips =>
      let p := length (heap s) in
      let ns := MkNetnsMeta n (proc_ns self) (negb sidecarMode) ips in
      let stored (namespace name : string) (ents : option (list nat)) : nettop :=
        MkNettop (heap s ++ [MkEntity (Some ns) name namespace self [] ∅]) p ents (nsCache s) (pidCache s) (ipCache s) (dockerInfo s) (history s) in
      let add (s : nettop) : nettop * result nettop_err () :=
        match addEntityToCache now p false true s with Ok s => (s, Ok ()) | _ => (s, Panic) end in
      if sidecarMode then
        match pod with
        | None => (stored EmptyString EmptyString (entities s), Err PodInfoError)
        | Some (namespace, name) => add (stored namespace name (Some [p]))
        end
      else add (stored EmptyString EmptyString (entities s))
  end.

(** What a refresh finds: the runtime, Docker, the files, and for each sandbox
    the time and whether the deadline is over.  [docker_info] is an error, an
    answer that cannot be read, or the driver. *)
Record Runtime := MkRuntime {
  ListPodSandbox : option (list Sandbox); PodSandboxStatus : string -> option StatusResponse; RuntimeName : string;
  docker_info : option (option string); docker_container : string -> option slimDocker; Unmarshal : string -> option sandboxInfoSpec;
  readlink : Z -> option string; Walk : string -> bool -> list walked; range_keys : gset Z -> list Z;
  clock : nat -> Z; contextDone : nat -> bool;
}.
Implicit Types (r : Runtime) (s : nettop).

(** An answer about Docker that cannot be read leaves an empty one behind. *)
Definition initializeDockerInfo r s : nettop * bool :=
  match docker_info r with
  | None => (s, false)
  | Some None => (set_docker (Some EmptyString) s, false)
  | Some (Some driver) => (set_docker (Some driver) s, true)
  end.
Definition getSandboxInfoSpecForDocker r (id : string) s : nettop * option sandboxInfoSpec :=
  let '(s, ok) := match dockerInfo s with Some _ => (s, true) | None => initializeDockerInfo r s end in
  (s, if ok : bool then driver ← dockerInfo s; docker ← docker_container r id; Some (buildSandboxInfoSpecForDocker driver docker) else None).
Definition getSandboxInfoSpec r (st : SandboxStatus) (info : gmap string string) s : nettop * option sandboxInfoSpec :=
  if String.eqb (RuntimeName r) "docker" then getSandboxInfoSpecForDocker r (ss_Id st) s
  else (s, let text := default EmptyString (info !! "info"%string) in if String.eqb text EmptyString then None else Unmarshal r text).

(** The entity of a sandbox with its data; [None] where the loop goes on. *)
Definition sandbox_entity r (host : option netnsMeta) (namespace name : string) (labels : gmap string string) (st : SandboxStatus) (info : sandboxInfoSpec) : result Empty_set (option Entity) :=
  match getNsInumByPid (readlink r) (i_Pid info) with
  | None => Ok None
  | Some n =>
      let path := CgroupParent (i_Linux info) in
      let pids := if String.eqb path EmptyString then [] else tasksInsidePodCgroup (range_keys r) (Walk r) path false in
      host ← deref host;
      let entity (ns : netnsMeta) : Entity := MkEntity (Some ns) name namespace (i_Pid info) pids labels in
      if n =? inum host then Ok (Some (entity host))
      else match ss_Network st with
           | None => Ok None
           | Some ip => if String.eqb ip EmptyString then Ok None else Ok (Some (entity (MkNetnsMeta n (proc_ns (i_Pid info)) false [ip])))
           end
  end.
(** The data of a sandbox: its status and what that says; [None] on an error. *)
Definition sandbox_data r (sb : Sandbox) s : nettop * option (SandboxStatus * sandboxInfoSpec) :=
  match PodSandboxStatus r (sb_Id sb) with
  | None => (s, None)
  | Some resp =>
      match sr_Status resp with
      | None => (s, None)
      | Some st => let '(s, info) := getSandboxInfoSpec r st (sr_Info resp) s in (s, (λ i, (st, i)) <$> info)
      end
  end.
Definition host_ns s : option netnsMeta := e ← heap s !! defaultEntity s; e_ns e.

(** Allocate, append and add to the caches. *)
Definition record (now : Z) (e : Entity) s : result Empty_set (nettop * nat) :=
  let '(p, s) := alloc now e s in s ← addEntityToCache now p true false s; Ok (s, p).

(** One sandbox: what is appended to the new entities.  A sandbox without
    metadata is only logged, and then followed. *)
Definition sandbox_step r (i : nat) (sb : Sandbox) s : nettop * result Empty_set (list nat) :=
  match sb_Metadata sb with
  | None => (s, Panic)
  | Some (namespace, name) =>
      let '(s, data) := sandbox_data r sb s in
      match data with
      | None => (s, Ok [])
      | Some (st, info) =>
          match sandbox_entity r (host_ns s) namespace name (sb_Labels sb) st info with
          | Ok (Some e) => match record (clock r i) e s with Ok (s, p) => (s, Ok [p]) | _ => (s, Panic) end
          | Ok None => (s, Ok [])
          | _ => (s, Panic)
          end
      end
  end.
Fixpoint sandbox_loop r (i : nat) (sbs : list Sandbox) (newEntities : list nat) s : nettop * result nettop_err () :=
  match sbs with
  | [] => (set_entities newEntities s, Ok ())
  | sb :: sbs' =>
      if contextDone r i then (s, Err Timeout) else
      match sandbox_step r i sb s with
      | (s, Ok ps) => sandbox_loop r (S i) sbs' (newEntities ++ ps) s
      | (s, _) => (s, Panic)
      end
  end.
Definition cacheNetTopology r s : nettop * result nettop_err () :=
  match ListPodSandbox r with
  | None => (s, Err ListError)
  | Some sbs => sandbox_loop r 0 sbs [defaultEntity s] s
  end.

(** From the pods of the API server. *)
Definition pod_entity r (pod : PodCacheInfo) : Entity :=
  MkEntity (Some (MkNetnsMeta (sext 64 (pi_NetNSInode pod)) (pi_NetNSPath pod) (pi_IsHostNetwork pod) [pi_IP pod])) (pi_Name pod) (pi_Namespace pod) (pi_SandboxPID pod)
    (tasksInsidePodCgroup (range_keys r) (Walk r) (pi_CgroupPath pod) true) (pi_Labels pod).
Fixpoint pod_loop r (i : nat) (pods : list PodCacheInfo) (newEntities : list nat) s : nettop * result nettop_err () :=
  match pods with
  | [] => (set_entities newEntities s, Ok ())
  | pod :: pods' =>
      if String.eqb (pi_Name pod) EmptyString || String.eqb (pi_Namespace pod) EmptyString then pod_loop r (S i) pods' newEntities s
      else match record (clock r i) (pod_entity r pod) s with
           | Ok (s, p) => pod_loop r (S i) pods' (newEntities ++ [p]) s
           | _ => (s, Panic)
           end
  end.
Definition cacheNetTopologyNoCri r (GetAllLocalPods : list PodCacheInfo) s : nettop * result nettop_err () := pod_loop r 0 GetAllLocalPods [defaultEntity s] s.

(** ** interface.go *)

Definition GetHostNetworkEntity s : nat := defaultEntity s.
(** [None] is the error. *)
Definition GetEntityByNetns (now nsinum : Z) s : option nat := if nsinum =? 0 then Some (GetHostNetworkEntity s) else cache_Get now (dec nsinum) (nsCache s).
Definition GetEntityByPid (now pid : Z) s : option nat := cache_Get now (dec pid) (pidCache s).

Fixpoint filter_entities (f : nat -> result Empty_set bool) (l : list nat) : result Empty_set (list nat) :=
  match l with
  | [] => Ok []
  | p :: l' => b ← f p; rest ← filter_entities f l'; Ok (if b : bool then p :: rest else rest)
  end.
Definition getAllEntity (f : nat -> result Empty_set bool) s : result Empty_set (list nat) :=
  match entities s with None => Ok [] | Some l => filter_entities f l end.
Definition GetAllUniqueNetnsEntity s : result Empty_set (list nat) :=
  getAllEntity (λ p, if bool_decide (p = defaultEntity s) then Ok true else e ← deref (heap s !! p); host ← IsHostNetwork e; Ok (negb host)) s.
Definition GetAllEntity s : result Empty_set (list nat) := getAllEntity (λ _, Ok true) s.

(** ** What the caches hold *)

Definition lifetime : Z := 3 * cacheUpdateInterval.
(** The last entity recorded for which [f] holds, while it lasts. *)
Definition matching (f : Entity -> bool) (h : list Entity) (x : Z * nat) : bool := match h !! x.2 with Some e => f e | None => false end.
Definition recent (f : Entity -> bool) s : option (Z * nat) := last (List.filter (matching f (heap s)) (history s)).
Definition alive (now : Z) (x : Z * nat) : option nat := if now <=? x.1 + lifetime then Some x.2 else None.
(** An entity with a namespace of its own, which is [n]. *)
Definition own_netns (n : Z) (e : Entity) : bool := match e_ns e with Some ns => negb (isHostNetwork ns) && (inum ns =? n) | None => false end.
Definition has_pid (pid : Z) (e : Entity) : bool := existsb (Z.eqb pid) (e_pids e).

(** An int, or a little more. *)
Definition int64 (n : Z) : Prop := Z.abs n < 2 ^ 64.
Definition has_ns (h : list Entity) (p : nat) : Prop := ∃ e ns, h !! p = Some e ∧ e_ns e = Some ns.
(** The namespace [host] is the agent's. *)
Record inv (host : netnsMeta) s : Prop := MkInv {
  inv_host : host_ns s = Some host;
  inv_inum : int64 (inum host);
  inv_history : Forall (λ x, has_ns (heap s) x.2) (history s);
  inv_entities : ∀ l, entities s = Some l -> Forall (has_ns (heap s)) l;
  inv_netns : ∀ now n, int64 n -> cache_Get now (dec n) (nsCache s) =
    match recent (own_netns n) s with Some x => alive now x | None => if n =? inum host then Some (defaultEntity s) else None end;
  inv_pid : ∀ now pid, int64 pid -> cache_Get now (dec pid) (pidCache s) = recent (has_pid pid) s ≫= alive now;
}.

(** *** Lemmas *)

Lemma dec_inj (n m : Z) : int64 n -> int64 m -> dec n = dec m -> n = m.
Proof.
  assert (∀ n, 0 <= n -> dec n = dec_go 20 n EmptyString) as Hpos by (intros x Hx; unfold dec; destruct (Z.ltb_spec x 0); [lia|done]).
  assert (∀ n, n < 0 -> dec n = String "-" (dec (- n))) as Hneg by (intros x Hx; unfold dec at 1; destruct (Z.ltb_spec x 0); [by rewrite Hpos by lia|lia]).
  assert (∀ n m, 0 <= n < 2 ^ 64 -> 0 <= m < 2 ^ 64 -> dec n = dec m -> n = m) as Hinj.
  { intros x y Hx Hy E. pose proof (ParseUint_dec x Hx) as H1. rewrite E, (ParseUint_dec y Hy) in H1. by injection H1. }
  assert (∀ n m, n < 0 -> 0 <= m -> dec n ≠ dec m) as Hne.
  { intros x y Hx Hy E. pose proof (dec_free (Ascii.eqb "-") y ltac:(apply no_digits_dec; vm_compute; done) Hy) as Hf. by rewrite <- E, (Hneg x Hx) in Hf. }
  unfold int64. intros Hn Hm E. destruct (Z.ltb_spec n 0), (Z.ltb_spec m 0).
  - rewrite (Hneg n), (Hneg m) in E by done. apply (f_equal (λ x : string, match x with String _ y => y | EmptyString => x end)) in E. cbn beta iota in E. apply Hinj in E; lia.
  - by apply Hne in E.
  - symmetry in E. by apply Hne in E.
  - apply Hinj in E; lia.
Qed.

Lemma filter_prefix (f : Entity -> bool) (h k : list Entity) (l : list (Z * nat)) :
  Forall (λ x, has_ns h x.2) l -> List.filter (matching f (h ++ k)) l = List.filter (matching f h) l.
Proof.
  induction 1 as [|x l (e & ns & He & _) _ IH]; [done|]. cbn [List.filter]. rewrite IH. unfold matching. by rewrite lookup_app_l, He by (by eapply lookup_lt_Some).
Qed.
Lemma recent_alloc (f : Entity -> bool) (now : Z) (e : Entity) s : Forall (λ x, has_ns (heap s) x.2) (history s) ->
  recent f (alloc now e s).2 = if f e then Some (now, length (heap s)) else recent f s.
Proof.
  intros Hh. unfold recent. cbn [alloc heap history snd]. rewrite List.filter_app, filter_prefix by done. cbn [List.filter]. unfold matching at 2. cbn [snd].
  rewrite list_lookup_middle by done. destruct (f e); [by rewrite last_snoc|by rewrite app_nil_r].
Qed.

Lemma get_put (now t : Z) (d : option Z) (p : nat) (keys : list string) (k : string) (c : C) :
  cache_Get now k (put t d p keys c) = if bool_decide (k ∈ keys) then match d with Some d => if now <=? t + d then Some p else None | None => Some p end else cache_Get now k c.
Proof.
  revert c. induction keys as [|k' keys IH]; intros c; [by rewrite bool_decide_eq_false_2 by apply not_elem_of_nil|].
  change (put t d p (k' :: keys) c) with (put t d p keys (cache_Set t k' p d c)). rewrite IH. destruct (decide (k ∈ keys)) as [Hk|Hk].
  - rewrite !bool_decide_eq_true_2; [done| |done]. apply elem_of_cons. by right.
  - rewrite (bool_decide_eq_false_2 (k ∈ keys)) by done. destruct (decide (k = k')) as [->|Hne].
    + rewrite bool_decide_eq_true_2 by (apply elem_of_cons; by left). apply get_set.
    + rewrite bool_decide_eq_false_2 by (rewrite elem_of_cons; naive_solver). by apply get_set_other.
Qed.

Definition wf (e : Entity) : Prop := (∃ ns, e_ns e = Some ns ∧ int64 (inum ns)) ∧ Forall int64 (e_pids e).
Lemma has_pid_dec (pid : Z) (e : Entity) : int64 pid -> Forall int64 (e_pids e) -> bool_decide (dec pid ∈ dec <$> e_pids e) = has_pid pid e.
Proof.
  intros Hpid Hall. apply eq_bool_prop_intro. rewrite bool_decide_spec. unfold has_pid. rewrite Is_true_true, existsb_exists, list_elem_of_fmap.
  split.
  - intros (x & Hx & Hin). rewrite Forall_forall in Hall. apply dec_inj in Hx as ->; [|done|by apply Hall]. exists x. by rewrite Z.eqb_refl, <- list_elem_of_In.
  - intros (x & Hin%list_elem_of_In & ->%Z.eqb_eq). by exists x.
Qed.

(** Recording an entity: the caches follow. *)
Lemma record_inv (host : netnsMeta) (now : Z) (e : Entity) s : inv host s -> wf e ->
  ∃ s', record now e s = Ok (s', length (heap s)) ∧ inv host s' ∧ heap s' = heap s ++ [e] ∧ history s' = history s ++ [(now, length (heap s))] ∧
    entities s' = entities s ∧ dockerInfo s' = dockerInfo s ∧ defaultEntity s' = defaultEntity s.
Proof.
  intros [H1 H0 H2 H3 H4 H5] [(ns & Hns & Hn) Hp]. unfold record, addEntityToCache. cbn [alloc heap mbind result_bind]. rewrite list_lookup_middle by done.
  cbn [deref mbind result_bind]. rewrite Hns. cbn [deref mbind result_bind andb]. eexists. split; [done|]. split; [|done].
  pose proof (λ f, recent_alloc f now e s H2) as Hrec. cbn [alloc snd] in Hrec.
  assert (has_ns (heap s ++ [e]) (length (heap s))) as Hnew by (exists e, ns; by rewrite list_lookup_middle).
  assert (∀ p, has_ns (heap s) p -> has_ns (heap s ++ [e]) p) as Hold by (intros p (x & y & Hx & Hy); exists x, y; by rewrite lookup_app_l by (by eapply lookup_lt_Some)).
  split.
  - unfold host_ns in *. cbn [set_caches heap defaultEntity]. apply bind_Some in H1 as (x & Hx & H1). by rewrite lookup_app_l, Hx by (by eapply lookup_lt_Some).
  - done.
  - cbn [set_caches heap history]. apply Forall_app. split; [by eapply Forall_impl; [exact H2|]; intros x; apply Hold|by apply Forall_singleton].
  - cbn [set_caches heap entities]. intros l Hl. eapply Forall_impl; [by apply H3|]. exact Hold.
  - intros now' n Hn'. cbn [set_caches nsCache defaultEntity]. unfold recent in Hrec |- *. cbn [set_caches heap history] in *. rewrite Hrec. unfold own_netns at 1. rewrite Hns.
    destruct (isHostNetwork ns); cbn [negb andb]; [by apply H4|]. destruct (Z.eqb_spec (inum ns) n) as [->|Hne].
    + by rewrite get_set.
    + rewrite get_set_other; [by apply H4|]. intros E. by apply dec_inj in E.
  - intros now' pid Hpid. cbn [set_caches pidCache]. unfold recent in Hrec |- *. cbn [set_caches heap history] in *. rewrite Hrec, get_put, has_pid_dec by done.
    destruct (has_pid pid e); [done|]. by apply H5.
Qed.

Lemma parse_digits_nonneg (base m n v : Z) (u : bool) (x : string) : 0 <= n -> 0 <= base -> parse_digits base m u n x = Num v -> 0 <= v.
Proof.
  intros Hn Hb. revert n Hn. induction x as [|c x IH]; intros n Hn; cbn [parse_digits]; [by intros [= <-]|].
  destruct (u && _); [by apply IH|]. destruct (digit c) as [d|] eqn:Ed; [|done]. destruct (base <=? d); [done|]. destruct (m <? _); [done|]. apply IH.
  assert (0 <= d); [|nia]. unfold digit in Ed. repeat case_match; simplify_eq; lia.
Qed.
Lemma Atoi_int64 (x : string) (n : Z) : Atoi x = Num n -> int64 n.
Proof.
  unfold Atoi, ParseInt. destruct (match x with EmptyString => _ | _ => _ end) as [neg y]. destruct (ParseUint y 10 64) as [un| |un'] eqn:E; [|done|].
  - assert (0 <= un) as Hun by (destruct y; [done|]; cbn [ParseUint] in E; by eapply parse_digits_nonneg in E).
    unfold int64. destruct neg; [destruct (Z.ltb_spec (2 ^ (64 - 1)) un)|destruct (Z.leb_spec (2 ^ (64 - 1)) un)]; intros [= <-]; lia.
  - destruct neg; [destruct (_ <? un')|destruct (_ <=? un')]; done.
Qed.
Lemma netns_int64 (rl : Z -> option string) (pid n : Z) : getNsInumByPid rl pid = Some n -> int64 n.
Proof.
  unfold getNsInumByPid, parse_netns. intros (x & _ & ([k y] & _ & E)%bind_Some)%bind_Some. destruct (String.eqb k "net"); [|done].
  unfold ok in E. destruct (Atoi (Trim brackets y)) eqn:Ea; [|done..]. injection E as <-. by eapply Atoi_int64.
Qed.

Lemma task_lines_int64 (ls : list string) (m m' : gset Z) (b : bool) : (∀ x, x ∈ m -> int64 x) -> task_lines ls m = (m', b) -> ∀ x, x ∈ m' -> int64 x.
Proof.
  revert m. induction ls as [|l ls IH]; intros m Hm; cbn [task_lines]; [by intros [= <- <-]|].
  destruct (String.eqb _ _); [by apply IH|]. destruct (Atoi (TrimSpace l)) as [i| |] eqn:E; [|by intros [= <- <-]..].
  apply IH. intros x [->%elem_of_singleton|Hx]%elem_of_union; [by eapply Atoi_int64|by apply Hm].
Qed.
Lemma walk_tasks_int64 (vs : list walked) (m : gset Z) : (∀ x, x ∈ m -> int64 x) -> ∀ x, x ∈ walk_tasks vs m -> int64 x.
Proof.
  revert m. induction vs as [|[|path isDir content] vs IH]; intros m Hm; cbn [walk_tasks]; [done..|].
  destruct (_ && _); [|by apply IH]. destruct content as [text|]; [|done]. destruct (task_lines _ m) as [m' go] eqn:E.
  pose proof (task_lines_int64 _ _ _ _ Hm E). destruct go; [by apply IH|done].
Qed.

(** Ranging over a map gives keys of it. *)
Definition lawful r : Prop := ∀ m x, x ∈ range_keys r m -> x ∈ m.
Lemma tasks_int64 r (path : string) (absolute : bool) : lawful r -> Forall int64 (tasksInsidePodCgroup (range_keys r) (Walk r) path absolute).
Proof.
  intros Hr. unfold tasksInsidePodCgroup. destruct (String.eqb _ _); [constructor|]. apply Forall_forall. intros x Hx%Hr.
  eapply walk_tasks_int64; [|exact Hx]. by intros y ?%elem_of_empty.
Qed.
Lemma sandbox_entity_wf r (host : netnsMeta) (namespace name : string) (labels : gmap string string) (st : SandboxStatus) (info : sandboxInfoSpec) :
  lawful r -> int64 (inum host) -> ∃ o, sandbox_entity r (Some host) namespace name labels st info = Ok o ∧ ∀ e, o = Some e -> wf e.
Proof.
  intros Hr Hh. unfold sandbox_entity. destruct (getNsInumByPid (readlink r) (i_Pid info)) as [n|] eqn:En; [|by exists None].
  cbn [deref mbind result_bind]. assert (Forall int64 (if String.eqb (CgroupParent (i_Linux info)) EmptyString then [] else
    tasksInsidePodCgroup (range_keys r) (Walk r) (CgroupParent (i_Linux info)) false)) as Hp by (destruct (String.eqb _ _); [constructor|by apply tasks_int64]).
  destruct (n =? inum host).
  - eexists. split; [done|]. intros e [= <-]. split; [by exists host|done].
  - destruct (ss_Network st) as [ip|]; [|by exists None]. destruct (String.eqb ip EmptyString); [by exists None|].
    eexists. split; [done|]. intros e [= <-]. split; [eexists; split; [done|by eapply netns_int64]|done].
Qed.
Lemma pod_entity_wf r (pod : PodCacheInfo) : lawful r -> wf (pod_entity r pod).
Proof.
  intros Hr. split; [eexists; split; [done|]|by apply tasks_int64]. unfold int64. cbn [inum]. unfold sext, wrap.
  pose proof (Z.mod_pos_bound (pi_NetNSInode pod) (2 ^ 64) ltac:(lia)). destruct (Z.ltb_spec (pi_NetNSInode pod mod 2 ^ 64) (2 ^ (64 - 1))); lia.
Qed.

(** ** Refreshes *)

(** What a sandbox is to the table, where the driver of Docker is known. *)
Definition info_of r (driver : option string) (st : SandboxStatus) (info : gmap string string) : option sandboxInfoSpec :=
  if String.eqb (RuntimeName r) "docker" then driver ← driver; docker ← docker_container r (ss_Id st); Some (buildSandboxInfoSpecForDocker driver docker)
  else let text := default EmptyString (info !! "info"%string) in if String.eqb text EmptyString then None else Unmarshal r text.
Definition data_of r (driver : option string) (sb : Sandbox) : option (SandboxStatus * sandboxInfoSpec) :=
  resp ← PodSandboxStatus r (sb_Id sb); st ← sr_Status resp; (λ i, (st, i)) <$> info_of r driver st (sr_Info resp).
Definition entity_of r (host : netnsMeta) (driver : option string) (sb : Sandbox) : option Entity :=
  '(namespace, name) ← sb_Metadata sb; '(st, info) ← data_of r driver sb;
  match sandbox_entity r (Some host) namespace name (sb_Labels sb) st info with Ok o => o | _ => None end.
Definition known r (driver : option string) s : Prop := RuntimeName r ≠ "docker"%string ∨ (is_Some driver ∧ dockerInfo s = driver).

(** From [s] to [s'], the entities [es] were recorded, at times of [r]. *)
Record grown r (host : netnsMeta) (es : list Entity) s s' : Prop := MkGrown {
  gr_inv : inv host s';
  gr_heap : heap s' = heap s ++ es;
  gr_history : ∃ new, history s' = history s ++ new ∧ new.*2 = seq (length (heap s)) (length es) ∧ Forall (λ x, ∃ i, x.1 = clock r i) new;
  gr_default : defaultEntity s' = defaultEntity s;
}.
Lemma grown_same r (host : netnsMeta) s s' : inv host s' -> heap s' = heap s -> history s' = history s -> defaultEntity s' = defaultEntity s -> grown r host [] s s'.
Proof. intros Hi Hh Hhi Hd. split; [done|by rewrite app_nil_r| |done]. exists []. by rewrite app_nil_r. Qed.
Lemma grown_refl r (host : netnsMeta) s : inv host s -> grown r host [] s s.
Proof. intros Hi. by apply grown_same. Qed.
Lemma grown_trans r (host : netnsMeta) (es fs : list Entity) s1 s2 s3 : grown r host es s1 s2 -> grown r host fs s2 s3 -> grown r host (es ++ fs) s1 s3.
Proof.
  intros [A1 A2 (new & A3 & A4 & A5) A6] [B1 B2 (more & B3 & B4 & B5) B6]. split; [done| | |congruence].
  - by rewrite B2, A2, app_assoc.
  - exists (new ++ more). split; [by rewrite B3, A3, app_assoc|]. split; [|by apply Forall_app].
    by rewrite fmap_app, A4, B4, A2, !length_app, seq_app.
Qed.
Lemma grown_record r (host : netnsMeta) (i : nat) (e : Entity) s s' : inv host s' -> heap s' = heap s ++ [e] -> history s' = history s ++ [(clock r i, length (heap s))] ->
  defaultEntity s' = defaultEntity s -> grown r host [e] s s'.
Proof. intros Hi Hh Hhi Hd. split; [done|done| |done]. eexists. split; [exact Hhi|]. split; [done|]. apply Forall_singleton. by exists i. Qed.
Lemma set_docker_inv (host : netnsMeta) (d : option string) s : inv host s -> inv host (set_docker d s).
Proof. intros [? ? ? ? ? ?]. by split. Qed.
Lemma set_entities_inv (host : netnsMeta) (l : list nat) s : inv host s -> Forall (has_ns (heap s)) l -> inv host (set_entities l s).
Proof. intros [? ? ? ? ? ?] Hl. split; try done. by intros l' [= <-]. Qed.

Lemma sandbox_data_spec (host : netnsMeta) r (sb : Sandbox) s : inv host s ->
  let '(s', d) := sandbox_data r sb s in
  grown r host [] s s' ∧ entities s' = entities s ∧
  (∀ driver, known r driver s -> known r driver s' ∧ d = data_of r driver sb).
Proof.
  intros Hi. unfold sandbox_data, data_of. destruct (PodSandboxStatus r (sb_Id sb)) as [[[st|] info]|]; cbn [sr_Status sr_Info mbind option_bind];
    [|by split_and!; [apply grown_refl|..]..].
  unfold getSandboxInfoSpec, info_of. destruct (String.eqb_spec (RuntimeName r) "docker") as [Ed|Ed]; [|by split_and!; [apply grown_refl|..]].
  unfold getSandboxInfoSpecForDocker. destruct (dockerInfo s) as [x|] eqn:Ex.
  - split_and!; [by apply grown_refl|done|]. intros driver [?|Hk]; [done|]. split; [by right|]. destruct Hk as [_ <-]. by rewrite Ex.
  - unfold initializeDockerInfo. destruct (docker_info r) as [[y|]|]; (split_and!; [|done|]);
      try (by apply grown_same; [apply set_docker_inv|..]); try (by apply grown_refl);
      intros driver [?|[[z ->] Hk]]; congruence.
Qed.

Lemma has_ns_app (h k : list Entity) (l : list nat) : Forall (has_ns h) l -> Forall (has_ns (h ++ k)) l.
Proof. intros Hl. eapply Forall_impl; [exact Hl|]. intros p (e & ns & He & Hns). exists e, ns. by rewrite lookup_app_l by (by eapply lookup_lt_Some). Qed.

Lemma sandbox_step_spec (host : netnsMeta) r (sb : Sandbox) (i : nat) s : lawful r -> inv host s ->
  let '(s', x) := sandbox_step r i sb s in
  ∃ es, grown r host es s s' ∧ entities s' = entities s ∧ (∀ driver, known r driver s -> known r driver s') ∧
    ∀ ps, x = Ok ps -> ps = seq (length (heap s)) (length es) ∧ Forall (has_ns (heap s')) ps ∧ ∀ driver, known r driver s -> es = option_list (entity_of r host driver sb).
Proof.
  intros Hr Hi. unfold sandbox_step, entity_of. destruct (sb_Metadata sb) as [[namespace name]|]; [|exists []; by split_and!; [apply grown_refl|..]].
  cbn [mbind option_bind]. pose proof (sandbox_data_spec host r sb s Hi) as Hd. destruct (sandbox_data r sb s) as [s1 d]. destruct Hd as (Hg1 & He1 & Hd).
  pose proof Hg1 as [Hi1 Hh1 _ Hdef1]. rewrite app_nil_r in Hh1. assert (∀ driver, known r driver s -> known r driver s1) as Hk1 by (intros; by apply Hd).
  assert (∀ driver, known r driver s -> data_of r driver sb = d) as Hdata by (intros driver Hk; symmetry; by apply Hd).
  destruct d as [[st info]|].
  - destruct (sandbox_entity_wf r host namespace name (sb_Labels sb) st info Hr (inv_inum _ _ Hi1)) as (o & Eo & Hwf). rewrite (inv_host _ _ Hi1), Eo.
    destruct o as [e|].
    + destruct (record_inv host (clock r i) e s1 Hi1 (Hwf e eq_refl)) as (s2 & -> & Hi2 & Hh2 & Hhi2 & He2 & Hd2 & Hdef2).
      exists [e]. split_and!.
      * apply (grown_trans r host [] [e] s s1 s2 Hg1). by eapply grown_record.
      * congruence.
      * intros driver Hk%Hk1. unfold known. by rewrite Hd2.
      * intros ps [= <-]. split_and!; [by rewrite Hh1| |].
        -- rewrite Hh2. apply Forall_singleton. destruct (Hwf e eq_refl) as [(ns & Hns & _) _]. exists e, ns. by rewrite list_lookup_middle.
        -- intros driver Hk. rewrite (Hdata driver Hk). cbn [mbind option_bind]. by rewrite Eo.
    + exists []. split_and!; [done..|]. intros ps [= <-]. split_and!; [done..|]. intros driver Hk. rewrite (Hdata driver Hk). cbn [mbind option_bind]. by rewrite Eo.
  - exists []. split_and!; [done..|]. intros ps [= <-]. split_and!; [done..|]. intros driver Hk. by rewrite (Hdata driver Hk).
Qed.

Lemma sandbox_loop_spec (host : netnsMeta) r (sbs : list Sandbox) (i : nat) (acc : list nat) s s' x :
  lawful r -> inv host s -> Forall (has_ns (heap s)) acc -> sandbox_loop r i sbs acc s = (s', x) ->
  ∃ es, grown r host es s s' ∧ (x ≠ Ok () -> entities s' = entities s) ∧
    (x = Ok () -> entities s' = Some (acc ++ seq (length (heap s)) (length es)) ∧ ∀ driver, known r driver s -> es = omap (entity_of r host driver) sbs).
Proof.
  intros Hr. revert i acc s. induction sbs as [|sb sbs IH]; intros i acc s Hi Hacc; cbn [sandbox_loop].
  { intros [= <- <-]. exists []. split_and!; [|done|]; [by apply grown_same; [apply set_entities_inv|..]|].
    intros _. by rewrite app_nil_r. }
  destruct (contextDone r i); [intros [= <- <-]; exists []; split_and!; [by apply grown_refl|done..]|].
  pose proof (sandbox_step_spec host r sb i s Hr Hi) as Hs. destruct (sandbox_step r i sb s) as [s1 [ps| |]]; destruct Hs as (es & Hg & He & Hk & Hps);
    [|by intros [= <- <-]; exists es..].
  destruct (Hps ps eq_refl) as (-> & Hns & Hspec). intros E.
  assert (Forall (has_ns (heap s1)) (acc ++ seq (length (heap s)) (length es))) as Hacc1.
  { apply Forall_app. split; [|done]. rewrite (gr_heap _ _ _ _ _ Hg). by apply has_ns_app. }
  destruct (IH (S i) _ _ (gr_inv _ _ _ _ _ Hg) Hacc1 E) as (fs & Hg2 & H1 & H2).
  exists (es ++ fs). split_and!; [by eapply grown_trans|by intros Hx; rewrite (H1 Hx)|]. intros Hx. destruct (H2 Hx) as [H3 H4]. split.
  - by rewrite H3, (gr_heap _ _ _ _ _ Hg), !length_app, seq_app, <- app_assoc.
  - intros driver Hkd. rewrite (Hspec driver Hkd), (H4 driver (Hk driver Hkd)). cbn [omap list_omap]. by destruct (entity_of r host driver sb).
Qed.

Definition listed (pod : PodCacheInfo) : bool := negb (String.eqb (pi_Name pod) EmptyString || String.eqb (pi_Namespace pod) EmptyString).
Lemma pod_loop_spec (host : netnsMeta) r (pods : list PodCacheInfo) (i : nat) (acc : list nat) s :
  lawful r -> inv host s -> Forall (has_ns (heap s)) acc ->
  ∃ s', pod_loop r i pods acc s = (s', Ok ()) ∧ let es := pod_entity r <$> List.filter listed pods in
    grown r host es s s' ∧ entities s' = Some (acc ++ seq (length (heap s)) (length es)).
Proof.
  intros Hr. revert i acc s. induction pods as [|pod pods IH]; intros i acc s Hi Hacc; cbn [pod_loop List.filter].
  { eexists. split; [done|]. split; [by apply grown_same; [apply set_entities_inv|..]|]. cbn. by rewrite app_nil_r. }
  rewrite <- (negb_involutive (_ || _)). change (negb (String.eqb (pi_Name pod) EmptyString || String.eqb (pi_Namespace pod) EmptyString)) with (listed pod).
  destruct (listed pod); cbn [negb]; [|by apply IH].
  destruct (record_inv host (clock r i) (pod_entity r pod) s Hi (pod_entity_wf r pod Hr)) as (s1 & -> & Hi1 & Hh1 & Hhi1 & He1 & Hd1 & Hdef1).
  assert (grown r host [pod_entity r pod] s s1) as Hg1 by (by eapply grown_record).
  destruct (IH (S i) (acc ++ [length (heap s)]) s1 Hi1) as (s' & E & Hg & He).
  { rewrite Hh1. apply Forall_app. split; [by apply has_ns_app|]. apply Forall_singleton. eexists _, _. by rewrite list_lookup_middle. }
  exists s'. split; [done|]. cbn zeta in *. split; [by eapply (grown_trans r host [_])|].
  rewrite He, Hh1, <- app_assoc. cbn [fmap list_fmap length app seq]. rewrite length_app. cbn [length]. by rewrite Nat.add_1_r.
Qed.

(** The table after [StartCache] and any number of refreshes, which can fail
    at any point; [false] is the mode that is not a sidecar's. *)
Inductive reached (host : netnsMeta) : nettop -> Prop :=
  | Started rl now self links pod s :
      initDefaultEntity rl now self links pod false initial = (s, Ok ()) -> host_ns s = Some host -> reached host s
  | Refreshed r s s' x : reached host s -> lawful r -> cacheNetTopology r s = (s', x) -> reached host s'
  | RefreshedNoCri r pods s s' x : reached host s -> lawful r -> cacheNetTopologyNoCri r pods s = (s', x) -> reached host s'.

Lemma started_inv rl now self links pod s host : initDefaultEntity rl now self links pod false initial = (s, Ok ()) -> host_ns s = Some host ->
  inv host s ∧ isHostNetwork host = true.
Proof.
  unfold initDefaultEntity. destruct (getNsInumByPid rl self) as [n|] eqn:En; [|done]. destruct (hostIPList links) as [ips|]; [|done].
  cbn [addEntityToCache heap initial app lookup list_lookup length deref mbind result_bind e_ns negb]. cbn. intros [= <-] [= <-]. split; [|done]. split.
  - done.
  - by eapply netns_int64.
  - constructor.
  - done.
  - intros t m Hm. cbn. destruct (Z.eqb_spec m n) as [->|Hne]; [by rewrite get_set|]. rewrite get_set_other, get_new; [done|].
    intros E. apply dec_inj in E; [done|done|by eapply netns_int64].
  - intros t pid _. cbn. apply get_new.
Qed.
Lemma reached_inv (host : netnsMeta) s : reached host s -> inv host s ∧ isHostNetwork host = true.
Proof.
  induction 1 as [rl now self links pod s Hs Hh|r s s' x _ [IH Hhost] Hr E|r pods s s' x _ [IH Hhost] Hr E]; [by eapply started_inv| |].
  - split; [|done]. unfold cacheNetTopology in E. destruct (ListPodSandbox r) as [sbs|]; [|by injection E as <- <-].
    assert (Forall (has_ns (heap s)) [defaultEntity s]) as Hd.
    { apply Forall_singleton. pose proof (inv_host _ _ IH) as (e & He & Hns)%bind_Some. by exists e, host. }
    destruct (sandbox_loop_spec host r sbs 0 _ s s' x Hr IH Hd E) as (es & [? ? ? ?] & _). done.
  - split; [|done]. unfold cacheNetTopologyNoCri in E. assert (Forall (has_ns (heap s)) [defaultEntity s]) as Hd.
    { apply Forall_singleton. pose proof (inv_host _ _ IH) as (e & He & Hns)%bind_Some. by exists e, host. }
    destruct (pod_loop_spec host r pods 0 _ s Hr IH Hd) as (s1 & E1 & [? ? ? ?] & _). rewrite E1 in E. by injection E as <- <-.
Qed.

(** ** Properties *)

Definition netns_at s (p : nat) : option netnsMeta := e ← heap s !! p; e_ns e.
Definition own_at s (p : nat) : bool := match netns_at s p with Some ns => negb (isHostNetwork ns) | None => false end.

Lemma filter_entities_total (f : nat -> result Empty_set bool) (g : nat -> bool) (l : list nat) :
  Forall (λ p, f p = Ok (g p)) l -> filter_entities f l = Ok (List.filter g l).
Proof. induction 1 as [|p l Hp _ IH]; [done|]. cbn [filter_entities List.filter]. rewrite Hp, IH. cbn [mbind result_bind]. by destruct (g p). Qed.
Lemma unique_total s (l : list nat) : entities s = Some l -> Forall (has_ns (heap s)) l ->
  GetAllUniqueNetnsEntity s = Ok (List.filter (λ p, bool_decide (p = defaultEntity s) || own_at s p) l).
Proof.
  intros Hl Hns. unfold GetAllUniqueNetnsEntity, getAllEntity. rewrite Hl. apply filter_entities_total. eapply Forall_impl; [exact Hns|].
  intros p (e & ns & He & He'). cbn beta. unfold own_at, netns_at. rewrite He. cbn [mbind option_bind deref result_bind]. unfold IsHostNetwork. rewrite He'.
  cbn [mbind result_bind deref]. by destruct (bool_decide _).
Qed.

(** C33: every pointer that the table gives out is one to an entity with a
    namespace, at any time after the start: those in the lists, which never
    follow a nil pointer, and those found by a namespace or a process. *)
Theorem nettop_pointers (host : netnsMeta) s (Hs : reached host s) :
  (∃ l, GetAllEntity s = Ok l ∧ Forall (has_ns (heap s)) l) ∧
  (∃ l, GetAllUniqueNetnsEntity s = Ok l ∧ Forall (λ p, p = defaultEntity s ∨ own_at s p = true) l ∧ Forall (has_ns (heap s)) l) ∧
  (∀ now n p, int64 n -> GetEntityByNetns now n s = Some p -> has_ns (heap s) p) ∧
  (∀ now pid p, int64 pid -> GetEntityByPid now pid s = Some p -> has_ns (heap s) p).
Proof.
  destruct (reached_inv host s Hs) as [[H1 H0 H2 H3 H4 H5] _]. assert (has_ns (heap s) (defaultEntity s)) as Hd by (apply bind_Some in H1 as (e & ? & ?); by exists e, host).
  assert (∀ f x, recent f s = Some x -> has_ns (heap s) x.2) as Hrec.
  { unfold recent. intros f x Hx%last_Some_elem_of%list_elem_of_In. apply filter_In in Hx as [Hx%list_elem_of_In _]. rewrite Forall_forall in H2. by apply H2. }
  split_and!.
  - unfold GetAllEntity, getAllEntity. destruct (entities s) as [l|] eqn:El; [|by exists []]. exists l. split; [|by apply H3].
    rewrite (filter_entities_total _ (λ _, true)) by (by apply Forall_forall). f_equal. clear. induction l as [|p l IH]; [done|]. cbn. by rewrite IH.
  - destruct (entities s) as [l|] eqn:El; [|exists []; unfold GetAllUniqueNetnsEntity, getAllEntity; by rewrite El]. rewrite (unique_total s l El) by (by apply H3).
    eexists. split; [done|]. pose proof (H3 l eq_refl) as Hl. rewrite !Forall_forall in *. split; intros p Hp%list_elem_of_In%filter_In.
    + destruct Hp as [_ [Hp%bool_decide_eq_true|Hp]%orb_true_iff]; [by left|by right].
    + apply Hl. apply list_elem_of_In. by destruct Hp.
  - intros now n p Hn. unfold GetEntityByNetns, GetHostNetworkEntity. destruct (n =? 0); [by intros [= <-]|]. rewrite H4 by done.
    destruct (recent (own_netns n) s) as [x|] eqn:Ex; [|destruct (n =? inum host); by intros [= <-]].
    unfold alive. destruct (now <=? _); [|done]. intros [= <-]. by eapply Hrec.
  - intros now pid p Hpid. unfold GetEntityByPid. rewrite H5 by done. intros (x & Hx & Ha)%bind_Some. unfold alive in Ha.
    destruct (now <=? _); [|done]. injection Ha as <-. by eapply Hrec.
Qed.

(** C16: what a lookup gives, at any time after the start.  A namespace leads
    to the last entity recorded that has it for its own, for thirty seconds
    from then on; the agent's own namespace leads to the agent's entity, as
    does 0.  A process leads to the last entity recorded with it. *)
Theorem lookup_exact (host : netnsMeta) s (Hs : reached host s) (now n : Z) (Hn : int64 n) :
  GetEntityByNetns now n s =
    (if n =? 0 then Some (defaultEntity s) else
     match recent (own_netns n) s with Some x => alive now x | None => if n =? inum host then Some (defaultEntity s) else None end) ∧
  GetEntityByPid now n s = recent (has_pid n) s ≫= alive now.
Proof.
  destruct (reached_inv host s Hs) as [[_ _ _ _ H4 H5] _]. split; [|by apply H5]. unfold GetEntityByNetns. destruct (n =? 0); [done|by apply H4].
Qed.

Lemma entity_of_own r (host : netnsMeta) (driver : option string) (sb : Sandbox) (e : Entity) (ns : netnsMeta) :
  isHostNetwork host = true -> entity_of r host driver sb = Some e -> e_ns e = Some ns -> isHostNetwork ns = false -> inum ns ≠ inum host.
Proof.
  intros Hh. unfold entity_of. intros ([namespace name] & _ & ([st info] & _ & E)%bind_Some)%bind_Some Hns Hown.
  unfold sandbox_entity in E. destruct (getNsInumByPid _ _) as [n|]; [|done]. cbn [deref mbind result_bind] in E. destruct (Z.eqb_spec n (inum host)).
  - injection E as <-. injection Hns as <-. congruence.
  - destruct (ss_Network st) as [ip|]; [|done]. destruct (String.eqb ip EmptyString); [done|]. injection E as <-. by injection Hns as <-.
Qed.

Lemma recent_new (f : Entity -> bool) (h es : list Entity) (old new : list (Z * nat)) (e : Entity) :
  new.*2 = seq (length h) (length es) -> e ∈ es -> f e = true ->
  ∃ x, last (List.filter (matching f (h ++ es)) (old ++ new)) = Some x ∧ x ∈ new ∧ matching f (h ++ es) x = true.
Proof.
  intros Hnew (k & Hk)%list_elem_of_lookup Hf. assert (new.*2 !! k = Some (length h + k)%nat) as Hx.
  { rewrite Hnew. apply lookup_seq. split; [done|by eapply lookup_lt_Some]. }
  apply list_lookup_fmap_Some in Hx as (x & Hx2 & Hx). assert (matching f (h ++ es) x = true) as Hm.
  { unfold matching. rewrite <- Hx2. by rewrite lookup_app_r, Nat.add_sub_swap, Nat.sub_diag, Nat.add_0_l, Hk by lia. }
  rewrite List.filter_app, last_app. destruct (last (List.filter (matching f (h ++ es)) new)) as [y|] eqn:El.
  - apply last_Some_elem_of, list_elem_of_In, filter_In in El as [Hy%list_elem_of_In Hmy]. by exists y.
  - apply last_None in El. assert (x ∈ List.filter (matching f (h ++ es)) new) as Hin.
    { apply list_elem_of_In, filter_In. split; [|done]. apply list_elem_of_In. by eapply list_elem_of_lookup_2. }
    rewrite El in Hin. by apply elem_of_nil in Hin.
Qed.

(** C15: a refresh that succeeds.  It records one entity for each sandbox
    whose data can be read, in their order; the list of all entities is these
    after the agent's own, and the list by namespaces leaves out those in the
    agent's namespace, so that the agent's is there once.  From then on, for
    thirty seconds, the namespace of every sandbox leads to an entity of this
    refresh with that namespace. *)
Theorem refresh_exact (host : netnsMeta) r (driver : option string) (sbs : list Sandbox) s s' (Hs : reached host s) (Hr : lawful r)
    (Hk : known r driver s) (Hsbs : ListPodSandbox r = Some sbs) (Hok : cacheNetTopology r s = (s', Ok ())) :
  let es := omap (entity_of r host driver) sbs in let new := seq (length (heap s)) (length es) in
  heap s' = heap s ++ es ∧ GetAllEntity s' = Ok (defaultEntity s :: new) ∧
  GetAllUniqueNetnsEntity s' = Ok (defaultEntity s :: List.filter (own_at s') new) ∧
  (∀ p ns, own_at s' p = true -> p ∈ new -> netns_at s' p = Some ns -> inum ns ≠ inum host) ∧
  ∀ e n now, e ∈ es -> own_netns n e = true -> int64 n -> n ≠ 0 -> (∀ i, now <= clock r i + lifetime) ->
    ∃ p e', GetEntityByNetns now n s' = Some p ∧ heap s' !! p = Some e' ∧ e' ∈ es ∧ own_netns n e' = true.
Proof.
  intros es new. destruct (reached_inv host s Hs) as [Hi Hhost]. assert (reached host s') as Hs' by (by eapply Refreshed).
  unfold cacheNetTopology in Hok. rewrite Hsbs in Hok. pose proof (inv_host _ _ Hi) as (d & Hd & Hdns)%bind_Some.
  destruct (sandbox_loop_spec host r sbs 0 [defaultEntity s] s s' (Ok ()) Hr Hi) as (es' & [Hi' Hh (log & Hlog & Hnew & Htimes) Hdef] & _ & Hend); [by apply Forall_singleton; exists d, host|done|].
  destruct (Hend eq_refl) as [Hents Hes]. specialize (Hes driver Hk). subst es'. fold es in Hh, Hnew, Hents. fold new in Hnew, Hents.
  assert (∀ k p, new !! k = Some p -> heap s' !! p = es !! k) as Hat.
  { intros k p [-> Hlt]%lookup_seq. rewrite Hh, lookup_app_r by lia. f_equal. lia. }
  split; [done|]. split; [|split; [|split]].
  - unfold GetAllEntity, getAllEntity. rewrite Hents, (filter_entities_total _ (λ _, true)) by (by apply Forall_forall). f_equal. cbn [app].
    generalize (defaultEntity s :: new). intros l. induction l as [|p l IH]; [done|]. cbn. by rewrite IH.
  - rewrite (unique_total s' _ Hents) by (by apply (inv_entities _ _ Hi')). cbn [app List.filter]. rewrite Hdef, bool_decide_eq_true_2 by done. cbn [orb]. do 2 f_equal.
    apply List.filter_ext_in. intros p [Hp _]%list_elem_of_In%elem_of_seq. rewrite bool_decide_eq_false_2; [done|]. intros ->. apply lookup_lt_Some in Hd. lia.
  - intros p ns Hown [k Hp]%list_elem_of_lookup Hns. unfold own_at in Hown. rewrite Hns in Hown. unfold netns_at in Hns. rewrite (Hat k p Hp) in Hns.
    apply bind_Some in Hns as (e & He%list_elem_of_lookup_2 & Hns). apply list_elem_of_omap in He as (sb & _ & Hsb). eapply entity_of_own; [done|done|done|]. by apply negb_true_iff.
  - intros e n now He Hf Hn Hn0 Hnow. unfold GetEntityByNetns. destruct (Z.eqb_spec n 0); [done|]. rewrite (inv_netns _ _ Hi') by done.
    destruct (recent_new (own_netns n) (heap s) es (history s) log e Hnew He Hf) as (x & Hx & Hin & Hm). unfold recent. rewrite Hh, Hlog, Hx.
    rewrite Forall_forall in Htimes. destruct (Htimes x Hin) as [i Hxi]. unfold alive. rewrite Hxi. destruct (Z.leb_spec now (clock r i + lifetime)); [|by pose proof (Hnow i); lia].
    assert (x.2 ∈ new) as [k Hkx]%list_elem_of_lookup by (rewrite <- Hnew; by apply list_elem_of_fmap_2).
    unfold matching in Hm. rewrite <- Hh, (Hat k _ Hkx) in Hm. destruct (es !! k) as [e'|] eqn:Ee; [|done]. exists x.2, e'.
    split_and!; [done|by rewrite <- Hh, (Hat k _ Hkx)|by eapply list_elem_of_lookup_2|done].
Qed.
End nettop.

(** ** An example *)

(** Two pods, one of them in the namespace of the node, and a sandbox whose
    status is not known. *)
Definition ex_readlink (pid : Z) : option string :=
  if (pid =? 100) || (pid =? 300) then Some "net:[4026531840]"%string else if pid =? 200 then Some "net:[4026532001]"%string else None.
Definition ex_sandbox (id name : string) : Sandbox := MkSandbox id (Some ("default"%string, name)) ∅.
Definition ex_status (id : string) : option StatusResponse :=
  if String.eqb id "1" then Some (MkResponse (Some (MkStatus "1" (Some "10.0.0.2"%string))) {["info"%string := "200"%string]})
  else if String.eqb id "2" then Some (MkResponse (Some (MkStatus "2" None)) {["info"%string := "300"%string]}) else None.
Definition ex_unmarshal (text : string) : option sandboxInfoSpec := n ← ok (Atoi text); Some (MkInfo n (MkLinux "/kubepods/pod1")).
Definition ex_walk (path : string) (absolute : bool) : list walked :=
  [Visited "/kubepods/pod1" true None; Visited "/kubepods/pod1/tasks" false (Some (String "2" (String "0" (String "1" (String newline EmptyString)))))].
Definition ex_runtime : Runtime :=
  MkRuntime (Some [ex_sandbox "1" "a"; ex_sandbox "2" "h"; ex_sandbox "3" "x"]) ex_status "containerd" None (λ _, None) ex_unmarshal ex_readlink ex_walk elements
    (λ i, second * Z.of_nat i) (λ _, false).
Abbreviation table := (nettop (C := gmap string (nat * option Z))).
Definition ex_started : table := (initDefaultEntity ex_readlink 0 100 (Some []) None false initial).1.
Definition ex_refreshed : table := (cacheNetTopology ex_runtime ex_started).1.
Definition ex_host : netnsMeta := MkNetnsMeta 4026531840 "/proc/100/ns/net" true [].

Lemma ex_lawful : lawful ex_runtime.
Proof. intros m x. apply elem_of_elements. Qed.
Lemma ex_reached0 : reached ex_host ex_started.
Proof. eapply (Started ex_host ex_readlink 0 100 (Some []) None); vm_compute; reflexivity. Qed.
Lemma ex_reached : reached ex_host ex_refreshed.
Proof. eapply (Refreshed ex_host ex_runtime ex_started); [exact ex_reached0|exact ex_lawful|apply surjective_pairing]. Qed.

Lemma nettop_pointers_witness : ∃ l, GetAllUniqueNetnsEntity ex_refreshed = Ok l ∧ Forall (has_ns (heap ex_refreshed)) l.
Proof. destruct (nettop_pointers ex_host ex_refreshed ex_reached) as (_ & (l & E & _ & Hl) & _). by exists l. Defined.
Lemma lookup_exact_witness :
  GetEntityByNetns (29 * second) 4026532001 ex_refreshed = Some 2%nat ∧ GetEntityByNetns (31 * second) 4026532001 ex_refreshed = None ∧
  GetEntityByNetns (31 * second) 4026531840 ex_refreshed = Some 1%nat ∧ GetEntityByPid (29 * second) 201 ex_refreshed = Some 3%nat.
Proof.
  pose proof (λ now n Hn, lookup_exact ex_host ex_refreshed ex_reached now n Hn) as H. split_and!.
  - rewrite (proj1 (H _ 4026532001 eq_refl)). vm_compute. reflexivity.
  - rewrite (proj1 (H _ 4026532001 eq_refl)). vm_compute. reflexivity.
  - rewrite (proj1 (H _ 4026531840 eq_refl)). vm_compute. reflexivity.
  - rewrite (proj2 (H _ 201 eq_refl)). vm_compute. reflexivity.
Defined.
Lemma refresh_exact_witness : GetAllEntity ex_refreshed = Ok [1; 2; 3]%nat ∧ GetAllUniqueNetnsEntity ex_refreshed = Ok [1; 2]%nat.
Proof.
  destruct (refresh_exact ex_host ex_runtime None [ex_sandbox "1" "a"; ex_sandbox "2" "h"; ex_sandbox "3" "x"] ex_started ex_refreshed) as (_ & -> & -> & _).
  - exact ex_reached0.
  - exact ex_lawful.
  - left. by intros [=].
  - reflexivity.
  - vm_compute. reflexivity.
  - split; vm_compute; reflexivity.
Defined.
End NettopCache.
