(* ===== verification/NettopPods.v ===== *)
(** src/pkg/exporter/nettop/k8s.go: the pods of the node as the agent learns
    them from the API server where it has no container runtime to ask.

    The API server gives names, addresses and labels; the cgroups give the
    process of the sandbox and its network namespace.  Both come in any order
    and are joined by the pod's uid.  The functions that take the lock are one
    step each; the search in the cgroup of a pod is two, what comes before the
    lock and what it does with it.  The LRU cache is a library, known by its
    documented behaviour. *)

From Stdlib Require Import Ascii.
From S2P Require Import Prelude GoStrings GoResult NettopCache.
Import NettopCache.

(** [Get] of an LRU cache changes it; what was just added or found is found,
    and nothing is found that was not added. *)
Class Lru (L : Type) := {
  lru_New : L;
  lru_Add : string * Z -> L -> L;
  lru_Get : string * Z -> L -> L * bool;
  lru_get_new (k : string * Z) : (lru_Get k lru_New).2 = false;
  lru_get_add (k : string * Z) (l : L) : (lru_Get k (lru_Add k l)).2 = true;
  lru_get_get (k : string * Z) (l : L) : (lru_Get k l).2 = true -> (lru_Get k (lru_Get k l).1).2 = true;
  lru_add_only (k k' : string * Z) (l : L) : (lru_Get k (lru_Add k' l)).2 = true -> k = k' ∨ (lru_Get k l).2 = true;
  lru_get_only (k k' : string * Z) (l : L) : (lru_Get k (lru_Get k' l).1).2 = true -> (lru_Get k l).2 = true;
}.

(** The last 1000 keys, the one used last first. *)
#[export] Instance list_lru : Lru (list (string * Z)).
Proof.
  refine {| lru_New := []; lru_Add := λ k l, take 1000 (k :: filter (λ x, x ≠ k) l);
            lru_Get := λ k l, if bool_decide (k ∈ l) then (k :: filter (λ x, x ≠ k) l, true) else (l, false) |}.
  - done.
  - intros k l. rewrite bool_decide_eq_true_2; [done|]. change (take 1000 (k :: filter (λ x, x ≠ k) l)) with (k :: take 999 (filter (λ x, x ≠ k) l)). by left.
  - intros k l. destruct (bool_decide (k ∈ l)) eqn:E; [|by cbn]. intros _. cbn [fst snd]. rewrite bool_decide_eq_true_2; [done|by left].
  - intros k k' l. assert (k ∈ take 1000 (k' :: filter (λ x, x ≠ k') l) -> k = k' ∨ k ∈ l) as Hin.
    { intros Hk. assert (k ∈ k' :: filter (λ x, x ≠ k') l) as [->|[_ ?]%list_elem_of_filter]%elem_of_cons; [|by left|by right].
      eapply elem_of_prefix; [exact Hk|apply prefix_take]. }
    case_bool_decide as Hk; [|done]. intros _. destruct (Hin Hk); [by left|right]. by rewrite bool_decide_eq_true_2.
  - intros k k' l. destruct (bool_decide (k' ∈ l)) eqn:E; [|done]. apply bool_decide_eq_true in E. cbn [fst].
    case_bool_decide as Hk; [|done]. intros _. rewrite bool_decide_eq_true_2; [done|].
    apply elem_of_cons in Hk as [->|[_ ?]%list_elem_of_filter]; done.
Defined.

Module NettopPods.

(** ** The sandbox of a pod *)

(** A directory of the cgroup with its tasks, or an error of [filepath.Walk]. *)
Inductive dir_walked := DirError | Dir (tasks : option string).
(** A process: when it started, and its command line. *)
Definition process : Type := Z * option string.
Definition is_pause (cmdline : string) : bool := ContainsText "pause" cmdline.
Definition earliest (proc : string -> option process) (best : option (Z * Z)) (pidStr : string) : option (Z * Z) :=
  match Atoi pidStr, proc pidStr with
  | Num pid, Some (t, Some cmdline) =>
      if negb (is_pause cmdline) then best
      else match best with None => Some (t, pid) | Some (t', _) => if t <? t' then Some (t, pid) else best end
  | _, _ => best
  end.
Fixpoint walk_dirs (proc : string -> option process) (visits : list dir_walked) (best : option (Z * Z)) : option (option (Z * Z)) :=
  match visits with
  | [] => Some best
  | DirError :: _ => None
  | Dir None :: visits' => walk_dirs proc visits' best
  | Dir (Some content) :: visits' => walk_dirs proc visits' (foldl (earliest proc) best (Split newline (TrimSpace content)))
  end.
(** The oldest process called pause; one with number 0 counts as none. *)
Definition getSandboxPID (proc : string -> option process) (visits : list dir_walked) : option Z :=
  best ← walk_dirs proc visits None; '(_, pid) ← best; if pid =? 0 then None else Some pid.

(** ** The cache *)

Section pods.
Context {L : Type} `{Lru L}.

Record PodCache := MkPodCache { podInfoCache : gmap string PodCacheInfo; cgroupPathCache : gmap string string; cgroupCache : L }.
Definition NewPodCache : PodCache := MkPodCache ∅ ∅ lru_New.
Implicit Types (pc : PodCache) (uid cgroupPath : string).
Definition set_infos (m : gmap string PodCacheInfo) pc : PodCache := MkPodCache m (cgroupPathCache pc) (cgroupCache pc).

Definition GetAllLocalPods pc : list PodCacheInfo := (map_to_list (podInfoCache pc)).*2.

(** A pod of the API server. *)
Record k8s_pod := MkK8sPod { kp_UID : string; kp_IP : string; kp_Name : string; kp_Namespace : string; kp_Labels : gmap string string; kp_HostNetwork : bool }.
Definition no_info uid : PodCacheInfo := MkPodInfo uid EmptyString EmptyString EmptyString ∅ EmptyString 0 EmptyString 0 false.
Definition with_basic (pod : k8s_pod) (old : PodCacheInfo) : PodCacheInfo :=
  MkPodInfo (kp_UID pod) (kp_IP pod) (kp_Name pod) (kp_Namespace pod) (kp_Labels pod) (pi_CgroupPath old) (pi_SandboxPID old) (pi_NetNSPath old) (pi_NetNSInode old) (kp_HostNetwork pod).
Definition updatePodBasicInfo (pod : k8s_pod) pc : PodCache :=
  set_infos (<[kp_UID pod := with_basic pod (default (no_info (kp_UID pod)) (podInfoCache pc !! kp_UID pod))]> (podInfoCache pc)) pc.
Definition deletePodFromCache uid pc : PodCache := set_infos (delete uid (podInfoCache pc)) pc.

(** What the files say when a cgroup is looked at. *)
Record files := MkFiles { stat_inode : string -> option Z; dirs : string -> list dir_walked; proc : string -> option process; netns_inode : Z -> option Z }.
Implicit Types (f : files).

(** [updatePodCgroupInfo] up to the wait for the first process: the inode,
    unless the path is unknown or was seen. *)
Definition cgroup_check f cgroupPath pc : PodCache * option Z :=
  match stat_inode f cgroupPath with
  | None => (pc, None)
  | Some i =>
      if i =? 0 then (pc, None) else
      let '(l, seen) := lru_Get (cgroupPath, i) (cgroupCache pc) in
      (MkPodCache (podInfoCache pc) (cgroupPathCache pc) l, if seen : bool then None else Some i)
  end.
(** The rest, which has the lock: nothing is stored unless the namespace is found. *)
Definition with_netns cgroupPath (pid : Z) (ino : Z) (old : PodCacheInfo) : PodCacheInfo :=
  MkPodInfo (pi_UID old) (pi_IP old) (pi_Name old) (pi_Namespace old) (pi_Labels old) cgroupPath pid (proc_ns pid) ino (pi_IsHostNetwork old).
Definition cgroup_commit f uid cgroupPath (inode : Z) pc : PodCache :=
  match getSandboxPID (proc f) (dirs f cgroupPath) with
  | None => pc
  | Some pid =>
      match netns_inode f pid with
      | None => pc
      | Some ino =>
          MkPodCache (<[uid := with_netns cgroupPath pid ino (default (no_info uid) (podInfoCache pc !! uid))]> (podInfoCache pc)) (cgroupPathCache pc)
            (lru_Add (cgroupPath, inode) (cgroupCache pc))
      end
  end.
Definition updatePodCgroupInfo f uid cgroupPath pc : PodCache :=
  match cgroup_check f cgroupPath pc with (pc, None) => pc | (pc, Some i) => cgroup_commit f uid cgroupPath i pc end.

(** The uid in the name of a pod's cgroup. *)
Fixpoint TrimSuffix (suffix s : string) : string :=
  if String.eqb s suffix then EmptyString else match s with String c s' => String c (TrimSuffix suffix s') | EmptyString => EmptyString end.
Definition cgroup_uid (name : string) : option string :=
  let rest := match strip "kubepods-burstable-pod" name with
              | Some s => Some s
              | None => match strip "kubepods-besteffort-pod" name with Some s => Some s | None => strip "kubepods-pod" name end
              end in
  s ← rest; let s := TrimSuffix ".slice" s in if String.eqb s EmptyString then None else Some (ReplaceAll "_" "-" s).
(** The entries of a directory: the map, and the updates that are started. *)
Definition updateCgroupPathCache (basePath : string) (entries : list string) pc : PodCache * list (string * string) :=
  let found := omap (λ name, (λ uid, (uid, (basePath ++ "/" ++ name)%string)) <$> cgroup_uid name) entries in
  (MkPodCache (podInfoCache pc) (foldl (λ m x, <[x.1 := x.2]> m) (cgroupPathCache pc) found) (cgroupCache pc), found).

(** ** The controller *)

(** [Reconcile] of a name: what the API server has under it. *)
Inductive found_pod := PodError | PodNotFound | PodFound (pod : k8s_pod).
Definition Reconcile (name : string) (x : found_pod) pc : PodCache :=
  match x with PodError => pc | PodNotFound => deletePodFromCache name pc | PodFound pod => updatePodBasicInfo pod pc end.
(** A turn of [GC] with the uids that the API server lists. *)
Definition GC (listed : gset string) pc : PodCache :=
  foldl (λ pc pod, if bool_decide (pi_UID pod ∈ listed) then pc else deletePodFromCache (pi_UID pod) pc) pc (GetAllLocalPods pc).

(** ** Properties *)

(** What is cached for a uid has that uid. *)
Definition keyed pc : Prop := ∀ uid info, podInfoCache pc !! uid = Some info -> pi_UID info = uid.

Lemma keyed_basic (pod : k8s_pod) pc : keyed pc -> keyed (updatePodBasicInfo pod pc).
Proof. intros Hk uid info. cbn. intros [[<- <-]|[_ Hi]]%lookup_insert_Some; [done|by apply Hk]. Qed.
Lemma keyed_delete uid pc : keyed pc -> keyed (deletePodFromCache uid pc).
Proof. intros Hk uid' info. cbn. intros [_ Hi]%lookup_delete_Some. by apply Hk. Qed.
Lemma keyed_commit f uid cgroupPath (i : Z) pc : keyed pc -> keyed (cgroup_commit f uid cgroupPath i pc).
Proof.
  intros Hk. unfold cgroup_commit. destruct (getSandboxPID _ _) as [pid|]; [|done]. destruct (netns_inode f pid) as [ino|]; [|done].
  intros uid' info. cbn. intros [[<- <-]|[_ Hi]]%lookup_insert_Some; [|by apply Hk]. cbn. destruct (podInfoCache pc !! uid) as [x|] eqn:E; [by apply Hk|done].
Qed.

Lemma GC_lookup (listed : gset string) pc uid : keyed pc -> podInfoCache (GC listed pc) !! uid = if bool_decide (uid ∈ listed) then podInfoCache pc !! uid else None.
Proof.
  intros Hk. assert (∀ l pc', podInfoCache (foldl (λ pc pod, if bool_decide (pi_UID pod ∈ listed) then pc else deletePodFromCache (pi_UID pod) pc) pc' l) !! uid =
    if bool_decide (uid ∉ listed ∧ uid ∈ pi_UID <$> l) then None else podInfoCache pc' !! uid) as Hfold.
  { induction l as [|x l IH]; intros pc'; cbn [foldl fmap list_fmap]; [rewrite bool_decide_eq_false_2; [done|]; by intros [_ ?%elem_of_nil]|]. rewrite IH.
    destruct (decide (uid ∉ listed ∧ uid ∈ pi_UID <$> l)) as [Hy|Hy].
    { rewrite (bool_decide_eq_true_2 _ Hy), bool_decide_eq_true_2; [done|]. rewrite elem_of_cons. naive_solver. }
    rewrite (bool_decide_eq_false_2 (uid ∉ listed ∧ uid ∈ pi_UID <$> l)) by done. destruct (decide (pi_UID x ∈ listed)) as [Hx|Hx].
    - rewrite (bool_decide_eq_true_2 (pi_UID x ∈ listed)) by done. rewrite bool_decide_eq_false_2; [done|]. rewrite elem_of_cons. naive_solver.
    - rewrite (bool_decide_eq_false_2 (pi_UID x ∈ listed)) by done. cbn. destruct (decide (uid = pi_UID x)) as [->|Hne].
      + rewrite lookup_delete_eq, bool_decide_eq_true_2; [done|]. rewrite elem_of_cons. naive_solver.
      + rewrite lookup_delete_ne by done. rewrite bool_decide_eq_false_2; [done|]. rewrite elem_of_cons. naive_solver. }
  unfold GC. rewrite Hfold. destruct (podInfoCache pc !! uid) as [info|] eqn:E; [|by repeat destruct (bool_decide _)].
  assert (uid ∈ pi_UID <$> GetAllLocalPods pc) as Hin.
  { apply list_elem_of_fmap. exists info. split; [by rewrite (Hk _ _ E)|]. unfold GetAllLocalPods. apply list_elem_of_fmap. exists (uid, info). split; [done|by apply elem_of_map_to_list]. }
  destruct (decide (uid ∈ listed)); [rewrite bool_decide_eq_false_2 by naive_solver; by rewrite bool_decide_eq_true_2|].
  rewrite bool_decide_eq_true_2 by done. by rewrite bool_decide_eq_false_2.
Qed.
Lemma keyed_GC (listed : gset string) pc : keyed pc -> keyed (GC listed pc).
Proof. intros Hk uid info. rewrite GC_lookup by done. destruct (bool_decide _); [by apply Hk|done]. Qed.

(** *** Joining what is learnt *)

(** The cgroup counts as done. *)
Definition marked cgroupPath (i : Z) pc : Prop := (lru_Get (cgroupPath, i) (cgroupCache pc)).2 = true.

(** What can happen to the pod [uid] with that cgroup as long as no collection
    removes it: [updatePodCgroupInfo] runs, or the second half of an earlier
    call of it does (two of them can overlap), the API server tells of some pod,
    or the pods are collected and the pod is listed. *)
Inductive learning := Scan f | LateCommit f (inode : Z) | Learn (pod : k8s_pod) | Kept (listed : gset string).
Definition learn uid cgroupPath (x : learning) pc : PodCache :=
  match x with
  | Scan f => updatePodCgroupInfo f uid cgroupPath pc
  | LateCommit f i => cgroup_commit f uid cgroupPath i pc
  | Learn pod => Reconcile (kp_Name pod) (PodFound pod) pc
  | Kept listed => GC listed pc
  end.
Definition keeps uid (x : learning) : Prop := match x with Kept listed => uid ∈ listed | _ => True end.

(** The pod that the API server told of last. *)
Definition last_seen uid (xs : list learning) : option k8s_pod :=
  last (omap (λ x, match x with Learn pod => if decide (kp_UID pod = uid) then Some pod else None | _ => None end) xs).
(** The process and the namespace that a look at the cgroup can find. *)
Definition sandbox f cgroupPath : option (Z * Z) :=
  pid ← getSandboxPID (proc f) (dirs f cgroupPath); ino ← netns_inode f pid; Some (pid, ino).
Definition finds cgroupPath (x : learning) : option (Z * Z) :=
  match x with
  | Scan f => i ← stat_inode f cgroupPath; if i =? 0 then None else sandbox f cgroupPath
  | LateCommit f _ => sandbox f cgroupPath
  | _ => None
  end.

Definition basic_of uid (seen : option k8s_pod) : string * string * string * string * gmap string string * bool :=
  match seen with
  | Some pod => (uid, kp_IP pod, kp_Name pod, kp_Namespace pod, kp_Labels pod, kp_HostNetwork pod)
  | None => (uid, EmptyString, EmptyString, EmptyString, ∅, false)
  end.
Definition basics (info : PodCacheInfo) : string * string * string * string * gmap string string * bool :=
  (pi_UID info, pi_IP info, pi_Name info, pi_Namespace info, pi_Labels info, pi_IsHostNetwork info).
Definition cgroup_of cgroupPath (found : option (Z * Z)) : string * Z * string * Z :=
  match found with Some (pid, ino) => (cgroupPath, pid, proc_ns pid, ino) | None => (EmptyString, 0, EmptyString, 0) end.
Definition cgroups (info : PodCacheInfo) : string * Z * string * Z :=
  (pi_CgroupPath info, pi_SandboxPID info, pi_NetNSPath info, pi_NetNSInode info).

(** The two parts of what is known of the pod: from the API server, and what
    one of the looks at its cgroup found. *)
Definition joined uid cgroupPath (xs : list learning) (o : option PodCacheInfo) : Prop :=
  ∃ found, (found = None ∧ omap (finds cgroupPath) xs = [] ∨ ∃ w, found = Some w ∧ w ∈ omap (finds cgroupPath) xs) ∧
    match o with
    | Some info => basics info = basic_of uid (last_seen uid xs) ∧ cgroups info = cgroup_of cgroupPath found ∧
        (is_Some (last_seen uid xs) ∨ is_Some found)
    | None => last_seen uid xs = None ∧ found = None
    end.

Lemma last_seen_snoc uid (xs : list learning) (x : learning) :
  last_seen uid (xs ++ [x]) =
  match x with Learn pod => if decide (kp_UID pod = uid) then Some pod else last_seen uid xs | _ => last_seen uid xs end.
Proof.
  unfold last_seen. rewrite omap_app. destruct x; cbn; rewrite ?app_nil_r; try done.
  destruct (decide _); [|by rewrite app_nil_r]. by rewrite last_snoc.
Qed.
Lemma joined_quiet uid cgroupPath (xs : list learning) (x : learning) (o : option PodCacheInfo) :
  finds cgroupPath x = None -> last_seen uid (xs ++ [x]) = last_seen uid xs -> joined uid cgroupPath xs o -> joined uid cgroupPath (xs ++ [x]) o.
Proof.
  intros Hf Hl (found & Hw & Ho). exists found. rewrite Hl, omap_app. cbn. rewrite Hf, app_nil_r. done.
Qed.
Lemma joined_learn uid cgroupPath (xs : list learning) (pod : k8s_pod) (o : option PodCacheInfo) :
  kp_UID pod = uid -> joined uid cgroupPath xs o -> joined uid cgroupPath (xs ++ [Learn pod]) (Some (with_basic pod (default (no_info uid) o))).
Proof.
  intros <- (found & Hw & Ho). exists found. rewrite last_seen_snoc, decide_True by done. rewrite omap_app. cbn. rewrite app_nil_r.
  split; [done|]. split; [done|]. split; [|by left]. destruct o as [info|]; [by destruct Ho as (_ & <- & _)|by destruct Ho as [_ ->]].
Qed.
Lemma joined_commit uid cgroupPath (xs : list learning) (x : learning) (pid ino : Z) (o : option PodCacheInfo) :
  finds cgroupPath x = Some (pid, ino) -> last_seen uid (xs ++ [x]) = last_seen uid xs -> joined uid cgroupPath xs o ->
  joined uid cgroupPath (xs ++ [x]) (Some (with_netns cgroupPath pid ino (default (no_info uid) o))).
Proof.
  intros Hf Hl (found & Hw & Ho). exists (Some (pid, ino)). rewrite Hl, omap_app. cbn. rewrite Hf. split.
  - right. exists (pid, ino). split; [done|]. apply elem_of_app. right. apply list_elem_of_here.
  - split; [|by split; [|right]]. destruct o as [info|]; [by destruct Ho as [<- _]|by destruct Ho as [-> _]].
Qed.
(** A scan that finds the cgroup done changes nothing, and has nothing to add. *)
Lemma joined_skip uid cgroupPath (xs : list learning) (x : learning) (info : PodCacheInfo) (w : Z * Z) :
  w ∈ omap (finds cgroupPath) xs -> last_seen uid (xs ++ [x]) = last_seen uid xs -> joined uid cgroupPath xs (Some info) ->
  joined uid cgroupPath (xs ++ [x]) (Some info).
Proof.
  intros Hin Hl (found & Hw & Ho). exists found. rewrite Hl. split; [|done]. rewrite omap_app.
  destruct Hw as [[_ E]|(w' & -> & Hw')]; [by rewrite E in Hin; apply elem_of_nil in Hin|].
  right. exists w'. split; [done|]. apply elem_of_app. by left.
Qed.

Lemma commit_eq f uid cgroupPath (i : Z) pc :
  cgroup_commit f uid cgroupPath i pc =
  match sandbox f cgroupPath with
  | Some (pid, ino) => MkPodCache (<[uid := with_netns cgroupPath pid ino (default (no_info uid) (podInfoCache pc !! uid))]> (podInfoCache pc))
      (cgroupPathCache pc) (lru_Add (cgroupPath, i) (cgroupCache pc))
  | None => pc
  end.
Proof. unfold cgroup_commit, sandbox. destruct (getSandboxPID _ _) as [pid|]; [|done]. cbn. by destruct (netns_inode f pid). Qed.

(** The state after a history: what is known of the pod, and that its cgroup
    counts as done only after something was found in it. *)
Record learnt uid cgroupPath (xs : list learning) pc : Prop := Learnt {
  lt_keyed : keyed pc;
  lt_joined : joined uid cgroupPath xs (podInfoCache pc !! uid);
  lt_marked : ∀ i, marked cgroupPath i pc -> is_Some (podInfoCache pc !! uid) ∧ ∃ w, w ∈ omap (finds cgroupPath) xs;
}.

Lemma learnt_quiet uid cgroupPath (xs : list learning) (x : learning) pc pc' :
  finds cgroupPath x = None -> last_seen uid (xs ++ [x]) = last_seen uid xs -> keyed pc' ->
  podInfoCache pc' !! uid = podInfoCache pc !! uid -> (∀ i, marked cgroupPath i pc' -> marked cgroupPath i pc) ->
  learnt uid cgroupPath xs pc -> learnt uid cgroupPath (xs ++ [x]) pc'.
Proof.
  intros Hf Hl Hk E Hm [_ Hj H3]. split; [done|rewrite E; by apply joined_quiet|]. intros i Hi. rewrite E.
  destruct (H3 i (Hm i Hi)) as (? & w & Hw). split; [done|]. exists w. rewrite omap_app. apply elem_of_app. by left.
Qed.
Lemma learnt_commit uid cgroupPath (xs : list learning) (x : learning) f (i : Z) pc :
  finds cgroupPath x = sandbox f cgroupPath -> last_seen uid (xs ++ [x]) = last_seen uid xs ->
  learnt uid cgroupPath xs pc -> learnt uid cgroupPath (xs ++ [x]) (cgroup_commit f uid cgroupPath i pc).
Proof.
  intros Hf Hl H1. pose proof (keyed_commit f uid cgroupPath i pc (lt_keyed _ _ _ _ H1)) as Hk. rewrite commit_eq in *.
  destruct (sandbox f cgroupPath) as [[pid ino]|]; [|by eapply learnt_quiet].
  destruct H1 as [_ Hj H3]. split; [done| |].
  - cbn. rewrite lookup_insert_eq. by apply joined_commit.
  - intros i' _. cbn. rewrite lookup_insert_eq. split; [done|]. exists (pid, ino). rewrite omap_app. cbn. rewrite Hf.
    apply elem_of_app. right. apply list_elem_of_here.
Qed.
Lemma learnt_scan uid cgroupPath (xs : list learning) f pc :
  learnt uid cgroupPath xs pc -> learnt uid cgroupPath (xs ++ [Scan f]) (updatePodCgroupInfo f uid cgroupPath pc).
Proof.
  intros H1. unfold updatePodCgroupInfo, cgroup_check.
  assert (last_seen uid (xs ++ [Scan f]) = last_seen uid xs) as Hl by apply last_seen_snoc.
  destruct (stat_inode f cgroupPath) as [i|] eqn:Ei; [|apply (learnt_quiet _ _ _ _ pc); [by cbn; rewrite Ei|done|apply H1|done..]].
  destruct (Z.eqb_spec i 0) as [->|H0]; [apply (learnt_quiet _ _ _ _ pc); [by cbn; rewrite Ei|done|apply H1|done..]|].
  pose proof (λ i', lru_get_only (cgroupPath, i') (cgroupPath, i) (cgroupCache pc)) as Honly.
  destruct (lru_Get (cgroupPath, i) (cgroupCache pc)) as [l seen] eqn:Eg. cbn [fst] in Honly.
  set (pc1 := MkPodCache (podInfoCache pc) (cgroupPathCache pc) l).
  destruct H1 as [Hk Hj H3]. destruct seen.
  - destruct (H3 i) as ([info Einfo] & w & Hw); [unfold marked; by rewrite Eg|]. split; [exact Hk| |].
    + cbn. rewrite Einfo in *. by eapply joined_skip.
    + intros i' Hi'. split; [cbn; by rewrite Einfo|]. exists w. rewrite omap_app. apply elem_of_app. by left.
  - apply learnt_commit; [cbn; rewrite Ei; cbn; by rewrite (proj2 (Z.eqb_neq _ _))|done|]. split; [exact Hk|exact Hj|].
    intros i' Hi'. apply (H3 i'). by apply Honly.
Qed.
Lemma GC_cgroups (listed : gset string) pc : cgroupCache (GC listed pc) = cgroupCache pc.
Proof.
  unfold GC. generalize (GetAllLocalPods pc). intros l. revert pc. induction l as [|x l IH]; intros pc; [done|]. cbn [foldl]. rewrite IH.
  by destruct (bool_decide _).
Qed.
Lemma learnt_step uid cgroupPath (xs : list learning) (x : learning) pc :
  keeps uid x -> learnt uid cgroupPath xs pc -> learnt uid cgroupPath (xs ++ [x]) (learn uid cgroupPath x pc).
Proof.
  intros Hx H1. destruct x as [f|f i|pod|listed]; cbn [learn Reconcile].
  - by apply learnt_scan.
  - apply learnt_commit; [done|apply last_seen_snoc|done].
  - destruct (decide (kp_UID pod = uid)) as [E|Hne].
    + destruct H1 as [Hk Hj H3]. split; [by apply keyed_basic| |].
      * cbn. rewrite E, lookup_insert_eq. by apply joined_learn.
      * intros i Hi. cbn. rewrite E, lookup_insert_eq. split; [done|]. destruct (H3 i Hi) as (_ & w & Hw). exists w.
        rewrite omap_app. apply elem_of_app. by left.
    + apply (learnt_quiet _ _ _ _ pc); [done|by rewrite last_seen_snoc, decide_False|by apply keyed_basic, H1| |done|done].
      cbn. by rewrite lookup_insert_ne.
  - apply (learnt_quiet _ _ _ _ pc); [done|apply last_seen_snoc|by apply keyed_GC, H1| | |done].
    + rewrite GC_lookup by apply H1. by rewrite bool_decide_eq_true_2.
    + intros i. unfold marked. by rewrite GC_cgroups.
Qed.

(** C34: what is known of a pod does not depend on what is learnt first.  Let
    the cgroup of a pod be looked at any number of times, the API server tell of
    pods, and pods be collected, in any order, from the start, where every
    collection lists the pod.  Then the pod is cached exactly if the API server
    told of it or a look found its sandbox process and namespace; it has the
    name, address and labels that the API server told of last (none if it did
    not); and it has a process and namespace that one of the looks found, also
    if later looks were cut short because the cgroup counts as done, and none
    exactly if no look found any. *)
Theorem pod_joined uid cgroupPath (xs : list learning) (Hxs : Forall (keeps uid) xs) :
  joined uid cgroupPath xs (podInfoCache (foldl (λ pc x, learn uid cgroupPath x pc) NewPodCache xs) !! uid).
Proof.
  enough (learnt uid cgroupPath xs (foldl (λ pc x, learn uid cgroupPath x pc) NewPodCache xs)) as [_ Hj _]; [done|].
  induction xs as [|x xs IH] using rev_ind.
  - split; cbn; [intros ? ?; cbn; by rewrite lookup_empty| |].
    + exists None. split; [by left|]. rewrite lookup_empty. done.
    + intros i. unfold marked. cbn. by rewrite lru_get_new.
  - apply Forall_app in Hxs as [Hxs [Hx _]%Forall_cons]. rewrite foldl_app. cbn [foldl]. apply learnt_step; [done|by apply IH].
Qed.

(** How a pod leaves the cache.  The event that says that it is gone
    changes nothing, for it is handled by the pod's name and the cache is by
    uids; the next collection keeps exactly the pods that the API server
    lists. *)
Theorem pods_removed (name : string) (listed : gset string) pc (Hk : keyed pc) (Hname : podInfoCache pc !! name = None) :
  Reconcile name PodNotFound pc = pc ∧
  ∀ uid, podInfoCache (GC listed pc) !! uid = if bool_decide (uid ∈ listed) then podInfoCache pc !! uid else None.
Proof.
  split; [|by intros uid; apply GC_lookup]. destruct pc as [m p l]. unfold Reconcile, deletePodFromCache, set_infos. cbn in *. by rewrite delete_id.
Qed.

(** What can happen to the pod with that cgroup later: its directory is looked
    at again, the API server tells of it, or the pods are collected and it is
    among them. *)
Inductive event := Rescan f | Seen (pod : k8s_pod) | Collect (listed : gset string).
Definition happens uid cgroupPath (e : event) pc : PodCache :=
  match e with Rescan f => updatePodCgroupInfo f uid cgroupPath pc | Seen pod => Reconcile (kp_Name pod) (PodFound pod) pc | Collect listed => GC listed pc end.
Definition about uid cgroupPath (i : Z) (e : event) : Prop :=
  match e with Rescan f => stat_inode f cgroupPath = Some i | Seen pod => kp_UID pod = uid | Collect listed => uid ∈ listed end.

Lemma marked_skips f uid cgroupPath (i : Z) pc : stat_inode f cgroupPath = Some i -> marked cgroupPath i pc ->
  podInfoCache (updatePodCgroupInfo f uid cgroupPath pc) = podInfoCache pc ∧ marked cgroupPath i (updatePodCgroupInfo f uid cgroupPath pc).
Proof.
  intros Hi Hm. unfold updatePodCgroupInfo, cgroup_check. rewrite Hi. destruct (i =? 0); [done|]. unfold marked in *. pose proof (lru_get_get (cgroupPath, i) (cgroupCache pc) Hm) as Hg.
  destruct (lru_Get (cgroupPath, i) (cgroupCache pc)) as [l seen]. cbn in Hm, Hg. by subst seen.
Qed.
Lemma update_marks f uid cgroupPath (i pid ino : Z) pc : stat_inode f cgroupPath = Some i -> i ≠ 0 ->
  getSandboxPID (proc f) (dirs f cgroupPath) = Some pid -> netns_inode f pid = Some ino -> marked cgroupPath i (updatePodCgroupInfo f uid cgroupPath pc).
Proof.
  intros Hi H0 Hpid Hino. unfold updatePodCgroupInfo, cgroup_check. rewrite Hi. destruct (Z.eqb_spec i 0); [done|].
  pose proof (lru_get_get (cgroupPath, i) (cgroupCache pc)) as Hg. destruct (lru_Get (cgroupPath, i) (cgroupCache pc)) as [l []]; cbn in Hg; [by apply Hg|].
  unfold cgroup_commit. rewrite Hpid, Hino. apply lru_get_add.
Qed.
Lemma keyed_update f uid cgroupPath pc : keyed pc -> keyed (updatePodCgroupInfo f uid cgroupPath pc).
Proof.
  intros Hk. unfold updatePodCgroupInfo, cgroup_check. destruct (stat_inode f cgroupPath) as [i|]; [|done]. destruct (i =? 0); [done|].
  destruct (lru_Get _ _) as [l []]; [exact Hk|]. apply keyed_commit. exact Hk.
Qed.
Lemma GC_marked (listed : gset string) cgroupPath (i : Z) pc : marked cgroupPath i pc -> marked cgroupPath i (GC listed pc).
Proof.
  intros Hm. unfold GC. generalize (GetAllLocalPods pc). intros l. revert pc Hm. induction l as [|x l IH]; intros pc Hm; [done|]. cbn [foldl]. apply IH.
  by destruct (bool_decide _).
Qed.

(** A pod whose namespace is never found.  Its cgroup is seen before the
    API server lists it, and a collection in between drops what was learnt.
    From then on nothing that happens to the pod gives it a process or a
    namespace again, for the cgroup counts as done. *)
Theorem netns_lost f uid cgroupPath (i pid ino : Z) (listed : gset string) pc (es : list event)
    (Hk : keyed pc) (Hi : stat_inode f cgroupPath = Some i) (H0 : i ≠ 0) (Hpid : getSandboxPID (proc f) (dirs f cgroupPath) = Some pid)
    (Hino : netns_inode f pid = Some ino) (Hl : uid ∉ listed) (He : Forall (about uid cgroupPath i) es) (info : PodCacheInfo) :
  podInfoCache (foldl (λ pc e, happens uid cgroupPath e pc) (GC listed (updatePodCgroupInfo f uid cgroupPath pc)) es) !! uid = Some info ->
  pi_SandboxPID info = 0 ∧ pi_NetNSInode info = 0.
Proof.
  set (pc1 := GC listed (updatePodCgroupInfo f uid cgroupPath pc)).
  assert (keyed pc1) as Hk1 by (by apply keyed_GC, keyed_update). assert (marked cgroupPath i pc1) as Hm1 by (by eapply GC_marked, update_marks).
  assert (∀ info, podInfoCache pc1 !! uid = Some info -> pi_SandboxPID info = 0 ∧ pi_NetNSInode info = 0) as H1.
  { intros x. unfold pc1. rewrite GC_lookup by (by apply keyed_update). by rewrite bool_decide_eq_false_2. }
  clearbody pc1. clear Hk Hi Hpid Hino Hl. revert info. revert pc1 Hk1 Hm1 H1.
  induction He as [|e es He Hes IH]; intros pc1 Hk1 Hm1 H1 info; [by apply H1|]. cbn [foldl]. apply IH; clear IH.
  - destruct e; cbn; [by apply keyed_update|by apply keyed_basic|by apply keyed_GC].
  - destruct e as [f'|pod|l]; cbn in *; [by apply marked_skips|done|by apply GC_marked].
  - intros x. destruct e as [f'|pod|l]; cbn [happens about Reconcile] in *.
    + rewrite (proj1 (marked_skips f' uid cgroupPath i pc1 He Hm1)). apply H1.
    + cbn. rewrite He, lookup_insert_eq. intros [= <-]. cbn. destruct (podInfoCache pc1 !! uid) as [y|] eqn:Ey; [by apply H1|done].
    + rewrite GC_lookup by done. rewrite bool_decide_eq_true_2 by done. apply H1.
Qed.
End pods.

(** ** An example *)

Definition ex_files : files := MkFiles (λ _, Some 77) (λ _, [Dir (Some "42"%string)]) (λ _, Some (5, Some "/pause"%string)) (λ pid, Some (4026532000 + pid)).
Definition ex_pod : k8s_pod := MkK8sPod "u1" "10.0.0.2" "web" "default" ∅ false.
Definition ex_path : string := "/sys/fs/cgroup/kubepods-podu1.slice".
Abbreviation pods := (PodCache (L := list (string * Z))).

(** The cgroup is looked at before the API server tells of the pod, and again. *)
Lemma pod_joined_witness :
  let xs := [Scan ex_files; Learn ex_pod; Kept {["u1"%string]}; Scan ex_files] in
  joined "u1" ex_path xs (podInfoCache (foldl (λ pc x, learn "u1" ex_path x pc) (NewPodCache : pods) xs) !! "u1"%string) ∧
  podInfoCache (foldl (λ pc x, learn "u1" ex_path x pc) (NewPodCache : pods) xs) !! "u1"%string =
    Some (MkPodInfo "u1" "10.0.0.2" "web" "default" ∅ ex_path 42 "/proc/42/ns/net" 4026532042 false).
Proof.
  intros xs. split; [|vm_compute; reflexivity]. apply (pod_joined (L := list (string * Z)) "u1" ex_path xs).
  repeat (apply Forall_cons; split; [try done; by apply elem_of_singleton|]). by apply Forall_nil_2.
Defined.
Lemma pods_removed_witness :
  podInfoCache (Reconcile "web" PodNotFound (updatePodBasicInfo ex_pod (NewPodCache : pods))) !! "u1"%string = Some (with_basic ex_pod (no_info "u1")).
Proof.
  assert (keyed (updatePodBasicInfo ex_pod (NewPodCache : pods))) as Hk by (apply keyed_basic; intros uid info; cbn; by rewrite lookup_empty).
  rewrite (proj1 (pods_removed "web" ∅ (updatePodBasicInfo ex_pod (NewPodCache : pods)) Hk eq_refl)). vm_compute. reflexivity.
Defined.
Lemma netns_lost_witness :
  ∃ info, podInfoCache (foldl (λ pc e, happens "u1" ex_path e pc) (GC ∅ (updatePodCgroupInfo ex_files "u1" ex_path (NewPodCache : pods)))
    [Seen ex_pod; Rescan ex_files; Collect {["u1"%string]}]) !! "u1"%string = Some info ∧ pi_Name info = "web"%string ∧ pi_NetNSInode info = 0.
Proof.
  eexists. split; [vm_compute; reflexivity|]. split; [reflexivity|].
  refine (proj2 (netns_lost ex_files "u1" ex_path 77 42 4026532042 ∅ (NewPodCache : pods) [Seen ex_pod; Rescan ex_files; Collect {["u1"%string]}] _ _ _ _ _ _ _ _ _));
    [intros uid info; cbn; by rewrite lookup_empty|reflexivity|lia|vm_compute; reflexivity|reflexivity|apply not_elem_of_empty| |vm_compute; reflexivity].
  repeat constructor.
Defined.
End NettopPods.
