(* ===== verification/AgentProc.v ===== *)
(** The agent's collectors that read /proc: src/pkg/exporter/probe/procsnmp,
    procnetstat, procsoftnet, procsock, proctcpsummary, procnetdev, procipvs
    and procfd.

    A file is its content, or nothing where opening it fails; what a collector
    asks nettop for is computed from nettop's table.  The theorems: what the
    kernel prints is what is read, and what is read for a process is what is
    exported for its namespace. *)

From Stdlib Require Import Ascii.
From S2P Require Import Prelude GoStrings GoResult NettopCache.
Import NettopCache.

Module AgentProc.

(** ** Text *)

(** [bufio.Scanner] by lines, on a text whose lines are shorter than its
    buffer of 64 KiB. *)
Definition carriage_return : ascii := "013".
Fixpoint drop_cr (s : string) : string :=
  match s with
  | EmptyString => EmptyString
  | String c EmptyString => if Ascii.eqb c carriage_return then EmptyString else s
  | String c s' => String c (drop_cr s')
  end.
Fixpoint drop_empty_end (ls : list string) : list string :=
  match ls with
  | [] => []
  | [l] => if String.eqb l EmptyString then [] else [l]
  | l :: ls' => l :: drop_empty_end ls'
  end.
Definition scan_lines (text : string) : list string := drop_cr <$> drop_empty_end (Split newline text).

(** The text without its last character, which there must be. *)
Fixpoint but_last (s : string) : option string :=
  match s with
  | EmptyString => None
  | String _ EmptyString => Some EmptyString
  | String c s' => String c <$> but_last s'
  end.
Definition HasPrefix (prefix s : string) : bool := match strip prefix s with Some _ => true | None => false end.

(** ** The processes that collectors read *)

Section collectors.
Context {C : Type} `{GoCache C}.
Implicit Types (s : nettop (C := C)).

Fixpoint each {A B E : Type} (f : A -> result E B) (l : list A) : result E (list B) :=
  match l with [] => Ok [] | a :: l' => b ← f a; bs ← each f l'; Ok (b :: bs) end.
(** The first process of each entity, and its namespace. *)
Definition target (h : list Entity) (p : nat) : result Empty_set (Z * Z) := e ← deref (h !! p); n ← GetNetns e; Ok (e_initPid e, n).
Definition unique_targets s : result Empty_set (list (Z * Z)) := ps ← GetAllUniqueNetnsEntity s; each (target (heap s)) ps.
End collectors.

(** Numbers by metric and namespace. *)
Abbreviation metrics := (gmap string (gmap Z Z)).
Definition empty_metrics (names : list string) : metrics := list_to_map ((λ n, (n, ∅)) <$> names).
Definition put_value (name : string) (ns v : Z) (m : metrics) : metrics :=
  match m !! name with Some x => <[name := <[ns := v]> x]> m | None => m end.
Definition value_of (m : metrics) (name : string) (ns : Z) : option Z := x ← m !! name; x !! ns.
(** [m[name][ns] += v] *)
Definition add_value (name : string) (ns v : Z) (m : metrics) : metrics := put_value name ns (u64 (default 0 (value_of m name ns) + v)) m.

(** ** procsnmp, procnetstat *)

Abbreviation stats := (gmap string (gmap string string)).
Inductive proc_err := NoFile | FieldCount | BadLine | BadNumber.

(** A line of names with the line of values after it. *)
Definition put_field (m : gmap string string) (kv : string * string) : gmap string string := <[ToLower kv.1 := kv.2]> m.
Definition parse_pair (names values : string) (m : stats) : result proc_err stats :=
  let nameParts := Split " " names in let valueParts := Split " " values in
  protocol ← deref (head nameParts ≫= but_last);
  if bool_decide (length nameParts ≠ length valueParts) then Err FieldCount
  else Ok (<[ToLower protocol := foldl put_field ∅ (zip (tail nameParts) (tail valueParts))]> m).
Fixpoint parseNetStats (ls : list string) (m : stats) : result proc_err stats :=
  match ls with
  | [] => Ok m
  | [names] => parse_pair names EmptyString m
  | names :: values :: ls' => m ← parse_pair names values m; parseNetStats ls' m
  end.
Definition getNetStats (file : option string) : result proc_err stats :=
  match file with None => Err NoFile | Some text => parseNetStats (scan_lines text) ∅ end.

Definition TCPStatMetrics : list string :=
  ["activeopens"; "passiveopens"; "retranssegs"; "attemptfails"; "estabresets"; "currestab"; "insegs"; "outsegs"; "inerrs"; "outrsts"]%string.
Definition UDPStatMetrics : list string :=
  ["indatagrams"; "noports"; "inerrors"; "outdatagrams"; "rcvbuferrors"; "sndbuferrors"; "incsumerrors"; "ignoredmulti"]%string.
Definition IPMetrics : list string :=
  ["forwarding"; "defaultttl"; "inreceives"; "inhdrerrors"; "inaddrerrors"; "forwdatagrams"; "inunknownprotos"; "indiscards"; "indelivers"; "outrequests";
   "outdiscards"; "outnoroutes"; "reasmtimeout"; "reasmreqds"; "reasmoks"; "reasmfails"; "fragoks"; "fragfails"; "fragcreates"]%string.
Definition metricsMap : list (string * list string) := [("tcp", TCPStatMetrics); ("udp", UDPStatMetrics); ("ip", IPMetrics)]%string.

Abbreviation snmp := (gmap string metrics).
Definition empty_snmp : snmp := list_to_map ((λ x, (x.1, empty_metrics x.2)) <$> metricsMap).
(** One value of one protocol; what is not a metric or not a number is
    skipped. *)
Definition snmp_value (proto : string) (ns : Z) (k v : string) (res : snmp) : snmp :=
  match ParseInt v 10 64 with
  | Num data => match res !! proto with Some m => <[proto := put_value k (u32 ns) (u64 data) m]> res | None => res end
  | _ => res
  end.
Definition snmp_entity (st : stats) (ns : Z) (res : snmp) : snmp :=
  map_fold (λ proto stat res, map_fold (snmp_value proto ns) res stat) res st.
Fixpoint snmp_collect (file : Z -> option string) (ents : list (Z * Z)) (res : snmp) : result Empty_set snmp :=
  match ents with
  | [] => Ok res
  | (pid, ns) :: ents' =>
      match getNetStats (file pid) with
      | Ok st => snmp_collect file ents' (snmp_entity st ns res)
      | Err _ => snmp_collect file ents' res
      | Panic => Panic
      end
  end.

(** The cache in front of [collect], which lasts two seconds.  [collect] returns
    no error, so that the one in the cache is never set. *)
Record snmpCache := MkSnmpCache { sc_cache : snmp; sc_last : option Z }.
Definition snmp_get (now : Z) (collect : result Empty_set snmp) (name : string) (c : snmpCache) : result Empty_set (snmpCache * option metrics) :=
  c ← (if match sc_last c with Some last => now - last >? 2 * second | None => true end then m ← collect; Ok (MkSnmpCache m (Some now)) else Ok c);
  Ok (c, sc_cache c !! name).

(** [procnetstat]: one protocol, numbers without a sign, and a sum. *)
Definition TCPExtMetrics : list string :=
  ["listendrops"; "listenoverflows"; "tcpsynretrans"; "tcpfastretrans"; "tcpretransfail"; "tcptimeouts"; "tcpabortonclose"; "tcpabortonmemory"; "tcpabortontimeout";
   "tcpabortonlinger"; "tcpabortondata"; "tcpabortfailed"; "tcpackskippedsynrecv"; "tcpackskippedpaws"; "tcpackskippedseq"; "tcpackskippedfinwait2";
   "tcpackskippedtimewait"; "tcpackskippedchallenge"; "tcprcvqdrop"; "tcpmemorypressures"; "tcpmemorypressureschrono"; "pawsactive"; "pawsestab"; "embryonicrsts";
   "tcpwinprobe"; "tcpkeepalive"; "tcpmtupfail"; "tcpmtupsuccess"; "tcpzerowindowdrop"; "tcpbacklogdrop"; "pfmemallocdrop"; "tcpwqueuetoobig"]%string.
Definition netstat_value (extstats : gmap string string) (ns : Z) (res : metrics) (name : string) : metrics :=
  match extstats !! name with
  | Some v => match ParseUint v 10 64 with Num data => add_value name (u32 ns) data res | _ => res end
  | None => res
  end.
Fixpoint netstat_collect (file : Z -> option string) (ents : list (Z * Z)) (res : metrics) : result Empty_set metrics :=
  match ents with
  | [] => Ok res
  | (pid, ns) :: ents' =>
      match getNetStats (file (u32 pid)) with
      | Ok st => netstat_collect file ents' (foldl (netstat_value (default ∅ (st !! "tcpext"%string)) ns) res TCPExtMetrics)
      | Err _ => netstat_collect file ents' res
      | Panic => Panic
      end
  end.

(** ** procsoftnet *)

Record SoftnetStat := MkSoftnetStat { Processed : Z; Dropped : Z; TimeSqueezed : Z }.
Definition softnetMetrics : list string := ["processed"; "dropped"]%string.
Definition parse_softnet_line (line : string) : option SoftnetStat :=
  let columns := Fields line in
  if (length columns <? 9)%nat then None
  else match columns with
  | a :: b :: c :: _ => a ← ok (ParseUint a 16 32); b ← ok (ParseUint b 16 32); c ← ok (ParseUint c 16 32); Some (MkSoftnetStat a b c)
  | _ => None
  end.
Definition parseSoftnet (text : string) : option (list SoftnetStat) := mapM parse_softnet_line (scan_lines text).
(** The sums over the processors; of no line at all the map is empty. *)
Definition getSoftnetStat (sns : list SoftnetStat) : gmap string Z :=
  foldl (λ m ns, <["dropped"%string := u64 (default 0 (m !! "dropped"%string) + Dropped ns)]> (<["processed"%string := u64 (default 0 (m !! "processed"%string) + Processed ns)]> m)) ∅ sns.
Definition softnet_collect (file : Z -> option string) (ents : list (Z * Z)) : metrics :=
  foldl (λ res e, match file (u32 e.1) ≫= parseSoftnet with
    | Some sns => foldl (λ res name, put_value name (u32 e.2) (default 0 (getSoftnetStat sns !! name)) res) res softnetMetrics
    | None => res
    end) (empty_metrics softnetMetrics) ents.

(** ** procsock *)

Record NetSockstatProtocol := MkSockProto { sp_Protocol : string; sp_InUse : Z; sp_Orphan : option Z; sp_TW : option Z; sp_Alloc : option Z; sp_Mem : option Z }.
Fixpoint parseSockstatKVs (kvs : list string) (out : gmap string Z) : option (gmap string Z) :=
  match kvs with
  | [] => Some out
  | [_] => None
  | k :: v :: kvs' => v ← ok (ParseInt v 0 64); parseSockstatKVs kvs' (<[k := v]> out)
  end.
Definition TrimSuffix_colon (s : string) : string := match but_last s with Some s' => if String.eqb (s' ++ ":") s then s' else s | None => s end.
Definition parseSockstatProtocol (proto : string) (kvs : gmap string Z) : NetSockstatProtocol :=
  MkSockProto proto (default 0 (kvs !! "inuse"%string)) (kvs !! "orphan"%string) (kvs !! "tw"%string) (kvs !! "alloc"%string) (kvs !! "mem"%string).
(** A line gives a protocol, or, for "sockets", none. *)
Definition parse_sockstat_line (line : string) : option (option NetSockstatProtocol) :=
  match Split " " line with
  | proto :: k :: v :: rest =>
      kvs ← (if Nat.even (length (k :: v :: rest)) then parseSockstatKVs (k :: v :: rest) ∅ else None);
      let proto := TrimSuffix_colon proto in
      Some (if String.eqb proto "sockets" then None else Some (parseSockstatProtocol proto kvs))
  | _ => None
  end.
Definition parseSockstat (text : string) : option (list NetSockstatProtocol) := ls ← mapM parse_sockstat_line (scan_lines text); Some (omap id ls).

Record tcpsockstat := MkTcpSock { ts_InUse : Z; ts_Orphan : Z; ts_TW : Z; ts_Alloc : Z; ts_Mem : Z }.
Fixpoint tcp_sockstat (ps : list NetSockstatProtocol) (res : tcpsockstat) : result proc_err tcpsockstat :=
  match ps with
  | [] => Ok res
  | p :: ps' =>
      if String.eqb (sp_Protocol p) "TCP" then
        orphan ← deref (sp_Orphan p); alloc ← deref (sp_Alloc p); tw ← deref (sp_TW p); mem ← deref (sp_Mem p);
        tcp_sockstat ps' (MkTcpSock (sp_InUse p) orphan tw alloc mem)
      else tcp_sockstat ps' res
  end.
Definition add_inuse (res : tcpsockstat) (n : Z) : tcpsockstat := MkTcpSock (sext 64 (u64 (ts_InUse res + n))) (ts_Orphan res) (ts_TW res) (ts_Alloc res) (ts_Mem res).
Definition getHostTCPSockstat (sockstat sockstat6 : option string) : result proc_err tcpsockstat :=
  match sockstat with
  | None => Err NoFile
  | Some text =>
      match parseSockstat text with
      | None => Err BadLine
      | Some ps =>
          res ← tcp_sockstat ps (MkTcpSock 0 0 0 0 0);
          Ok match sockstat6 ≫= parseSockstat with
             | Some ps6 => foldl (λ res p, if String.eqb (sp_Protocol p) "TCP6" then add_inuse res (sp_InUse p) else res) res ps6
             | None => res
             end
      end
  end.
Definition TCPSockStatMetrics : list string := ["inuse"; "orphan"; "tw"; "alloc"; "mem"]%string.
Definition sock_collect (sockstat sockstat6 : option string) : result proc_err metrics :=
  sk ← getHostTCPSockstat sockstat sockstat6;
  Ok (put_value "mem" 0 (u64 (ts_Mem sk)) (put_value "alloc" 0 (u64 (ts_Alloc sk)) (put_value "tw" 0 (u64 (ts_TW sk))
       (put_value "orphan" 0 (u64 (ts_Orphan sk)) (put_value "inuse" 0 (u64 (ts_InUse sk)) (empty_metrics TCPSockStatMetrics)))))).

(** ** procnetdev *)

(** Of [procfs.NetDevLine], which reads the file, what is used. *)
Record NetDevLine := MkNetDev { RxBytes : Z; RxPackets : Z; RxErrors : Z; RxDropped : Z; TxBytes : Z; TxPackets : Z; TxErrors : Z; TxDropped : Z }.
Definition netdevFields : list (string * (NetDevLine -> Z)) :=
  [("rxbytes", RxBytes); ("rxerrors", RxErrors); ("txbytes", TxBytes); ("txerrors", TxErrors); ("rxpackets", RxPackets); ("txpackets", TxPackets);
   ("rxdropped", RxDropped); ("txdropped", TxDropped)]%string.
Definition getAllNetdev (NetDev : Z -> option (gmap string NetDevLine)) (ents : list (Z * Z)) : gmap Z (gmap string NetDevLine) :=
  foldl (λ m e, match NetDev (u32 e.1) with Some netdev => <[u32 e.2 := netdev]> m | None => m end) ∅ ents.
Definition netdev_line (nsid : Z) (devname : string) (devstat : NetDevLine) (res : metrics) : metrics :=
  if String.eqb devname "lo" then res else foldl (λ res f, add_value f.1 nsid (f.2 devstat) res) res netdevFields.
Definition netdev_collect (NetDev : Z -> option (gmap string NetDevLine)) (ents : list (Z * Z)) : metrics :=
  map_fold (λ nsid netdev res, map_fold (netdev_line nsid) res netdev) (empty_metrics netdevFields.*1) (getAllNetdev NetDev ents).

(** ** procipvs *)

Record IPVSStats := MkIPVSStats { iv_Connections : Z; iv_IncomingPackets : Z; iv_OutgoingPackets : Z; iv_IncomingBytes : Z; iv_OutgoingBytes : Z }.
Definition parseIPVSStats (text : string) : option IPVSStats :=
  match Split newline text with
  | _ :: _ :: line :: _ :: _ =>
      match Fields line with
      | [a; b; c; d; e] =>
          a ← ok (ParseUint a 16 64); b ← ok (ParseUint b 16 64); c ← ok (ParseUint c 16 64); d ← ok (ParseUint d 16 64); e ← ok (ParseUint e 16 64);
          Some (MkIPVSStats a b c d e)
      | _ => None
      end
  | _ => None
  end.
Definition ipvs_collect (file : option string) : option metrics :=
  text ← file; st ← parseIPVSStats text;
  Some (list_to_map [("connections", {[0 := iv_Connections st]}); ("incomingpackets", {[0 := iv_IncomingBytes st]}); ("incomingbytes", {[0 := iv_IncomingBytes st]});
    ("outgoingpackets", {[0 := iv_OutgoingPackets st]}); ("outgoingbytes", {[0 := iv_OutgoingBytes st]})]%string).

(** ** procfd *)

(** A directory of descriptors: the targets of its links, or nothing where
    reading one fails for another reason than that it has gone.  Equal targets
    are counted once. *)
Definition getProcessFdStat (dir : option (list (option string))) : option (gset string) :=
  links ← dir; Some (list_to_set (default EmptyString <$> links)).
Fixpoint count_fds (dir : Z -> option (list (option string))) (pids : list Z) (fds socks : Z) : option (Z * Z) :=
  match pids with
  | [] => Some (fds, socks)
  | pid :: pids' =>
      procfds ← getProcessFdStat (dir pid);
      let l := elements procfds in
      count_fds dir pids' (fds + Z.of_nat (length l)) (socks + Z.of_nat (length (List.filter (HasPrefix "socket:") l)))
  end.
(** What is emitted for one entity. *)
Definition fd_collect (dir : Z -> option (list (option string))) (pids : list Z) : list (string * Z) :=
  match count_fds dir pids 0 0 with Some (fds, socks) => [("openfd", fds); ("opensocket", socks)]%string | None => [] end ++ [("openfd"%string, 0)].

(** ** proctcpsummary *)

Record netIPSocketLine := MkSocketLine {
  Sl : Z; LocalAddr : list Z; LocalPort : Z; RemAddr : list Z; RemPort : Z; St : Z; TxQueue : Z; RxQueue : Z; UID : Z; Inode : Z;
}.
(** [hex.DecodeString] *)
Fixpoint DecodeString (s : string) : option (list Z) :=
  match s with
  | EmptyString => Some []
  | String a (String b s') => a ← digit a; b ← digit b; if (a <? 16) && (b <? 16) then bs ← DecodeString s'; Some (16 * a + b :: bs) else None
  | _ => None
  end.
(** Each word of four bytes is reversed. *)
Definition parseIP (hexIP : string) : option (list Z) :=
  match DecodeString hexIP with
  | Some [a; b; c; d] => Some [d; c; b; a]
  | Some [a0; a1; a2; a3; b0; b1; b2; b3; c0; c1; c2; c3; d0; d1; d2; d3] => Some [a3; a2; a1; a0; b3; b2; b1; b0; c3; c2; c1; c0; d3; d2; d1; d0]
  | _ => None
  end.
Definition two (s : string) : option (string * string) := match Split ":" s with [a; b] => Some (a, b) | _ => None end.
Definition parse_addr (s : string) : option (list Z * Z) := '(a, p) ← two s; a ← parseIP a; p ← ok (ParseUint p 16 64); Some (a, p).
Definition parseNetIPSocketLine (fields : list string) : option netIPSocketLine :=
  match fields with
  | f0 :: f1 :: f2 :: f3 :: f4 :: _ :: _ :: f7 :: _ :: f9 :: _ =>
      '(sl, _) ← two f0; sl ← ok (ParseUint sl 0 64);
      '(la, lp) ← parse_addr f1; '(ra, rp) ← parse_addr f2;
      st ← ok (ParseUint f3 16 64);
      '(tx, rx) ← two f4; tx ← ok (ParseUint tx 16 64); rx ← ok (ParseUint rx 16 64);
      uid ← ok (ParseUint f7 0 64); inode ← ok (ParseUint f9 0 64);
      Some (MkSocketLine sl la lp ra rp st tx rx uid inode)
  | _ => None
  end.
Definition newNetTCP (file : option string) : option (list netIPSocketLine) := text ← file; mapM (λ l, parseNetIPSocketLine (Fields l)) (tail (scan_lines text)).

Definition TCPEstablished : Z := 1.
Definition TCPSynSent : Z := 2.
Definition TCPSynRecv : Z := 3.
Definition TCPTimewait : Z := 6.
Definition TCPCloseWait : Z := 8.
Definition TCPListen : Z := 10.
Record tcp_counts := MkCounts { est : Z; tw : Z; cw : Z; ss : Z; sr : Z }.
Definition count_line (c : tcp_counts) (l : netIPSocketLine) : tcp_counts :=
  if St l =? TCPEstablished then MkCounts (u64 (est c + 1)) (tw c) (cw c) (ss c) (sr c)
  else if St l =? TCPTimewait then MkCounts (est c) (u64 (tw c + 1)) (cw c) (ss c) (sr c)
  else if St l =? TCPCloseWait then MkCounts (est c) (tw c) (u64 (cw c + 1)) (ss c) (sr c)
  else if St l =? TCPSynSent then MkCounts (est c) (tw c) (cw c) (u64 (ss c + 1)) (sr c)
  else if St l =? TCPSynRecv then MkCounts (est c) (tw c) (cw c) (ss c) (u64 (sr c + 1))
  else c.
Definition getEstTwCount (n : list netIPSocketLine) : tcp_counts := foldl count_line (MkCounts 0 0 0 0 0) n.
Definition getTxRxQueueLength (n : list netIPSocketLine) : Z * Z :=
  foldl (λ c l, if St l =? TCPListen then c else (u64 (c.1 + TxQueue l), u64 (c.2 + RxQueue l))) (0, 0) n.
Definition TCPSummaryMetrics : list string :=
  ["tcpestablishedconn"; "tcptimewaitconn"; "tcpclosewaitconn"; "tcpsynsentconn"; "tcpsynrecvconn"; "tcptxqueue"; "tcprxqueue"]%string.
(** The seven numbers of a namespace, from its two files. *)
Definition tcp_numbers (n n6 : list netIPSocketLine) : list Z :=
  let c := getEstTwCount n in let c6 := getEstTwCount n6 in let q := getTxRxQueueLength n in let q6 := getTxRxQueueLength n6 in
  (λ x, u64 x) <$> [est c + est c6; tw c + tw c6; cw c + cw c6; ss c + ss c6; sr c + sr c6; q.1 + q6.1; q.2 + q6.2].
Definition tcp_collect (tcp tcp6 : Z -> option string) (ents : list (Z * Z)) : metrics :=
  foldl (λ res e, match newNetTCP (tcp e.1), newNetTCP (tcp6 e.1) with
    | Some n, Some n6 => foldl (λ res x, put_value x.1 (u32 e.2) x.2 res) res (zip TCPSummaryMetrics (tcp_numbers n n6))
    | _, _ => res
    end) (empty_metrics TCPSummaryMetrics) ents.

(** ** What the kernel prints *)

Fixpoint unlines (ls : list string) : string := match ls with [] => EmptyString | l :: ls' => (l ++ String newline (unlines ls'))%string end.
(** A section of /proc/<pid>/net/snmp or netstat: its protocol, and its names
    with their values. *)
Definition section : Type := string * list (string * string).
Definition section_lines (x : section) : list string :=
  [unwords ((x.1 ++ ":")%string :: x.2.*1); unwords ((x.1 ++ ":")%string :: x.2.*2)].
Definition print_sections (l : list section) : string := unlines (l ≫= section_lines).
Definition section_ok (x : section) : Prop := word x.1 ∧ Forall (λ kv, word kv.1 ∧ word kv.2) x.2.
(** A later section replaces one of the same protocol, and a later value one
    of the same name. *)
Definition stats_table (l : list section) (m : stats) : stats := foldl (λ m x, <[ToLower x.1 := foldl put_field ∅ x.2]> m) m l.

Lemma free_of_mono (p q : ascii -> bool) (s : string) : (∀ c, p c = true -> q c = true) -> free_of q s -> free_of p s.
Proof.
  unfold free_of. intros Hpq. induction s as [|c s IH]; [done|]. cbn. intros [Hc Hs]%orb_false_iff. rewrite (IH Hs), orb_false_r.
  destruct (p c) eqn:E; [|done]. apply Hpq in E. congruence.
Qed.
Lemma Split_unwords (sep : ascii) (ws : list string) : Ascii.eqb sep " " = true -> ws ≠ [] -> Forall (free_of (Ascii.eqb sep)) ws -> Split sep (unwords ws) = ws.
Proof.
  intros Hsep Hne Hws. unfold Split. induction Hws as [|w ws Hw Hws IH]; [done|]. destruct ws as [|w' ws]; [by apply split_at_free|].
  change (unwords (w :: w' :: ws)) with (w ++ String " " (unwords (w' :: ws)))%string. rewrite split_at_cons by done. by rewrite IH.
Qed.
Lemma unwords_free (p : ascii -> bool) (ws : list string) : p " "%char = false -> Forall (free_of p) ws -> free_of p (unwords ws).
Proof.
  intros Hp Hws. induction Hws as [|w ws Hw Hws IH]; [done|]. destruct ws as [|w' ws]; [done|].
  change (unwords (w :: w' :: ws)) with (w ++ String " " (unwords (w' :: ws)))%string. apply free_of_app. split; [done|].
  unfold free_of in *. cbn [exists_char]. by rewrite Hp, IH.
Qed.
Lemma drop_cr_free (s : string) : free_of (Ascii.eqb carriage_return) s -> drop_cr s = s.
Proof.
  unfold free_of. induction s as [|c s IH]; [done|]. cbn [exists_char]. intros [Hc Hs]%orb_false_iff. cbn [drop_cr].
  destruct s as [|c' s]; [|by rewrite (IH Hs)]. rewrite Ascii.eqb_sym in Hc. by rewrite Hc.
Qed.
Lemma Split_unlines (ls : list string) : Forall (free_of (Ascii.eqb newline)) ls -> Split newline (unlines ls) = ls ++ [EmptyString].
Proof. unfold Split. induction 1 as [|l ls Hl Hls IH]; [done|]. cbn [unlines]. rewrite split_at_cons by done. cbn. by rewrite IH. Qed.
Lemma drop_empty_end_snoc (ls : list string) : drop_empty_end (ls ++ [EmptyString]) = ls.
Proof. induction ls as [|l ls IH]; [done|]. cbn. rewrite IH. by destruct ls. Qed.
Lemma scan_unlines (ls : list string) : Forall (free_of (Ascii.eqb newline)) ls -> Forall (free_of (Ascii.eqb carriage_return)) ls -> scan_lines (unlines ls) = ls.
Proof.
  intros Hn Hc. unfold scan_lines. rewrite Split_unlines, drop_empty_end_snoc by done. clear Hn.
  induction Hc as [|l ls Hl Hls IH]; [done|]. rewrite fmap_cons. by rewrite IH, drop_cr_free.
Qed.

Lemma but_last_colon (s : string) : but_last (s ++ ":")%string = Some s.
Proof. induction s as [|c s IH]; [done|]. change (but_last (String c s ++ ":")%string) with (match (s ++ ":")%string with EmptyString => Some EmptyString | _ => String c <$> but_last (s ++ ":")%string end). rewrite IH. by destruct s. Qed.
Lemma space_free (w : string) (c : ascii) : is_space c = true -> word w -> free_of (Ascii.eqb c) w.
Proof. intros Hc [_ Hw]. eapply free_of_mono; [|exact Hw]. intros x ->%Ascii.eqb_eq. done. Qed.
Lemma section_words (x : section) (c : ascii) : section_ok x -> is_space c = true ->
  Forall (free_of (Ascii.eqb c)) ((x.1 ++ ":")%string :: x.2.*1) ∧ Forall (free_of (Ascii.eqb c)) ((x.1 ++ ":")%string :: x.2.*2).
Proof.
  intros [Hp Hf] Hc. assert (free_of (Ascii.eqb c) (x.1 ++ ":")%string) as Hh.
  { apply free_of_app. split; [by apply space_free|]. unfold free_of. cbn. destruct (Ascii.eqb_spec c ":") as [->|]; [|done]. done. }
  split; (constructor; [done|]); apply Forall_fmap; eapply Forall_impl; try exact Hf; intros kv [? ?]; by apply space_free.
Qed.
Lemma parse_section (x : section) (m : stats) : section_ok x ->
  parse_pair (unwords ((x.1 ++ ":")%string :: x.2.*1)) (unwords ((x.1 ++ ":")%string :: x.2.*2)) m = Ok (<[ToLower x.1 := foldl put_field ∅ x.2]> m).
Proof.
  intros Hx. destruct (section_words x " " Hx eq_refl) as [H1 H2]. unfold parse_pair. rewrite !Split_unwords by done.
  cbn [head mbind option_bind]. rewrite but_last_colon. cbn [deref mbind result_bind]. rewrite bool_decide_eq_false_2 by (rewrite !length_cons, !length_fmap; naive_solver).
  cbn [tail]. by rewrite zip_fst_snd.
Qed.
Lemma parse_sections (l : list section) (m : stats) : Forall section_ok l -> parseNetStats (l ≫= section_lines) m = Ok (stats_table l m).
Proof.
  intros Hl. revert m. induction Hl as [|x l Hx Hl IH]; intros m; [done|]. cbn [mbind list_bind section_lines app parseNetStats].
  rewrite parse_section by done. cbn [mbind result_bind]. apply IH.
Qed.
(** What is printed is read. *)
Lemma netstats_parse_print (l : list section) : Forall section_ok l -> getNetStats (Some (print_sections l)) = Ok (stats_table l ∅).
Proof.
  intros Hl. cbn. unfold print_sections. rewrite scan_unlines; [by apply parse_sections|..].
  all: apply Forall_bind; eapply Forall_impl; [exact Hl|]; intros x Hx; unfold section_lines.
  - destruct (section_words x newline Hx eq_refl). repeat constructor; by apply unwords_free.
  - destruct (section_words x carriage_return Hx eq_refl). repeat constructor; by apply unwords_free.
Qed.

(** ** What is exported *)

Definition num_of (text : string) : option Z := match ParseInt text 10 64 with Num d => Some (u64 d) | _ => None end.
Definition snmp_at (res : snmp) (proto k : string) (n : Z) : option Z := m ← res !! proto; value_of m k n.
Definition known (res : snmp) (proto k : string) : bool := match res !! proto with Some m => bool_decide (is_Some (m !! k)) | None => false end.
Definition upd (b : bool) (new old : option Z) : option Z := if b then match new with Some v => Some v | None => old end else old.

Lemma snmp_value_at (proto : string) (ns : Z) (k v : string) (res : snmp) (p k' : string) (n : Z) :
  known (snmp_value proto ns k v res) p k' = known res p k' ∧
  snmp_at (snmp_value proto ns k v res) p k' n = upd (bool_decide (p = proto ∧ k' = k ∧ n = u32 ns) && known res p k') (num_of v) (snmp_at res p k' n).
Proof.
  unfold snmp_value, num_of. destruct (ParseInt v 10 64) as [d| |d]; [|by destruct (_ && _)|by destruct (_ && _)].
  destruct (res !! proto) as [m|] eqn:Em; cycle 1.
  { split; [done|]. unfold upd, known. destruct (bool_decide_reflect (p = proto ∧ k' = k ∧ n = u32 ns)) as [(-> & _ & _)|]; [|done]. by rewrite Em. }
  destruct (decide (p = proto)) as [->|Hp]; cycle 1.
  { unfold snmp_at, known. rewrite lookup_insert_ne by done. rewrite bool_decide_eq_false_2 by naive_solver. done. }
  unfold snmp_at, known. rewrite lookup_insert_eq, Em. cbn [mbind option_bind]. unfold put_value, value_of.
  destruct (m !! k) as [x|] eqn:Ek; cycle 1.
  { split; [done|]. destruct (decide (k' = k)) as [->|Hk]; [rewrite Ek; by rewrite (bool_decide_eq_false_2 (is_Some None)), andb_false_r by by intros []|].
    by rewrite (bool_decide_eq_false_2 (proto = proto ∧ _)) by naive_solver. }
  destruct (decide (k' = k)) as [->|Hk]; cycle 1.
  { rewrite lookup_insert_ne by done. by rewrite (bool_decide_eq_false_2 (proto = proto ∧ _)) by naive_solver. }
  rewrite lookup_insert_eq, Ek. rewrite !(bool_decide_eq_true_2 (is_Some _)) by done. split; [done|]. rewrite andb_true_r. cbn [mbind option_bind].
  destruct (decide (n = u32 ns)) as [->|Hn]; [rewrite lookup_insert_eq, bool_decide_eq_true_2 by done; done|].
  rewrite lookup_insert_ne by done. by rewrite bool_decide_eq_false_2 by naive_solver.
Qed.

Lemma snmp_stat_at (proto : string) (ns : Z) (stat : gmap string string) (res : snmp) (p k : string) (n : Z) :
  known (map_fold (snmp_value proto ns) res stat) p k = known res p k ∧
  snmp_at (map_fold (snmp_value proto ns) res stat) p k n = upd (bool_decide (p = proto ∧ n = u32 ns) && known res p k) (stat !! k ≫= num_of) (snmp_at res p k n).
Proof.
  apply (map_fold_weak_ind (λ r m, known r p k = known res p k ∧ snmp_at r p k n = upd (bool_decide (p = proto ∧ n = u32 ns) && known res p k) (m !! k ≫= num_of) (snmp_at res p k n))).
  - split; [done|]. rewrite lookup_empty. by destruct (_ && _).
  - intros i x m r Hi [IH1 IH2]. destruct (snmp_value_at proto ns i x r p k n) as [-> ->]. rewrite IH1. split; [done|]. rewrite IH2.
    destruct (decide (k = i)) as [->|Hk].
    + rewrite lookup_insert_eq, Hi. cbn [mbind option_bind]. destruct (known res p i); [|by rewrite !andb_false_r]. rewrite !andb_true_r.
      destruct (bool_decide_reflect (p = proto ∧ n = u32 ns)) as [[-> ->]|Hd]; [by rewrite bool_decide_eq_true_2|]. by rewrite bool_decide_eq_false_2 by naive_solver.
    + rewrite lookup_insert_ne by done. rewrite (bool_decide_eq_false_2 (p = proto ∧ k = i ∧ _)) by naive_solver. done.
Qed.
Lemma snmp_entity_at (st : stats) (ns : Z) (res : snmp) (p k : string) (n : Z) :
  known (snmp_entity st ns res) p k = known res p k ∧
  snmp_at (snmp_entity st ns res) p k n = upd (bool_decide (n = u32 ns) && known res p k) (m ← st !! p; m !! k ≫= num_of) (snmp_at res p k n).
Proof.
  apply (map_fold_weak_ind (λ r st, known r p k = known res p k ∧ snmp_at r p k n = upd (bool_decide (n = u32 ns) && known res p k) (m ← st !! p; m !! k ≫= num_of) (snmp_at res p k n))).
  - split; [done|]. rewrite lookup_empty. by destruct (_ && _).
  - intros i x m r Hi [IH1 IH2]. destruct (snmp_stat_at i ns x r p k n) as [-> ->]. rewrite IH1. split; [done|]. rewrite IH2.
    destruct (decide (p = i)) as [->|Hp].
    + rewrite lookup_insert_eq, Hi. cbn [mbind option_bind]. destruct (known res i k); [|by rewrite !andb_false_r]. rewrite !andb_true_r.
      destruct (bool_decide_reflect (n = u32 ns)) as [->|Hd]; [by rewrite bool_decide_eq_true_2|]. by rewrite bool_decide_eq_false_2 by naive_solver.
    + rewrite lookup_insert_ne by done. by rewrite (bool_decide_eq_false_2 (p = i ∧ _)) by naive_solver.
Qed.

(** What the file of a process says. *)
Definition reading (file : Z -> option string) (pid : Z) (p k : string) : option Z :=
  match getNetStats (file pid) with Ok st => m ← st !! p; m !! k ≫= num_of | _ => None end.
Lemma snmp_collect_at (file : Z -> option string) (ents : list (Z * Z)) (res : snmp) :
  (∀ pid ns, (pid, ns) ∈ ents -> getNetStats (file pid) ≠ Panic) -> NoDup ((λ e, u32 e.2) <$> ents) ->
  ∃ res', snmp_collect file ents res = Ok res' ∧ ∀ p k n, snmp_at res' p k n =
    match List.find (λ e, u32 e.2 =? n) ents with Some e => upd (known res p k) (reading file e.1 p k) (snmp_at res p k n) | None => snmp_at res p k n end.
Proof.
  revert res. induction ents as [|[pid ns] ents IH]; intros res Hf Hnd; [by exists res|]. apply NoDup_cons in Hnd as [Hns Hnd].
  assert (∀ n, u32 ns = n -> List.find (λ e, u32 e.2 =? n) ents = None) as Hfind.
  { intros n <-. destruct (List.find _ ents) as [e|] eqn:E; [|done]. apply find_some in E as [He%list_elem_of_In Hn%Z.eqb_eq]. destruct Hns. cbn [snd]. rewrite <- Hn. by apply (list_elem_of_fmap_2 (λ e, u32 e.2)). }
  assert (getNetStats (file pid) ≠ Panic) as Hp by (eapply Hf; left).
  cbn [snmp_collect List.find]. unfold reading. cbn [fst snd].
  destruct (getNetStats (file pid)) as [st|e|] eqn:Est; [| |done].
  - destruct (IH (snmp_entity st ns res)) as (res' & -> & Hres'); [intros; eapply Hf; by right|done|]. exists res'. split; [done|]. intros p k n. rewrite Hres'.
    destruct (snmp_entity_at st ns res p k n) as [-> ->]. destruct (Z.eqb_spec (u32 ns) n) as [E|E].
    + rewrite (Hfind n E). cbn [fst]. rewrite Est. by rewrite (bool_decide_eq_true_2 (n = u32 ns)) by done.
    + by rewrite (bool_decide_eq_false_2 (n = u32 ns)) by done.
  - destruct (IH res) as (res' & -> & Hres'); [intros; eapply Hf; by right|done|]. exists res'. split; [done|]. intros p k n. rewrite Hres'.
    destruct (Z.eqb_spec (u32 ns) n) as [E|E]; [|done]. rewrite (Hfind n E). cbn [fst]. rewrite Est. by destruct (known res p k).
Qed.

(** Lists with distinct keys, and maps built from them. *)
Lemma NoDup_key {A B : Type} (f : A -> B) (l : list A) (x y : A) : NoDup (f <$> l) -> x ∈ l -> y ∈ l -> f x = f y -> x = y.
Proof.
  intros Hnd [i Hi]%list_elem_of_lookup [j Hj]%list_elem_of_lookup Hxy.
  assert (i = j) as ->; [|congruence]. apply (NoDup_lookup _ _ _ (f x) Hnd); rewrite list_lookup_fmap; [by rewrite Hi|by rewrite Hj, Hxy].
Qed.
Lemma foldl_insert {A B : Type} (g : A -> string) (h : A -> B) (l : list A) (k : string) (b : B) : NoDup (g <$> l) ->
  foldl (λ m x, <[g x := h x]> m) (∅ : gmap string B) l !! k = Some b <-> ∃ x, x ∈ l ∧ g x = k ∧ h x = b.
Proof.
  induction l as [|x l IH] using rev_ind; intros Hnd.
  { cbn [foldl]. rewrite lookup_empty. split; [done|]. by intros (x & ?%elem_of_nil & _). }
  rewrite fmap_app in Hnd. apply NoDup_app in Hnd as (Hnd & Hx & _). rewrite foldl_app. cbn [foldl]. destruct (decide (g x = k)) as [<-|Hk].
  - rewrite lookup_insert_eq. split; [intros [= <-]; exists x; split; [apply elem_of_app; right; left|done]|].
    intros (y & [Hy| ->%list_elem_of_singleton]%elem_of_app & Hg & Hh); [|by f_equal]. destruct (Hx (g y)); [by apply list_elem_of_fmap_2|]. rewrite Hg. left.
  - rewrite lookup_insert_ne, IH by done. split; intros (y & Hy & Hg & Hh); exists y; (split; [|done]).
    + apply elem_of_app. by left.
    + apply elem_of_app in Hy as [Hy| ->%list_elem_of_singleton]; [done|]. by destruct Hk.
Qed.
(** Protocols and names are distinct, whatever the case of their letters. *)
Definition sections_ok (l : list section) : Prop :=
  Forall section_ok l ∧ NoDup ((λ x, ToLower x.1) <$> l) ∧ Forall (λ x, NoDup ((λ kv, ToLower kv.1) <$> x.2)) l.
Definition printed (l : list section) (p k text : string) : Prop := ∃ x f, x ∈ l ∧ ToLower x.1 = p ∧ (f, text) ∈ x.2 ∧ ToLower f = k.
Lemma table_printed (l : list section) (p k text : string) : sections_ok l -> (m ← stats_table l ∅ !! p; m !! k) = Some text <-> printed l p k text.
Proof.
  intros (_ & Hnd & Hf). rewrite bind_Some. unfold stats_table, printed. setoid_rewrite foldl_insert; [|done]. rewrite Forall_forall in Hf. split.
  - intros (m & (x & Hx & Hp & <-) & Hk). unfold put_field in Hk. apply (foldl_insert (λ kv, ToLower kv.1) snd) in Hk as ([f v] & Hv & Hf' & Hv'); [|by apply Hf].
    cbn in Hv'. subst v. by exists x, f.
  - intros (x & f & Hx & Hp & Hv & Hk). eexists. split; [by exists x|]. unfold put_field. apply (foldl_insert (λ kv, ToLower kv.1) snd); [by apply Hf|]. by exists (f, text).
Qed.
Lemma reading_printed (kernel : Z -> option (list section)) (pid : Z) (p k : string) (v : Z) : (∀ l, kernel pid = Some l -> sections_ok l) ->
  reading (λ pid, print_sections <$> kernel pid) pid p k = Some v <->
  ∃ l text d, kernel pid = Some l ∧ printed l p k text ∧ ParseInt text 10 64 = Num d ∧ v = u64 d.
Proof.
  intros Hk. unfold reading. destruct (kernel pid) as [l|]; cbn [fmap option_fmap option_map]; [|split; [done|by intros (? & ? & ? & ? & _)]].
  specialize (Hk l eq_refl). rewrite netstats_parse_print by apply Hk. transitivity (∃ text, printed l p k text ∧ num_of text = Some v).
  { setoid_rewrite <- (table_printed l p k); [|done]. destruct (stats_table l ∅ !! p) as [m|]; cbn [mbind option_bind]; [|naive_solver]. rewrite bind_Some. done. }
  unfold num_of. split.
  - intros (text & Hp & Hn). destruct (ParseInt text 10 64) as [d| |] eqn:E; [|done..]. injection Hn as <-. eauto 10.
  - intros (l' & text & d & [= <-] & Hp & Hd & ->). exists text. by rewrite Hd.
Qed.

Definition is_metric (p k : string) : Prop := ∃ names, (p, names) ∈ metricsMap ∧ k ∈ names.
Lemma empty_metrics_known (names : list string) (k : string) : is_Some (empty_metrics names !! k) <-> k ∈ names.
Proof.
  unfold empty_metrics. induction names as [|n names IH]; [split; [by intros [? ?]|by intros ?%elem_of_nil]|]. rewrite fmap_cons. cbn [list_to_map foldr uncurry].
  rewrite lookup_insert_is_Some, elem_of_cons. destruct (decide (n = k)) as [->|Hk]; [by split; left|]. rewrite IH. split; [intros [?|[_ ?]]; naive_solver|]. intros [->|?]; [done|by right].
Qed.
Lemma known_metric (p k : string) : known empty_snmp p k = true <-> is_metric p k.
Proof.
  assert (is_metric p k <-> ∃ names, empty_snmp !! p = Some (empty_metrics names) ∧ k ∈ names) as ->; cycle 1.
  { unfold known. split.
    - destruct (empty_snmp !! p) as [m|] eqn:E; [|done]. intros Hk%bool_decide_eq_true. unfold empty_snmp in E. apply elem_of_list_to_map_2 in E.
      apply list_elem_of_fmap in E as ([q names] & [= -> ->] & _). exists names. split; [done|]. by apply empty_metrics_known.
    - intros (names & -> & Hk). apply bool_decide_eq_true. by apply empty_metrics_known. }
  split.
  - intros (names & Hn & Hk). exists names. split; [|done]. apply elem_of_list_to_map_1; [vm_compute; repeat constructor; set_solver|].
    by apply (list_elem_of_fmap_2 (λ x, (x.1, empty_metrics x.2)) metricsMap (p, names)).
  - intros (names & Hn & Hk). apply elem_of_list_to_map_2, list_elem_of_fmap in Hn as ([q names'] & [= -> E] & Hin). exists names'. split; [done|].
    cbn in E. apply empty_metrics_known. rewrite <- E. by apply empty_metrics_known.
Qed.
Lemma empty_snmp_at (p k : string) (n : Z) : snmp_at empty_snmp p k n = None.
Proof.
  unfold snmp_at. destruct (empty_snmp !! p) as [m|] eqn:E; [|done]. apply elem_of_list_to_map_2, list_elem_of_fmap in E as ([q names] & [= -> ->] & _).
  cbn [mbind option_bind]. unfold value_of. destruct (empty_metrics names !! k) as [x|] eqn:Ek; [|done].
  apply elem_of_list_to_map_2, list_elem_of_fmap in Ek as (? & [= _ ->] & _). cbn. apply lookup_empty.
Qed.

Section snmp_exact.
Context {C : Type} `{GoCache C}.
Implicit Types (s : nettop (C := C)).

Lemma each_total {A B E : Type} (f : A -> result E B) (l : list A) : Forall (λ a, ∃ b, f a = Ok b) l -> ∃ bs, each f l = Ok bs.
Proof. induction 1 as [|a l [b Hb] _ [bs IH]]; [by exists []|]. exists (b :: bs). cbn. by rewrite Hb, IH. Qed.
Lemma unique_targets_total (host : netnsMeta) s : reached host s -> ∃ ents, unique_targets s = Ok ents.
Proof.
  intros [[_ _ _ He _ _] _]%reached_inv. unfold unique_targets. destruct (entities s) as [l|] eqn:El; [|unfold GetAllUniqueNetnsEntity, getAllEntity; rewrite El; by exists []].
  specialize (He l eq_refl). rewrite (unique_total s l El He). cbn [mbind result_bind]. apply each_total. rewrite Forall_forall in He |- *.
  intros p Hp%list_elem_of_In%filter_In. destruct (He p) as (e & ns & He' & Hns); [apply list_elem_of_In; by destruct Hp|]. unfold target. rewrite He'. cbn. unfold GetNetns. rewrite Hns. by eexists.
Qed.

(** C17: What the agent exports from /proc/<pid>/net/snmp.  If the entities of
    nettop's table have different namespaces, a collection ends, and there is a
    value for a metric and a namespace exactly if the file of an entity of that
    namespace prints a number under the metric's protocol and name, and it is
    that number. *)
Theorem snmp_exact (host : netnsMeta) s (kernel : Z -> option (list section)) (Hs : reached host s)
    (Hk : ∀ pid l, kernel pid = Some l -> sections_ok l) (Hns : ∀ ents, unique_targets s = Ok ents -> NoDup ((λ e, u32 e.2) <$> ents)) :
  ∃ ents res, unique_targets s = Ok ents ∧ snmp_collect (λ pid, print_sections <$> kernel pid) ents empty_snmp = Ok res ∧
    ∀ p k n v, snmp_at res p k n = Some v <->
      is_metric p k ∧ ∃ pid ns l text d, (pid, ns) ∈ ents ∧ u32 ns = n ∧ kernel pid = Some l ∧ printed l p k text ∧ ParseInt text 10 64 = Num d ∧ v = u64 d.
Proof.
  destruct (unique_targets_total host s Hs) as [ents He]. specialize (Hns ents He).
  destruct (snmp_collect_at (λ pid, print_sections <$> kernel pid) ents empty_snmp) as (res & Hres & Hat); [|done|].
  { intros pid ns _. destruct (kernel pid) as [l|] eqn:El; [|done]. cbn [fmap option_fmap option_map]. rewrite netstats_parse_print; [done|]. by destruct (Hk pid l El). }
  exists ents, res. split; [done|]. split; [done|]. intros p k n v. rewrite Hat, empty_snmp_at, <- known_metric.
  assert (∀ pid, reading (λ pid, print_sections <$> kernel pid) pid p k = Some v <-> ∃ l text d, kernel pid = Some l ∧ printed l p k text ∧ ParseInt text 10 64 = Num d ∧ v = u64 d) as Hr
    by (intros pid; apply reading_printed; intros l; apply Hk).
  destruct (List.find _ ents) as [[pid ns]|] eqn:Ef.
  - apply find_some in Ef as [Hin%list_elem_of_In Hn%Z.eqb_eq]. cbn [fst snd] in *. unfold upd. destruct (known empty_snmp p k); [|naive_solver].
    transitivity (reading (λ pid, print_sections <$> kernel pid) pid p k = Some v); [by destruct (reading _ pid p k)|]. rewrite Hr. split.
    + intros (l & text & d & ?). split; [done|]. exists pid, ns, l, text, d. naive_solver.
    + intros (_ & pid' & ns' & l & text & d & Hin' & Hn' & ?). exists l, text, d.
      assert ((pid', ns') = (pid, ns)) as [= -> ->]; [|done]. apply (NoDup_key _ _ _ _ Hns Hin' Hin). cbn. congruence.
  - split; [done|]. intros (_ & pid & ns & l & text & d & Hin & Hn & _). eapply find_none in Ef; [|by apply list_elem_of_In]. cbn in Ef. apply Z.eqb_neq in Ef. done.
Qed.
End snmp_exact.

(** ** The cache in front of a collection *)

(** Requests at given times, with what a collection would find then. *)
Fixpoint snmp_gets (rs : list (Z * snmp)) (name : string) (c : snmpCache) : result Empty_set (list (option metrics)) :=
  match rs with
  | [] => Ok []
  | (now, found) :: rs' => '(c, a) ← snmp_get now (Ok found) name c; l ← snmp_gets rs' name c; Ok (a :: l)
  end.
(** An answer is one of a collection at most two seconds ago. *)
Definition fresh (rs : list (Z * snmp)) (name : string) (now : Z) (a : option metrics) : Prop :=
  ∃ t found, (t, found) ∈ rs ∧ now - 2 * second <= t ∧ a = found !! name.
Lemma snmp_gets_fresh (seen rs : list (Z * snmp)) (name : string) (c : snmpCache) :
  match sc_last c with Some last => (last, sc_cache c) ∈ seen | None => True end ->
  ∃ l, snmp_gets rs name c = Ok l ∧ Forall2 (λ r a, fresh (seen ++ rs) name r.1 a) rs l.
Proof.
  revert seen c. induction rs as [|[now found] rs IH]; intros seen c Hc; [by exists []|]. cbn [snmp_gets]. unfold snmp_get.
  destruct (match sc_last c with Some last => now - last >? 2 * second | None => true end) eqn:E; cbn [mbind result_bind fst snd sc_cache].
  - destruct (IH (seen ++ [(now, found)]) (MkSnmpCache found (Some now))) as (l & -> & Hl); [cbn; apply elem_of_app; right; left|]. eexists. split; [done|].
    rewrite <- app_assoc in Hl. constructor; [|done]. exists now, found. split; [apply elem_of_app; right; left|]. cbn. split; [unfold second; lia|done].
  - destruct (sc_last c) as [last|] eqn:El; [|done]. destruct (IH (seen ++ [(now, found)]) c) as (l & -> & Hl); [rewrite El; apply elem_of_app; by left|].
    eexists. split; [done|]. rewrite <- app_assoc in Hl. constructor; [|done]. exists last, (sc_cache c). split; [apply elem_of_app; by left|]. cbn.
    split; [|done]. apply Z.gtb_ltb in E || idtac. destruct (Z.gtb_spec (now - last) (2 * second)); [done|lia].
Qed.
(** Every request is answered, with numbers at most two seconds old. *)
Theorem snmp_fresh (rs : list (Z * snmp)) (name : string) :
  ∃ l, snmp_gets rs name (MkSnmpCache ∅ None) = Ok l ∧ Forall2 (λ r a, fresh rs name r.1 a) rs l.
Proof. by apply (snmp_gets_fresh [] rs name). Qed.

(** ** The other collectors *)

(** A sum modulo the width. *)
Definition total {A : Type} (f : A -> Z) (l : list A) : Z := foldr (λ a n, f a + n) 0 l.
Lemma total_concat {A : Type} (f : A -> Z) (l k : list A) : total f (l ++ k) = total f l + total f k.
Proof. unfold total. induction l as [|a l IH]; cbn in *; [done|]. lia. Qed.
Lemma total_permuted {A : Type} (f : A -> Z) (l k : list A) : l ≡ₚ k -> total f l = total f k.
Proof. unfold total. induction 1; cbn in *; lia. Qed.

(** The numbers of /proc/<pid>/net/tcp: how many sockets are in a state. *)
Definition in_state (st : Z) (n : list netIPSocketLine) : Z := u64 (Z.of_nat (length (List.filter (λ l, St l =? st) n))).
Definition queues (f : netIPSocketLine -> Z) (n : list netIPSocketLine) : Z := u64 (total f (List.filter (λ l, negb (St l =? TCPListen)) n)).
Lemma u64_step (x k : Z) : u64 (u64 x + k) = u64 (x + k).
Proof. unfold wrap. by rewrite Zplus_mod_idemp_l. Qed.
Lemma u64_step_r (x k : Z) : u64 (x + u64 k) = u64 (x + k).
Proof. unfold wrap. by rewrite Zplus_mod_idemp_r. Qed.
Lemma filter_snoc {A : Type} (p : A -> bool) (l : list A) (x : A) : List.filter p (l ++ [x]) = List.filter p l ++ (if p x then [x] else []).
Proof. rewrite List.filter_app. cbn. by destruct (p x). Qed.
Lemma in_state_snoc (st : Z) (n : list netIPSocketLine) (l : netIPSocketLine) :
  in_state st (n ++ [l]) = if St l =? st then u64 (in_state st n + 1) else in_state st n.
Proof. unfold in_state. rewrite filter_snoc, length_app. destruct (St l =? st); cbn [length]; [rewrite u64_step; f_equal; lia|f_equal; lia]. Qed.
Theorem tcp_states (n : list netIPSocketLine) :
  getEstTwCount n = MkCounts (in_state TCPEstablished n) (in_state TCPTimewait n) (in_state TCPCloseWait n) (in_state TCPSynSent n) (in_state TCPSynRecv n) ∧
  getTxRxQueueLength n = (queues TxQueue n, queues RxQueue n).
Proof.
  unfold getEstTwCount, getTxRxQueueLength. induction n as [|l n [IH1 IH2]] using rev_ind; [done|]. rewrite !foldl_app, IH1, IH2. cbn [foldl]. split.
  - rewrite !in_state_snoc. unfold count_line. cbn [est tw cw ss sr].
    destruct (Z.eqb_spec (St l) TCPEstablished) as [->|]; [done|]. destruct (Z.eqb_spec (St l) TCPTimewait) as [->|]; [done|].
    destruct (Z.eqb_spec (St l) TCPCloseWait) as [->|]; [done|]. destruct (Z.eqb_spec (St l) TCPSynSent) as [->|]; [done|]. by destruct (Z.eqb_spec (St l) TCPSynRecv).
  - unfold queues. rewrite !filter_snoc. destruct (St l =? TCPListen); cbn [negb]; [by rewrite app_nil_r|]. cbn [fst snd]. rewrite !u64_step, !total_concat. cbn. by rewrite !Z.add_0_r.
Qed.

(** Devices but the loopback one. *)
Definition devices (netdev : gmap string NetDevLine) : list NetDevLine := (List.filter (λ x, negb (String.eqb x.1 "lo")) (map_to_list netdev)).*2.
Definition sum_of (g : NetDevLine -> Z) (netdev : gmap string NetDevLine) : option Z :=
  match devices netdev with [] => None | ds => Some (u64 (total g ds)) end.
Lemma put_value_at (name k : string) (ns v : Z) (m : metrics) :
  is_Some (put_value name ns v m !! k) <-> is_Some (m !! k).
Proof.
  unfold put_value. destruct (m !! name) as [x|] eqn:E; [|done]. rewrite lookup_insert_is_Some. destruct (decide (name = k)) as [->|]; [rewrite E; naive_solver|naive_solver].
Qed.
Lemma value_put (name k : string) (ns n v : Z) (m : metrics) : is_Some (m !! name) ->
  value_of (put_value name ns v m) k n = if decide (k = name ∧ n = ns) then Some v else value_of m k n.
Proof.
  intros [x Hx]. unfold put_value, value_of. rewrite Hx. destruct (decide (k = name)) as [->|Hk].
  - rewrite lookup_insert_eq, Hx. cbn [mbind option_bind]. destruct (decide (n = ns)) as [->|Hn]; [rewrite lookup_insert_eq; by rewrite decide_True|].
    rewrite lookup_insert_ne by done. by rewrite decide_False by naive_solver.
  - rewrite lookup_insert_ne by done. by rewrite decide_False by naive_solver.
Qed.
Lemma netdev_line_at (nsid n : Z) (dev : string) (d : NetDevLine) (res : metrics) (k : string) (g : NetDevLine -> Z) :
  (k, g) ∈ netdevFields -> (∀ f, f ∈ netdevFields.*1 -> is_Some (res !! f)) ->
  (∀ f, f ∈ netdevFields.*1 -> is_Some (netdev_line nsid dev d res !! f)) ∧
  value_of (netdev_line nsid dev d res) k n = if negb (String.eqb dev "lo") && (n =? nsid) then Some (u64 (default 0 (value_of res k n) + g d)) else value_of res k n.
Proof.
  intros Hk Hres. unfold netdev_line. destruct (String.eqb dev "lo"); [done|]. cbn [negb andb].
  assert (NoDup netdevFields.*1) as Hnd by (apply (bool_decide_unpack _); vm_compute; exact I).
  revert Hnd Hk Hres. generalize netdevFields. intros fs. revert res.
  assert (∀ fs res, (∀ f, f ∈ fs.*1 -> is_Some (res !! f)) -> k ∉ fs.*1 -> value_of (foldl (λ res f, add_value f.1 nsid (f.2 d) res) res fs) k n = value_of res k n) as Hout.
  { clear. induction fs as [|[f h] fs IH]; intros res Hres Hk; [done|]. cbn [foldl]. rewrite fmap_cons, not_elem_of_cons in Hk. destruct Hk as [Hf Hk].
    rewrite IH; [|intros f' Hf'; unfold add_value; apply put_value_at; apply Hres; by right|done].
    unfold add_value. rewrite value_put by (apply Hres; left). by rewrite decide_False by naive_solver. }
  assert (∀ fs (P : string -> Prop) res, (∀ f, P f -> is_Some (res !! f)) -> ∀ f, P f -> is_Some (foldl (λ res f, add_value f.1 nsid (f.2 d) res) res fs !! f)) as Hkeep.
  { clear. intros fs P. induction fs as [|[f h] fs IH]; intros res Hres; [done|]. cbn [foldl]. apply IH. intros f' Hf'. unfold add_value. apply put_value_at. by apply Hres. }
  intros res Hnd Hk Hres. split; [by apply (Hkeep fs (λ f, f ∈ fs.*1))|].
  revert res Hres. induction fs as [|[f h] fs IH]; intros res Hres; [by apply elem_of_nil in Hk|]. cbn [foldl]. rewrite fmap_cons in Hnd. apply NoDup_cons in Hnd as [Hf Hnd].
  assert (∀ f', f' ∈ fs.*1 -> is_Some (add_value f nsid (h d) res !! f')) as Hres' by (intros f' Hf'; unfold add_value; apply put_value_at; apply Hres; by right).
  apply elem_of_cons in Hk as [[= -> ->]|Hk].
  - rewrite Hout by done. cbn [fst snd]. unfold add_value at 1. rewrite value_put by (apply Hres; left).
    destruct (Z.eqb_spec n nsid) as [->|Hn]; [by rewrite decide_True|by rewrite decide_False by naive_solver].
  - rewrite IH by done. cbn [fst snd]. assert (k ≠ f) as Hkf by (intros ->; apply Hf; by apply (list_elem_of_fmap_2 fst fs (f, g))).
    unfold add_value. rewrite value_put by (apply Hres; left). by rewrite decide_False by naive_solver.
Qed.

Definition has_fields (res : metrics) : Prop := ∀ f, f ∈ netdevFields.*1 -> is_Some (res !! f).
Definition plus (o old : option Z) : option Z := match o with Some v => Some (u64 (default 0 old + v)) | None => old end.
Lemma filter_perm {A : Type} (p : A -> bool) (l k : list A) : l ≡ₚ k -> List.filter p l ≡ₚ List.filter p k.
Proof. induction 1 as [|x l k _ IH|x y l|l k j _ IH1 _ IH2]; cbn; [done| | |by rewrite IH1]; [destruct (p x); by rewrite IH|]. destruct (p x), (p y); try done. apply Permutation_swap. Qed.
Lemma devices_insert (i : string) (x : NetDevLine) (m : gmap string NetDevLine) : m !! i = None ->
  devices (<[i := x]> m) ≡ₚ (if negb (String.eqb i "lo") then [x] else []) ++ devices m.
Proof.
  intros Hi. unfold devices. rewrite (filter_perm _ _ _ (map_to_list_insert m i x Hi)). cbn [List.filter fst]. by destruct (String.eqb i "lo").
Qed.
Lemma sum_of_insert (g : NetDevLine -> Z) (i : string) (x : NetDevLine) (m : gmap string NetDevLine) (old : option Z) : m !! i = None ->
  plus (sum_of g (<[i := x]> m)) old = if negb (String.eqb i "lo") then Some (u64 (default 0 (plus (sum_of g m) old) + g x)) else plus (sum_of g m) old.
Proof.
  intros Hi. pose proof (devices_insert i x m Hi) as Hp. pose proof (total_permuted g _ _ Hp) as Ht. unfold sum_of.
  destruct (negb (String.eqb i "lo")); cbn [app] in Hp, Ht.
  - destruct (devices (<[i := x]> m)) as [|d ds]; [by apply Permutation_nil_cons in Hp|]. rewrite Ht. unfold plus at 1. f_equal.
    destruct (devices m) as [|d' ds']; cbn [plus].
    + rewrite u64_step_r. f_equal. cbn. lia.
    + cbn [from_option]. unfold id. rewrite !u64_step_r, u64_step. f_equal. unfold total. cbn [foldr]. lia.
  - destruct (devices m) as [|d' ds']; [by apply Permutation_sym, Permutation_nil in Hp as ->|].
    destruct (devices (<[i := x]> m)) as [|d ds]; [by apply Permutation_nil in Hp|]. by rewrite Ht.
Qed.
Lemma netdev_ns_at (nsid n : Z) (netdev : gmap string NetDevLine) (res : metrics) (k : string) (g : NetDevLine -> Z) : (k, g) ∈ netdevFields -> has_fields res ->
  has_fields (map_fold (netdev_line nsid) res netdev) ∧
  value_of (map_fold (netdev_line nsid) res netdev) k n = if n =? nsid then plus (sum_of g netdev) (value_of res k n) else value_of res k n.
Proof.
  intros Hk Hres. apply (map_fold_weak_ind (λ r m, has_fields r ∧ value_of r k n = if n =? nsid then plus (sum_of g m) (value_of res k n) else value_of res k n)).
  - split; [done|]. by destruct (n =? nsid).
  - intros i x m r Hi [IH1 IH2]. destruct (netdev_line_at nsid n i x r k g Hk IH1) as [H1 ->]. split; [done|]. rewrite IH2, sum_of_insert by done.
    destruct (n =? nsid); [by rewrite andb_true_r|by rewrite andb_false_r].
Qed.

(** The number exported for a namespace is the sum over its devices but the
    loopback one. *)
Theorem netdev_exact (NetDev : Z -> option (gmap string NetDevLine)) (ents : list (Z * Z)) (k : string) (g : NetDevLine -> Z) (n : Z) : (k, g) ∈ netdevFields ->
  value_of (netdev_collect NetDev ents) k n = getAllNetdev NetDev ents !! n ≫= sum_of g.
Proof.
  intros Hk. unfold netdev_collect. generalize (getAllNetdev NetDev ents). intros all.
  apply (map_fold_weak_ind (λ r m, has_fields r ∧ value_of r k n = m !! n ≫= sum_of g)).
  - split; [intros f Hf; by apply empty_metrics_known|]. rewrite lookup_empty. unfold value_of. destruct (empty_metrics _ !! k) as [x|] eqn:E; [|done].
    apply elem_of_list_to_map_2, list_elem_of_fmap in E as (? & [= _ ->] & _). apply lookup_empty.
  - intros i x m r Hi [IH1 IH2]. destruct (netdev_ns_at i n x r k g Hk IH1) as [H1 ->]. split; [done|]. rewrite IH2. destruct (Z.eqb_spec n i) as [->|Hn].
    + rewrite lookup_insert_eq, Hi. cbn [mbind option_bind]. unfold plus, sum_of. destruct (devices x); [done|]. cbn [default from_option]. by rewrite u64_step_r.
    + by rewrite lookup_insert_ne.
Qed.

(** The sums over the lines of softnet_stat, which has one for each
    processor. *)
Lemma softnet_read (rows : list (list string)) (sns : list SoftnetStat) : Forall (λ ws, Forall word ws) rows ->
  mapM parse_softnet_line (unwords <$> rows) = Some sns -> parseSoftnet (unlines (unwords <$> rows)) = Some sns.
Proof.
  intros Hw Hs. unfold parseSoftnet. rewrite scan_unlines; [done|..].
  all: apply Forall_fmap; eapply Forall_impl; [exact Hw|]; intros ws Hws; apply unwords_free; [done|]; eapply Forall_impl; [exact Hws|]; intros w Hword; by apply space_free.
Qed.
Theorem softnet_sums (sns : list SoftnetStat) : sns ≠ [] ->
  getSoftnetStat sns !! "processed"%string = Some (u64 (total Processed sns)) ∧ getSoftnetStat sns !! "dropped"%string = Some (u64 (total Dropped sns)).
Proof.
  unfold getSoftnetStat. induction sns as [|x sns IH] using rev_ind; [done|]. intros _. rewrite foldl_app, !total_concat. cbn [foldl].
  assert (total Processed [x] = Processed x ∧ total Dropped [x] = Dropped x) as [-> ->] by (unfold total; cbn; lia).
  rewrite (lookup_insert_ne _ "dropped"%string "processed"%string), !lookup_insert_eq by done.
  destruct (decide (sns = [])) as [->|Hne]; [done|]. destruct (IH Hne) as [-> ->]. cbn. by rewrite !u64_step.
Qed.

(** The last number that is given for the open descriptors of an entity is
    always 0. *)
Theorem openfd_zero (dir : Z -> option (list (option string))) (pids : list Z) : last (List.filter (λ x, String.eqb x.1 "openfd") (fd_collect dir pids)) = Some ("openfd"%string, 0).
Proof. unfold fd_collect. rewrite filter_snoc. cbn [fst String.eqb]. apply last_snoc. Qed.

(** ** Examples *)

Definition ex_snmp : list section :=
  [("Ip", [("Forwarding", "1"); ("DefaultTTL", "64")]); ("Tcp", [("RtoAlgorithm", "1"); ("MaxConn", "-1"); ("ActiveOpens", "17")]); ("UdpLite", [("InDatagrams", "5")])]%string.
Definition ex_kernel (pid : Z) : option (list section) := if pid =? 200 then Some ex_snmp else None.
Lemma ex_snmp_ok : sections_ok ex_snmp.
Proof.
  split; [|split].
  - repeat constructor; (done || (intros [=])).
  - apply (bool_decide_unpack _). vm_compute. exact I.
  - repeat constructor; apply (bool_decide_unpack _); vm_compute; exact I.
Qed.
Lemma ex_targets : unique_targets ex_refreshed = Ok [(100, 4026531840); (200, 4026532001)].
Proof. vm_compute. reflexivity. Qed.
Lemma snmp_exact_witness : ∃ res, snmp_collect (λ pid, print_sections <$> ex_kernel pid) [(100, 4026531840); (200, 4026532001)] empty_snmp = Ok res ∧
  snmp_at res "tcp" "activeopens" 4026532001 = Some 17.
Proof.
  destruct (snmp_exact ex_host ex_refreshed ex_kernel ex_reached) as (ents & res & He & Hres & Hat).
  - intros pid l. unfold ex_kernel. destruct (pid =? 200); [|done]. intros [= <-]. exact ex_snmp_ok.
  - intros ents. rewrite ex_targets. intros [= <-]. apply (bool_decide_unpack _). vm_compute. exact I.
  - rewrite ex_targets in He. injection He as <-. exists res. split; [exact Hres|]. apply Hat. split; [eexists; split; [left|left]|].
    exists 200, 4026532001, ex_snmp, "17"%string, 17. split_and!; try reflexivity; [right; left|].
    exists ("Tcp"%string, [("RtoAlgorithm", "1"); ("MaxConn", "-1"); ("ActiveOpens", "17")]%string), "ActiveOpens"%string. split_and!; try reflexivity; [right; left|right; right; left].
Defined.

(** A line of the kernel that has a TCP protocol without its orphans: the nil
    pointer is followed. *)
Example sockstat_panics :
  getHostTCPSockstat (Some (unlines ["sockets: used 12"; "TCP: inuse 3 orphan 0 tw 2 alloc 5 mem 1"]%string)) (Some (unlines ["TCP6: inuse 2"]%string)) = Ok (MkTcpSock 5 0 2 5 1) ∧
  getHostTCPSockstat (Some (unlines ["TCP: inuse 3 tw 2"]%string)) None = Panic.
Proof. split; vm_compute; reflexivity. Qed.
(** Packets that come in are exported as bytes. *)
Example ipvs_packets_wrong :
  (m ← ipvs_collect (Some (unlines ["   Total Incoming Outgoing         Incoming         Outgoing"; "   Conns  Packets  Packets            Bytes            Bytes";
     "      2A       10       20              300              400"; EmptyString]%string)); value_of m "incomingpackets" 0) = Some 0x300.
Proof. vm_compute. reflexivity. Qed.
(** Two sockets of IPv4, one of them listening, in a namespace without IPv6:
    nothing is exported. *)
Definition ex_tcp : string := unlines
  ["  sl  local_address rem_address   st tx_queue rx_queue tr tm->when retrnsmt   uid  timeout inode";
   "   0: 0100007F:1F90 00000000:0000 0A 00000000:00000003 00:00000000 00000000     0        0 31 1";
   "   1: 0200A8C0:1F90 0300A8C0:D431 01 00000010:00000000 00:00000000 00000000     0        0 32 1"]%string.
Example tcp_without_ipv6 :
  value_of (tcp_collect (λ _, Some ex_tcp) (λ _, Some (unlines ["  sl"]%string)) [(200, 7)]) "tcpestablishedconn" 7 = Some 1 ∧
  value_of (tcp_collect (λ _, Some ex_tcp) (λ _, None) [(200, 7)]) "tcpestablishedconn" 7 = None.
Proof. split; vm_compute; reflexivity. Qed.
End AgentProc.
