(* ===== verification/TaskController.v ===== *)
(** The controller's tasks for the agents: the messages of
    src/pkg/controller/rpc/controller.proto, and the operations of
    src/pkg/controller/service that prepare a task, choose the agent's stream
    for it and store its result (agent.go, pingmesh.go, capture.go, utils.go).

    The operations are functions of what the Kubernetes API answers and of the
    shared maps.  How requests, streams and uploads interleave is in
    [TaskSystem]. *)

From S2P Require Import Prelude GoStrings GoResult GoFloat.

Module TaskController.

(** ** Messages *)

Inductive TaskType := Capture | Ping.
#[global] Instance TaskType_eq_dec : EqDecision TaskType.
Proof. solve_decision. Defined.

Record TaskFilter := MkFilter { f_NodeName : string; f_Type : list TaskType }.
Record PodInfo := MkPodInfo { pod_Name : string; pod_Namespace : string; pod_HostNetwork : bool }.
Record PingInfo := MkPingInfo { pi_Pod : option PodInfo; pi_Node : option string; pi_Destination : string }.
Record CaptureInfo := MkCaptureInfo {
  ci_Pod : option PodInfo; ci_Node : option string; ci_Filter : string; ci_CaptureType : string; ci_Duration : Z;
}.
Inductive TaskInfo := Task_Capture (c : CaptureInfo) | Task_Ping (p : PingInfo).
Record Task := MkTask { t_Type : TaskType; t_Id : string; t_Info : TaskInfo }.

Record PingResult := MkPingResult { pr_Max : float; pr_Avg : float; pr_Min : float }.
Record CaptureResult := MkCaptureResult { cr_FileType : string; cr_Message : list Z }.
Inductive TaskResultInfo := Result_Capture (c : CaptureResult) | Result_Ping (p : PingResult).
Record TaskResult := MkTaskResult {
  tr_Id : string; tr_Type : TaskType; tr_Success : bool; tr_Message : string;
  tr_Task : option CaptureInfo; tr_Info : option TaskResultInfo;
}.
Definition GetPing (r : TaskResult) : option PingResult := match tr_Info r with Some (Result_Ping p) => Some p | _ => None end.
Definition GetCapture (r : TaskResult) : option CaptureResult := match tr_Info r with Some (Result_Capture c) => Some c | _ => None end.

#[global] Instance TaskFilter_eq_dec : EqDecision TaskFilter.
Proof. solve_decision. Defined.
#[global] Instance PodInfo_eq_dec : EqDecision PodInfo.
Proof. solve_decision. Defined.
#[global] Instance PingInfo_eq_dec : EqDecision PingInfo.
Proof. solve_decision. Defined.
#[global] Instance CaptureInfo_eq_dec : EqDecision CaptureInfo.
Proof. solve_decision. Defined.
#[global] Instance TaskInfo_eq_dec : EqDecision TaskInfo.
Proof. solve_decision. Defined.
#[global] Instance Task_eq_dec : EqDecision Task.
Proof. solve_decision. Defined.
#[global] Instance PingResult_eq_dec : EqDecision PingResult.
Proof. solve_decision. Defined.
#[global] Instance CaptureResult_eq_dec : EqDecision CaptureResult.
Proof. solve_decision. Defined.
#[global] Instance TaskResultInfo_eq_dec : EqDecision TaskResultInfo.
Proof. solve_decision. Defined.
#[global] Instance TaskResult_eq_dec : EqDecision TaskResult.
Proof. solve_decision. Defined.

Inductive task_err :=
  ErrGetPod | ErrPodNotRunning | ErrGetNode | ErrNoAddress | ErrSourceIP | ErrNoClient | ErrCaptureType | ErrStoreFile.
#[global] Instance task_err_eq_dec : EqDecision task_err.
Proof. solve_decision. Defined.

(** ** The Kubernetes API

    What the API server answers to a Get, at some moment; [None] is an error,
    also that of a context that is done. *)

Record PodObject := MkPodObject { po_Phase : string; po_HostNetwork : bool; po_NodeName : string; po_PodIP : string }.
Record NodeObject := MkNodeObject { no_Name : string; no_Addresses : list (string * string) }.
Record api := MkApi { pods : string -> string -> option PodObject; nodes : string -> option NodeObject }.

Definition getPodInfo (a : api) (podNamespace podName : string) : result task_err (PodInfo * string * string) :=
  match pods a podNamespace podName with
  | None => Err ErrGetPod
  | Some p =>
      if negb (String.eqb (po_Phase p) "Running") then Err ErrPodNotRunning
      else Ok (MkPodInfo podName podNamespace (po_HostNetwork p), po_NodeName p, po_PodIP p)
  end.

Definition getNodeInfo (a : api) (nodeName : string) : result task_err (string * string) :=
  match nodes a nodeName with
  | None => Err ErrGetNode
  | Some p =>
      match no_Addresses p with
      | [] => Err ErrNoAddress
      | first :: _ =>
          match List.find (λ addr, String.eqb addr.1 "InternalIP") (no_Addresses p) with
          | Some addr => Ok (no_Name p, addr.2)
          | None => Ok (no_Name p, first.2)
          end
      end
  end.

(** ** Choosing an agent *)

(** [commitTask]'s test on a watcher's filter. *)
Definition accepts (filter : TaskFilter) (node : string) (task : Task) : bool :=
  String.eqb (f_NodeName filter) node && foldl (λ acc t, acc || bool_decide (t = t_Type task)) false (f_Type filter).

(** [getTaskIdx], and the text of the id it gives out. *)
Definition nextTaskIdx (taskIdx : Z) : Z := sext 64 (taskIdx + 1).
Definition idText (taskIdx : Z) : string := if taskIdx <? 0 then ("-" ++ dec (- taskIdx))%string else dec taskIdx.

(** ** Ping mesh *)

Record NodeInfo := MkNodeInfo { ni_Type : string; ni_Name : string; ni_Nodename : string; ni_Namespace : string }.
#[global] Instance NodeInfo_eq_dec : EqDecision NodeInfo.
Proof. solve_decision. Defined.
#[global] Instance NodeInfo_countable : Countable NodeInfo.
Proof.
  refine (inj_countable' (λ n, (ni_Type n, ni_Name n, ni_Nodename n, ni_Namespace n))
    (λ '(t, n, d, s), MkNodeInfo t n d s) _). by intros [].
Defined.

Record Latency := MkLatency { l_Source : NodeInfo; l_Target : NodeInfo; l_Max : float; l_Min : float; l_Avg : float }.
#[global] Instance Latency_eq_dec : EqDecision Latency.
Proof. solve_decision. Defined.

(** The first half of [dispatchPingTask]: the source as the goroutine's
    closure sees it later, and the message. *)
Definition ping_source (a : api) (src : NodeInfo) : result task_err (NodeInfo * option PodInfo * option string) :=
  if String.eqb (ni_Type src) "Pod" then
    '(pod, node, _) ← getPodInfo a (ni_Namespace src) (ni_Name src); Ok (src, Some pod, Some node)
  else if String.eqb (ni_Type src) "Node" then
    let src := MkNodeInfo (ni_Type src) (ni_Name src) (ni_Name src) (ni_Namespace src) in
    '(node, _) ← getNodeInfo a (ni_Name src); Ok (src, None, Some node)
  else if String.eqb (ni_Type src) "IP" then Err ErrSourceIP
  else Ok (src, None, None).
Definition ping_destination (a : api) (dst : NodeInfo) : result task_err string :=
  if String.eqb (ni_Type dst) "Pod" then '(_, _, ip) ← getPodInfo a (ni_Namespace dst) (ni_Name dst); Ok ip
  else if String.eqb (ni_Type dst) "Node" then '(_, ip) ← getNodeInfo a (ni_Name dst); Ok ip
  else if String.eqb (ni_Type dst) "IP" then Ok (ni_Name dst)
  else Ok EmptyString.
Definition pingTask (a1 a2 : api) (src dst : NodeInfo) (id : string) : result task_err (NodeInfo * Task) :=
  '(src, pod, node) ← ping_source a1 src; destination ← ping_destination a2 dst;
  Ok (src, MkTask Ping id (Task_Ping (MkPingInfo pod node destination))).

(** What [waitTaskResult] returns, and the latency made of it. *)
Inductive waited := Received (r : TaskResult) | ContextDone | ChannelClosed.
Definition lost : float := round binary64 99999 10.
Definition unreachable (src dst : NodeInfo) : Latency := MkLatency src dst lost lost lost.
Definition latency_of (src dst : NodeInfo) (w : waited) : option Latency :=
  match w with
  | Received r =>
      if tr_Success r then p ← GetPing r; Some (MkLatency src dst (pr_Max p) (pr_Min p) (pr_Avg p))
      else Some (unreachable src dst)
  | _ => Some (unreachable src dst)
  end.

(** The pairs that [PingMesh] dispatches, and the nodes of its result. *)
Definition mesh_pairs (srcs dsts : list NodeInfo) : list (NodeInfo * NodeInfo) :=
  List.filter (λ p, bool_decide (p.1 ≠ p.2)) (srcs ≫= λ s, (λ d, (s, d)) <$> dsts).
Definition mesh_nodes (srcs dsts : list NodeInfo) : gset NodeInfo :=
  list_to_set srcs ∪ list_to_set (snd <$> mesh_pairs srcs dsts).

(** ** Captures *)

Record CaptureItem := MkItem { it_Type : string; it_Name : string; it_Nodename : string; it_Namespace : string }.
Record CaptureArgs := MkCaptureArgs { CaptureList : list CaptureItem; CaptureDurationSeconds : Z; ca_Filter : string }.
Record TaskSpec := MkSpec { s_TaskType : string; s_Name : string; s_Namespace : string }.
Record CaptureTaskResult := MkCaptureTask { ct_TaskID : Z; ct_Spec : TaskSpec; ct_Status : string; ct_Result : string; ct_Message : string }.
#[global] Instance TaskSpec_eq_dec : EqDecision TaskSpec.
Proof. solve_decision. Defined.
#[global] Instance CaptureTaskResult_eq_dec : EqDecision CaptureTaskResult.
Proof. solve_decision. Defined.

(** The first loop of [Capture]: all items are looked up before any task is
    sent. *)
Definition capture_info (a : api) (args : CaptureArgs) (item : CaptureItem) : result task_err CaptureInfo :=
  let duration := sext 32 (wrap 32 (CaptureDurationSeconds args)) in
  if String.eqb (it_Type item) "Pod" then
    '(pod, node, _) ← getPodInfo a (it_Namespace item) (it_Name item);
    Ok (MkCaptureInfo (Some pod) (Some node) (ca_Filter args) "Pod" duration)
  else if String.eqb (it_Type item) "Node" then
    Ok (MkCaptureInfo None (Some (it_Name item)) (ca_Filter args) "Node" duration)
  else Err ErrCaptureType.
Fixpoint capture_infos (a : api) (args : CaptureArgs) (items : list CaptureItem) : result task_err (list CaptureInfo) :=
  match items with
  | [] => Ok []
  | item :: items' => i ← capture_info a args item; is' ← capture_infos a args items'; Ok (i :: is')
  end.
Definition captureTask (id : string) (c : CaptureInfo) : Task := MkTask Capture id (Task_Capture c).
Definition captureSpec (c : CaptureInfo) : TaskSpec :=
  if String.eqb (ci_CaptureType c) "Pod" then
    MkSpec (ci_CaptureType c) (default EmptyString (pod_Name <$> ci_Pod c)) (default EmptyString (pod_Namespace <$> ci_Pod c))
  else MkSpec (ci_CaptureType c) (default EmptyString (ci_Node c)) EmptyString.
Definition captureRunning (taskID : Z) (c : CaptureInfo) : CaptureTaskResult :=
  MkCaptureTask taskID (captureSpec c) "running" EmptyString EmptyString.

(** [storeCaptureResult]: which entries a result is for. *)
Definition result_for (r : TaskResult) (spec : TaskSpec) : bool :=
  match tr_Task r ≫= ci_Pod with
  | Some pod => String.eqb (pod_Namespace pod) (s_Namespace spec) && String.eqb (pod_Name pod) (s_Name spec)
  | None => String.eqb (default EmptyString (tr_Task r ≫= ci_Node)) (s_Name spec)
  end.

Definition captureFileName (spec : TaskSpec) (id : Z) (fileType : string) : string :=
  ("capture_task_" ++ idText id ++ "_" ++ (if String.eqb (s_TaskType spec) "Pod" then s_Namespace spec else "node")
     ++ "_" ++ s_Name spec ++ "." ++ fileType)%string.
Definition captureDir (id : Z) : string := ("/tmp/task_" ++ idText id ++ "/")%string.

(** Files, and which paths can be written. *)
Record disk := MkDisk { files : gmap string (list Z); writable : string -> bool }.
Definition storeCaptureFile (d : disk) (spec : TaskSpec) (id : Z) (c : option CaptureResult) : disk * result task_err string :=
  if negb (writable d (captureDir id)) then (d, Err ErrStoreFile)
  else
    let name := captureFileName spec id (default EmptyString (cr_FileType <$> c)) in
    let path := (captureDir id ++ name)%string in
    match c with
    | None => (d, Panic)
    | Some c =>
        if negb (writable d path) then (d, Err ErrStoreFile)
        else (MkDisk (<[path := cr_Message c]> (files d)) (writable d), Ok name)
    end.

(** One entry, and the loop over them, which an error ends. *)
Definition store_one (d : disk) (id : Z) (r : TaskResult) (e : CaptureTaskResult) : disk * CaptureTaskResult * result task_err () :=
  if tr_Success r then
    let '(d, f) := storeCaptureFile d (ct_Spec e) id (GetCapture r) in
    let e := MkCaptureTask (ct_TaskID e) (ct_Spec e) "success" (ct_Result e) (tr_Message r) in
    match f with
    | Ok name => (d, MkCaptureTask (ct_TaskID e) (ct_Spec e) "success" name (tr_Message r), Ok ())
    | Err x => (d, e, Err x)
    | Panic => (d, e, Panic)
    end
  else (d, MkCaptureTask (ct_TaskID e) (ct_Spec e) "failed" (ct_Result e) (tr_Message r), Ok ()).
Fixpoint store_all (d : disk) (id : Z) (r : TaskResult) (es : list CaptureTaskResult) : disk * list CaptureTaskResult * result task_err () :=
  match es with
  | [] => (d, [], Ok ())
  | e :: es' =>
      if result_for r (ct_Spec e) then
        let '(d, e, o) := store_one d id r e in
        match o with
        | Ok _ => let '(d, es', o) := store_all d id r es' in (d, e :: es', o)
        | _ => (d, e :: es', o)
        end
      else let '(d, es', o) := store_all d id r es' in (d, e :: es', o)
  end.
Definition storeCaptureResult (captureTasks : gmap Z (list CaptureTaskResult)) (d : disk) (r : TaskResult) :
    gmap Z (list CaptureTaskResult) * disk * result task_err () :=
  let id := value (Atoi (tr_Id r)) in
  match captureTasks !! id with
  | Some es =>
      if bool_decide (tr_Type r = Capture) then
        let '(d, es, o) := store_all d id r es in (<[id := es]> captureTasks, d, o)
      else (captureTasks, d, Ok ())
  | None => (captureTasks, d, Ok ())
  end.


(** ** Properties *)

(** An entry after a result for it. *)
Definition answered_entry (id : Z) (r : TaskResult) (e : CaptureTaskResult) : CaptureTaskResult :=
  if tr_Success r then
    MkCaptureTask (ct_TaskID e) (ct_Spec e) "success" (captureFileName (ct_Spec e) id (default EmptyString (cr_FileType <$> GetCapture r))) (tr_Message r)
  else MkCaptureTask (ct_TaskID e) (ct_Spec e) "failed" (ct_Result e) (tr_Message r).
Definition update_entry (id : Z) (r : TaskResult) (e : CaptureTaskResult) : CaptureTaskResult :=
  if result_for r (ct_Spec e) then answered_entry id r e else e.
(** The file of an entry. *)
Definition entry_path (id : Z) (r : TaskResult) (e : CaptureTaskResult) : string :=
  (captureDir id ++ captureFileName (ct_Spec e) id (default EmptyString (cr_FileType <$> GetCapture r)))%string.
Definition written (id : Z) (r : TaskResult) (es : list CaptureTaskResult) (path : string) : Prop :=
  tr_Success r = true ∧ ∃ e, e ∈ es ∧ result_for r (ct_Spec e) = true ∧ path = entry_path id r e.

Lemma store_all_exact (d : disk) (id : Z) (r : TaskResult) (es : list CaptureTaskResult) :
  (∀ p, writable d p = true) -> (tr_Success r = true -> is_Some (GetCapture r)) ->
  ∃ d', store_all d id r es = (d', update_entry id r <$> es, Ok ()) ∧ writable d' = writable d ∧
    (∀ path, written id r es path -> files d' !! path = cr_Message <$> GetCapture r) ∧
    (∀ path, ¬ written id r es path -> files d' !! path = files d !! path).
Proof.
  intros Hw Hr. revert d Hw. induction es as [|e es IH]; intros d Hw; cbn [store_all].
  - exists d. split_and!; [done|done|by intros path (_ & e & He%elem_of_nil & _)|done].
  - unfold fmap, list_fmap. fold (fmap (M := list) (update_entry id r) es). unfold update_entry at 1. destruct (result_for r (ct_Spec e)) eqn:Hf.
    + unfold store_one, answered_entry. destruct (tr_Success r) eqn:Hs.
      * destruct (Hr eq_refl) as [c Hc]. unfold storeCaptureFile. rewrite Hc, !Hw. cbn [negb fmap option_fmap option_map default from_option].
        match goal with |- context [MkDisk (<[?p := _]> _) _] => set (path0 := p) end.
        destruct (IH (MkDisk (<[path0 := cr_Message c]> (files d)) (writable d)) Hw) as (d' & E & Ew & H1 & H2). rewrite E. exists d'.
        assert (path0 = entry_path id r e) as Ep by (unfold entry_path; by rewrite Hc). split_and!; [done|done|..].
        -- intros path (_ & e' & [-> |He']%elem_of_cons & Hf' & ->).
           ++ destruct (decide (Exists (λ e', result_for r (ct_Spec e') = true ∧ entry_path id r e = entry_path id r e') es)) as [Hex|Hno].
              ** apply Exists_exists in Hex as (e2 & He2 & Hf2 & E2). rewrite H1 by (by split; [|exists e2]). by rewrite Hc.
              ** rewrite H2; [cbn; rewrite <- Ep; by rewrite lookup_insert_eq|].
                 intros (_ & e2 & He2 & Hf2 & E2). apply Hno, Exists_exists. by exists e2.
           ++ rewrite H1 by (by split; [|exists e']). by rewrite Hc.
        -- intros path Hno. rewrite H2.
           ++ cbn. rewrite lookup_insert_ne; [done|]. intros <-. apply Hno. split; [done|]. exists e. rewrite elem_of_cons. auto.
           ++ intros (_ & e2 & He2 & Hf2 & ->). apply Hno. split; [done|]. exists e2. rewrite elem_of_cons. auto.
      * destruct (IH d Hw) as (d' & E & Ew & H1 & H2). rewrite E. exists d'. split_and!; [done|done|intros path [? _]; congruence|].
        intros path _. apply H2. intros [? _]. congruence.
    + destruct (IH d Hw) as (d' & E & Ew & H1 & H2). rewrite E. exists d'. split_and!; [done|done|..].
      * intros path (Hs & e' & [-> |He']%elem_of_cons & Hf' & ->); [congruence|]. apply H1. split; [done|]. by exists e'.
      * intros path Hno. apply H2. intros (Hs & e' & He' & Hf' & ->). apply Hno. split; [done|]. exists e'. rewrite elem_of_cons. auto.
Qed.

(** Storing a capture's result.  For a request whose entries are
    stored, and files that can be written, the result changes the entries it
    is for and no others: to "failed" with the agent's message, or to
    "success" with the name of a file; the file of each of these holds the
    captured bytes, and no other file changes.  Entries of other requests do
    not change, nor anything if the request's entries are not stored yet. *)
Theorem capture_stored (captureTasks : gmap Z (list CaptureTaskResult)) (d : disk) (r : TaskResult) (id : Z)
    (Hid : 0 <= id < 2 ^ 63) (Er : tr_Id r = idText id) (Ht : tr_Type r = Capture)
    (Hw : ∀ p, writable d p = true) (Hr : tr_Success r = true -> is_Some (GetCapture r)) :
  ∃ d', storeCaptureResult captureTasks d r = (alter (fmap (update_entry id r)) id captureTasks, d', Ok ()) ∧
    ∀ path, let es := default [] (captureTasks !! id) in
      (written id r es path -> files d' !! path = cr_Message <$> GetCapture r) ∧
      (¬ written id r es path -> files d' !! path = files d !! path).
Proof.
  unfold storeCaptureResult. rewrite Er. unfold idText. rewrite (proj2 (Z.ltb_ge id 0)), Atoi_dec by lia. cbn [value].
  destruct (captureTasks !! id) as [es|] eqn:E.
  - rewrite bool_decide_eq_true_2 by done. destruct (store_all_exact d id r es Hw Hr) as (d' & -> & _ & H1 & H2).
    exists d'. split; [|intros path; split; [apply H1|apply H2]]. f_equal. f_equal. apply map_eq. intros k.
    destruct (decide (k = id)) as [->|Hne]; [by rewrite lookup_insert_eq, lookup_alter_eq, E|by rewrite lookup_insert_ne, lookup_alter_ne].
  - exists d. split; [|intros path; split; [by intros (_ & e & He%elem_of_nil & _)|done]]. f_equal. f_equal. apply map_eq. intros k.
    destruct (decide (k = id)) as [->|Hne]; [by rewrite lookup_alter_eq, E|by rewrite lookup_alter_ne].
Qed.

Definition ex_capture (pod : option PodInfo) (node : string) : CaptureInfo := MkCaptureInfo pod (Some node) EmptyString (if pod then "Pod" else "Node") 10.
Definition ex_entries : list CaptureTaskResult :=
  captureRunning 7 <$> [ex_capture None "web"; ex_capture (Some (MkPodInfo "web" "default" false)) "n1"; ex_capture None "n2"].
Definition ex_capture_result (c : CaptureInfo) : TaskResult :=
  MkTaskResult "7" Capture true "success" (Some c) (Some (Result_Capture (MkCaptureResult "pcap" [1; 2; 3]))).
Lemma capture_stored_witness :
  ∃ d', storeCaptureResult {[7 := ex_entries]} (MkDisk ∅ (λ _, true)) (ex_capture_result (ex_capture None "n2")) =
    (alter (fmap (update_entry 7 (ex_capture_result (ex_capture None "n2")))) 7 {[7 := ex_entries]}, d', Ok ()) ∧
    files d' !! "/tmp/task_7/capture_task_7_node_n2.pcap"%string = Some [1; 2; 3].
Proof.
  destruct (capture_stored {[7 := ex_entries]} (MkDisk ∅ (λ _, true)) (ex_capture_result (ex_capture None "n2")) 7) as (d' & E & Hf);
    [lia|reflexivity|done|done|by eexists|]. exists d'. split; [done|]. rewrite (proj1 (Hf _)); [reflexivity|].
  split; [done|]. exists (captureRunning 7 (ex_capture None "n2")). split_and!; [|reflexivity|vm_compute; reflexivity].
  rewrite lookup_singleton_eq. cbn. rewrite !elem_of_cons. auto.
Defined.
(** The result of a node's capture is also taken for a pod of the same name in
    the request. *)
Example capture_mixed :
  ct_Status <$> (update_entry 7 (ex_capture_result (ex_capture None "web")) <$> ex_entries) = ["success"; "success"; "running"]%string.
Proof. reflexivity. Qed.
End TaskController.
