(* ===== verification/TaskAgent.v ===== *)
(** src/pkg/exporter/task-agent: what an agent does with a task (ping.go,
    capture.go), and its retries (agent.go).

    Commands are texts handed to a shell; what they print or fail with is a
    parameter.  The theorems are about what a ping task uploads: ping's summary
    is found wherever it stands, and the numbers uploaded are the printed ones
    up to the rounding of their formats. *)

From Stdlib Require Import Ascii.
From S2P Require Import Prelude GoStrings GoResult GoFloat TaskController.

Module TaskAgent.
Import TaskController.

(** ** Ping *)

(** An entity of the nettop cache, as far as tasks use it. *)
Record Entity := MkEntity { en_Namespace : string; en_Name : string; en_Pid : Z }.
(** The last entity of the pod: the loop does not stop at the first. *)
Definition podEntry (entries : list Entity) (pod : PodInfo) : option Entity :=
  foldl (λ found e, if String.eqb (en_Namespace e) (pod_Namespace pod) && String.eqb (en_Name e) (pod_Name pod) then Some e else found)
    None entries.

(** What a shell command gives: its output and the text of its error. *)
Record ran := MkRan { output : string; error : option string }.

Definition pingCommand (entries : list Entity) (task : PingInfo) : string + string :=
  let plain := ("ping -A -c 100 -q -n " ++ pi_Destination task)%string in
  match pi_Pod task with
  | Some pod =>
      if pod_HostNetwork pod then inr plain
      else match podEntry entries pod with
           | None => inl "pod not found on nettop cache"%string
           | Some e => inr ("nsenter -t " ++ idText (en_Pid e) ++ " -n -- " ++ plain)%string
           end
  | None => inr plain
  end.
Definition ping (entries : list Entity) (sh : string -> ran) (task : PingInfo) : string + string :=
  match pingCommand entries task with
  | inl e => inl e
  | inr cmd =>
      match error (sh cmd) with
      | Some e => inl ("error running command: " ++ e ++ ", output: " ++ output (sh cmd))%string
      | None => inr (output (sh cmd))
      end
  end.

(** The regular expression of the summary.  The alternatives of a number are
    digits with a point and digits; and digits.  What follows a number in the
    expression is no digit and no point, so the longest text is the only
    candidate at each place. *)
Definition number (s : string) : option (string * string * string) :=
  let '(whole, s1) := digits s in
  match s1 with
  | String "." s2 =>
      let '(frac, s3) := digits s2 in
      if String.eqb frac EmptyString then None else Some (whole, frac, s3)
  | _ => if String.eqb whole EmptyString then None else Some (whole, EmptyString, s1)
  end.
Definition summary_at (s : string) : option (list (string * string)) :=
  s ← strip "round-trip min/avg/max = " s;
  '(w1, f1, s) ← number s; s ← strip "/" s;
  '(w2, f2, s) ← number s; s ← strip "/" s;
  '(w3, f3, s) ← number s; _ ← strip " ms" s;
  Some [(w1, f1); (w2, f2); (w3, f3)].
Fixpoint FindStringSubmatch (s : string) : option (list (string * string)) :=
  match summary_at s with
  | Some groups => Some groups
  | None => match s with EmptyString => None | String _ s' => FindStringSubmatch s' end
  end.

Definition getLatency (pingResult : string) : option (float * float * float) :=
  match FindStringSubmatch pingResult with
  | Some [(w1, f1); (w2, f2); (w3, f3)] =>
      min ← ParseFloat w1 f1; avg ← ParseFloat w2 f2; max ← ParseFloat w3 f3; Some (min, avg, max)
  | _ => None
  end.

Definition failed (id : string) (ty : TaskType) (task : option CaptureInfo) (err : string) : TaskResult :=
  MkTaskResult id ty false ("failed to run command: " ++ err)%string task None.

(** [ProcessPing]: the result it uploads.  The text of an error of
    [getLatency] is given by the caller. *)
Definition ProcessPing (entries : list Entity) (sh : string -> ran) (parse_error : string -> string) (t : Task) (p : PingInfo) : TaskResult :=
  match ping entries sh p with
  | inl err => failed (t_Id t) (t_Type t) None err
  | inr out =>
      match getLatency out with
      | None => failed (t_Id t) (t_Type t) None (parse_error out)
      | Some (lMin, lAvg, lMax) =>
          MkTaskResult (t_Id t) (t_Type t) true "success" None
            (Some (Result_Ping (MkPingResult (narrow lMax) (narrow lAvg) (narrow lMin))))
      end
  end.

(** ** Captures *)

Record capture := MkCapture { captureCommand : string; captureFile : string; timeout : Z }.
Definition dumpCommand (prefix file filter : string) : string :=
  (prefix ++ " tcpdump -i any -C 100 -w " ++ file ++ " " ++ filter)%string.
Definition generateCaptures (entries : list Entity) (id : string) (task : CaptureInfo) : result string (list capture) :=
  let seconds := ci_Duration task * 10 ^ 9 in
  match ci_Pod task with
  | Some pod =>
      if pod_HostNetwork pod then
        node ← deref (ci_Node task); let file := ("/tmp/" ++ id ++ "_" ++ node ++ "_host.pcap")%string in
        Ok [MkCapture (dumpCommand EmptyString file (ci_Filter task)) file seconds]
      else match podEntry entries pod with
           | None => Err "pod not found on nettop cache"%string
           | Some e =>
               let file := ("/tmp/" ++ id ++ "_" ++ pod_Namespace pod ++ "_" ++ pod_Name pod ++ "_pod.pcap")%string in
               Ok [MkCapture (dumpCommand ("nsenter -t " ++ idText (en_Pid e) ++ " -n --") file (ci_Filter task)) file seconds]
           end
  | None =>
      node ← deref (ci_Node task); let file := ("/tmp/" ++ id ++ "_" ++ node ++ "_host.pcap")%string in
      Ok [MkCapture (dumpCommand EmptyString file (ci_Filter task)) file seconds]
  end.

(** The error that one command of [execute] leaves.  Its waiting for the
    process and the process' reaping race; [sh] is what the race gives. *)
Definition capture_error (sh : string -> ran) (c : capture) : option string :=
  e ← error (sh (captureCommand c));
  if ContainsText "no child processes" e then None
  else Some ("error running command: " ++ e ++ ", output: " ++ output (sh (captureCommand c)))%string.
(** [execute] for the one capture that [generateCaptures] makes; [cat] is what
    reading the file gives, or the error. *)
Definition execute (sh : string -> ran) (cat : string -> string + list Z) (c : capture) : string + string * list Z :=
  match capture_error sh c with
  | Some e => inl e
  | None =>
      match cat (captureFile c) with
      | inl e => inl ("failed to get capture result: " ++ e)%string
      | inr bytes => inr ("pcap"%string, bytes)
      end
  end.
Definition ProcessCapture (entries : list Entity) (sh : string -> ran) (cat : string -> string + list Z) (t : Task) (c : CaptureInfo) : result Empty_set TaskResult :=
  match generateCaptures entries (t_Id t) c with
  | Panic => Panic
  | Err err => Ok (failed (t_Id t) (t_Type t) (Some c) err)
  | Ok [cap] =>
      Ok match execute sh cat cap with
         | inl err => failed (t_Id t) (t_Type t) (Some c) err
         | inr (fileType, bytes) =>
             MkTaskResult (t_Id t) (t_Type t) true "success" (Some c) (Some (Result_Capture (MkCaptureResult fileType bytes)))
         end
  | Ok _ => Panic
  end.

(** ** Retries

    [retry]: the delays in seconds before the attempts after the first, until
    an attempt succeeds or the limit is reached; a limit of 0 or less is none.
    The attempts' outcomes are given as a list. *)
Inductive retried := Succeeded | GaveUp (attempts : Z) | StillTrying.
Fixpoint retry_loop (maxAttempts attempts backoff : Z) (work : list bool) : list Z * retried :=
  match work with
  | [] => ([], StillTrying)
  | true :: _ => ([], Succeeded)
  | false :: work' =>
      let attempts := attempts + 1 in
      if (0 <? maxAttempts) && (maxAttempts <=? attempts) then ([], GaveUp attempts)
      else
        let backoff := if 10 <? backoff * 2 then 10 else backoff * 2 in
        let '(delays, r) := retry_loop maxAttempts attempts backoff work' in (backoff :: delays, r)
  end.
Definition retry (maxAttempts : Z) (work : list bool) : list Z * retried := retry_loop maxAttempts 0 1 work.

(** ** Properties *)

(** A number as ping prints it: digits, or digits, a point and digits. *)
Definition number_text (n : string * string) : string :=
  if String.eqb n.2 EmptyString then n.1 else (n.1 ++ String "." n.2)%string.
Definition printed (n : string * string) : Prop :=
  digit_text n.1 ∧ digit_text n.2 ∧ (n.1 ≠ EmptyString ∨ n.2 ≠ EmptyString).
Definition summary_text (min avg max : string * string) (rest : string) : string :=
  ("round-trip min/avg/max = " ++ number_text min ++ "/" ++ number_text avg ++ "/" ++ number_text max ++ " ms" ++ rest)%string.

Lemma number_app (n : string * string) (c : ascii) (s : string) :
  printed n -> is_digit c = false -> c ≠ "."%char -> number (number_text n ++ String c s) = Some (n.1, n.2, String c s).
Proof.
  intros (Hw & Hf & Hne) Hc Hdot. unfold number_text, number. destruct (String.eqb_spec n.2 EmptyString) as [E|E].
  - rewrite digits_app by done. rewrite E. destruct (String.eqb_spec n.1 EmptyString) as [E1|]; [by destruct Hne|].
    destruct c as [[] [] [] [] [] [] [] []]; try done.
  - rewrite string_assoc, append_cons, digits_app by done. rewrite digits_app by done.
    by destruct (String.eqb_spec n.2 EmptyString).
Qed.
Lemma number_slash (n : string * string) (s : string) : printed n -> number (number_text n ++ "/" ++ s)%string = Some (n.1, n.2, ("/" ++ s)%string).
Proof. intros Hn. exact (number_app n "/" s Hn eq_refl ltac:(done)). Qed.
Lemma number_ms (n : string * string) (s : string) : printed n -> number (number_text n ++ " ms" ++ s)%string = Some (n.1, n.2, (" ms" ++ s)%string).
Proof. intros Hn. exact (number_app n " " ("ms" ++ s)%string Hn eq_refl ltac:(done)). Qed.
Lemma summary_at_text (a b c : string * string) (rest : string) :
  printed a -> printed b -> printed c -> summary_at (summary_text a b c rest) = Some [a; b; c].
Proof.
  intros Ha Hb Hc. unfold summary_at, summary_text. rewrite strip_app. cbn [mbind option_bind].
  rewrite number_slash by done. cbn [mbind option_bind]. rewrite strip_app. cbn [mbind option_bind].
  rewrite number_slash by done. cbn [mbind option_bind]. rewrite strip_app. cbn [mbind option_bind].
  rewrite number_ms by done. cbn [mbind option_bind]. rewrite strip_app. cbn [mbind option_bind]. by destruct a, b, c.
Qed.

(** No summary begins in [pre]. *)
Fixpoint no_summary (pre rest : string) : Prop :=
  match pre with EmptyString => True | String _ pre' => summary_at (pre ++ rest) = None ∧ no_summary pre' rest end.
Lemma find_summary (pre rest : string) (groups : list (string * string)) :
  no_summary pre rest -> summary_at rest = Some groups -> FindStringSubmatch (pre ++ rest) = Some groups.
Proof.
  intros Hno Hs. induction pre as [|c pre IH].
  - rewrite append_nil. destruct rest; cbn [FindStringSubmatch]; by rewrite Hs.
  - destruct Hno as [Hn Hno]. rewrite append_cons in *. cbn [FindStringSubmatch]. rewrite Hn. by apply IH.
Qed.

Lemma digits_value_some (s : string) (n : Z) : digit_text s -> 0 <= n -> ∃ v, digits_value n s = Some v ∧ n * 10 ^ Z.of_nat (String.length s) <= v < (n + 1) * 10 ^ Z.of_nat (String.length s).
Proof.
  unfold digit_text, free_of. revert n. induction s as [|c s IH]; intros n Hs Hn; cbn [exists_char digits_value String.length] in *.
  - exists n. split; [done|]. lia.
  - apply orb_false_iff in Hs as [Hc Hs]. apply negb_false_iff in Hc. unfold is_digit in Hc. unfold digit. rewrite Hc.
    apply andb_true_iff in Hc as [H1%Z.leb_le H2%Z.leb_le]. rewrite (proj2 (Z.ltb_lt (code c - 48) 10)) by lia.
    destruct (IH (10 * n + (code c - 48)) Hs ltac:(lia)) as (v & E & Hv). exists v. split; [done|].
    rewrite Nat2Z.inj_succ, Z.pow_succ_r by lia. assert (0 < 10 ^ Z.of_nat (String.length s)) by (apply Z.pow_pos_nonneg; lia). nia.
Qed.
Lemma digit_text_app (a b : string) : digit_text a -> digit_text b -> digit_text (a ++ b).
Proof. intros Ha Hb. by apply free_of_app. Qed.
Lemma length_append (a b : string) : String.length (a ++ b) = (String.length a + String.length b)%nat.
Proof. induction a as [|x a IH]; [done|]. rewrite append_cons. cbn [String.length]. rewrite IH. lia. Qed.

(** The fraction that a printed number stands for, and the numbers that are
    not too long. *)
Definition short (n : string * string) : Prop := (String.length n.1 <= 30 ∧ String.length n.2 <= 30)%nat.
(** The 32-bit number [y] is what is reported for the printed number: 0 for 0,
    and otherwise at most one part in [2 ^ 23] off. *)
Definition shows (n : string * string) (y : float) : Prop :=
  ∃ v d, decimal n.1 n.2 = Some (v, d) ∧ if v =? 0 then y = Fin 0 0 else near 23 v d y.

Lemma ParseFloat_shows (n : string * string) : printed n -> short n -> ∃ x, ParseFloat n.1 n.2 = Some x ∧ shows n (narrow x).
Proof.
  intros (Hw & Hf & _) [H1 H2]. destruct (digits_value_some (n.1 ++ n.2) 0) as (v & E & Hv); [by apply digit_text_app|done|].
  unfold ParseFloat, shows, decimal. rewrite E. cbn [mbind option_bind]. set (d := 10 ^ Z.of_nat (String.length n.2)) in *.
  assert (0 < d <= 10 ^ 30) as Hd. { unfold d. split; [apply Z.pow_pos_nonneg; lia|apply Z.pow_le_mono_r; lia]. }
  destruct (Z.eqb_spec v 0) as [->|Hv0].
  - exists (Fin 0 0). split; [done|]. exists 0, d. done.
  - assert (-110 <= Z.log2 v - Z.log2 d <= 110) as Hl.
    { assert (v < 10 ^ 30 * d) as Hlt.
      { rewrite length_append, Nat2Z.inj_add, Z.pow_add_r in Hv by lia. assert (10 ^ Z.of_nat (String.length n.1) <= 10 ^ 30) by (apply Z.pow_le_mono_r; lia).
        fold d in Hv. nia. }
      pose proof (Z.log2_le_mono v (10 ^ 30 * d) ltac:(lia)) as L1. pose proof (Z.log2_mul_above (10 ^ 30) d ltac:(lia) ltac:(lia)) as L2.
      pose proof (Z.log2_le_mono d (10 ^ 30) ltac:(lia)) as L3. pose proof (Z.log2_nonneg v). change (Z.log2 (10 ^ 30)) with 99 in *. lia. }
    destruct (near_narrow v d ltac:(lia) ltac:(lia) Hl) as (x & Ex & Hx & Hn). exists x. rewrite Ex. split; [by destruct x|].
    exists v, d. split; [done|]. by rewrite (proj2 (Z.eqb_neq v 0)).
Qed.

Lemma getLatency_read (pre rest : string) (min avg max : string * string) :
  printed min ∧ short min -> printed avg ∧ short avg -> printed max ∧ short max -> no_summary pre (summary_text min avg max rest) ->
  ∃ a b c, getLatency (pre ++ summary_text min avg max rest) = Some (a, b, c) ∧
    shows min (narrow a) ∧ shows avg (narrow b) ∧ shows max (narrow c).
Proof.
  intros Hmin Havg Hmax Hpre.
  destruct (ParseFloat_shows min) as (a & Ea & Sa); [tauto..|]. destruct (ParseFloat_shows avg) as (b & Eb & Sb); [tauto..|].
  destruct (ParseFloat_shows max) as (c & Ec & Sc); [tauto..|]. exists a, b, c. split; [|done]. unfold getLatency.
  rewrite (find_summary _ _ [min; avg; max]); [|done|apply summary_at_text; tauto].
  destruct min, avg, max. cbn [fst snd] in *. rewrite Ea. cbn [mbind option_bind]. rewrite Eb. cbn [mbind option_bind]. by rewrite Ec.
Qed.

(** C31: what an agent uploads for a ping task.  If the pod of the task, if it
    has one outside the host network, is known, and the command succeeds and
    prints the summary line of ping, with numbers of at most 30 digits before
    and 30 after the point, anywhere after text in which no summary begins, then
    the agent uploads a success under the task's id, and the maximum, the
    average and the minimum in it, each read to 64 bits and narrowed to 32,
    differ from the printed number by at most one part in 2^23 (and are 0 for
    0).  If the command fails, the agent uploads a failure with the command's
    error and output. *)
Theorem latency_read (entries : list Entity) (sh : string -> ran) (parse_error : string -> string) (t : Task) (p : PingInfo)
    (cmd : string) (Hcmd : pingCommand entries p = inr cmd) :
  (∀ pre rest min avg max, printed min ∧ short min -> printed avg ∧ short avg -> printed max ∧ short max ->
   no_summary pre (summary_text min avg max rest) -> error (sh cmd) = None -> output (sh cmd) = (pre ++ summary_text min avg max rest)%string ->
   ∃ lMax lAvg lMin, ProcessPing entries sh parse_error t p =
       MkTaskResult (t_Id t) (t_Type t) true "success" None (Some (Result_Ping (MkPingResult lMax lAvg lMin))) ∧
     shows max lMax ∧ shows avg lAvg ∧ shows min lMin) ∧
  (∀ e, error (sh cmd) = Some e ->
   ProcessPing entries sh parse_error t p = MkTaskResult (t_Id t) (t_Type t) false
     ("failed to run command: error running command: " ++ e ++ ", output: " ++ output (sh cmd))%string None None).
Proof.
  unfold ProcessPing, ping. rewrite Hcmd. split.
  - intros pre rest min avg max Hmin Havg Hmax Hpre He Ho. rewrite He, Ho.
    destruct (getLatency_read pre rest min avg max Hmin Havg Hmax Hpre) as (a & b & c & -> & Ha & Hb & Hc). eauto 10.
  - intros e He. by rewrite He.
Qed.

Lemma latency_read_witness :
  let sh (_ : string) := MkRan "100 packets transmitted
round-trip min/avg/max = 43.689/43.720/43.809 ms" None in
  ∃ lMax lAvg lMin, ProcessPing [] sh (λ s, s) (MkTask Ping "7" (Task_Ping (MkPingInfo None None "10.0.0.1"))) (MkPingInfo None None "10.0.0.1") =
      MkTaskResult "7" Ping true "success" None (Some (Result_Ping (MkPingResult lMax lAvg lMin))) ∧
    shows ("43", "809")%string lMax ∧ shows ("43", "720")%string lAvg ∧ shows ("43", "689")%string lMin.
Proof.
  intros sh. refine (proj1 (latency_read [] sh (λ s, s) (MkTask Ping "7" (Task_Ping (MkPingInfo None None "10.0.0.1"))) (MkPingInfo None None "10.0.0.1") _ eq_refl)
    "100 packets transmitted
"%string EmptyString ("43", "689")%string ("43", "720")%string ("43", "809")%string _ _ _ _ eq_refl eq_refl).
  1-3: split; [split_and!; [reflexivity|reflexivity|by left]|split; cbn; lia].
  repeat split.
Defined.

(** ** Retries *)

Lemma retry_loop_delays (maxAttempts attempts backoff : Z) (work : list bool) :
  1 <= backoff <= 10 -> Forall (λ d, 2 <= d <= 10) (retry_loop maxAttempts attempts backoff work).1.
Proof.
  revert attempts backoff. induction work as [|[] work IH]; intros attempts backoff Hb; cbn [retry_loop]; try constructor.
  cbv zeta. destruct (_ && _); [constructor|].
  assert (2 <= (if 10 <? backoff * 2 then 10 else backoff * 2) <= 10) as Hb' by (destruct (Z.ltb_spec 10 (backoff * 2)); lia).
  set (b := if 10 <? backoff * 2 then 10 else backoff * 2) in *. specialize (IH (attempts + 1) b ltac:(lia)).
  destruct (retry_loop maxAttempts (attempts + 1) b work) as [ds r]. by constructor.
Qed.
Lemma retry_loop_limit (maxAttempts attempts backoff : Z) (work : list bool) (n : Z) :
  0 <= attempts < maxAttempts -> (retry_loop maxAttempts attempts backoff work).2 = GaveUp n ->
  n = maxAttempts ∧ ∃ rest, work = replicate (Z.to_nat (maxAttempts - attempts)) false ++ rest.
Proof.
  revert attempts backoff. induction work as [|[] work IH]; intros attempts backoff Ha; cbn [retry_loop]; try done.
  cbv zeta. rewrite (proj2 (Z.ltb_lt 0 maxAttempts)) by lia. cbn [andb]. destruct (Z.leb_spec maxAttempts (attempts + 1)).
  - intros [= <-]. split; [lia|]. exists work. replace (Z.to_nat (maxAttempts - attempts)) with 1%nat by lia. done.
  - set (b := if 10 <? backoff * 2 then 10 else backoff * 2). specialize (IH (attempts + 1) b ltac:(lia)).
    destruct (retry_loop maxAttempts (attempts + 1) b work) as [ds r]. intros Hr. destruct (IH Hr) as (-> & rest & ->). split; [done|].
    exists rest. replace (Z.to_nat (maxAttempts - attempts)) with (S (Z.to_nat (maxAttempts - (attempts + 1)))) by lia. done.
Qed.
(** Retries wait between 2 and 10 seconds, and give up after exactly the
    allowed number of failures, if there is a limit. *)
Theorem retry_bounded (maxAttempts n : Z) (work : list bool) :
  Forall (λ d, 2 <= d <= 10) (retry maxAttempts work).1 ∧
  (0 < maxAttempts -> (retry maxAttempts work).2 = GaveUp n -> n = maxAttempts ∧ ∃ rest, work = replicate (Z.to_nat maxAttempts) false ++ rest) ∧
  (maxAttempts <= 0 -> (retry maxAttempts work).2 ≠ GaveUp n).
Proof.
  split_and!; [apply retry_loop_delays; lia|..]; unfold retry.
  - intros Hm Hr. apply retry_loop_limit in Hr as [-> Hr]; [|lia]. split; [done|]. by rewrite Z.sub_0_r in Hr.
  - intros Hm. generalize 0 at 1 as attempts. generalize 1 as backoff. induction work as [|[] work IH]; intros backoff attempts; cbn [retry_loop]; try done.
    cbv zeta. rewrite (proj2 (Z.ltb_ge 0 maxAttempts)) by lia. cbn [andb].
    set (b := if 10 <? backoff * 2 then 10 else backoff * 2). specialize (IH b (attempts + 1)).
    by destruct (retry_loop maxAttempts (attempts + 1) b work).
Qed.
End TaskAgent.
