(* ===== verification/TaskSystem.v ===== *)
(** The controller's task service and the agents as one system: the streams
    of [WatchTasks], the requests [PingMesh] and [Capture], the goroutines
    that wait for results, the agents' goroutines and their uploads
    (src/pkg/controller/service, src/pkg/exporter/task-agent).

    A state holds every goroutine with the point it has reached; a label names
    one goroutine's next atomic action and what its environment answers, so a
    run is a list of labels and every interleaving is one.  Channels and
    sync.Maps are explicit; a send to a full channel is not enabled, and a
    send to or a close of a closed channel panics.

    The theorems: with agents that answer a task once nothing panics, and a
    ping mesh's latencies are, task by task, what an agent's ping printed or
    the value for "unreachable"; the request returns after its deadline unless
    a send to a stream blocks it; and, as runs, the results that get lost and
    the request that never returns. *)

From S2P Require Import Prelude GoStrings GoResult GoFloat TaskController TaskAgent.

Module TaskSystem.
Import TaskController TaskAgent.

(** ** State *)

(** A call of [WatchTasks]: [Leaving] is between the end of its loop and the
    deferred Delete.  [wire] is what was sent and not yet received. *)
Inductive stream_phase := Watching | Leaving | Gone.
#[global] Instance stream_phase_eq_dec : EqDecision stream_phase.
Proof. solve_decision. Defined.
Record stream := MkStream { s_filter : TaskFilter; s_phase : stream_phase; s_done : bool; s_chan : option Task; s_wire : list Task }.

(** A goroutine of [dispatchPingTask] in [waitTaskResult], with the channel
    that it makes. *)
Inductive wait_phase := W_Start | W_Select | W_Return (o : waited) | W_Report (o : waited) | W_Finish (o : waited) | W_Done (o : waited).
Record waiter := MkWaiter {
  w_mesh : nat; w_src : NodeInfo; w_dst : NodeInfo; w_id : string; w_phase : wait_phase; w_chan : option TaskResult; w_closed : bool;
}.

(** A call of [PingMesh].  [M_Send k]: about to send on the channel of stream
    [k].  [m_err] is what the last call of [dispatchPingTask] returned. *)
Inductive mesh_pc :=
| M_Loop (todo : list (NodeInfo * NodeInfo))
| M_Dispatch (src dst : NodeInfo) (id : string) (todo : list (NodeInfo * NodeInfo))
| M_Send (k : nat) (src dst : NodeInfo) (task : Task) (todo : list (NodeInfo * NodeInfo))
| M_Done (res : result (option task_err) (gset NodeInfo * list Latency)).
Record mesh := MkMesh {
  m_srcs : list NodeInfo; m_dsts : list NodeInfo; m_pc : mesh_pc; m_done : bool;
  m_group : nat; m_chan : list Latency; m_err : option task_err;
}.

(** A call of [Capture]. *)
Inductive capture_pc := C_Loop (todo : list CaptureInfo) | C_Send (k : nat) (c : CaptureInfo) (todo : list CaptureInfo) | C_Done (res : result task_err Z).
Record capturing := MkCapturing { c_id : Z; c_pc : capture_pc; c_results : list CaptureTaskResult }.

(** An agent's goroutine: running the command, then its call of
    [UploadTaskResult], which found the channel of waiter [w]. *)
Inductive job := J_Run (t : Task) | J_Upload (r : TaskResult) | J_Send (w : nat) (r : TaskResult) | J_Close (w : nat) (r : TaskResult) | J_Done.

Record system := MkSystem {
  taskIdx : Z; streams : list stream; resultWatchers : gmap string nat; captureTasks : gmap Z (list CaptureTaskResult); fs : disk;
  meshes : list mesh; waiters : list waiter; captures : list capturing; jobs : list job; panicked : bool;
}.
Definition init (d : disk) : system := MkSystem 0 [] ∅ ∅ d [] [] [] [] false.

Definition set_idx (x : Z) (s : system) : system :=
  MkSystem x (streams s) (resultWatchers s) (captureTasks s) (fs s) (meshes s) (waiters s) (captures s) (jobs s) (panicked s).
Definition set_streams (x : list stream) (s : system) : system :=
  MkSystem (taskIdx s) x (resultWatchers s) (captureTasks s) (fs s) (meshes s) (waiters s) (captures s) (jobs s) (panicked s).
Definition set_watchers (x : gmap string nat) (s : system) : system :=
  MkSystem (taskIdx s) (streams s) x (captureTasks s) (fs s) (meshes s) (waiters s) (captures s) (jobs s) (panicked s).
Definition set_store (x : gmap Z (list CaptureTaskResult)) (d : disk) (s : system) : system :=
  MkSystem (taskIdx s) (streams s) (resultWatchers s) x d (meshes s) (waiters s) (captures s) (jobs s) (panicked s).
Definition set_meshes (x : list mesh) (s : system) : system :=
  MkSystem (taskIdx s) (streams s) (resultWatchers s) (captureTasks s) (fs s) x (waiters s) (captures s) (jobs s) (panicked s).
Definition set_waiters (x : list waiter) (s : system) : system :=
  MkSystem (taskIdx s) (streams s) (resultWatchers s) (captureTasks s) (fs s) (meshes s) x (captures s) (jobs s) (panicked s).
Definition set_captures (x : list capturing) (s : system) : system :=
  MkSystem (taskIdx s) (streams s) (resultWatchers s) (captureTasks s) (fs s) (meshes s) (waiters s) x (jobs s) (panicked s).
Definition set_jobs (x : list job) (s : system) : system :=
  MkSystem (taskIdx s) (streams s) (resultWatchers s) (captureTasks s) (fs s) (meshes s) (waiters s) (captures s) x (panicked s).
Definition panic (s : system) : system :=
  MkSystem (taskIdx s) (streams s) (resultWatchers s) (captureTasks s) (fs s) (meshes s) (waiters s) (captures s) (jobs s) true.

Definition with_pc (m : mesh) (pc : mesh_pc) : mesh := MkMesh (m_srcs m) (m_dsts m) pc (m_done m) (m_group m) (m_chan m) (m_err m).
Definition with_err (m : mesh) (e : task_err) (pc : mesh_pc) : mesh := MkMesh (m_srcs m) (m_dsts m) pc (m_done m) (m_group m) (m_chan m) (Some e).
Definition with_wait (w : waiter) (p : wait_phase) : waiter := MkWaiter (w_mesh w) (w_src w) (w_dst w) (w_id w) p (w_chan w) (w_closed w).
Definition with_chan (w : waiter) (c : option TaskResult) (closed : bool) : waiter :=
  MkWaiter (w_mesh w) (w_src w) (w_dst w) (w_id w) (w_phase w) c closed.
Definition with_phase (st : stream) (p : stream_phase) : stream := MkStream (s_filter st) p (s_done st) (s_chan st) (s_wire st).

(** ** Labels and events *)

(** What an agent's machine answers to the commands of a task. *)
Record machine := MkMachine { entries : list Entity; sh : string -> ran; cat : string -> string + list Z; parse_error : string -> string }.

Inductive label :=
| Connect (f : TaskFilter)                    (* an agent calls WatchTasks *)
| StreamDone (k : nat)                        (* the stream's context is done *)
| StreamSend (k : nat) (ok : bool)            (* the loop takes a task and sends it *)
| StreamExit (k : nat)                        (* the loop sees that the context is done *)
| StreamLeave (k : nat)                       (* the deferred Delete *)
| AgentReceive (k : nat)
| AgentBreak (k : nat)                        (* what is on the wire is lost *)
| JobRun (j : nat) (env : machine)
| JobUpload (j : nat) (ok : bool)             (* the call reaches the controller, or not *)
| JobSend (j : nat) | JobClose (j : nat)
| PingMesh (srcs dsts : list NodeInfo)
| MeshNext (m : nat)                          (* next pair, or the end *)
| MeshDispatch (m : nat) (a1 a2 : api) (k : option nat) (* stream [k] accepts the task *)
| MeshSend (m : nat)
| MeshTimeout (m : nat)
| WaitStore (w : nat) | WaitReceive (w : nat) | WaitDone (w : nat) | WaitDelete (w : nat) | WaitReport (w : nat) | WaitFinish (w : nat)
| CaptureStart (a : api) (args : CaptureArgs)
| CaptureFind (c : nat) (k : option nat) | CaptureSend (c : nat) | CaptureStore (c : nat).

Inductive event :=
| Committed (m : nat) (src dst : NodeInfo) (t : Task)
| Pinged (t : Task) (env : machine) (r : TaskResult)
| Captured (t : Task) (r : TaskResult)
| Stored (r : TaskResult).

(** ** Steps

    [None]: the action is not enabled. *)

Abbreviation outcome := (option (system * list event)).
Definition goes (s : system) : outcome := Some (s, []).

Definition watching (st : stream) (node : string) (t : Task) : bool :=
  bool_decide (s_phase st ≠ Gone) && accepts (s_filter st) node t.
(** [commitTask]'s search: the stream that the Range stops at, or that there is
    none. *)
Definition found (s : system) (node : string) (t : Task) (k : option nat) : bool :=
  match k with
  | Some k => match streams s !! k with Some st => watching st node t | None => false end
  | None => negb (existsb (λ st, watching st node t) (streams s))
  end.

(** The send of [commitTask] on the channel of stream [k], of capacity 1. *)
Definition send_task (s : system) (k : nat) (t : Task) : option system :=
  st ← streams s !! k;
  match s_chan st with
  | Some _ => None
  | None => Some (set_streams (<[k := MkStream (s_filter st) (s_phase st) (s_done st) (Some t) (s_wire st)]> (streams s)) s)
  end.

Definition stream_step (k : nat) (f : stream -> option stream) (s : system) : outcome :=
  st ← streams s !! k; st ← f st; goes (set_streams (<[k := st]> (streams s)) s).
Definition stream_send (ok : bool) (st : stream) : option stream :=
  match s_phase st, s_chan st with
  | Watching, Some t =>
      Some (if ok then MkStream (s_filter st) Watching (s_done st) None (s_wire st ++ [t])
            else MkStream (s_filter st) Leaving (s_done st) None (s_wire st))
  | _, _ => None
  end.
Definition stream_exit (st : stream) : option stream :=
  match s_phase st with Watching => if s_done st then Some (with_phase st Leaving) else None | _ => None end.
Definition stream_leave (st : stream) : option stream := match s_phase st with Leaving => Some (with_phase st Gone) | _ => None end.

(** The agent's loop: every task gets a goroutine. *)
Definition agent_receive (s : system) (k : nat) : outcome :=
  st ← streams s !! k;
  match s_wire st with
  | t :: wire =>
      goes (set_jobs (jobs s ++ [J_Run t])
        (set_streams (<[k := MkStream (s_filter st) (s_phase st) (s_done st) (s_chan st) wire]> (streams s)) s))
  | [] => None
  end.

(** [ProcessTasks], to the call of [UploadTaskResult]. *)
Definition job_run (s : system) (j : nat) (t : Task) (env : machine) : outcome :=
  match t_Type t, t_Info t with
  | Ping, Task_Ping p =>
      let r := ProcessPing (entries env) (sh env) (parse_error env) t p in
      Some (set_jobs (<[j := J_Upload r]> (jobs s)) s, [Pinged t env r])
  | Capture, Task_Capture c =>
      match ProcessCapture (entries env) (sh env) (cat env) t c with
      | Ok r => Some (set_jobs (<[j := J_Upload r]> (jobs s)) s, [Captured t r])
      | _ => goes (set_jobs (<[j := J_Done]> (jobs s)) s)
      end
  | _, _ => goes (set_jobs (<[j := J_Done]> (jobs s)) s)
  end.
(** [UploadTaskResult], to the send. *)
Definition job_upload (s : system) (j : nat) (r : TaskResult) : outcome :=
  match resultWatchers s !! tr_Id r with
  | Some w => goes (set_jobs (<[j := J_Send w r]> (jobs s)) s)
  | None =>
      let s := set_jobs (<[j := J_Done]> (jobs s)) s in
      match tr_Type r with
      | Capture =>
          let '(caps, d, o) := storeCaptureResult (captureTasks s) (fs s) r in
          let s := set_store caps d s in
          Some (match o with Panic => panic s | _ => s end, [Stored r])
      | Ping => goes s
      end
  end.
Definition job_send (s : system) (j w : nat) (r : TaskResult) : outcome :=
  x ← waiters s !! w;
  if w_closed x then goes (panic s)
  else match w_chan x with
  | Some _ => None
  | None => goes (set_jobs (<[j := J_Close w r]> (jobs s)) (set_waiters (<[w := with_chan x (Some r) false]> (waiters s)) s))
  end.
Definition job_close (s : system) (j w : nat) : outcome :=
  x ← waiters s !! w;
  if w_closed x then goes (panic s)
  else goes (set_jobs (<[j := J_Done]> (jobs s)) (set_waiters (<[w := with_chan x (w_chan x) true]> (waiters s)) s)).
Definition job_step (l : label) (s : system) : outcome :=
  match l with
  | JobRun j env => x ← jobs s !! j; match x with J_Run t => job_run s j t env | _ => None end
  | JobUpload j ok =>
      x ← jobs s !! j;
      match x with
      | J_Upload r => if ok : bool then job_upload s j r else goes (set_jobs (<[j := J_Done]> (jobs s)) s)
      | _ => None
      end
  | JobSend j => x ← jobs s !! j; match x with J_Send w r => job_send s j w r | _ => None end
  | JobClose j => x ← jobs s !! j; match x with J_Close w r => job_close s j w | _ => None end
  | _ => None
  end.

(** [PingMesh] and [dispatchPingTask]. *)
Definition put_mesh (i : nat) (m : mesh) (s : system) : system := set_meshes (<[i := m]> (meshes s)) s.
Definition mesh_result (m : mesh) : result (option task_err) (gset NodeInfo * list Latency) :=
  match m_chan m with [] => Err (m_err m) | ls => Ok (mesh_nodes (m_srcs m) (m_dsts m), ls) end.
Definition mesh_next (s : system) (i : nat) (m : mesh) : outcome :=
  match m_pc m with
  | M_Loop ((src, dst) :: todo) =>
      let idx := nextTaskIdx (taskIdx s) in
      goes (put_mesh i (with_pc m (M_Dispatch src dst (idText idx) todo)) (set_idx idx s))
  | M_Loop [] => match m_group m with O => goes (put_mesh i (with_pc m (M_Done (mesh_result m))) s) | S _ => None end
  | _ => None
  end.
Definition mesh_dispatch (s : system) (i : nat) (m : mesh) (a1 a2 : api) (k : option nat) : outcome :=
  match m_pc m with
  | M_Dispatch src dst id todo =>
      match pingTask a1 a2 src dst id with
      | Err e => goes (put_mesh i (with_err m e (M_Loop todo)) s)
      | Ok (src, t) =>
          if found s (ni_Nodename src) t k then
            goes (put_mesh i match k with Some k => with_pc m (M_Send k src dst t todo) | None => with_err m ErrNoClient (M_Loop todo) end s)
          else None
      | Panic => None
      end
  | _ => None
  end.
Definition mesh_send (s : system) (i : nat) (m : mesh) : outcome :=
  match m_pc m with
  | M_Send k src dst t todo =>
      s ← send_task s k t;
      let m := MkMesh (m_srcs m) (m_dsts m) (M_Loop todo) (m_done m) (S (m_group m)) (m_chan m) None in
      Some (put_mesh i m (set_waiters (waiters s ++ [MkWaiter i src dst (t_Id t) W_Start None false]) s), [Committed i src dst t])
  | _ => None
  end.
Definition mesh_step (l : label) (s : system) : outcome :=
  match l with
  | MeshNext i => m ← meshes s !! i; mesh_next s i m
  | MeshDispatch i a1 a2 k => m ← meshes s !! i; mesh_dispatch s i m a1 a2 k
  | MeshSend i => m ← meshes s !! i; mesh_send s i m
  | MeshTimeout i =>
      m ← meshes s !! i; goes (put_mesh i (MkMesh (m_srcs m) (m_dsts m) (m_pc m) true (m_group m) (m_chan m) (m_err m)) s)
  | _ => None
  end.

(** The goroutine of a dispatched ping; the latency channel has room for every
    pair. *)
Definition put_waiter (i : nat) (w : waiter) (s : system) : system := set_waiters (<[i := w]> (waiters s)) s.
Definition wait_receive (w : waiter) : option waiter :=
  match w_chan w with
  | Some r => Some (with_wait (with_chan w None (w_closed w)) (W_Return (Received r)))
  | None => if w_closed w then Some (with_wait w (W_Return ChannelClosed)) else None
  end.
Definition wait_report (s : system) (i : nat) (w : waiter) (o : waited) (m : mesh) : outcome :=
  let s' := put_waiter i (with_wait w (W_Finish o)) s in
  match latency_of (w_src w) (w_dst w) o with
  | None => goes s'
  | Some l =>
      match m_pc m with
      | M_Done _ => goes (panic s)
      | _ =>
          if (length (m_chan m) <? length (m_srcs m) * length (m_dsts m))%nat then
            goes (put_mesh (w_mesh w) (MkMesh (m_srcs m) (m_dsts m) (m_pc m) (m_done m) (m_group m) (m_chan m ++ [l]) (m_err m)) s')
          else None
      end
  end.
Definition wait_step (l : label) (s : system) : outcome :=
  match l with
  | WaitStore i =>
      w ← waiters s !! i;
      match w_phase w with W_Start => goes (set_watchers (<[w_id w := i]> (resultWatchers s)) (put_waiter i (with_wait w W_Select) s)) | _ => None end
  | WaitReceive i =>
      w ← waiters s !! i;
      match w_phase w with W_Select => w ← wait_receive w; goes (put_waiter i w s) | _ => None end
  | WaitDone i =>
      w ← waiters s !! i; m ← meshes s !! w_mesh w;
      match w_phase w with W_Select => if m_done m then goes (put_waiter i (with_wait w (W_Return ContextDone)) s) else None | _ => None end
  | WaitDelete i =>
      w ← waiters s !! i;
      match w_phase w with W_Return o => goes (set_watchers (delete (w_id w) (resultWatchers s)) (put_waiter i (with_wait w (W_Report o)) s)) | _ => None end
  | WaitReport i =>
      w ← waiters s !! i; m ← meshes s !! w_mesh w;
      match w_phase w with W_Report o => wait_report s i w o m | _ => None end
  | WaitFinish i =>
      w ← waiters s !! i; m ← meshes s !! w_mesh w;
      match w_phase w with
      | W_Finish o =>
          goes (put_mesh (w_mesh w) (MkMesh (m_srcs m) (m_dsts m) (m_pc m) (m_done m) (pred (m_group m)) (m_chan m) (m_err m))
            (put_waiter i (with_wait w (W_Done o)) s))
      | _ => None
      end
  | _ => None
  end.

(** [Capture]: all tasks of a request have its id, and the entries are stored
    after the last send. *)
Definition put_capture (i : nat) (c : capturing) (s : system) : system := set_captures (<[i := c]> (captures s)) s.
Definition capture_step (l : label) (s : system) : outcome :=
  match l with
  | CaptureStart a args =>
      let idx := nextTaskIdx (taskIdx s) in
      let pc := match capture_infos a args (CaptureList args) with Ok infos => C_Loop infos | Err e => C_Done (Err e) | Panic => C_Done Panic end in
      goes (set_captures (captures s ++ [MkCapturing idx pc []]) (set_idx idx s))
  | CaptureFind i k =>
      c ← captures s !! i;
      match c_pc c with
      | C_Loop (info :: todo) =>
          if found s (default EmptyString (ci_Node info)) (captureTask (idText (c_id c)) info) k then
            goes (put_capture i (MkCapturing (c_id c) match k with Some k => C_Send k info todo | None => C_Done (Err ErrNoClient) end (c_results c)) s)
          else None
      | _ => None
      end
  | CaptureSend i =>
      c ← captures s !! i;
      match c_pc c with
      | C_Send k info todo =>
          s ← send_task s k (captureTask (idText (c_id c)) info);
          goes (put_capture i (MkCapturing (c_id c) (C_Loop todo) (c_results c ++ [captureRunning (c_id c) info])) s)
      | _ => None
      end
  | CaptureStore i =>
      c ← captures s !! i;
      match c_pc c with
      | C_Loop [] =>
          goes (put_capture i (MkCapturing (c_id c) (C_Done (Ok (c_id c))) (c_results c)) (set_store (<[c_id c := c_results c]> (captureTasks s)) (fs s) s))
      | _ => None
      end
  | _ => None
  end.

Definition step (l : label) (s : system) : outcome :=
  if panicked s then None else
  match l with
  | Connect f => goes (set_streams (streams s ++ [MkStream f Watching false None []]) s)
  | StreamDone k => stream_step k (λ st, Some (MkStream (s_filter st) (s_phase st) true (s_chan st) (s_wire st))) s
  | StreamSend k ok => stream_step k (stream_send ok) s
  | StreamExit k => stream_step k stream_exit s
  | StreamLeave k => stream_step k stream_leave s
  | AgentReceive k => agent_receive s k
  | AgentBreak k => stream_step k (λ st, Some (MkStream (s_filter st) (s_phase st) (s_done st) (s_chan st) [])) s
  | JobRun _ _ | JobUpload _ _ | JobSend _ | JobClose _ => job_step l s
  | PingMesh srcs dsts => goes (set_meshes (meshes s ++ [MkMesh srcs dsts (M_Loop (mesh_pairs srcs dsts)) false 0 [] None]) s)
  | MeshNext _ | MeshDispatch _ _ _ _ | MeshSend _ | MeshTimeout _ => mesh_step l s
  | WaitStore _ | WaitReceive _ | WaitDone _ | WaitDelete _ | WaitReport _ | WaitFinish _ => wait_step l s
  | CaptureStart _ _ | CaptureFind _ _ | CaptureSend _ | CaptureStore _ => capture_step l s
  end.

(** A run: the state it ends in, and its events. *)
Fixpoint run (ls : list label) (s : system) : outcome :=
  match ls with
  | [] => goes s
  | l :: ls' => '(s, evs) ← step l s; '(s', evs') ← run ls' s; Some (s', evs ++ evs')
  end.
End TaskSystem.
