(* ===== verification/TaskCounts.v ===== *)
(** Where a task is: for each id, the number of places of [TaskSystem]'s state
    that hold a ping task or its result, and the invariant that there is at
    most one.

    A task is first its request's, then a stream's, then an agent's goroutine's
    until the upload has closed the channel; each step moves it or loses it.
    Requests for captures hand out the same task id several times, so they are
    counted apart. *)

From S2P Require Import Prelude GoStrings GoResult GoFloat TaskController TaskAgent TaskSystem.

Module TaskCounts.
Import TaskController TaskAgent TaskSystem.

(** ** Counting in lists *)

Definition one (P : Prop) `{Decision P} : nat := if decide P then 1%nat else 0%nat.
Fixpoint total {A : Type} (f : A -> nat) (l : list A) : nat :=
  match l with [] => 0%nat | x :: l' => (f x + total f l')%nat end.

Lemma total_app {A : Type} (f : A -> nat) (a b : list A) : total f (a ++ b) = (total f a + total f b)%nat.
Proof. induction a as [|x a IH]; [done|]. simpl. lia. Qed.
Lemma total_insert {A : Type} (f : A -> nat) (l : list A) (i : nat) (a b : A) :
  l !! i = Some a -> (total f (<[i := b]> l) + f a = total f l + f b)%nat.
Proof. revert i. induction l as [|x l IH]; intros [|i] H; simplify_eq/=; [lia|]. specialize (IH i H). lia. Qed.
Lemma total_lookup {A : Type} (f : A -> nat) (l : list A) (i : nat) (a : A) : l !! i = Some a -> (f a <= total f l)%nat.
Proof. revert i. induction l as [|x l IH]; intros [|i] H; simplify_eq/=; [lia|]. specialize (IH i H). lia. Qed.
(** Two different positions. *)
Lemma total_lookup_2 {A : Type} (f : A -> nat) (l : list A) (i j : nat) (a b : A) :
  i ≠ j -> l !! i = Some a -> l !! j = Some b -> (f a + f b <= total f l)%nat.
Proof.
  revert i j. induction l as [|x l IH]; intros [|i] [|j] Hij Hi Hj; simplify_eq/=.
  - pose proof (total_lookup f l j b Hj). lia.
  - pose proof (total_lookup f l i a Hi). lia.
  - specialize (IH i j ltac:(lia) Hi Hj). lia.
Qed.
Lemma total_pos {A : Type} (f : A -> nat) (l : list A) : (1 <= total f l)%nat -> ∃ i a, l !! i = Some a ∧ (1 <= f a)%nat.
Proof.
  induction l as [|x l IH]; simpl; [lia|]. intros H. destruct (f x) eqn:E.
  - destruct IH as (i & a & Hi & Ha); [lia|]. by exists (S i), a.
  - exists O, x. split; [done|lia].
Qed.
Lemma one_eq (P : Prop) `{Decision P} : P -> one P = 1%nat.
Proof. intros HP. unfold one. by rewrite decide_True. Qed.
Lemma one_pos (P : Prop) `{Decision P} : (1 <= one P)%nat -> P.
Proof. unfold one. destruct (decide P); [done|lia]. Qed.

(** ** Places *)

Definition task_c (ty : TaskType) (x : string) (t : Task) : nat := one (t_Type t = ty ∧ t_Id t = x).
Definition res_c (ty : TaskType) (x : string) (r : TaskResult) : nat := one (tr_Type r = ty ∧ tr_Id r = x).
Definition mesh_c (x : string) (m : mesh) : nat :=
  match m_pc m with M_Dispatch _ _ id _ => one (id = x) | M_Send _ _ _ t _ => one (t_Id t = x) | _ => 0%nat end.
Definition opt_c {A : Type} (f : A -> nat) (o : option A) : nat := match o with Some a => f a | None => 0%nat end.
Definition stream_c (ty : TaskType) (x : string) (st : stream) : nat :=
  (opt_c (task_c ty x) (s_chan st) + total (task_c ty x) (s_wire st))%nat.
Definition job_c (ty : TaskType) (x : string) (j : job) : nat :=
  match j with J_Run t => task_c ty x t | J_Upload r | J_Send _ r | J_Close _ r => res_c ty x r | J_Done => 0%nat end.
Definition waiter_c (x : string) (w : waiter) : nat := one (w_id w = x).
Definition capturing_c (x : string) (c : capturing) : nat := one (idText (c_id c) = x).

Definition in_meshes (x : string) (s : system) : nat := total (mesh_c x) (meshes s).
(** Sent to an agent and not answered. *)
Definition under_way (ty : TaskType) (x : string) (s : system) : nat := (total (stream_c ty x) (streams s) + total (job_c ty x) (jobs s))%nat.
Definition waiting (x : string) (s : system) : nat := total (waiter_c x) (waiters s).
Definition capturing_ids (x : string) (s : system) : nat := total (capturing_c x) (captures s).

Definition known (x : string) (s : system) : Prop := ∃ n, x = idText n ∧ 1 <= n <= taskIdx s.

(** A task about to be sent is one that [dispatchPingTask] made of a pair. *)
Definition sending_ok (m : mesh) : Prop :=
  match m_pc m with
  | M_Send _ src dst t todo =>
      todo ⊆ mesh_pairs (m_srcs m) (m_dsts m) ∧
      ∃ a1 a2 src0, (src0, dst) ∈ mesh_pairs (m_srcs m) (m_dsts m) ∧ pingTask a1 a2 src0 dst (t_Id t) = Ok (src, t)
  | M_Loop todo => todo ⊆ mesh_pairs (m_srcs m) (m_dsts m)
  | M_Dispatch src dst _ todo => (src, dst) :: todo ⊆ mesh_pairs (m_srcs m) (m_dsts m)
  | M_Done _ => True
  end.

Record counted (s : system) : Prop := MkCounted {
  once : ∀ x, (in_meshes x s + under_way Ping x s <= 1)%nat;
  waits_once : ∀ x, (in_meshes x s + waiting x s <= 1)%nat;
  captures_own : ∀ x, (1 <= under_way Capture x s -> 1 <= capturing_ids x s)%nat;
  captures_apart : ∀ x, (1 <= capturing_ids x s -> in_meshes x s + under_way Ping x s + waiting x s = 0)%nat;
  ids_known : ∀ x, (1 <= in_meshes x s + under_way Ping x s + waiting x s + capturing_ids x s)%nat -> known x s;
  sendings : Forall sending_ok (meshes s);
}.

(** ** Lemmas *)

Lemma idText_inj (a b : Z) : 0 <= a < 2 ^ 63 -> 0 <= b < 2 ^ 63 -> idText a = idText b -> a = b.
Proof.
  intros Ha Hb. unfold idText. rewrite (proj2 (Z.ltb_ge a 0)), (proj2 (Z.ltb_ge b 0)) by lia. intros E.
  pose proof (Atoi_dec a Ha) as H. rewrite E, (Atoi_dec b Hb) in H. by injection H.
Qed.
Lemma next_idx (s : system) : 0 <= taskIdx s -> taskIdx s + 1 < 2 ^ 63 -> nextTaskIdx (taskIdx s) = taskIdx s + 1.
Proof. intros H0 H1. unfold nextTaskIdx. apply sext_small; lia. Qed.
Lemma next_fresh (s : system) : 0 <= taskIdx s -> taskIdx s + 1 < 2 ^ 63 -> ¬ known (idText (taskIdx s + 1)) s.
Proof. intros H0 H1 (n & E & Hn). apply idText_inj in E; lia. Qed.

Lemma pingTask_spec (a1 a2 : api) (src dst src' : NodeInfo) (id : string) (t : Task) :
  pingTask a1 a2 src dst id = Ok (src', t) -> t_Type t = Ping ∧ t_Id t = id.
Proof.
  unfold pingTask. destruct (ping_source a1 src) as [[[s0 pod] node]| |]; cbn [mbind result_bind]; try done.
  destruct (ping_destination a2 dst); cbn [mbind result_bind]; try done. by intros [= <- <-].
Qed.
Lemma ProcessPing_id (es : list Entity) (f : string -> ran) (pe : string -> string) (t : Task) (p : PingInfo) :
  tr_Id (ProcessPing es f pe t p) = t_Id t ∧ tr_Type (ProcessPing es f pe t p) = t_Type t.
Proof. unfold ProcessPing, failed. destruct (ping _ _ _); [done|]. by destruct (getLatency _) as [[[]]|]. Qed.
Lemma ProcessCapture_id (es : list Entity) (f : string -> ran) (ct : string -> string + list Z) (t : Task) (c : CaptureInfo) (r : TaskResult) :
  ProcessCapture es f ct t c = Ok r -> tr_Id r = t_Id t ∧ tr_Type r = t_Type t.
Proof.
  unfold ProcessCapture, failed. destruct (generateCaptures _ _ _) as [[|cap [|]]| |]; try done; intros [= <-]; [|done].
  by destruct (execute _ _ _) as [|[]].
Qed.

(** ** Taking a step apart *)

Ltac step_case H :=
  match type of H with
  | (if ?b then _ else _) = Some _ => destruct b eqn:?; try discriminate H
  | (match ?x with _ => _ end) = Some _ => destruct x eqn:?; try discriminate H
  | goes _ = Some _ => unfold goes in H
  | Some _ = Some _ => injection H as ?; try subst
  | (?m ≫= ?f) = Some _ => destruct m eqn:?; cbn [mbind option_bind] in H; try discriminate H
  end.
Ltac step_cases := repeat match goal with H : _ = Some _ |- _ => step_case H end.
Ltac open_step H :=
  unfold step, stream_step, agent_receive, job_step, job_run, job_upload, job_send, job_close, mesh_step, mesh_next, mesh_dispatch,
    mesh_send, wait_step, wait_report, capture_step, send_task, stream_send, stream_exit, stream_leave, wait_receive in H; step_cases.
Ltac places := unfold in_meshes, under_way, waiting, capturing_ids, put_mesh, put_waiter, put_capture in *;
  cbn [meshes streams jobs waiters captures taskIdx set_idx set_streams set_watchers set_store set_meshes set_waiters set_captures set_jobs panic] in *.
Ltac moved :=
  repeat match goal with
  | H : ?l !! ?i = Some ?a |- context [total ?f (<[?i := ?b]> ?l)] =>
      let E := fresh "E" in pose proof (total_insert f l i a b H) as E;
      let n := fresh "n" in set (n := total f (<[i := b]> l)) in *; clearbody n
  end; rewrite ?total_app in *;
  unfold stream_c, mesh_c, job_c, waiter_c, capturing_c, opt_c, with_pc, with_err, with_wait, with_chan, with_phase in *;
  cbn [total m_pc s_chan s_wire w_id c_id] in *;
  repeat match goal with
  | H : m_pc _ = _ |- _ => rewrite H in *; clear H
  | H : s_chan _ = _ |- _ => rewrite H in *; clear H
  | H : s_wire _ = _ |- _ => rewrite H in *; clear H
  end; rewrite ?total_app in *; cbn [total] in *.

(** A step that hands out no id and sends no capture: nothing is where it was
    not. *)
Record moves (s s' : system) : Prop := MkMoves {
  mv_idx : taskIdx s' = taskIdx s;
  mv_once : ∀ x, (in_meshes x s' + under_way Ping x s' <= in_meshes x s + under_way Ping x s)%nat;
  mv_waits : ∀ x, (in_meshes x s' + waiting x s' <= in_meshes x s + waiting x s)%nat;
  mv_captures : ∀ x, (under_way Capture x s' <= under_way Capture x s)%nat;
  mv_ids : ∀ x, capturing_ids x s' = capturing_ids x s;
  mv_any : ∀ x, (1 <= in_meshes x s' + under_way Ping x s' + waiting x s' -> 1 <= in_meshes x s + under_way Ping x s + waiting x s)%nat;
}.
Definition plain (l : label) : bool := match l with MeshNext _ | CaptureStart _ _ | CaptureSend _ => false | _ => true end.

Lemma res_c_task (ty : TaskType) (x : string) (r : TaskResult) (t : Task) :
  tr_Id r = t_Id t ∧ tr_Type r = t_Type t -> res_c ty x r = task_c ty x t.
Proof. intros [E1 E2]. unfold res_c, task_c, one. by rewrite E1, E2. Qed.
Lemma task_c_ping (x : string) (t : Task) : t_Type t = Ping -> task_c Ping x t = one (t_Id t = x) ∧ task_c Capture x t = 0%nat.
Proof. intros E. unfold task_c, one. rewrite E. split; repeat case_decide; naive_solver. Qed.
Lemma task_c_capture (x id : string) (c : CaptureInfo) :
  task_c Capture x (captureTask id c) = one (id = x) ∧ task_c Ping x (captureTask id c) = 0%nat.
Proof. unfold task_c, one, captureTask. simpl. split; repeat case_decide; naive_solver. Qed.

Lemma sending_ping (s : system) (i k : nat) (m : mesh) (src dst : NodeInfo) (t : Task) (todo : list (NodeInfo * NodeInfo)) :
  Forall sending_ok (meshes s) -> meshes s !! i = Some m -> m_pc m = M_Send k src dst t todo -> t_Type t = Ping.
Proof.
  intros Hs Hm Hpc. pose proof (Forall_lookup_1 _ _ _ _ Hs Hm) as Hok. unfold sending_ok in Hok. rewrite Hpc in Hok.
  destruct Hok as (_ & a1 & a2 & src0 & _ & E). by apply pingTask_spec in E as [? _].
Qed.

Ltac split_outcome :=
  try match goal with |- context [match ?r with Panic => _ | _ => _ end] => destruct r end;
  try match goal with |- context [if ?b then MkStream _ _ _ _ _ else _] => destruct b end;
  try match goal with |- context [match ?k with Some _ => with_pc _ _ | _ => _ end] => destruct k end.

Lemma moves_step (l : label) (s s' : system) (evs : list event) : plain l = true -> Forall sending_ok (meshes s) -> step l s = Some (s', evs) -> moves s s'.
Proof.
  intros Hp Hs H. destruct l; try discriminate Hp; clear Hp; open_step H; split_outcome; split; places; try done; intros x.
  all: try match goal with H : ProcessCapture _ _ _ _ _ = Ok _ |- _ => pose proof (λ ty, res_c_task ty x _ _ (ProcessCapture_id _ _ _ _ _ _ H)) as Eres end.
  all: try match goal with |- context [ProcessPing ?a ?b ?c ?d ?e] => pose proof (λ ty, res_c_task ty x _ _ (ProcessPing_id a b c d e)) as Eres end.
  all: try match goal with H : pingTask _ _ _ _ _ = Ok _ |- _ => apply pingTask_spec in H as [? <-] end.
  all: try match goal with Hm : meshes _ !! _ = Some ?m, H : m_pc ?m = M_Send _ _ _ _ _ |- _ => pose proof (task_c_ping x _ (sending_ping _ _ _ _ _ _ _ _ Hs Hm H)) end.
  all: moved; rewrite ?Eres in *; try lia.
Qed.

Lemma sendings_step (l : label) (s s' : system) (evs : list event) :
  Forall sending_ok (meshes s) -> step l s = Some (s', evs) -> Forall sending_ok (meshes s').
Proof.
  intros Hs H. destruct l; open_step H; split_outcome; places; try done.
  all: try (apply Forall_app_2; [done|]; apply Forall_singleton; unfold sending_ok; cbn; set_solver).
  all: apply Forall_insert; [done|].
  all: match goal with Hm : meshes _ !! _ = Some ?m |- _ => pose proof (Forall_lookup_1 _ _ _ _ Hs Hm) as Hok end.
  all: unfold sending_ok, with_pc, with_err in *; cbn [m_pc m_srcs m_dsts] in *.
  all: repeat match goal with H : m_pc _ = _ |- _ => rewrite H in * end; try done.
  - pose proof (pingTask_spec _ _ _ _ _ _ _ Heqr) as [_ <-]. split; [set_solver|]. eexists _, _, _. split; [|exact Heqr]. set_solver.
  - set_solver.
  - set_solver.
  - by destruct Hok.
Qed.

Lemma counted_moves (s s' : system) : counted s -> moves s s' -> Forall sending_ok (meshes s') -> counted s'.
Proof.
  intros [Ho Hw Hco Hca Hk Hs] [Ei Eo Ew Ec Eid Ea] Hs'.
  split; try done; intros x; specialize (Ho x); specialize (Hw x); specialize (Hco x); specialize (Hca x); specialize (Hk x);
    specialize (Eo x); specialize (Ew x); specialize (Ec x); specialize (Eid x); specialize (Ea x); try lia.
  intros H. unfold known in *. rewrite Ei. apply Hk. lia.
Qed.

(** A fresh id is nowhere, and becomes known. *)
Lemma fresh_nowhere (s : system) (x : string) : counted s -> ¬ known x s ->
  (in_meshes x s = 0 ∧ under_way Ping x s = 0 ∧ under_way Capture x s = 0 ∧ waiting x s = 0 ∧ capturing_ids x s = 0)%nat.
Proof.
  intros [_ _ Hco _ Hk _] Hx. specialize (Hco x).
  assert (¬ (1 <= in_meshes x s + under_way Ping x s + waiting x s + capturing_ids x s)%nat) by (intros H; by apply Hx, Hk). lia.
Qed.
Lemma known_next (x : string) (s : system) (n : Z) : 0 <= taskIdx s -> known x s ∨ x = idText (taskIdx s + 1) -> n = taskIdx s + 1 -> ∃ m, x = idText m ∧ 1 <= m <= n.
Proof. intros H0 [(m & -> & Hm)| ->] ->; eexists; (split; [reflexivity|lia]). Qed.

Lemma counted_next (i : nat) (s s' : system) (evs : list event) :
  0 <= taskIdx s -> taskIdx s + 1 < 2 ^ 63 -> counted s -> step (MeshNext i) s = Some (s', evs) -> counted s'.
Proof.
  intros H0 H1 Hc H. pose proof (sendings_step _ _ _ _ (sendings s Hc) H) as Hs'. open_step H.
  - eapply counted_moves; [done| |done]. split; places; try done; intros x; moved; lia.
  - rewrite (next_idx s H0 H1) in *. pose proof (fresh_nowhere s _ Hc (next_fresh s H0 H1)) as Hf.
    destruct Hc as [Ho Hw Hco Hca Hk Hs]. set (id := idText (taskIdx s + 1)) in *.
    split; places; try done; intros x; specialize (Ho x); specialize (Hw x); specialize (Hco x); specialize (Hca x); specialize (Hk x); moved.
    all: destruct (decide (id = x)) as [<-|Hx]; [rewrite (one_eq (id = id)) in * by done|unfold one in *; rewrite decide_False in * by done]; try lia.
    + intros _. apply (known_next _ s _ H0); [by right|done].
    + intros H. apply (known_next _ s _ H0); [left; apply Hk; lia|done].
Qed.

Lemma counted_capture_start (a : api) (args : CaptureArgs) (s s' : system) (evs : list event) :
  0 <= taskIdx s -> taskIdx s + 1 < 2 ^ 63 -> counted s -> step (CaptureStart a args) s = Some (s', evs) -> counted s'.
Proof.
  intros H0 H1 Hc H. unfold step, capture_step, goes in H. cbv zeta in H. destruct (panicked s); [done|]. injection H as <- _.
  rewrite (next_idx s H0 H1). pose proof (fresh_nowhere s _ Hc (next_fresh s H0 H1)) as Hf.
  destruct Hc as [Ho Hw Hco Hca Hk Hs]. set (id := idText (taskIdx s + 1)) in *.
  split; places; try done; intros x; specialize (Ho x); specialize (Hw x); specialize (Hco x); specialize (Hca x); specialize (Hk x); moved; fold id.
  all: destruct (decide (id = x)) as [<-|Hx]; [rewrite (one_eq (id = id)) in * by done|unfold one in *; rewrite decide_False in * by done]; try lia.
  - intros _. apply (known_next _ s _ H0); [by right|done].
  - intros H. apply (known_next _ s _ H0); [left; apply Hk; lia|done].
Qed.

Lemma counted_capture_send (i : nat) (s s' : system) (evs : list event) :
  counted s -> step (CaptureSend i) s = Some (s', evs) -> counted s'.
Proof.
  intros [Ho Hw Hco Hca Hk Hs] H. open_step H. split; places; try done; intros x.
  all: specialize (Ho x); specialize (Hw x); specialize (Hco x); specialize (Hca x); specialize (Hk x).
  all: match goal with |- context [captureTask ?id ?c] => pose proof (task_c_capture x id c) end.
  all: match goal with Hi : captures _ !! _ = Some _ |- _ => pose proof (total_lookup (capturing_c x) _ _ _ Hi) end.
  all: moved; try lia. intros H'. apply Hk. lia.
Qed.

Lemma counted_step (l : label) (s s' : system) (evs : list event) :
  0 <= taskIdx s -> taskIdx s + 1 < 2 ^ 63 -> counted s -> step l s = Some (s', evs) -> counted s'.
Proof.
  intros H0 H1 Hc H. destruct (plain l) eqn:Hp.
  - eapply counted_moves; [done|by eapply moves_step; [|by apply sendings|]|]. eapply sendings_step; [by apply sendings|done].
  - destruct l; try discriminate Hp; [by eapply counted_next|by eapply counted_capture_start|by eapply counted_capture_send].
Qed.

Lemma idx_step (l : label) (s s' : system) (evs : list event) :
  0 <= taskIdx s -> taskIdx s + 1 < 2 ^ 63 -> counted s -> step l s = Some (s', evs) -> taskIdx s <= taskIdx s' <= taskIdx s + 1.
Proof.
  intros H0 H1 Hc H. destruct (plain l) eqn:Hp; [destruct (moves_step _ _ _ _ Hp (sendings s Hc) H); lia|].
  destruct l; try discriminate Hp; open_step H; places; rewrite ?(next_idx s H0 H1); lia.
Qed.

(** ** Runs *)

Lemma run_app (a b : list label) (s : system) :
  run (a ++ b) s = ('(s1, tr1) ← run a s; '(s2, tr2) ← run b s1; Some (s2, tr1 ++ tr2)).
Proof.
  revert s. induction a as [|l a IH]; intros s; cbn [run app goes mbind option_bind].
  - by destruct (run b s) as [[]|].
  - destruct (step l s) as [[s1 evs]|]; cbn [mbind option_bind]; [|done]. rewrite IH.
    destruct (run a s1) as [[s2 tr2]|]; cbn [mbind option_bind]; [|done].
    destruct (run b s2) as [[s3 tr3]|]; cbn [mbind option_bind]; [|done]. by rewrite app_assoc.
Qed.
Lemma run_snoc (ls : list label) (l : label) (s s' : system) (tr : list event) :
  run (ls ++ [l]) s = Some (s', tr) -> ∃ s1 tr1 evs, run ls s = Some (s1, tr1) ∧ step l s1 = Some (s', evs) ∧ tr = tr1 ++ evs.
Proof.
  rewrite run_app. destruct (run ls s) as [[s1 tr1]|]; cbn [mbind option_bind run]; [|done].
  destruct (step l s1) as [[s2 evs]|] eqn:E; cbn [mbind option_bind goes]; [|done]. rewrite app_nil_r.
  intros [= <- <-]. by exists s1, tr1, evs.
Qed.

Lemma counted_init (d : disk) : counted (init d).
Proof. split; [..|done]; intros x; unfold in_meshes, under_way, waiting, capturing_ids; simpl; lia. Qed.

(** A run shorter than the ids last keeps the counts. *)
Lemma run_counted (d : disk) (ls : list label) (s : system) (tr : list event) :
  Z.of_nat (length ls) < 2 ^ 63 -> run ls (init d) = Some (s, tr) -> 0 <= taskIdx s <= Z.of_nat (length ls) ∧ counted s.
Proof.
  revert s tr. induction ls as [|l ls IH] using rev_ind; intros s tr Hlen H.
  - injection H as <- <-. split; [done|apply counted_init].
  - apply run_snoc in H as (s1 & tr1 & evs & Hr & Hst & ->). rewrite length_app in Hlen. simpl in Hlen.
    destruct (IH s1 tr1 ltac:(lia) Hr) as [Hi Hc]. split; [|eapply counted_step; [..|done]; [lia|lia|done]].
    pose proof (idx_step l s1 s evs ltac:(lia) ltac:(lia) Hc Hst). rewrite length_app. simpl. lia.
Qed.

(** An invariant of runs: it may use the counts. *)
Lemma run_invariant (d : disk) (P : list event -> system -> Prop) :
  P [] (init d) ->
  (∀ l s s' tr evs, 0 <= taskIdx s -> taskIdx s + 1 < 2 ^ 63 -> counted s -> counted s' -> P tr s -> step l s = Some (s', evs) -> P (tr ++ evs) s') ->
  ∀ ls s tr, Z.of_nat (length ls) < 2 ^ 63 -> run ls (init d) = Some (s, tr) -> P tr s.
Proof.
  intros Hinit Hstep ls. induction ls as [|l ls IH] using rev_ind; intros s tr Hlen H; [by injection H as <- <-|].
  pose proof (run_counted d _ _ _ Hlen H) as [_ Hc']. apply run_snoc in H as (s1 & tr1 & evs & Hr & Hst & ->).
  rewrite length_app in Hlen. simpl in Hlen. pose proof (run_counted d ls s1 tr1 ltac:(lia) Hr) as [Hi Hc].
  apply (Hstep l s1); try done; [lia..|]. apply (IH s1 tr1); [lia|done].
Qed.
End TaskCounts.
