(* ===== verification/TaskChannels.v ===== *)
(** The result channels of [TaskSystem]: an upload finds the channel of its
    own task's waiter, which nothing was sent on, and closes it once; and the
    latency channel of a ping mesh has one value for each waiter that has
    reported, so it is never full when a waiter wants to send, and never
    closed before the last one has. *)

From S2P Require Import Prelude GoStrings GoResult GoFloat TaskController TaskAgent TaskSystem TaskCounts.

Module TaskChannels.
Import TaskController TaskAgent TaskSystem TaskCounts.

(** ** Results *)

(** A successful result has the payload of its type. *)
Definition result_ok (r : TaskResult) : Prop :=
  tr_Success r = true -> match tr_Type r with Ping => is_Some (GetPing r) | Capture => is_Some (GetCapture r) end.
Definition job_ok (j : job) : Prop := match j with J_Upload r | J_Send _ r | J_Close _ r => result_ok r | _ => True end.
Definition outcome_of (p : wait_phase) : option waited :=
  match p with W_Return o | W_Report o | W_Finish o | W_Done o => Some o | _ => None end.
(** The result that a waiter's channel or goroutine holds. *)
Definition holds (w : waiter) (r : TaskResult) : Prop := w_chan w = Some r ∨ outcome_of (w_phase w) = Some (Received r).
Definition held_ok (w : waiter) : Prop := ∀ r, holds w r -> result_ok r ∧ tr_Type r = Ping ∧ tr_Id r = w_id w.

(** Nothing was sent on the waiter's channel. *)
Definition unsent (w : waiter) : Prop :=
  w_chan w = None ∧ w_closed w = false ∧ match outcome_of (w_phase w) with None | Some ContextDone => True | _ => False end.
Definition before_return (w : waiter) : Prop := outcome_of (w_phase w) = None.

Definition live_c (x : string) (j : job) : nat := match j with J_Close _ _ => 0%nat | _ => job_c Ping x j end.
Definition close_c (x : string) (j : job) : nat := match j with J_Close _ r => res_c Ping x r | _ => 0%nat end.
Definition live (x : string) (s : system) : nat := (total (stream_c Ping x) (streams s) + total (live_c x) (jobs s))%nat.
Definition closing (x : string) (s : system) : nat := total (close_c x) (jobs s).

(** What a goroutine in an upload knows of the waiter it found. *)
Definition upload_ok (ws : list waiter) (j : job) : Prop :=
  match j with
  | J_Send w r => ∃ wt, ws !! w = Some wt ∧ w_id wt = tr_Id r ∧ tr_Type r = Ping
  | J_Close w r => ∃ wt, ws !! w = Some wt ∧ w_id wt = tr_Id r ∧ tr_Type r = Ping ∧ w_closed wt = false ∧ (before_return wt -> is_Some (w_chan wt))
  | _ => True
  end.

Record channels (s : system) : Prop := MkChannels {
  ch_jobs : Forall job_ok (jobs s);
  ch_held : Forall held_ok (waiters s);
  ch_watchers : ∀ x w, resultWatchers s !! x = Some w -> ∃ wt, waiters s !! w = Some wt ∧ w_id wt = x;
  ch_uploads : Forall (upload_ok (waiters s)) (jobs s);
  ch_unsent : ∀ w wt, waiters s !! w = Some wt -> (1 <= live (w_id wt) s)%nat -> unsent wt;
  ch_closed : Forall (λ w, before_return w -> w_closed w = true -> is_Some (w_chan w)) (waiters s);
}.

(** ** Lemmas *)

Lemma live_closing (x : string) (s : system) : under_way Ping x s = (live x s + closing x s)%nat.
Proof.
  unfold under_way, live, closing. rewrite <- Nat.add_assoc. f_equal. induction (jobs s) as [|j js IH]; [done|].
  cbn [total]. rewrite IH. destruct j; cbn [live_c close_c job_c]; lia.
Qed.

(** Waiters are told apart by their ids. *)
Lemma waiter_unique (s : system) (i j : nat) (a b : waiter) :
  counted s -> waiters s !! i = Some a -> waiters s !! j = Some b -> w_id a = w_id b -> i = j.
Proof.
  intros Hc Hi Hj E. destruct (decide (i = j)) as [|Hij]; [done|].
  pose proof (total_lookup_2 (waiter_c (w_id a)) _ _ _ _ _ Hij Hi Hj) as H. unfold waiter_c in H at 1 2.
  rewrite !one_eq in H by done. pose proof (waits_once s Hc (w_id a)) as H1. unfold waiting in H1. lia.
Qed.

Lemma ProcessPing_ok (es : list Entity) (f : string -> ran) (pe : string -> string) (t : Task) (p : PingInfo) :
  t_Type t = Ping -> result_ok (ProcessPing es f pe t p).
Proof.
  intros Ht. unfold ProcessPing, failed, result_ok. destruct (ping _ _ _); [done|].
  destruct (getLatency _) as [[[]]|]; [|done]. simpl. by rewrite Ht.
Qed.
Lemma ProcessCapture_ok (es : list Entity) (f : string -> ran) (ct : string -> string + list Z) (t : Task) (c : CaptureInfo) (r : TaskResult) :
  t_Type t = Capture -> ProcessCapture es f ct t c = Ok r -> result_ok r.
Proof.
  intros Ht. unfold ProcessCapture, failed, result_ok. destruct (generateCaptures _ _ _) as [[|cap [|]]| |]; try done; intros [= <-]; [|done].
  destruct (execute _ _ _) as [|[]]; [done|]. simpl. by rewrite Ht.
Qed.

(** The live tasks of an id: a step brings none into being but those of a
    request. *)
Lemma live_step (l : label) (s s' : system) (evs : list event) (x : string) :
  Forall sending_ok (meshes s) -> step l s = Some (s', evs) -> (live x s' <= in_meshes x s + live x s)%nat ∧ (live x s' <= live x s ∨ ∃ i, l = MeshSend i)%nat.
Proof.
  intros Hs H. destruct l; open_step H; split_outcome.
  all: unfold live; places.
  all: try match goal with H : ProcessCapture _ _ _ _ _ = Ok _ |- _ => pose proof (λ ty, res_c_task ty x _ _ (ProcessCapture_id _ _ _ _ _ _ H)) as Eres end.
  all: try match goal with |- context [ProcessPing ?a ?b ?c ?d ?e] => pose proof (λ ty, res_c_task ty x _ _ (ProcessPing_id a b c d e)) as Eres end.
  all: try match goal with |- context [captureTask ?id ?c] => pose proof (task_c_capture x id c) end.
  all: try match goal with Hm : meshes _ !! _ = Some ?m, H : m_pc ?m = M_Send _ _ _ _ _ |- _ => pose proof (task_c_ping x _ (sending_ping _ _ _ _ _ _ _ _ Hs Hm H)); pose proof (total_lookup (mesh_c x) _ _ _ Hm) end.
  all: moved; unfold live_c in *; cbn [job_c] in *; rewrite ?Eres in *; (split; [lia|first [left; lia|right; eauto]]).
Qed.

Lemma jobs_ok_step (l : label) (s s' : system) (evs : list event) : Forall job_ok (jobs s) -> step l s = Some (s', evs) -> Forall job_ok (jobs s').
Proof.
  intros Hj H. destruct l; open_step H; split_outcome; places; try done.
  all: try (by apply Forall_app_2; [|apply Forall_singleton]).
  all: apply Forall_insert; [done|]; try done.
  all: try match goal with Hl : jobs _ !! _ = Some _ |- _ => exact (Forall_lookup_1 _ _ _ _ Hj Hl) end.
  - by eapply ProcessCapture_ok.
  - by apply ProcessPing_ok.
Qed.

(** How a step changes a waiter, apart from the close. *)
Definition waiter_le (a b : waiter) : Prop :=
  w_id b = w_id a ∧ w_mesh b = w_mesh a ∧ w_src b = w_src a ∧ w_dst b = w_dst a ∧ w_closed b = w_closed a ∧
  (before_return b -> before_return a ∧ (is_Some (w_chan a) -> is_Some (w_chan b))).
Lemma waiter_le_refl (a : waiter) : waiter_le a a.
Proof. by repeat split. Qed.
Lemma insert_related {A : Type} (ws : list A) (i w : nat) (a b wt : A) (P : A -> A -> Prop) :
  ws !! i = Some a -> (w = i -> P a b) -> (∀ x, P x x) -> ws !! w = Some wt -> ∃ wt', <[i := b]> ws !! w = Some wt' ∧ P wt wt'.
Proof.
  intros Hi HP Hr Hw. destruct (decide (w = i)) as [->|Hne].
  - rewrite Hi in Hw. injection Hw as <-. exists b. split; [|by apply HP]. apply list_lookup_insert_eq. by eapply lookup_lt_Some.
  - exists wt. split; [|done]. by rewrite list_lookup_insert_ne by done.
Qed.

Definition closes (s : system) (l : label) (w : nat) (a b : waiter) : Prop :=
  ∃ j r, l = JobClose j ∧ jobs s !! j = Some (J_Close w r) ∧ b = with_chan a (w_chan a) true.
Lemma waiters_step (l : label) (s s' : system) (evs : list event) (w : nat) (wt : waiter) :
  step l s = Some (s', evs) -> waiters s !! w = Some wt ->
  ∃ wt', waiters s' !! w = Some wt' ∧ (waiter_le wt wt' ∨ closes s l w wt wt').
Proof.
  intros H Hw. destruct l; open_step H; split_outcome; places.
  all: try (exists wt; split; [done|left; apply waiter_le_refl]).
  all: try (exists wt; split; [by apply lookup_app_l_Some|left; apply waiter_le_refl]).
  all: match goal with Hi : waiters ?s !! ?i = Some ?a |- context [@insert _ _ _ _ ?i ?b (waiters ?s)] => refine (insert_related _ i w a b wt (λ x y, waiter_le x y ∨ closes s _ w x y) Hi _ _ _); [|by intros ?; left; apply waiter_le_refl|done] end.
  all: intros <-; try (by left; unfold waiter_le, before_return; cbn; repeat match goal with H : w_phase _ = _ |- _ => rewrite H end).
- right. by exists j, r. Qed.

(** Waiters come into being with the send of their task. *)
Lemma waiters_new (l : label) (s s' : system) (evs : list event) (w : nat) (wt : waiter) :
  step l s = Some (s', evs) -> waiters s !! w = None -> waiters s' !! w = Some wt ->
  w = length (waiters s) ∧ ∃ i src dst t k todo m, l = MeshSend i ∧ meshes s !! i = Some m ∧ m_pc m = M_Send k src dst t todo ∧
    wt = MkWaiter i src dst (t_Id t) W_Start None false ∧ waiters s' = waiters s ++ [wt] ∧ evs = [Committed i src dst t].
Proof.
  intros H Hn Hw. destruct l; open_step H; split_outcome; places; try congruence.
  all: try (by rewrite list_lookup_insert_ne in Hw by (intros ->; congruence); congruence).
  apply lookup_app_Some in Hw as [Hw|[Hl Hw]]; [congruence|]. apply list_lookup_singleton_Some in Hw as [Hw <-].
  split; [lia|]. by repeat eexists.
Qed.

Lemma watchers_step (l : label) (s s' : system) (evs : list event) :
  (∀ x w, resultWatchers s !! x = Some w -> ∃ wt, waiters s !! w = Some wt ∧ w_id wt = x) -> step l s = Some (s', evs) ->
  ∀ x w, resultWatchers s' !! x = Some w -> ∃ wt, waiters s' !! w = Some wt ∧ w_id wt = x.
Proof.
  intros Hr H x w Hx. assert (resultWatchers s !! x = Some w ∨ ∃ wt, waiters s !! w = Some wt ∧ w_id wt = x) as Ho.
  { revert Hx. destruct l; open_step H; split_outcome; intros Hx; try (left; exact Hx); unfold set_watchers, put_waiter in Hx; cbn in Hx.
    - apply lookup_insert_Some in Hx as [[<- <-]|[_ Hx]]; [right; eauto|by left].
    - apply lookup_delete_Some in Hx as [_ Hx]. by left. }
  assert (∃ wt, waiters s !! w = Some wt ∧ w_id wt = x) as (wt & Hw & E) by (destruct Ho as [Ho|Ho]; [by apply Hr|done]).
  destruct (waiters_step _ _ _ _ _ _ H Hw) as (wt' & Hw' & Hle). exists wt'. split; [done|].
  destruct Hle as [(Ei & _)|(j & r & _ & _ & ->)]; [congruence|done].
Qed.

(** A result of a capture finds no watcher. *)
Lemma upload_ping (s : system) (j w : nat) (wt : waiter) (r : TaskResult) :
  counted s -> jobs s !! j = Some (J_Upload r) -> waiters s !! w = Some wt -> w_id wt = tr_Id r -> tr_Type r = Ping.
Proof.
  intros Hc Hj Hw E. destruct (tr_Type r) eqn:Et; [|done]. exfalso.
  pose proof (total_lookup (job_c Capture (tr_Id r)) _ _ _ Hj) as H1. cbn [job_c] in H1. unfold res_c in H1. rewrite one_eq in H1 by done.
  pose proof (captures_own s Hc (tr_Id r) ltac:(unfold under_way; lia)) as H2. pose proof (captures_apart s Hc _ H2) as H3.
  pose proof (total_lookup (waiter_c (tr_Id r)) _ _ _ Hw) as H4. unfold waiter_c in H4 at 1. rewrite one_eq in H4 by done. unfold waiting in H3. lia.
Qed.

(** Two goroutines do not upload results of one ping. *)
Lemma jobs_apart (s : system) (i j : nat) (a b : job) (x : string) :
  counted s -> jobs s !! i = Some a -> jobs s !! j = Some b -> job_c Ping x a = 1%nat -> job_c Ping x b = 1%nat -> i = j.
Proof.
  intros Hc Hi Hj Ha Hb. destruct (decide (i = j)) as [|Hij]; [done|].
  pose proof (total_lookup_2 (job_c Ping x) _ _ _ _ _ Hij Hi Hj). pose proof (once s Hc x). unfold under_way in *. lia.
Qed.

Lemma upload_ok_le (ws ws' : list waiter) (j : job) :
  (∀ w wt r, ws !! w = Some wt -> j = J_Send w r ∨ j = J_Close w r -> ∃ wt', ws' !! w = Some wt' ∧ waiter_le wt wt') -> upload_ok ws j -> upload_ok ws' j.
Proof.
  intros Hle. destruct j; try done; cbn [upload_ok].
  - intros (wt & Hw & E & Ht). destruct (Hle _ _ _ Hw (or_introl eq_refl)) as (wt' & Hw' & Ei & _). exists wt'. split_and!; congruence.
  - intros (wt & Hw & E & Ht & Hcl & Hch). destruct (Hle _ _ _ Hw (or_intror eq_refl)) as (wt' & Hw' & Ei & _ & _ & _ & Ec & Hb).
    exists wt'. split_and!; [congruence..|]. intros Hb'. destruct (Hb Hb') as [? H]. auto.
Qed.

Definition early (j : job) : Prop := match j with J_Run _ | J_Upload _ | J_Done => True | _ => False end.
(** How a goroutine of an agent gets to a channel. *)
Lemma jobs_step (l : label) (s s' : system) (evs : list event) (k : nat) (x : job) :
  step l s = Some (s', evs) -> jobs s' !! k = Some x ->
  (jobs s !! k = Some x ∧ (l ≠ JobClose k ∨ waiters s' = waiters s)) ∨ early x ∨
  (∃ w r, x = J_Send w r ∧ jobs s !! k = Some (J_Upload r) ∧ resultWatchers s !! tr_Id r = Some w ∧ waiters s' = waiters s) ∨
  (∃ w r wt, x = J_Close w r ∧ l = JobSend k ∧ jobs s !! k = Some (J_Send w r) ∧ waiters s !! w = Some wt ∧ w_closed wt = false ∧
    w_chan wt = None ∧ waiters s' = <[w := with_chan wt (Some r) false]> (waiters s)).
Proof.
  intros H. destruct l; open_step H; split_outcome; places; intros Hx; try (left; split; [done|by (left + right)]).
  1: { apply lookup_app_Some in Hx as [Hx|[_ Hx]]; [left; split; [done|by left]|]. apply list_lookup_singleton_Some in Hx as [_ <-]. right. by left. }
  all: apply list_lookup_insert_Some in Hx as [(<- & <- & _)|[Hne Hx]]; [|left; split; [done|left; congruence]]; right; try (by left).
  - right. left. eexists _, _. done.
  - right. right. eexists _, _, _. done.
Qed.

Lemma uploads_step (l : label) (s s' : system) (evs : list event) :
  counted s -> channels s -> step l s = Some (s', evs) -> Forall (upload_ok (waiters s')) (jobs s').
Proof.
  intros Hc Hch H. apply Forall_lookup_2. intros k x Hx. destruct (jobs_step _ _ _ _ _ _ H Hx) as [[Hx' [Hl|Hl]]|[He|[Hs|Hs]]].
  - pose proof (Forall_lookup_1 _ _ _ _ (ch_uploads s Hch) Hx') as Hok. apply (upload_ok_le (waiters s)); [|done].
    intros w wt r Hw Hj. destruct (waiters_step _ _ _ _ _ _ H Hw) as (wt' & Hw' & [Hle|(j & r' & -> & Hj' & _)]); [by exists wt'|].
    exfalso. apply Hl. f_equal. pose proof (Forall_lookup_1 _ _ _ _ (ch_uploads s Hch) Hj') as (wt2 & Hw2 & E2 & Ht2 & _).
    assert (w_id wt = tr_Id r ∧ tr_Type r = Ping) as [E1 Ht1].
    { destruct Hj as [-> | ->]; [destruct Hok as (wt1 & Hw1 & E1 & Ht1)|destruct Hok as (wt1 & Hw1 & E1 & Ht1 & _)]; split; congruence. }
    eapply (jobs_apart s j k _ x (w_id wt) Hc Hj' Hx'); [cbn; apply one_eq; split; congruence|].
    destruct Hj as [-> | ->]; cbn; apply one_eq; split; congruence.
  - rewrite Hl. exact (Forall_lookup_1 _ _ _ _ (ch_uploads s Hch) Hx').
  - by destruct x.
  - destruct Hs as (w & r & -> & Hj & Hr & ->). destruct (ch_watchers s Hch _ _ Hr) as (wt & Hw & E). exists wt.
    split_and!; [done|done|]. by eapply upload_ping.
  - destruct Hs as (w & r & wt & -> & -> & Hj & Hw & Hcl & Hcn & ->).
    pose proof (Forall_lookup_1 _ _ _ _ (ch_uploads s Hch) Hj) as (wt1 & Hw1 & E1 & Ht1). assert (wt1 = wt) as -> by congruence.
    exists (with_chan wt (Some r) false). split_and!; [|done..|by eexists]. apply list_lookup_insert_eq. by eapply lookup_lt_Some.
Qed.

Lemma closed_step (l : label) (s s' : system) (evs : list event) :
  channels s -> step l s = Some (s', evs) -> Forall (λ w, before_return w -> w_closed w = true -> is_Some (w_chan w)) (waiters s').
Proof.
  intros Hch H. apply Forall_lookup_2. intros w wt' Hw'. destruct (waiters s !! w) as [wt|] eqn:Hw.
  - destruct (waiters_step _ _ _ _ _ _ H Hw) as (wt2 & Hw2 & Hle). rewrite Hw' in Hw2. injection Hw2 as <-.
    pose proof (Forall_lookup_1 _ _ _ _ (ch_closed s Hch) Hw) as Ho.
    destruct Hle as [(_ & _ & _ & _ & Ec & Hb)|(j & r & -> & Hj & ->)].
    + intros Hb' Hcl. destruct (Hb Hb') as [? ?]. rewrite Ec in Hcl. auto.
    + intros Hb' _. pose proof (Forall_lookup_1 _ _ _ _ (ch_uploads s Hch) Hj) as (wt1 & Hw1 & _ & _ & _ & Hs).
      rewrite Hw in Hw1. injection Hw1 as <-. by apply Hs.
  - destruct (waiters_new _ _ _ _ _ _ H Hw Hw') as (_ & i & src & dst & t & k & todo & m & _ & _ & _ & -> & _). done.
Qed.

(** What a step does to a waiter's channel. *)
Lemma waiter_chan_step (l : label) (s s' : system) (evs : list event) (w : nat) (wt wt' : waiter) :
  step l s = Some (s', evs) -> waiters s !! w = Some wt -> waiters s' !! w = Some wt' ->
  (∀ r, holds wt' r -> holds wt r ∨ ∃ j, jobs s !! j = Some (J_Send w r)) ∧
  (unsent wt -> unsent wt' ∨ (∃ j r, jobs s !! j = Some (J_Send w r) ∧ jobs s' !! j = Some (J_Close w r)) ∨ ∃ j r, jobs s !! j = Some (J_Close w r)).
Proof.
  intros H Hw. destruct l; open_step H; split_outcome; places; intros Hw'.
  all: try (assert (wt' = wt) as -> by congruence; split; [by left|by left]).
  all: try (rewrite lookup_app_l in Hw' by (by eapply lookup_lt_Some); assert (wt' = wt) as -> by congruence; split; [by left|by left]).
  all: apply list_lookup_insert_Some in Hw' as [(-> & <- & _)|[Hne Hw']]; [|assert (wt' = wt) as -> by congruence; split; by left].
  all: match goal with H1 : waiters ?s !! ?w = Some ?a, H2 : waiters ?s !! ?w = Some ?b |- _ => assert (a = b) as -> by congruence end.
  all: unfold holds, unsent, with_wait, with_chan; cbn [w_chan w_phase w_closed outcome_of].
  all: repeat match goal with H : w_phase _ = _ |- _ => rewrite H end; cbn [outcome_of].
  1: { split; [intros r0 [[= <-]|Ho]; eauto|]. intros _. right. left. exists j, r. split; [done|].
    apply list_lookup_insert_eq. by eapply lookup_lt_Some. }
  all: try naive_solver.
  split; [naive_solver|]. intros (_ & Hcl & _). congruence.
Qed.

Lemma held_step (l : label) (s s' : system) (evs : list event) : channels s -> step l s = Some (s', evs) -> Forall held_ok (waiters s').
Proof.
  intros Hch H. apply Forall_lookup_2. intros w wt' Hw' r Hr. destruct (waiters s !! w) as [wt|] eqn:Hw.
  - destruct (waiters_step _ _ _ _ _ _ H Hw) as (wt2 & Hw2 & Hle). rewrite Hw' in Hw2. injection Hw2 as <-.
    assert (w_id wt' = w_id wt) as -> by (by destruct Hle as [(Ei & _)|(j & r' & _ & _ & ->)]).
    destruct (waiter_chan_step _ _ _ _ _ _ _ H Hw Hw') as [Hh _]. destruct (Hh r Hr) as [Hr'|[j Hj]].
    + exact (Forall_lookup_1 _ _ _ _ (ch_held s Hch) Hw r Hr').
    + pose proof (Forall_lookup_1 _ _ _ _ (ch_jobs s Hch) Hj) as Hok.
      pose proof (Forall_lookup_1 _ _ _ _ (ch_uploads s Hch) Hj) as (wt1 & Hw1 & E1 & Ht1). split_and!; [done|done|congruence].
  - destruct (waiters_new _ _ _ _ _ _ H Hw Hw') as (_ & i & src & dst & t & k & todo & m & _ & _ & _ & -> & _). by destruct Hr.
Qed.

Lemma unsent_step (l : label) (s s' : system) (evs : list event) (w : nat) (wt' : waiter) :
  counted s -> counted s' -> channels s -> step l s = Some (s', evs) ->
  waiters s' !! w = Some wt' -> (1 <= live (w_id wt') s')%nat -> unsent wt'.
Proof.
  intros Hc Hc' Hch H Hw' Hl'. destruct (waiters s !! w) as [wt|] eqn:Hw.
  2: { by destruct (waiters_new _ _ _ _ _ _ H Hw Hw') as (_ & i & src & dst & t & k & todo & m & _ & _ & _ & -> & _). }
  destruct (waiters_step _ _ _ _ _ _ H Hw) as (wt2 & Hw2 & Hle). rewrite Hw' in Hw2. injection Hw2 as <-.
  assert (w_id wt' = w_id wt) as Ei by (by destruct Hle as [(Ei & _)|(j & r' & _ & _ & ->)]). rewrite Ei in Hl'. set (x := w_id wt) in *.
  assert (1 <= live x s)%nat as Hl.
  { destruct (live_step l s s' evs x (sendings s Hc) H) as [H1 _]. pose proof (waits_once s Hc x) as H2.
    pose proof (total_lookup (waiter_c x) _ _ _ Hw) as H3. unfold waiter_c in H3 at 1. rewrite one_eq in H3 by done. unfold waiting in H2. lia. }
  destruct (waiter_chan_step _ _ _ _ _ _ _ H Hw Hw') as [_ Hu].
  destruct (Hu (ch_unsent s Hch w wt Hw Hl)) as [|[(j & r & Hj & Hj')|(j & r & Hj)]]; [done|exfalso..].
  - pose proof (Forall_lookup_1 _ _ _ _ (ch_uploads s Hch) Hj) as (wt1 & Hw1 & E1 & Ht1). assert (wt1 = wt) as -> by congruence.
    pose proof (total_lookup (close_c x) _ _ _ Hj') as H3. cbn [close_c] in H3. unfold res_c in H3. rewrite one_eq in H3 by done.
    pose proof (once s' Hc' x) as H4. rewrite live_closing in H4. unfold closing in H4. lia.
  - pose proof (Forall_lookup_1 _ _ _ _ (ch_uploads s Hch) Hj) as (wt1 & Hw1 & E1 & Ht1 & _). assert (wt1 = wt) as -> by congruence.
    pose proof (total_lookup (close_c x) _ _ _ Hj) as H3. cbn [close_c] in H3. unfold res_c in H3. rewrite one_eq in H3 by done.
    pose proof (once s Hc x) as H4. rewrite live_closing in H4. unfold closing in H4. lia.
Qed.

Lemma channels_step (l : label) (s s' : system) (evs : list event) :
  counted s -> counted s' -> channels s -> step l s = Some (s', evs) -> channels s'.
Proof.
  intros Hc Hc' Hch H. split.
  - exact (jobs_ok_step l s s' evs (ch_jobs s Hch) H).
  - exact (held_step l s s' evs Hch H).
  - exact (watchers_step l s s' evs (ch_watchers s Hch) H).
  - exact (uploads_step l s s' evs Hc Hch H).
  - intros w wt. exact (unsent_step l s s' evs w wt Hc Hc' Hch H).
  - exact (closed_step l s s' evs Hch H).
Qed.
Lemma channels_init (d : disk) : channels (init d).
Proof. split; try done; constructor. Qed.
End TaskChannels.
