(* ===== verification/TaskMesh.v ===== *)
(** A ping mesh in [TaskSystem]: the request's wait group and latency channel
    agree with its waiters, its events name the task of each waiter, and the
    theorems about its result. *)

From S2P Require Import Prelude GoStrings GoResult GoFloat TaskController TaskAgent TaskSystem TaskCounts TaskChannels.

Module TaskMesh.
Import TaskController TaskAgent TaskSystem TaskCounts TaskChannels.

(** ** The accounts of a request *)

Definition is_active (p : wait_phase) : bool := match p with W_Done _ => false | _ => true end.
Definition mine (i : nat) (w : waiter) : nat := one (w_mesh w = i).
Definition active (i : nat) (w : waiter) : nat := if is_active (w_phase w) then mine i w else 0%nat.
(** The latency that a waiter has sent. *)
Definition sent_latency (w : waiter) : option Latency :=
  match w_phase w with W_Finish o | W_Done o => latency_of (w_src w) (w_dst w) o | _ => None end.
Definition pushed (i : nat) (w : waiter) : option Latency := if decide (w_mesh w = i) then sent_latency w else None.
Definition remaining (pc : mesh_pc) : nat :=
  match pc with M_Loop todo => length todo | M_Dispatch _ _ _ todo | M_Send _ _ _ _ todo => S (length todo) | M_Done _ => 0%nat end.

Record account (s : system) (i : nat) (m : mesh) : Prop := MkAccount {
  a_group : m_group m = total (active i) (waiters s);
  a_chan : m_chan m ≡ₚ omap (pushed i) (waiters s);
  a_room : (total (mine i) (waiters s) + remaining (m_pc m) <= length (mesh_pairs (m_srcs m) (m_dsts m)))%nat;
  a_done : ∀ res, m_pc m = M_Done res -> m_group m = 0%nat ∧ res = mesh_result m;
}.
Record accounts (s : system) : Prop := MkAccounts {
  ac_mesh : Forall (λ w, is_Some (meshes s !! w_mesh w)) (waiters s);
  ac_each : ∀ i m, meshes s !! i = Some m -> account s i m;
}.

(** ** Lemmas *)

Lemma omap_insert_same {A B : Type} (f : A -> option B) (l : list A) (i : nat) (a b : A) :
  l !! i = Some a -> f a = f b -> omap f (<[i := b]> l) = omap f l.
Proof.
  revert i. induction l as [|x l IH]; intros [|i] Hi E; simplify_eq/=; [by rewrite E|]. by rewrite (IH i).
Qed.
Lemma omap_insert_new {A B : Type} (f : A -> option B) (l : list A) (i : nat) (a b : A) (y : B) :
  l !! i = Some a -> f a = None -> f b = Some y -> omap f (<[i := b]> l) ≡ₚ y :: omap f l.
Proof.
  revert i. induction l as [|x l IH]; intros [|i] Hi Ha Hb; simplify_eq/=; [by rewrite Ha, Hb|].
  destruct (f x); [|by apply IH]. rewrite (IH i) by done. apply Permutation_swap.
Qed.
Lemma omap_none {A B : Type} (f : A -> option B) (l : list A) : Forall (λ x, f x = None) l -> omap f l = [].
Proof. induction 1 as [|x l Hx _ IH]; [done|]. simpl. by rewrite Hx. Qed.
Lemma total_zero {A : Type} (f : A -> nat) (l : list A) : Forall (λ x, f x = 0%nat) l -> total f l = 0%nat.
Proof. induction 1 as [|x l Hx _ IH]; [done|]. simpl. lia. Qed.
Lemma total_le {A : Type} (f g : A -> nat) (l : list A) : (∀ x, (f x <= g x)%nat) -> (total f l <= total g l)%nat.
Proof. intros H. induction l as [|x l IH]; [done|]. simpl. specialize (H x). lia. Qed.

Lemma not_mine (s : system) (i : nat) : Forall (λ w, is_Some (meshes s !! w_mesh w)) (waiters s) -> (length (meshes s) <= i)%nat -> Forall (λ w, w_mesh w ≠ i) (waiters s).
Proof. intros H Hi. eapply Forall_impl; [exact H|]. intros w Hw%lookup_lt_is_Some_1. lia. Qed.

(** A pair of lists: each mesh is an old one or a new one. *)
Lemma app_mesh (ms : list mesh) (x m : mesh) (i : nat) : (ms ++ [x]) !! i = Some m -> ms !! i = Some m ∨ (i = length ms ∧ m = x).
Proof.
  intros [H|[Hl H]]%lookup_app_Some; [by left|]. apply list_lookup_singleton_Some in H as [? <-]. right. split; [lia|done].
Qed.
Lemma ac_mesh_step (l : label) (s s' : system) (evs : list event) :
  Forall (λ w, is_Some (meshes s !! w_mesh w)) (waiters s) -> step l s = Some (s', evs) -> Forall (λ w, is_Some (meshes s' !! w_mesh w)) (waiters s').
Proof.
  intros Hm H. assert (length (meshes s) <= length (meshes s'))%nat as Hlen.
  { destruct l; open_step H; split_outcome; places; rewrite ?length_insert, ?length_app; lia. }
  apply Forall_lookup_2. intros w wt' Hw'. destruct (waiters s !! w) as [wt|] eqn:Hw.
  - destruct (waiters_step _ _ _ _ _ _ H Hw) as (wt2 & Hw2 & Hle). rewrite Hw' in Hw2. injection Hw2 as <-.
    assert (w_mesh wt' = w_mesh wt) as -> by (by destruct Hle as [(_ & Ei & _)|(j & r' & _ & _ & ->)]).
    pose proof (Forall_lookup_1 _ _ _ _ Hm Hw) as Hi%lookup_lt_is_Some_1. apply lookup_lt_is_Some_2. lia.
  - destruct (waiters_new _ _ _ _ _ _ H Hw Hw') as (_ & i & src & dst & t & k & todo & m & _ & Hi & _ & -> & _).
    cbn. apply lookup_lt_Some in Hi. apply lookup_lt_is_Some_2. lia.
Qed.

(** Waiters whose change does not matter to the accounts. *)
Lemma account_same (s s' : system) (i w : nat) (a b : waiter) (m : mesh) :
  waiters s !! w = Some a -> waiters s' = <[w := b]> (waiters s) -> w_mesh b = w_mesh a -> is_active (w_phase b) = is_active (w_phase a) ->
  sent_latency b = sent_latency a -> account s i m -> account s' i m.
Proof.
  intros Hw E Em Ea Es [Hg Hc Hr Hd]. split; try done; rewrite E.
  - pose proof (total_insert (active i) _ _ _ b Hw) as H. unfold active in H at 2 4. rewrite Ea in H. unfold mine in H. rewrite Em in H. lia.
  - rewrite (omap_insert_same _ _ _ _ _ Hw); [done|]. unfold pushed. by rewrite Em, Es.
  - pose proof (total_insert (mine i) _ _ _ b Hw) as H. unfold mine in H at 2 4. rewrite Em in H. lia.
Qed.
Lemma account_pc (s s' : system) (i : nat) (m m' : mesh) :
  waiters s' = waiters s -> m_group m' = m_group m -> m_chan m' = m_chan m -> m_srcs m' = m_srcs m -> m_dsts m' = m_dsts m ->
  (remaining (m_pc m') <= remaining (m_pc m))%nat -> (∀ res, m_pc m' = M_Done res -> m_group m' = 0%nat ∧ res = mesh_result m') -> account s i m -> account s' i m'.
Proof. intros Ew Eg Ec Es Ed Hr Hdn [Hg Hc Hr' Hd]. split; [..|done]; rewrite ?Ew, ?Eg, ?Ec, ?Es, ?Ed; try done. lia. Qed.

(** A request has not returned while a waiter of its own has not finished. *)
Lemma active_not_done (s : system) (i w : nat) (a : waiter) (m : mesh) (res : result (option task_err) (gset NodeInfo * list Latency)) :
  account s i m -> waiters s !! w = Some a -> w_mesh a = i -> is_active (w_phase a) = true -> m_pc m ≠ M_Done res.
Proof.
  intros [Hg _ _ Hd] Hw Em Hact Hpc. destruct (Hd res Hpc) as [H0 _]. pose proof (total_lookup (active i) _ _ _ Hw) as H.
  unfold active in H at 1. rewrite Hact in H. unfold mine in H. rewrite one_eq in H by done. lia.
Qed.
(** The waiter's send of its latency, and its end. *)
Lemma account_report (s s' : system) (i w : nat) (a : waiter) (o : waited) (m m' : mesh) :
  waiters s !! w = Some a -> w_phase a = W_Report o -> w_mesh a = i -> waiters s' = <[w := with_wait a (W_Finish o)]> (waiters s) ->
  m_srcs m' = m_srcs m -> m_dsts m' = m_dsts m -> m_pc m' = m_pc m -> m_group m' = m_group m ->
  m_chan m' = m_chan m ++ option_list (latency_of (w_src a) (w_dst a) o) -> account s i m -> account s' i m'.
Proof.
  intros Hw Hp Em E Es Ed Epc Eg Ec Hacc. pose proof Hacc as [Hg Hc Hr Hd]. split; rewrite ?E, ?Es, ?Ed, ?Epc, ?Ec.
  - pose proof (total_insert (active i) _ _ _ (with_wait a (W_Finish o)) Hw) as H. unfold active in H at 2 4. rewrite Hp in H. cbn in H.
    unfold mine in H. cbn in H. lia.
  - rewrite Hc. destruct (latency_of (w_src a) (w_dst a) o) as [y|] eqn:El; cbn [option_list].
    + rewrite (omap_insert_new _ _ _ _ _ y Hw); [by rewrite Permutation_app_comm|..]; unfold pushed, sent_latency; rewrite decide_True by done; [by rewrite Hp|done].
    + rewrite app_nil_r. rewrite (omap_insert_same _ _ _ _ _ Hw); [done|]. unfold pushed, sent_latency. rewrite !decide_True by done. rewrite Hp. cbn. done.
  - pose proof (total_insert (mine i) _ _ _ (with_wait a (W_Finish o)) Hw) as H. unfold mine in H at 2 4. cbn in H. lia.
  - intros res Hres. destruct (active_not_done s i w a m res); [done..|by rewrite Hp|congruence].
Qed.
Lemma account_finish (s s' : system) (i w : nat) (a : waiter) (o : waited) (m : mesh) :
  waiters s !! w = Some a -> w_phase a = W_Finish o -> w_mesh a = i -> waiters s' = <[w := with_wait a (W_Done o)]> (waiters s) -> account s i m ->
  account s' i (MkMesh (m_srcs m) (m_dsts m) (m_pc m) (m_done m) (pred (m_group m)) (m_chan m) (m_err m)).
Proof.
  intros Hw Hp Em E [Hg Hc Hr Hd]. split; rewrite ?E; cbn [m_group m_chan m_pc m_srcs m_dsts].
  - pose proof (total_insert (active i) _ _ _ (with_wait a (W_Done o)) Hw) as H. unfold active in H at 2 4. rewrite Hp in H. cbn in H.
    unfold mine in H. rewrite one_eq in H by done. lia.
  - rewrite (omap_insert_same _ _ _ _ _ Hw); [done|]. unfold pushed, sent_latency. cbn. by rewrite Hp.
  - pose proof (total_insert (mine i) _ _ _ (with_wait a (W_Done o)) Hw) as H. unfold mine in H at 2 4. cbn in H. lia.
  - intros res Hres. destruct (Hd res Hres) as [-> ->]. done.
Qed.
(** Another request's waiter. *)
Lemma account_other (s s' : system) (i w : nat) (a b : waiter) (m : mesh) :
  waiters s !! w = Some a -> waiters s' = <[w := b]> (waiters s) -> w_mesh b = w_mesh a -> w_mesh a ≠ i -> account s i m -> account s' i m.
Proof.
  intros Hw E Em Hne [Hg Hc Hr Hd].
  assert (mine i a = 0%nat) as Ha by (unfold mine, one; by rewrite decide_False by congruence).
  assert (mine i b = 0%nat) as Hb by (unfold mine, one; by rewrite decide_False by congruence). split; try done; rewrite E.
  - pose proof (total_insert (active i) _ _ _ b Hw) as H. unfold active in H at 2 4. rewrite Ha, Hb in H.
    destruct (is_active (w_phase a)), (is_active (w_phase b)); lia.
  - rewrite (omap_insert_same _ _ _ _ _ Hw); [done|]. unfold pushed. by rewrite !decide_False by congruence.
  - pose proof (total_insert (mine i) _ _ _ b Hw) as H. lia.
Qed.
Lemma account_new (s s' : system) (i : nat) (x : waiter) (m m' : mesh) :
  waiters s' = waiters s ++ [x] -> w_phase x = W_Start -> m_chan m' = m_chan m -> m_srcs m' = m_srcs m -> m_dsts m' = m_dsts m ->
  m_group m' = (m_group m + mine i x)%nat -> (remaining (m_pc m') + mine i x <= remaining (m_pc m))%nat -> (∀ res, m_pc m' = M_Done res -> m_pc m = M_Done res ∧ mine i x = 0%nat ∧ m_err m' = m_err m) ->
  account s i m -> account s' i m'.
Proof.
  intros E Hx Ec Es Ed Eg Hr' Hpc [Hg Hc Hr Hd]. split.
  - rewrite E, total_app, Eg, Hg. cbn [total]. assert (active i x = mine i x) as -> by (unfold active; by rewrite Hx). lia.
  - rewrite E, Ec, Hc, omap_app. assert (omap (pushed i) [x] = []) as ->; [|by rewrite app_nil_r].
    cbn. unfold pushed, sent_latency. rewrite Hx. by destruct (decide _).
  - rewrite E, total_app, Es, Ed. cbn [total]. lia.
  - intros res (Hpc' & H0 & Ee)%Hpc. destruct (Hd res Hpc') as [H1 ->]. split; [lia|]. unfold mesh_result. by rewrite Ec, Es, Ed, Ee.
Qed.

Lemma accounts_step (l : label) (s s' : system) (evs : list event) (i : nat) (m : mesh) :
  accounts s -> step l s = Some (s', evs) -> meshes s' !! i = Some m -> account s' i m.
Proof.
  intros [Hm Ha] H. destruct l; open_step H; split_outcome; places; intros Hi.
  all: try (by eapply (account_pc s _ i m m); [..|apply Ha, Hi]; try done; eapply a_done, Ha).
  (* a waiter moves between points that count the same *)
  all: try (by eapply account_same; [eassumption|reflexivity|..|apply Ha, Hi];
    unfold sent_latency; cbn; repeat match goal with H : w_phase _ = _ |- _ => rewrite H end).
  (* a new request *)
  1: { apply app_mesh in Hi as [Hi|[-> ->]]; [by eapply (account_pc s _ i m m); [..|apply Ha, Hi]; try done; eapply a_done, Ha|].
    pose proof (not_mine s _ Hm (Nat.le_refl _)) as Hno. split; cbn [m_group m_chan m_pc m_srcs m_dsts remaining set_meshes waiters]; try done.
    - symmetry. apply total_zero. eapply Forall_impl; [exact Hno|]. intros w Hw. unfold active, mine, one. rewrite decide_False by done. by destruct (is_active _).
    - rewrite omap_none; [done|]. eapply Forall_impl; [exact Hno|]. intros w Hw. unfold pushed. by rewrite decide_False by done.
    - rewrite total_zero; [lia|]. eapply Forall_impl; [exact Hno|]. intros w Hw. unfold mine, one. by rewrite decide_False by done. }
  all: try (apply list_lookup_insert_Some in Hi as [(<- & <- & _)|[Hne Hi]]).
  all: try (by eapply (account_pc s _ i m m); [..|apply Ha, Hi]; try done; eapply a_done, Ha).
  all: try (by eapply account_other; [eassumption|reflexivity|..|apply Ha, Hi]).
  all: try (by eapply account_report; [eassumption|eassumption|..|apply Ha; eassumption]; cbn [m_srcs m_dsts m_pc m_group m_chan];
    repeat match goal with H : latency_of _ _ _ = _ |- _ => rewrite H end; cbn [option_list]; rewrite ?app_nil_r).
  all: try (by eapply account_finish; [eassumption|eassumption|..|apply Ha; eassumption]).
  all: try (by eapply account_pc; [..|apply Ha; eassumption]; try done; cbn [m_pc with_pc with_err]; repeat match goal with H : m_pc _ = _ |- _ => rewrite H end;
    first [done|cbn; lia|intros res [= <-]; split; done]).
  - match goal with H : m_pc _ = _ |- _ => rename H into Hpc end.
    assert (mine m0 (MkWaiter m0 src dst (t_Id task) W_Start None false) = 1%nat) as E1 by (unfold mine; by apply one_eq).
    eapply (account_new s); [reflexivity|done|..|apply Ha; eassumption]; try done; rewrite ?E1, ?Hpc; cbn; lia.
  - assert (mine i (MkWaiter m0 src dst (t_Id task) W_Start None false) = 0%nat) as E0 by (unfold mine, one; by rewrite decide_False by done).
    eapply (account_new s); [reflexivity|done|..|apply Ha; eassumption]; try done; rewrite E0; try lia.
  - eapply account_pc; [..|apply Ha; eassumption]; try done. match goal with H : meshes s !! _ = Some _ |- _ => exact (a_done _ _ _ (Ha _ _ H)) end.
Qed.

Lemma accounts_init (d : disk) : accounts (init d).
Proof. split; [constructor|done]. Qed.
Lemma accounts_run (d : disk) (ls : list label) (s : system) (tr : list event) :
  Z.of_nat (length ls) < 2 ^ 63 -> run ls (init d) = Some (s, tr) -> accounts s ∧ channels s.
Proof.
  revert ls s tr. apply (run_invariant d (λ _ s, accounts s ∧ channels s)); [split; [apply accounts_init|apply channels_init]|].
  intros l s s' tr evs H0 H1 Hc Hc' [Ha Hch] H. split; [|by eapply (channels_step l s)].
  split; [eapply ac_mesh_step; [by apply ac_mesh|done]|]. intros i m. by eapply accounts_step.
Qed.

(** The latency channel has room for a waiter that has not sent yet. *)
Lemma mesh_pairs_length (srcs dsts : list NodeInfo) : (length (mesh_pairs srcs dsts) <= length srcs * length dsts)%nat.
Proof.
  unfold mesh_pairs. etrans; [apply filter_length_le|]. induction srcs as [|x srcs IH]; [done|].
  cbn [mbind list_bind]. rewrite length_app, length_fmap. cbn [length]. lia.
Qed.
Lemma pushed_bound (i : nat) (ws : list waiter) : (length (omap (pushed i) ws) <= total (mine i) ws)%nat.
Proof.
  induction ws as [|w ws IH]; [done|]. cbn. unfold pushed at 1, mine at 1, one. destruct (decide (w_mesh w = i)); [|lia].
  destruct (sent_latency w); cbn; lia.
Qed.
Lemma latency_room (s : system) (w : nat) (a : waiter) (m : mesh) :
  accounts s -> waiters s !! w = Some a -> sent_latency a = None -> meshes s !! w_mesh a = Some m -> (length (m_chan m) < length (m_srcs m) * length (m_dsts m))%nat.
Proof.
  intros Hacc Hw Hs Hm. destruct (ac_each s Hacc _ _ Hm) as [_ Hc Hr _]. rewrite Hc.
  assert (length (omap (pushed (w_mesh a)) (waiters s)) < total (mine (w_mesh a)) (waiters s))%nat as Hlt.
  { apply list_elem_of_split_length in Hw as (l1 & l2 & E & _). rewrite E, omap_app, total_app, length_app. cbn [omap list_omap total].
    pose proof (pushed_bound (w_mesh a) l1). pose proof (pushed_bound (w_mesh a) l2).
    assert (pushed (w_mesh a) a = None) as -> by (unfold pushed; by rewrite Hs; destruct (decide _)).
    assert (mine (w_mesh a) a = 1%nat) as -> by (unfold mine; by apply one_eq). lia. }
  pose proof (mesh_pairs_length (m_srcs m) (m_dsts m)). lia.
Qed.

(** ** No panic *)

Lemma store_all_no_panic (d : disk) (id : Z) (r : TaskResult) (es : list CaptureTaskResult) :
  (tr_Success r = true -> is_Some (GetCapture r)) -> (store_all d id r es).2 ≠ Panic.
Proof.
  intros Hr. revert d. induction es as [|e es IH]; intros d; cbn [store_all]; [done|].
  destruct (result_for r (ct_Spec e)).
  - assert ((store_one d id r e).2 ≠ Panic) as H1.
    { unfold store_one. destruct (tr_Success r); [|done]. destruct (Hr eq_refl) as [c ->]. unfold storeCaptureFile.
      destruct (negb (writable d (captureDir id))); [done|]. by destruct (negb _). }
    destruct (store_one d id r e) as [[d1 e1] o]. cbn [snd] in H1. destruct o; try done.
    specialize (IH d1). by destruct (store_all d1 id r es) as [[d2 es2] o].
  - specialize (IH d). by destruct (store_all d id r es) as [[d2 es2] o].
Qed.
Lemma store_no_panic (caps : gmap Z (list CaptureTaskResult)) (d : disk) (r : TaskResult) :
  result_ok r -> tr_Type r = Capture -> (storeCaptureResult caps d r).2 ≠ Panic.
Proof.
  intros Hr Ht. unfold result_ok in Hr. rewrite Ht in Hr. unfold storeCaptureResult. destruct (caps !! _) as [es|]; [|done].
  rewrite bool_decide_eq_true_2 by done. pose proof (store_all_no_panic d (value (Atoi (tr_Id r))) r es Hr) as H.
  by destruct (store_all d (value (Atoi (tr_Id r))) r es) as [[d2 es2] o].
Qed.

Lemma no_panic_step (l : label) (s s' : system) (evs : list event) :
  counted s -> accounts s -> channels s -> step l s = Some (s', evs) -> panicked s' = false.
Proof.
  intros Hc Ha Hch H. destruct l; open_step H; try (cbn; done).
  - pose proof (store_no_panic (captureTasks s) (fs s) r) as Hn. cbn [captureTasks fs set_jobs] in *. 
    match goal with H : storeCaptureResult _ _ _ = _ |- _ => rewrite H in Hn end. cbn [snd] in Hn.
    assert (result_ok r) as Hr by (match goal with H : jobs s !! _ = Some _ |- _ => exact (Forall_lookup_1 _ _ _ _ (ch_jobs s Hch) H) end).
    match goal with o : result task_err () |- _ => destruct o end; try done. by destruct Hn.
  - match goal with H : jobs s !! _ = Some _ |- _ => rename H into Hj end. match goal with H : waiters s !! _ = Some _ |- _ => rename H into Hw end.
    pose proof (Forall_lookup_1 _ _ _ _ (ch_uploads s Hch) Hj) as (wt & Hw' & E & Ht). rewrite Hw in Hw'. injection Hw' as ->.
    destruct (ch_unsent s Hch _ _ Hw) as (_ & Hcl & _); [|congruence]. rewrite E.
    pose proof (total_lookup (live_c (tr_Id r)) _ _ _ Hj) as H1. unfold live. cbn [live_c job_c] in H1. unfold res_c in H1. rewrite one_eq in H1 by done. lia.
  - match goal with H : jobs s !! _ = Some _ |- _ => rename H into Hj end. match goal with H : waiters s !! _ = Some _ |- _ => rename H into Hw end.
    pose proof (Forall_lookup_1 _ _ _ _ (ch_uploads s Hch) Hj) as (wt & Hw' & E & Ht & Hcl & _). rewrite Hw in Hw'. injection Hw' as ->. congruence.
  - match goal with H : waiters s !! _ = Some _ |- _ => rename H into Hw end. match goal with H : meshes s !! _ = Some _ |- _ => rename H into Hm end.
    destruct (active_not_done s _ w _ _ res (ac_each s Ha _ _ Hm) Hw eq_refl); [|done].
    match goal with H : w_phase _ = _ |- _ => by rewrite H end.
Qed.

Definition not_closed (w : waiter) : Prop := outcome_of (w_phase w) ≠ Some ChannelClosed.
Lemma not_closed_step (l : label) (s s' : system) (evs : list event) :
  channels s -> Forall not_closed (waiters s) -> step l s = Some (s', evs) -> Forall not_closed (waiters s').
Proof.
  intros Hch Hn H. destruct l; open_step H; split_outcome; places; try done.
  all: try (by apply Forall_app_2; [|apply Forall_singleton]).
  all: match goal with H : waiters _ !! _ = Some _ |- _ => rename H into Hw end; apply Forall_insert; [done|].
  all: pose proof (Forall_lookup_1 _ _ _ _ Hn Hw) as H; unfold not_closed in *; cbn in *.
  all: try match goal with H : w_phase _ = _ |- _ => rewrite H in * end; try done.
  pose proof (Forall_lookup_1 _ _ _ _ (ch_closed s Hch) Hw) as Hc. unfold before_return in Hc.
  match goal with H : w_phase _ = _ |- _ => rewrite H in Hc end. destruct (Hc eq_refl); [done|congruence].
Qed.

(** C10: no interleaving of requests, streams, waiters and agents
    panics the controller: no result is sent on a closed channel, none is
    closed twice, no latency is sent after the request has closed its channel,
    no capture's success comes without a file; and in every state an upload
    that has found its waiter, and a waiter with a latency to send, find room
    in their channels, and no waiter sees its channel closed without a
    result. *)
Theorem tasks_safe (d : disk) (ls : list label) (s : system) (tr : list event)
    (Hlen : Z.of_nat (length ls) < 2 ^ 63) (Hrun : run ls (init d) = Some (s, tr)) :
  panicked s = false ∧
  (∀ j w r, jobs s !! j = Some (J_Send w r) -> is_Some (step (JobSend j) s)) ∧
  (∀ w wt o, waiters s !! w = Some wt -> w_phase wt = W_Report o -> is_Some (step (WaitReport w) s)) ∧
  (∀ w wt, waiters s !! w = Some wt -> outcome_of (w_phase wt) ≠ Some ChannelClosed).
Proof.
  pose proof (run_counted d ls s tr Hlen Hrun) as [_ Hc]. pose proof (accounts_run d ls s tr Hlen Hrun) as [Ha Hch].
  assert (panicked s = false ∧ Forall not_closed (waiters s)) as [Hp Hn].
  { revert ls s tr Hlen Hrun Hc Ha Hch. intros ls s tr Hlen Hrun _ _ _. revert ls s tr Hlen Hrun.
    refine (λ ls s tr Hlen Hrun, proj2 (run_invariant d (λ _ s, (accounts s ∧ channels s) ∧ panicked s = false ∧ Forall not_closed (waiters s)) _ _ ls s tr Hlen Hrun)).
    - split; [split; [apply accounts_init|apply channels_init]|split; [done|constructor]].
    - intros l s1 s2 tr1 evs H0 H1 Hc Hc' ([Ha Hch] & Hp & Hn) H. split_and!.
      + split; [eapply ac_mesh_step; [by apply ac_mesh|done]|]. intros i m. by eapply accounts_step.
      + exact (channels_step l s1 s2 evs Hc Hc' Hch H).
      + exact (no_panic_step l s1 s2 evs Hc Ha Hch H).
      + exact (not_closed_step l s1 s2 evs Hch Hn H). }
  split_and!; [done|..].
  - intros j w r Hj. pose proof (Forall_lookup_1 _ _ _ _ (ch_uploads s Hch) Hj) as (wt & Hw & E & Ht).
    assert (1 <= live (w_id wt) s)%nat as Hl.
    { pose proof (total_lookup (live_c (w_id wt)) _ _ _ Hj) as H1. unfold live. cbn [live_c job_c] in H1. unfold res_c in H1. rewrite one_eq in H1 by done. lia. }
    destruct (ch_unsent s Hch _ _ Hw Hl) as (Hcn & Hcl & _). unfold step, job_step, job_send. rewrite Hp, Hj. cbn [mbind option_bind].
    rewrite Hw. cbn [mbind option_bind]. rewrite Hcl, Hcn. by eexists.
  - intros w wt o Hw Ho. destruct (Forall_lookup_1 _ _ _ _ (ac_mesh s Ha) Hw) as [m Hm]. unfold step, wait_step. rewrite Hp, Hw. cbn [mbind option_bind].
    rewrite Hm. cbn [mbind option_bind]. rewrite Ho. unfold wait_report. destruct (latency_of _ _ _); [|by eexists].
    rewrite (proj2 (Nat.ltb_lt _ _)) by (eapply latency_room; [done..| |done]; unfold sent_latency; by rewrite Ho).
    destruct (m_pc m); by eexists.
  - intros w wt Hw. exact (Forall_lookup_1 _ _ _ _ Hn Hw).
Qed.

(** ** Where a latency comes from *)

Definition commit : Type := nat * NodeInfo * NodeInfo * Task.
Definition c_mesh (c : commit) : nat := c.1.1.1.
Definition c_task (c : commit) : Task := c.2.
Definition commit_of (e : event) : option commit := match e with Committed m src dst t => Some (m, src, dst, t) | _ => None end.
Definition commits (tr : list event) : list commit := omap commit_of tr.
(** The tasks that request [i] has sent, in order. *)
Definition commits_by (i : nat) (tr : list event) : list commit := List.filter (λ c, bool_decide (c_mesh c = i)) (commits tr).

Definition matches (c : commit) (w : waiter) : Prop := c = (w_mesh w, w_src w, w_dst w, c_task c) ∧ t_Id (c_task c) = w_id w.

(** An agent has run the ping of a task that was sent. *)
Definition answered (tr : list event) (r : TaskResult) : Prop :=
  ∃ c env p, c ∈ commits tr ∧ t_Info (c_task c) = Task_Ping p ∧ Pinged (c_task c) env r ∈ tr ∧
    r = ProcessPing (entries env) (sh env) (parse_error env) (c_task c) p.
Definition task_known (tr : list event) (t : Task) : Prop := t_Type t = Ping -> ∃ c, c ∈ commits tr ∧ c_task c = t.
Definition job_known (tr : list event) (j : job) : Prop :=
  match j with
  | J_Run t => task_known tr t
  | J_Upload r | J_Send _ r | J_Close _ r => tr_Type r = Ping -> answered tr r
  | J_Done => True
  end.
Definition stream_known (tr : list event) (st : stream) : Prop := Forall (task_known tr) (match s_chan st with Some t => [t] | None => [] end ++ s_wire st).
(** A sent task is one that its request made of a pair of its arguments. *)
Definition requested (s : system) (c : commit) : Prop :=
  ∃ m a1 a2 src0, meshes s !! c_mesh c = Some m ∧ (src0, c.1.2) ∈ mesh_pairs (m_srcs m) (m_dsts m) ∧
    pingTask a1 a2 src0 c.1.2 (t_Id (c_task c)) = Ok (c.1.1.2, c_task c).

Record history (tr : list event) (s : system) : Prop := MkHistory {
  hi_waiters : Forall2 matches (commits tr) (waiters s);
  hi_streams : Forall (stream_known tr) (streams s);
  hi_jobs : Forall (job_known tr) (jobs s);
  hi_held : Forall (λ w, ∀ r, holds w r -> answered tr r) (waiters s);
  hi_requested : Forall (requested s) (commits tr);
}.

Lemma answered_app (tr evs : list event) (r : TaskResult) : answered tr r -> answered (tr ++ evs) r.
Proof.
  intros (c & env & p & Hc & Hp & He & Hr). exists c, env, p. unfold commits. rewrite omap_app.
  split_and!; [apply elem_of_app; by left|done|apply elem_of_app; by left|done].
Qed.
Lemma task_known_app (tr evs : list event) (t : Task) : task_known tr t -> task_known (tr ++ evs) t.
Proof. intros H Ht. destruct (H Ht) as (c & Hc & E). exists c. unfold commits. rewrite omap_app. split; [apply elem_of_app; by left|done]. Qed.
Lemma job_known_app (tr evs : list event) (j : job) : job_known tr j -> job_known (tr ++ evs) j.
Proof. destruct j; cbn; [apply task_known_app|..|done]; intros H Ht; by apply answered_app, H. Qed.
Lemma stream_known_app (tr evs : list event) (st : stream) : stream_known tr st -> stream_known (tr ++ evs) st.
Proof. intros H. eapply Forall_impl; [exact H|]. intros t. apply task_known_app. Qed.

Lemma meshes_step (l : label) (s s' : system) (evs : list event) (i : nat) (m : mesh) :
  step l s = Some (s', evs) -> meshes s !! i = Some m -> ∃ m', meshes s' !! i = Some m' ∧ m_srcs m' = m_srcs m ∧ m_dsts m' = m_dsts m.
Proof.
  intros H Hm. destruct l; open_step H; split_outcome; places.
  all: try (by exists m).
  all: try (exists m; split; [by apply lookup_app_l_Some|done]).
  all: match goal with Hi : meshes ?s !! ?i = Some ?a |- context [@insert _ _ _ _ ?i ?b (meshes ?s)] =>
    refine (insert_related _ i _ a b _ (λ x y, m_srcs y = m_srcs x ∧ m_dsts y = m_dsts x) Hi _ _ Hm); done end.
Qed.
Lemma requested_step (l : label) (s s' : system) (evs : list event) (c : commit) : step l s = Some (s', evs) -> requested s c -> requested s' c.
Proof.
  intros H (m & a1 & a2 & src0 & Hm & Hp & E). destruct (meshes_step _ _ _ _ _ _ H Hm) as (m' & Hm' & Es & Ed).
  exists m', a1, a2, src0. rewrite Es, Ed. done.
Qed.

Lemma Forall2_insert_r {A B : Type} (P : A -> B -> Prop) (l : list A) (k : list B) (i : nat) (a b : B) :
  Forall2 P l k -> k !! i = Some a -> (∀ x, P x a -> P x b) -> Forall2 P l (<[i := b]> k).
Proof.
  intros H. revert i. induction H as [|x y l k Hxy H IH]; intros [|i] Hi HP; simplify_eq/=; constructor; eauto.
Qed.
Lemma commits_app (a b : list event) : commits (a ++ b) = commits a ++ commits b.
Proof. apply omap_app. Qed.

Lemma hi_waiters_step (l : label) (s s' : system) (tr evs : list event) :
  Forall2 matches (commits tr) (waiters s) -> step l s = Some (s', evs) -> Forall2 matches (commits (tr ++ evs)) (waiters s').
Proof.
  intros Hm H. rewrite commits_app. destruct l; open_step H; split_outcome; places; cbn [commits omap list_omap commit_of]; rewrite ?app_nil_r; try done.
  all: try (eapply Forall2_insert_r; [done|eassumption|]; intros x; unfold matches; cbn; done).
  apply Forall2_app; [done|]. by repeat constructor.
Qed.

(** Events of a step, other than a send. *)
Lemma hi_streams_step (l : label) (s s' : system) (tr evs : list event) :
  Forall sending_ok (meshes s) -> Forall (stream_known tr) (streams s) -> step l s = Some (s', evs) -> Forall (stream_known (tr ++ evs)) (streams s').
Proof.
  intros Hs Hst H. assert (Forall (stream_known (tr ++ evs)) (streams s)) as Hst'.
  { eapply Forall_impl; [exact Hst|]. intros st. apply stream_known_app. }
  destruct l; open_step H; split_outcome; places; try done.
  all: try (apply Forall_app_2; [done|]; apply Forall_singleton; by constructor).
  all: apply Forall_insert; [done|].
  all: match goal with Hi : streams ?s !! ?i = Some ?a |- _ => pose proof (Forall_lookup_1 _ _ _ _ Hst' Hi) as Ha; pose proof (Forall_lookup_1 _ _ _ _ Hst Hi) as Ha0 end.
  all: unfold stream_known in *; cbn [s_chan s_wire with_phase option_list app] in *.
  all: repeat match goal with H : s_chan _ = _ |- _ => rewrite H in * | H : s_wire _ = _ |- _ => rewrite H in * end; cbn [option_list app] in *; try done.
  all: cbn [app] in *; rewrite ?Forall_app, ?Forall_cons in *; destruct_and?; split_and?; try done.
  - intros _. exists (m, src, dst, task). split; [|done]. rewrite commits_app. apply elem_of_app. right. by apply list_elem_of_singleton.
Qed.

Lemma hi_jobs_step (l : label) (s s' : system) (tr evs : list event) :
  history tr s -> step l s = Some (s', evs) -> Forall (job_known (tr ++ evs)) (jobs s').
Proof.
  intros Hh H. assert (Forall (job_known (tr ++ evs)) (jobs s)) as Hj'.
  { eapply Forall_impl; [apply (hi_jobs _ _ Hh)|]. intros j. apply job_known_app. }
  destruct l; open_step H; split_outcome; places; try done.
  1: { apply Forall_app_2; [done|]. apply Forall_singleton. cbn. rewrite app_nil_r.
    match goal with Hi : streams ?s !! ?i = Some ?a, Hw : s_wire ?a = _ |- _ => pose proof (Forall_lookup_1 _ _ _ _ (hi_streams _ _ Hh) Hi) as Ha; unfold stream_known in Ha; rewrite Hw in Ha end.
    apply Forall_app in Ha as [_ Ha]. by apply Forall_cons in Ha as [? _]. }
  all: apply Forall_insert; [done|]; try done.
  all: match goal with Hi : jobs _ !! _ = Some _ |- _ => pose proof (Forall_lookup_1 _ _ _ _ Hj' Hi) as Ha; pose proof (Forall_lookup_1 _ _ _ _ (hi_jobs _ _ Hh) Hi) as Ha0 end; try done.
  - intros Ht. match goal with H : ProcessCapture _ _ _ _ _ = Ok _ |- _ => apply ProcessCapture_id in H as [_ E] end. congruence.
  - intros Ht. destruct (Ha0 ltac:(done)) as (c & Hc & <-). exists c, env, p. rewrite commits_app.
    split_and!; [apply elem_of_app; by left|done|apply elem_of_app; right; by apply list_elem_of_singleton|done].
Qed.

Lemma hi_held_step (l : label) (s s' : system) (tr evs : list event) :
  channels s -> history tr s -> step l s = Some (s', evs) -> Forall (λ w, ∀ r, holds w r -> answered (tr ++ evs) r) (waiters s').
Proof.
  intros Hch Hh H. apply Forall_lookup_2. intros w wt' Hw' r Hr. apply answered_app. destruct (waiters s !! w) as [wt|] eqn:Hw.
  - destruct (waiter_chan_step _ _ _ _ _ _ _ H Hw Hw') as [Hx _]. destruct (Hx r Hr) as [Hr'|[j Hj]].
    + exact (Forall_lookup_1 _ _ _ _ (hi_held _ _ Hh) Hw r Hr').
    + pose proof (Forall_lookup_1 _ _ _ _ (ch_uploads s Hch) Hj) as (wt1 & Hw1 & E1 & Ht1).
      exact (Forall_lookup_1 _ _ _ _ (hi_jobs _ _ Hh) Hj Ht1).
  - destruct (waiters_new _ _ _ _ _ _ H Hw Hw') as (_ & i & src & dst & t & k & todo & m & _ & _ & _ & -> & _). by destruct Hr.
Qed.

Lemma hi_requested_step (l : label) (s s' : system) (tr evs : list event) :
  Forall sending_ok (meshes s) -> Forall (requested s) (commits tr) -> step l s = Some (s', evs) -> Forall (requested s') (commits (tr ++ evs)).
Proof.
  intros Hs Hr H. rewrite commits_app. apply Forall_app_2; [eapply Forall_impl; [exact Hr|]; intros c; by apply (requested_step l s s' evs)|].
  assert (evs = [] ∨ (∃ i src dst t k todo m, evs = [Committed i src dst t] ∧ meshes s !! i = Some m ∧ m_pc m = M_Send k src dst t todo) ∨ commits evs = []) as [-> |[Hc| ->]].
  { clear Hr. destruct l; open_step H; split_outcome; try (by left); try (by right; right). right. left. by repeat eexists. }
  - constructor.
  - destruct Hc as (i & src & dst & t & k & todo & m & -> & Hm & Hpc). apply Forall_singleton. apply (requested_step l s s' _ _ H).
    pose proof (Forall_lookup_1 _ _ _ _ Hs Hm) as Hok. unfold sending_ok in Hok. rewrite Hpc in Hok.
    destruct Hok as (_ & a1 & a2 & src0 & Hp & E). by exists m, a1, a2, src0.
  - constructor.
Qed.

Lemma history_run (d : disk) (ls : list label) (s : system) (tr : list event) :
  Z.of_nat (length ls) < 2 ^ 63 -> run ls (init d) = Some (s, tr) -> history tr s.
Proof.
  intros Hlen Hrun. refine (proj2 (run_invariant d (λ tr s, channels s ∧ history tr s) _ _ ls s tr Hlen Hrun)).
  - split; [apply channels_init|]. split; constructor.
  - intros l s1 s2 tr1 evs H0 H1 Hc Hc' [Hch Hh] H. split; [exact (channels_step l s1 s2 evs Hc Hc' Hch H)|]. split.
    + by apply (hi_waiters_step l s1); [apply hi_waiters|].
    + by apply (hi_streams_step l s1); [apply sendings|apply hi_streams|].
    + by apply (hi_jobs_step l s1).
    + by apply (hi_held_step l s1).
    + by apply (hi_requested_step l s1); [apply sendings|apply hi_requested|].
Qed.

(** What a latency says of a task that was sent: that it got no answer in
    time or a failure; or the numbers that the agent's ping printed. *)
Definition reported (tr : list event) (c : commit) (l : Latency) : Prop :=
  l = unreachable c.1.1.2 c.1.2 ∨
  ∃ env p r out lMin lAvg lMax,
    t_Info (c_task c) = Task_Ping p ∧ Pinged (c_task c) env r ∈ tr ∧ ping (entries env) (sh env) p = inr out ∧
    getLatency out = Some (lMin, lAvg, lMax) ∧ l = MkLatency c.1.1.2 c.1.2 (narrow lMax) (narrow lMin) (narrow lAvg).

Lemma Forall2_filter_omap {A B C : Type} (R : A -> C -> Prop) (f : A -> bool) (g : B -> option C) (l : list A) (k : list B) :
  Forall2 (λ a b, if f a then ∃ c, g b = Some c ∧ R a c else g b = None) l k -> Forall2 R (List.filter f l) (omap g k).
Proof.
  induction 1 as [|a b l k Hab _ IH]; [constructor|]. cbn. destruct (f a); [|by rewrite Hab].
  destruct Hab as (c & -> & HR). by constructor.
Qed.

(** The commit of a waiter, by its id. *)
Lemma commit_unique (tr : list event) (s : system) (k : nat) (c c' : commit) (w : waiter) :
  counted s -> history tr s -> commits tr !! k = Some c -> waiters s !! k = Some w -> c' ∈ commits tr -> t_Id (c_task c') = w_id w -> c' = c.
Proof.
  intros Hc Hh Hk Hw Hin Ht. apply list_elem_of_lookup in Hin as [k' Hk']. pose proof (hi_waiters _ _ Hh) as Hm.
  destruct (Forall2_lookup_l _ _ _ _ _ Hm Hk') as (w' & Hw' & _ & E'). assert (k' = k) as ->; [|congruence].
  apply (waiter_unique s k' k w' w Hc Hw' Hw). congruence.
Qed.

Lemma reported_waiter (tr : list event) (s : system) (k : nat) (c : commit) (w : waiter) (o : waited) :
  counted s -> channels s -> history tr s -> commits tr !! k = Some c -> waiters s !! k = Some w -> w_phase w = W_Done o ->
  ∃ l, latency_of (w_src w) (w_dst w) o = Some l ∧ reported tr c l.
Proof.
  intros Hc Hch Hh Hk Hw Hp. pose proof (Forall2_lookup_lr _ _ _ _ _ _ (hi_waiters _ _ Hh) Hk Hw) as [Ec Eid].
  assert (w_src w = c.1.1.2 ∧ w_dst w = c.1.2) as [-> ->] by (by rewrite Ec).
  destruct o as [r| |]; [|by eexists; split; [done|left]..].
  assert (holds w r) as Hr by (right; by rewrite Hp).
  pose proof (Forall_lookup_1 _ _ _ _ (hi_held _ _ Hh) Hw r Hr) as (c' & env & p & Hin & Hi & He & Er).
  destruct (Forall_lookup_1 _ _ _ _ (ch_held s Hch) Hw r Hr) as (_ & _ & Eid').
  assert (c' = c) as ->.
  { eapply (commit_unique tr s k c c' w); try done. rewrite <- Eid', Er. by destruct (ProcessPing_id (entries env) (sh env) (parse_error env) (c_task c') p). }
  pose proof Er as Er'. unfold ProcessPing in Er. destruct (ping (entries env) (sh env) p) as [err|out] eqn:Eping.
  - subst r. eexists. split; [done|by left].
  - destruct (getLatency out) as [[[lMin lAvg] lMax]|] eqn:El.
    + subst r. eexists. split; [done|]. right. by exists env, p, (ProcessPing (entries env) (sh env) (parse_error env) (c_task c) p), out, lMin, lAvg, lMax; rewrite <- Er'.
    + subst r. eexists. split; [done|by left].
Qed.

Lemma no_active (i : nat) (ws : list waiter) : total (active i) ws = 0%nat -> ∀ k w, ws !! k = Some w -> w_mesh w = i -> ∃ o, w_phase w = W_Done o.
Proof.
  intros H k w Hw Hi. pose proof (total_lookup (active i) _ _ _ Hw) as Hle. unfold active in Hle at 1. destruct (w_phase w); try by eexists.
  all: cbn in Hle; unfold mine in Hle; rewrite one_eq in Hle by done; lia.
Qed.

(** The latencies of a request that has returned. *)
Lemma mesh_latencies (tr : list event) (s : system) (i : nat) (m : mesh) (res : result (option task_err) (gset NodeInfo * list Latency)) :
  counted s -> channels s -> accounts s -> history tr s -> meshes s !! i = Some m -> m_pc m = M_Done res ->
  res = mesh_result m ∧ ∃ outs, m_chan m ≡ₚ outs ∧ Forall2 (reported tr) (commits_by i tr) outs.
Proof.
  intros Hc Hch Ha Hh Hm Hpc. destruct (ac_each s Ha _ _ Hm) as [Hg Hcn _ Hd]. destruct (Hd res Hpc) as [H0 ->]. split; [done|].
  exists (omap (pushed i) (waiters s)). split; [done|]. apply Forall2_filter_omap.
  apply Forall2_same_length_lookup_2; [by eapply Forall2_length, hi_waiters|]. intros k c w Hk Hw.
  pose proof (Forall2_lookup_lr _ _ _ _ _ _ (hi_waiters _ _ Hh) Hk Hw) as [Ec _].
  assert (c_mesh c = w_mesh w) as -> by (by rewrite Ec). unfold pushed, sent_latency. case_bool_decide as Hi.
  - rewrite decide_True by done. destruct (no_active i (waiters s) ltac:(lia) k w Hw Hi) as [o Ho]. rewrite Ho.
    by eapply reported_waiter.
  - by rewrite decide_False.
Qed.

(** C9: a ping mesh's result, from the request through agents back
    to the request, in any interleaving.  When [PingMesh] has returned, its
    nodes are those of the arguments, and its latencies are, in some order,
    one for each task that it sent: either the value for "unreachable", or
    the numbers that ping printed when an agent ran the command of that very
    task; and each task sent is the one [dispatchPingTask] makes of a pair of
    different arguments.  It returns an error exactly if no task was sent. *)
Theorem mesh_exact (d : disk) (ls : list label) (s : system) (tr : list event) (i : nat) (m : mesh)
    (res : result (option task_err) (gset NodeInfo * list Latency))
    (Hlen : Z.of_nat (length ls) < 2 ^ 63) (Hrun : run ls (init d) = Some (s, tr))
    (Hm : meshes s !! i = Some m) (Hpc : m_pc m = M_Done res) :
  Forall (requested s) (commits_by i tr) ∧
  match res with
  | Ok (ns, latencies) =>
      ns = mesh_nodes (m_srcs m) (m_dsts m) ∧ commits_by i tr ≠ [] ∧
      ∃ outs, latencies ≡ₚ outs ∧ Forall2 (reported tr) (commits_by i tr) outs
  | Err _ => commits_by i tr = []
  | Panic => False
  end.
Proof.
  pose proof (run_counted d ls s tr Hlen Hrun) as [_ Hc]. pose proof (accounts_run d ls s tr Hlen Hrun) as [Ha Hch].
  pose proof (history_run d ls s tr Hlen Hrun) as Hh. split.
  { apply Forall_forall. intros c Hin. apply list_elem_of_In, filter_In in Hin as [Hin%list_elem_of_In _].
    by apply (proj1 (Forall_forall _ _) (hi_requested _ _ Hh)). }
  destruct (mesh_latencies tr s i m res Hc Hch Ha Hh Hm Hpc) as (-> & outs & Hp & Hf). unfold mesh_result.
  destruct (m_chan m) as [|l lats].
  - apply Permutation_nil_l in Hp. subst outs. by apply Forall2_nil_inv_r in Hf.
  - split_and!; [done| |by exists outs]. intros E. rewrite E in Hf. apply Forall2_nil_inv_l in Hf. subst outs. by apply Permutation_nil_r in Hp.
Qed.

(** ** A run *)

Definition ex_node (name ip : string) : NodeObject := MkNodeObject name [("Hostname", name); ("InternalIP", ip)]%string.
Definition ex_api : api :=
  MkApi (λ _ _, None)
    (λ n, if String.eqb n "n1" then Some (ex_node "n1" "10.0.0.1") else if String.eqb n "n2" then Some (ex_node "n2" "10.0.0.2") else None).
Definition ex_filter : TaskFilter := MkFilter "n1" [Capture; Ping].
Definition ex_info (n : string) : NodeInfo := MkNodeInfo "Node" n EmptyString EmptyString.
Definition ex_machine : machine :=
  MkMachine [] (λ _, MkRan "100 packets transmitted, 100 received
round-trip min/avg/max = 0.5/1.25/2 ms" None) (λ _, inl EmptyString) (λ _, EmptyString).
Definition ex_disk : disk := MkDisk ∅ (λ _, true).
(** One agent, one pair; the waiter is ready before the answer. *)
Definition ex_sent : list label :=
  [Connect ex_filter; PingMesh [ex_info "n1"] [ex_info "n1"; ex_info "n2"]; MeshNext 0; MeshDispatch 0 ex_api ex_api (Some 0%nat); MeshSend 0].
Definition ex_answered : list label := [StreamSend 0 true; AgentReceive 0; JobRun 0 ex_machine; JobUpload 0 true].
Definition ex_reported : list label := [WaitDelete 0; WaitReport 0; WaitFinish 0; MeshNext 0].
Definition ex_run : list label :=
  ex_sent ++ [WaitStore 0] ++ ex_answered ++ [JobSend 0; WaitReceive 0; JobClose 0] ++ ex_reported.
Definition ex_source : NodeInfo := MkNodeInfo "Node" "n1" "n1" EmptyString.
Definition ex_latency : Latency := MkLatency ex_source (ex_info "n2") (Fin (2 ^ 23) (-22)) (Fin (2 ^ 23) (-24)) (Fin (5 * 2 ^ 21) (-23)).

Definition latencies_of (o : outcome) (i : nat) : option (list Latency) :=
  '(s, _) ← o; m ← meshes s !! i; match m_pc m with M_Done (Ok (_, ls)) => Some ls | _ => None end.
Lemma ex_run_latencies : latencies_of (run ex_run (init ex_disk)) 0 = Some [ex_latency].
Proof. vm_compute. reflexivity. Qed.

Lemma latencies_of_Some (o : outcome) (i : nat) (lats : list Latency) :
  latencies_of o i = Some lats -> ∃ s tr m ns, o = Some (s, tr) ∧ meshes s !! i = Some m ∧ m_pc m = M_Done (Ok (ns, lats)).
Proof.
  unfold latencies_of. destruct o as [[s tr]|]; cbn [mbind option_bind]; [|done]. destruct (meshes s !! i) as [m|] eqn:Hm; cbn [mbind option_bind]; [|done].
  destruct (m_pc m) as [| | |[[ns ls]| |]] eqn:Hpc; intros [= <-]. by exists s, tr, m, ns.
Qed.

Lemma tasks_safe_witness : ∃ s tr, run ex_run (init ex_disk) = Some (s, tr) ∧ panicked s = false.
Proof.
  destruct (latencies_of_Some _ _ _ ex_run_latencies) as (s & tr & m & ns & E & _). exists s, tr. split; [done|].
  exact (proj1 (tasks_safe ex_disk ex_run s tr ltac:(vm_compute; reflexivity) E)).
Defined.
Lemma mesh_exact_witness : ∃ s tr m ns, run ex_run (init ex_disk) = Some (s, tr) ∧ meshes s !! 0%nat = Some m ∧ m_pc m = M_Done (Ok (ns, [ex_latency])) ∧
  ∃ outs, [ex_latency] ≡ₚ outs ∧ Forall2 (reported tr) (commits_by 0 tr) outs.
Proof.
  destruct (latencies_of_Some _ _ _ ex_run_latencies) as (s & tr & m & ns & E & Hm & Hpc). exists s, tr, m, ns. split_and!; [done..|].
  exact (proj2 (proj2 (proj2 (mesh_exact ex_disk ex_run s tr 0 m _ ltac:(vm_compute; reflexivity) E Hm Hpc)))).
Defined.
End TaskMesh.
