(* ===== verification/TaskLiveness.v ===== *)
(** Whether a ping mesh returns: after its deadline it does, once its tasks are
    sent; before that it can be stuck for ever in a send.  And the answers
    that get lost. *)

From S2P Require Import Prelude GoStrings GoResult GoFloat TaskController TaskAgent TaskSystem TaskCounts TaskChannels TaskMesh.

Module TaskLiveness.
Import TaskController TaskAgent TaskSystem TaskCounts TaskChannels TaskMesh.

(** ** Steps left *)

Definition weight (p : wait_phase) : nat :=
  match p with W_Start => 5 | W_Select => 4 | W_Return _ => 3 | W_Report _ => 2 | W_Finish _ => 1 | W_Done _ => 0 end%nat.
Definition waiter_left (i : nat) (w : waiter) : nat := if decide (w_mesh w = i) then weight (w_phase w) else 0%nat.
Definition mesh_left (m : mesh) : nat := match m_pc m with M_Done _ => 0%nat | _ => 1%nat end.
Definition steps_left (i : nat) (s : system) : nat :=
  (match meshes s !! i with Some m => mesh_left m | None => 0%nat end + total (waiter_left i) (waiters s))%nat.

(** The labels of the request's own goroutines. *)
Definition waiter_of (l : label) : option nat :=
  match l with WaitStore w | WaitReceive w | WaitDone w | WaitDelete w | WaitReport w | WaitFinish w => Some w | _ => None end.
Definition is_next (i : nat) (l : label) : bool := match l with MeshNext j => bool_decide (j = i) | _ => false end.
Definition is_waiter (i : nat) (l : label) (s : system) : bool :=
  match waiter_of l ≫= λ w, waiters s !! w with Some wt => bool_decide (w_mesh wt = i) | None => false end.
Definition own (i : nat) (l : label) (s : system) : bool := is_next i l || is_waiter i l s.
Definition tick (b : bool) : nat := if b then 1%nat else 0%nat.
Fixpoint own_steps (i : nat) (ls : list label) (s : system) : nat :=
  match ls with
  | [] => 0%nat
  | l :: ls' => match step l s with Some (s', _) => (tick (own i l s) + own_steps i ls' s')%nat | None => 0%nat end
  end.

(** All tasks are sent, and the deadline has passed. *)
Definition finishing (i : nat) (s : system) : Prop :=
  ∃ m, meshes s !! i = Some m ∧ m_done m = true ∧ match m_pc m with M_Loop [] | M_Done _ => True | _ => False end.

Lemma finish_waiters (i : nat) (l : label) (s s' : system) (evs : list event) :
  (∀ j, l = MeshSend j -> j ≠ i) -> panicked s' = false -> step l s = Some (s', evs) ->
  (total (waiter_left i) (waiters s') + tick (is_waiter i l s) <= total (waiter_left i) (waiters s))%nat.
Proof.
  intros Hl Hp H. unfold is_waiter. destruct l; open_step H; split_outcome; places; cbn [waiter_of mbind option_bind tick]; try lia.
  all: repeat match goal with H : waiters ?s !! _ = Some _ |- context [waiters ?s !! _] => rewrite H end.
  all: try match goal with Hi : ?l !! ?i = Some ?a |- context [total ?f (@insert _ _ _ _ ?i ?b ?l)] =>
    pose proof (total_insert f l i a b Hi) as E; set (n := total f (<[i := b]> l)) in *; clearbody n;
    assert (w_mesh b = w_mesh a) as Em by reflexivity; unfold waiter_left in E at 1 3; rewrite Em in E; cbn [w_phase with_wait with_chan] in E end.
  all: rewrite ?total_app; cbn [total]; unfold tick.
  all: repeat match goal with H : w_phase _ = _ |- _ => rewrite H in * end; cbn [weight] in *.
  all: try (case_bool_decide; case_decide; try done; lia).
  - case_decide; lia.
  - case_decide; lia.
  - unfold waiter_left at 2. rewrite decide_False by (by apply Hl). lia.
  - discriminate Hp.
Qed.

Definition at_end (pc : mesh_pc) : Prop := match pc with M_Loop [] | M_Done _ => True | _ => False end.
Lemma finish_mesh (i : nat) (l : label) (s s' : system) (evs : list event) (m : mesh) :
  meshes s !! i = Some m -> m_done m = true -> at_end (m_pc m) -> step l s = Some (s', evs) ->
  ∃ m', meshes s' !! i = Some m' ∧ m_done m' = true ∧ at_end (m_pc m') ∧ (mesh_left m' + tick (is_next i l) <= mesh_left m)%nat.
Proof.
  intros Hm Hd Hpc H. destruct l; open_step H; split_outcome; places; cbn [is_next tick].
  all: try (exists m; split_and!; try done; lia).
  all: try (exists m; split_and!; [by apply lookup_app_l_Some|done|done|lia]).
  all: match goal with |- context [@insert _ _ _ _ ?k ?b _] => destruct (decide (k = i)) as [<-|Hne] end;
    [|exists m; rewrite list_lookup_insert_ne by done; rewrite ?bool_decide_eq_false_2 by done; split_and!; try done; cbn [tick]; lia].
  all: match goal with H1 : meshes ?s !! ?i = Some ?a, H2 : meshes ?s !! ?i = Some ?b |- _ => assert (a = b) as -> by congruence end.
  all: rewrite list_lookup_insert_eq by (by eapply lookup_lt_Some); eexists; split; [reflexivity|].
  all: unfold mesh_left, with_pc, with_err; cbn [m_done m_pc]; repeat match goal with H : m_pc _ = _ |- _ => rewrite H in * end; cbn [at_end] in *; try done.
  all: rewrite ?bool_decide_eq_true_2 by done; cbn [tick]; split_and!; try done; lia.
Qed.

Lemma finishing_step (i : nat) (l : label) (s s' : system) (evs : list event) :
  panicked s' = false -> finishing i s -> step l s = Some (s', evs) -> finishing i s' ∧ (tick (own i l s) + steps_left i s' <= steps_left i s)%nat.
Proof.
  intros Hp (m & Hm & Hd & Hpc) H. destruct (finish_mesh i l s s' evs m Hm Hd Hpc H) as (m' & Hm' & Hd' & Hpc' & Hle).
  split; [by exists m'|]. unfold steps_left. rewrite Hm, Hm'.
  assert (∀ j, l = MeshSend j -> j ≠ i) as Hl.
  { intros j -> ->. open_step H. match goal with H : m_pc _ = M_Send _ _ _ _ _ |- _ => by rewrite H in Hpc end. }
  pose proof (finish_waiters i l s s' evs Hl Hp H). unfold own. destruct (is_next i l), (is_waiter i l s); cbn [orb tick] in *; lia.
Qed.

(** Until it has returned, the request has a step to take. *)
Lemma finishing_enabled (i : nat) (s : system) :
  panicked s = false -> accounts s -> finishing i s -> (1 <= steps_left i s)%nat -> ∃ l, own i l s = true ∧ is_Some (step l s).
Proof.
  intros Hp Ha (m & Hm & Hd & Hpc) Hl. unfold steps_left in Hl. rewrite Hm in Hl.
  destruct (total (waiter_left i) (waiters s)) eqn:E.
  - exists (MeshNext i). split; [unfold own, is_next; by rewrite bool_decide_eq_true_2|].
    destruct (ac_each s Ha _ _ Hm) as [Hg _ _ _]. assert (total (active i) (waiters s) = 0%nat) as H0.
    { assert (total (active i) (waiters s) <= total (waiter_left i) (waiters s))%nat; [|lia]. apply total_le. intros w.
      unfold active, waiter_left, mine, one. destruct (w_phase w), (decide (w_mesh w = i)); cbn; lia. }
    unfold step, mesh_step. rewrite Hp, Hm. cbn [mbind option_bind]. unfold mesh_next, mesh_left in *. destruct (m_pc m) as [[|]| | |]; try done; [|lia].
    rewrite Hg, H0. by eexists.
  - destruct (total_pos (waiter_left i) (waiters s) ltac:(lia)) as (w & wt & Hw & Hwt). unfold waiter_left in Hwt.
    destruct (decide (w_mesh wt = i)) as [Hi|]; [|lia].
    assert (∀ l, waiter_of l = Some w -> own i l s = true) as Hown.
    { intros l Hlw. unfold own, is_waiter. rewrite Hlw. cbn [mbind option_bind]. rewrite Hw, bool_decide_eq_true_2 by done. apply orb_true_r. }
    destruct (w_phase wt) as [| |o|o|o|o] eqn:Hph; cbn in Hwt; [..|lia].
    + exists (WaitStore w). split; [by apply Hown|]. unfold step, wait_step. rewrite Hp, Hw. cbn [mbind option_bind]. rewrite Hph. by eexists.
    + exists (WaitDone w). split; [by apply Hown|]. unfold step, wait_step. rewrite Hp, Hw. cbn [mbind option_bind]. rewrite Hi, Hm. cbn [mbind option_bind]. rewrite Hph, Hd. by eexists.
    + exists (WaitDelete w). split; [by apply Hown|]. unfold step, wait_step. rewrite Hp, Hw. cbn [mbind option_bind]. rewrite Hph. by eexists.
    + exists (WaitReport w). split; [by apply Hown|]. unfold step, wait_step. rewrite Hp, Hw. cbn [mbind option_bind]. rewrite Hi, Hm. cbn [mbind option_bind]. rewrite Hph. unfold wait_report.
      destruct (latency_of _ _ _); [|by eexists].
      rewrite (proj2 (Nat.ltb_lt _ _)) by (rewrite <- Hi in Hm; eapply latency_room; [done..| |done]; unfold sent_latency; by rewrite Hph).
      destruct (m_pc m); by eexists.
    + exists (WaitFinish w). split; [by apply Hown|]. unfold step, wait_step. rewrite Hp, Hw. cbn [mbind option_bind]. rewrite Hi, Hm. cbn [mbind option_bind]. rewrite Hph. by eexists.
Qed.

Lemma run_no_panic (d : disk) (ls : list label) (s : system) (tr : list event) :
  Z.of_nat (length ls) < 2 ^ 63 -> run ls (init d) = Some (s, tr) -> panicked s = false.
Proof.
  intros Hlen H. destruct ls as [|l ls _] using rev_ind; [by injection H as <- <-|].
  apply run_snoc in H as (s1 & tr1 & evs & Hr & Hst & _). rewrite length_app in Hlen. simpl in Hlen.
  pose proof (run_counted d ls s1 tr1 ltac:(lia) Hr) as [_ Hc]. pose proof (accounts_run d ls s1 tr1 ltac:(lia) Hr) as [Ha Hch].
  exact (no_panic_step l s1 s evs Hc Ha Hch Hst).
Qed.

Lemma own_steps_snoc (i : nat) (ls : list label) (l : label) (s s1 s2 : system) (tr evs : list event) :
  run ls s = Some (s1, tr) -> step l s1 = Some (s2, evs) -> own_steps i (ls ++ [l]) s = (own_steps i ls s + tick (own i l s1))%nat.
Proof.
  revert s tr. induction ls as [|l0 ls IH]; intros s tr Hr Hst; cbn [app own_steps run] in *.
  - injection Hr as <- <-. rewrite Hst. lia.
  - destruct (step l0 s) as [[s0 evs0]|]; cbn [mbind option_bind] in Hr; [|done].
    destruct (run ls s0) as [[s3 tr3]|] eqn:E; cbn [mbind option_bind] in Hr; [|done]. injection Hr as <- <-.
    rewrite (IH s0 tr3 E Hst). lia.
Qed.

(** C11: a ping mesh returns.  Take any reachable state in which the
    request has sent all its tasks and its deadline has passed, and let the
    system go on in any way.  The steps that the request's own goroutines take
    are bounded by [steps_left]; and in every state that is reached the
    request has returned, or one of its goroutines can take a step, whatever
    agents and streams do. *)
Theorem mesh_returns (d : disk) (ls ls' : list label) (s s' : system) (tr tr' : list event) (i : nat)
    (Hlen : Z.of_nat (length (ls ++ ls')) < 2 ^ 63) (Hrun : run ls (init d) = Some (s, tr)) (Hfin : finishing i s)
    (Hrun' : run ls' s = Some (s', tr')) :
  (own_steps i ls' s + steps_left i s' <= steps_left i s)%nat ∧
  ((∃ m res, meshes s' !! i = Some m ∧ m_pc m = M_Done res) ∨ ∃ l, own i l s' = true ∧ is_Some (step l s')).
Proof.
  assert (finishing i s' ∧ (own_steps i ls' s + steps_left i s' <= steps_left i s)%nat) as [Hf Hle].
  { revert s' tr' Hlen Hrun'. induction ls' as [|l ls' IH] using rev_ind; intros s' tr' Hlen Hrun'.
    - injection Hrun' as <- <-. split; [done|]. cbn. lia.
    - pose proof Hrun' as H. apply run_snoc in H as (s1 & tr1 & evs & Hr & Hst & ->). rewrite !length_app in Hlen. simpl in Hlen.
      destruct (IH s1 tr1 ltac:(rewrite length_app; lia) Hr) as [Hf Hle].
      assert (panicked s' = false) as Hp.
      { eapply (run_no_panic d (ls ++ ls' ++ [l])); [rewrite !length_app; simpl; lia|]. rewrite run_app, Hrun. cbn [mbind option_bind]. rewrite Hrun'. done. }
      destruct (finishing_step i l s1 s' evs Hp Hf Hst) as [Hf' Hle']. split; [done|]. rewrite (own_steps_snoc i ls' l s s1 s' tr1 evs Hr Hst). lia. }
  split; [done|].
  assert (run (ls ++ ls') (init d) = Some (s', tr ++ tr')) as Hall by (rewrite run_app, Hrun; cbn [mbind option_bind]; by rewrite Hrun').
  pose proof (run_no_panic d _ _ _ Hlen Hall) as Hp. destruct (accounts_run d _ _ _ Hlen Hall) as [Ha _].
  destruct (steps_left i s') eqn:E.
  - left. destruct Hf as (m & Hm & _ & Hpc). exists m. unfold steps_left in E. rewrite Hm in E. unfold mesh_left in E.
    destruct (m_pc m) as [[|]| | |res]; try done. by exists res.
  - right. apply finishing_enabled; try done. lia.
Qed.

(** The deadline passes while the agent still works. *)
Definition ex_late : list label := [WaitStore 0; WaitDone 0; WaitDelete 0; WaitReport 0; WaitFinish 0; MeshNext 0].
Lemma mesh_returns_witness : ∃ s tr s' tr', run (ex_sent ++ [MeshTimeout 0]) (init ex_disk) = Some (s, tr) ∧ finishing 0 s ∧
  run ex_late s = Some (s', tr') ∧ own_steps 0 ex_late s = 6%nat ∧ steps_left 0 s = 6%nat ∧ (own_steps 0 ex_late s + steps_left 0 s' <= steps_left 0 s)%nat.
Proof.
  destruct (run (ex_sent ++ [MeshTimeout 0]) (init ex_disk)) as [[s tr]|] eqn:E; [|vm_compute in E; discriminate E].
  assert (finishing 0 s ∧ own_steps 0 ex_late s = 6%nat ∧ steps_left 0 s = 6%nat ∧ is_Some (run ex_late s)) as (Hf & Ho & Hl & [[s' tr'] Hr]).
  { vm_compute in E. injection E as <- _. split_and!; [eexists; split_and!; reflexivity|vm_compute; reflexivity|vm_compute; reflexivity|eexists; vm_compute; reflexivity]. }
  exists s, tr, s', tr'. split_and!; [done..|].
  exact (proj1 (mesh_returns ex_disk (ex_sent ++ [MeshTimeout 0]) ex_late s s' tr tr' 0 ltac:(vm_compute; reflexivity) E Hf Hr)).
Defined.

(** ** What goes wrong *)

(** A registered waiter has stored its channel. *)
Definition registered (s : system) : Prop :=
  ∀ x w wt, resultWatchers s !! x = Some w -> waiters s !! w = Some wt -> w_phase wt ≠ W_Start.
Lemma registered_step (l : label) (s s' : system) (evs : list event) :
  channels s -> registered s -> step l s = Some (s', evs) -> registered s'.
Proof.
  intros Hch Hr H x w wt'. destruct (waiters s !! w) as [wt|] eqn:Hw.
  2: { intros Hx Hw'. destruct (waiters_new _ _ _ _ _ _ H Hw Hw') as (_ & i & src & dst & t & k & todo & m & -> & _).
    assert (resultWatchers s' = resultWatchers s) as E by (by open_step H). rewrite E in Hx.
    destruct (ch_watchers s Hch x w Hx) as (? & ? & _). congruence. }
  specialize (Hr x w wt). destruct l; open_step H; split_outcome; places; cbn [resultWatchers] in *; intros Hx Hw'.
  all: try (assert (wt' = wt) as -> by congruence; by apply Hr).
  all: try (rewrite lookup_app_l in Hw' by (by eapply lookup_lt_Some); assert (wt' = wt) as -> by congruence; by apply Hr).
  all: apply list_lookup_insert_Some in Hw' as [(-> & <- & _)|[Hne Hw']]; try done.
  all: try (assert (wt' = wt) as -> by congruence).
  all: cbn in Hx; try (apply lookup_insert_Some in Hx as [[<- ?]|[_ Hx]]; [done|]).
  all: try (apply lookup_delete_Some in Hx as [_ Hx]).
  all: try (by apply Hr).
  all: match goal with H1 : waiters ?s !! ?w = Some ?a, H2 : waiters ?s !! ?w = Some ?b |- _ => assert (a = b) as -> by congruence end; cbn; by apply Hr.
Qed.

(** The waiter [w] of the pair ([src], [dst]) of mesh [i] waits for a result
    that is not to come. *)
Record orphaned (w i : nat) (src dst : NodeInfo) (x : string) (s : system) : Prop := MkOrphaned {
  or_waiter : ∃ wt, waiters s !! w = Some wt ∧ w_id wt = x ∧ w_mesh wt = i ∧ w_src wt = src ∧ w_dst wt = dst ∧ unsent wt;
  or_quiet : under_way Ping x s = 0%nat;
}.

Lemma quiet_step (l : label) (x : string) (s s' : system) (evs : list event) :
  counted s -> in_meshes x s = 0%nat -> under_way Ping x s = 0%nat -> step l s = Some (s', evs) -> under_way Ping x s' = 0%nat.
Proof.
  intros Hc Hm Hu H. destruct (plain l) eqn:Hp.
  - pose proof (mv_once _ _ (moves_step _ _ _ _ Hp (sendings s Hc) H) x). lia.
  - destruct l; try discriminate Hp; open_step H; places; try done.
    match goal with |- context [captureTask ?id ?c] => destruct (task_c_capture x id c) as [_ E] end. moved. lia.
Qed.
Lemma waiting_no_mesh (x : string) (s : system) (w : nat) (wt : waiter) :
  counted s -> waiters s !! w = Some wt -> w_id wt = x -> in_meshes x s = 0%nat.
Proof.
  intros Hc Hw <-. pose proof (waits_once s Hc (w_id wt)) as H1. pose proof (total_lookup (waiter_c (w_id wt)) _ _ _ Hw) as H2.
  unfold waiter_c in H2 at 1. rewrite one_eq in H2 by done. unfold waiting in H1. lia.
Qed.
(** A goroutine that sends to a waiter, or closes its channel, has its task. *)
Lemma upload_under_way (s : system) (j w : nat) (wt : waiter) (r : TaskResult) :
  channels s -> jobs s !! j = Some (J_Send w r) ∨ jobs s !! j = Some (J_Close w r) -> waiters s !! w = Some wt -> (1 <= under_way Ping (w_id wt) s)%nat.
Proof.
  intros Hch Hj Hw. assert (∃ b, jobs s !! j = Some b ∧ job_c Ping (w_id wt) b = 1%nat) as (b & Hb & E).
  { destruct Hj as [Hj|Hj]; eexists; (split; [exact Hj|]); cbn; apply one_eq.
    - destruct (Forall_lookup_1 _ _ _ _ (ch_uploads s Hch) Hj) as (wt1 & Hw1 & E1 & Ht1). split; congruence.
    - destruct (Forall_lookup_1 _ _ _ _ (ch_uploads s Hch) Hj) as (wt1 & Hw1 & E1 & Ht1 & _). split; congruence. }
  pose proof (total_lookup (job_c Ping (w_id wt)) _ _ _ Hb). unfold under_way. lia.
Qed.
Lemma orphaned_step (l : label) (w i : nat) (src dst : NodeInfo) (x : string) (s s' : system) (evs : list event) :
  counted s -> channels s -> orphaned w i src dst x s -> step l s = Some (s', evs) -> orphaned w i src dst x s'.
Proof.
  intros Hc Hch [(wt & Hw & Hid & Hi & Hsrc & Hdst & Hu) Hq] H. split.
  2: { eapply quiet_step; [exact Hc| |exact Hq|exact H]. by eapply waiting_no_mesh. }
  destruct (waiters_step _ _ _ _ _ _ H Hw) as (wt' & Hw' & Hle).
  destruct (waiter_chan_step _ _ _ _ _ _ _ H Hw Hw') as [_ Hu']. exists wt'.
  assert (w_id wt' = w_id wt ∧ w_mesh wt' = w_mesh wt ∧ w_src wt' = w_src wt ∧ w_dst wt' = w_dst wt) as (-> & -> & -> & ->)
    by (destruct Hle as [(? & ? & ? & ? & _)|(j & r & _ & _ & ->)]; done).
  split_and!; [done..|]. destruct (Hu' Hu) as [?|[(j & r & Hj & _)|(j & r & Hj)]]; [done|exfalso..];
    pose proof (upload_under_way s j w wt r Hch ltac:(eauto) Hw) as Hx; rewrite Hid, Hq in Hx; lia.
Qed.
Lemma orphaned_run (d : disk) (ls ls' : list label) (s s' : system) (tr tr' : list event) (w i : nat) (src dst : NodeInfo) (x : string) :
  Z.of_nat (length (ls ++ ls')) < 2 ^ 63 -> run ls (init d) = Some (s, tr) -> orphaned w i src dst x s -> run ls' s = Some (s', tr') ->
  orphaned w i src dst x s'.
Proof.
  intros Hlen Hrun Ho. revert s' tr' Hlen. induction ls' as [|l ls' IH] using rev_ind; intros s' tr' Hlen Hr; [by injection Hr as <- <-|].
  apply run_snoc in Hr as (s1 & tr1 & evs & Hr & Hst & _). rewrite !length_app in Hlen. simpl in Hlen.
  specialize (IH s1 tr1 ltac:(rewrite length_app; lia) Hr).
  assert (run (ls ++ ls') (init d) = Some (s1, tr ++ tr1)) as Hall by (rewrite run_app, Hrun; cbn [mbind option_bind]; by rewrite Hr).
  assert (Z.of_nat (length (ls ++ ls')) < 2 ^ 63) as Hlen' by (rewrite length_app; lia).
  eapply orphaned_step; [by eapply (run_counted d)|by eapply (accounts_run d)|exact IH|exact Hst].
Qed.
Lemma registered_run (d : disk) (ls : list label) (s : system) (tr : list event) :
  Z.of_nat (length ls) < 2 ^ 63 -> run ls (init d) = Some (s, tr) -> registered s.
Proof.
  revert s tr. induction ls as [|l ls IH] using rev_ind; intros s tr Hlen H; [injection H as <- <-; by intros x w wt|].
  apply run_snoc in H as (s1 & tr1 & evs & Hr & Hst & _). rewrite length_app in Hlen. simpl in Hlen.
  eapply registered_step; [|by apply (IH s1 tr1); [lia|]|exact Hst]. eapply (accounts_run d ls); [lia|exact Hr].
Qed.

(** The upload finds no watcher, and the task is gone. *)
Lemma upload_orphans (s s' : system) (evs : list event) (j w : nat) (r : TaskResult) (wt : waiter) :
  counted s -> channels s -> registered s -> jobs s !! j = Some (J_Upload r) -> waiters s !! w = Some wt -> w_id wt = tr_Id r -> w_phase wt = W_Start ->
  step (JobUpload j true) s = Some (s', evs) -> orphaned w (w_mesh wt) (w_src wt) (w_dst wt) (tr_Id r) s' ∧ jobs s' !! j = Some J_Done.
Proof.
  intros Hc Hch Hreg Hj Hw Hid Hph H. pose proof (upload_ping s j w wt r Hc Hj Hw Hid) as Ht.
  assert (resultWatchers s !! tr_Id r = None) as Hn.
  { destruct (resultWatchers s !! tr_Id r) as [w'|] eqn:E; [|done]. exfalso. destruct (ch_watchers s Hch _ _ E) as (wt2 & Hw2 & Hid2).
    assert (w' = w) as -> by (eapply (waiter_unique s w' w wt2 wt); [done|done|done|congruence]). by apply (Hreg _ _ _ E Hw). }
  assert (1 <= live (w_id wt) s)%nat as Hl.
  { pose proof (total_lookup (live_c (w_id wt)) _ _ _ Hj) as Hl. cbn [live_c job_c] in Hl. unfold res_c in Hl. rewrite one_eq in Hl by done. unfold live. lia. }
  pose proof (ch_unsent s Hch w wt Hw Hl) as Hu. pose proof (once s Hc (tr_Id r)) as Ho.
  unfold step, job_step in H. destruct (panicked s); [done|]. rewrite Hj in H. cbn [mbind option_bind] in H. unfold job_upload, goes in H. rewrite Hn, Ht in H.
  injection H as <- _. places. split; [split|apply list_lookup_insert_eq; by eapply lookup_lt_Some].
  - by exists wt.
  - places. moved. unfold res_c in *. rewrite one_eq in * by done. lia.
Qed.

(** The agent's answer reaches the controller before the waiter has stored its
    channel. *)
Definition ex_lost : list label := [WaitStore 0; MeshTimeout 0; WaitDone 0] ++ ex_reported.

(** C35: an answer that comes fast is lost.  The task is sent before the
    goroutine that waits for its result has registered for it.  In every
    reachable state in which an upload of a ping's result, successful or not,
    is about to reach the controller and the goroutine that waits for it has not
    registered: the upload is over at once, and in every state of every
    continuation the goroutine has not got the result; it either still waits,
    or was ended by the deadline, and the latency that it has then reported is
    that of an unreachable pair. *)
Theorem fast_answer_lost (d : disk) (ls ls' : list label) (s s1 s' : system) (tr evs tr' : list event) (j w : nat) (r : TaskResult) (wt : waiter)
    (Hlen : Z.of_nat (length (ls ++ JobUpload j true :: ls')) < 2 ^ 63) (Hrun : run ls (init d) = Some (s, tr))
    (Hj : jobs s !! j = Some (J_Upload r)) (Hw : waiters s !! w = Some wt) (Hid : w_id wt = tr_Id r) (Hph : w_phase wt = W_Start)
    (Hup : step (JobUpload j true) s = Some (s1, evs)) (Hrun' : run ls' s1 = Some (s', tr')) :
  jobs s1 !! j = Some J_Done ∧
  ∃ wt', waiters s' !! w = Some wt' ∧ w_mesh wt' = w_mesh wt ∧ w_src wt' = w_src wt ∧ w_dst wt' = w_dst wt ∧
    (∀ o, outcome_of (w_phase wt') = Some o -> o = ContextDone) ∧
    (∀ lat, sent_latency wt' = Some lat -> lat = unreachable (w_src wt) (w_dst wt)).
Proof.
  rewrite length_app in Hlen. cbn [length] in Hlen. assert (Z.of_nat (length ls) < 2 ^ 63) as Hl0 by lia.
  destruct (upload_orphans s s1 evs j w r wt) as [Ho Hd]; try done;
    [by eapply (run_counted d)|by eapply (accounts_run d)|by eapply registered_run|]. split; [done|].
  assert (run (ls ++ [JobUpload j true]) (init d) = Some (s1, tr ++ evs)) as Hall.
  { rewrite run_app, Hrun. cbn [mbind option_bind run]. rewrite Hup. cbn [mbind option_bind goes]. by rewrite app_nil_r. }
  destruct (orphaned_run d (ls ++ [JobUpload j true]) ls' s1 s' _ tr' _ _ _ _ _ ltac:(rewrite !length_app; simpl; lia) Hall Ho Hrun')
    as [(wt' & Hw' & _ & Hm & Hs & Hdst & (_ & _ & Hout)) _].
  exists wt'. split_and!; [done..| |].
  - intros o E. rewrite E in Hout. by destruct o.
  - intros lat E. unfold sent_latency in E. destruct (w_phase wt') as [| |o|o|o|o]; try done; cbn in Hout, E; destruct o; try done; cbn in E; congruence.
Qed.

(** A success is lost, and the mesh reports the pair as unreachable. *)
Lemma fast_answer_lost_witness :
  ∃ s1 s' tr', (∃ wt', waiters s' !! 0%nat = Some wt' ∧ sent_latency wt' = Some (unreachable ex_source (ex_info "n2"))) ∧
    run ex_lost s1 = Some (s', tr') ∧ latencies_of (Some (s', tr')) 0 = Some [unreachable ex_source (ex_info "n2")] ∧
    jobs s1 !! 0%nat = Some J_Done.
Proof.
  set (before := ex_sent ++ [StreamSend 0 true; AgentReceive 0; JobRun 0 ex_machine]).
  destruct (run before (init ex_disk)) as [[s tr]|] eqn:E; [|vm_compute in E; discriminate E].
  destruct (step (JobUpload 0 true) s) as [[s1 evs]|] eqn:E1; [|vm_compute in E; injection E as <- _; vm_compute in E1; discriminate E1].
  destruct (run ex_lost s1) as [[s' tr']|] eqn:E2; [|vm_compute in E; injection E as <- _; vm_compute in E1; injection E1 as <- _; vm_compute in E2; discriminate E2].
  assert (∃ r wt, jobs s !! 0%nat = Some (J_Upload r) ∧ tr_Success r = true ∧ waiters s !! 0%nat = Some wt ∧ w_id wt = tr_Id r ∧ w_phase wt = W_Start ∧
    w_src wt = ex_source ∧ w_dst wt = ex_info "n2") as (r & wt & Hj & _ & Hw & Hid & Hph & Hsrc & Hdst).
  { vm_compute in E. injection E as <- _. eexists _, _. split_and!; reflexivity. }
  destruct (fast_answer_lost ex_disk before ex_lost s s1 s' tr evs tr' 0 0 r wt ltac:(vm_compute; reflexivity) E Hj Hw Hid Hph E1 E2)
    as (Hd & wt' & Hw' & _ & _ & _ & _ & Hlat).
  exists s1, s', tr'. split_and!; [|done| |done].
  - exists wt'. split; [done|]. rewrite Hsrc, Hdst in Hlat. destruct (sent_latency wt') as [lat|] eqn:El; [by rewrite (Hlat lat eq_refl)|].
    exfalso. vm_compute in E. injection E as <- _. vm_compute in E1. injection E1 as <- _. vm_compute in E2. injection E2 as <- _.
    vm_compute in Hw'. injection Hw' as <-. vm_compute in El. discriminate El.
  - vm_compute in E. injection E as <- _. vm_compute in E1. injection E1 as <- _. vm_compute in E2. injection E2 as <- <-. vm_compute. reflexivity.
Defined.

(** A stream that ends with a task in its channel, after a request has chosen
    it for its next one. *)
Definition ex_stuck : list label :=
  [Connect ex_filter; PingMesh [ex_info "n1"] [ex_info "n2"; MkNodeInfo "IP" "8.8.8.8" EmptyString EmptyString]; MeshNext 0;
   MeshDispatch 0 ex_api ex_api (Some 0%nat); MeshSend 0; MeshNext 0; MeshDispatch 0 ex_api ex_api (Some 0%nat);
   StreamDone 0; StreamExit 0; StreamLeave 0; MeshTimeout 0].
Definition jammed (s : system) : Prop :=
  ∃ m st src dst t todo, meshes s !! 0%nat = Some m ∧ m_pc m = M_Send 0 src dst t todo ∧
    streams s !! 0%nat = Some st ∧ s_phase st = Gone ∧ is_Some (s_chan st).
Lemma jammed_stream (l : label) (s s' : system) (evs : list event) (st : stream) :
  streams s !! 0%nat = Some st -> s_phase st = Gone -> is_Some (s_chan st) -> step l s = Some (s', evs) ->
  ∃ st', streams s' !! 0%nat = Some st' ∧ s_phase st' = Gone ∧ is_Some (s_chan st').
Proof.
  intros Hst Hg [t0 Hc] H. destruct l; open_step H; split_outcome; places.
  all: try (by exists st; rewrite Hc).
  all: try (exists st; split_and!; [by apply lookup_app_l_Some|done|by rewrite Hc]).
  all: match goal with |- context [@insert _ _ _ _ ?k ?b _] => destruct (decide (k = 0%nat)) as [->|Hne] end;
    [|exists st; rewrite list_lookup_insert_ne by done; by rewrite Hc].
  all: match goal with H1 : streams ?s !! 0%nat = Some ?a, H2 : streams ?s !! 0%nat = Some ?b |- _ => assert (a = b) as -> by congruence end; try congruence.
  all: rewrite list_lookup_insert_eq by (by eapply lookup_lt_Some); eexists; split; [reflexivity|]; cbn; by rewrite ?Hc.
Qed.
Lemma jammed_step (l : label) (s s' : system) (evs : list event) : jammed s -> step l s = Some (s', evs) -> jammed s'.
Proof.
  intros (m & st & src & dst & t & todo & Hm & Hpc & Hst & Hg & Hc) H.
  destruct (jammed_stream l s s' evs st Hst Hg Hc H) as (st' & Hst' & Hg' & Hc').
  assert (∃ m', meshes s' !! 0%nat = Some m' ∧ m_pc m' = M_Send 0 src dst t todo) as (m' & Hm' & Hpc'); [|by exists m', st', src, dst, t, todo].
  clear Hst' Hg' Hc'. destruct Hc as [t0 Hc]. destruct l; open_step H; split_outcome; places.
  all: try (by exists m).
  all: try (exists m; split; [by apply lookup_app_l_Some|done]).
  all: match goal with |- context [@insert _ _ _ _ ?k ?b _] => destruct (decide (k = 0%nat)) as [Ek|Hne] end;
    [|exists m; by rewrite list_lookup_insert_ne by done]; rewrite ?Ek in *.
  all: match goal with H1 : meshes ?s !! 0%nat = Some ?a, H2 : meshes ?s !! 0%nat = Some ?b |- _ => assert (a = b) as -> by congruence end; try congruence.
  all: rewrite list_lookup_insert_eq by (by eapply lookup_lt_Some); eexists; split; [reflexivity|]; cbn; congruence.
Qed.
Lemma jammed_run (ls : list label) (s s' : system) (tr : list event) : jammed s -> run ls s = Some (s', tr) -> jammed s'.
Proof.
  revert s' tr. induction ls as [|l ls IH] using rev_ind; intros s' tr Hj H; [by injection H as <- <-|].
  apply run_snoc in H as (s1 & tr1 & evs & Hr & Hst & _). eapply jammed_step; [|done]. by eapply IH.
Qed.

(** A request that never returns.  A stream whose context is done
    can leave with a task in its channel, after [commitTask] has chosen it for
    another one.  The send then blocks, and the deadline does not end it:
    there is a reachable state, after the deadline, from which no run lets the
    request return. *)
Theorem mesh_stuck :
  ∃ s tr, run ex_stuck (init ex_disk) = Some (s, tr) ∧ (m_done <$> meshes s !! 0%nat) = Some true ∧
    ∀ ls s' tr' m, run ls s = Some (s', tr') -> meshes s' !! 0%nat = Some m -> ∀ res, m_pc m ≠ M_Done res.
Proof.
  destruct (run ex_stuck (init ex_disk)) as [[s tr]|] eqn:E; [|vm_compute in E; discriminate E]. exists s, tr.
  assert (jammed s ∧ (m_done <$> meshes s !! 0%nat) = Some true) as [Hj Hd].
  { vm_compute in E. injection E as <- _. split; [|done]. eexists _, _, _, _, _, _. split_and!; try reflexivity. by eexists. }
  split_and!; [done..|]. intros ls s' tr' m Hr Hm res. destruct (jammed_run ls s s' tr' Hj Hr) as (m' & st & src & dst & t & todo & Hm' & Hpc & _). congruence.
Qed.

(** ** Captures *)

(** The entries of request [id] are stored, and no result for it is to come. *)
Record settled (id : Z) (es : list CaptureTaskResult) (s : system) : Prop := MkSettled {
  se_id : 1 <= id <= taskIdx s;
  se_stored : captureTasks s !! id = Some es;
  se_quiet : under_way Capture (idText id) s = 0%nat;
  se_captures : Forall (λ c, 1 <= c_id c <= taskIdx s ∧ (c_id c = id -> ∃ res, c_pc c = C_Done res)) (captures s);
}.

Lemma settled_captures (l : label) (id : Z) (es : list CaptureTaskResult) (s s' : system) (evs : list event) :
  0 <= taskIdx s -> taskIdx s + 1 < 2 ^ 63 -> settled id es s -> step l s = Some (s', evs) ->
  taskIdx s <= taskIdx s' ∧ Forall (λ c, 1 <= c_id c <= taskIdx s' ∧ (c_id c = id -> ∃ res, c_pc c = C_Done res)) (captures s').
Proof.
  intros H0 H1 [Hid Hst Hq Hc] H. destruct l; open_step H; split_outcome; places; rewrite ?(next_idx s H0 H1); try (split; [lia|exact Hc]).
  1: { split; [lia|]. eapply Forall_impl; [exact Hc|]. intros c [? ?]. split; [lia|done]. }
  1-3: split; [lia|]; apply Forall_app_2; [eapply Forall_impl; [exact Hc|]; intros c [? ?]; (split; [lia|done])|apply Forall_singleton; cbn; split; lia].
  all: split; [lia|]; apply Forall_insert; [exact Hc|]; cbn.
  all: match goal with Hi : captures _ !! _ = Some ?a |- _ => destruct (Forall_lookup_1 _ _ _ _ Hc Hi) as [Hr Hd] end; split; [lia|].
  all: intros E; destruct (Hd E) as [res Hres]; congruence.
Qed.

Lemma settled_quiet (l : label) (id : Z) (es : list CaptureTaskResult) (s s' : system) (evs : list event) :
  taskIdx s + 1 < 2 ^ 63 -> counted s -> settled id es s -> step l s = Some (s', evs) -> under_way Capture (idText id) s' = 0%nat.
Proof.
  intros H1 Hct [Hid Hst Hq Hc] H. destruct (plain l) eqn:Hp.
  - pose proof (mv_captures _ _ (moves_step _ _ _ _ Hp (sendings s Hct) H) (idText id)). lia.
  - destruct l; try discriminate Hp; open_step H; places; try done.
    match goal with Hi : captures _ !! _ = Some ?a |- _ => destruct (Forall_lookup_1 _ _ _ _ Hc Hi) as [Hr Hd]; rename a into c0 end.
    match goal with |- context [captureTask ?x ?i] => destruct (task_c_capture (idText id) x i) as [E _] end.
    assert (idText (c_id c0) ≠ idText id) as Hne.
    { intros Ei%idText_inj; [|lia..]. destruct (Hd Ei) as [res Hres]. congruence. }
    unfold one in E. rewrite decide_False in E by done. moved. lia.
Qed.

Lemma settled_stored (l : label) (id : Z) (es : list CaptureTaskResult) (s s' : system) (evs : list event) :
  taskIdx s + 1 < 2 ^ 63 -> counted s -> settled id es s -> step l s = Some (s', evs) -> captureTasks s' !! id = Some es.
Proof.
  intros H1 Hct [Hid Hst Hq Hc] H. destruct l; open_step H; split_outcome; try exact Hst; cbn [captureTasks set_store panic set_jobs put_capture set_captures] in *.
  4: { rewrite lookup_insert_ne; [done|]. match goal with Hi : captures _ !! _ = Some ?a |- _ => destruct (Forall_lookup_1 _ _ _ _ Hc Hi) as [Hr Hd] end.
    intros Ei. destruct (Hd Ei) as [res Hres]. congruence. }
  all: match goal with Hi : jobs _ !! _ = Some (J_Upload ?r) |- _ => rename Hi into Hj end;
    match goal with E : storeCaptureResult _ _ _ = _ |- _ => rename E into Es end.
  all: assert (1 <= under_way Capture (tr_Id r) s)%nat as Hu by (pose proof (total_lookup (job_c Capture (tr_Id r)) _ _ _ Hj) as Hl; cbn [job_c] in Hl; unfold res_c in Hl; rewrite one_eq in Hl by done; unfold under_way; lia).
  all: pose proof (captures_own s Hct _ Hu) as Hk; destruct (ids_known s Hct (tr_Id r) ltac:(lia)) as (n & En & Hn).
  all: assert (n ≠ id) as Hne by (intros ->; rewrite En in Hu; lia).
  all: unfold storeCaptureResult in Es; rewrite En in Es; unfold idText in Es; rewrite (proj2 (Z.ltb_ge n 0)), Atoi_dec in Es by lia; cbn [value] in Es.
  all: destruct (captureTasks s !! n) as [es'|]; [|injection Es as <- _ _; exact Hst]; destruct (bool_decide _); [|injection Es as <- _ _; exact Hst].
  all: destruct (store_all _ n r es') as [[? ?] ?]; injection Es as <- _ _; by rewrite lookup_insert_ne.
Qed.

Lemma settled_run (d : disk) (ls ls' : list label) (s s' : system) (tr tr' : list event) (id : Z) (es : list CaptureTaskResult) :
  Z.of_nat (length (ls ++ ls')) < 2 ^ 63 -> run ls (init d) = Some (s, tr) -> settled id es s -> run ls' s = Some (s', tr') -> settled id es s'.
Proof.
  intros Hlen Hrun Hs. revert s' tr' Hlen. induction ls' as [|l ls' IH] using rev_ind; intros s' tr' Hlen Hr; [by injection Hr as <- <-|].
  apply run_snoc in Hr as (s1 & tr1 & evs & Hr & Hst & _). rewrite !length_app in Hlen. simpl in Hlen.
  specialize (IH s1 tr1 ltac:(rewrite length_app; lia) Hr).
  destruct (run_counted d (ls ++ ls') s1 (tr ++ tr1)) as [Hi Hct]; [rewrite length_app; lia|rewrite run_app, Hrun; cbn [mbind option_bind]; by rewrite Hr|].
  rewrite length_app in Hi. destruct (settled_captures l id es s1 s' evs ltac:(lia) ltac:(lia) IH Hst) as [Hidx Hcs].
  split; [pose proof (se_id _ _ _ IH); lia|by eapply (settled_stored l id es s1 s' evs); [lia|..]|by eapply (settled_quiet l id es s1 s' evs); [lia|..]|done].
Qed.

Definition ex_capture_args : CaptureArgs := MkCaptureArgs [MkItem "Node" "n1" EmptyString EmptyString] 10 EmptyString.
Definition ex_tcpdump : machine := MkMachine [] (λ _, MkRan EmptyString None) (λ _, inr [1; 2; 3]) (λ _, EmptyString).
(** The agent is done before the request stores its entries. *)
Definition ex_capture_lost : list label :=
  [Connect ex_filter; CaptureStart ex_api ex_capture_args; CaptureFind 0 (Some 0%nat); CaptureSend 0;
   StreamSend 0 true; AgentReceive 0; JobRun 0 ex_tcpdump; JobUpload 0 true; CaptureStore 0].

(** A capture that runs for ever.  [Capture] stores its entries
    after it has sent the tasks, and a result without entries is dropped with
    a reply that says success.  There is a run in which the agent has uploaded
    its capture, and the entry says "running" from then on, in every state
    that any continuation reaches. *)
Theorem capture_answer_lost :
  ∃ s tr r e, run ex_capture_lost (init ex_disk) = Some (s, tr) ∧ Stored r ∈ tr ∧ tr_Success r = true ∧ ct_Status e = "running"%string ∧
    captures s = [MkCapturing 1 (C_Done (Ok 1)) [e]] ∧
    ∀ ls s' tr', Z.of_nat (length ls) < 2 ^ 62 -> run ls s = Some (s', tr') -> captureTasks s' !! 1 = Some [e].
Proof.
  destruct (run ex_capture_lost (init ex_disk)) as [[s tr]|] eqn:E; [|vm_compute in E; discriminate E].
  assert (∃ r e, Stored r ∈ tr ∧ tr_Success r = true ∧ ct_Status e = "running"%string ∧ captures s = [MkCapturing 1 (C_Done (Ok 1)) [e]] ∧ settled 1 [e] s) as (r & e & Hr & Hs & He & Hc & Hst).
  { vm_compute in E. injection E as <- <-. eexists _, (captureRunning 1 (MkCaptureInfo None (Some "n1"%string) EmptyString "Node" 10)).
    split_and!; [rewrite !elem_of_cons; by right; left|done|reflexivity|reflexivity|].
    split; [done|reflexivity|vm_compute; reflexivity|]. apply Forall_singleton. cbn. split; [done|]. by eexists. }
  exists s, tr, r, e. split_and!; [done..|]. intros ls s' tr' Hlen Hr'.
  apply (se_stored 1 [e] s'), (settled_run ex_disk ex_capture_lost ls s s' tr tr'); try done. rewrite length_app. cbn [length ex_capture_lost]. lia.
Qed.
End TaskLiveness.
