(* ===== verification/SkoopRoute.v ===== *)
(** src/pkg/skoop/netstack/route.go: the diagnosis command's simulation of
    policy routing, over the rules and routes collected from a network
    namespace (with src/pkg/skoop/model/packet.go and netstack/link.go).

    A nil pointer that the code follows is [Panic].  The theorems show that a
    packet is given the route that the kernel would use: the first rule by
    priority that selects a table with a matching route, and in it the longest
    prefix, then the smallest metric, then the first collected. *)

From S2P Require Import Prelude GoStrings GoNet GoResult.

Module SkoopRoute.

(** ** Data *)

(** [model.Packet] *)
Inductive Packet := MkPacket (src : IP) (sport : Z) (dst : IP) (dport : Z) (protocol : string) (encap : option Packet) (mark : Z).
Definition Src (p : Packet) : IP := let '(MkPacket s _ _ _ _ _ _) := p in s.
Definition Sport (p : Packet) : Z := let '(MkPacket _ s _ _ _ _ _) := p in s.
Definition Dst (p : Packet) : IP := let '(MkPacket _ _ d _ _ _ _) := p in d.
Definition Dport (p : Packet) : Z := let '(MkPacket _ _ _ d _ _ _) := p in d.
Definition Protocol (p : Packet) : string := let '(MkPacket _ _ _ _ p _ _) := p in p.
Definition Mark (p : Packet) : Z := let '(MkPacket _ _ _ _ _ _ m) := p in m.

Record Route_ := MkRoute {
  r_Family : Z; r_OifName : string; r_IifName : string; r_Scope : Z; r_Dst : option IPNet; r_Src : IP; r_Gw : IP;
  r_Protocol : Z; r_Priority : Z; r_Table : Z; r_Type : Z; r_Tos : Z; r_Flags : Z;
}.

Record Rule := MkRule {
  ru_Priority : Z; ru_Family : Z; ru_Table : Z; ru_Mark : Z; ru_Mask : Z; ru_Tos : Z; ru_TunID : Z; ru_Goto : Z;
  ru_Src : option IPNet; ru_Dst : option IPNet; ru_Flow : Z; ru_IifName : string; ru_OifName : string;
}.

Record Neigh := MkNeigh {
  n_Family : Z; n_LinkIndex : Z; n_State : Z; n_Type : Z; n_Flags : Z; n_IP : IP; n_HardwareAddr : list Z;
}.

Record Interface := MkInterface {
  if_Name : string; if_Index : Z; if_MTU : Z; if_Driver : string; if_Addrs : list IPNet; if_State : Z;
  if_DevSysctls : gmap string string; if_NeighInfo : list Neigh; if_FdbInfo : list Neigh;
  if_PeerIndex : Z; if_MasterIndex : Z;
}.

Record SimulateRouter := MkRouter { rules : list Rule; routes : gmap Z (list Route_); interfaces : list Interface }.

Inductive route_err := ErrNoRouteToHost | ErrNoValidIP.

Definition RtTableLocal : Z := 0xff.
Definition RtTableDefault : Z := 0xfd.
Definition RtTableMain : Z := 0xfe.

(** ** Building the router *)

Definition rule_less (a b : Rule) : bool := ru_Priority a <? ru_Priority b.
Definition sortRule : list Rule -> list Rule := SliceStable rule_less.

Definition ones (r : Route_) : Z := match r_Dst r with Some n => Size (net_Mask n) | None => 0 end.
Definition route_less (a b : Route_) : bool :=
  if ones a =? ones b then r_Priority a <? r_Priority b else ones b <? ones a.
(** Every element of a slice of two or more is compared, so a nil [Dst]
    panics. *)
Definition sort_panics (l : list Route_) : bool :=
  (2 <=? length l)%nat && existsb (λ r, bool_decide (r_Dst r = None)) l.
Definition sortRoute : list Route_ -> list Route_ := SliceStable route_less.

Definition routeTableMap (rs : list Route_) : gmap Z (list Route_) :=
  foldl (λ m r, <[r_Table r := default [] (m !! r_Table r) ++ [r]]> m) ∅ rs.

Definition NewSimulateRouter (rus : list Rule) (rs : list Route_) (ifs : list Interface) : result route_err SimulateRouter :=
  let tables := routeTableMap rs in
  if existsb (λ kv, sort_panics kv.2) (map_to_list tables) then Panic
  else Ok (MkRouter (sortRule rus) (sortRoute <$> tables) ifs).

(** ** Looking up *)

Definition matchRule (packet : Packet) (rule : Rule) (iif oif : string) : bool :=
  if match ru_Src rule with Some n => negb (Contains_IP n (Src packet)) | None => false end then false
  else if match ru_Dst rule with Some n => negb (Contains_IP n (Dst packet)) | None => false end then false
  else if (0 <? ru_Mark rule) && negb (Z.land (Z.lxor (Mark packet) (ru_Mark rule)) (ru_Mask rule) =? 0) then false
  else if negb (String.eqb (ru_IifName rule) "") && negb (String.eqb (ru_IifName rule) iif) then false
  else if negb (String.eqb (ru_OifName rule) "") && negb (String.eqb (ru_OifName rule) oif) then false
  else true.

Fixpoint find_route (dst : IP) (rs : list Route_) : result route_err (option Route_) :=
  match rs with
  | [] => Ok None
  | r :: rs' => n ← deref (r_Dst r); if Contains_IP n dst then Ok (Some r) else find_route dst rs'
  end.
Definition lookupRoute (r : SimulateRouter) (table : Z) (packet : Packet) : result route_err (option Route_) :=
  match routes r !! table with
  | None => Ok None
  | Some rs => find_route (Dst packet) rs
  end.

Fixpoint route_rules (r : SimulateRouter) (packet : Packet) (iif oif : string) (rus : list Rule) : result route_err Route_ :=
  match rus with
  | [] => Err ErrNoRouteToHost
  | rule :: rus' =>
      if matchRule packet rule iif oif then
        route ← lookupRoute r (ru_Table rule) packet;
        match route with Some route => Ok route | None => route_rules r packet iif oif rus' end
      else route_rules r packet iif oif rus'
  end.
Definition Route (r : SimulateRouter) (packet : Packet) (iif oif : string) : result route_err Route_ :=
  route_rules r packet iif oif (rules r).

Definition DefaultRoute (r : SimulateRouter) (table : Z) : option Route_ :=
  let table := if table =? 0 then RtTableLocal else table in
  List.find (λ rt, match r_Dst rt with None => true | Some n => String.eqb (IPNet_String n) "0.0.0.0/0" end)
    (default [] (routes r !! table)).

Definition TableRoute (r : SimulateRouter) (table : Z) (packet : Packet) : result route_err Route_ :=
  route ← lookupRoute r table packet;
  match route with Some route => Ok route | None => Err ErrNoRouteToHost end.

(** The closure [interfaceAddr]: the first IPv4 address of the interfaces with
    the route's name; a nil route is followed as soon as there is an
    interface. *)
Definition interfaceAddr (ifs : list Interface) (rt : option Route_) : result route_err string :=
  match ifs with
  | [] => Ok EmptyString
  | _ =>
      rt ← deref rt;
      Ok match List.find (λ a, bool_decide (is_Some (To4 (net_IP a))))
                 (ifs ≫= λ oif, if String.eqb (if_Name oif) (r_OifName rt) then if_Addrs oif else []) with
         | Some a => IP_String (net_IP a)
         | None => EmptyString
         end
  end.

Definition RouteSrc (r : SimulateRouter) (packet : Packet) (iif oif : string) : result route_err (string * Route_) :=
  route ← Route r packet iif oif;
  addr ← interfaceAddr (interfaces r) (Some route);
  if String.eqb addr EmptyString then
    let def := DefaultRoute r RtTableMain in
    addr ← interfaceAddr (interfaces r) def;
    if String.eqb addr EmptyString then Err ErrNoValidIP else (def ← deref def; Ok (addr, def))
  else Ok (addr, route).

(** ** Lemmas *)

Section lemmas.
Implicit Types (p : Packet) (r : Route_) (rs : list Route_).

Lemma rule_less_asym (a b : Rule) : rule_less a b = true -> rule_less b a = false.
Proof. unfold rule_less. rewrite Z.ltb_lt, Z.ltb_ge. lia. Qed.
Lemma rule_le_trans (a b c : Rule) : rule_less b a = false -> rule_less c b = false -> rule_less c a = false.
Proof. unfold rule_less. rewrite !Z.ltb_ge. lia. Qed.
Lemma route_less_asym (a b : Route_) : route_less a b = true -> route_less b a = false.
Proof. unfold route_less. rewrite (Z.eqb_sym (ones b)). destruct (Z.eqb_spec (ones a) (ones b)); rewrite Z.ltb_lt, Z.ltb_ge; lia. Qed.
Lemma route_le_trans (a b c : Route_) : route_less b a = false -> route_less c b = false -> route_less c a = false.
Proof.
  unfold route_less. destruct (Z.eqb_spec (ones b) (ones a)), (Z.eqb_spec (ones c) (ones b)), (Z.eqb_spec (ones c) (ones a));
    rewrite !Z.ltb_ge; lia.
Qed.

(** The routes of a table, in the order collected. *)
Definition in_table (t : Z) rs : list Route_ := filter (λ r, r_Table r = t) rs.

Lemma routeTableMap_lookup rs (t : Z) :
  routeTableMap rs !! t = if bool_decide (in_table t rs = []) then None else Some (in_table t rs).
Proof.
  unfold routeTableMap.
  assert (∀ (m : gmap Z (list Route_)) done, (∀ t, m !! t = if bool_decide (in_table t done = []) then None else Some (in_table t done)) ->
    foldl (λ m r, <[r_Table r := default [] (m !! r_Table r) ++ [r]]> m) m rs !! t =
    if bool_decide (in_table t (done ++ rs) = []) then None else Some (in_table t (done ++ rs))) as H.
  { induction rs as [|r rs IH]; intros m done Hm; cbn [foldl]; [by rewrite app_nil_r|].
    rewrite (cons_middle r done rs), app_assoc. apply IH. intros t'. unfold in_table in *. rewrite filter_app.
    destruct (decide (r_Table r = t')) as [<-|Hne].
    - rewrite lookup_insert_eq, filter_cons_True, filter_nil by done. rewrite bool_decide_eq_false_2 by (by destruct (filter _ done)).
      do 2 f_equal. rewrite Hm. case_bool_decide as Hd; [by rewrite Hd|done].
    - rewrite lookup_insert_ne by done. by rewrite filter_cons_False, filter_nil, app_nil_r. }
  apply (H ∅ []). intros t'. by rewrite lookup_empty.
Qed.

Definition dst_set rs : Prop := Forall (λ r, r_Dst r ≠ None) rs.
Definition covers p r : bool := match r_Dst r with Some n => Contains_IP n (Dst p) | None => false end.

Lemma find_route_covers p rs : dst_set rs -> find_route (Dst p) rs = Ok (List.find (covers p) rs).
Proof.
  induction 1 as [|r rs Hr _ IH]; [done|]. cbn [find_route List.find]. unfold covers at 1.
  destruct (r_Dst r) as [n|]; [|done]. cbn [deref mbind result_bind]. by destruct (Contains_IP n (Dst p)).
Qed.

Lemma SliceStable_Forall {A : Type} (less : A -> A -> bool) (P : A -> Prop) (l : list A) : Forall P l -> Forall P (SliceStable less l).
Proof.
  rewrite !Forall_forall. intros H x Hx. apply H. clear H. induction l as [|y l IH]; [done|].
  cbn [SliceStable] in Hx. apply insert_stable_elem in Hx as [-> | Hx]; [apply elem_of_cons; by left|].
  apply elem_of_cons. right. by apply IH.
Qed.

Lemma in_table_dst (t : Z) rs : dst_set rs -> dst_set (in_table t rs).
Proof. unfold dst_set, in_table. rewrite !Forall_forall. intros H r [_ Hr]%list_elem_of_filter. by apply H. Qed.

Lemma new_router (rus : list Rule) rs (ifs : list Interface) :
  dst_set rs -> NewSimulateRouter rus rs ifs = Ok (MkRouter (sortRule rus) (sortRoute <$> routeTableMap rs) ifs).
Proof.
  intros Hrs. unfold NewSimulateRouter. destruct (existsb _ _) eqn:E; [|done].
  apply existsb_exists in E as ([t l] & Hin%list_elem_of_In & Hp). apply elem_of_map_to_list in Hin.
  rewrite routeTableMap_lookup in Hin. case_bool_decide; [done|]. injection Hin as <-. simpl in Hp.
  apply andb_true_iff in Hp as [_ Hp]. apply existsb_exists in Hp as (r & Hr%list_elem_of_In & Hd%bool_decide_eq_true).
  pose proof (in_table_dst t rs Hrs) as Ht. unfold dst_set in Ht. rewrite Forall_forall in Ht. by destruct (Ht r Hr).
Qed.

Lemma lookup_new (rus : list Rule) rs (ifs : list Interface) (t : Z) p :
  dst_set rs ->
  lookupRoute (MkRouter (sortRule rus) (sortRoute <$> routeTableMap rs) ifs) t p =
  Ok (List.find (covers p) (sortRoute (in_table t rs))).
Proof.
  intros Hrs. unfold lookupRoute. cbn [routes]. rewrite lookup_fmap, routeTableMap_lookup. case_bool_decide as He; [by rewrite He|].
  apply find_route_covers, SliceStable_Forall, in_table_dst, Hrs.
Qed.

(** The order of policy routing: the longer mask is better, of equal ones the
    lower metric. *)
Definition preferred (a b : Route_) : bool :=
  (ones b <? ones a) || ((ones a =? ones b) && (r_Priority a <? r_Priority b)).
Definition earlier (a b : Rule) : bool := ru_Priority a <? ru_Priority b.

Lemma route_less_preferred (a b : Route_) : route_less a b = preferred a b.
Proof. unfold route_less, preferred. destruct (Z.eqb_spec (ones a) (ones b)) as [->|]; [by rewrite Z.ltb_irrefl|]. simpl. by rewrite orb_false_r. Qed.

Lemma preferred_asym (a b : Route_) : preferred a b = true -> preferred b a = false.
Proof. rewrite <- !route_less_preferred. apply route_less_asym. Qed.

(** When a rule applies: each selector it has admits the packet. *)
Definition applies p (iif oif : string) (rule : Rule) : Prop :=
  (∀ n, ru_Src rule = Some n -> Contains_IP n (Src p) = true) ∧
  (∀ n, ru_Dst rule = Some n -> Contains_IP n (Dst p) = true) ∧
  (0 < ru_Mark rule -> Z.land (Mark p) (ru_Mask rule) = Z.land (ru_Mark rule) (ru_Mask rule)) ∧
  (ru_IifName rule = EmptyString ∨ ru_IifName rule = iif) ∧
  (ru_OifName rule = EmptyString ∨ ru_OifName rule = oif).

Lemma masked_equal (a b m : Z) : Z.land (Z.lxor a b) m = 0 <-> Z.land a m = Z.land b m.
Proof.
  rewrite <- (Z.lxor_eq_0_iff (Z.land a m)). assert (Z.land (Z.lxor a b) m = Z.lxor (Z.land a m) (Z.land b m)) as ->; [|done].
  apply Z.bits_inj'. intros i Hi. rewrite !Z.land_spec, !Z.lxor_spec, !Z.land_spec by done.
  by destruct (Z.testbit a i), (Z.testbit b i), (Z.testbit m i).
Qed.

Lemma net_admits (o : option IPNet) (ip : IP) :
  match o with Some n => negb (Contains_IP n ip) | None => false end = false <-> ∀ n, o = Some n -> Contains_IP n ip = true.
Proof. destruct o as [n|]; [rewrite negb_false_iff|]; naive_solver. Qed.

Lemma name_admits (name dev : string) :
  negb (String.eqb name EmptyString) && negb (String.eqb name dev) = false <-> name = EmptyString ∨ name = dev.
Proof. destruct (String.eqb_spec name EmptyString), (String.eqb_spec name dev); naive_solver. Qed.

Lemma mark_admits p (rule : Rule) :
  (0 <? ru_Mark rule) && negb (Z.land (Z.lxor (Mark p) (ru_Mark rule)) (ru_Mask rule) =? 0) = false <->
  (0 < ru_Mark rule -> Z.land (Mark p) (ru_Mask rule) = Z.land (ru_Mark rule) (ru_Mask rule)).
Proof.
  rewrite andb_false_iff, negb_false_iff, Z.ltb_ge, Z.eqb_eq, masked_equal.
  destruct (Z.le_gt_cases (ru_Mark rule) 0); naive_solver lia.
Qed.

Lemma matchRule_applies p (iif oif : string) (rule : Rule) : matchRule p rule iif oif = true <-> applies p iif oif rule.
Proof.
  unfold matchRule, applies. rewrite <- !net_admits, <- mark_admits, <- !name_admits.
  repeat case_match; naive_solver.
Qed.

(** A lookup takes the best route of the table. *)
Definition best_route p (t : Z) rs r : Prop := chosen preferred (λ r, covers p r = true) (in_table t rs) r.

Lemma find_sorted p (t : Z) rs :
  match List.find (covers p) (sortRoute (in_table t rs)) with
  | Some r => best_route p t rs r
  | None => ∀ r, r ∈ rs -> r_Table r = t -> covers p r = false
  end.
Proof.
  pose proof (find_SliceStable route_less route_less_asym route_le_trans (covers p) (in_table t rs)) as H.
  unfold sortRoute. destruct (List.find _ _); [by apply (chosen_less _ _ _ _ _ route_less_preferred) in H|]. intros r Hr Ht. apply H. by apply list_elem_of_filter.
Qed.

Lemma best_exists p (t : Z) rs :
  (∃ r, best_route p t rs r) <-> is_Some (List.find (covers p) (sortRoute (in_table t rs))).
Proof.
  pose proof (find_sorted p t rs) as H. split.
  - intros (r & l1 & l2 & E & Hc & _). destruct (List.find _ _); [done|].
    assert (r ∈ in_table t rs) as Hin by (rewrite E, elem_of_app, elem_of_cons; auto).
    apply list_elem_of_filter in Hin as [Ht Hin]. by rewrite (H r Hin Ht) in Hc.
  - intros [r E]. rewrite E in H. by exists r.
Qed.

(** The rule that decides: the first by priority that matches and has a
    route. *)
Definition decides p (iif oif : string) rs (rule : Rule) : bool :=
  matchRule p rule iif oif && bool_decide (is_Some (List.find (covers p) (sortRoute (in_table (ru_Table rule) rs)))).

Lemma decides_spec p (iif oif : string) rs (rule : Rule) :
  decides p iif oif rs rule = true <-> applies p iif oif rule ∧ ∃ r, best_route p (ru_Table rule) rs r.
Proof. unfold decides. by rewrite andb_true_iff, bool_decide_eq_true, best_exists, matchRule_applies. Qed.

Lemma best_in p (t : Z) rs r : best_route p t rs r -> r ∈ rs ∧ r_Table r = t ∧ covers p r = true.
Proof. intros [[Ht Hin]%list_elem_of_filter Hc]%chosen_elem. done. Qed.

Lemma route_rules_find (rus0 rus : list Rule) rs (ifs : list Interface) p (iif oif : string) :
  dst_set rs ->
  route_rules (MkRouter (sortRule rus0) (sortRoute <$> routeTableMap rs) ifs) p iif oif rus =
  match List.find (decides p iif oif rs) rus with
  | Some rule => match List.find (covers p) (sortRoute (in_table (ru_Table rule) rs)) with Some r => Ok r | None => Panic end
  | None => Err ErrNoRouteToHost
  end.
Proof.
  intros Hrs. induction rus as [|rule rus IH]; [done|]. cbn [route_rules List.find]. unfold decides at 1.
  destruct (matchRule p rule iif oif); [|done]. cbn [andb]. rewrite lookup_new by done. cbn [mbind result_bind].
  destruct (List.find _ (sortRoute _)) as [r|] eqn:E; [|done].
  rewrite bool_decide_eq_true_2 by done. by rewrite E.
Qed.
End lemmas.

(** ** Properties *)

(** The route that a packet should get. *)
Definition routed (rus : list Rule) (rs : list Route_) (p : Packet) (iif oif : string) (r : Route_) : Prop :=
  ∃ rule, chosen earlier (λ rule, applies p iif oif rule ∧ ∃ r, best_route p (ru_Table rule) rs r) rus rule ∧
    best_route p (ru_Table rule) rs r.

(** C19: policy routing by longest prefix.  For rules and routes in any
    order, each route with its destination set, the router never panics and
    returns [r] exactly if [r] is the route the packet should get: among the
    rules whose selectors all admit the packet and whose table has a route to
    its destination, the one of lowest priority number decides (of equal ones the first), and in
    its table [r] has the longest mask, then the lowest metric, then comes
    first; and it reports "no route to host" exactly if there is no such
    rule.  A rule whose table has no route to the destination is passed
    over. *)
Theorem route_correct (rus : list Rule) (rs : list Route_) (ifs : list Interface) (p : Packet) (iif oif : string)
    (Hrs : dst_set rs) :
  ∃ router, NewSimulateRouter rus rs ifs = Ok router ∧
    (∀ r, Route router p iif oif = Ok r <-> routed rus rs p iif oif r) ∧
    (Route router p iif oif = Err ErrNoRouteToHost <->
       ∀ rule r, rule ∈ rus -> applies p iif oif rule -> r ∈ rs -> r_Table r = ru_Table rule -> covers p r = false) ∧
    Route router p iif oif ≠ Panic.
Proof.
  eexists. split; [by apply new_router|]. unfold Route. cbn [rules]. rewrite route_rules_find by done.
  pose proof (find_SliceStable rule_less rule_less_asym rule_le_trans (decides p iif oif rs) rus) as H. unfold sortRule.
  destruct (List.find (decides p iif oif rs) (SliceStable rule_less rus)) as [rule|].
  - apply (chosen_ext _ _ _ _ _ (decides_spec p iif oif rs)) in H. apply (chosen_less _ earlier) in H; [|done].
    pose proof (chosen_elem _ _ _ _ H) as [Hin [Hm [r Er]%best_exists]]. rewrite Er.
    pose proof (find_sorted p (ru_Table rule) rs) as Hr. rewrite Er in Hr.
    split_and!; [|split; [done|]|done].
    + intros r'. split; [intros [= <-]; by exists rule|]. intros (rule' & H' & Hr').
      assert (rule = rule') as <- by exact (chosen_unique _ _ _ _ _ H H'). f_equal. exact (chosen_unique _ _ _ _ _ Hr Hr').
    + intros Hno. apply best_in in Hr as (Hr & Ht & Hc). by rewrite (Hno rule r) in Hc.
  - assert (∀ rule, rule ∈ rus -> ¬ (applies p iif oif rule ∧ ∃ r, best_route p (ru_Table rule) rs r)) as Hno.
    { intros rule Hin Hd%decides_spec. by rewrite (H rule Hin) in Hd. }
    split_and!; [|split; [|done]|done].
    + intros r. split; [done|]. intros (rule & [Hin Hd]%chosen_elem & _). by destruct (Hno rule Hin).
    + intros _ rule r Hrule Hm Hr Ht. pose proof (find_sorted p (ru_Table rule) rs) as Hf.
      destruct (List.find _ _) as [r'|]; [|by apply Hf]. destruct (Hno rule Hrule). split; [done|by exists r'].
Qed.

(** A small namespace: a host route, a subnet and a default route in the main
    table, and the local table before it. *)
Definition ex_net (a b c d n : Z) : option IPNet := Some (MkIPNet [a; b; c; d] (CIDRMask n 32)).
Definition ex_route (dst : option IPNet) (oif : string) (gw : IP) (priority table ty : Z) : Route_ :=
  MkRoute 2 oif "" 0 dst [] gw 3 priority table ty 0 0.
Definition ex_routes : list Route_ :=
  [ex_route (ex_net 0 0 0 0 0) "eth0" [192; 168; 0; 1] 100 254 1;
   ex_route (ex_net 10 1 0 0 16) "cni0" [] 0 254 1;
   ex_route (ex_net 10 1 2 3 32) "veth1" [] 0 254 1;
   ex_route (ex_net 10 1 0 0 16) "eth1" [] 50 254 1;
   ex_route (ex_net 192 168 0 7 32) "lo" [] 0 255 2].
Definition ex_rule (priority table : Z) : Rule := MkRule priority 2 table 0 0 0 0 0 None None 0 "" "".
Definition ex_rules : list Rule := [ex_rule 32767 253; ex_rule 32766 254; ex_rule 0 255].
Definition ex_packet (dst : IP) : Packet := MkPacket [10; 1; 9; 9] 4000 dst 80 "tcp" None 0.

Lemma route_correct_witness :
  dst_set ex_routes ∧ ∃ router, NewSimulateRouter ex_rules ex_routes [] = Ok router ∧
    Route router (ex_packet [10; 1; 7; 7]) "" "" = Ok (ex_route (ex_net 10 1 0 0 16) "cni0" [] 0 254 1) ∧
    routed ex_rules ex_routes (ex_packet [10; 1; 7; 7]) "" "" (ex_route (ex_net 10 1 0 0 16) "cni0" [] 0 254 1).
Proof.
  assert (dst_set ex_routes) as H by (repeat constructor; done). split; [done|].
  destruct (route_correct ex_rules ex_routes [] (ex_packet [10; 1; 7; 7]) "" "" H) as (router & E & Hok & _).
  exists router. assert (Route router (ex_packet [10; 1; 7; 7]) "" "" = Ok (ex_route (ex_net 10 1 0 0 16) "cni0" [] 0 254 1)) as Hr.
  { vm_compute in E. injection E as <-. vm_compute. reflexivity. }
  split_and!; [done|done|by apply Hok].
Defined.

(** The rules and routes of TestRoutePacket.  Its second case expects an error
    for a packet whose first rule has a table without a route; the router goes
    on to the next rule, as Linux does, and returns the default route. *)
Definition test_routes : list Route_ :=
  [ex_route (ex_net 10 0 0 1 16) "" [] 0 100 0; ex_route (ex_net 10 0 0 1 24) "" [] 0 100 0; ex_route (ex_net 0 0 0 0 0) "" [] 0 254 0].
Definition test_rules : list Rule := [MkRule 0 0 100 0 0 0 0 0 (ex_net 192 168 0 1 32) None 0 "" ""; MkRule 0 0 254 0 0 0 0 0 None None 0 "" ""].
Definition test_case (src dst : IP) : result route_err Route_ :=
  router ← NewSimulateRouter test_rules test_routes []; Route router (MkPacket src 0 dst 0 "" None 0) "" "".
Lemma test_cases :
  test_case [192; 168; 0; 1] [10; 0; 0; 1] = Ok (ex_route (ex_net 10 0 0 1 24) "" [] 0 100 0) ∧
  test_case [192; 168; 0; 1] [1; 0; 0; 1] = Ok (ex_route (ex_net 0 0 0 0 0) "" [] 0 254 0) ∧
  test_case [192; 168; 0; 2] [1; 0; 0; 1] = Ok (ex_route (ex_net 0 0 0 0 0) "" [] 0 254 0).
Proof. vm_compute. done. Qed.

(** An IPv4 route: its network and the number of leading bits it fixes. *)
Definition route4 (r : Route_) (n : Z) (bs : list Z) : Prop :=
  ∃ nip, r_Dst r = Some (MkIPNet nip (CIDRMask n 32)) ∧ ipv4 nip bs ∧ 0 <= n <= 32.

Lemma route4_covers (p : Packet) (r : Route_) (n : Z) (bs dst : list Z) :
  route4 r n bs -> ipv4 (Dst p) dst -> covers p r = true <-> be_val bs / 2 ^ (32 - n) = be_val dst / 2 ^ (32 - n).
Proof. intros (nip & E & Hnip & Hn) Hd. unfold covers. rewrite E. by apply Contains_prefix. Qed.

Lemma route4_ones (r : Route_) (n : Z) (bs : list Z) : route4 r n bs -> ones r = n.
Proof. intros (nip & E & _ & Hn). unfold ones. rewrite E. by apply Size_CIDRMask. Qed.

(** Longest prefix in bits.  If the routes are IPv4 networks and the
    packet goes to an IPv4 address, the route found has the leading bits of
    the address, and no route of the same table that has more leading bits in
    common, or as many with a lower metric, was passed over. *)
Theorem route_longest_prefix (rus : list Rule) (rs : list Route_) (ifs : list Interface) (p : Packet) (iif oif : string)
    (router : SimulateRouter) (r : Route_) (dst : list Z)
    (Hrs : ∀ r, r ∈ rs -> ∃ n bs, route4 r n bs) (Hdst : ipv4 (Dst p) dst)
    (Hrouter : NewSimulateRouter rus rs ifs = Ok router) (Hr : Route router p iif oif = Ok r) :
  ∃ n bs, route4 r n bs ∧ be_val bs / 2 ^ (32 - n) = be_val dst / 2 ^ (32 - n) ∧
    ∀ r' n' bs', r' ∈ rs -> r_Table r' = r_Table r -> route4 r' n' bs' ->
      be_val bs' / 2 ^ (32 - n') = be_val dst / 2 ^ (32 - n') -> n' <= n ∧ (n' = n -> r_Priority r <= r_Priority r').
Proof.
  assert (dst_set rs) as Hset.
  { apply Forall_forall. intros x Hx. destruct (Hrs x Hx) as (n & bs & nip & -> & _). done. }
  rewrite new_router in Hrouter by done. injection Hrouter as <-. unfold Route in Hr. cbn [rules] in Hr.
  rewrite route_rules_find in Hr by done. destruct (List.find (decides _ _ _ _) _) as [rule|]; [|done].
  pose proof (find_sorted p (ru_Table rule) rs) as Hb. destruct (List.find _ _) as [r0|]; [|done]. injection Hr as ->.
  pose proof (best_in _ _ _ _ Hb) as (Hin & Ht & Hc). destruct (Hrs r Hin) as (n & bs & H4). exists n, bs.
  split_and!; [done|by apply (route4_covers p r n bs dst)|].
  intros r' n' bs' Hin' Ht' H4' Hc'. apply (route4_covers p r' n' bs' dst) in Hc'; [|done|done].
  assert (preferred r' r = false) as Hless.
  { apply not_true_is_false. intros Hless. eapply (chosen_best _ preferred_asym _ _ _ r' Hb); [|done|done].
    apply list_elem_of_filter. split; [congruence|done]. }
  rewrite <- route_less_preferred in Hless. unfold route_less in Hless. rewrite (route4_ones _ _ _ H4), (route4_ones _ _ _ H4') in Hless.
  destruct (Z.eqb_spec n' n); apply Z.ltb_ge in Hless; lia.
Qed.

Lemma route_longest_prefix_witness :
  ∃ router r n bs, NewSimulateRouter ex_rules ex_routes [] = Ok router ∧ Route router (ex_packet [10; 1; 2; 3]) "" "" = Ok r ∧
    route4 r n bs ∧ be_val bs / 2 ^ (32 - n) = be_val [10; 1; 2; 3] / 2 ^ (32 - n) ∧ r_OifName r = "veth1"%string.
Proof.
  assert (∀ a b c d n, is_byte a -> is_byte b -> is_byte c -> is_byte d -> 0 <= n <= 32 -> ∀ r, r_Dst r = ex_net a b c d n ->
    ∃ n bs, route4 r n bs) as H4.
  { intros a b c d n Ha Hb Hc Hd Hn r E. exists n, [a; b; c; d], [a; b; c; d]. split; [exact E|]. split; [|done].
    split_and!; [done|by repeat apply Forall_cons_2|by left]. }
  assert (∀ r, r ∈ ex_routes -> ∃ n bs, route4 r n bs) as Hrs.
  { intros r Hr. unfold ex_routes in Hr. rewrite !elem_of_cons, elem_of_nil in Hr.
    destruct Hr as [-> |[-> |[-> |[-> |[-> |[]]]]]]; (eapply H4; [..|reflexivity]; unfold is_byte, fits; cbn; lia). }
  assert (ipv4 (Dst (ex_packet [10; 1; 2; 3])) [10; 1; 2; 3]) as Hd.
  { split_and!; [done|repeat constructor; unfold is_byte; lia|by left]. }
  destruct (NewSimulateRouter ex_rules ex_routes []) as [router| |] eqn:E; [|vm_compute in E; discriminate E..].
  pose (r := ex_route (ex_net 10 1 2 3 32) "veth1" [] 0 254 1).
  assert (Route router (ex_packet [10; 1; 2; 3]) "" "" = Ok r) as Hr.
  { vm_compute in E. injection E as <-. vm_compute. reflexivity. }
  destruct (route_longest_prefix ex_rules ex_routes [] (ex_packet [10; 1; 2; 3]) "" "" router r [10; 1; 2; 3] Hrs Hd E Hr)
    as (n & bs & Hn & Hb & _).
  exists router, r, n, bs. split_and!; done.
Defined.

(** The interface a source address is taken from. *)
Definition address_of (ifs : list Interface) (name : string) (a : IPNet) : Prop :=
  ∃ i, i ∈ ifs ∧ if_Name i = name ∧ a ∈ if_Addrs i ∧ is_Some (To4 (net_IP a)).

Lemma interfaceAddr_some (ifs : list Interface) (rt : Route_) (addr : string) :
  interfaceAddr ifs (Some rt) = Ok addr -> addr ≠ EmptyString ->
  ∃ a, address_of ifs (r_OifName rt) a ∧ addr = IP_String (net_IP a).
Proof.
  unfold interfaceAddr. destruct ifs as [|i0 ifs0]; [by intros [= <-]|]. set (ifs := i0 :: ifs0). cbn [deref mbind result_bind].
  destruct (List.find _ _) as [a|] eqn:E; intros [= <-] Hne; [|done]. exists a. split; [|done].
  apply List.find_some in E as [Hin%list_elem_of_In Ha%bool_decide_eq_true].
  apply list_elem_of_bind in Hin as (i & Hia & Hi). exists i. destruct (String.eqb_spec (if_Name i) (r_OifName rt)); [done|].
  by apply elem_of_nil in Hia.
Qed.

Lemma interfaceAddr_none (ifs : list Interface) (rt : Route_) (addr : string) :
  interfaceAddr ifs (Some rt) = Ok addr -> (∀ a, ¬ address_of ifs (r_OifName rt) a) -> addr = EmptyString.
Proof.
  intros H Hno. destruct (String.eqb_spec addr EmptyString) as [->|Hne]; [done|].
  destruct (interfaceAddr_some ifs rt addr H Hne) as (a & Ha & _). by destruct (Hno a).
Qed.

(** The source address.  The address that a packet is given is an IPv4
    address of the interface of the route returned with it, and that route is
    the packet's route or the default route of the main table.  Without an
    address on the route's interface and without a default route in the main
    table, the code follows a nil pointer. *)
Theorem route_src_sound (router : SimulateRouter) (p : Packet) (iif oif : string) :
  (∀ addr rt, RouteSrc router p iif oif = Ok (addr, rt) ->
     (Route router p iif oif = Ok rt ∨ DefaultRoute router RtTableMain = Some rt) ∧
     ∃ a, address_of (interfaces router) (r_OifName rt) a ∧ addr = IP_String (net_IP a)) ∧
  (∀ rt, Route router p iif oif = Ok rt -> interfaces router ≠ [] -> (∀ a, ¬ address_of (interfaces router) (r_OifName rt) a) ->
     DefaultRoute router RtTableMain = None -> RouteSrc router p iif oif = Panic).
Proof.
  unfold RouteSrc. cbv zeta. split.
  - intros addr rt. destruct (Route router p iif oif) as [route| |]; [|done..]. cbn [mbind result_bind].
    destruct (interfaceAddr (interfaces router) (Some route)) as [a1| |] eqn:E1; [|done..]. cbn [mbind result_bind].
    destruct (String.eqb_spec a1 EmptyString) as [_|Hne].
    + destruct (interfaceAddr (interfaces router) (DefaultRoute router RtTableMain)) as [a2| |] eqn:E2; [|done..]. cbn [mbind result_bind].
      destruct (String.eqb_spec a2 EmptyString) as [_|Hne2]; [done|].
      destruct (DefaultRoute router RtTableMain) as [def|]; [|done]. cbn [deref mbind result_bind]. intros [= <- <-].
      split; [by right|]. by apply interfaceAddr_some.
    + intros [= <- <-]. split; [by left|]. by apply interfaceAddr_some.
  - intros rt -> Hifs Hno Hdef. cbn [mbind result_bind].
    destruct (interfaceAddr (interfaces router) (Some rt)) as [a1| |] eqn:E1.
    + rewrite (interfaceAddr_none _ _ _ E1 Hno). rewrite Hdef. unfold interfaceAddr. by destruct (interfaces router).
    + unfold interfaceAddr in E1. by destruct (interfaces router).
    + unfold interfaceAddr in E1. by destruct (interfaces router).
Qed.

(** The command then crashes on a namespace with one unnumbered interface. *)
Example route_src_panics :
  RouteSrc (MkRouter [ex_rule 0 254] {[254 := [ex_route (ex_net 10 1 0 0 16) "veth1" [] 0 254 1]]}
    [MkInterface "veth1" 2 1500 "veth" [] 0 ∅ [] [] 0 0]) (ex_packet [10; 1; 7; 7]) "" "" = Panic.
Proof. vm_compute. reflexivity. Qed.
End SkoopRoute.
