(* ===== verification/SkoopIptables.v ===== *)
(** src/pkg/skoop/netstack/iptables.go and netfilter.go: the diagnosis
    command's simulation of iptables.  [ipset.go]'s sets and [utils/ip.go]'s
    prefix match are here too; reading the XML dumps is [SkoopXml].

    Matchers are an inductive type with one [Match]; a table is walked by the
    loop of [tracePacket] over a stack of frames, with fuel for the loop (one
    unit per frame popped).  The theorems compare the walk with the way the
    kernel goes through a table, where a chain that ends or returns resumes its
    caller.  The comparison is of the control flow: whether a rule matches and
    what its target decides is on both sides what the code says. *)

From Stdlib Require Import Ascii.
From S2P Require Import Prelude GoStrings GoNet GoResult SkoopRoute.
Import SkoopRoute.

Module SkoopIptables.

(** ** Sets *)

Record IPSet := MkIPSet { s_Name : string; s_Type : string; s_Members : gmap string string }.
Record IPSetManager := MkIPSetManager { sets : gmap string IPSet }.
Definition GetIPSet (m : IPSetManager) (name : string) : option IPSet := sets m !! name.
Definition NewIPSetManager (ipsets : list IPSet) : IPSetManager :=
  MkIPSetManager (foldl (λ m i, <[s_Name i := i]> m) ∅ ipsets).

(** ** Matchers *)

Inductive ipt_err :=
  | ErrIptablesUnsupported (what : string)
  | ErrParseCIDR (s : string)
  | ErrSetArgument (s : string)
  | ErrNoIPSet
  | ErrNoRouter
  | ErrRoute (e : route_err).

(** What the matchers take from the context. *)
Record Context := MkContext { ctx_ipset : option IPSetManager; ctx_router : option SimulateRouter }.

Definition TCP : string := "tcp".
Definition UDP : string := "udp".

(** [utils.IPMatchPrefix] *)
Definition IPMatchPrefix (ip : IP) (cidr : string) : result ipt_err bool :=
  match ParseCIDR cidr with
  | None => Err (ErrParseCIDR cidr)
  | Some ipnet => Ok (Contains_IP ipnet ip)
  end.

(** [TCP.Match] and [UDP.Match], which differ in the protocol. *)
Definition match_ports (proto : string) (option : string) (v : Z) (packet : Packet) : result ipt_err bool :=
  if negb (String.eqb (Protocol packet) proto) then Ok false
  else if String.eqb option "dport" then Ok (Dport packet =? v)
  else if String.eqb option "sport" then Ok (Sport packet =? v)
  else Err (ErrIptablesUnsupported option).

Definition IP_Match (option v : string) (packet : Packet) (iif oif : string) : result ipt_err bool :=
  if String.eqb option "i" then Ok (String.eqb v iif)
  else if String.eqb option "o" then Ok (String.eqb v oif)
  else if String.eqb option "s" then IPMatchPrefix (Src packet) v
  else if String.eqb option "d" then IPMatchPrefix (Dst packet) v
  else if String.eqb option "p" then Ok (EqualFold (Protocol packet) v)
  else Err (ErrIptablesUnsupported option).

Definition parseSetArgument (v : string) : result ipt_err (string * string) :=
  match Fields v with
  | [a; b] => Ok (a, b)
  | _ => Err (ErrSetArgument v)
  end.
Definition set_ip (packet : Packet) (field : string) : IP :=
  if String.eqb field "src" then Src packet else if String.eqb field "dst" then Dst packet else IPv4 0 0 0 0.
Definition set_port (packet : Packet) (field : string) : Z :=
  if String.eqb field "src" then Sport packet else if String.eqb field "dst" then Dport packet else 0.

Definition Set_Match (v : string) (ctx : Context) (packet : Packet) : result ipt_err bool :=
  arg ← parseSetArgument v;
  let '(setName, flags) := arg : string * string in
  match ctx_ipset ctx with
  | None => Err ErrNoIPSet
  | Some ipsetManager =>
      match GetIPSet ipsetManager setName with
      | None => Ok false
      | Some ipset =>
          let lookup (key : string) : result ipt_err bool := Ok (bool_decide (is_Some (s_Members ipset !! key))) in
          let proto_port (f : string) : string := (Protocol packet ++ ":" ++ dec (set_port packet f))%string in
          if String.eqb (s_Type ipset) "hash:net" then
            Ok (existsb (λ m, match IPMatchPrefix (set_ip packet flags) m with Ok b => b | _ => false end)
                  (map_to_list (s_Members ipset)).*1)
          else if String.eqb (s_Type ipset) "hash:ip,port" then
            let fields := Split ","%char flags in
            f0 ← deref (fields !! 0%nat); f1 ← deref (fields !! 1%nat);
            lookup (IP_String (set_ip packet f0) ++ "," ++ proto_port f1)%string
          else if String.eqb (s_Type ipset) "hash:ip,port,ip" then
            let fields := Split ","%char flags in
            f0 ← deref (fields !! 0%nat); f1 ← deref (fields !! 1%nat); f2 ← deref (fields !! 2%nat);
            lookup (IP_String (set_ip packet f0) ++ "," ++ proto_port f1 ++ "," ++ IP_String (set_ip packet f2))%string
          else if String.eqb (s_Type ipset) "bitmap:port" then lookup (dec (set_port packet flags))
          else Err (ErrIptablesUnsupported (s_Type ipset))
      end
  end.

Fixpoint match_fields (port : Z) (fields : list string) : result ipt_err bool :=
  match fields with
  | [] => Ok false
  | f :: fields' =>
      if Contains ":"%char f then
        let portRange := Split ":"%char f in
        a ← deref (portRange !! 0%nat); b ← deref (portRange !! 1%nat);
        let first := u16 (value (Atoi a)) in
        let last := u16 (value (Atoi b)) in
        if (first <=? port) && (port <=? last) then Ok true else match_fields port fields'
      else if port =? u16 (value (Atoi f)) then Ok true else match_fields port fields'
  end.
Definition matchPort (v : string) (port : Z) : result ipt_err bool := match_fields port (Split ","%char v).

Definition MultiPort_Match (option v : string) (packet : Packet) : result ipt_err bool :=
  if String.eqb option "dports" then matchPort v (Dport packet)
  else if String.eqb option "sports" then matchPort v (Sport packet)
  else if String.eqb option "ports" then
    b ← matchPort v (Sport packet);
    if b : bool then Ok true else matchPort v (Dport packet)
  else Err (ErrIptablesUnsupported option).

Definition parseMarkValue (s : string) : result ipt_err (Z * Z) :=
  if Contains "/"%char s then
    let fields := Split "/"%char s in
    a ← deref (fields !! 0%nat); b ← deref (fields !! 1%nat);
    Ok (u32 (value (ParseInt a 0 32)), u32 (value (ParseInt b 0 32)))
  else Ok (u32 (value (ParseInt s 0 32)), 0xffffffff).
Definition Mark_Match (v : string) (packet : Packet) : result ipt_err bool :=
  mm ← parseMarkValue v;
  Ok (mm.1 =? Z.land (Mark packet) mm.2).

(** The constants [Rtn...] by the value of the condition, from UNICAST on. *)
Definition rtn_types : list (string * Z) :=
  [("UNICAST", 1); ("LOCAL", 2); ("BROADCAST", 3); ("ANYCAST", 4); ("MULTICAST", 5); ("BLACKHOLE", 6);
   ("UNREACHABLE", 7); ("PROHIBIT", 8)]%string.

Definition AddrType_Match (option v : string) (ctx : Context) (packet : Packet) (iif oif : string) : result ipt_err bool :=
  if String.eqb option "limit-iface-in" then Ok (String.eqb iif v)
  else if String.eqb option "limit-iface-out" then Ok (String.eqb oif v)
  else
    let addr := if String.eqb option "src-type" then Src packet else if String.eqb option "dst-type" then Dst packet else [] in
    if String.eqb v "UNSPEC" then Ok (IsUnspecified addr)
    else if String.eqb v "MULTICAST" then Ok (IsMulticast addr)
    else match ctx_router ctx with
         | None => Err ErrNoRouter
         | Some router =>
             let verdict (addrType : Z) : bool :=
               match List.find (λ t, String.eqb v t.1) rtn_types with Some t => addrType =? t.2 | None => false end in
             match TableRoute router RtTableLocal packet with
             | Panic => Panic
             | Err ErrNoRouteToHost => Ok (verdict 1)
             | Err e => Err (ErrRoute e)
             | Ok route => Ok (verdict (r_Type route))
             end
         end.

Definition RPFilter_Match (option : string) (ctx : Context) (packet : Packet) (iif oif : string) : result ipt_err bool :=
  if String.eqb option "loose" then Ok true
  else match ctx_router ctx with
       | None => Err ErrNoRouter
       | Some router =>
           match Route router packet iif oif with
           | Panic => Panic
           | Err ErrNoRouteToHost => Ok false
           | Err e => Err (ErrRoute e)
           | Ok route =>
               let m := String.eqb (r_OifName route) iif in
               Ok (if String.eqb option "invert" then negb m else m)
           end
       end.

(** A condition: its module with the option and its value.  The ports are
    [uint16]. *)
Inductive Matcher :=
  | MTCP (option : string) (v : Z)
  | MUDP (option : string) (v : Z)
  | MIP (option v : string)
  | MConntrack (option v : string)
  | MSet (option v : string)
  | MComment (option v : string)
  | MMultiPort (option v : string)
  | MMark (option v : string)
  | MAddrType (option v : string)
  | MStatistic (option v : string)
  | MRPFilter (option v : string).

Definition Match (m : Matcher) (ctx : Context) (packet : Packet) (iif oif : string) : result ipt_err bool :=
  match m with
  | MTCP o v => match_ports TCP o v packet
  | MUDP o v => match_ports UDP o v packet
  | MIP o v => IP_Match o v packet iif oif
  | MConntrack _ _ | MComment _ _ | MStatistic _ _ => Ok true
  | MSet _ v => Set_Match v ctx packet
  | MMultiPort o v => MultiPort_Match o v packet
  | MMark _ v => Mark_Match v packet
  | MAddrType o v => AddrType_Match o v ctx packet iif oif
  | MRPFilter o _ => RPFilter_Match o ctx packet iif oif
  end.

(** [match] and [rule] *)
Record match_ := MkMatch { matcher : Matcher; invert : bool }.
Definition match_match (m : match_) (ctx : Context) (packet : Packet) (iif oif : string) : result ipt_err bool :=
  v ← Match (matcher m) ctx packet iif oif;
  Ok (if invert m then negb v else v).

Inductive Target :=
  | NopTarget | AcceptTarget | DropTarget | MasqueradeTarget | RejectTarget | ReturnTarget
  | CallTarget (chain : string) | GotoTarget (chain : string)
  | DNATTarget (ToDestination : string) (Random Persistent : bool)
  | SNATTarget (ToSource : string) (Random RandomFully Persistent : bool)
  | MarkTarget | NoTrackTarget | TPProxyTarget.

Record rule := MkIptRule { matches : list match_; target : Target }.

Fixpoint all_match (ms : list match_) (ctx : Context) (packet : Packet) (iif oif : string) : result ipt_err bool :=
  match ms with
  | [] => Ok true
  | m :: ms' =>
      v ← match_match m ctx packet iif oif;
      if v : bool then all_match ms' ctx packet iif oif else Ok false
  end.
Definition rule_match (r : rule) : Context -> Packet -> string -> string -> result ipt_err bool := all_match (matches r).

(** ** Verdicts *)

Inductive Verdict := VerdictAccept | VerdictDrop.
Inductive XTablesVerdict := XAccept | XDrop | XReject | XReturn | XContinue.

(** The [Do] of the types that implement [ExtensionTarget]. *)
Definition Do (t : Target) : option XTablesVerdict :=
  match t with
  | DNATTarget _ _ _ | SNATTarget _ _ _ _ | MarkTarget | NoTrackTarget | TPProxyTarget => Some XAccept
  | _ => None
  end.

#[global] Instance Verdict_eq_dec : EqDecision Verdict.
Proof. solve_decision. Defined.

(** ** Walking a table *)

Record iptChain := MkChain { c_name : string; policy : Verdict; c_rules : list rule }.
Record xTable := MkTable { xt_name : string; chains : gmap string iptChain }.

(** A line of the trace: table, chain and rule, as they are printed. *)
Record trace_line := MkLine { tl_table : string; tl_chain : string; tl_rule : rule }.
Definition Trace : Type := list trace_line.

(** [IPTablesRuleError] for a condition that fails, and for a target that the
    switch does not know. *)
Inductive trace_err := RuleError (r : rule) (e : ipt_err) | UnsupportedTarget (r : rule).

(** What [tracePacket] returns; it panics or returns. *)
Definition outcome : Type := result Empty_set (Verdict * Trace * option trace_err).

(** A frame of the stack: a chain (nil if it does not exist) and the position
    in it. *)
Definition frame : Type := option iptChain * nat.

(** How the loop over one chain ends: by a return, by a break with frames to
    push (the top first), or by a panic in a condition. *)
Inductive exit := Return_ (v : Verdict) (e : option trace_err) | Break (push : list frame) | Crash.

Section trace.
Context (xt : xTable) (ctx : Context) (packet : Packet) (iif oif : string).

(** The switch on the target: leave the loop, or go on with the next rule. *)
Definition do_target (chain : iptChain) (pos : nat) (r : rule) : option exit :=
  match target r with
  | AcceptTarget => Some (Return_ VerdictAccept None)
  | DropTarget => Some (Return_ VerdictDrop None)
  | NopTarget => None
  | ReturnTarget => Some (Break [])
  | CallTarget c => Some (Break [(chains xt !! c, O); (Some chain, pos)])
  | GotoTarget c => Some (Break [(chains xt !! c, O)])
  | t =>
      match Do t with
      | Some XAccept => Some (Return_ VerdictAccept None)
      | Some XDrop | Some XReject => Some (Return_ VerdictDrop None)
      | Some XContinue => None
      | Some XReturn => Some (Break [])
      | None => Some (Return_ VerdictDrop (Some (UnsupportedTarget r)))
      end
  end.

(** The loop labelled [chain], over the rules from [pos] on: the rules that
    matched, and how it ends.  [chain] is the chain of the hook. *)
Fixpoint walk (chain : iptChain) (pos : nat) (rs : list rule) : list rule * exit :=
  match rs with
  | [] => ([], Break [])
  | r :: rs' =>
      match rule_match r ctx packet iif oif with
      | Panic => ([], Crash)
      | Err e => ([], Return_ VerdictDrop (Some (RuleError r e)))
      | Ok false => walk chain (S pos) rs'
      | Ok true =>
          match do_target chain (S pos) r with
          | Some ex => ([r], ex)
          | None => let '(ms, ex) := walk chain (S pos) rs' in (r :: ms, ex)
          end
      end
  end.

Definition line (chain : iptChain) (r : rule) : trace_line := MkLine (xt_name xt) (c_name chain) r.

(** [buildTrace], and the deferred function: the lines of the frames left,
    unless the packet is accepted. *)
Definition buildTrace (chain : iptChain) (f : frame) : result Empty_set Trace :=
  c ← deref f.1;
  Ok match c_rules c !! f.2 with Some r => [line chain r] | None => [] end.
Fixpoint build_all (chain : iptChain) (fs : list frame) : result Empty_set Trace :=
  match fs with
  | [] => Ok []
  | f :: fs' => t ← buildTrace chain f; ts ← build_all chain fs'; Ok (t ++ ts)
  end.
Definition finish (chain : iptChain) (v : Verdict) (trace : Trace) (e : option trace_err) (left : list frame) : outcome :=
  match v with
  | VerdictAccept => Ok (v, trace, e)
  | VerdictDrop => ts ← build_all chain left; Ok (v, trace ++ ts, e)
  end.

(** The loop over the stack; [None] is "out of fuel". *)
Fixpoint trace_loop (fuel : nat) (chain : iptChain) (stack : list frame) (cur : list frame) (trace : Trace) : option outcome :=
  match stack with
  | [] => Some (finish chain (policy chain) trace None cur)
  | f :: stack' =>
      match fuel, f.1 with
      | O, _ => None
      | _, None => Some Panic
      | S fuel', Some c =>
          let '(ms, ex) := walk chain f.2 (drop f.2 (c_rules c)) in
          let trace' := trace ++ (line chain <$> ms) in
          match ex with
          | Return_ v e => Some (finish chain v trace' e (f :: stack'))
          | Break push => trace_loop fuel' chain (push ++ stack') [f] trace'
          | Crash => Some Panic
          end
      end
  end.
End trace.

(** ** Hooks *)

Inductive NFHook := NFHookPreRouting | NFHookInput | NFHookForward | NFHookOutput | NFHookPostRouting.
Definition NFHook_String (h : NFHook) : string :=
  match h with
  | NFHookPreRouting => "PREROUTING"
  | NFHookInput => "INPUT"
  | NFHookForward => "FORWARD"
  | NFHookOutput => "OUTPUT"
  | NFHookPostRouting => "POSTROUTING"
  end.

Definition tracePacket (fuel : nat) (xt : xTable) (ctx : Context) (hook : NFHook) (packet : Packet) (iif oif : string) : option outcome :=
  match chains xt !! NFHook_String hook with
  | None => Some Panic
  | Some chain => trace_loop xt ctx packet iif oif fuel chain [(Some chain, O)] [] []
  end.

(** The two implementations of [IPTables]. *)
Inductive IPTables := EmptyIPTables (xTables : gmap string xTable) | DefaultIPTables (xTables : gmap string xTable).

Definition createEmptyTable (name : string) (cs : list string) : xTable :=
  MkTable name (foldl (λ m n, <[n := MkChain n VerdictAccept []]> m) ∅ cs).
Definition createEmptyIPTables : IPTables :=
  EmptyIPTables (list_to_map
    [("raw", createEmptyTable "raw" ["PREROUTING"; "OUTPUT"]);
     ("mangle", createEmptyTable "mangle" ["PREROUTING"; "INPUT"; "FORWARD"; "OUTPUT"; "POSTROUTING"]);
     ("nat", createEmptyTable "nat" ["PREROUTING"; "INPUT"; "OUTPUT"; "POSTROUTING"]);
     ("filter", createEmptyTable "filter" ["INPUT"; "FORWARD"; "OUTPUT"])]%string).

Definition TracePacket (fuel : nat) (ipt : IPTables) (ctx : Context) (hook : NFHook) (table : string) (packet : Packet) (iif oif : string) : option outcome :=
  match ipt with
  | EmptyIPTables _ => Some (Ok (VerdictAccept, [], None))
  | DefaultIPTables xTables =>
      match xTables !! table with
      | None => Some (Ok (VerdictAccept, [], None))
      | Some xtable => tracePacket fuel xtable ctx hook packet iif oif
      end
  end.

(** [Empty] and [DefaultAccept]: a table and chain for which they fail. *)
Definition all_chains (ipt : IPTables) : list (string * string * iptChain) :=
  match ipt with
  | EmptyIPTables _ => []
  | DefaultIPTables xTables => (map_to_list xTables).*2 ≫= λ t, (λ c, (xt_name t, c_name c, c)) <$> (map_to_list (chains t)).*2
  end.
Definition Empty (ipt : IPTables) : option (string * string) :=
  fst <$> List.find (λ c, (0 <? length (c_rules c.2))%nat) (all_chains ipt).
Definition DefaultAccept (ipt : IPTables) : option (string * string) :=
  fst <$> List.find (λ c, bool_decide (policy c.2 ≠ VerdictAccept)) (all_chains ipt).

Record SimulateNetfilter := MkNetfilter { iptables : IPTables; nf_ctx : Context }.

Definition handles (hook : NFHook) : list string :=
  match hook with
  | NFHookPreRouting => ["raw"; "mangle"; "nat"]
  | NFHookInput => ["mangle"; "nat"; "filter"]
  | NFHookForward => ["mangle"; "filter"]
  | NFHookOutput => ["raw"; "mangle"; "nat"; "filter"]
  | NFHookPostRouting => ["mangle"; "nat"]
  end%string.

Inductive hook_err := ErrIPTablesUnsupported | IPTableDropError (t : Trace) | TraceError (e : trace_err).
Definition hook_outcome : Type := result Empty_set (Verdict * Packet * option hook_err).

Fixpoint run_handles (fuel : nat) (nf : SimulateNetfilter) (hook : NFHook) (packet : Packet) (iif oif : string) (hs : list string) : option hook_outcome :=
  match hs with
  | [] => Some (Ok (VerdictAccept, packet, None))
  | table :: hs' =>
      match TracePacket fuel (iptables nf) (nf_ctx nf) hook table packet iif oif with
      | None => None
      | Some Panic => Some Panic
      | Some (Err e) => Some (Err e)
      | Some (Ok (verdict, _, Some e)) => Some (Ok (verdict, packet, Some (TraceError e)))
      | Some (Ok (VerdictDrop, trace, None)) => Some (Ok (VerdictDrop, packet, Some (IPTableDropError trace)))
      | Some (Ok (VerdictAccept, _, None)) => run_handles fuel nf hook packet iif oif hs'
      end
  end.
Definition Hook (fuel : nat) (nf : SimulateNetfilter) (hook : NFHook) (packet : Packet) (iif oif : string) : option hook_outcome :=
  match iptables nf with
  | EmptyIPTables _ => Some (Ok (VerdictAccept, packet, Some ErrIPTablesUnsupported))
  | DefaultIPTables _ => run_handles fuel nf hook packet iif oif (handles hook)
  end.

(** ** The kernel's way

    A chain is evaluated rule by rule; a call evaluates the chain called and
    goes on after the rule if that falls through, a goto takes the other
    chain's result for its own.  [d] bounds the depth of calls.  [user] says
    that the chain is not the hook's; the flag returned, that a call made by
    such a chain came back to it.  This is the reference for the order of the
    rules, calls and returns only: [rule_match] and the verdicts of the targets
    in [act] are those of the code (the kernel would also rewrite the packet at
    DNAT, SNAT and MARK, and would not end a chain at MARK). *)

Inductive res := Decides (v : Verdict) (e : option trace_err) | Falls.

Section kernel.
Context (xt : xTable) (ctx : Context) (packet : Packet) (iif oif : string).

(** What the target of a rule does, with the verdicts of the code. *)
Inductive action := Stop (v : Verdict) (e : option trace_err) | Continue | Leave | Call (c : string) | Goto (c : string).
Definition act (r : rule) : action :=
  match target r with
  | AcceptTarget | DNATTarget _ _ _ | SNATTarget _ _ _ _ | MarkTarget | NoTrackTarget | TPProxyTarget => Stop VerdictAccept None
  | DropTarget => Stop VerdictDrop None
  | NopTarget => Continue
  | ReturnTarget => Leave
  | CallTarget c => Call c
  | GotoTarget c => Goto c
  | MasqueradeTarget | RejectTarget => Stop VerdictDrop (Some (UnsupportedTarget r))
  end.

(** A result with the rule that led to it. *)
Definition note (r : rule) (o : option (list rule * res * bool)) : option (list rule * res * bool) :=
  '(ms, x, b) ← o; Some (r :: ms, x, b).

Fixpoint evaluate (d : nat) (user : bool) : list rule -> option (list rule * res * bool) :=
  fix go (rs : list rule) :=
    match rs with
    | [] => Some ([], Falls, false)
    | r :: rs' =>
        match rule_match r ctx packet iif oif with
        | Panic => None
        | Err e => Some ([], Decides VerdictDrop (Some (RuleError r e)), false)
        | Ok false => go rs'
        | Ok true =>
            match act r with
            | Stop v e => Some ([r], Decides v e, false)
            | Continue => note r (go rs')
            | Leave => Some ([r], Falls, false)
            | Goto c =>
                match d, chains xt !! c with
                | S d', Some c => note r (evaluate d' true (c_rules c))
                | _, _ => None
                end
            | Call c =>
                match d, chains xt !! c with
                | S d', Some c =>
                    match evaluate d' true (c_rules c) with
                    | Some (ms, Decides v e, b) => Some (r :: ms, Decides v e, b)
                    | Some (ms, Falls, b) =>
                        '(ms', x, b') ← go rs';
                        Some (r :: ms ++ ms', x, user || b || b')
                    | None => None
                    end
                | _, _ => None
                end
            end
        end
    end.
End kernel.

(** ** Lemmas *)

Section simulation.
Context (xt : xTable) (ctx : Context) (packet : Packet) (iif oif : string).

Lemma evaluate_cons (d : nat) (user : bool) (r : rule) (rs : list rule) :
  evaluate xt ctx packet iif oif d user (r :: rs) =
  match rule_match r ctx packet iif oif with
  | Panic => None
  | Err e => Some ([], Decides VerdictDrop (Some (RuleError r e)), false)
  | Ok false => evaluate xt ctx packet iif oif d user rs
  | Ok true =>
      match act r with
      | Stop v e => Some ([r], Decides v e, false)
      | Continue => note r (evaluate xt ctx packet iif oif d user rs)
      | Leave => Some ([r], Falls, false)
      | Goto c =>
          match d, chains xt !! c with
          | S d', Some c => note r (evaluate xt ctx packet iif oif d' true (c_rules c))
          | _, _ => None
          end
      | Call c =>
          match d, chains xt !! c with
          | S d', Some c =>
              match evaluate xt ctx packet iif oif d' true (c_rules c) with
              | Some (ms, Decides v e, b) => Some (r :: ms, Decides v e, b)
              | Some (ms, Falls, b) =>
                  '(ms', x, b') ← evaluate xt ctx packet iif oif d user rs;
                  Some (r :: ms ++ ms', x, user || b || b')
              | None => None
              end
          | _, _ => None
          end
      end
  end.
Proof. by destruct d. Qed.

Lemma do_target_act (chain : iptChain) (pos : nat) (r : rule) :
  do_target xt chain pos r =
  match act r with
  | Stop v e => Some (Return_ v e)
  | Continue => None
  | Leave => Some (Break [])
  | Call c => Some (Break [(chains xt !! c, O); (Some chain, pos)])
  | Goto c => Some (Break [(chains xt !! c, O)])
  end.
Proof. unfold do_target, act. by destruct (target r). Qed.

Abbreviation walk' := (walk xt ctx packet iif oif).
Abbreviation loop := (trace_loop xt ctx packet iif oif).
Abbreviation ln := (line xt).

(** The rest of the loop's body, after the walk of a frame. *)
Definition after (fuel : nat) (chain : iptChain) (f : frame) (stack : list frame) (tr : Trace) (w : list rule * exit) : option outcome :=
  let tr' := tr ++ (ln chain <$> w.1) in
  match w.2 with
  | Return_ v e => Some (finish xt chain v tr' e (f :: stack))
  | Break push => loop fuel chain (push ++ stack) [f] tr'
  | Crash => Some Panic
  end.

Lemma loop_after (fuel : nat) (chain c : iptChain) (pos : nat) (stack cur : list frame) (tr : Trace) :
  loop (S fuel) chain ((Some c, pos) :: stack) cur tr =
  after fuel chain (Some c, pos) stack tr (walk' chain pos (drop pos (c_rules c))).
Proof. cbn [trace_loop fst snd]. by destruct (walk' chain pos (drop pos (c_rules c))). Qed.

Lemma after_cons (fuel : nat) (chain : iptChain) (f : frame) (stack : list frame) (tr : Trace) (r : rule) (w : list rule * exit) :
  after fuel chain f stack tr (r :: w.1, w.2) = after fuel chain f stack (tr ++ [ln chain r]) w.
Proof. destruct w as [ms ex]. unfold after. cbn [fst snd fmap list_fmap]. by rewrite <- app_assoc. Qed.

Definition live (fs : list frame) : Prop := Forall (λ f : frame, is_Some f.1) fs.

Lemma build_all_live (chain : iptChain) (fs : list frame) : live fs -> ∃ ts, build_all xt chain fs = Ok ts.
Proof.
  induction 1 as [|[c pos] fs [c' Hc] _ [ts IH]]; [by exists []|]. simpl in Hc. subst c. cbn [build_all]. unfold buildTrace.
  cbn [deref fst mbind result_bind]. rewrite IH. by eexists.
Qed.

Lemma finish_live (chain : iptChain) (v : Verdict) (tr : Trace) (e : option trace_err) (fs : list frame) :
  live fs -> ∃ extra, (v = VerdictAccept -> extra = []) ∧ finish xt chain v tr e fs = Ok (v, tr ++ extra, e).
Proof.
  intros Hf. destruct v; simpl; [exists []; by rewrite app_nil_r|].
  destruct (build_all_live chain fs Hf) as [ts ->]. by exists ts.
Qed.

(** What the loop does from a place where the kernel's result is [x], after
    the rules [ms]. *)
Definition leads (chain : iptChain) (f : frame) (stack : list frame) (tr : Trace) (w : list rule * exit) (ms : list rule) (x : res) : Prop :=
  ∃ n, match x with
       | Falls => ∃ cur, live cur ∧ ∀ fuel, after (n + fuel) chain f stack tr w = loop fuel chain stack cur (tr ++ (ln chain <$> ms))
       | Decides v e => ∃ extra, (v = VerdictAccept -> extra = []) ∧
           ∀ fuel, after (n + fuel) chain f stack tr w = Some (Ok (v, tr ++ (ln chain <$> ms) ++ extra, e))
       end.

Lemma leads_return (chain : iptChain) (f : frame) (stack : list frame) (tr : Trace) (ms : list rule) (v : Verdict) (e : option trace_err) :
  is_Some f.1 -> live stack -> leads chain f stack tr (ms, Return_ v e) ms (Decides v e).
Proof.
  intros Hf Hs. exists O. destruct (finish_live chain v (tr ++ (ln chain <$> ms)) e (f :: stack)) as (extra & Ha & E).
  { by constructor. }
  exists extra. split; [done|]. intros fuel. unfold after. cbn [fst snd]. by rewrite E, app_assoc.
Qed.

Lemma leads_break (chain : iptChain) (f : frame) (stack : list frame) (tr : Trace) (ms : list rule) :
  is_Some f.1 -> leads chain f stack tr (ms, Break []) ms Falls.
Proof. intros Hf. exists O, [f]. split; [by repeat constructor|done]. Qed.

Lemma leads_cons (chain : iptChain) (f : frame) (stack : list frame) (tr : Trace) (r : rule) (w : list rule * exit) (ms : list rule) (x : res) :
  leads chain f stack (tr ++ [ln chain r]) w ms x -> leads chain f stack tr (r :: w.1, w.2) (r :: ms) x.
Proof.
  intros [n H]. exists n. destruct x.
  - destruct H as (extra & Ha & H). exists extra. split; [done|]. intros fuel. rewrite after_cons, H. simpl. by rewrite <- !app_assoc.
  - destruct H as (cur & Hl & H). exists cur. split; [done|]. intros fuel. rewrite after_cons, H. simpl. by rewrite <- !app_assoc.
Qed.

(** A jump: the chain jumped to leads to its own result from the frames
    pushed. *)
Lemma leads_jump (chain c : iptChain) (f : frame) (stack push : list frame) (tr : Trace) (r : rule) (ms : list rule) (x : res) :
  leads chain (Some c, O) (push ++ stack) (tr ++ [ln chain r]) (walk' chain O (c_rules c)) ms x ->
  ∃ n, match x with
       | Falls => ∃ cur, live cur ∧ ∀ fuel, after (n + fuel) chain f stack tr ([r], Break ((Some c, O) :: push)) =
           loop fuel chain (push ++ stack) cur (tr ++ (ln chain <$> r :: ms))
       | Decides v e => ∃ extra, (v = VerdictAccept -> extra = []) ∧
           ∀ fuel, after (n + fuel) chain f stack tr ([r], Break ((Some c, O) :: push)) =
             Some (Ok (v, tr ++ (ln chain <$> r :: ms) ++ extra, e))
       end.
Proof.
  assert (∀ n fuel, after (S n + fuel) chain f stack tr ([r], Break ((Some c, O) :: push)) =
    after (n + fuel) chain (Some c, O) (push ++ stack) (tr ++ [ln chain r]) (walk' chain O (c_rules c))) as E.
  { intros n fuel. unfold after at 1. cbn [fst snd app]. rewrite Nat.add_succ_l, loop_after. by rewrite drop_0. }
  intros [n Hn]. exists (S n). destruct x.
  - destruct Hn as (extra & Ha & Hn). exists extra. split; [done|]. intros fuel. rewrite E, Hn. simpl. by rewrite <- !app_assoc.
  - destruct Hn as (cur & Hl & Hn). exists cur. split; [done|]. intros fuel. rewrite E, Hn. simpl. by rewrite <- !app_assoc.
Qed.

(** A call of the hook's chain that comes back: the walk goes on after it. *)
Lemma leads_resume (chain c : iptChain) (f : frame) (stack : list frame) (tr : Trace) (pos : nat) (r : rule) (rs ms ms' : list rule) (x : res) :
  drop (S pos) (c_rules chain) = rs ->
  leads chain (Some c, O) ((Some chain, S pos) :: stack) (tr ++ [ln chain r]) (walk' chain O (c_rules c)) ms Falls ->
  (∀ tr, leads chain (Some chain, S pos) stack tr (walk' chain (S pos) rs) ms' x) ->
  leads chain f stack tr ([r], Break [(Some c, O); (Some chain, S pos)]) (r :: ms ++ ms') x.
Proof.
  intros Hd Hc Hrest. destruct (leads_jump chain c f stack [(Some chain, S pos)] tr r ms Falls Hc) as (n & cur & _ & Hn).
  destruct (Hrest (tr ++ (ln chain <$> r :: ms))) as [n' Hn']. exists (n + S n')%nat.
  assert (∀ fuel, after (n + S n' + fuel) chain f stack tr ([r], Break [(Some c, O); (Some chain, S pos)]) =
    after (n' + fuel) chain (Some chain, S pos) stack (tr ++ (ln chain <$> r :: ms)) (walk' chain (S pos) rs)) as E.
  { intros fuel. rewrite <- Nat.add_assoc, Hn. cbn [app]. rewrite Nat.add_succ_l, loop_after. by rewrite Hd. }
  rewrite app_comm_cons, fmap_app. destruct x.
  - destruct Hn' as (extra & Ha & Hn'). exists extra. split; [done|]. intros fuel. rewrite E, Hn'. by rewrite !app_assoc.
  - destruct Hn' as (cur' & Hl & Hn'). exists cur'. split; [done|]. intros fuel. rewrite E, Hn'. by rewrite !app_assoc.
Qed.

Lemma simulation (chain : iptChain) (d : nat) : ∀ (user : bool) (rs ms : list rule) (x : res) (pos : nat) (f : frame) (stack : list frame) (tr : Trace),
  evaluate xt ctx packet iif oif d user rs = Some (ms, x, false) ->
  is_Some f.1 -> live stack -> (user = false -> drop pos (c_rules chain) = rs) ->
  leads chain f stack tr (walk' chain pos rs) ms x.
Proof.
  induction d as [d IHd] using lt_wf_ind. intros user rs. induction rs as [|r rs IH]; intros ms x pos f stack tr He Hf Hs Hu.
  { destruct d; injection He as <- <-; by apply leads_break. }
  assert (user = false -> drop (S pos) (c_rules chain) = rs) as Hu'.
  { intros Hu0. rewrite <- Nat.add_1_r, <- drop_drop, (Hu Hu0). done. }
  rewrite evaluate_cons in He. cbn [walk]. rewrite do_target_act.
  destruct (rule_match r ctx packet iif oif) as [[]|e|]; [|by apply IH|injection He as <- <-; by apply leads_return|done].
  destruct (act r) as [v e| | |c|c].
  - injection He as <- <-. by apply leads_return.
  - destruct (evaluate xt ctx packet iif oif d user rs) as [[[ms' x'] b]|] eqn:E; [|done]. injection He as <- <- ->.
    destruct (walk' chain (S pos) rs) as [ms0 ex] eqn:Ew. apply (leads_cons _ _ _ _ r (ms0, ex)).
    rewrite <- Ew. by apply IH.
  - injection He as <- <-. by apply leads_break.
  - destruct d as [|d]; [done|]. destruct (chains xt !! c) as [c'|]; [|done].
    destruct (evaluate xt ctx packet iif oif d true (c_rules c')) as [[[ms1 x1] b1]|] eqn:Ec; [|done].
    destruct x1 as [v e|].
    + injection He as <- <- ->. refine (leads_jump chain c' f stack [(Some chain, S pos)] tr r ms1 (Decides v e) _).
      eapply (IHd d); [lia|exact Ec|done|by constructor|done].
    + destruct (evaluate xt ctx packet iif oif (S d) user rs) as [[[ms2 x2] b2]|] eqn:E; [|done]. injection He as <- <- Hb.
      apply orb_false_iff in Hb as [[-> ->]%orb_false_iff ->]. eapply leads_resume; [by apply Hu'| |].
      * eapply (IHd d); [lia|exact Ec|done|by constructor|done].
      * intros tr'. by apply IH.
  - destruct d as [|d]; [done|]. destruct (chains xt !! c) as [c'|]; [|done].
    destruct (evaluate xt ctx packet iif oif d true (c_rules c')) as [[[ms1 x1] b1]|] eqn:Ec; [|done]. injection He as <- <- ->.
    refine (leads_jump chain c' f stack [] tr r ms1 x1 _). eapply (IHd d); [lia|exact Ec|done|done|done].
Qed.
End simulation.

(** What the hook's chain makes of a result. *)
Definition at_hook (chain : iptChain) (x : res) : Verdict * option trace_err :=
  match x with Decides v e => (v, e) | Falls => (policy chain, None) end.

Lemma trace_simulated (xt : xTable) (ctx : Context) (hook : NFHook) (packet : Packet) (iif oif : string) (chain : iptChain)
    (d : nat) (ms : list rule) (x : res)
    (Hc : chains xt !! NFHook_String hook = Some chain)
    (He : evaluate xt ctx packet iif oif d false (c_rules chain) = Some (ms, x, false)) :
  ∃ n extra, ((at_hook chain x).1 = VerdictAccept -> extra = []) ∧
    ∀ fuel, (n <= fuel)%nat ->
      tracePacket fuel xt ctx hook packet iif oif =
      Some (Ok ((at_hook chain x).1, (line xt chain <$> ms) ++ extra, (at_hook chain x).2)).
Proof.
  destruct (simulation xt ctx packet iif oif chain d false (c_rules chain) ms x O (Some chain, O) [] [] He) as [n Hn];
    [done|constructor|done|].
  assert (∀ fuel, tracePacket (S (n + fuel)) xt ctx hook packet iif oif =
    after xt ctx packet iif oif (n + fuel) chain (Some chain, O) [] [] (walk xt ctx packet iif oif chain 0 (c_rules chain))) as E.
  { intros fuel. unfold tracePacket. by rewrite Hc, loop_after, drop_0. }
  destruct x as [v e|].
  - destruct Hn as (extra & Ha & Hn). exists (S n), extra. split; [done|]. intros fuel Hf.
    replace fuel with (S (n + (fuel - S n))) by lia. by rewrite E, Hn.
  - destruct Hn as (cur & Hl & Hn). destruct (finish_live xt chain (policy chain) (line xt chain <$> ms) None cur Hl) as (extra & Ha & Ef).
    exists (S n), extra. split; [done|]. intros fuel Hf. replace fuel with (S (n + (fuel - S n))) by lia.
    rewrite E, Hn. cbn [app]. destruct (fuel - S n)%nat; simpl; by rewrite Ef.
Qed.

(** ** Properties *)

(** C18: the walk is the kernel's.  If the kernel's evaluation of the hook's
    chain gives a result, and no call made by a user chain came back to it,
    then [tracePacket] returns with enough fuel: the same verdict and error
    (the chain's policy if the packet falls through), and a trace that lists
    the rules that matched in the order of evaluation, with nothing added if
    the packet is accepted. *)
Theorem trace_refines (xt : xTable) (ctx : Context) (hook : NFHook) (packet : Packet) (iif oif : string) (chain : iptChain)
    (d : nat) (ms : list rule) (x : res)
    (Hc : chains xt !! NFHook_String hook = Some chain)
    (He : evaluate xt ctx packet iif oif d false (c_rules chain) = Some (ms, x, false)) :
  ∃ n extra, ((at_hook chain x).1 = VerdictAccept -> extra = []) ∧
    ∀ fuel, (n <= fuel)%nat ->
      tracePacket fuel xt ctx hook packet iif oif =
      Some (Ok ((at_hook chain x).1, (line xt chain <$> ms) ++ extra, (at_hook chain x).2)).
Proof. by apply (trace_simulated xt ctx hook packet iif oif chain d). Qed.

(** Tables to try: a rule for every packet, and one for none of them. *)
Definition always (t : Target) : rule := MkIptRule [] t.
Definition never : rule := MkIptRule [MkMatch (MTCP "dport" 1) false] AcceptTarget.
Definition ex_table (cs : list (string * list rule)) : xTable :=
  MkTable "filter" (list_to_map ((λ c, (c.1, MkChain c.1 VerdictAccept c.2)) <$> cs)).
Definition ex_ctx : Context := MkContext None None.
Definition ex_pkt : Packet := ex_packet [10; 1; 2; 3].

(** A node's filter table: the firewall chain drops marked packets, the
    services' chain rejects those to a port without endpoints. *)
Definition ex_node : xTable :=
  ex_table [("INPUT", [always (CallTarget "KUBE-FIREWALL"); never; always (CallTarget "KUBE-SERVICES"); always DropTarget]);
            ("KUBE-FIREWALL", [MkIptRule [MkMatch (MMark "mark" "0x8000/0x8000") false] DropTarget]);
            ("KUBE-SERVICES", [MkIptRule [MkMatch (MIP "d" "10.1.0.0/16") false; MkMatch (MMultiPort "dports" "22,80:90") false] AcceptTarget])]%string.

Lemma trace_refines_witness :
  ∃ n, ∀ fuel, (n <= fuel)%nat -> ∃ tr,
    tracePacket fuel ex_node ex_ctx NFHookInput ex_pkt "eth0" "" = Some (Ok (VerdictAccept, tr, None)) ∧ length tr = 3%nat.
Proof.
  destruct (chains ex_node !! NFHook_String NFHookInput) as [chain|] eqn:Hc; [|vm_compute in Hc; discriminate Hc].
  destruct (evaluate ex_node ex_ctx ex_pkt "eth0" "" 1 false (c_rules chain)) as [[[ms x] b]|] eqn:He.
  - destruct b; [vm_compute in Hc; injection Hc as <-; vm_compute in He; discriminate He|].
    destruct (trace_refines ex_node ex_ctx NFHookInput ex_pkt "eth0" "" chain 1 ms x Hc He) as (n & extra & Ha & Hn).
    vm_compute in Hc. injection Hc as <-. vm_compute in He. injection He as <- <-.
    exists n. intros fuel Hf. pose proof (Hn fuel Hf) as Hr. rewrite (Ha eq_refl) in Hr. cbn in Hr.
    eexists. split; [exact Hr|reflexivity].
  - exfalso. vm_compute in Hc. injection Hc as <-. vm_compute in He. discriminate He.
Defined.

(** A table without jumps from user chains: every jump of the hook's chain is
    to a chain that exists and has none. *)
Definition jumps (r : rule) : option string := match target r with CallTarget c | GotoTarget c => Some c | _ => None end.
Definition flat (xt : xTable) (chain : iptChain) : Prop :=
  ∀ r c, r ∈ c_rules chain -> jumps r = Some c -> ∃ c', chains xt !! c = Some c' ∧ Forall (λ r, jumps r = None) (c_rules c').

(** No condition of the table panics. *)
Definition conditions_ok (xt : xTable) (ctx : Context) (packet : Packet) (iif oif : string) : Prop :=
  ∀ n c r, chains xt !! n = Some c -> r ∈ c_rules c -> rule_match r ctx packet iif oif ≠ Panic.

Lemma evaluate_leaf (xt : xTable) (ctx : Context) (packet : Packet) (iif oif : string) (d : nat) (user : bool) (rs : list rule) :
  Forall (λ r, jumps r = None) rs -> (∀ r, r ∈ rs -> rule_match r ctx packet iif oif ≠ Panic) ->
  ∃ ms x, evaluate xt ctx packet iif oif d user rs = Some (ms, x, false).
Proof.
  intros Hj Hp. induction Hj as [|r rs Hr _ IH]; [destruct d; by eexists _, _|].
  destruct IH as (ms & x & E); [intros r' Hr'; apply Hp; by apply elem_of_cons; right|].
  pose proof (Hp r ltac:(by apply elem_of_cons; left)) as Hpr. rewrite evaluate_cons, E.
  destruct (rule_match r ctx packet iif oif) as [[]|e|]; [|by eexists _, _..|done].
  unfold jumps in Hr. unfold act. destruct (target r); try discriminate Hr; by eexists _, _.
Qed.

Lemma evaluate_flat (xt : xTable) (ctx : Context) (packet : Packet) (iif oif : string) (rs : list rule) :
  (∀ r c, r ∈ rs -> jumps r = Some c -> ∃ c', chains xt !! c = Some c' ∧ Forall (λ r, jumps r = None) (c_rules c')) ->
  conditions_ok xt ctx packet iif oif -> (∀ r, r ∈ rs -> rule_match r ctx packet iif oif ≠ Panic) ->
  ∃ ms x, evaluate xt ctx packet iif oif 1 false rs = Some (ms, x, false).
Proof.
  intros Hj Hc Hp. induction rs as [|r rs IH]; [by eexists _, _|].
  destruct IH as (ms & x & E); [intros r' c' Hr'; apply Hj; by apply elem_of_cons; right|intros r' Hr'; apply Hp; by apply elem_of_cons; right|].
  pose proof (Hp r ltac:(by apply elem_of_cons; left)) as Hpr. rewrite evaluate_cons, E.
  destruct (rule_match r ctx packet iif oif) as [[]|e|]; [|by eexists _, _..|done].
  specialize (Hj r). unfold jumps in Hj. unfold act. destruct (target r); try by eexists _, _.
  - destruct (Hj chain ltac:(by apply elem_of_cons; left) eq_refl) as (c' & Ec & Hf). rewrite Ec.
    destruct (evaluate_leaf xt ctx packet iif oif 0 true (c_rules c') Hf) as (ms1 & x1 & ->); [intros r' Hr'; by eapply Hc|].
    destruct x1; by eexists _, _.
  - destruct (Hj chain ltac:(by apply elem_of_cons; left) eq_refl) as (c' & Ec & Hf). rewrite Ec.
    destruct (evaluate_leaf xt ctx packet iif oif 0 true (c_rules c') Hf) as (ms1 & x1 & ->); [intros r' Hr'; by eapply Hc|].
    by eexists _, _.
Qed.

Lemma trace_flat (xt : xTable) (ctx : Context) (hook : NFHook) (packet : Packet) (iif oif : string) (chain : iptChain)
    (Hc : chains xt !! NFHook_String hook = Some chain) (Hflat : flat xt chain) (Hok : conditions_ok xt ctx packet iif oif) :
  ∃ ms x tr, evaluate xt ctx packet iif oif 1 false (c_rules chain) = Some (ms, x, false) ∧
    ∃ n, ∀ fuel, (n <= fuel)%nat ->
      tracePacket fuel xt ctx hook packet iif oif = Some (Ok ((at_hook chain x).1, tr, (at_hook chain x).2)).
Proof.
  destruct (evaluate_flat xt ctx packet iif oif (c_rules chain) Hflat Hok) as (ms & x & E); [intros r Hr; by eapply Hok|].
  destruct (trace_simulated xt ctx hook packet iif oif chain 1 ms x Hc E) as (n & extra & _ & Hn).
  eexists ms, x, _. split; [done|]. by exists n.
Qed.

(** On a table whose user chains make no jumps, and whose conditions do
    not panic, [tracePacket] terminates for every packet, without a panic, and
    returns the kernel's verdict. *)
Theorem trace_flat_total (xt : xTable) (ctx : Context) (hook : NFHook) (packet : Packet) (iif oif : string) (chain : iptChain)
    (Hc : chains xt !! NFHook_String hook = Some chain) (Hflat : flat xt chain) (Hok : conditions_ok xt ctx packet iif oif) :
  ∃ ms x tr, evaluate xt ctx packet iif oif 1 false (c_rules chain) = Some (ms, x, false) ∧
    ∃ n, ∀ fuel, (n <= fuel)%nat ->
      tracePacket fuel xt ctx hook packet iif oif = Some (Ok ((at_hook chain x).1, tr, (at_hook chain x).2)).
Proof. by apply trace_flat. Qed.

Lemma ex_conditions (cs : list (string * list rule)) (ctx : Context) (p : Packet) (iif oif : string) :
  Forall (λ c, Forall (λ r, rule_match r ctx p iif oif ≠ Panic) c.2) cs -> conditions_ok (ex_table cs) ctx p iif oif.
Proof.
  intros Hl n c r E Hr. apply elem_of_list_to_map_2, list_elem_of_fmap in E as ([m rs] & [= -> ->] & Hin).
  rewrite Forall_forall in Hl. specialize (Hl _ Hin). rewrite Forall_forall in Hl. by apply Hl.
Qed.

Definition ex_flat : xTable :=
  ex_table [("INPUT", [always (CallTarget "A"); never; always (GotoTarget "B"); always DropTarget]);
            ("A", [never; always ReturnTarget]); ("B", [always RejectTarget])]%string.

Lemma trace_flat_total_witness :
  ∃ x n tr, ∀ fuel, (n <= fuel)%nat -> ∃ chain,
    tracePacket fuel ex_flat ex_ctx NFHookInput ex_pkt "eth0" "" = Some (Ok ((at_hook chain x).1, tr, (at_hook chain x).2)).
Proof.
  destruct (chains ex_flat !! NFHook_String NFHookInput) as [chain|] eqn:Hc; [|vm_compute in Hc; discriminate Hc].
  assert (chains ex_flat !! "A"%string = Some (MkChain "A" VerdictAccept [never; always ReturnTarget])) as HA by reflexivity.
  assert (chains ex_flat !! "B"%string = Some (MkChain "B" VerdictAccept [always RejectTarget])) as HB by reflexivity.
  assert (flat ex_flat chain) as Hflat.
  { vm_compute in Hc. injection Hc as <-. intros r c Hr Hj. cbn [c_rules] in Hr. rewrite !elem_of_cons, elem_of_nil in Hr.
    destruct Hr as [-> |[-> |[-> |[-> |[]]]]]; try discriminate Hj; injection Hj as <-; eexists; (split; [eassumption|]);
      repeat constructor. }
  assert (conditions_ok ex_flat ex_ctx ex_pkt "eth0" "") as Hok.
  { apply ex_conditions. repeat constructor; discriminate. }
  destruct (trace_flat_total ex_flat ex_ctx NFHookInput ex_pkt "eth0" "" chain Hc Hflat Hok) as (ms & x & tr & _ & n & Hn).
  exists x, n, tr. intros fuel Hf. exists chain. by apply Hn.
Defined.

(** *** Nested calls *)

(** [tracePacket] pushes the hook's chain with the position in the calling
    chain.  In [ex_leak] the chain A calls C and would then drop the packet;
    in [ex_loop] the position that A pushes is before the call of A. *)
Definition ex_leak : xTable :=
  ex_table [("INPUT", [always (CallTarget "A"); never]); ("A", [always (CallTarget "C"); always DropTarget]); ("C", [])]%string.
Definition ex_loop : xTable :=
  ex_table [("INPUT", [never; never; always (CallTarget "A")]); ("A", [always (CallTarget "C")]); ("C", [])]%string.
Definition hook_chain (xt : xTable) : iptChain := default (MkChain "" VerdictAccept []) (chains xt !! "INPUT"%string).

Lemma ex_loop_cycle (fuel pos : nat) (stack cur : list frame) (tr : Trace) :
  (pos < 2)%nat ->
  trace_loop ex_loop ex_ctx ex_pkt "eth0" "" fuel (hook_chain ex_loop) ((Some (hook_chain ex_loop), pos) :: stack) cur tr = None.
Proof.
  revert pos stack cur tr. induction fuel as [fuel IH] using lt_wf_ind. intros pos stack cur tr Hpos.
  destruct fuel as [|fuel]; [done|]. rewrite loop_after.
  replace (walk ex_loop ex_ctx ex_pkt "eth0" "" (hook_chain ex_loop) pos (drop pos (c_rules (hook_chain ex_loop))))
    with ([always (CallTarget "A")], Break [(chains ex_loop !! "A"%string, O); (Some (hook_chain ex_loop), 3%nat)])
    by (destruct pos as [|[]]; [reflexivity..|lia]).
  unfold after. cbn [fst snd app].
  replace (chains ex_loop !! "A"%string) with (Some (MkChain "A" VerdictAccept [always (CallTarget "C")])) by reflexivity.
  destruct fuel as [|fuel]; [done|]. rewrite loop_after.
  replace (walk ex_loop ex_ctx ex_pkt "eth0" "" (hook_chain ex_loop) 0 (drop 0 (c_rules (MkChain "A" VerdictAccept [always (CallTarget "C")]))))
    with ([always (CallTarget "C")], Break [(chains ex_loop !! "C"%string, O); (Some (hook_chain ex_loop), 1%nat)]) by reflexivity.
  unfold after. cbn [fst snd app].
  replace (chains ex_loop !! "C"%string) with (Some (MkChain "C" VerdictAccept [])) by reflexivity.
  destruct fuel as [|fuel]; [done|]. rewrite loop_after. unfold after. cbn [fst snd app walk c_rules drop]. apply IH; lia.
Qed.

(** C38: where the walk differs.  When a call made by a user chain comes
    back, the walk resumes the hook's chain instead of the caller: on
    [ex_leak] the kernel drops the packet and [tracePacket] accepts it; on
    [ex_loop], which has no cycle of calls, the kernel accepts the packet by
    the chain's policy and [tracePacket] never returns. *)
Theorem nested_calls_wrong :
  (∃ ms, evaluate ex_leak ex_ctx ex_pkt "eth0" "" 2 false (c_rules (hook_chain ex_leak)) = Some (ms, Decides VerdictDrop None, true)) ∧
  (∃ tr, tracePacket 5 ex_leak ex_ctx NFHookInput ex_pkt "eth0" "" = Some (Ok (VerdictAccept, tr, None))) ∧
  (∃ ms, evaluate ex_loop ex_ctx ex_pkt "eth0" "" 2 false (c_rules (hook_chain ex_loop)) = Some (ms, Falls, true)) ∧
  ∀ fuel, tracePacket fuel ex_loop ex_ctx NFHookInput ex_pkt "eth0" "" = None.
Proof.
  split_and!; [eexists; vm_compute; reflexivity..|]. intros fuel. by apply ex_loop_cycle; lia.
Qed.

(** *** Hooks *)

(** The table lets the packet pass. *)
Definition passes (fuel : nat) (nf : SimulateNetfilter) (hook : NFHook) (p : Packet) (iif oif : string) (t : string) : Prop :=
  ∃ tr, TracePacket fuel (iptables nf) (nf_ctx nf) hook t p iif oif = Some (Ok (VerdictAccept, tr, None)).

Lemma run_handles_split (fuel : nat) (nf : SimulateNetfilter) (hook : NFHook) (p : Packet) (iif oif : string) (hs : list string) :
  (Forall (passes fuel nf hook p iif oif) hs ∧ run_handles fuel nf hook p iif oif hs = Some (Ok (VerdictAccept, p, None))) ∨
  ∃ hs1 t hs2, hs = hs1 ++ t :: hs2 ∧ Forall (passes fuel nf hook p iif oif) hs1 ∧ ¬ passes fuel nf hook p iif oif t ∧
    run_handles fuel nf hook p iif oif hs =
    match TracePacket fuel (iptables nf) (nf_ctx nf) hook t p iif oif with
    | Some (Ok (v, _, Some e)) => Some (Ok (v, p, Some (TraceError e)))
    | Some (Ok (v, tr, None)) => Some (Ok (v, p, Some (IPTableDropError tr)))
    | Some (Err e) => Some (Err e)
    | Some Panic => Some Panic
    | None => None
    end.
Proof.
  induction hs as [|t hs IH]; [by left|]. cbn [run_handles].
  destruct (TracePacket fuel (iptables nf) (nf_ctx nf) hook t p iif oif) as [[[[[] tr] [e|]]|e|]|] eqn:E.
  2:{ assert (passes fuel nf hook p iif oif t) as Ht by (by exists tr). destruct IH as [[Hf ->]|(hs1 & t' & hs2 & -> & Hf & Hn & ->)].
      - left. split; [by constructor|done].
      - right. exists (t :: hs1), t', hs2. split_and!; [done|by constructor|done|done]. }
  all: right; exists [], t, hs; split_and!; [done|constructor|intros [tr' E']; rewrite E' in E; discriminate E|by rewrite E].
Qed.

Lemma hook_packet (fuel : nat) (nf : SimulateNetfilter) (hook : NFHook) (p p' : Packet) (iif oif : string) (v : Verdict) (e : option hook_err) :
  Hook fuel nf hook p iif oif = Some (Ok (v, p', e)) -> p' = p.
Proof.
  unfold Hook. destruct (iptables nf); [by intros [= _ <-]|].
  destruct (run_handles_split fuel nf hook p iif oif (handles hook)) as [[_ ->]|(hs1 & t & hs2 & _ & _ & _ & ->)]; [by intros [= _ <-]|].
  destruct (TracePacket _ _ _ _ t _ _ _) as [[[[v' tr] [e'|]]|e'|]|]; try done; by intros [= _ <-].
Qed.

Lemma hook_no_error (fuel : nat) (nf : SimulateNetfilter) (hook : NFHook) (p p' : Packet) (iif oif : string) (v : Verdict) :
  Hook fuel nf hook p iif oif = Some (Ok (v, p', None)) -> v = VerdictAccept.
Proof.
  unfold Hook. destruct (iptables nf); [done|].
  destruct (run_handles_split fuel nf hook p iif oif (handles hook)) as [[_ ->]|(hs1 & t & hs2 & _ & _ & _ & ->)]; [by intros [= <-]|].
  by destruct (TracePacket _ _ _ _ t _ _ _) as [[[[v' tr] [e'|]]|e'|]|].
Qed.

Lemma hook_accepts_all (fuel : nat) (ts : gmap string xTable) (ctx : Context) (hook : NFHook) (p : Packet) (iif oif : string) :
  Hook fuel (MkNetfilter (DefaultIPTables ts) ctx) hook p iif oif = Some (Ok (VerdictAccept, p, None)) <->
  Forall (passes fuel (MkNetfilter (DefaultIPTables ts) ctx) hook p iif oif) (handles hook).
Proof.
  set (nf := MkNetfilter (DefaultIPTables ts) ctx). unfold Hook. cbn [iptables nf].
  destruct (run_handles_split fuel nf hook p iif oif (handles hook)) as [[Hf E]|(hs1 & t & hs2 & E & Hf & Hn & Er)].
  - split; [done|]. intros _. exact E.
  - split.
    + change (run_handles fuel nf hook p iif oif (handles hook) = Some (Ok (VerdictAccept, p, None)) -> Forall (passes fuel nf hook p iif oif) (handles hook)).
      rewrite Er. by destruct (TracePacket _ _ _ _ t _ _ _) as [[[[[] tr] [e|]]|e|]|].
    + intros Hall. rewrite E, Forall_app, Forall_cons in Hall. by destruct Hall as (_ & ? & _).
Qed.

(** A hook.  For parsed tables, the packet is accepted without an
    error exactly if the table of each of the hook's handles accepts it; it is
    dropped with a trace exactly if some table drops it, those before it in the
    hook's order accept it, and the trace is that table's; and the packet that
    comes out is the one that went in, whatever the targets of the rules. *)
Theorem hook_in_order (fuel : nat) (nf : SimulateNetfilter) (hook : NFHook) (p p' : Packet) (iif oif : string) (ts : gmap string xTable)
    (Hipt : iptables nf = DefaultIPTables ts) :
  (Hook fuel nf hook p iif oif = Some (Ok (VerdictAccept, p', None)) <-> p' = p ∧ Forall (passes fuel nf hook p iif oif) (handles hook)) ∧
  (∀ tr, Hook fuel nf hook p iif oif = Some (Ok (VerdictDrop, p', Some (IPTableDropError tr))) <->
     p' = p ∧ ∃ hs1 t hs2, handles hook = hs1 ++ t :: hs2 ∧ Forall (passes fuel nf hook p iif oif) hs1 ∧
       TracePacket fuel (iptables nf) (nf_ctx nf) hook t p iif oif = Some (Ok (VerdictDrop, tr, None))) ∧
  (∀ v e, Hook fuel nf hook p iif oif = Some (Ok (v, p', e)) -> p' = p).
Proof.
  unfold Hook. rewrite Hipt. rewrite <- Hipt. clear Hipt.
  destruct (run_handles_split fuel nf hook p iif oif (handles hook)) as [[Hf ->]|(hs1 & t & hs2 & E & Hf & Hn & Er)].
  - split_and!; [split; [by intros [= <-]|by intros [-> _]]| |by intros v e [= _ <-]].
    intros tr. split; [done|]. intros (-> & hs1 & t & hs2 & E & _ & Ht). rewrite E, Forall_app, Forall_cons in Hf.
    destruct Hf as (_ & [tr' Hp] & _). congruence.
  - rewrite Er. split_and!.
    + split; [destruct (TracePacket _ _ _ _ _ _ _ _) as [[[[[] tr] [e|]]|e|]|]; done|].
      intros [_ Hall]. rewrite E, Forall_app, Forall_cons in Hall. naive_solver.
    + intros tr. split.
      * intros Hd. destruct (TracePacket _ _ _ _ t _ _ _) as [[[[[] tr'] [e|]]|e|]|] eqn:Et; try done. injection Hd as <- <-.
        split; [done|]. by exists hs1, t, hs2.
      * intros (-> & hs1' & t' & hs2' & E' & Hf' & Ht). assert (t' = t) as ->; [|by rewrite Ht].
        eapply first_unique; [rewrite <- E'; exact E|exact Hf|exact Hf'|exact Hn|]. intros [tr' Hp]. congruence.
    + intros v e. destruct (TracePacket _ _ _ _ t _ _ _) as [[[[v' tr] [e'|]]|e'|]|]; try done; by intros [= _ <-].
Qed.

Lemma hook_in_order_witness :
  ∃ nf, Hook 10 nf NFHookInput ex_pkt "eth0" "" = Some (Ok (VerdictAccept, ex_pkt, None)) ∧
    Forall (passes 10 nf NFHookInput ex_pkt "eth0" "") (handles NFHookInput).
Proof.
  pose (nf := MkNetfilter (DefaultIPTables {["filter"%string := ex_node]}) ex_ctx). exists nf.
  assert (Hook 10 nf NFHookInput ex_pkt "eth0" "" = Some (Ok (VerdictAccept, ex_pkt, None))) as E by (vm_compute; reflexivity).
  split; [done|]. by apply (hook_in_order 10 nf NFHookInput ex_pkt ex_pkt "eth0" "" {["filter"%string := ex_node]} eq_refl).
Defined.

(** *** Conditions *)

(** The ports of a multiport condition, as iptables prints them. *)
Inductive port_spec := Port (p : Z) | Range (a b : Z).
Definition spec_text (s : port_spec) : string :=
  match s with Port p => dec p | Range a b => (dec a ++ String ":" (dec b))%string end.
Definition spec_ok (s : port_spec) : Prop := match s with Port p => fits 16 p | Range a b => fits 16 a ∧ fits 16 b end.
Definition in_spec (port : Z) (s : port_spec) : bool :=
  match s with Port p => port =? p | Range a b => (a <=? port) && (port <=? b) end.

Lemma free_of_dec (c : ascii) (n : Z) : is_digit c = false -> 0 <= n -> free_of (Ascii.eqb c) (dec n).
Proof.
  intros Hc Hn. apply dec_free; [|done]. intros d Hd. apply Ascii.eqb_neq. intros ->.
  assert (d ∈ [0;1;2;3;4;5;6;7;8;9]) as Hin by (rewrite !elem_of_cons; lia).
  repeat (apply elem_of_cons in Hin as [->|Hin]; [discriminate Hc|]). by apply elem_of_nil in Hin.
Qed.

Lemma Atoi_port (n : Z) : fits 16 n -> u16 (value (Atoi (dec n))) = n.
Proof. intros Hn. unfold fits in Hn. rewrite Atoi_dec by lia. simpl. apply Z.mod_small. lia. Qed.

Lemma spec_text_free (s : port_spec) : spec_ok s -> free_of (Ascii.eqb ",") (spec_text s).
Proof.
  destruct s as [p|a b]; simpl; unfold fits; intros Hs; [by apply free_of_dec; [|lia]|].
  apply free_of_app. split; [by apply free_of_dec; [|lia]|]. unfold free_of. simpl. by apply free_of_dec; [|lia].
Qed.

Lemma match_fields_text (port : Z) (specs : list port_spec) :
  Forall spec_ok specs -> match_fields port (spec_text <$> specs) = Ok (existsb (in_spec port) specs).
Proof.
  induction 1 as [|s specs Hs _ IH]; [done|]. cbn [fmap list_fmap match_fields existsb].
  change (list_fmap port_spec string spec_text specs) with (spec_text <$> specs). rewrite IH.
  destruct s as [p|a b]; simpl in Hs; cbn [spec_text in_spec].
  - unfold fits in Hs. pose proof (free_of_dec ":" p eq_refl ltac:(lia)) as Hc. unfold Contains. unfold free_of in Hc. rewrite Hc.
    rewrite Atoi_port by done. by destruct (port =? p).
  - destruct Hs as [Ha Hb]. pose proof Ha as Ha'. pose proof Hb as Hb'. unfold fits in Ha', Hb'. unfold Contains.
    rewrite exists_char_app. cbn [exists_char]. rewrite Ascii.eqb_refl, orb_true_r. unfold Split.
    rewrite split_at_cons by (done || by apply free_of_dec; [|lia]).
    rewrite split_at_free by (by apply free_of_dec; [|lia]). simpl. rewrite !Atoi_port by done. by destruct (_ && _).
Qed.

(** Multiport.  On the text of a list of ports and ranges the condition
    never fails, and holds exactly if the destination port (the source port,
    or one of the two, by the option) is in the list. *)
Theorem multiport_exact (specs : list port_spec) (p : Packet) (Hne : specs ≠ []) (Hs : Forall spec_ok specs) :
  let text := String.concat "," (spec_text <$> specs) in
  MultiPort_Match "dports" text p = Ok (existsb (in_spec (Dport p)) specs) ∧
  MultiPort_Match "sports" text p = Ok (existsb (in_spec (Sport p)) specs) ∧
  MultiPort_Match "ports" text p = Ok (existsb (in_spec (Sport p)) specs || existsb (in_spec (Dport p)) specs).
Proof.
  intros text. assert (∀ port, matchPort text port = Ok (existsb (in_spec port) specs)) as H.
  { intros port. unfold matchPort, text. change ","%string with (String "," EmptyString). rewrite concat_split.
    - by apply match_fields_text.
    - by destruct specs.
    - apply Forall_fmap. eapply Forall_impl; [exact Hs|]. intros s Hs'. by apply spec_text_free. }
  unfold MultiPort_Match. simpl. rewrite !H. split_and!; [done..|]. simpl. by destruct (existsb (in_spec (Sport p)) specs).
Qed.

Lemma multiport_exact_witness :
  MultiPort_Match "dports" "22,80:90,443" (ex_packet [10; 1; 2; 3]) = Ok true ∧
  String.concat "," (spec_text <$> [Port 22; Range 80 90; Port 443]) = "22,80:90,443"%string.
Proof.
  pose proof (multiport_exact [Port 22; Range 80 90; Port 443] (ex_packet [10; 1; 2; 3]) ltac:(discriminate)
    ltac:(repeat constructor; done)) as (H & _ & _).
  split; [exact H|reflexivity].
Defined.

(** Marks.  A condition on the packet's mark, written [0x<value>/0x<mask>]
    as iptables does, is read with both numbers clamped at the largest signed
    32-bit number.  So it is the kernel's test for values and masks below
    2^31, and ignores the mark's highest bit otherwise: no packet with a mark
    from 2^31 on matches its own mark under the full mask. *)
Theorem mark_clamped (v m : Z) (p : Packet) (Hv : fits 32 v) (Hm : fits 32 m) (Hp : fits 32 (Mark p)) :
  let text := (hex_prefixed v ++ String "/" (hex_prefixed m))%string in
  Mark_Match text p = Ok (Z.min v (2 ^ 31 - 1) =? Z.land (Mark p) (Z.min m (2 ^ 31 - 1))) ∧
  (v < 2 ^ 31 -> m < 2 ^ 31 -> Mark_Match text p = Ok (v =? Z.land (Mark p) m)) ∧
  (Mark p = v -> m = 2 ^ 32 - 1 -> 2 ^ 31 <= v < 2 ^ 32 - 1 -> v =? Z.land (Mark p) m = true ∧ Mark_Match text p = Ok false).
Proof.
  intros text. unfold fits in *.
  assert (∀ n, 0 <= n -> free_of (Ascii.eqb "/") (hex_prefixed n)) as Hfree.
  { intros n Hn. unfold free_of, hex_prefixed. cbn [exists_char]. apply hex_go_free; [vm_compute; done|done|done]. }
  assert (Mark_Match text p = Ok (Z.min v (2 ^ 31 - 1) =? Z.land (Mark p) (Z.min m (2 ^ 31 - 1)))) as H.
  { unfold Mark_Match, parseMarkValue, text. unfold Contains. rewrite exists_char_app. cbn [exists_char].
    rewrite Ascii.eqb_refl, orb_true_r. unfold Split. rewrite split_at_cons by (done || by apply Hfree; lia).
    rewrite split_at_free by (by apply Hfree; lia). cbn [lookup list_lookup deref mbind result_bind fst snd].
    rewrite !ParseInt_hex by lia. unfold wrap. rewrite !(Z.mod_small (Z.min _ _)) by lia. done. }
  split_and!; [done| |].
  - intros Hv' Hm'. by rewrite H, !Z.min_l by lia.
  - intros Ev -> Hv'. rewrite H, Ev. change (2 ^ 32 - 1) with (Z.ones 32). change (2 ^ 31 - 1) with (Z.ones 31).
    rewrite Z.land_ones, Z.mod_small by lia. split; [apply Z.eqb_refl|]. f_equal. apply Z.eqb_neq.
    rewrite !Z.min_r by (change (Z.ones 31) with (2 ^ 31 - 1); change (Z.ones 32) with (2 ^ 32 - 1); lia).
    rewrite Z.land_ones by lia. change (Z.ones 31) with (2 ^ 31 - 1). intros E.
    assert (v mod 2 ^ 31 = v - 2 ^ 31) as Emod; [|lia].
    symmetry. apply (Z.mod_unique_pos _ _ 1); lia.
Qed.

Lemma mark_clamped_witness :
  Mark_Match "0x80000001/0xffffffff" (MkPacket [] 0 [] 0 TCP None 0x80000001) = Ok false ∧
  (hex_prefixed 0x80000001 ++ String "/" (hex_prefixed 0xffffffff))%string = "0x80000001/0xffffffff"%string.
Proof.
  pose proof (mark_clamped 0x80000001 0xffffffff (MkPacket [] 0 [] 0 TCP None 0x80000001) ltac:(done) ltac:(done) ltac:(done)) as (_ & _ & H).
  split; [exact (proj2 (H eq_refl eq_refl ltac:(lia)))|reflexivity].
Defined.
End SkoopIptables.
