(* ===== verification/SkoopXml.v ===== *)
(** src/pkg/skoop/netstack/iptables.go and ipset.go: reading the XML dumps of
    iptables and ipset into the tables of [SkoopIptables].

    The XML parser (etree) is a parameter that gives the root element; an
    element is its tag, attributes, text and child elements.  The theorems
    relate reading to printing: which tables survive it, and what is lost. *)

From Stdlib Require Import Ascii.
From S2P Require Import Prelude GoStrings GoNet GoResult SkoopRoute SkoopIptables.
Import SkoopRoute SkoopIptables.

Module SkoopXml.

(** ** Elements *)

Inductive Element := Elem (tag : string) (attrs : list (string * string)) (text : string) (children : list Element).
Definition Tag (e : Element) : string := let '(Elem t _ _ _) := e in t.
Definition Text (e : Element) : string := let '(Elem _ _ t _) := e in t.
Definition ChildElements (e : Element) : list Element := let '(Elem _ _ _ c) := e in c.
Definition SelectAttr (e : Element) (key : string) : option string :=
  let '(Elem _ attrs _ _) := e in snd <$> List.find (λ a, String.eqb a.1 key) attrs.
Definition FindElements (e : Element) (tag : string) : list Element := List.filter (λ c, String.eqb (Tag c) tag) (ChildElements e).
Definition FindElement (e : Element) (tag : string) : option Element := head (FindElements e tag).

(** ** iptables *)

Inductive parse_err := UnsupportedModule (m : string) | UnsupportedAction (a : string) | CreateTarget (a : string).

Inductive moduleType := TTCP | TUDP | TIP | TSet | TComment | TMultiPort | TMark | TStatistic | TConntrack | TAddrType | TRPFilter.
Definition ModuleTypes : list (string * moduleType) :=
  [("tcp", TTCP); ("udp", TUDP); ("match", TIP); ("set", TSet); ("comment", TComment); ("multiport", TMultiPort); ("mark", TMark);
   ("statistic", TStatistic); ("conntrack", TConntrack); ("addrtype", TAddrType); ("rpfilter", TRPFilter)]%string.

Inductive actionType := ADNAT | ASNAT | AMASQUERADE | AMARK | AACCEPT | ADROP | ARETURN | AREJECT | ANOTRACK | ATPROXY.
Definition ActionTypes : list (string * actionType) :=
  [("DNAT", ADNAT); ("SNAT", ASNAT); ("MASQUERADE", AMASQUERADE); ("MARK", AMARK); ("ACCEPT", AACCEPT); ("DROP", ADROP);
   ("RETURN", ARETURN); ("REJECT", AREJECT); ("NOTRACK", ANOTRACK); ("TPROXY", ATPROXY)]%string.

Definition find_type {A : Type} (l : list (string * A)) (k : string) : option A := snd <$> List.find (λ x, String.eqb x.1 k) l.

(** [setField] on a field of type [uint16]; a string field takes any value,
    and a bool field none. *)
Definition setField_uint16 (v : string) : option Z := (λ i, u16 i) <$> ok (ParseUint v 10 64).

Definition createMatcher (ty : moduleType) (matchField v : string) : option Matcher :=
  match ty with
  | TTCP => MTCP matchField <$> setField_uint16 v
  | TUDP => MUDP matchField <$> setField_uint16 v
  | TIP => Some (MIP matchField v)
  | TSet => Some (MSet matchField v)
  | TComment => Some (MComment matchField v)
  | TMultiPort => Some (MMultiPort matchField v)
  | TMark => Some (MMark matchField v)
  | TStatistic => Some (MStatistic matchField v)
  | TConntrack => Some (MConntrack matchField v)
  | TAddrType => Some (MAddrType matchField v)
  | TRPFilter => Some (MRPFilter matchField v)
  end.

(** The fields of the target's type that have an [ipt] tag: strings from the
    parameters, and bools, which [setField] refuses. *)
Definition has_any (params : gmap string string) (tags : list string) : bool :=
  existsb (λ t, bool_decide (is_Some (params !! t))) tags.
Definition createTarget (ty : actionType) (params : gmap string string) : option Target :=
  match ty with
  | ADNAT =>
      if has_any params ["--random"; "--persistent"]%string then None
      else Some (DNATTarget (default EmptyString (params !! "--to-destination"%string)) false false)
  | ASNAT =>
      if has_any params ["--random"; "--random-fully"; "--persistent"]%string then None
      else Some (SNATTarget (default EmptyString (params !! "--to-source"%string)) false false false)
  | AMASQUERADE => Some MasqueradeTarget
  | AMARK => Some MarkTarget
  | AACCEPT => Some AcceptTarget
  | ADROP => Some DropTarget
  | ARETURN => Some ReturnTarget
  | AREJECT => Some RejectTarget
  | ANOTRACK => Some NoTrackTarget
  | ATPROXY => Some TPProxyTarget
  end.

(** A loop that appends one result per element. *)
Fixpoint collect {A B : Type} (f : A -> result parse_err B) (l : list A) : result parse_err (list B) :=
  match l with
  | [] => Ok []
  | a :: l' => b ← f a; bs ← collect f l'; Ok (b :: bs)
  end.

Definition parse_expr (ty : moduleType) (xmlExpr : Element) : result parse_err match_ :=
  let invert := match SelectAttr xmlExpr "invert" with Some v => String.eqb v "true" | None => false end in
  match createMatcher ty (Tag xmlExpr) (Text xmlExpr) with
  | None => Panic
  | Some m => Ok (MkMatch m invert)
  end.
Definition parse_module (xmlModule : Element) : result parse_err (list match_) :=
  match find_type ModuleTypes (Tag xmlModule) with
  | None => Err (UnsupportedModule (Tag xmlModule))
  | Some ty => collect (parse_expr ty) (ChildElements xmlModule)
  end.

Definition parse_action (action : Element) : result parse_err Target :=
  if String.eqb (Tag action) "call" then c ← deref (head (ChildElements action)); Ok (CallTarget (Tag c))
  else if String.eqb (Tag action) "goto" then c ← deref (head (ChildElements action)); Ok (CallTarget (Tag c))
  else match find_type ActionTypes (Tag action) with
       | None => Err (UnsupportedAction (Tag action))
       | Some ty =>
           let params := foldl (λ m c, <[Tag c := Text c]> m) ∅ (ChildElements action) in
           match createTarget ty params with Some t => Ok t | None => Err (CreateTarget (Tag action)) end
       end.

Definition parseOneRule (xmlRule : Element) : result parse_err rule :=
  conditions ← match FindElement xmlRule "conditions" with
               | None => Ok []
               | Some xmlConditions => collect parse_module (ChildElements xmlConditions)
               end;
  target ← match FindElement xmlRule "actions" with
           | None => Ok NopTarget
           | Some xmlAction => match ChildElements xmlAction with [] => Ok NopTarget | action :: _ => parse_action action end
           end;
  Ok (MkIptRule (concat conditions) target).

Definition parse_chain (xmlChain : Element) : result parse_err iptChain :=
  name ← deref (SelectAttr xmlChain "name");
  let policy := match SelectAttr xmlChain "policy" with
                | Some v => if String.eqb v "DROP" then VerdictDrop else VerdictAccept
                | None => VerdictAccept
                end in
  rules ← collect parseOneRule (ChildElements xmlChain);
  Ok (MkChain name policy rules).
Definition parseOneTable (xmlTable : Element) : result parse_err xTable :=
  tableName ← deref (SelectAttr xmlTable "name");
  cs ← collect parse_chain (ChildElements xmlTable);
  Ok (MkTable tableName (foldl (λ m c, <[c_name c := c]> m) ∅ cs)).

Section document.
(** [doc.ReadFromString] and [doc.Root]: an error, or the root if there is
    one. *)
Context (ReadFromString : string -> option (option Element)).

(** Errors are panics here, and the deferred function recovers. *)
Definition ParseIPTables (dump : string) : IPTables :=
  if String.eqb dump EmptyString then createEmptyIPTables
  else match ReadFromString dump with
       | Some (Some root) =>
           match collect parseOneTable (ChildElements root) with
           | Ok tables => DefaultIPTables (foldl (λ m t, <[xt_name t := t]> m) ∅ tables)
           | _ => createEmptyIPTables
           end
       | _ => createEmptyIPTables
       end.

(** ** ipset *)

Definition parse_member (xmlMember : Element) : result parse_err string :=
  e ← deref (FindElement xmlMember "elem"); Ok (Text e).
Definition parseOneIPSet (xmlIPSet : Element) : result parse_err IPSet :=
  name ← deref (SelectAttr xmlIPSet "name");
  ty ← deref (FindElement xmlIPSet "type");
  members ← match FindElement xmlIPSet "members" with
            | None => Ok []
            | Some xmlMembers => collect parse_member (FindElements xmlMembers "member")
            end;
  Ok (MkIPSet name (Text ty) (foldl (λ m k, <[k := k]> m) ∅ members)).

(** [Err] is the error of the parser. *)
Definition ParseIPSet (dump : string) : result unit (list IPSet) :=
  match ReadFromString dump with
  | None => Err tt
  | Some None => Panic
  | Some (Some root) => match collect parseOneIPSet (ChildElements root) with Ok l => Ok l | _ => Panic end
  end.
End document.

(** ** Printing

    The dump that iptables-xml and ipset write for tables and sets. *)

Definition xml (tag : string) (attrs : list (string * string)) (cs : list Element) : Element := Elem tag attrs EmptyString cs.
Definition leaf (tag text : string) : Element := Elem tag [] text [].

Definition matcher_text (m : Matcher) : string * string * string :=
  match m with
  | MTCP o v => ("tcp", o, dec v)
  | MUDP o v => ("udp", o, dec v)
  | MIP o v => ("match", o, v)
  | MConntrack o v => ("conntrack", o, v)
  | MSet o v => ("set", o, v)
  | MComment o v => ("comment", o, v)
  | MMultiPort o v => ("multiport", o, v)
  | MMark o v => ("mark", o, v)
  | MAddrType o v => ("addrtype", o, v)
  | MStatistic o v => ("statistic", o, v)
  | MRPFilter o v => ("rpfilter", o, v)
  end%string.
Definition xml_of_match (m : match_) : Element :=
  let '(module, o, v) := matcher_text (matcher m) in
  xml module [] [Elem o (if invert m then [("invert", "1")]%string else []) v []].

Definition nat_args (b : bool) (tag : string) : list Element := if b then [leaf tag EmptyString] else [].
Definition action_of (t : Target) : list Element :=
  match t with
  | NopTarget => []
  | AcceptTarget => [leaf "ACCEPT" ""]
  | DropTarget => [leaf "DROP" ""]
  | MasqueradeTarget => [leaf "MASQUERADE" ""]
  | RejectTarget => [leaf "REJECT" ""]
  | ReturnTarget => [leaf "RETURN" ""]
  | CallTarget c => [xml "call" [] [leaf c ""]]
  | GotoTarget c => [xml "goto" [] [leaf c ""]]
  | DNATTarget d r p => [xml "DNAT" [] (leaf "to-destination" d :: nat_args r "random" ++ nat_args p "persistent")]
  | SNATTarget d r f p => [xml "SNAT" [] (leaf "to-source" d :: nat_args r "random" ++ nat_args f "random-fully" ++ nat_args p "persistent")]
  | MarkTarget => [leaf "MARK" ""]
  | NoTrackTarget => [leaf "NOTRACK" ""]
  | TPProxyTarget => [leaf "TPROXY" ""]
  end%string.
Definition xml_of_rule (r : rule) : Element :=
  xml "rule" [] [xml "conditions" [] (xml_of_match <$> matches r); xml "actions" [] (action_of (target r))].
Definition xml_of_chain (c : iptChain) : Element :=
  xml "chain" [("name", c_name c); ("policy", match policy c with VerdictAccept => "ACCEPT" | VerdictDrop => "DROP" end)]%string
    (xml_of_rule <$> c_rules c).
Definition xml_of_table (t : xTable) : Element :=
  xml "table" [("name", xt_name t)]%string (xml_of_chain <$> (map_to_list (chains t)).*2).
Definition xml_of_tables (ts : gmap string xTable) : Element :=
  xml "iptables-rules" [("version", "1.0")]%string (xml_of_table <$> (map_to_list ts).*2).

Definition xml_of_ipset (s : IPSet) : Element :=
  xml "ipset" [("name", s_Name s)]%string
    [leaf "type" (s_Type s); xml "members" [] ((λ kv, xml "member" [] [leaf "elem" kv.1]) <$> map_to_list (s_Members s))].

(** What reading keeps of a table: no inversion, a goto as a call, and no
    arguments of NAT targets. *)
Definition read_target (t : Target) : Target :=
  match t with
  | GotoTarget c => CallTarget c
  | DNATTarget _ _ _ => DNATTarget EmptyString false false
  | SNATTarget _ _ _ _ => SNATTarget EmptyString false false false
  | t => t
  end.
Definition read_rule (r : rule) : rule :=
  MkIptRule ((λ m, MkMatch (matcher m) false) <$> matches r) (read_target (target r)).
Definition read_chain (c : iptChain) : iptChain := MkChain (c_name c) (policy c) (read_rule <$> c_rules c).
Definition read_table (t : xTable) : xTable := MkTable (xt_name t) (read_chain <$> chains t).

(** ** Lemmas *)

Definition port_ok (m : match_) : Prop := match matcher m with MTCP _ v | MUDP _ v => fits 16 v | _ => True end.
Definition rule_ok (r : rule) : Prop := Forall port_ok (matches r).
Definition table_ok (t : xTable) : Prop := ∀ n c, chains t !! n = Some c -> c_name c = n ∧ Forall rule_ok (c_rules c).

Lemma collect_fmap {A B C : Type} (f : A -> result parse_err B) (g : C -> A) (h : C -> B) (l : list C) :
  Forall (λ c, f (g c) = Ok (h c)) l -> collect f (g <$> l) = Ok (h <$> l).
Proof. induction 1 as [|c l Hc _ IH]; [done|]. rewrite fmap_cons. cbn [collect]. rewrite Hc. cbn [mbind result_bind]. by rewrite IH. Qed.

Lemma setField_dec (v : Z) : fits 16 v -> setField_uint16 (dec v) = Some v.
Proof.
  intros Hv. unfold fits in Hv. unfold setField_uint16. rewrite ParseUint_dec by lia. simpl. f_equal. apply Z.mod_small. lia.
Qed.

Lemma parse_module_match (m : match_) : port_ok m -> parse_module (xml_of_match m) = Ok [MkMatch (matcher m) false].
Proof.
  destruct m as [m i]. unfold port_ok, xml_of_match. cbn [matcher invert].
  assert (∀ (tag o v : string) (ty : moduleType) (m' : Matcher), find_type ModuleTypes tag = Some ty -> createMatcher ty o v = Some m' ->
    parse_module (xml tag [] [Elem o (if i then [("invert", "1")]%string else []) v []]) = Ok [MkMatch m' false]) as H.
  { intros tag o v ty m' Et E. unfold parse_module, xml. cbn [Tag]. rewrite Et. cbn [ChildElements collect]. unfold parse_expr. cbn [Tag Text].
    rewrite E. by destruct i. }
  destruct m; intros Hp; (eapply H; [reflexivity|]); cbn [createMatcher snd]; simpl in Hp;
    try (rewrite setField_dec by done); reflexivity.
Qed.

Lemma parse_action_target (t : Target) (a : Element) : action_of t = [a] -> parse_action a = Ok (read_target t).
Proof.
  destruct t; try discriminate; cbn [action_of]; intros [= <-]; try reflexivity.
  - by destruct Random, Persistent.
  - by destruct Random, RandomFully, Persistent.
Qed.

Lemma parse_rule_print (r : rule) : rule_ok r -> parseOneRule (xml_of_rule r) = Ok (read_rule r).
Proof.
  intros Hr. unfold parseOneRule.
  change (FindElement (xml_of_rule r) "conditions") with (Some (xml "conditions" [] (xml_of_match <$> matches r))).
  change (FindElement (xml_of_rule r) "actions") with (Some (xml "actions" [] (action_of (target r)))). unfold xml. cbn [ChildElements].
  rewrite (collect_fmap parse_module xml_of_match (λ m, [MkMatch (matcher m) false])).
  2:{ eapply Forall_impl; [exact Hr|]. intros m. apply parse_module_match. }
  cbn [mbind result_bind]. assert (concat ((λ m, [MkMatch (matcher m) false]) <$> matches r) = (λ m, MkMatch (matcher m) false) <$> matches r) as ->.
  { induction (matches r) as [|m ms IH]; [done|]. simpl. f_equal. exact IH. }
  pose proof (parse_action_target (target r)) as Ha. unfold read_rule.
  destruct (target r); cbn [action_of] in *; try (by rewrite (Ha _ eq_refl)). done.
Qed.

Lemma parse_chain_print (c : iptChain) : Forall rule_ok (c_rules c) -> parse_chain (xml_of_chain c) = Ok (read_chain c).
Proof.
  intros Hc. unfold parse_chain. change (SelectAttr (xml_of_chain c) "name") with (Some (c_name c)).
  change (SelectAttr (xml_of_chain c) "policy") with (Some (match policy c with VerdictAccept => "ACCEPT" | VerdictDrop => "DROP" end)%string).
  change (ChildElements (xml_of_chain c)) with (xml_of_rule <$> c_rules c). cbn [deref mbind result_bind]. rewrite (collect_fmap parseOneRule xml_of_rule read_rule).
  - unfold read_chain. by destruct (policy c).
  - eapply Forall_impl; [exact Hc|]. apply parse_rule_print.
Qed.

(** Inserting the elements of a map, under the name each carries, gives the
    map. *)
Lemma foldl_names {A : Type} (name : A -> string) (m : gmap string A) :
  (∀ n a, m !! n = Some a -> name a = n) -> foldl (λ m a, <[name a := a]> m) ∅ (map_to_list m).*2 = m.
Proof.
  intros Hn. assert (∀ (l : list (string * A)) (m0 : gmap string A), Forall (λ kv, name kv.2 = kv.1) l -> NoDup l.*1 ->
    foldl (λ m a, <[name a := a]> m) m0 l.*2 = list_to_map l ∪ m0) as H.
  { induction l as [|[k a] l IH]; intros m0 Hl Hd; [symmetry; apply (left_id_L ∅ (∪))|]. rewrite fmap_cons. cbn [foldl snd].
    apply Forall_cons in Hl as [Hk Hl]. apply NoDup_cons in Hd as [Hnin Hd]. simpl in Hk. rewrite Hk.
    rewrite IH by done. rewrite list_to_map_cons, <- insert_union_l, <- insert_union_r; [done|].
    by apply not_elem_of_list_to_map. }
  rewrite H, list_to_map_to_list, (right_id_L ∅ (∪)); [done| |apply NoDup_fst_map_to_list].
  apply Forall_forall. intros [k a] Hin%elem_of_map_to_list. by apply Hn.
Qed.

Lemma fmap_values {A B : Type} (f : A -> B) (m : gmap string A) : f <$> (map_to_list m).*2 = (map_to_list (f <$> m)).*2.
Proof. rewrite map_to_list_fmap, <- !list_fmap_compose. done. Qed.

Lemma parse_table_print (t : xTable) : table_ok t -> parseOneTable (xml_of_table t) = Ok (read_table t).
Proof.
  intros Ht. unfold parseOneTable. change (SelectAttr (xml_of_table t) "name") with (Some (xt_name t)).
  change (ChildElements (xml_of_table t)) with (xml_of_chain <$> (map_to_list (chains t)).*2). cbn [deref mbind result_bind].
  rewrite (collect_fmap parse_chain xml_of_chain read_chain).
  - cbn [mbind result_bind]. rewrite fmap_values, foldl_names; [done|]. intros n c Hc.
    apply lookup_fmap_Some in Hc as (c' & <- & Hc). exact (proj1 (Ht n c' Hc)).
  - apply Forall_forall. intros c Hin. apply list_elem_of_fmap in Hin as ([n c'] & -> & Hin%elem_of_map_to_list).
    apply parse_chain_print. by eapply Ht.
Qed.

Lemma parse_ipset_print (s : IPSet) : (∀ k v, s_Members s !! k = Some v -> v = k) -> parseOneIPSet (xml_of_ipset s) = Ok s.
Proof.
  intros Hm. unfold parseOneIPSet. change (SelectAttr (xml_of_ipset s) "name") with (Some (s_Name s)).
  change (FindElement (xml_of_ipset s) "type") with (Some (leaf "type" (s_Type s))).
  set (f := λ kv : string * string, xml "member" [] [leaf "elem" kv.1]).
  change (FindElement (xml_of_ipset s) "members") with (Some (xml "members" [] (f <$> map_to_list (s_Members s)))).
  cbn [deref mbind result_bind].
  assert (∀ l, FindElements (xml "members" [] (f <$> l)) "member" = f <$> l) as ->.
  { unfold FindElements. cbn [xml ChildElements]. induction l as [|kv l IH]; [done|]. rewrite fmap_cons. cbn [List.filter]. simpl String.eqb.
    cbv iota. by rewrite IH. }
  rewrite (collect_fmap parse_member f fst) by (apply Forall_forall; by intros [k v] _). cbn [mbind result_bind].
  assert ((map_to_list (s_Members s)).*1 = (map_to_list (s_Members s)).*2) as ->.
  { assert (Forall (λ kv : string * string, kv.2 = kv.1) (map_to_list (s_Members s))) as Hf.
    { apply Forall_forall. intros [k v] Hin%elem_of_map_to_list. by apply Hm. }
    induction Hf as [|[k v] l Hk _ IH]; [done|]. rewrite !fmap_cons, IH. by simpl in Hk; subst. }
  rewrite (foldl_names id); [by destruct s|]. intros k v Hk. by apply Hm.
Qed.

Lemma parse_tables_print (ReadFromString : string -> option (option Element)) (ts : gmap string xTable) (dump : string)
    (Hdump : dump ≠ EmptyString) (Hread : ReadFromString dump = Some (Some (xml_of_tables ts)))
    (Hts : ∀ n t, ts !! n = Some t -> xt_name t = n ∧ table_ok t) :
  ParseIPTables ReadFromString dump = DefaultIPTables (read_table <$> ts).
Proof.
  unfold ParseIPTables. destruct (String.eqb_spec dump EmptyString) as [|_]; [done|]. rewrite Hread.
  change (ChildElements (xml_of_tables ts)) with (xml_of_table <$> (map_to_list ts).*2).
  rewrite (collect_fmap parseOneTable xml_of_table read_table).
  - rewrite fmap_values, foldl_names; [done|]. intros n t Ht. apply lookup_fmap_Some in Ht as (t' & <- & Ht). exact (proj1 (Hts n t' Ht)).
  - apply Forall_forall. intros t Hin. apply list_elem_of_fmap in Hin as ([n t'] & -> & Hin%elem_of_map_to_list).
    apply parse_table_print. by eapply Hts.
Qed.

(** ** Properties *)

(** Reading a dump.  For tables under their names, with ports of 16
    bits, the dump that iptables-xml writes is read as the same tables: every
    chain with its policy, and every rule with its conditions and target in
    order; except that no condition is inverted, that a goto is a call, and
    that the arguments of NAT targets are gone. *)
Theorem parse_print (ReadFromString : string -> option (option Element)) (ts : gmap string xTable) (dump : string)
    (Hdump : dump ≠ EmptyString) (Hread : ReadFromString dump = Some (Some (xml_of_tables ts)))
    (Hts : ∀ n t, ts !! n = Some t -> xt_name t = n ∧ table_ok t) :
  ParseIPTables ReadFromString dump = DefaultIPTables (read_table <$> ts).
Proof. by apply parse_tables_print. Qed.

(** A reader of one document. *)
Definition ex_read (e : Element) : string -> option (option Element) := λ _, Some (Some e).
Definition ex_tables : gmap string xTable :=
  {["filter"%string := ex_table [("INPUT", [MkIptRule [MkMatch (MIP "s" "127.0.0.0/8") true; MkMatch (MTCP "dport" 80) false] (GotoTarget "KUBE-FIREWALL")]);
                                 ("KUBE-FIREWALL", [always DropTarget])]%string]}.

Lemma ex_table_ok (cs : list (string * list rule)) : Forall (λ c, Forall rule_ok c.2) cs -> table_ok (ex_table cs).
Proof.
  intros Hcs n c Hc. apply elem_of_list_to_map_2, list_elem_of_fmap in Hc as ([m rs] & [= -> ->] & Hin).
  rewrite Forall_forall in Hcs. split; [done|]. exact (Hcs _ Hin).
Qed.

Lemma ex_tables_ok (n : string) (t : xTable) : ex_tables !! n = Some t -> xt_name t = n ∧ table_ok t.
Proof.
  unfold ex_tables. intros [<- <-]%lookup_singleton_Some. split; [done|]. apply ex_table_ok. repeat constructor; done.
Qed.

(** So the condition [! -s 127.0.0.0/8] is read as its opposite. *)
Lemma parse_print_witness :
  ∃ ts, ParseIPTables (ex_read (xml_of_tables ex_tables)) "<iptables-rules>" = DefaultIPTables ts ∧
    ∃ t c, ts !! "filter"%string = Some t ∧ chains t !! "INPUT"%string = Some c ∧
      c_rules c = [MkIptRule [MkMatch (MIP "s" "127.0.0.0/8") false; MkMatch (MTCP "dport" 80) false] (CallTarget "KUBE-FIREWALL")].
Proof.
  exists (read_table <$> ex_tables). split.
  - apply (parse_print (ex_read (xml_of_tables ex_tables)) ex_tables "<iptables-rules>"); [discriminate|reflexivity|apply ex_tables_ok].
  - eexists _, _. split_and!; [reflexivity|reflexivity|reflexivity].
Defined.

(** Every module and action that the rules of a dump use. *)
Definition rule_modules (xmlRule : Element) : list string :=
  match FindElement xmlRule "conditions" with Some c => Tag <$> ChildElements c | None => [] end.
Definition rules_of (root : Element) : list Element :=
  ChildElements root ≫= λ t, ChildElements t ≫= λ c, ChildElements c.

Lemma collect_ok {A B : Type} (f : A -> result parse_err B) (l : list A) (bs : list B) (a : A) :
  collect f l = Ok bs -> a ∈ l -> ∃ b, f a = Ok b.
Proof.
  revert bs. induction l as [|x l IH]; intros bs E Ha; [by apply elem_of_nil in Ha|]. cbn [collect] in E.
  destruct (f x) as [b| |] eqn:Ef; [|done..]. cbn [mbind result_bind] in E. destruct (collect f l) as [bs'| |]; [|done..].
  apply elem_of_cons in Ha as [-> |Ha]; [by exists b|]. by eapply IH.
Qed.

Lemma parse_rule_modules (r : Element) (x : rule) (m : string) :
  parseOneRule r = Ok x -> m ∈ rule_modules r -> is_Some (find_type ModuleTypes m).
Proof.
  unfold parseOneRule, rule_modules. destruct (FindElement r "conditions") as [c|]; [|by intros _ ?%elem_of_nil].
  destruct (collect parse_module (ChildElements c)) as [ms| |] eqn:E; [|done..]. intros _ Hm.
  apply list_elem_of_fmap in Hm as (e & -> & He). destruct (collect_ok _ _ _ _ E He) as [b Eb]. unfold parse_module in Eb.
  by destruct (find_type ModuleTypes (Tag e)).
Qed.

(** All or nothing.  One condition of a module that the code does not
    know, in any rule of any table, and the whole dump is read as no tables at
    all: the simulation accepts every packet, with the error that iptables
    cannot be processed. *)
Theorem unknown_module_disables (ReadFromString : string -> option (option Element)) (dump : string) (root r : Element) (m : string)
    (Hread : ReadFromString dump = Some (Some root)) (Hr : r ∈ rules_of root) (Hm : m ∈ rule_modules r)
    (Hunknown : find_type ModuleTypes m = None) (fuel : nat) (ctx : Context) (hook : NFHook) (p : Packet) (iif oif : string) :
  ParseIPTables ReadFromString dump = createEmptyIPTables ∧
  Hook fuel (MkNetfilter (ParseIPTables ReadFromString dump) ctx) hook p iif oif = Some (Ok (VerdictAccept, p, Some ErrIPTablesUnsupported)).
Proof.
  assert (ParseIPTables ReadFromString dump = createEmptyIPTables) as E; [|by rewrite E].
  unfold ParseIPTables. destruct (String.eqb dump EmptyString); [done|]. rewrite Hread.
  destruct (collect parseOneTable (ChildElements root)) as [ts| |] eqn:Et; [|done..]. exfalso.
  unfold rules_of in Hr. apply list_elem_of_bind in Hr as (t & Hr & Ht). apply list_elem_of_bind in Hr as (c & Hrc & Hc).
  destruct (collect_ok _ _ _ _ Et Ht) as [xt Ext]. unfold parseOneTable in Ext. destruct (SelectAttr t "name"); [|done].
  cbn [deref mbind result_bind] in Ext. destruct (collect parse_chain (ChildElements t)) as [cs| |] eqn:Ec; [|done..].
  destruct (collect_ok _ _ _ _ Ec Hc) as [xc Exc]. unfold parse_chain in Exc. destruct (SelectAttr c "name"); [|done].
  cbn [deref mbind result_bind] in Exc. destruct (collect parseOneRule (ChildElements c)) as [rs| |] eqn:Er; [|done..].
  destruct (collect_ok _ _ _ _ Er Hrc) as [x Ex]. destruct (parse_rule_modules r x m Ex Hm). congruence.
Qed.

(** A bridge's table has one. *)
Definition ex_physdev : Element :=
  xml "iptables-rules" []
    [xml "table" [("name", "filter")]
      [xml "chain" [("name", "INPUT")]
        [xml "rule" [] [xml "conditions" [] [xml "physdev" [] [leaf "physdev-is-bridged" ""]]; xml "actions" [] [leaf "DROP" ""]]]]]%string.

Lemma unknown_module_disables_witness :
  Hook 10 (MkNetfilter (ParseIPTables (ex_read ex_physdev) "<iptables-rules>") ex_ctx) NFHookInput ex_pkt "eth0" "" =
  Some (Ok (VerdictAccept, ex_pkt, Some ErrIPTablesUnsupported)).
Proof.
  apply (unknown_module_disables (ex_read ex_physdev) "<iptables-rules>" ex_physdev
    (xml "rule" [] [xml "conditions" [] [xml "physdev" [] [leaf "physdev-is-bridged" ""]]; xml "actions" [] [leaf "DROP" ""]]) "physdev").
  - reflexivity.
  - vm_compute. apply elem_of_cons. by left.
  - vm_compute. apply elem_of_cons. by left.
  - reflexivity.
Defined.

(** Sets.  A dump of sets whose members are recorded under their own
    text is read as the same sets, and the manager finds each under its name. *)
Theorem ipset_parse_print (ReadFromString : string -> option (option Element)) (dump : string) (sets : gmap string IPSet) (n : string)
    (Hread : ReadFromString dump = Some (Some (xml "ipsets" [] (xml_of_ipset <$> (map_to_list sets).*2))))
    (Hsets : ∀ n s, sets !! n = Some s -> s_Name s = n ∧ ∀ k v, s_Members s !! k = Some v -> v = k) :
  ∃ l, ParseIPSet ReadFromString dump = Ok l ∧ GetIPSet (NewIPSetManager l) n = sets !! n.
Proof.
  exists (map_to_list sets).*2. split.
  - unfold ParseIPSet. rewrite Hread. cbn [xml ChildElements]. rewrite (collect_fmap parseOneIPSet xml_of_ipset id), list_fmap_id; [done|].
    apply Forall_forall. intros s Hin. apply list_elem_of_fmap in Hin as ([k s'] & -> & Hin%elem_of_map_to_list).
    apply parse_ipset_print. by eapply Hsets.
  - unfold GetIPSet, NewIPSetManager. cbn [SkoopIptables.sets]. by rewrite foldl_names by (intros k s Hs; exact (proj1 (Hsets k s Hs))).
Qed.

Definition ex_set : IPSet := MkIPSet "KUBE-CLUSTER-IP" "hash:ip,port" {["10.96.0.1,tcp:443" := "10.96.0.1,tcp:443"]}%string.
Definition ex_sets : gmap string IPSet := {["KUBE-CLUSTER-IP"%string := ex_set]}.

Lemma ipset_parse_print_witness :
  ∃ l, ParseIPSet (ex_read (xml "ipsets" [] (xml_of_ipset <$> (map_to_list ex_sets).*2))) "<ipsets>" = Ok l ∧
    GetIPSet (NewIPSetManager l) "KUBE-CLUSTER-IP" = Some ex_set.
Proof.
  apply (ipset_parse_print (ex_read (xml "ipsets" [] (xml_of_ipset <$> (map_to_list ex_sets).*2))) "<ipsets>" ex_sets "KUBE-CLUSTER-IP").
  - reflexivity.
  - unfold ex_sets. intros n s [<- <-]%lookup_singleton_Some. split; [done|]. unfold ex_set. cbn [s_Members].
    intros k v [<- <-]%lookup_singleton_Some. done.
Defined.

(** *** From the dump to the verdict *)







End SkoopXml.
