(* ===== verification/SkoopCluster.v ===== *)
(** src/pkg/skoop/k8s/ip_cache.go: the diagnosis command's view of a cluster,
    with the fields of pods, nodes and services that the command reads
    ([ContainsLoadBalancerIP] of utils/k8s.go too).

    The API server is three lists, each of which can fail; the cache is filled
    once and read by address.  The theorems say which object each address is
    found under, and what a failed attempt leaves behind. *)

From S2P Require Import Prelude GoStrings GoResult.

Module SkoopCluster.

(** ** Objects *)

Record Pod := MkPod {
  pod_Namespace : string; pod_Name : string; pod_Labels : gmap string string;
  pod_HostNetwork : bool; pod_Phase : string; pod_PodIPs : list string;
  pod_NodeName : string; pod_Containers : list (string * bool) (* name, ready *); pod_HostIP : string; pod_PodIP : string;
}.
Record Node := MkNode {
  node_Name : string; node_Addresses : list string;
  node_PodCIDR : string; node_Labels : gmap string string; node_Annotations : gmap string string; node_Conditions : list (string * string) (* type, status *);
}.

Inductive IntOrString := IntVal (i : Z) | StrVal (s : string).
Definition int_val (x : IntOrString) : Z := match x with IntVal i => i | StrVal _ => 0 end.
Record ServicePort := MkServicePort { sp_Protocol : string; sp_Port : Z; sp_TargetPort : IntOrString; sp_NodePort : Z }.
Record Service := MkService {
  svc_Namespace : string; svc_Name : string; svc_Type : string; svc_Ports : list ServicePort; svc_ClusterIP : string;
  svc_ClusterIPs : list string; svc_ExternalIPs : list string; svc_ExternalTrafficPolicy : string; svc_Ingress : list string;
  svc_LoadBalancerSourceRanges : list string;
}.

#[global] Instance Pod_eq_dec : EqDecision Pod.
Proof. solve_decision. Defined.

(** [utils.ContainsLoadBalancerIP] *)
Definition ContainsLoadBalancerIP (svc : Service) (ip : string) : bool :=
  existsb (String.eqb ip) (svc_ExternalIPs svc) || existsb (String.eqb ip) (svc_Ingress svc).

Inductive EndpointType := EndpointTypePod | EndpointTypeNode | EndpointTypeService | EndpointTypeLoadbalancer | EndpointTypeExternal.

#[global] Instance EndpointType_eq_dec : EqDecision EndpointType.
Proof. solve_decision. Defined.

(** ** The cache *)

(** [built] is the state of [cacheOnce]. *)
Record IPCache := MkIPCache {
  podCache : gmap string Pod; nodeCache : gmap string Node; serviceCache : gmap string Service; built : bool;
}.
Definition NewIPCache : IPCache := MkIPCache ∅ ∅ ∅ false.
Definition ClearCache (c : IPCache) : IPCache := MkIPCache ∅ ∅ ∅ false.

(** The answers of the API server to the three [List] calls of an attempt. *)
Record answers := MkAnswers { list_pods : option (list Pod); list_nodes : option (list Node); list_services : option (list Service) }.

(** [addPodIPCache] and its two siblings: the first object keeps an address. *)
Definition addIPCache {A : Type} (ipaddr : string) (a : A) (m : gmap string A) : gmap string A :=
  match m !! ipaddr with Some _ => m | None => <[ipaddr := a]> m end.
Definition add_all {A : Type} (addrs : A -> list string) (l : list A) (m : gmap string A) : gmap string A :=
  foldl (λ m a, foldl (λ m ip, addIPCache ip a m) m (addrs a)) m l.

Definition pod_addrs (pod : Pod) : list string :=
  if pod_HostNetwork pod || negb (String.eqb (pod_Phase pod) "Running") then [] else pod_PodIPs pod.
Definition node_addrs (node : Node) : list string := node_Addresses node.
Definition service_addrs (svc : Service) : list string :=
  List.filter (λ ip, negb (String.eqb ip "None")) (svc_ClusterIPs svc) ++ svc_ExternalIPs svc ++ svc_Ingress svc.

Definition buildPodCache (c : IPCache) (l : list Pod) : IPCache :=
  MkIPCache (add_all pod_addrs l (podCache c)) (nodeCache c) (serviceCache c) (built c).
Definition buildNodeCache (c : IPCache) (l : list Node) : IPCache :=
  MkIPCache (podCache c) (add_all node_addrs l (nodeCache c)) (serviceCache c) (built c).
Definition buildServiceCache (c : IPCache) (l : list Service) : IPCache :=
  MkIPCache (podCache c) (nodeCache c) (add_all service_addrs l (serviceCache c)) (built c).

(** The new cache, and whether there was no error.  An error leaves what the
    earlier lists gave and resets the [sync.Once]. *)
Definition BuildClusterIPCache (c : IPCache) (a : answers) : IPCache * bool :=
  if built c then (c, true)
  else match list_pods a with
  | None => (c, false)
  | Some pods =>
      let c := buildPodCache c pods in
      match list_nodes a with
      | None => (c, false)
      | Some nodes =>
          let c := buildNodeCache c nodes in
          match list_services a with
          | None => (c, false)
          | Some svcs =>
              let c := buildServiceCache c svcs in
              (MkIPCache (podCache c) (nodeCache c) (serviceCache c) true, true)
          end
      end
  end.

(** The readers: [None] is an error of the cache. *)
Definition reading {A : Type} (c : IPCache) (a : answers) (f : IPCache -> A) : IPCache * option A :=
  let '(c', ok) := BuildClusterIPCache c a in (c', if ok : bool then Some (f c') else None).
Definition GetPodFromIP (c : IPCache) (a : answers) (ip : string) : IPCache * option (option Pod) :=
  reading c a (λ c, podCache c !! ip).
Definition GetNodeFromIP (c : IPCache) (a : answers) (ip : string) : IPCache * option (option Node) :=
  reading c a (λ c, nodeCache c !! ip).
Definition GetServiceFromIP (c : IPCache) (a : answers) (ip : string) : IPCache * option (option Service) :=
  reading c a (λ c, serviceCache c !! ip).

(** A range over a map visits its values in some order. *)
Class MapOrder := {
  values : ∀ {A : Type}, gmap string A -> list A;
  values_elem : ∀ {A : Type} (m : gmap string A) (a : A), a ∈ values m <-> ∃ k, m !! k = Some a;
}.

Section names.
Context `{MapOrder}.
Definition GetPodFromName (c : IPCache) (a : answers) (namespace name : string) : IPCache * option (option Pod) :=
  reading c a (λ c, List.find (λ p, String.eqb (pod_Namespace p) namespace && String.eqb (pod_Name p) name) (values (podCache c))).
Definition GetNodeFromName (c : IPCache) (a : answers) (name : string) : IPCache * option (option Node) :=
  reading c a (λ c, List.find (λ n, String.eqb (node_Name n) name) (values (nodeCache c))).
Definition GetServiceFromNodePort (c : IPCache) (a : answers) (nodePort : Z) (protocol : string) : IPCache * option (option Service) :=
  reading c a (λ c, List.find (λ s, existsb (λ p, (u16 (sp_NodePort p) =? nodePort) && EqualFold (sp_Protocol p) protocol) (svc_Ports s)) (values (serviceCache c))).
End names.

Definition ip_type (c : IPCache) (ip : string) : EndpointType :=
  match podCache c !! ip with
  | Some _ => EndpointTypePod
  | None =>
      match nodeCache c !! ip with
      | Some _ => EndpointTypeNode
      | None =>
          match serviceCache c !! ip with
          | Some svc =>
              if String.eqb (svc_Type svc) "LoadBalancer" && ContainsLoadBalancerIP svc ip then EndpointTypeLoadbalancer
              else EndpointTypeService
          | None => EndpointTypeExternal
          end
      end
  end.
Definition GetIPType (c : IPCache) (a : answers) (ip : string) : IPCache * option EndpointType := reading c a (λ c, ip_type c ip).

(** ** Lemmas *)

Lemma add_addrs_lookup {A : Type} (a : A) (ips : list string) (m : gmap string A) (ip : string) :
  foldl (λ m ip, addIPCache ip a m) m ips !! ip =
  match m !! ip with Some x => Some x | None => if bool_decide (ip ∈ ips) then Some a else None end.
Proof.
  revert m. induction ips as [|i ips IH]; intros m; cbn [foldl].
  { rewrite bool_decide_eq_false_2 by apply not_elem_of_nil. by destruct (m !! ip). }
  rewrite IH. unfold addIPCache. destruct (m !! i) as [x|] eqn:Ei.
  - destruct (m !! ip) as [y|] eqn:E; [done|]. assert (ip ≠ i) by congruence.
    rewrite (bool_decide_ext (ip ∈ i :: ips) (ip ∈ ips)); [done|]. rewrite elem_of_cons. naive_solver.
  - destruct (decide (ip = i)) as [->|Hne].
    + rewrite lookup_insert_eq, Ei. rewrite bool_decide_eq_true_2; [done|]. apply elem_of_cons. by left.
    + rewrite lookup_insert_ne by done. destruct (m !! ip); [done|].
      rewrite (bool_decide_ext (ip ∈ i :: ips) (ip ∈ ips)); [done|]. rewrite elem_of_cons. naive_solver.
Qed.

(** An address is found under the first object that has it. *)
Lemma add_all_lookup {A : Type} (addrs : A -> list string) (l : list A) (m : gmap string A) (ip : string) :
  add_all addrs l m !! ip =
  match m !! ip with Some x => Some x | None => List.find (λ a, bool_decide (ip ∈ addrs a)) l end.
Proof.
  unfold add_all. revert m. induction l as [|a l IH]; intros m; cbn [foldl List.find]; [by destruct (m !! ip)|].
  rewrite IH, add_addrs_lookup. destruct (m !! ip); [done|]. by destruct (bool_decide (ip ∈ addrs a)).
Qed.

(** ** Properties *)

(** The first object of a list that has the address. *)
Definition first_with {A : Type} (addrs : A -> list string) (l : list A) (ip : string) : option A :=
  List.find (λ a, bool_decide (ip ∈ addrs a)) l.

(** What an address is.  On a fresh cache and lists that arrive, an
    address is a pod's if a running pod without host network has it, else a
    node's if a node has it, else a load balancer's or a service's by the
    first service that has it, else external; each reader returns the first
    object of its list that has the address; and later calls answer the same
    whatever the server says then. *)
Theorem ip_type_exact (pods : list Pod) (nodes : list Node) (svcs : list Service) (ip : string) (a' : answers) :
  let a := MkAnswers (Some pods) (Some nodes) (Some svcs) in
  let c := (BuildClusterIPCache NewIPCache a).1 in
  (GetPodFromIP NewIPCache a ip).2 = Some (first_with pod_addrs pods ip) ∧
  (GetNodeFromIP NewIPCache a ip).2 = Some (first_with node_addrs nodes ip) ∧
  (GetServiceFromIP NewIPCache a ip).2 = Some (first_with service_addrs svcs ip) ∧
  (GetIPType NewIPCache a ip).2 = Some
    match first_with pod_addrs pods ip, first_with node_addrs nodes ip, first_with service_addrs svcs ip with
    | Some _, _, _ => EndpointTypePod
    | None, Some _, _ => EndpointTypeNode
    | None, None, Some svc =>
        if String.eqb (svc_Type svc) "LoadBalancer" && ContainsLoadBalancerIP svc ip then EndpointTypeLoadbalancer else EndpointTypeService
    | None, None, None => EndpointTypeExternal
    end ∧
  GetIPType c a' ip = (c, (GetIPType NewIPCache a ip).2) ∧ GetPodFromIP c a' ip = (c, (GetPodFromIP NewIPCache a ip).2).
Proof.
  intros a c. unfold GetPodFromIP, GetNodeFromIP, GetServiceFromIP, GetIPType, reading, ip_type. subst c. cbn.
  rewrite !add_all_lookup, !lookup_empty. split_and!; [done..| |done|done]. unfold first_with.
  destruct (List.find _ pods); [done|]. destruct (List.find _ nodes); [done|]. by destruct (List.find _ svcs).
Qed.

(** Stale addresses.  If an attempt fails after the pods were listed,
    its pods stay in the cache: the next attempt, which succeeds with other
    pods, does not replace the pod that has an address, although that pod may
    be gone. *)
Theorem failed_attempt_stale (pods pods' : list Pod) (nodes : option (list Node)) (nodes' : list Node) (svcs' : list Service) (ip : string) (p : Pod)
    (Hp : first_with pod_addrs pods ip = Some p) :
  let '(c, ok) := BuildClusterIPCache NewIPCache (MkAnswers (Some pods) nodes None) in
  ok = false ∧ (GetPodFromIP c (MkAnswers (Some pods') (Some nodes') (Some svcs')) ip).2 = Some (Some p) ∧
  (GetIPType c (MkAnswers (Some pods') (Some nodes') (Some svcs')) ip).2 = Some EndpointTypePod.
Proof.
  unfold first_with in Hp. unfold BuildClusterIPCache at 1. cbn. destruct nodes as [nodes|]; cbn; (split; [done|]);
    unfold GetPodFromIP, GetIPType, reading, ip_type; cbn; rewrite !add_all_lookup, lookup_empty, Hp; done.
Qed.

Definition ex_pod (name ip : string) : Pod := MkPod "default" name {["app"%string := name]} false "Running" [ip] "n1" [] "192.168.0.1" ip.

Lemma failed_attempt_stale_witness :
  ∃ c, BuildClusterIPCache NewIPCache (MkAnswers (Some [ex_pod "old" "10.1.2.3"]) None None) = (c, false) ∧
    (GetPodFromIP c (MkAnswers (Some [ex_pod "new" "10.1.2.3"]) (Some []) (Some [])) "10.1.2.3").2 = Some (Some (ex_pod "old" "10.1.2.3")).
Proof.
  eexists. split; [reflexivity|].
  apply (failed_attempt_stale [ex_pod "old" "10.1.2.3"] [ex_pod "new" "10.1.2.3"] None [] [] "10.1.2.3" (ex_pod "old" "10.1.2.3") eq_refl).
Defined.
End SkoopCluster.
