(* ===== verification/SkoopService.v ===== *)
(** src/pkg/skoop/netstack/ipvs.go and src/pkg/skoop/service/service.go: the
    virtual services that IPVS has, read from the output of ipvsadm-save, and
    their comparison with the backends that kube-proxy should have set up.

    The flag package's parser is modelled for the nine flags the code
    declares.  The theorems say that reading undoes writing for the lines of
    IPv4 services, and what the comparison reports. *)

From Stdlib Require Import Ascii.
From S2P Require Import Prelude GoStrings GoNet GoResult SkoopRoute SkoopIptables SkoopCluster.
Import SkoopRoute SkoopIptables SkoopCluster.

Module SkoopService.

(** ** The flag package *)

(** The variables behind the flags. *)
Record flags := MkFlags {
  addService : bool; tcpService : string; udpService : string; scheduler : string; addServer : bool; realServer : string;
  masquerading : bool; weight : string; persistent : string;
}.
Definition no_flags : flags := MkFlags false "" "" "" false "" false "" "".

(** [strconv.ParseBool] *)
Definition ParseBool (s : string) : option bool :=
  if existsb (String.eqb s) ["1"; "t"; "T"; "TRUE"; "true"; "True"]%string then Some true
  else if existsb (String.eqb s) ["0"; "f"; "F"; "FALSE"; "false"; "False"]%string then Some false
  else None.

Inductive kind := BoolFlag (set : flags -> bool -> flags) | StringFlag (set : flags -> string -> flags).
Definition formal (name : string) : option kind :=
  if String.eqb name "A" then Some (BoolFlag (λ f v, MkFlags v (tcpService f) (udpService f) (scheduler f) (addServer f) (realServer f) (masquerading f) (weight f) (persistent f)))
  else if String.eqb name "t" then Some (StringFlag (λ f v, MkFlags (addService f) v (udpService f) (scheduler f) (addServer f) (realServer f) (masquerading f) (weight f) (persistent f)))
  else if String.eqb name "u" then Some (StringFlag (λ f v, MkFlags (addService f) (tcpService f) v (scheduler f) (addServer f) (realServer f) (masquerading f) (weight f) (persistent f)))
  else if String.eqb name "s" then Some (StringFlag (λ f v, MkFlags (addService f) (tcpService f) (udpService f) v (addServer f) (realServer f) (masquerading f) (weight f) (persistent f)))
  else if String.eqb name "a" then Some (BoolFlag (λ f v, MkFlags (addService f) (tcpService f) (udpService f) (scheduler f) v (realServer f) (masquerading f) (weight f) (persistent f)))
  else if String.eqb name "r" then Some (StringFlag (λ f v, MkFlags (addService f) (tcpService f) (udpService f) (scheduler f) (addServer f) v (masquerading f) (weight f) (persistent f)))
  else if String.eqb name "m" then Some (BoolFlag (λ f v, MkFlags (addService f) (tcpService f) (udpService f) (scheduler f) (addServer f) (realServer f) v (weight f) (persistent f)))
  else if String.eqb name "w" then Some (StringFlag (λ f v, MkFlags (addService f) (tcpService f) (udpService f) (scheduler f) (addServer f) (realServer f) (masquerading f) v (persistent f)))
  else if String.eqb name "p" then Some (StringFlag (λ f v, MkFlags (addService f) (tcpService f) (udpService f) (scheduler f) (addServer f) (realServer f) (masquerading f) (weight f) v))
  else None.

(** The name and, after the first "=" that is not its first character, the
    value. *)
Fixpoint cut_value (s : string) : string * option string :=
  match s with
  | EmptyString => (EmptyString, None)
  | String c s' => if Ascii.eqb c "=" then (EmptyString, Some s') else let '(n, v) := cut_value s' in (String c n, v)
  end.
Definition flag_name (name : string) : string * option string :=
  match name with EmptyString => (EmptyString, None) | String c s => let '(n, v) := cut_value s in (String c n, v) end.

(** [FlagSet.Parse]: [None] is an error; parsing ends at the first argument
    that is not a flag, and at "--". *)
Fixpoint Parse (f : flags) (args : list string) {struct args} : option flags :=
  match args with
  | [] => Some f
  | s :: args' =>
      match s with
      | String "-" (String c1 rest) =>
          let name := if Ascii.eqb c1 "-" then rest else String c1 rest in
          if Ascii.eqb c1 "-" && String.eqb rest EmptyString then Some f
          else match name with
          | EmptyString => None
          | String c _ =>
              if Ascii.eqb c "-" || Ascii.eqb c "=" then None
              else let '(n, v) := flag_name name in
                match formal n, v with
                | None, _ => None
                | Some (BoolFlag set), None => Parse (set f true) args'
                | Some (BoolFlag set), Some v => match ParseBool v with Some b => Parse (set f b) args' | None => None end
                | Some (StringFlag set), Some v => Parse (set f v) args'
                | Some (StringFlag set), None =>
                    match args' with
                    | [] => None
                    | v :: args'' => Parse (set f v) args''
                    end
                end
          end
      | _ => Some f
      end
  end.

(** ** IPVS *)

Record RealServer := MkRealServer { rs_Service : string; rs_IP : string; rs_Port : Z; rs_Masquerade : bool; rs_Weight : Z }.
Record IPVSService := MkIPVSService { vs_Protocol : string; vs_IP : string; vs_Port : Z; vs_Scheduler : string; vs_RS : list RealServer }.
Abbreviation IPVS := (gmap string IPVSService).

Definition service_key (proto ip : string) (port : Z) : string := (proto ++ ":" ++ ip ++ ":" ++ dec port)%string.
Definition vs_key (s : IPVSService) : string := service_key (vs_Protocol s) (vs_IP s) (vs_Port s).
Definition GetService (ipvs : IPVS) (proto ip : string) (port : Z) : option IPVSService :=
  ipvs !! service_key (ToLower proto) ip port.

Inductive ipvs_err := ErrFlags | ErrAction | ErrPort | ErrNoService.

(** The address "ip:port": a missing port is an index out of range. *)
Definition ip_port (s : string) : result ipvs_err (string * Z) :=
  let arr := Split ":"%char s in
  ip ← deref (arr !! 0%nat); port ← deref (arr !! 1%nat);
  match ok (Atoi port) with
  | None => Err ErrPort
  | Some p => Ok (ip, p)
  end.

Definition parseOneLine (ipvs : IPVS) (line : string) : result ipvs_err IPVS :=
  match Parse no_flags (Fields line) with
  | None => Err ErrFlags
  | Some f =>
      if negb (addServer f) && negb (addService f) then Err ErrAction
      else
        let '(protocol, service) := if negb (String.eqb (udpService f) EmptyString) then (UDP, udpService f) else (TCP, tcpService f) in
        ipp ← ip_port service;
        let '(serviceIP, servicePort) := ipp : string * Z in
        if addService f then
          let svc := MkIPVSService protocol serviceIP (u16 servicePort) (scheduler f) [] in
          Ok (<[vs_key svc := svc]> ipvs)
        else if addServer f then
          let weightInt := value (Atoi (weight f)) in
          srv ← ip_port (realServer f);
          let '(serverIP, serverPort) := srv : string * Z in
          let backend := MkRealServer EmptyString serverIP (u16 serverPort) (masquerading f) weightInt in
          let serviceName := (protocol ++ ":" ++ service)%string in
          match ipvs !! serviceName with
          | None => Err ErrNoService
          | Some svc => Ok (<[serviceName := MkIPVSService (vs_Protocol svc) (vs_IP svc) (vs_Port svc) (vs_Scheduler svc) (vs_RS svc ++ [backend])]> ipvs)
          end
        else Ok ipvs
  end.

Fixpoint parse_lines (ipvs : IPVS) (dump : list string) : result ipvs_err IPVS :=
  match dump with
  | [] => Ok ipvs
  | line :: dump' =>
      if String.eqb line EmptyString then parse_lines ipvs dump'
      else ipvs ← parseOneLine ipvs line; parse_lines ipvs dump'
  end.
Definition ParseIPVS : list string -> result ipvs_err IPVS := parse_lines ∅.

(** ** Services *)

Record Backend := MkBackend { b_IP : string; b_Port : Z; b_Masquerade : bool }.
Record KubeProxyServiceProcessor := MkProcessor { mode : string; clusterCIDR : option IPNet }.

Inductive validate_err := NotConfigured | InvalidServers (keys : list string) | MissingEndpoints (keys : gset string).

Definition backend_key (ip : string) (port : Z) : string := (ip ++ ":" ++ dec port)%string.
(** The loop over the real servers: the backends not seen yet, and the servers
    that are no backend. *)
Definition check_server (st : gset string * list string) (rs : RealServer) : gset string * list string :=
  let key := backend_key (rs_IP rs) (rs_Port rs) in
  (st.1 ∖ {[key]}, if bool_decide (key ∈ st.1) then st.2 else st.2 ++ [key]).
Definition Validate (k : KubeProxyServiceProcessor) (packet : Packet) (backends : list Backend) (ipvs : option IPVS) : option validate_err :=
  if negb (String.eqb (mode k) "ipvs") then None
  else match ipvs with
  | None => None
  | Some ipvs =>
      match GetService ipvs (Protocol packet) (IP_String (Dst packet)) (Dport packet) with
      | None => Some NotConfigured
      | Some svc =>
          let backendsSet : gset string := list_to_set ((λ b, backend_key (b_IP b) (b_Port b)) <$> backends) in
          let '(remaining, invalids) := foldl check_server (backendsSet, []) (vs_RS svc) in
          if (0 <? length invalids)%nat then Some (InvalidServers invalids)
          else if bool_decide (remaining = ∅) then None
          else Some (MissingEndpoints remaining)
      end
  end.

Definition GetTargetPort (svc : Service) (dport : Z) (protocol : string) : Z :=
  match List.find (λ port, (sp_Port port =? dport) && EqualFold (sp_Protocol port) protocol) (svc_Ports svc) with
  | Some port => u16 (int_val (sp_TargetPort port))
  | None => 0
  end.
Definition GetNodePort (svc : Service) (dport : Z) (protocol : string) : Z :=
  match List.find (λ port, (sp_Port port =? dport) && EqualFold (sp_Protocol port) protocol) (svc_Ports svc) with
  | Some port => u16 (sp_NodePort port)
  | None => 0
  end.
Definition serviceTargetPortByNodePort (svc : Service) (nodePort : Z) (protocol : string) : Z :=
  match List.find (λ port, EqualFold (sp_Protocol port) protocol && (sp_NodePort port =? nodePort)) (svc_Ports svc) with
  | Some port => u16 (int_val (sp_TargetPort port))
  | None => 0
  end.

Definition serviceLBIPs (svc : Service) : list string := if String.eqb (svc_Type svc) "LoadBalancer" then svc_Ingress svc else [].
Definition isTrafficLocalService (svc : Service) : bool := String.eqb (svc_ExternalTrafficPolicy svc) "Local".

Definition shouldMasquerade (k : KubeProxyServiceProcessor) (packet : Packet) (svc : Service) : bool * Z :=
  let targetPort := GetTargetPort svc (Dport packet) (Protocol packet) in
  let dst := IP_String (Dst packet) in
  if negb (targetPort =? 0) && existsb (String.eqb dst) (serviceLBIPs svc) then (negb (isTrafficLocalService svc), targetPort)
  else if negb (targetPort =? 0) && String.eqb dst (svc_ClusterIP svc) && bool_decide (is_Some (clusterCIDR k)) then
    (match clusterCIDR k with Some cidr => negb (Contains_IP cidr (Src packet)) | None => false end, targetPort)
  else
    let targetPortByNodePort := serviceTargetPortByNodePort svc (Dport packet) (Protocol packet) in
    if negb (targetPortByNodePort =? 0) then (negb (isTrafficLocalService svc), targetPortByNodePort)
    else if existsb (String.eqb dst) (svc_ExternalIPs svc) then (negb (isTrafficLocalService svc), targetPort)
    else (false, targetPort).

Definition isExternalTraffic (svc : Service) (node : option Node) (pkt : Packet) : bool :=
  if ContainsLoadBalancerIP svc (IP_String (Dst pkt)) then true
  else match node with
  | None => false
  | Some node =>
      if negb (existsb (λ a, String.eqb a (IP_String (Dst pkt))) (node_Addresses node)) then false
      else existsb (λ p, sp_NodePort p =? Dport pkt) (svc_Ports svc)
  end.

(** An address of an endpoint's subset, with the name of its node. *)
Record EndpointAddress := MkEndpointAddress { ea_IP : string; ea_NodeName : option string }.

(** The endpoints of the service as the API server gives them; [None] is an
    error. *)
Definition Process (k : KubeProxyServiceProcessor) (ep : option (list (list EndpointAddress))) (packet : Packet) (svc : Service) (node : option Node) : list Backend :=
  let '(masquerade, targetPort) := shouldMasquerade k packet svc in
  match ep with
  | None => []
  | Some subsets =>
      let localBackend := isExternalTraffic svc node packet && String.eqb (svc_ExternalTrafficPolicy svc) "Local" in
      let skipped (addr : EndpointAddress) : bool :=
        match node with Some node => localBackend && negb (String.eqb (default EmptyString (ea_NodeName addr)) (node_Name node)) | None => false end in
      (λ addr, MkBackend (ea_IP addr) targetPort masquerade) <$> List.filter (λ addr, negb (skipped addr)) (concat subsets)
  end.

(** ** Lemmas *)

Definition server_keys (rss : list RealServer) : list string := (λ rs, backend_key (rs_IP rs) (rs_Port rs)) <$> rss.
Definition backend_keys (bs : list Backend) : list string := (λ b, backend_key (b_IP b) (b_Port b)) <$> bs.

(** The keys that the loop reports: not among the backends, or seen before. *)
Fixpoint unmatched (s : gset string) (keys : list string) : list string :=
  match keys with
  | [] => []
  | k :: keys' => (if bool_decide (k ∈ s) then [] else [k]) ++ unmatched (s ∖ {[k]}) keys'
  end.

Lemma check_servers (rss : list RealServer) (s : gset string) (inv : list string) :
  foldl check_server (s, inv) rss = (s ∖ list_to_set (server_keys rss), inv ++ unmatched s (server_keys rss)).
Proof.
  revert s inv. induction rss as [|rs rss IH]; intros s inv; cbn [foldl].
  { unfold server_keys. cbn [fmap list_fmap list_to_set unmatched]. rewrite app_nil_r. f_equal. set_solver. }
  unfold check_server at 2. cbn [fst snd]. rewrite IH. unfold server_keys. rewrite !fmap_cons. cbn [list_to_set unmatched].
  f_equal; [set_solver|]. case_bool_decide; [done|]. by rewrite <- app_assoc.
Qed.

Lemma unmatched_nil (s : gset string) (keys : list string) : unmatched s keys = [] <-> NoDup keys ∧ ∀ k, k ∈ keys -> k ∈ s.
Proof.
  revert s. induction keys as [|k keys IH]; intros s; cbn [unmatched].
  { split; [|done]. intros _. split; [constructor|]. by intros k ?%elem_of_nil. }
  case_bool_decide as Hk; cbn [app].
  - rewrite IH, NoDup_cons. setoid_rewrite elem_of_cons. setoid_rewrite elem_of_difference. setoid_rewrite elem_of_singleton. naive_solver.
  - split; [done|]. intros [_ Hall]. destruct Hk. apply Hall, elem_of_cons. by left.
Qed.

Lemma unmatched_spec (s : gset string) (keys : list string) (k : string) :
  k ∈ unmatched s keys -> k ∈ keys ∧ (k ∉ s ∨ ¬ NoDup keys).
Proof.
  revert s. induction keys as [|k0 keys IH]; intros s; cbn [unmatched]; [by intros ?%elem_of_nil|]. rewrite elem_of_app, elem_of_cons, NoDup_cons.
  intros [Hk|Hk].
  - case_bool_decide as H0; [by apply elem_of_nil in Hk|]. apply list_elem_of_singleton in Hk as ->. naive_solver.
  - apply IH in Hk as [Hin [Hs|Hd]]; [|naive_solver]. split; [by right|].
    rewrite not_elem_of_difference, elem_of_singleton in Hs. destruct Hs as [Hs | ->]; naive_solver.
Qed.

Lemma unmatched_complete (s : gset string) (keys : list string) (k : string) : k ∈ keys -> k ∉ s -> k ∈ unmatched s keys.
Proof.
  revert s. induction keys as [|k0 keys IH]; intros s; [by intros ?%elem_of_nil|]. cbn [unmatched]. rewrite elem_of_app.
  intros [<- |Hk]%elem_of_cons Hs; [left; rewrite bool_decide_eq_false_2 by done; by apply list_elem_of_singleton|].
  right. apply IH; [done|set_solver].
Qed.

(** *** Lines of ipvsadm-save

    The lines for TCP and UDP services on IPv4 addresses, without the options
    that the reader ignores; not all of what ipvsadm-save can print. *)

Definition addr_text (ip : string) (port : Z) : string := (ip ++ String ":" (dec port))%string.
Definition proto_flag (s : IPVSService) : string := if String.eqb (vs_Protocol s) UDP then "-u" else "-t".
Definition service_line (s : IPVSService) : string :=
  unwords ["-A"; proto_flag s; addr_text (vs_IP s) (vs_Port s); "-s"; vs_Scheduler s]%string.
Definition server_line (s : IPVSService) (rs : RealServer) : string :=
  unwords ["-a"; proto_flag s; addr_text (vs_IP s) (vs_Port s); "-r"; addr_text (rs_IP rs) (rs_Port rs); if rs_Masquerade rs then "-m" else "-g";
           "-w"; dec (rs_Weight rs)]%string.
Definition dump_of (svcs : list IPVSService) : list string := svcs ≫= λ s, service_line s :: (server_line s <$> vs_RS s).

Definition addr_ok (ip : string) (port : Z) : Prop := word ip ∧ free_of (Ascii.eqb ":") ip ∧ fits 16 port.
(** A real server as kube-proxy sets it up: masqueraded. *)
Definition server_ok (rs : RealServer) : Prop :=
  addr_ok (rs_IP rs) (rs_Port rs) ∧ rs_Service rs = EmptyString ∧ rs_Masquerade rs = true ∧ 0 <= rs_Weight rs < 2 ^ 63.
Definition service_ok (s : IPVSService) : Prop :=
  (vs_Protocol s = TCP ∨ vs_Protocol s = UDP) ∧ addr_ok (vs_IP s) (vs_Port s) ∧ word (vs_Scheduler s) ∧ Forall server_ok (vs_RS s).

Lemma addr_word (ip : string) (port : Z) : addr_ok ip port -> word (addr_text ip port).
Proof.
  intros ([Hne Hw] & _ & Hp). unfold fits in Hp. split; [by destruct ip|]. unfold addr_text. apply free_of_app. split; [done|].
  unfold free_of. cbn [exists_char]. destruct (dec_word port ltac:(lia)) as [_ Hd]. by rewrite Hd.
Qed.

Lemma ip_port_text (ip : string) (port : Z) : addr_ok ip port -> ip_port (addr_text ip port) = Ok (ip, port).
Proof.
  intros (_ & Hc & Hp). unfold fits in Hp. unfold ip_port, addr_text, Split. rewrite split_at_cons by done.
  rewrite split_at_free by (by apply free_of_dec; [|lia]). cbn [lookup list_lookup deref mbind result_bind].
  rewrite Atoi_dec by lia. done.
Qed.

Lemma addr_text_ne (ip : string) (port : Z) : String.eqb (addr_text ip port) EmptyString = false.
Proof. by destruct ip. Qed.

Lemma addr_u16 (ip : string) (port : Z) : addr_ok ip port -> u16 port = port.
Proof. intros (_ & _ & Hp). unfold fits in Hp. apply Z.mod_small. lia. Qed.

Definition with_RS (s : IPVSService) (rss : list RealServer) : IPVSService :=
  MkIPVSService (vs_Protocol s) (vs_IP s) (vs_Port s) (vs_Scheduler s) rss.

Definition chosen_service (f : flags) : string * string :=
  if negb (String.eqb (udpService f) EmptyString) then (UDP, udpService f) else (TCP, tcpService f).

(** The flags of a line: the service goes with its protocol's. *)
Definition line_flags (s : IPVSService) (add srv : bool) (sched real : string) (masq : bool) (w : string) : flags :=
  let t := addr_text (vs_IP s) (vs_Port s) in
  if String.eqb (vs_Protocol s) UDP then MkFlags add EmptyString t sched srv real masq w EmptyString
  else MkFlags add t EmptyString sched srv real masq w EmptyString.

Lemma line_flags_service (s : IPVSService) (add srv : bool) (sched real : string) (masq : bool) (w : string) :
  service_ok s -> chosen_service (line_flags s add srv sched real masq w) = (vs_Protocol s, addr_text (vs_IP s) (vs_Port s)).
Proof. intros ([Hp|Hp] & _); unfold line_flags, chosen_service; rewrite Hp; simpl; [done|]. by rewrite addr_text_ne. Qed.

Lemma parse_service_line (ipvs : IPVS) (s : IPVSService) :
  service_ok s -> parseOneLine ipvs (service_line s) = Ok (<[vs_key s := with_RS s []]> ipvs).
Proof.
  intros Hok. pose proof Hok as (_ & Ha & Hs & _). unfold parseOneLine, service_line.
  rewrite Fields_unwords by (repeat apply Forall_cons_2; [| | | | |apply Forall_nil_2]; first [done|by apply addr_word|unfold proto_flag; by destruct (String.eqb _ _)]).
  replace (Parse _ _) with (Some (line_flags s true false (vs_Scheduler s) EmptyString false EmptyString))
    by (unfold proto_flag, line_flags; by destruct (String.eqb _ _)).
  pose proof (line_flags_service s true false (vs_Scheduler s) EmptyString false EmptyString Hok) as E. unfold chosen_service in E. rewrite E.
  rewrite ip_port_text by done. cbn [mbind result_bind]. rewrite (addr_u16 _ _ Ha).
  unfold line_flags. by destruct (String.eqb _ UDP).
Qed.

Lemma parse_server_line (ipvs : IPVS) (s : IPVSService) (rss : list RealServer) (rs : RealServer) :
  service_ok s -> server_ok rs -> ipvs !! vs_key s = Some (with_RS s rss) ->
  parseOneLine ipvs (server_line s rs) = Ok (<[vs_key s := with_RS s (rss ++ [rs])]> ipvs).
Proof.
  intros Hok (Hr & Hrs & Hm & Hw) Hl. pose proof Hok as (_ & Ha & _). unfold parseOneLine, server_line. rewrite Hm.
  rewrite Fields_unwords by (repeat apply Forall_cons_2; [| | | | | | | |apply Forall_nil_2];
    first [done|by apply addr_word|apply dec_word; lia|unfold proto_flag; by destruct (String.eqb _ _)]).
  replace (Parse _ _) with (Some (line_flags s false true EmptyString (addr_text (rs_IP rs) (rs_Port rs)) true (dec (rs_Weight rs))))
    by (unfold proto_flag, line_flags; by destruct (String.eqb _ _)).
  pose proof (line_flags_service s false true EmptyString (addr_text (rs_IP rs) (rs_Port rs)) true (dec (rs_Weight rs)) Hok) as E.
  unfold chosen_service in E. rewrite E. rewrite ip_port_text by done.
  assert (rs = MkRealServer EmptyString (rs_IP rs) (u16 (rs_Port rs)) true (value (Atoi (dec (rs_Weight rs))))) as Ers.
  { rewrite (addr_u16 _ _ Hr), Atoi_dec by done. destruct rs; simpl in *; congruence. }
  change (vs_key s) with (vs_Protocol s ++ ":" ++ addr_text (vs_IP s) (vs_Port s))%string in *.
  unfold line_flags. destruct (String.eqb _ UDP); cbn [addServer addService negb andb realServer weight masquerading mbind result_bind];
    rewrite ip_port_text by done; cbn [mbind result_bind]; rewrite Hl, <- Ers; done.
Qed.

Lemma parse_lines_app (ipvs : IPVS) (l1 l2 : list string) :
  parse_lines ipvs (l1 ++ l2) = (m ← parse_lines ipvs l1; parse_lines m l2).
Proof.
  revert ipvs. induction l1 as [|line l1 IH]; intros ipvs; [done|]. cbn [app parse_lines]. destruct (String.eqb line EmptyString); [by apply IH|].
  destruct (parseOneLine ipvs line); [by apply IH|done..].
Qed.

Lemma parse_server_lines (ipvs : IPVS) (s : IPVSService) (done_ rss : list RealServer) :
  service_ok s -> Forall server_ok rss -> ipvs !! vs_key s = Some (with_RS s done_) ->
  parse_lines ipvs (server_line s <$> rss) = Ok (<[vs_key s := with_RS s (done_ ++ rss)]> ipvs).
Proof.
  intros Hs Hrss. revert ipvs done_. induction Hrss as [|rs rss Hrs _ IH]; intros ipvs done_ Hl.
  { rewrite app_nil_r, insert_id by done. done. }
  rewrite fmap_cons. cbn [parse_lines]. rewrite (parse_server_line ipvs s done_ rs Hs Hrs Hl).
  replace (String.eqb (server_line s rs) EmptyString) with false by done. cbn [mbind result_bind].
  rewrite (IH _ (done_ ++ [rs])) by (by rewrite lookup_insert_eq). by rewrite insert_insert_eq, <- app_assoc.
Qed.

Lemma parse_dump (ipvs : IPVS) (svcs : list IPVSService) :
  Forall service_ok svcs -> parse_lines ipvs (dump_of svcs) = Ok (foldl (λ m s, <[vs_key s := s]> m) ipvs svcs).
Proof.
  intros Hs. revert ipvs. induction Hs as [|s svcs Hs _ IH]; intros ipvs; [done|]. unfold dump_of. rewrite bind_cons, parse_lines_app.
  assert (parse_lines ipvs (service_line s :: (server_line s <$> vs_RS s)) = Ok (<[vs_key s := s]> ipvs)) as ->; [|apply IH].
  cbn [parse_lines]. replace (String.eqb (service_line s) EmptyString) with false by done. rewrite parse_service_line by done.
  cbn [mbind result_bind]. pose proof Hs as (_ & _ & _ & Hrs).
  rewrite (parse_server_lines _ s []) by (try done; by rewrite lookup_insert_eq). rewrite insert_insert_eq. by destruct s.
Qed.

Lemma foldl_key_notin (svcs : list IPVSService) (m : IPVS) (k : string) :
  k ∉ vs_key <$> svcs -> foldl (λ m s, <[vs_key s := s]> m) m svcs !! k = m !! k.
Proof.
  revert m. induction svcs as [|s svcs IH]; intros m Hk; [done|]. rewrite fmap_cons, not_elem_of_cons in Hk. destruct Hk as [Hne Hk].
  cbn [foldl]. rewrite IH by done. by rewrite lookup_insert_ne.
Qed.

Lemma foldl_key_in (svcs : list IPVSService) (m : IPVS) (s : IPVSService) :
  NoDup (vs_key <$> svcs) -> s ∈ svcs -> foldl (λ m s, <[vs_key s := s]> m) m svcs !! vs_key s = Some s.
Proof.
  revert m. induction svcs as [|s0 svcs IH]; intros m Hd Hs; [by apply elem_of_nil in Hs|]. rewrite fmap_cons, NoDup_cons in Hd.
  destruct Hd as [Hn Hd]. cbn [foldl]. apply elem_of_cons in Hs as [-> |Hs]; [|by apply IH].
  rewrite foldl_key_notin by done. by rewrite lookup_insert_eq.
Qed.

(** ** Properties *)

(** Reading lines of ipvsadm-save.  For services of TCP and UDP with
    masqueraded real servers and distinct addresses, all without a colon (so
    not IPv6), the lines of [dump_of] are read without an error, and each
    service is found under its protocol, address and port with its scheduler
    and its real servers in order. *)
Theorem ipvs_parse_print (svcs : list IPVSService) (Hok : Forall service_ok svcs) (Hkeys : NoDup (vs_key <$> svcs)) :
  ∃ ipvs, ParseIPVS (dump_of svcs) = Ok ipvs ∧
    (∀ s, s ∈ svcs -> GetService ipvs (vs_Protocol s) (vs_IP s) (vs_Port s) = Some s) ∧
    (∀ k, k ∉ vs_key <$> svcs -> ipvs !! k = None).
Proof.
  exists (foldl (λ m s, <[vs_key s := s]> m) ∅ svcs). split_and!; [by apply parse_dump| |].
  - intros s Hs. unfold GetService. replace (ToLower (vs_Protocol s)) with (vs_Protocol s); [by apply foldl_key_in|].
    rewrite Forall_forall in Hok. destruct (Hok s Hs) as ([-> | ->] & _); done.
  - intros k Hk. by rewrite foldl_key_notin.
Qed.

Definition ex_vs : IPVSService :=
  MkIPVSService "tcp" "10.96.0.10" 53 "rr" [MkRealServer "" "10.1.2.3" 5353 true 1; MkRealServer "" "10.1.2.4" 5353 true 1].
Definition ex_vs2 : IPVSService := MkIPVSService "udp" "10.96.0.10" 53 "rr" [].

Lemma ex_vs_ok : Forall service_ok [ex_vs; ex_vs2].
Proof.
  assert (∀ w, w ≠ EmptyString -> exists_char is_space w = false -> word w) as Hw by done.
  repeat (apply Forall_cons_2 || apply Forall_nil_2); (split; [unfold TCP, UDP; auto|]); (split; [split_and!; done|]); (split; [done|]);
    repeat (apply Forall_cons_2 || apply Forall_nil_2); split_and!; done.
Qed.

Lemma ipvs_parse_print_witness :
  ∃ ipvs, ParseIPVS ["-A -t 10.96.0.10:53 -s rr"; "-a -t 10.96.0.10:53 -r 10.1.2.3:5353 -m -w 1";
                     "-a -t 10.96.0.10:53 -r 10.1.2.4:5353 -m -w 1"; "-A -u 10.96.0.10:53 -s rr"]%string = Ok ipvs ∧
    GetService ipvs "tcp" "10.96.0.10" 53 = Some ex_vs.
Proof.
  destruct (ipvs_parse_print [ex_vs; ex_vs2] ex_vs_ok) as (ipvs & E & Hget & _).
  { apply (bool_decide_eq_true_1 _). vm_compute. reflexivity. }
  exists ipvs. split; [exact E|]. apply (Hget ex_vs). apply elem_of_cons. by left.
Defined.

(** A real server with another forwarding method stops the whole parse, and a
    line without a service panics. *)
Example ipvs_line_errors :
  ParseIPVS ["-A -t 10.96.0.10:53 -s rr"; "-a -t 10.96.0.10:53 -r 10.1.2.3:5353 -g -w 1"]%string = Err ErrFlags ∧
  ParseIPVS ["-A -f 1 -s rr"]%string = Err ErrFlags ∧ ParseIPVS ["-A -s rr"]%string = Panic ∧
  ParseIPVS ["-a -t 10.96.0.10:53 -r 10.1.2.3:5353 -m -w 1"]%string = Err ErrNoService.
Proof. split_and!; vm_compute; reflexivity. Qed.

(** An address is cut at its first colon, so the line of an IPv6 service is an
    error, and with it the whole dump. *)
Lemma ipv6_refused (ipvs : IPVS) : parseOneLine ipvs "-A -t [fd00::1]:443 -s rr" = Err ErrPort.
Proof. vm_compute. reflexivity. Qed.

(** A service in sync.  If the packet is for one of the services in
    ipvsadm's output, and that service's real servers are the backends that
    [Process] computes from the cluster's endpoints, the comparison finds
    nothing. *)
Theorem synced_service_validates (k : KubeProxyServiceProcessor) (ep : option (list (list EndpointAddress))) (packet : Packet) (svc : Service) (node : option Node)
    (svcs : list IPVSService) (s : IPVSService) (w : Z)
    (Hok : Forall service_ok svcs) (Hkeys : NoDup (vs_key <$> svcs)) (Hs : s ∈ svcs)
    (Hpkt : Protocol packet = vs_Protocol s ∧ IP_String (Dst packet) = vs_IP s ∧ Dport packet = vs_Port s)
    (Hrs : vs_RS s = (λ b, MkRealServer EmptyString (b_IP b) (b_Port b) true w) <$> Process k ep packet svc node)
    (Hdistinct : NoDup (backend_keys (Process k ep packet svc node))) :
  ∃ ipvs, ParseIPVS (dump_of svcs) = Ok ipvs ∧ Validate k packet (Process k ep packet svc node) (Some ipvs) = None.
Proof.
  exists (foldl (λ m s, <[vs_key s := s]> m) ∅ svcs). split; [by apply parse_dump|]. unfold Validate.
  destruct (String.eqb (mode k) "ipvs"); [|done]. cbn [negb]. destruct Hpkt as (-> & -> & ->). unfold GetService.
  replace (ToLower (vs_Protocol s)) with (vs_Protocol s)
    by (rewrite Forall_forall in Hok; destruct (Hok s Hs) as ([-> | ->] & _); done).
  change (service_key (vs_Protocol s) (vs_IP s) (vs_Port s)) with (vs_key s). rewrite foldl_key_in by done.
  rewrite check_servers. set (bs := Process k ep packet svc node) in *.
  assert (server_keys (vs_RS s) = backend_keys bs) as ->.
  { unfold server_keys, backend_keys. by rewrite Hrs, <- list_fmap_compose. }
  change ((λ b, backend_key (b_IP b) (b_Port b)) <$> bs) with (backend_keys bs).
  assert (unmatched (list_to_set (backend_keys bs)) (backend_keys bs) = []) as ->.
  { apply unmatched_nil. split; [done|]. intros key. by rewrite elem_of_list_to_set. }
  simpl. by rewrite bool_decide_eq_true_2 by set_solver.
Qed.

Definition ex_proc : KubeProxyServiceProcessor := MkProcessor "ipvs" None.
Definition ex_dns : Packet := MkPacket [10; 1; 9; 9] 4000 [10; 96; 0; 10] 53 "tcp" None 0.
Definition ex_svc : Service :=
  MkService "kube-system" "kube-dns" "ClusterIP" [MkServicePort "TCP" 53 (IntVal 5353) 0] "10.96.0.10" ["10.96.0.10"%string] [] "" [] [].
Definition ex_ep : option (list (list EndpointAddress)) := Some [[MkEndpointAddress "10.1.2.3" None; MkEndpointAddress "10.1.2.4" None]].

Lemma synced_service_validates_witness :
  ∃ ipvs, ParseIPVS (dump_of [ex_vs; ex_vs2]) = Ok ipvs ∧ Validate ex_proc ex_dns (Process ex_proc ex_ep ex_dns ex_svc None) (Some ipvs) = None.
Proof.
  apply (synced_service_validates ex_proc ex_ep ex_dns ex_svc None [ex_vs; ex_vs2] ex_vs 1 ex_vs_ok).
  - apply (bool_decide_eq_true_1 _). vm_compute. reflexivity.
  - apply elem_of_cons. by left.
  - split_and!; vm_compute; reflexivity.
  - vm_compute. reflexivity.
  - apply (bool_decide_eq_true_1 _). vm_compute. reflexivity.
Defined.

(** C30: The comparison.  In IPVS mode and for a service that IPVS has, the
    comparison, by the texts "address:port", succeeds exactly if the real
    servers are the expected backends, each listed once.  Otherwise it reports
    either real servers, all that are no expected backend and others only if
    the list has a repetition, or the set of exactly the backends without a
    real server. *)
Theorem validate_exact (k : KubeProxyServiceProcessor) (packet : Packet) (backends : list Backend) (ipvs : IPVS) (svc : IPVSService)
    (Hmode : mode k = "ipvs"%string)
    (Hsvc : GetService ipvs (Protocol packet) (IP_String (Dst packet)) (Dport packet) = Some svc) :
  let servers := server_keys (vs_RS svc) in
  (Validate k packet backends (Some ipvs) = None <-> NoDup servers ∧ ∀ key, key ∈ servers <-> key ∈ backend_keys backends) ∧
  (∀ keys, Validate k packet backends (Some ipvs) = Some (InvalidServers keys) ->
     keys ≠ [] ∧ (∀ key, key ∈ keys -> key ∈ servers ∧ (key ∉ backend_keys backends ∨ ¬ NoDup servers)) ∧
     ∀ key, key ∈ servers -> key ∉ backend_keys backends -> key ∈ keys) ∧
  (∀ keys, Validate k packet backends (Some ipvs) = Some (MissingEndpoints keys) ->
     keys ≠ ∅ ∧ ∀ key, key ∈ keys <-> key ∈ backend_keys backends ∧ key ∉ servers) ∧
  Validate k packet backends (Some ipvs) ≠ Some NotConfigured.
Proof.
  intros servers. unfold Validate. rewrite Hmode, Hsvc. change (negb ("ipvs" =? "ipvs")%string) with false. cbv iota.
  rewrite check_servers. cbn [app].
  change ((λ b, backend_key (b_IP b) (b_Port b)) <$> backends) with (backend_keys backends). fold servers.
  destruct (Nat.ltb_spec 0 (length (unmatched (list_to_set (backend_keys backends)) servers))) as [Hlt|Hge].
  - assert (unmatched (list_to_set (backend_keys backends)) servers ≠ []) as Hne by (intros E; rewrite E in Hlt; simpl in Hlt; lia).
    split_and!; [|intros keys [= <-]|done|done].
    + split; [done|]. intros [Hd Hall]. destruct Hne. apply unmatched_nil. split; [done|]. intros key Hkey.
      by apply elem_of_list_to_set, Hall.
    + split_and!; [done| |].
      * intros key Hkey. apply unmatched_spec in Hkey. by rewrite elem_of_list_to_set in Hkey.
      * intros key Hkey Hno. apply unmatched_complete; [done|]. by rewrite elem_of_list_to_set.
  - assert (unmatched (list_to_set (backend_keys backends)) servers = []) as E by (apply length_zero_iff_nil; lia).
    apply unmatched_nil in E as [Hd Hall]. setoid_rewrite elem_of_list_to_set in Hall. case_bool_decide as He.
    + split_and!; [|done|done|done]. split; [|done]. intros _. split; [done|]. intros key. split; [apply Hall|]. intros Hkey.
      destruct (decide (key ∈ servers)) as [|Hn]; [done|]. exfalso. apply (not_elem_of_empty (C := gset string) key).
      rewrite <- He, elem_of_difference, !elem_of_list_to_set. done.
    + split_and!; [|done|intros keys [= <-]|done].
      * split; [done|]. intros [_ Heq]. destruct He. apply set_eq. intros key. rewrite elem_of_difference, !elem_of_list_to_set. set_solver.
      * split; [done|]. intros key. by rewrite elem_of_difference, !elem_of_list_to_set.
Qed.


Lemma validate_exact_witness :
  Validate ex_proc ex_dns [MkBackend "10.1.2.4" 5353 false; MkBackend "10.1.2.3" 5353 false] (Some {["tcp:10.96.0.10:53"%string := ex_vs]}) = None.
Proof.
  apply (validate_exact ex_proc ex_dns [MkBackend "10.1.2.4" 5353 false; MkBackend "10.1.2.3" 5353 false] {["tcp:10.96.0.10:53"%string := ex_vs]} ex_vs);
    [reflexivity|vm_compute; reflexivity|].
  split; [apply (bool_decide_eq_true_1 _); vm_compute; reflexivity|]. intros key.
  change (server_keys (vs_RS ex_vs)) with ["10.1.2.3:5353"; "10.1.2.4:5353"]%string.
  change (backend_keys [MkBackend "10.1.2.4" 5353 false; MkBackend "10.1.2.3" 5353 false]) with ["10.1.2.4:5353"; "10.1.2.3:5353"]%string.
  rewrite !elem_of_cons. tauto.
Defined.
End SkoopService.
