(* ===== verification/SkoopPolicy.v ===== *)
(** src/pkg/skoop/plugin/networkpolicy.go: which network policies the diagnosis
    command reports as denying a packet.

    Label selectors and the lookup of namespaces belong to the Kubernetes
    client and are parameters.  The theorems compare the verdicts with what
    Kubernetes documents for network policies: where they agree, and where
    they do not. *)

From S2P Require Import Prelude GoStrings GoNet GoResult SkoopRoute SkoopIptables SkoopCluster SkoopService.
Import SkoopRoute SkoopIptables SkoopCluster SkoopService.

Module SkoopPolicy.

(** ** Policies *)

(** [metav1.LabelSelector] with the selector made from it. *)
Class Selectors := {
  LabelSelector : Type;
  Selector : Type;
  LabelSelectorAsSelector : LabelSelector -> option Selector;
  selector_Empty : Selector -> bool;
  selector_Matches : Selector -> gmap string string -> bool;
  (** The empty selector matches every set of labels. *)
  selector_Empty_Matches : ∀ s labels, selector_Empty s = true -> selector_Matches s labels = true;
}.

Section policies.
Context `{Selectors}.

Record NetworkPolicyPort := MkPort { np_Protocol : option string; np_Port : option IntOrString; np_EndPort : option Z }.
Record IPBlock := MkIPBlock { CIDR : string; Except : list string }.
Record Peer := MkPeer { PodSelector : option LabelSelector; NamespaceSelector : option LabelSelector; peer_IPBlock : option IPBlock }.
(** An egress or ingress rule, with its [To] or [From]. *)
Record PolicyRule := MkPolicyRule { Ports : list NetworkPolicyPort; Peers : list Peer }.
Record NetworkPolicy := MkNetworkPolicy {
  pol_Namespace : string; pol_Name : string; pol_PodSelector : LabelSelector; PolicyTypes : list string;
  Ingress : list PolicyRule; Egress : list PolicyRule;
}.

Record Endpoint := MkEndpoint { ep_IP : string; ep_Type : EndpointType; ep_Port : Z }.

Inductive policy_err := ErrSelector | ErrCIDR | ErrNamespace | ErrCache | ErrLoop | ErrFuel.

(** The handler, with the answers of the cluster it is used with: the labels of
    a namespace, the pod and the service of an address, the type of an
    address, the endpoints of a service. *)
Record networkPolicy := MkHandler {
  serviceAddrSkipCidrRule : bool;
  inClusterAddrEmitCidrRule : bool;
  policies : list NetworkPolicy;
  getNamespace : string -> option (gmap string string);
  ipCache : IPCache;
  cluster : answers;
  processor : KubeProxyServiceProcessor;
  endpoints : Service -> option (list (list EndpointAddress));
}.

Definition pod_from_ip (np : networkPolicy) (ip : string) : result policy_err (option Pod) :=
  match (GetPodFromIP (ipCache np) (cluster np) ip).2 with Some p => Ok p | None => Err ErrCache end.

Definition toV1Protocol (p : string) : string :=
  if String.eqb p TCP then "TCP" else if String.eqb p UDP then "UDP" else "TCP".

Definition port_matches (port : Z) (protocol : string) (p : NetworkPolicyPort) : bool :=
  match np_Port p with
  | None => false
  | Some pp =>
      let policyProtocol := default "TCP"%string (np_Protocol p) in
      if negb (String.eqb policyProtocol (toV1Protocol protocol)) then false
      else
        let from := int_val pp in
        if from <=? 0 then false
        else let to := default from (np_EndPort p) in
          (u16 from <=? port) && (port <=? u16 to)
  end.
Definition containsPortWithProtocol (port : Z) (protocol : string) (ports : list NetworkPolicyPort) : bool :=
  match ports with [] => true | _ => existsb (port_matches port protocol) ports end.

Definition strCidrContainsIP (cidr ip : string) : result policy_err bool :=
  match ParseCIDR cidr with
  | None => Err ErrCIDR
  | Some subnet => Ok (Contains_IP subnet (default [] (ParseIP ip)))
  end.

Definition hasPolicyType (policy : NetworkPolicy) (pt : string) : bool := existsb (String.eqb pt) (PolicyTypes policy).

Definition selector_of (s : LabelSelector) : result policy_err Selector :=
  match LabelSelectorAsSelector s with Some x => Ok x | None => Err ErrSelector end.

(** The receiver is a nil pointer if there is no pod. *)
Definition policyMatchPod (policy : NetworkPolicy) (pod : option Pod) : result policy_err bool :=
  pod ← deref pod;
  if negb (String.eqb (pol_Namespace policy) (pod_Namespace pod)) then Ok false
  else
    selector ← selector_of (pol_PodSelector policy);
    Ok (selector_Empty selector || selector_Matches selector (pod_Labels pod)).

(** The loop over [Except]. *)
Fixpoint excepted (excepts : list string) (ip : string) : result policy_err bool :=
  match excepts with
  | [] => Ok false
  | e :: es => b ← strCidrContainsIP e ip; if b : bool then Ok true else excepted es ip
  end.
Definition block_allows (np : networkPolicy) (pod : option Pod) (block : IPBlock) (ip : string) : result policy_err bool :=
  if bool_decide (is_Some pod) && inClusterAddrEmitCidrRule np then Ok false
  else
    contains ← strCidrContainsIP (CIDR block) ip;
    if contains : bool then b ← excepted (Except block) ip; Ok (negb b) else Ok false.

(** The part of a peer that is about the pod: allowed, go on with the block, or
    go on with the next peer ([continue]).  [key] is the name under which the
    namespace is looked up: the pod's namespace for egress, and the pod's name
    for ingress. *)
Inductive step := Allow | Block | Next.
Definition pod_allows (np : networkPolicy) (policy : NetworkPolicy) (key : Pod -> string) (pod : option Pod) (peer : Peer) : result policy_err step :=
  match pod with
  | None => Ok Block
  | Some pod =>
      match PodSelector peer, NamespaceSelector peer with
      | Some s, _ =>
          if negb (String.eqb (pod_Namespace pod) (pol_Namespace policy)) then Ok Next
          else
            selector ← selector_of s;
            Ok (if selector_Empty selector || selector_Matches selector (pod_Labels pod) then Allow else Block)
      | None, Some s =>
          selector ← selector_of s;
          if selector_Empty selector then Ok Allow
          else match getNamespace np (key pod) with
               | None => Err ErrNamespace
               | Some labels => Ok (if selector_Matches selector labels then Allow else Block)
               end
      | None, None => Ok Block
      end
  end.
Definition peer_allows (np : networkPolicy) (policy : NetworkPolicy) (key : Pod -> string) (pod : option Pod) (ip : string) (peer : Peer) : result policy_err bool :=
  st ← pod_allows np policy key pod peer;
  match st, peer_IPBlock peer with
  | Allow, _ => Ok true
  | Next, _ => Ok false
  | Block, None => Ok false
  | Block, Some block => block_allows np pod block ip
  end.

(** A loop that returns at the first element that allows. *)
Fixpoint first_allow {A : Type} (f : A -> result policy_err bool) (l : list A) : result policy_err bool :=
  match l with
  | [] => Ok false
  | a :: l' => b ← f a; if b : bool then Ok true else first_allow f l'
  end.

Definition rules_verdict (np : networkPolicy) (policy : NetworkPolicy) (rules : list PolicyRule) (key : Pod -> string) (pod : option Pod) (e : Endpoint) (protocol : string) : result policy_err bool :=
  allowed ← first_allow (λ r, if containsPortWithProtocol (ep_Port e) protocol (Ports r)
                               then first_allow (peer_allows np policy key pod (ep_IP e)) (Peers r) else Ok false) rules;
  Ok (negb allowed).
Definition checkEgressPolicyVerdict (np : networkPolicy) (policy : NetworkPolicy) (dstPod : option Pod) (dst : Endpoint) (protocol : string) : result policy_err bool :=
  if negb (hasPolicyType policy "Egress") then Ok false
  else rules_verdict np policy (Egress policy) pod_Namespace dstPod dst protocol.
Definition checkIngressPolicyVerdict (np : networkPolicy) (policy : NetworkPolicy) (srcPod : option Pod) (src : Endpoint) (protocol : string) : result policy_err bool :=
  if negb (hasPolicyType policy "Ingress") then Ok false
  else rules_verdict np policy (Ingress policy) pod_Name srcPod src protocol.

(** The loops of [checkEgress] and [checkIngress]: [pod] is the pod whose
    policies are checked, [e] the other end. *)
Fixpoint check_policies (np : networkPolicy) (verdict : NetworkPolicy -> option Pod -> result policy_err bool) (pod : option Pod) (e : Endpoint) (ps : list NetworkPolicy) : result policy_err (list NetworkPolicy) :=
  match ps with
  | [] => Ok []
  | policy :: ps' =>
      m ← policyMatchPod policy pod;
      if m : bool then
        other ← pod_from_ip np (ep_IP e);
        deny ← verdict policy other;
        denies ← check_policies np verdict pod e ps';
        Ok (if deny : bool then policy :: denies else denies)
      else check_policies np verdict pod e ps'
  end.
Definition checkEgress (np : networkPolicy) (pod : option Pod) (dst : Endpoint) (protocol : string) : result policy_err (list NetworkPolicy) :=
  check_policies np (λ policy other, checkEgressPolicyVerdict np policy other dst protocol) pod dst (policies np).
Definition checkIngress (np : networkPolicy) (pod : option Pod) (src : Endpoint) (protocol : string) : result policy_err (list NetworkPolicy) :=
  check_policies np (λ policy other, checkIngressPolicyVerdict np policy other src protocol) pod src (policies np).

(** A suspicion: the policy that denies, and the packet's ends. *)
Record suspicion := MkSuspicion { su_policy : string * string; su_src : string; su_protocol : string; su_dst : string; su_port : Z }.
Definition deny_suspicions (src dst : Endpoint) (protocol : string) (denies : list NetworkPolicy) : list suspicion :=
  (λ p, MkSuspicion (pol_Namespace p, pol_Name p) (ep_IP src) protocol (ep_IP dst) (ep_Port dst)) <$> denies.

Definition is_service (t : EndpointType) : bool :=
  match t with EndpointTypeService | EndpointTypeLoadbalancer => true | _ => false end.

(** The part of [CheckNetworkPolicy] on the two ends. *)
Definition check_ends (np : networkPolicy) (src dst : Endpoint) (protocol : string) : result policy_err (list NetworkPolicy) :=
  egress ← (if bool_decide (ep_Type src = EndpointTypePod) then
              pod ← pod_from_ip np (ep_IP src);
              if negb (is_service (ep_Type dst)) || negb (serviceAddrSkipCidrRule np) then checkEgress np pod dst protocol else Ok []
            else Ok []);
  ingress ← (if bool_decide (ep_Type dst = EndpointTypePod) then
               pod ← pod_from_ip np (ep_IP dst); checkIngress np pod src protocol
             else Ok []);
  Ok (egress ++ ingress).

(** The loop over the backends, with what it does for each. *)
Fixpoint over_backends (f : Endpoint -> result policy_err (list suspicion)) (np : networkPolicy) (dst : Endpoint) (bs : list Backend) : result policy_err (list suspicion) :=
  match bs with
  | [] => Ok []
  | b :: bs' =>
      if String.eqb (b_IP b) (ep_IP dst) then Err ErrLoop
      else
        ty ← match (GetIPType (ipCache np) (cluster np) (b_IP b)).2 with Some t => Ok t | None => Err ErrCache end;
        sub ← f (MkEndpoint (b_IP b) ty (b_Port b));
        subs ← over_backends f np dst bs';
        Ok (sub ++ subs)
  end.
Definition service_packet (src dst : Endpoint) (protocol : string) : Packet :=
  MkPacket (default [] (ParseIP (ep_IP src))) (ep_Port src) (default [] (ParseIP (ep_IP dst))) (ep_Port dst) protocol None 0.
Definition backends_of (np : networkPolicy) (src dst : Endpoint) (protocol : string) (svc : Service) : list Backend :=
  Process (processor np) (endpoints np svc) (service_packet src dst protocol) svc None.

(** The recursion into the backends of a service; the fuel bounds how many
    services follow each other. *)
Fixpoint CheckNetworkPolicy (fuel : nat) (np : networkPolicy) (src dst : Endpoint) (protocol : string) : result policy_err (list suspicion) :=
  match fuel with
  | O => Err ErrFuel
  | S fuel' =>
      denies ← check_ends np src dst protocol;
      ret ← (if is_service (ep_Type dst) then
               svc ← match (GetServiceFromIP (ipCache np) (cluster np) (ep_IP dst)).2 with Some s => Ok s | None => Err ErrCache end;
               svc ← deref svc;
               over_backends (λ e, CheckNetworkPolicy fuel' np src e protocol) np dst (backends_of np src dst protocol svc)
             else Ok []);
      Ok (ret ++ deny_suspicions src dst protocol denies)
  end.

(** ** What Kubernetes documents

    A pod is isolated for egress by the policies of its namespace that select
    it and have the type Egress; its packet passes if no policy isolates it,
    or if a rule of one that does allows the port and the peer.  No ports
    means every port, no peers every peer; a port without a number means
    every port of the protocol; a peer with both selectors selects pods in
    the namespaces selected. *)

Definition sel (s : LabelSelector) (labels : gmap string string) : bool :=
  match LabelSelectorAsSelector s with Some x => selector_Matches x labels | None => false end.

Definition k8s_port (port : Z) (protocol : string) (p : NetworkPolicyPort) : bool :=
  String.eqb (default "TCP"%string (np_Protocol p)) protocol &&
  match np_Port p with
  | None => true
  | Some (IntVal from) => (from <=? port) && (port <=? default from (np_EndPort p))
  | Some (StrVal _) => false
  end.
Definition in_cidr (cidr ip : string) : bool :=
  match ParseCIDR cidr with Some n => Contains_IP n (default [] (ParseIP ip)) | None => false end.
Definition k8s_peer (ns_labels : string -> gmap string string) (policy : NetworkPolicy) (pod : option Pod) (ip : string) (peer : Peer) : bool :=
  match peer_IPBlock peer with
  | Some block => in_cidr (CIDR block) ip && negb (existsb (λ e, in_cidr e ip) (Except block))
  | None =>
      match pod with
      | None => false
      | Some pod =>
          match NamespaceSelector peer with
          | Some s => sel s (ns_labels (pod_Namespace pod))
          | None => String.eqb (pod_Namespace pod) (pol_Namespace policy) && bool_decide (is_Some (PodSelector peer))
          end &&
          match PodSelector peer with Some s => sel s (pod_Labels pod) | None => true end
      end
  end.
Definition unrestricted_or {A : Type} (f : A -> bool) (l : list A) : bool := match l with [] => true | _ => existsb f l end.
Definition k8s_rule (ns_labels : string -> gmap string string) (policy : NetworkPolicy) (pod : option Pod) (ip : string) (port : Z) (protocol : string) (r : PolicyRule) : bool :=
  unrestricted_or (k8s_port port protocol) (Ports r) && unrestricted_or (k8s_peer ns_labels policy pod ip) (Peers r).

(** The policies that isolate a pod. *)
Definition isolates (type : string) (pod : Pod) (policy : NetworkPolicy) : bool :=
  String.eqb (pol_Namespace policy) (pod_Namespace pod) && sel (pol_PodSelector policy) (pod_Labels pod) && hasPolicyType policy type.
Definition k8s_allowed (type : string) (ps : list NetworkPolicy) (pod : Pod) (allows : NetworkPolicy -> bool) : bool :=
  forallb (λ p, negb (isolates type pod p)) ps || existsb (λ p, isolates type pod p && allows p) ps.

(** ** Lemmas *)

Lemma first_allow_ok {A : Type} (f : A -> result policy_err bool) (g : A -> bool) (l : list A) :
  Forall (λ a, f a = Ok (g a)) l -> first_allow f l = Ok (existsb g l).
Proof.
  induction 1 as [|a l Ha _ IH]; [done|]. cbn [first_allow existsb]. rewrite Ha. cbn [mbind result_bind]. by destruct (g a).
Qed.

Lemma sel_of (s : LabelSelector) (labels : gmap string string) :
  is_Some (LabelSelectorAsSelector s) ->
  ∃ x, selector_of s = Ok x ∧ LabelSelectorAsSelector s = Some x ∧ selector_Empty x || selector_Matches x labels = sel s labels.
Proof.
  intros [x E]. exists x. unfold selector_of, sel. rewrite E. split_and!; [done..|].
  destruct (selector_Empty x) eqn:Ee; [|done]. symmetry. by apply selector_Empty_Matches.
Qed.

(** Policies on which the code and Kubernetes agree, for egress: every rule has
    peers, every port a number, a peer one of the three kinds, and all text is
    well-formed. *)
Definition plain_port (p : NetworkPolicyPort) : Prop :=
  ∃ from, np_Port p = Some (IntVal from) ∧ 0 < from < 2 ^ 16 ∧ match np_EndPort p with Some to => fits 16 to | None => True end.
Definition plain_peer (peer : Peer) : Prop :=
  match PodSelector peer, NamespaceSelector peer, peer_IPBlock peer with
  | Some s, None, None | None, Some s, None => is_Some (LabelSelectorAsSelector s)
  | None, None, Some b => is_Some (ParseCIDR (CIDR b)) ∧ Forall (λ e, is_Some (ParseCIDR e)) (Except b)
  | _, _, _ => False
  end.
Definition plain_rule (r : PolicyRule) : Prop := Forall plain_port (Ports r) ∧ Peers r ≠ [] ∧ Forall plain_peer (Peers r).
Definition plain (policy : NetworkPolicy) : Prop :=
  is_Some (LabelSelectorAsSelector (pol_PodSelector policy)) ∧ Forall plain_rule (Egress policy).

Lemma port_agrees (port : Z) (protocol : string) (p : NetworkPolicyPort) :
  plain_port p -> port_matches port protocol p = k8s_port port (toV1Protocol protocol) p.
Proof.
  intros (from & Ep & Hf & Hto). unfold port_matches, k8s_port. rewrite Ep. cbn [int_val].
  destruct (String.eqb _ _); [|done]. cbn [negb andb]. destruct (Z.leb_spec from 0); [lia|].
  unfold wrap. rewrite (Z.mod_small from) by lia. destruct (np_EndPort p) as [to|]; cbn [default from_option id].
  - unfold fits in Hto. by rewrite Z.mod_small by lia.
  - by rewrite Z.mod_small by lia.
Qed.

Lemma ports_agree (port : Z) (protocol : string) (ps : list NetworkPolicyPort) :
  Forall plain_port ps ->
  containsPortWithProtocol port protocol ps = unrestricted_or (k8s_port port (toV1Protocol protocol)) ps.
Proof.
  intros Hp. destruct ps as [|p0 ps0]; [done|]. unfold containsPortWithProtocol, unrestricted_or. induction Hp as [|p ps Hp _ IH]; [done|].
  cbn [existsb]. by rewrite port_agrees, IH.
Qed.

Lemma cidr_ok (cidr ip : string) : is_Some (ParseCIDR cidr) -> strCidrContainsIP cidr ip = Ok (in_cidr cidr ip).
Proof. intros [n E]. unfold strCidrContainsIP, in_cidr. by rewrite E. Qed.

Lemma excepted_ok (es : list string) (ip : string) :
  Forall (λ e, is_Some (ParseCIDR e)) es -> excepted es ip = Ok (existsb (λ e, in_cidr e ip) es).
Proof.
  induction 1 as [|e es He _ IH]; [done|]. cbn [excepted existsb]. rewrite cidr_ok by done. cbn [mbind result_bind].
  by destruct (in_cidr e ip).
Qed.

Lemma peer_agrees (np : networkPolicy) (policy : NetworkPolicy) (ns : string -> gmap string string) (pod : option Pod) (ip : string) (peer : Peer) :
  inClusterAddrEmitCidrRule np = false -> (∀ p, pod = Some p -> getNamespace np (pod_Namespace p) = Some (ns (pod_Namespace p))) -> plain_peer peer ->
  peer_allows np policy pod_Namespace pod ip peer = Ok (k8s_peer ns policy pod ip peer).
Proof.
  intros Hemit Hns Hp. unfold plain_peer in Hp. unfold peer_allows, pod_allows, k8s_peer.
  destruct (PodSelector peer) as [s|], (NamespaceSelector peer) as [s'|], (peer_IPBlock peer) as [b|]; try done.
  - destruct pod as [pod|]; [|done]. destruct (String.eqb (pod_Namespace pod) (pol_Namespace policy)); [|done]. cbn [negb andb].
    destruct (sel_of s (pod_Labels pod) Hp) as (x & -> & _ & E). cbn [mbind result_bind]. rewrite E. by destruct (sel s (pod_Labels pod)).
  - destruct pod as [pod|]; [|done]. destruct (sel_of s' (ns (pod_Namespace pod)) Hp) as (x & -> & _ & E). cbn [mbind result_bind].
    rewrite <- E, (Hns pod eq_refl). by destruct (selector_Empty x), (selector_Matches x (ns (pod_Namespace pod))).
  - assert (block_allows np pod b ip = Ok (in_cidr (CIDR b) ip && negb (existsb (λ e, in_cidr e ip) (Except b)))) as E.
    { destruct Hp as [Hc He]. unfold block_allows. rewrite Hemit, andb_false_r, cidr_ok by done. cbn [mbind result_bind].
      destruct (in_cidr (CIDR b) ip); [|done]. by rewrite excepted_ok. }
    destruct pod; exact E.
Qed.

Lemma rules_agree (np : networkPolicy) (policy : NetworkPolicy) (ns : string -> gmap string string) (pod : option Pod) (dst : Endpoint) (protocol : string) (rules : list PolicyRule) :
  inClusterAddrEmitCidrRule np = false -> (∀ p, pod = Some p -> getNamespace np (pod_Namespace p) = Some (ns (pod_Namespace p))) -> Forall plain_rule rules ->
  rules_verdict np policy rules pod_Namespace pod dst protocol =
  Ok (negb (existsb (k8s_rule ns policy pod (ep_IP dst) (ep_Port dst) (toV1Protocol protocol)) rules)).
Proof.
  intros Hemit Hns Hr. unfold rules_verdict.
  rewrite (first_allow_ok _ (k8s_rule ns policy pod (ep_IP dst) (ep_Port dst) (toV1Protocol protocol))); [done|].
  eapply Forall_impl; [exact Hr|]. intros r (Hports & Hne & Hpeers). unfold k8s_rule. rewrite ports_agree by done.
  destruct (unrestricted_or _ (Ports r)); [|done]. cbn [andb].
  rewrite (first_allow_ok _ (k8s_peer ns policy pod (ep_IP dst))); [by destruct (Peers r)|].
  eapply Forall_impl; [exact Hpeers|]. intros peer Hp. by apply peer_agrees.
Qed.

Definition selects (pod : Pod) (policy : NetworkPolicy) : bool :=
  String.eqb (pol_Namespace policy) (pod_Namespace pod) && sel (pol_PodSelector policy) (pod_Labels pod).

Lemma policyMatchPod_ok (policy : NetworkPolicy) (pod : Pod) :
  is_Some (LabelSelectorAsSelector (pol_PodSelector policy)) -> policyMatchPod policy (Some pod) = Ok (selects pod policy).
Proof.
  intros Hs. unfold policyMatchPod, selects. cbn [deref mbind result_bind].
  destruct (String.eqb (pol_Namespace policy) (pod_Namespace pod)); [|done]. cbn [negb andb].
  destruct (sel_of (pol_PodSelector policy) (pod_Labels pod) Hs) as (x & -> & _ & E). cbn [mbind result_bind]. by rewrite E.
Qed.

Lemma check_policies_ok (np : networkPolicy) (verdict : NetworkPolicy -> option Pod -> result policy_err bool) (v : NetworkPolicy -> bool) (pod : Pod) (other : option Pod) (e : Endpoint) (ps : list NetworkPolicy) :
  pod_from_ip np (ep_IP e) = Ok other ->
  Forall (λ p, is_Some (LabelSelectorAsSelector (pol_PodSelector p)) ∧ verdict p other = Ok (v p)) ps ->
  check_policies np verdict (Some pod) e ps = Ok (List.filter (λ p, selects pod p && v p) ps).
Proof.
  intros Ho. induction 1 as [|p ps [Hs Hv] _ IH]; [done|]. cbn [check_policies List.filter]. rewrite policyMatchPod_ok by done.
  cbn [mbind result_bind]. destruct (selects pod p); [|done]. rewrite Ho. cbn [mbind result_bind]. rewrite Hv. cbn [mbind result_bind].
  rewrite IH. by destruct (v p).
Qed.

(** Every isolating policy allows, and some isolating policy allows. *)
Lemma no_denies_allowed {A : Type} (iso allows : A -> bool) (l : list A) :
  List.filter (λ p, iso p && negb (allows p)) l = [] -> forallb (λ p, negb (iso p)) l || existsb (λ p, iso p && allows p) l = true.
Proof.
  induction l as [|p l IH]; [done|]. cbn [forallb existsb List.filter]. destruct (iso p); cbn [andb negb orb]; [|done].
  by destruct (allows p).
Qed.

Lemma allowed_no_denies {A : Type} (iso allows : A -> bool) (l : list A) :
  (length (List.filter iso l) <= 1)%nat -> forallb (λ p, negb (iso p)) l || existsb (λ p, iso p && allows p) l = true ->
  List.filter (λ p, iso p && negb (allows p)) l = [].
Proof.
  induction l as [|p l IH]; [done|]. cbn [forallb existsb List.filter]. destruct (iso p); cbn [andb negb orb length]; [|done].
  intros Hlen Hall. assert (∀ p', p' ∈ l -> iso p' = false) as Hno.
  { intros p' Hp'. destruct (iso p') eqn:E; [|done].
    assert (p' ∈ List.filter iso l) as Hin by (apply list_elem_of_In, filter_In; split; [by apply list_elem_of_In|done]).
    destruct (List.filter iso l); [by apply elem_of_nil in Hin|simpl in Hlen; lia]. }
  assert (List.filter (λ p, iso p && negb (allows p)) l = []) as ->.
  { clear Hlen Hall IH. induction l as [|x l IH]; [done|]. cbn [List.filter]. rewrite Hno by (apply elem_of_cons; by left).
    apply IH. intros p' Hp'. apply Hno, elem_of_cons. by right. }
  destruct (allows p); [done|]. cbn [orb] in Hall. apply existsb_exists in Hall as (x & Hx%list_elem_of_In & Hb).
  by rewrite Hno in Hb.
Qed.

(** The Kubernetes name of the packet's protocol.  The command knows "tcp" and
    "udp"; for any other text (an SCTP packet) there is no name, and the
    reference follows the code, which takes it for TCP. *)
Definition k8s_protocol (protocol : string) : string := if String.eqb protocol "udp" then "UDP" else "TCP".
Lemma protocol_agrees (protocol : string) : toV1Protocol protocol = k8s_protocol protocol.
Proof.
  unfold toV1Protocol, k8s_protocol, TCP, UDP. destruct (String.eqb_spec protocol "tcp") as [-> |]; [done|]. by destruct (String.eqb protocol "udp").
Qed.

(** Some egress rule of the policy allows the packet, by the meaning that the
    Kubernetes API gives the rules ([k8s_rule]). *)
Definition egress_allows (np : networkPolicy) (ns : string -> gmap string string) (other : option Pod) (dst : Endpoint) (protocol : string) (policy : NetworkPolicy) : bool :=
  existsb (k8s_rule ns policy other (ep_IP dst) (ep_Port dst) (k8s_protocol protocol)) (Egress policy).

Lemma CheckNetworkPolicy_S (fuel : nat) (np : networkPolicy) (src dst : Endpoint) (protocol : string) :
  CheckNetworkPolicy (S fuel) np src dst protocol =
  (denies ← check_ends np src dst protocol;
   ret ← (if is_service (ep_Type dst) then
            svc ← match (GetServiceFromIP (ipCache np) (cluster np) (ep_IP dst)).2 with Some s => Ok s | None => Err ErrCache end;
            svc ← deref svc;
            over_backends (λ e, CheckNetworkPolicy fuel np src e protocol) np dst (backends_of np src dst protocol svc)
          else Ok []);
   Ok (ret ++ deny_suspicions src dst protocol denies)).
Proof. reflexivity. Qed.

Lemma over_backends_ext (f g : Endpoint -> result policy_err (list suspicion)) (np : networkPolicy) (dst : Endpoint) (bs : list Backend) :
  (∀ b ty, b ∈ bs -> (GetIPType (ipCache np) (cluster np) (b_IP b)).2 = Some ty -> f (MkEndpoint (b_IP b) ty (b_Port b)) = g (MkEndpoint (b_IP b) ty (b_Port b))) ->
  over_backends f np dst bs = over_backends g np dst bs.
Proof.
  intros Hfg. induction bs as [|b bs IH]; [done|]. cbn [over_backends]. destruct (String.eqb _ _); [done|].
  destruct (GetIPType (ipCache np) (cluster np) (b_IP b)).2 as [ty|] eqn:E; [|done]. cbn [mbind result_bind].
  rewrite (Hfg b ty) by (done || (apply elem_of_cons; by left)). rewrite IH; [done|].
  intros b' ty' Hb'. apply Hfg. apply elem_of_cons. by right.
Qed.

(** ** Properties *)

(** C29: egress policies.  For plain policies, and with the option that
    ignores CIDR rules for pods off, the check of egress returns without an
    error exactly the policies that isolate the pod and have no rule that
    allows the packet, in their order.  So a report without denying policies
    means that Kubernetes lets the packet pass; and the converse holds if not
    more than one policy isolates the pod. *)
Theorem egress_denies_exact (np : networkPolicy) (ns : string -> gmap string string) (pod : Pod) (other : option Pod) (dst : Endpoint) (protocol : string)
    (Hemit : inClusterAddrEmitCidrRule np = false) (Hns : ∀ p, other = Some p -> getNamespace np (pod_Namespace p) = Some (ns (pod_Namespace p)))
    (Hpod : pod_from_ip np (ep_IP dst) = Ok other) (Hplain : Forall plain (policies np)) :
  let allows := egress_allows np ns other dst protocol in
  ∃ denies, checkEgress np (Some pod) dst protocol = Ok denies ∧
    denies = List.filter (λ p, isolates "Egress" pod p && negb (allows p)) (policies np) ∧
    (denies = [] -> k8s_allowed "Egress" (policies np) pod allows = true) ∧
    ((length (List.filter (isolates "Egress" pod) (policies np)) <= 1)%nat ->
       k8s_allowed "Egress" (policies np) pod allows = true -> denies = []).
Proof.
  intros allows. exists (List.filter (λ p, isolates "Egress" pod p && negb (allows p)) (policies np)). split_and!; [|done| |].
  - unfold checkEgress. rewrite (check_policies_ok np _ (λ p, hasPolicyType p "Egress" && negb (allows p)) pod other dst); [|done|].
    + f_equal. apply List.filter_ext. intros p. unfold isolates, selects. by rewrite !andb_assoc.
    + eapply Forall_impl; [exact Hplain|]. intros p [Hs Hr]. split; [done|]. unfold checkEgressPolicyVerdict.
      destruct (hasPolicyType p "Egress"); [|done]. cbn [negb andb]. unfold allows, egress_allows. rewrite <- protocol_agrees. by apply rules_agree.
  - apply no_denies_allowed.
  - apply allowed_no_denies.
Qed.

(** The recursion.  If the addresses behind the service are not
    addresses of services themselves, the recursion of the check into the
    backends ends: two levels of fuel give the result that any more give. *)
Theorem check_policy_terminates (np : networkPolicy) (src dst : Endpoint) (protocol : string) (fuel : nat)
    (Hb : ∀ svc b ty, b ∈ backends_of np src dst protocol svc -> (GetIPType (ipCache np) (cluster np) (b_IP b)).2 = Some ty -> is_service ty = false) :
  CheckNetworkPolicy (2 + fuel) np src dst protocol = CheckNetworkPolicy 2 np src dst protocol.
Proof.
  assert (∀ n e, is_service (ep_Type e) = false -> CheckNetworkPolicy (S n) np src e protocol = CheckNetworkPolicy 1 np src e protocol) as Hleaf.
  { intros n e He. rewrite !CheckNetworkPolicy_S, He. done. }
  rewrite Nat.add_succ_l, !CheckNetworkPolicy_S. destruct (check_ends np src dst protocol) as [denies| |]; [|done..].
  cbn [mbind result_bind]. destruct (is_service (ep_Type dst)); [|done].
  destruct (GetServiceFromIP (ipCache np) (cluster np) (ep_IP dst)).2 as [[svc|]|]; [|done..]. cbn [deref mbind result_bind].
  rewrite (over_backends_ext _ (λ e, CheckNetworkPolicy 1 np src e protocol)); [done|].
  intros b ty Hin Hty. apply Hleaf. by apply (Hb svc b ty).
Qed.
End policies.

(** Selectors of exact labels. *)
Lemma no_labels_match (s labels : gmap string string) : bool_decide (s = ∅) = true -> bool_decide (s ⊆ labels) = true.
Proof. intros ->%bool_decide_eq_true. apply bool_decide_eq_true_2, map_empty_subseteq. Qed.

#[local] Instance label_selectors : Selectors := {|
  LabelSelector := gmap string string;
  Selector := gmap string string;
  LabelSelectorAsSelector := Some;
  selector_Empty := λ s, bool_decide (s = ∅);
  selector_Matches := λ s labels, bool_decide (s ⊆ labels);
  selector_Empty_Matches := no_labels_match;
|}.

(** Two pods in one namespace and a third in another. *)
Definition ex_app (name : string) : gmap string string := {["app"%string := name]}.
Definition ex_other : Pod := MkPod "other" "c" (ex_app "c") false "Running" ["10.1.0.3"%string] "n1" [] "192.168.0.1" "10.1.0.3".
Definition ex_cluster : answers := MkAnswers (Some [ex_pod "a" "10.1.0.1"; ex_pod "b" "10.1.0.2"; ex_other]) (Some []) (Some []).
Definition ex_ns (n : string) : gmap string string := {["name"%string := n]}.
Definition ex_handler (ps : list NetworkPolicy) : networkPolicy :=
  MkHandler false false ps (λ n, if existsb (String.eqb n) ["default"; "other"]%string then Some (ex_ns n) else None) NewIPCache ex_cluster ex_proc (λ _, None).
Definition to_pods (s : gmap string string) : Peer := MkPeer (Some s) None None.
Definition tcp (port : Z) : NetworkPolicyPort := MkPort (Some "TCP"%string) (Some (IntVal port)) None.
Definition ex_egress (name : string) (rules : list PolicyRule) : NetworkPolicy := MkNetworkPolicy "default" name (ex_app "a") ["Egress"%string] [] rules.
Definition ex_ingress (rules : list PolicyRule) : NetworkPolicy := MkNetworkPolicy "default" "in" (ex_app "b") ["Ingress"%string] rules [].
Definition ex_a : Endpoint := MkEndpoint "10.1.0.1" EndpointTypePod 40000.
Definition ex_b : Endpoint := MkEndpoint "10.1.0.2" EndpointTypePod 80.
Definition ex_c : Endpoint := MkEndpoint "10.1.0.3" EndpointTypePod 80.

Lemma egress_denies_exact_witness :
  checkEgress (ex_handler [ex_egress "out" [MkPolicyRule [tcp 80] [to_pods (ex_app "b")]]]) (Some (ex_pod "a" "10.1.0.1")) ex_b "tcp" = Ok [].
Proof.
  set (np := ex_handler [ex_egress "out" [MkPolicyRule [tcp 80] [to_pods (ex_app "b")]]]).
  destruct (egress_denies_exact np ex_ns (ex_pod "a" "10.1.0.1") (Some (ex_pod "b" "10.1.0.2")) ex_b "tcp") as (denies & E & Hd & _).
  - reflexivity.
  - intros p [= <-]. reflexivity.
  - vm_compute. reflexivity.
  - apply Forall_singleton. split; [by eexists|]. apply Forall_singleton. split_and!; [|discriminate|].
    + apply Forall_singleton. exists 80. done.
    + apply Forall_singleton. by eexists.
  - rewrite E, Hd. subst np. cbn [policies ex_handler List.filter].
    destruct (isolates _ _ _ && _) eqn:Ed; [vm_compute in Ed; discriminate Ed|reflexivity].
Defined.

(** What the code reports, and whether Kubernetes lets the packet pass. *)
Definition egress_report (ps : list NetworkPolicy) (dst : Endpoint) (other : Pod) : result policy_err nat * bool :=
  (denies ← checkEgress (ex_handler ps) (Some (ex_pod "a" "10.1.0.1")) dst "tcp"; Ok (length denies),
   k8s_allowed "Egress" ps (ex_pod "a" "10.1.0.1") (egress_allows (ex_handler ps) ex_ns (Some other) dst "tcp")).
Definition ingress_report (ps : list NetworkPolicy) (src dst : Endpoint) (other : Pod) : result policy_err nat * bool :=
  (denies ← checkIngress (ex_handler ps) (Some (ex_pod "b" "10.1.0.2")) src "tcp"; Ok (length denies),
   k8s_allowed "Ingress" ps (ex_pod "b" "10.1.0.2")
     (λ p, existsb (k8s_rule ex_ns p (Some other) (ep_IP src) (ep_Port dst) "TCP") (SkoopPolicy.Ingress p))).

(** Where the verdicts differ.  The code reports a policy as denying
    that Kubernetes lets pass: for a rule that allows every peer, for a second
    policy that allows what the first does not, for a port given only by its
    protocol, for a peer with a selector of namespaces and one of pods; and
    for ingress it compares the rule's ports with the source port, and looks
    the namespace of the source up under the pod's name, which fails. *)
Theorem policy_divergences :
  let b := ex_pod "b" "10.1.0.2" in let a := ex_pod "a" "10.1.0.1" in
  egress_report [ex_egress "all" [MkPolicyRule [] []]] ex_b b = (Ok 1%nat, true) ∧
  egress_report [ex_egress "x" [MkPolicyRule [] [to_pods (ex_app "x")]]; ex_egress "b" [MkPolicyRule [] [to_pods (ex_app "b")]]] ex_b b = (Ok 1%nat, true) ∧
  egress_report [ex_egress "tcp" [MkPolicyRule [MkPort None None None] [to_pods ∅]]] ex_b b = (Ok 1%nat, true) ∧
  egress_report [ex_egress "c" [MkPolicyRule [] [MkPeer (Some (ex_app "c")) (Some (ex_ns "other")) None]]] ex_c ex_other = (Ok 1%nat, true) ∧
  ingress_report [ex_ingress [MkPolicyRule [tcp 80] [to_pods ∅]]] ex_a ex_b a = (Ok 1%nat, true) ∧
  ingress_report [ex_ingress [MkPolicyRule [] [MkPeer None (Some (ex_ns "default")) None]]] ex_a ex_b a = (Err ErrNamespace, true).
Proof. vm_compute. split_and!; reflexivity. Qed.

(** A service with one backend, and a policy that allows the pods of another
    application. *)
Definition ex_svc_handler : networkPolicy :=
  MkHandler true false [ex_egress "x" [MkPolicyRule [] [to_pods (ex_app "x")]]] (λ n, Some (ex_ns n)) NewIPCache
    (MkAnswers (Some [ex_pod "a" "10.1.0.1"; ex_pod "b" "10.1.0.2"]) (Some []) (Some [ex_svc])) ex_proc
    (λ _, Some [[MkEndpointAddress "10.1.0.2" None]]).
Definition ex_vip : Endpoint := MkEndpoint "10.96.0.10" EndpointTypeService 53.

Lemma check_policy_terminates_witness :
  match CheckNetworkPolicy 100 ex_svc_handler ex_a ex_vip "tcp" with
  | Ok [su] => su_dst su = "10.1.0.2"%string ∧ su_port su = 5353
  | _ => False
  end.
Proof.
  change 100%nat with (2 + 98)%nat. rewrite (check_policy_terminates ex_svc_handler ex_a ex_vip "tcp" 98).
  - vm_compute. split; reflexivity.
  - intros svc b ty Hb Hty. unfold backends_of, Process in Hb. destruct (shouldMasquerade _ _ svc) as [m t].
    apply list_elem_of_fmap in Hb as (addr & -> & Hin). apply list_elem_of_In, filter_In in Hin as [Hin _].
    destruct Hin as [<-|[]]. vm_compute in Hty. injection Hty as <-. reflexivity.
Defined.
End SkoopPolicy.
