(* ===== verification/SkoopAssert.v ===== *)
(** src/pkg/skoop/assertions/netstack.go, netstack/neigh.go, netstack/link.go
    and the helpers of plugin/base.go: the checks that the diagnosis command
    makes on a network namespace, each of which adds suspicions to the node.

    A check is a function to the list of suspicions it adds, [Panic] where it
    follows a nil pointer.  The theorems say when a check adds none. *)

From S2P Require Import Prelude GoStrings GoNet GoResult SkoopRoute SkoopIptables SkoopService.
Import SkoopRoute SkoopIptables SkoopService.

Module SkoopAssert.

(** ** Neighbours *)

Definition AF_INET : Z := 2.
Definition NudPermanent : Z := 0x80.

Record NeighResult := MkNeighResult { nr_State : Z; nr_LLAddr : list Z; nr_DST : IP }.

(** [None] is the error "cannot found link"; the last entry of the forwarding
    table with the address decides. *)
Definition ProbeNeigh (ifs : list Interface) (ip : IP) (linkIndex : Z) : option (option NeighResult) :=
  match List.find (λ i, if_Index i =? linkIndex) ifs with
  | None => None
  | Some i => Some
      match List.find (λ n, (n_LinkIndex n =? linkIndex) && Equal (n_IP n) ip) (if_NeighInfo i) with
      | None => None
      | Some m =>
          let dst := if n_State m =? NudPermanent
            then foldl (λ d fdb, if bool_decide (n_HardwareAddr fdb = n_HardwareAddr m) then n_IP fdb else d) [] (if_FdbInfo i)
            else [] in
          Some (MkNeighResult (n_State m) (n_HardwareAddr m) dst)
      end
  end.

(** The conjunction with the family binds tighter than the disjunction. *)
Definition route_neigh (route : Route_) (dst : IP) (n : Neigh) : bool :=
  ((n_Family n =? AF_INET) && (bool_decide (r_Gw route = []) && Equal (n_IP n) dst)) ||
  (negb (bool_decide (r_Gw route = [])) && Equal (n_IP n) (r_Gw route)).
Definition ProbeRouteNeigh (ifs : list Interface) (route : Route_) (dst : IP) : option Neigh :=
  List.find (route_neigh route dst) (ifs ≫= λ i, if String.eqb (if_Name i) (r_OifName route) then if_NeighInfo i else []).

Definition GetDefaultIPv4 (i : Interface) : IP * list Z :=
  match List.find (λ a, bool_decide (is_Some (To4 (net_IP a)))) (if_Addrs i) with
  | Some a => (default [] (To4 (net_IP a)), net_Mask a)
  | None => (IPv4 169 254 0 1, CIDRMask 32 32)
  end.

(** ** Suspicions *)

Inductive SuspicionLevel := SuspicionLevelInfo | SuspicionLevelWarning | SuspicionLevelCritical | SuspicionLevelFatal.

(** What a message says. *)
Inductive message :=
  | NoRoute | Unreachable (ty : Z) | InvalidRoute (field : string)
  | TablesUnsupported | RuleUnsupported (e : trace_err) | DroppedBy (t : Trace) | Snat
  | NotListening | NoInterface (name : string) | NoIndex (i : Z) | NotVeth (name : string) | LinkIsDown (name : string)
  | NoMaster (name : string) | NoMasterInterface (i : Z) | WrongBridge (name : string) | NotIPIP (driver : string)
  | NoNeigh | NoFdb | WrongVtep
  | DefaultRuleWrong | DefaultRuleDeleted | PolicyRoutes (tables : list Z) | SysctlMissing (name : string) | SysctlWrong (name actual : string)
  | NoVirtualService | NoRealServer
  | WrongField (dev field : string) | ChainNotEmpty (table chain : string) | PolicyNotAccept (table chain : string)
  | NodeNotReady (status : string) | ContainerNotReady (name : string) | NoRouteToHost | ArpFailed (gw : IP)
  | SourceNotAllowed (ranges : list string) | NoEndpoint | ValidateFailed (e : validate_err) | UnsupportedSource.
Definition suspicion : Type := SuspicionLevel * message.
Definition AssertTrue (test : bool) (level : SuspicionLevel) (msg : message) : list suspicion := if test then [] else [(level, msg)].

(** ** Checks on routes *)

Record RouteAssertion := MkRouteAssertion {
  ra_Dev : option string; ra_Scope : option Z; ra_Type : option Z; ra_Dst : option IPNet; ra_Src : option IP; ra_Gw : option IP; ra_Protocol : option Z;
}.

Definition RtnLocal : Z := 2.
(** Unreachable, blackhole, prohibit and throw. *)
Definition unreachable_types : list Z := [7; 6; 8; 9].

(** The expectations in the order they are tested, with whether they fail. *)
Definition failed {A : Type} (expected : option A) (test : A -> bool) : bool := match expected with Some a => negb (test a) | None => false end.
Definition AssertRoute (router : SimulateRouter) (expected : RouteAssertion) (packet : Packet) (iif oif : string) : result route_err (list suspicion) :=
  match Route router packet iif oif with
  | Panic => Panic
  | Err ErrNoRouteToHost => Ok [(SuspicionLevelFatal, NoRoute)]
  | Err e => Err e
  | Ok route =>
      if existsb (Z.eqb (r_Type route)) unreachable_types then Ok [(SuspicionLevelFatal, Unreachable (r_Type route))]
      else if r_Type route =? RtnLocal then Ok []
      else if failed (ra_Dev expected) (String.eqb (r_OifName route)) then Ok [(SuspicionLevelFatal, InvalidRoute "dev")]
      else if failed (ra_Scope expected) (Z.eqb (r_Scope route)) then Ok [(SuspicionLevelFatal, InvalidRoute "scope")]
      else if failed (ra_Src expected) (Equal (r_Src route)) then Ok [(SuspicionLevelFatal, InvalidRoute "src")]
      else
        bad_dst ← match ra_Dst expected with
                  | None => Ok false
                  | Some d => n ← deref (r_Dst route); Ok (negb (String.eqb (IPNet_String n) (IPNet_String d)))
                  end;
        if bad_dst : bool then Ok [(SuspicionLevelFatal, InvalidRoute "dst")]
        else if failed (ra_Gw expected) (Equal (r_Gw route)) then Ok [(SuspicionLevelFatal, InvalidRoute "gateway")]
        else if failed (ra_Type expected) (Z.eqb (r_Type route)) then Ok [(SuspicionLevelFatal, InvalidRoute "type")]
        else if failed (ra_Protocol expected) (Z.eqb (r_Protocol route)) then Ok [(SuspicionLevelFatal, InvalidRoute "protocol")]
        else Ok []
  end.

Definition AssertDefaultRule (rus : list Rule) : list suspicion :=
  match List.find (λ r, (ru_Table r =? RtTableMain) || (ru_Table r =? RtTableLocal)) rus with
  | None => [(SuspicionLevelCritical, DefaultRuleDeleted)]
  | Some r =>
      AssertTrue (bool_decide (ru_Src r = None) && String.eqb (ru_IifName r) "" && String.eqb (ru_OifName r) "" && bool_decide (ru_Dst r = None))
        SuspicionLevelCritical DefaultRuleWrong
  end.
Definition AssertNoPolicyRoute (rus : list Rule) : list suspicion :=
  let tables := List.filter (λ t, negb (existsb (Z.eqb t) [RtTableMain; RtTableLocal; RtTableDefault])) (ru_Table <$> rus) in
  AssertTrue (bool_decide (tables = [])) SuspicionLevelWarning (PolicyRoutes tables).

(** ** Checks on links and sockets *)

Definition LinkUP : Z := 1.
Definition find_name (ifs : list Interface) (name : string) : option Interface := List.find (λ i, String.eqb (if_Name i) name) ifs.
Definition find_index (ifs : list Interface) (i : Z) : option Interface := List.find (λ x, if_Index x =? i) ifs.

Definition AssertHostBridge (ifs : list Interface) (name : string) : list suspicion :=
  match find_name ifs name with
  | None => [(SuspicionLevelFatal, NoInterface name)]
  | Some bridge => AssertTrue (if_State bridge =? LinkUP) SuspicionLevelFatal (LinkIsDown name)
  end.
(** [AssertNetDevice] by reflection: every field that is not zero in [expect]
    is compared.  Fields of a type that cannot be compared panic. *)
Definition AssertNetDevice (ifs : list Interface) (s : string) (expect : Interface) : result route_err (list suspicion) :=
  match find_name ifs s with
  | None => Ok [(SuspicionLevelCritical, NoInterface s)]
  | Some ni =>
      let text (field : string) (f : Interface -> string) : list suspicion :=
        AssertTrue (String.eqb (f expect) EmptyString || String.eqb (f expect) (f ni)) SuspicionLevelFatal (WrongField s field) in
      let number (field : string) (f : Interface -> Z) : list suspicion :=
        AssertTrue ((f expect =? 0) || (f expect =? f ni)) SuspicionLevelFatal (WrongField s field) in
      let before := text "Name" if_Name ++ number "Index" if_Index ++ number "MTU" if_MTU ++ text "Driver" if_Driver in
      if bool_decide (if_Addrs expect = [] ∧ if_DevSysctls expect = ∅ ∧ if_NeighInfo expect = [] ∧ if_FdbInfo expect = [])
      then Ok (before ++ number "State" if_State ++ number "PeerIndex" if_PeerIndex ++ number "MasterIndex" if_MasterIndex)
      else Panic
  end.
Definition AssertVEthOnBridge (ifs : list Interface) (index : Z) (expectedBridgeName : string) : list suspicion :=
  match find_index ifs index with
  | None => [(SuspicionLevelFatal, NoIndex index)]
  | Some dev =>
      if negb (String.eqb (if_Driver dev) "veth") then [(SuspicionLevelFatal, NotVeth (if_Name dev))]
      else
        AssertTrue (if_State dev =? LinkUP) SuspicionLevelWarning (LinkIsDown (if_Name dev)) ++
        if if_MasterIndex dev =? 0 then [(SuspicionLevelFatal, NoMaster (if_Name dev))]
        else match find_index ifs (if_MasterIndex dev) with
             | None => [(SuspicionLevelFatal, NoMasterInterface (if_MasterIndex dev))]
             | Some bridge =>
                 if negb (String.eqb expectedBridgeName "") then
                   AssertTrue (String.eqb (if_Name bridge) expectedBridgeName) SuspicionLevelFatal (WrongBridge (if_Name bridge))
                 else []
             end
  end.
Definition AssertVEthPeerBridge (ifs : list Interface) (peerInterfaceName : string) (peerIfs : list Interface) (expectedBridgeName : string) : list suspicion :=
  match find_name peerIfs peerInterfaceName with
  | None => [(SuspicionLevelFatal, NoInterface "eth0")]
  | Some peer => AssertVEthOnBridge ifs (if_PeerIndex peer) expectedBridgeName
  end.
Definition AssertDefaultIPIPTunnel (ifs : list Interface) (ifName : string) : list suspicion :=
  match find_name ifs ifName with
  | None => [(SuspicionLevelFatal, NoInterface ifName)]
  | Some dev => AssertTrue (String.eqb (if_Driver dev) "ipip") SuspicionLevelFatal (NotIPIP (if_Driver dev))
  end.

(** [None] is the error of [ProbeNeigh]. *)
Definition AssertVxlanVtep (ifs : list Interface) (vtep dstHost : IP) (vxlanInterface : string) : option (list suspicion) :=
  match find_name ifs vxlanInterface with
  | None => Some [(SuspicionLevelFatal, NoInterface vxlanInterface)]
  | Some iface =>
      match ProbeNeigh ifs vtep (if_Index iface) with
      | None => None
      | Some None => Some [(SuspicionLevelCritical, NoNeigh)]
      | Some (Some r) =>
          if bool_decide (nr_DST r = []) || IsUnspecified (nr_DST r) then Some [(SuspicionLevelCritical, NoFdb)]
          else Some (AssertTrue (Equal (nr_DST r) dstHost) SuspicionLevelCritical WrongVtep)
      end
  end.

Definition SockStatListen : Z := 0.
Record ConnStat := MkConnStat { cs_LocalIP : string; cs_LocalPort : Z; cs_RemoteIP : string; cs_RemotePort : Z; cs_Protocol : string; cs_State : Z }.
Definition listens (localIP : IP) (localPort : Z) (protocol : string) (stat : ConnStat) : bool :=
  (cs_State stat =? SockStatListen) && EqualFold (cs_Protocol stat) protocol && (localPort =? cs_LocalPort stat) &&
  (String.eqb (IP_String localIP) (cs_LocalIP stat) || existsb (String.eqb (cs_LocalIP stat)) ["0.0.0.0"; "::"]%string).
Definition AssertListen (stats : list ConnStat) (localIP : IP) (localPort : Z) (protocol : string) : list suspicion :=
  AssertTrue (negb (bool_decide (length (List.filter (listens localIP localPort protocol) stats) = 0%nat))) SuspicionLevelFatal NotListening.

Definition AssertSysctls (actual : gmap string string) (expect : list (string * string)) (level : SuspicionLevel) : list suspicion :=
  expect ≫= λ e, match actual !! e.1 with
                 | None => [(level, SysctlMissing e.1)]
                 | Some v => AssertTrue (String.eqb v e.2) level (SysctlWrong e.1 v)
                 end.

(** The service is looked up in the raw data first; a suspicion about a missing
    service does not end the check, which then follows the nil pointer. *)
Definition AssertIPVSServerExists (info : gmap string IPVSService) (ipvs : gmap string IPVSService) (service : string) (servicePort : Z) (protocol backend : string) (backendPort : Z) : result route_err (list suspicion) :=
  match info !! service_key protocol service servicePort with
  | None => Ok []
  | Some _ =>
      let svc := GetService ipvs protocol service servicePort in
      let missing := match svc with None => [(SuspicionLevelFatal, NoVirtualService)]
                     | Some s => AssertTrue (negb (bool_decide (vs_RS s = []))) SuspicionLevelFatal NoVirtualService end in
      svc ← deref svc;
      Ok (missing ++ AssertTrue (existsb (λ rs, String.eqb (rs_IP rs) backend && (rs_Port rs =? backendPort)) (vs_RS svc)) SuspicionLevelWarning NoRealServer)
  end.

(** ** Checks on netfilter *)

Definition AssertNoIPTables (ipt : IPTables) : list suspicion :=
  match Empty ipt with Some (table, chain) => [(SuspicionLevelFatal, ChainNotEmpty table chain)] | None => [] end.
Definition AssertDefaultAccept (ipt : IPTables) : list suspicion :=
  match DefaultAccept ipt with Some (table, chain) => [(SuspicionLevelFatal, PolicyNotAccept table chain)] | None => [] end.

(** [checkNetfilterResult]: the suspicion, and whether to go on. *)
Definition checkNetfilterResult (e : option hook_err) : list suspicion * bool :=
  match e with
  | Some ErrIPTablesUnsupported => ([(SuspicionLevelWarning, TablesUnsupported)], false)
  | Some (TraceError e) => ([(SuspicionLevelWarning, RuleUnsupported e)], false)
  | Some (IPTableDropError t) => ([(SuspicionLevelWarning, DroppedBy t)], false)
  | None => ([], true)
  end.

Definition set_Dst (p : Packet) (d : IP) : Packet :=
  let '(MkPacket s sp _ dp proto e m) := p in MkPacket s sp d dp proto e m.

Section netfilter.
Context (fuel : nat) (nf : SimulateNetfilter).

(** A hook with its check: suspicions, whether to go on, and the packet. *)
Definition checked (hook : NFHook) (p : Packet) (iif : string) : option (result Empty_set (list suspicion * bool * Packet)) :=
  match Hook fuel nf hook p iif "" with
  | None => None
  | Some Panic => Some Panic
  | Some (Err e) => Some (Err e)
  | Some (Ok (_, p', e)) => let '(s, go) := checkNetfilterResult e in Some (Ok (s, go, p'))
  end.

(** Steps in sequence: the suspicions add up. *)
Definition report : Type := option (result Empty_set (list suspicion)).
Definition and_then (o : option (result Empty_set (list suspicion * bool * Packet))) (k : bool -> Packet -> report) : report :=
  match o with
  | Some (Ok (s, go, p)) =>
      match k go p with Some (Ok s') => Some (Ok (s ++ s')) | r => r end
  | Some (Err e) => Some (Err e)
  | Some Panic => Some Panic
  | None => None
  end.
Definition nothing : report := Some (Ok []).

Fixpoint each_out (f : Packet -> report) (pkts : list Packet) : report :=
  match pkts with
  | [] => nothing
  | p :: pkts' =>
      match f p with
      | Some (Ok s) => match each_out f pkts' with Some (Ok s') => Some (Ok (s ++ s')) | r => r end
      | r => r
      end
  end.

Definition AssertNetfilterSend (pktIn : Packet) (pktOut : list Packet) (iif : string) : report :=
  and_then (checked NFHookOutput pktIn iif) (λ go _,
    if go then each_out (λ pkt, and_then (checked NFHookPostRouting pkt iif) (λ _ _, nothing)) pktOut else nothing).

Definition AssertNetfilterForward (pktIn : Packet) (pktOut : list Packet) (iif : string) : report :=
  and_then (checked NFHookPreRouting pktIn iif) (λ go _,
    if go then
      each_out (λ pkt,
        let pktCopy := set_Dst pktIn (Dst pkt) in
        and_then (checked NFHookForward pktCopy iif) (λ _ filteredPkt,
        and_then (checked NFHookPostRouting filteredPkt iif) (λ _ filteredPkt,
          Some (Ok (AssertTrue (Equal (Src pktCopy) (Src filteredPkt)) SuspicionLevelFatal Snat)))))
        (match pktOut with [] => [pktIn] | _ => pktOut end)
    else nothing).

Definition AssertNetfilterServe (pktIn : Packet) (iif : string) : report :=
  and_then (checked NFHookPreRouting pktIn iif) (λ go filteredPkt,
    if go then and_then (checked NFHookInput filteredPkt iif) (λ _ _, nothing) else nothing).
End netfilter.

(** ** Helpers of the plugins *)

(** The order of equal masks is that of an unstable sort; equal masks that
    both contain the address are the same network. *)
Definition smallestMatchingCIDR (ip : IP) (cidrs : list IPNet) : option IPNet :=
  head (SliceStable (λ a b, Size (net_Mask b) <? Size (net_Mask a)) (List.filter (λ c, Contains_IP c ip) cidrs)).
Definition ack (pkt : Packet) : Packet := MkPacket (Dst pkt) (Dport pkt) (Src pkt) (Sport pkt) (Protocol pkt) None 0.

(** ** Properties *)

(** A route that fits what the plugin expects. *)
Definition meets {A : Type} (expected : option A) (test : A -> bool) : Prop := ∀ a, expected = Some a -> test a = true.
Definition fits_expected (expected : RouteAssertion) (r : Route_) : Prop :=
  meets (ra_Dev expected) (String.eqb (r_OifName r)) ∧ meets (ra_Scope expected) (Z.eqb (r_Scope r)) ∧
  meets (ra_Src expected) (Equal (r_Src r)) ∧
  (∀ d, ra_Dst expected = Some d -> ∃ n, r_Dst r = Some n ∧ IPNet_String n = IPNet_String d) ∧
  meets (ra_Gw expected) (Equal (r_Gw r)) ∧ meets (ra_Type expected) (Z.eqb (r_Type r)) ∧ meets (ra_Protocol expected) (Z.eqb (r_Protocol r)).

Lemma failed_meets {A : Type} (expected : option A) (test : A -> bool) : failed expected test = false <-> meets expected test.
Proof.
  unfold failed, meets. destruct expected as [a|]; [|naive_solver]. rewrite negb_false_iff. naive_solver.
Qed.

Lemma failed_not_meets {A : Type} (expected : option A) (test : A -> bool) : failed expected test = true -> ¬ meets expected test.
Proof. intros Hf Hm%failed_meets. congruence. Qed.

(** The check of a route.  It adds no suspicion exactly if the router
    finds a route of a reachable type that is local or fits every field the
    plugin expects; it adds at most one suspicion, and that is fatal; and an
    error is only returned if the router returns one. *)
Theorem assert_route_exact (router : SimulateRouter) (expected : RouteAssertion) (packet : Packet) (iif oif : string) :
  (AssertRoute router expected packet iif oif = Ok [] <->
     ∃ r, Route router packet iif oif = Ok r ∧ r_Type r ∉ unreachable_types ∧ (r_Type r = RtnLocal ∨ fits_expected expected r)) ∧
  (∀ l, AssertRoute router expected packet iif oif = Ok l -> l = [] ∨ ∃ m, l = [(SuspicionLevelFatal, m)]) ∧
  (∀ e, AssertRoute router expected packet iif oif = Err e -> Route router packet iif oif = Err e).
Proof.
  assert (∀ (r : Route_), existsb (Z.eqb (r_Type r)) unreachable_types = true <-> r_Type r ∈ unreachable_types) as Hex.
  { intros r. rewrite existsb_exists. split.
    - by intros (x & Hx%list_elem_of_In & <-%Z.eqb_eq).
    - intros Hin. exists (r_Type r). split; [by apply list_elem_of_In|apply Z.eqb_refl]. }
  unfold AssertRoute. destruct (Route router packet iif oif) as [r|[]|]; [|naive_solver..]. split_and!.
  - split.
    + intros Hr. exists r. split; [done|]. destruct (existsb _ _) eqn:Et; [done|].
      split; [rewrite <- Hex; congruence|]. destruct (Z.eqb_spec (r_Type r) RtnLocal) as [|_]; [by left|]. right.
      repeat match type of Hr with
      | (if failed ?e ?t then _ else _) = _ => destruct (failed e t) eqn:?; [discriminate Hr|]
      end.
      destruct (ra_Dst expected) as [d|] eqn:Ed; [destruct (r_Dst r) as [n|] eqn:Er; [|discriminate Hr]|];
        cbn [deref mbind result_bind] in Hr;
        [destruct (String.eqb_spec (IPNet_String n) (IPNet_String d)) as [En|_]; [|discriminate Hr]; cbn [negb] in Hr|];
        repeat match type of Hr with
        | (if failed ?e ?t then _ else _) = _ => destruct (failed e t) eqn:?; [discriminate Hr|]
        end;
        (split_and!; try (by apply failed_meets)); rewrite Ed; [|done]. intros d' [= <-]. by exists n.
    + intros (r' & [= <-] & Ht & Hor). destruct (existsb _ _) eqn:Et; [by destruct Ht; apply Hex|].
      destruct (Z.eqb_spec (r_Type r) RtnLocal) as [|Hl]; [done|]. destruct Hor as [?|(H1 & H2 & H3 & H4 & H5 & H6 & H7)]; [done|].
      apply failed_meets in H1, H2, H3, H5, H6, H7. rewrite H1, H2, H3.
      destruct (ra_Dst expected) as [d|]; [destruct (H4 d eq_refl) as (n & -> & En); cbn [deref mbind result_bind]; rewrite En, String.eqb_refl; cbn [negb]|
        cbn [mbind result_bind]]; by rewrite H5, H6, H7.
  - intros l. destruct (ra_Dst expected) as [d|]; [destruct (r_Dst r) as [n|]|]; cbn [deref mbind result_bind];
      repeat case_match; intros [= <-]; eauto.
  - intros e. destruct (ra_Dst expected) as [d|]; [destruct (r_Dst r) as [n|]|]; cbn [deref mbind result_bind];
      repeat case_match; discriminate.
Qed.

Section netfilter_lemmas.
Context (fuel : nat) (nf : SimulateNetfilter).

Definition accepts (hook : NFHook) (p : Packet) (iif : string) : Prop := Hook fuel nf hook p iif "" = Some (Ok (VerdictAccept, p, None)).

Lemma checked_spec (hook : NFHook) (p p' : Packet) (iif : string) (l : list suspicion) (go : bool) :
  checked fuel nf hook p iif = Some (Ok (l, go, p')) ->
  p' = p ∧ (go = true <-> accepts hook p iif) ∧ (go = true -> l = []) ∧ (go = false -> l ≠ []) ∧ (SuspicionLevelFatal, Snat) ∉ l.
Proof.
  unfold checked, accepts. destruct (Hook fuel nf hook p iif "") as [[[[v q] e]|e|]|] eqn:E; [|done..].
  assert (q = p) as -> by exact (hook_packet _ _ _ _ _ _ _ _ _ E).
  assert (e = None -> v = VerdictAccept) as Hv by (intros ->; exact (hook_no_error _ _ _ _ _ _ _ _ E)).
  destruct e as [[|t|e]|]; cbn [checkNetfilterResult]; intros [= <- <- <-].
  all: try (split_and!; [done|split; [done|intros [= ?]; done]|done|done|]; rewrite list_elem_of_singleton; by intros [=]).
  rewrite (Hv eq_refl). split_and!; [done..|]. by intros ?%elem_of_nil.
Qed.

Lemma checked_accepts (hook : NFHook) (p : Packet) (iif : string) : accepts hook p iif -> checked fuel nf hook p iif = Some (Ok ([], true, p)).
Proof. unfold accepts, checked. by intros ->. Qed.

Lemma and_then_ok (o : option (result Empty_set (list suspicion * bool * Packet))) (k : bool -> Packet -> report) (l : list suspicion) :
  and_then o k = Some (Ok l) -> ∃ s go p s', o = Some (Ok (s, go, p)) ∧ k go p = Some (Ok s') ∧ l = s ++ s'.
Proof.
  unfold and_then. destruct o as [[[[s go] p]|e|]|]; [|done..]. destruct (k go p) as [[s'|e|]|] eqn:E; [|done..].
  intros [= <-]. by exists s, go, p, s'.
Qed.

Lemma each_out_nil (f : Packet -> report) (pkts : list Packet) :
  each_out f pkts = Some (Ok []) <-> ∀ p, p ∈ pkts -> f p = Some (Ok []).
Proof.
  induction pkts as [|p pkts IH]; cbn [each_out]; [split; [by intros _ p ?%elem_of_nil|done]|]. split.
  - destruct (f p) as [[s|e|]|] eqn:E; [|done..]. destruct (each_out f pkts) as [[s'|e|]|]; [|done..].
    intros [= [-> ->]%app_nil]. intros q [-> |Hq]%elem_of_cons; [done|]. by apply IH.
  - intros Hall. rewrite (Hall p) by (apply elem_of_cons; by left).
    assert (each_out f pkts = Some (Ok [])) as -> by (apply IH; intros q Hq; apply Hall, elem_of_cons; by right). done.
Qed.

Lemma each_out_never (f : Packet -> report) (pkts : list Packet) (l : list suspicion) (m : suspicion) :
  (∀ p s, f p = Some (Ok s) -> m ∉ s) -> each_out f pkts = Some (Ok l) -> m ∉ l.
Proof.
  intros Hf. revert l. induction pkts as [|p pkts IH]; intros l; cbn [each_out]; [intros [= <-]; apply not_elem_of_nil|].
  destruct (f p) as [[s|e|]|] eqn:E; [|done..]. destruct (each_out f pkts) as [[s'|e|]|]; [|done..]. intros [= <-].
  rewrite not_elem_of_app. split; [by eapply Hf|by apply IH].
Qed.

(** The part of the forward check for one outgoing packet. *)
Definition forward_one (q : Packet) (iif : string) : report :=
  and_then (checked fuel nf NFHookForward q iif) (λ _ filteredPkt,
  and_then (checked fuel nf NFHookPostRouting filteredPkt iif) (λ _ filteredPkt,
    Some (Ok (AssertTrue (Equal (Src q) (Src filteredPkt)) SuspicionLevelFatal Snat)))).

Lemma forward_one_spec (q : Packet) (iif : string) (l : list suspicion) :
  forward_one q iif = Some (Ok l) ->
  (SuspicionLevelFatal, Snat) ∉ l ∧ (l = [] -> accepts NFHookForward q iif ∧ accepts NFHookPostRouting q iif).
Proof.
  intros H. apply and_then_ok in H as (s & go & q1 & s' & E1 & H & ->). apply and_then_ok in H as (s2 & go2 & q2 & s3 & E2 & H & ->).
  apply checked_spec in E1 as (-> & Ha1 & _ & Hf1 & Hn1). apply checked_spec in E2 as (-> & Ha2 & _ & Hf2 & Hn2).
  assert (Equal (Src q) (Src q) = true) as Hq by (unfold Equal; by rewrite !bool_decide_eq_true_2).
  rewrite Hq in H. injection H as <-. rewrite app_nil_r. split; [by rewrite not_elem_of_app|].
  intros [-> ->]%app_nil. destruct go; [|by destruct Hf1]. destruct go2; [|by destruct Hf2]. split; [by apply Ha1|by apply Ha2].
Qed.

Lemma forward_one_accepts (q : Packet) (iif : string) :
  accepts NFHookForward q iif -> accepts NFHookPostRouting q iif -> forward_one q iif = Some (Ok []).
Proof.
  intros H1 H2. unfold forward_one. rewrite (checked_accepts _ _ _ H1). cbn [and_then]. rewrite (checked_accepts _ _ _ H2). cbn [and_then].
  assert (Equal (Src q) (Src q) = true) as -> by (unfold Equal; by rewrite !bool_decide_eq_true_2). done.
Qed.
End netfilter_lemmas.

(** The check of forwarding.  It adds no suspicion exactly if the
    prerouting hook accepts the packet and, for each packet expected to leave,
    the forward and postrouting hooks accept the packet with that
    destination.  It never reports source NAT, since the simulation applies
    no NAT. *)
Theorem assert_forward_exact (fuel : nat) (nf : SimulateNetfilter) (pktIn : Packet) (pktOut : list Packet) (iif : string) :
  let outs := match pktOut with [] => [pktIn] | _ => pktOut end in
  (AssertNetfilterForward fuel nf pktIn pktOut iif = Some (Ok []) <->
     accepts fuel nf NFHookPreRouting pktIn iif ∧
     ∀ pkt, pkt ∈ outs -> accepts fuel nf NFHookForward (set_Dst pktIn (Dst pkt)) iif ∧ accepts fuel nf NFHookPostRouting (set_Dst pktIn (Dst pkt)) iif) ∧
  (∀ l, AssertNetfilterForward fuel nf pktIn pktOut iif = Some (Ok l) -> (SuspicionLevelFatal, Snat) ∉ l).
Proof.
  intros outs. change (AssertNetfilterForward fuel nf pktIn pktOut iif) with
    (and_then (checked fuel nf NFHookPreRouting pktIn iif) (λ go _,
      if go then each_out (λ pkt, forward_one fuel nf (set_Dst pktIn (Dst pkt)) iif) outs else nothing)). split; [split|].
  - intros H. apply and_then_ok in H as (s & go & q & s' & E & H & Hl). symmetry in Hl. apply app_nil in Hl as [-> ->].
    apply checked_spec in E as (-> & Ha & _ & Hf & _). destruct go; [|by destruct Hf]. split; [by apply Ha|].
    intros pkt Hpkt. apply each_out_nil with (p := pkt) in H; [|done]. by eapply forward_one_spec.
  - intros [Hpre Hall]. rewrite (checked_accepts _ _ _ _ _ Hpre). cbn [and_then].
    assert (each_out (λ pkt, forward_one fuel nf (set_Dst pktIn (Dst pkt)) iif) outs = Some (Ok [])) as ->; [|done].
    apply each_out_nil. intros pkt Hpkt. destruct (Hall pkt Hpkt). by apply forward_one_accepts.
  - intros l H. apply and_then_ok in H as (s & go & q & s' & E & H & ->). apply checked_spec in E as (-> & _ & _ & _ & Hn).
    rewrite not_elem_of_app. split; [done|]. destruct go; [|injection H as <-; apply not_elem_of_nil].
    eapply each_out_never; [|exact H]. intros pkt s0 H0. by apply (forward_one_spec _ _ _ _ _ H0).
Qed.

(** The veth of a pod raises nothing exactly if it is an interface of that
    kind, up, and has a master with the name expected. *)
Theorem veth_on_bridge_exact (ifs : list Interface) (index : Z) (name : string) :
  AssertVEthOnBridge ifs index name = [] <->
  ∃ dev bridge, find_index ifs index = Some dev ∧ if_Driver dev = "veth"%string ∧ if_State dev = LinkUP ∧ if_MasterIndex dev ≠ 0 ∧
    find_index ifs (if_MasterIndex dev) = Some bridge ∧ (name = EmptyString ∨ if_Name bridge = name).
Proof.
  unfold AssertVEthOnBridge, AssertTrue. destruct (find_index ifs index) as [dev|]; [|naive_solver].
  destruct (String.eqb_spec (if_Driver dev) "veth") as [Hv|Hv]; cbn [negb]; [|naive_solver].
  destruct (Z.eqb_spec (if_State dev) LinkUP) as [Hup|Hup]; [|naive_solver]. cbn [app].
  destruct (Z.eqb_spec (if_MasterIndex dev) 0) as [Hm|Hm]; [naive_solver|].
  destruct (find_index ifs (if_MasterIndex dev)) as [bridge|] eqn:Eb; [|naive_solver].
  destruct (String.eqb_spec name EmptyString) as [Hn|Hn]; cbn [negb]; [naive_solver|].
  destruct (String.eqb_spec (if_Name bridge) name) as [Hb|Hb]; [naive_solver|]. split; [done|].
  intros (dev' & bridge' & [= <-] & _ & _ & _ & Hb' & [?|?]); congruence.
Qed.

(** The plugins' expectation for an address is that of the longest prefix. *)
Theorem smallest_matching (ip : IP) (cidrs : list IPNet) :
  match smallestMatchingCIDR ip cidrs with
  | Some c => c ∈ cidrs ∧ Contains_IP c ip = true ∧ ∀ c', c' ∈ cidrs -> Contains_IP c' ip = true -> Size (net_Mask c') <= Size (net_Mask c)
  | None => ∀ c, c ∈ cidrs -> Contains_IP c ip = false
  end.
Proof.
  unfold smallestMatchingCIDR. set (less := λ a b, Size (net_Mask b) <? Size (net_Mask a)). set (l := List.filter (λ c, Contains_IP c ip) cidrs).
  assert (∀ a b, less a b = true -> less b a = false) as Hasym by (intros a b; unfold less; rewrite Z.ltb_lt, Z.ltb_ge; lia).
  assert (∀ a b c, less b a = false -> less c b = false -> less c a = false) as Htrans by (intros a b c; unfold less; rewrite !Z.ltb_ge; lia).
  assert (∀ c, c ∈ l <-> c ∈ cidrs ∧ Contains_IP c ip = true) as Hl.
  { intros c. unfold l. rewrite !list_elem_of_In, filter_In. done. }
  pose proof (find_SliceStable less Hasym Htrans (λ _, true) l) as H. destruct (SliceStable less l) as [|c rest]; cbn [List.find head] in *.
  - intros c Hc. destruct (Contains_IP c ip) eqn:E; [|done]. assert (c ∈ l) as Hin by by apply Hl. by specialize (H c Hin).
  - pose proof (chosen_elem _ _ _ _ H) as [[Hin Hc]%Hl _]. split_and!; [done|done|]. intros c' Hin' Hc'.
    destruct (Z.leb_spec (Size (net_Mask c')) (Size (net_Mask c))); [done|]. exfalso.
    eapply (chosen_best less Hasym _ l c c' H); [by apply Hl|done|]. apply Z.ltb_lt. lia.
Qed.
End SkoopAssert.
