(* ===== verification/SkoopDiagnose.v ===== *)
(** src/pkg/skoop/skoop/diagnose.go, nodemanager/net_node_manager.go,
    model/path.go and utils/queue.go: the diagnosis itself.  A packet is sent
    by its source node and handed from node to node through a queue; the
    links it takes make the path that is shown.

    What a node does with a packet is up to the network plugins, and what a
    node is made from up to the collectors: both are parameters, functions on
    a state of their own.  The theorems say in which order nodes receive, that
    the diagnosis ends if the forwarding does, and that a node is made once. *)

From Stdlib Require Import Ascii.
From S2P Require Import Prelude GoStrings GoResult SkoopCluster SkoopPolicy.
Import SkoopCluster SkoopPolicy.

Module SkoopDiagnose.

(** ** The queue

    A loop that pops an item from the front and appends what it generates to
    the back. *)

(** What handling an item gives: more items, or the end of the loop. *)
Inductive handled (T X : Type) := More (g : list T) | Stop (x : X).
Arguments More {T X} _.
Arguments Stop {T X} _.

Section queue.
Context {S T X : Type} (handle : S -> T -> S * handled T X).

(** [None]: out of fuel.  [Some (s, None)]: the queue is empty. *)
Fixpoint queue_loop (fuel : nat) (s : S) (queue : list T) : option (S * option X) :=
  match queue with
  | [] => Some (s, None)
  | t :: queue' =>
      match fuel with
      | O => None
      | Datatypes.S fuel' =>
          match handle s t with
          | (s', More g) => queue_loop fuel' s' (queue' ++ g)
          | (s', Stop x) => Some (s', Some x)
          end
      end
  end.

(** One level: the items of a list in order. *)
Fixpoint level (s : S) (items : list T) : S * handled T X :=
  match items with
  | [] => (s, More [])
  | t :: items' =>
      match handle s t with
      | (s1, More g) =>
          match level s1 items' with
          | (s2, More g') => (s2, More (g ++ g'))
          | r => r
          end
      | r => r
      end
  end.
(** Level by level, at most [n] levels. *)
Fixpoint by_levels (n : nat) (s : S) (items : list T) : option (S * option X) :=
  match items with
  | [] => Some (s, None)
  | _ =>
      match n with
      | O => None
      | Datatypes.S n' =>
          match level s items with
          | (s', More g) => by_levels n' s' g
          | (s', Stop x) => Some (s', Some x)
          end
      end
  end.

Lemma queue_level (items acc : list T) (s : S) (fuel : nat) :
  queue_loop (length items + fuel) s (items ++ acc) =
  match level s items with
  | (s', More g) => queue_loop fuel s' (acc ++ g)
  | (s', Stop x) => Some (s', Some x)
  end.
Proof.
  revert acc s. induction items as [|t items IH]; intros acc s; cbn [app length Nat.add queue_loop level]; [by rewrite app_nil_r|].
  destruct (handle s t) as [s1 [g|x]]; [|done]. rewrite <- app_assoc, IH. destruct (level s1 items) as [s2 [g'|x]]; [|done].
  by rewrite app_assoc.
Qed.

(** The queue gives what going level by level gives. *)
Lemma queue_by_levels (n : nat) (s : S) (items : list T) (r : S * option X) :
  by_levels n s items = Some r -> ∃ k, ∀ fuel, (k <= fuel)%nat -> queue_loop fuel s items = Some r.
Proof.
  revert s items. induction n as [|n IH]; intros s items; cbn [by_levels].
  { destruct items; [|done]. intros [= <-]. exists O. by intros []. }
  destruct items as [|t items']; [intros [= <-]; exists O; by intros []|]. set (items := t :: items').
  pose proof (queue_level items [] s) as Hq. rewrite app_nil_r in Hq. destruct (level s items) as [s' [g|x]].
  - intros [k Hk]%IH. exists (length items + k)%nat. intros fuel Hf.
    replace fuel with (length items + (fuel - length items))%nat by lia. rewrite Hq. apply Hk. lia.
  - intros [= <-]. exists (length items). intros fuel Hf. replace fuel with (length items + (fuel - length items))%nat by lia. apply Hq.
Qed.
End queue.

(** ** Nodes *)

Inductive NetNodeType := NetNodeTypePod | NetNodeTypeNode | NetNodeTypeExternal | NetNodeTypeGeneric.
Definition NetNodeType_text (t : NetNodeType) : string :=
  match t with NetNodeTypePod => "pod" | NetNodeTypeNode => "node" | NetNodeTypeExternal => "external" | NetNodeTypeGeneric => "generic" end.

Definition toNodeType (typ : EndpointType) : NetNodeType :=
  match typ with EndpointTypePod => NetNodeTypePod | EndpointTypeNode => NetNodeTypeNode | _ => NetNodeTypeGeneric end.
Definition cacheKey (typ : NetNodeType) (id : string) : string := (NetNodeType_text typ ++ "---" ++ id)%string.

Section diagnosis.
(** Nodes and links as the plugins have them, the nodes that a path is made
    of, the state of nodes and collectors, and errors. *)
Context {N L O W E : Type}.

(** [CollectPod] with [CreatePod], [CollectNode] with [CreateNode]; the parent
    manager if there is one, and the generic node. *)
Record makers := MkMakers {
  make_pod : W -> string -> W * result E N;
  make_node : W -> string -> W * result E N;
  parent : option (W -> NetNodeType -> string -> W * result E (option N));
  generic : W -> string -> W * N;
}.
Context (mk : makers).

Record Transmission := MkTransmission { hop_Type : NetNodeType; hop_ID : string; link : L }.

(** What the plugins' nodes do. *)
Inductive sent := Sent (ts : list Transmission) | CannotBuildTransmission (src : O) | SendError (e : E) | SendPanic.
Context (Send : W -> N -> Endpoint -> string -> W * sent).
Context (Receive : W -> N -> L -> W * result E (list Transmission)).
(** The node that a link starts from. *)
Context (Source : W -> L -> O).

(** The manager's cache, with the rest of the state. *)
Record state := MkState { cache : gmap string N; world : W }.

Definition make (w : W) (nodeType : NetNodeType) (id : string) : W * result E (option N) :=
  let some (r : W * result E N) : W * result E (option N) := (r.1, n ← r.2; Ok (Some n)) in
  match nodeType with
  | NetNodeTypePod => some (make_pod mk w id)
  | NetNodeTypeNode => some (make_node mk w id)
  | _ => match parent mk with Some p => p w nodeType id | None => some (let '(w, n) := generic mk w id in (w, Ok n)) end
  end.
Definition GetNetNodeFromID (s : state) (nodeType : NetNodeType) (id : string) : state * result E (option N) :=
  let key := cacheKey nodeType id in
  match cache s !! key with
  | Some n => (s, Ok (Some n))
  | None =>
      let '(w, r) := make (world s) nodeType id in
      match r with
      | Ok (Some n) => (MkState (<[key := n]> (cache s)) w, Ok (Some n))
      | _ => (MkState (cache s) w, r)
      end
  end.

(** How the loop of [Diagnose] ends early: an error of the manager, which is
    returned; one of a node, which is only logged; a panic. *)
Inductive ending := NodeError (e : E) | ReceiveError (e : E) | Panicked.

Definition handle_transmission (s : state) (t : Transmission) : state * handled Transmission ending :=
  match GetNetNodeFromID s (hop_Type t) (hop_ID t) with
  | (s, Err e) => (s, Stop (NodeError e))
  | (s, Ok (Some n)) =>
      let '(w, r) := Receive (world s) n (link t) in
      let s := MkState (cache s) w in
      match r with
      | Ok generated => (s, More generated)
      | Err e => (s, Stop (ReceiveError e))
      | Panic => (s, Stop Panicked)
      end
  | (s, Ok None) | (s, Panic) => (s, Stop Panicked)
  end.

(** [createNode]; the node of an address comes from the cache of addresses. *)
Definition createNode (s : state) (node_of : string -> result E (option Node)) (ep : Endpoint) : state * result E (option N) :=
  match ep_Type ep with
  | EndpointTypeNode =>
      match node_of (ep_IP ep) with
      | Ok (Some node) => GetNetNodeFromID s NetNodeTypeNode (node_Name node)
      | Ok None | Panic => (s, Panic)
      | Err e => (s, Err e)
      end
  | typ => GetNetNodeFromID s (toNodeType typ) (ep_IP ep)
  end.

(** [diagnoseNetworkPolicy]: no suspicions without a handler and on an
    error. *)
Definition diagnoseNetworkPolicy (handler : option (Endpoint -> Endpoint -> string -> result policy_err (list suspicion)))
    (src dst : Endpoint) (protocol : string) : result E (list suspicion) :=
  match handler with
  | None => Ok []
  | Some h => match h src dst protocol with Ok l => Ok l | Err _ => Ok [] | Panic => Panic end
  end.

(** The suspicions, the origin of the path if there is one, and the error. *)
Inductive diagnose_err := ErrNode (e : E) | ErrZeroSize.
Definition diagnosis : Type := list suspicion * option O * option diagnose_err.

Definition Diagnose (fuel : nat) (s : state) (handler : option (Endpoint -> Endpoint -> string -> result policy_err (list suspicion)))
    (node_of : string -> result E (option Node)) (src dst : Endpoint) (protocol : string) : option (state * result Empty_set diagnosis) :=
  match diagnoseNetworkPolicy handler src dst protocol with
  | Panic => Some (s, Panic)
  | Err e => Some (s, Ok ([], None, Some (ErrNode e)))
  | Ok global =>
      match createNode s node_of src with
      | (s, Panic) | (s, Ok None) => Some (s, Panic)
      | (s, Err e) => Some (s, Ok (global, None, Some (ErrNode e)))
      | (s, Ok (Some srcNode)) =>
          let '(w, r) := Send (world s) srcNode dst protocol in
          let s := MkState (cache s) w in
          match r with
          | CannotBuildTransmission n => Some (s, Ok (global, Some n, None))
          | SendError e => Some (s, Ok (global, None, Some (ErrNode e)))
          | SendPanic => Some (s, Panic)
          | Sent [] => Some (s, Ok (global, None, Some ErrZeroSize))
          | Sent (t :: ts) =>
              let graph := Source w (link t) in
              match queue_loop handle_transmission fuel s (t :: ts) with
              | None => None
              | Some (s, None) | Some (s, Some (ReceiveError _)) => Some (s, Ok (global, Some graph, None))
              | Some (s, Some (NodeError e)) => Some (s, Ok (global, Some graph, Some (ErrNode e)))
              | Some (s, Some Panicked) => Some (s, Panic)
              end
          end
      end
  end.
End diagnosis.
Arguments makers : clear implicits.
Arguments Transmission : clear implicits.
Arguments sent : clear implicits.
Arguments state : clear implicits.
Arguments ending : clear implicits.

(** ** The path

    [Links] and [Nodes] walk the links from the origin: [outputs] are the
    outputs of an action, of the origin's own and of the action that a link's
    destination took on it, [None] if the link has no destination yet, a nil
    pointer that is followed.  A link is recorded with its level. *)

Section path.
Context {L : Type} (outputs : option L -> option (list L)).

Definition with_level (n : nat) (ls : list L) : list (L * nat) := (λ l, (l, n)) <$> ls.
Definition take_link (done_ : list (L * nat)) (x : L * nat) : list (L * nat) * handled (L * nat) () :=
  (done_ ++ [x], match outputs (Some x.1) with Some ls => More (with_level (S x.2) ls) | None => Stop () end).
(** What a loop that can panic leaves. *)
Definition loop_result {S : Type} (o : option (S * option ())) : option (result Empty_set S) :=
  match o with Some (s, None) => Some (Ok s) | Some (_, Some _) => Some Panic | None => None end.
Definition Links (fuel : nat) : option (result Empty_set (list (L * nat))) :=
  match outputs None with
  | None => Some Panic
  | Some ls => loop_result (queue_loop take_link fuel [] (with_level 0 ls))
  end.

(** [Nodes], by the ids of the links' ends: each once, in the order seen, the
    origin if there is no link. *)
Context (source_id dest_id : L -> string) (origin_id : string).
Definition visit (nodes : list string) (id : string) : list string := if existsb (String.eqb id) nodes then nodes else nodes ++ [id].
Definition take_nodes (nodes : list string) (x : L * nat) : list string * handled (L * nat) () :=
  match outputs (Some x.1) with
  | Some ls => (visit (visit nodes (source_id x.1)) (dest_id x.1), More (with_level (S x.2) ls))
  | None => (nodes, Stop ())
  end.
Definition Nodes (fuel : nat) : option (result Empty_set (list string)) :=
  match outputs None with
  | None => Some Panic
  | Some ls =>
      match loop_result (queue_loop take_nodes fuel [] (with_level 0 ls)) with
      | Some (Ok []) => Some (Ok [origin_id])
      | r => r
      end
  end.
End path.

(** ** Lemmas *)

Section lemmas.
Context {N L W E : Type} (mk : makers N W E) (Receive : W -> N -> L -> W * result E (list (Transmission L))).
Implicit Types (s : state N W).

Lemma get_cached s s' (ty : NetNodeType) (id : string) (n : N) :
  GetNetNodeFromID mk s ty id = (s', Ok (Some n)) -> cache s' !! cacheKey ty id = Some n.
Proof.
  unfold GetNetNodeFromID. destruct (cache s !! cacheKey ty id) as [n'|] eqn:Ec; [by intros [= <- <-]|].
  destruct (make mk (world s) ty id) as [w [[n'|]|e|]]; try done. intros [= <- <-]. cbn [cache]. by rewrite lookup_insert_eq.
Qed.

Lemma get_grows s (ty : NetNodeType) (id : string) : cache s ⊆ cache (GetNetNodeFromID mk s ty id).1.
Proof.
  unfold GetNetNodeFromID. destruct (cache s !! cacheKey ty id) eqn:Ec; [done|].
  destruct (make mk (world s) ty id) as [w [[n'|]|e|]]; try done. by apply insert_subseteq.
Qed.

Lemma handle_grows s (t : Transmission L) : cache s ⊆ cache (handle_transmission mk Receive s t).1.
Proof.
  unfold handle_transmission. pose proof (get_grows s (hop_Type t) (hop_ID t)) as Hg.
  destruct (GetNetNodeFromID mk s (hop_Type t) (hop_ID t)) as [s' [[n|]|e|]]; try done.
  destruct (Receive (world s') n (link t)) as [w [g|e|]]; done.
Qed.

Lemma loop_grows (fuel : nat) s s' (q : list (Transmission L)) (x : option (ending E)) :
  queue_loop (handle_transmission mk Receive) fuel s q = Some (s', x) -> cache s ⊆ cache s'.
Proof.
  revert s q. induction fuel as [|fuel IH]; intros s [|t q]; cbn [queue_loop]; [by intros [= <- _]|done|by intros [= <- _]|].
  pose proof (handle_grows s t) as Hg. destruct (handle_transmission mk Receive s t) as [s1 [g|e]]; [|by intros [= <- _]].
  intros H%IH. by etrans.
Qed.
End lemmas.

Lemma app_sep_inj (a b c d : string) :
  free_of (Ascii.eqb "-") a -> free_of (Ascii.eqb "-") b -> (a ++ String "-" c)%string = (b ++ String "-" d)%string -> a = b ∧ c = d.
Proof.
  revert b. unfold free_of. induction a as [|x a IH]; intros [|y b] Ha Hb E; cbn [exists_char String.append] in *.
  - by injection E.
  - injection E as <- _. discriminate Hb.
  - injection E as -> _. discriminate Ha.
  - injection E as -> E. apply orb_false_iff in Ha as [_ Ha], Hb as [_ Hb]. destruct (IH b Ha Hb E) as [-> ->]. done.
Qed.

Lemma cacheKey_inj (t t' : NetNodeType) (id id' : string) : cacheKey t id = cacheKey t' id' -> t = t' ∧ id = id'.
Proof.
  unfold cacheKey. intros H. apply (app_sep_inj _ _ (String "-" (String "-" id)) (String "-" (String "-" id'))) in H as [Ht Hid];
    [|by destruct t|by destruct t']. injection Hid as ->. split; [|done]. by destruct t, t'.
Qed.

(** The links at a distance from the origin. *)
Fixpoint links_at {L : Type} (outputs : option L -> list L) (k : nat) : list L :=
  match k with O => outputs None | S k' => links_at outputs k' ≫= λ l, outputs (Some l) end.

Lemma level_links {L : Type} (outputs : option L -> list L) (done_ : list (L * nat)) (k : nat) (ls : list L) :
  level (take_link (Some ∘ outputs)) done_ (with_level k ls) = (done_ ++ with_level k ls, More (with_level (S k) (ls ≫= λ l, outputs (Some l)))).
Proof.
  revert done_. induction ls as [|l ls IH]; intros done_; [by rewrite app_nil_r|].
  change (with_level k (l :: ls)) with ((l, k) :: with_level k ls). cbn [level take_link fst snd]. unfold compose at 1. rewrite IH.
  unfold with_level. by rewrite bind_cons, fmap_app, <- app_assoc.
Qed.

Lemma links_levels {L : Type} (outputs : option L -> list L) (m k : nat) (done_ : list (L * nat)) :
  links_at outputs (k + m) = [] ->
  by_levels (take_link (Some ∘ outputs)) m done_ (with_level k (links_at outputs k)) =
  Some (done_ ++ concat ((λ i, with_level i (links_at outputs i)) <$> seq k m), None).
Proof.
  revert k done_. induction m as [|m IH]; intros k done_ Hm.
  { rewrite Nat.add_0_r in Hm. rewrite Hm. cbn. by rewrite app_nil_r. }
  rewrite <- Nat.add_succ_comm in Hm. cbn [seq]. rewrite fmap_cons. cbn [concat]. rewrite app_assoc.
  destruct (links_at outputs k) as [|l ls] eqn:E.
  - change (with_level k (@nil L)) with (@nil (L * nat)). rewrite app_nil_r. cbn [by_levels].
    assert (links_at outputs (S k) = []) as E' by (cbn [links_at]; by rewrite E).
    pose proof (IH (S k) done_ Hm) as IH'. rewrite E' in IH'. destruct m; exact IH'.
  - rewrite <- E. change (by_levels (take_link (Some ∘ outputs)) (S m) done_ (with_level k (links_at outputs k))) with
      (match with_level k (links_at outputs k) with [] => Some (done_, None) | _ =>
        match level (take_link (Some ∘ outputs)) done_ (with_level k (links_at outputs k)) with
        | (s', More g) => by_levels (take_link (Some ∘ outputs)) m s' g | (s', Stop x) => Some (s', Some x) end end).
    rewrite level_links. rewrite E at 1. cbn [with_level fmap list_fmap]. exact (IH (S k) _ Hm).
Qed.

(** ** Properties *)

(** Breadth first.  A diagnosis whose first node sends something is the
    one that goes level by level: all transmissions of a level are received,
    in order, before any that they generated.  So if the forwarding ends after
    some number of levels, or is stopped by an error, the diagnosis returns
    with enough fuel; an error of a receiving node ends it with the path so far
    and without an error. *)
Theorem diagnose_by_levels {N L O W E : Type} (mk : makers N W E) (Send : W -> N -> Endpoint -> string -> W * sent L O E)
    (Receive : W -> N -> L -> W * result E (list (Transmission L))) (Source : W -> L -> O)
    (handler : option (Endpoint -> Endpoint -> string -> result policy_err (list suspicion))) (node_of : string -> result E (option Node))
    (src dst : Endpoint) (protocol : string) (s s1 s2 : state N W) (global : list suspicion) (n : N) (w : W) (t : Transmission L) (ts : list (Transmission L))
    (levels : nat) (x : option (ending E))
    (Hpolicy : diagnoseNetworkPolicy (E := E) handler src dst protocol = Ok global)
    (Hnode : createNode mk s node_of src = (s1, Ok (Some n)))
    (Hsend : Send (world s1) n dst protocol = (w, Sent (t :: ts)))
    (Hlevels : by_levels (handle_transmission mk Receive) levels (MkState (cache s1) w) (t :: ts) = Some (s2, x)) :
  ∃ k, ∀ fuel, (k <= fuel)%nat ->
    Diagnose mk Send Receive Source fuel s handler node_of src dst protocol = Some (s2,
      match x with
      | None | Some (ReceiveError _) => Ok (global, Some (Source w (link t)), None)
      | Some (NodeError e) => Ok (global, Some (Source w (link t)), Some (ErrNode e))
      | Some Panicked => Panic
      end).
Proof.
  destruct (queue_by_levels _ _ _ _ _ Hlevels) as [k Hk]. exists k. intros fuel Hf. unfold Diagnose.
  rewrite Hpolicy, Hnode, Hsend, (Hk fuel Hf). by destruct x as [[]|].
Qed.

(** The path.  If the links end at some distance from the origin, the
    path lists all of them, the nearer ones first and those of a distance in
    the order of the links before them, each with its distance as its level. *)
Theorem links_breadth_first {L : Type} (outputs : option L -> list L) (n : nat) (Hn : links_at outputs n = []) :
  ∃ k, ∀ fuel, (k <= fuel)%nat ->
    Links (Some ∘ outputs) fuel = Some (Ok (concat ((λ i, with_level i (links_at outputs i)) <$> seq 0 n))).
Proof.
  pose proof (links_levels outputs n 0 [] Hn) as Hl. destruct (queue_by_levels _ _ _ _ _ Hl) as [k Hk]. exists k.
  intros fuel Hf. unfold Links. unfold compose at 1. change (outputs None) with (links_at outputs 0). by rewrite (Hk fuel Hf).
Qed.

(** Nodes are made once.  A node that the manager has returned is the
    node it returns for the same type and id after any part of a diagnosis,
    without making or collecting anything; and different types or ids have
    different nodes in the cache. *)
Theorem node_made_once {N L W E : Type} (mk : makers N W E) (Receive : W -> N -> L -> W * result E (list (Transmission L)))
    (s s1 s2 : state N W) (ty ty' : NetNodeType) (id id' : string) (n : N) (fuel : nat) (q : list (Transmission L)) (x : option (ending E))
    (Hget : GetNetNodeFromID mk s ty id = (s1, Ok (Some n)))
    (Hloop : queue_loop (handle_transmission mk Receive) fuel s1 q = Some (s2, x)) :
  GetNetNodeFromID mk s2 ty id = (s2, Ok (Some n)) ∧ (cacheKey ty id = cacheKey ty' id' -> ty = ty' ∧ id = id').
Proof.
  split; [|apply cacheKey_inj]. apply get_cached in Hget. apply loop_grows in Hloop.
  unfold GetNetNodeFromID. by rewrite (lookup_weaken _ _ _ _ Hget Hloop).
Qed.

(** A packet that two nodes forward to a third: nodes are their names, a link
    is its two ends, and the state records who received. *)
Definition ex_makers : makers string (list string) unit :=
  MkMakers (λ w id, (w, Ok id)) (λ w id, (w, Ok id)) None (λ w id, (w, id)).
Definition ex_trans (a b : string) : Transmission (string * string) := MkTransmission NetNodeTypeNode b (a, b).
Definition ex_send (w : list string) (n : string) (dst : Endpoint) (protocol : string) : list string * sent (string * string) string unit :=
  (w, Sent [ex_trans n "b"; ex_trans n "c"]).
Definition ex_receive (w : list string) (n : string) (l : string * string) : list string * result unit (list (Transmission (string * string))) :=
  (w ++ [l.1 ++ l.2]%string, Ok (if String.eqb n "d" then [] else [ex_trans n "d"])).
Definition ex_src : Endpoint := MkEndpoint "a" EndpointTypePod 4000.
Definition ex_dst : Endpoint := MkEndpoint "d" EndpointTypePod 80.
Definition ex_start : state string (list string) := MkState ∅ [].

Lemma diagnose_by_levels_witness :
  ∃ k s2, (∀ fuel, (k <= fuel)%nat ->
    Diagnose ex_makers ex_send ex_receive (λ _, fst) fuel ex_start None (λ _, Ok None) ex_src ex_dst "tcp" = Some (s2, Ok ([], Some "a"%string, None))) ∧
    world s2 = ["ab"; "ac"; "bd"; "cd"]%string.
Proof.
  destruct (by_levels (handle_transmission ex_makers ex_receive) 2 (MkState {["pod---a"%string := "a"%string]} []) [ex_trans "a" "b"; ex_trans "a" "c"])
    as [[s2 x]|] eqn:E; [|vm_compute in E; discriminate E].
  destruct (diagnose_by_levels ex_makers ex_send ex_receive (λ _, fst) None (λ _, Ok None) ex_src ex_dst "tcp" ex_start
    (MkState {["pod---a"%string := "a"%string]} []) s2 [] "a"%string [] (ex_trans "a" "b") [ex_trans "a" "c"] 2 x) as [k Hk];
    [reflexivity|reflexivity|reflexivity|exact E|].
  exists k, s2. assert (x = None ∧ world s2 = ["ab"; "ac"; "bd"; "cd"]%string) as [-> Hw].
  { vm_compute in E. injection E as <- <-. split; reflexivity. }
  split; [exact Hk|exact Hw].
Defined.

Definition ex_outputs (l : option string) : list string :=
  match l with None => ["ab"; "ac"]%string | Some "ab"%string => ["bd"%string] | Some "ac"%string => ["cd"%string] | _ => [] end.
Lemma links_breadth_first_witness :
  ∃ k, ∀ fuel, (k <= fuel)%nat -> Links (Some ∘ ex_outputs) fuel = Some (Ok [("ab", 0%nat); ("ac", 0%nat); ("bd", 1%nat); ("cd", 1%nat)]%string).
Proof. apply (links_breadth_first ex_outputs 2). reflexivity. Defined.

Lemma node_made_once_witness :
  ∃ s1 s2, GetNetNodeFromID ex_makers ex_start NetNodeTypeNode "b" = (s1, Ok (Some "b"%string)) ∧
    GetNetNodeFromID ex_makers s2 NetNodeTypeNode "b" = (s2, Ok (Some "b"%string)) ∧ world s2 = ["ab"; "bd"]%string.
Proof.
  destruct (GetNetNodeFromID ex_makers ex_start NetNodeTypeNode "b") as [s1 r] eqn:E.
  assert (r = Ok (Some "b"%string)) as -> by (vm_compute in E; by injection E).
  destruct (queue_loop (handle_transmission ex_makers ex_receive) 5 s1 [ex_trans "a" "b"]) as [[s2 x]|] eqn:El.
  2:{ vm_compute in E. injection E as <-. vm_compute in El. discriminate El. }
  exists s1, s2. split; [done|]. split.
  - exact (proj1 (node_made_once ex_makers ex_receive ex_start s1 s2 NetNodeTypeNode NetNodeTypeNode "b" "b" "b"%string 5 [ex_trans "a" "b"] x E El)).
  - vm_compute in E. injection E as <-. vm_compute in El. injection El as <- <-. reflexivity.
Defined.
End SkoopDiagnose.
