(* ===== verification/SkoopNode.v ===== *)
(** The nodes of a diagnosis: src/pkg/skoop/model/netnode.go, model/action.go,
    model/path.go (links), plugin/base.go, plugin/simple.go, assertions/k8s.go
    and the data of k8s/node.go and netstack/netns.go.

    Nodes and links are shared and changed while a packet is followed: they
    live in a heap, and a pointer is an index.  A method is a function on the
    state of the diagnosis that returns an error, a value, or panics
    ([M]); what it did before an error stays. *)

From S2P Require Import Prelude GoStrings GoNet GoResult SkoopRoute SkoopIptables SkoopCluster SkoopService SkoopPolicy SkoopAssert SkoopDiagnose.
Import SkoopRoute SkoopIptables SkoopCluster SkoopService SkoopPolicy SkoopAssert SkoopDiagnose.

Module SkoopNode.

Abbreviation suspicion := SkoopAssert.suspicion.

(** ** Nodes, links and actions *)

Inductive LinkType := LinkExternal | LinkInfra | LinkVeth | LinkIPVlan | LinkLocal.
#[global] Instance LinkType_eq_dec : EqDecision LinkType.
Proof. solve_decision. Defined.

Inductive LinkAttribute := SimpleLinkAttribute (iface ip : string) | VEthLinkAttribute (iface ip : string) (peerIndex : Z).

Record Link := MkLink {
  l_Type : LinkType; l_Source : nat; l_Destination : option nat; l_Packet : Packet;
  l_SourceAttribute : LinkAttribute; l_DestinationAttribute : option LinkAttribute;
}.

Inductive ActionType := ActionTypeService | ActionTypeServe | ActionTypeForward | ActionTypeSend.
Record Action := MkAction { a_Type : ActionType; a_Input : option nat; a_Outputs : list nat }.
Definition ActionForward (input : nat) (outputs : list nat) : Action := MkAction ActionTypeForward (Some input) outputs.
Definition ActionSend (outputs : list nat) : Action := MkAction ActionTypeSend None outputs.
Definition ActionServe (input : nat) : Action := MkAction ActionTypeServe (Some input) [].
Definition ActionService (input : option nat) (outputs : list nat) : Action := MkAction ActionTypeService input outputs.

Record NetNode := MkNetNode {
  nn_Type : NetNodeType; nn_ID : string; nn_Actions : gmap nat Action; nn_Suspicions : list suspicion; nn_initiative : option Action;
}.
Definition NewNetNode (id : string) (nodeType : NetNodeType) : NetNode := MkNetNode nodeType id ∅ [] None.
Definition DoAction (action : Action) (n : NetNode) : NetNode :=
  match a_Input action with
  | None => MkNetNode (nn_Type n) (nn_ID n) (nn_Actions n) (nn_Suspicions n) (Some action)
  | Some i => MkNetNode (nn_Type n) (nn_ID n) (<[i := action]> (nn_Actions n)) (nn_Suspicions n) (nn_initiative n)
  end.
Definition ActionOf (n : NetNode) (input : option nat) : option Action :=
  match input with None => nn_initiative n | Some i => nn_Actions n !! i end.
Definition AddSuspicions (ss : list suspicion) (n : NetNode) : NetNode :=
  MkNetNode (nn_Type n) (nn_ID n) (nn_Actions n) (nn_Suspicions n ++ ss) (nn_initiative n).
Definition level_number (l : SuspicionLevel) : nat :=
  match l with SuspicionLevelInfo => 0 | SuspicionLevelWarning => 1 | SuspicionLevelCritical => 2 | SuspicionLevelFatal => 3 end.
Definition MaxSuspicionLevel (n : NetNode) : nat := foldr Nat.max 0%nat (level_number ∘ fst <$> nn_Suspicions n).

(** ** Namespaces *)

(** [NetNS] with its raw data; the neighbours are those of the interfaces. *)
Record NetNS := MkNetNS {
  ns_Key : string; ns_Interfaces : list Interface; ns_Router : SimulateRouter; ns_RuleInfo : list Rule; ns_SysctlInfo : gmap string string;
  ns_ConnStats : list ConnStat; ns_IPTables : IPTables; ns_Netfilter : SimulateNetfilter; ns_IPVS : option IPVS;
}.
(** [k8s.Pod] and [k8s.NodeInfo]; of the other namespaces on a node the key and
    the interfaces are read. *)
Record PodInfo := MkPodInfo { kp_NetNS : NetNS; kp_Namespace : string; kp_PodName : string; kp_NodeName : string }.
Record NodeInfo := MkNodeInfo { kn_NetNS : NetNS; kn_SubNetNSInfo : list (string * list Interface); kn_NodeName : string }.

(** ** The state and the monad *)

Inductive plugin_err :=
  | RouteError (e : route_err) | CacheError | CannotBuild (n : nat) | NoSuchPod | NoSuchNode | BadCIDR | NoAnnotation
  | WrongVTEP | NeighError | InfraError | UnexpectedLink | NoHostInterface | CollectError
  | NoEnd (* of the model: the walk through the tables has not ended *).

(** [plugin] is what a network plugin keeps; [attempts] counts the attempts to
    read the cluster. *)
Record state_of (P : Type) := MkState { nodes : list NetNode; links : list Link; ipcache : IPCache; attempts : nat; plugin : P }.
Arguments MkState {P} _ _ _ _ _.
Arguments nodes {P} _.
Arguments links {P} _.
Arguments ipcache {P} _.
Arguments attempts {P} _.
Arguments plugin {P} _.

Definition M (P A : Type) : Type := state_of P -> state_of P * result plugin_err A.

#[global] Instance M_ret {P : Type} : MRet (M P) := λ A a s, (s, Ok a).
#[global] Instance M_bind {P : Type} : MBind (M P) := λ A B f m s,
  match m s with (s, Ok a) => f a s | (s, Err e) => (s, Err e) | (s, Panic) => (s, Panic) end.

Section operations.
Context {P : Type}.

Definition fail {A : Type} (e : plugin_err) : M P A := λ s, (s, Err e).
Definition lift {A : Type} (r : result route_err A) : M P A :=
  λ s, (s, match r with Ok a => Ok a | Err e => Err (RouteError e) | Panic => Panic end).
Definition follow {A : Type} (p : option A) : M P A := λ s, (s, deref p).

Definition set_nodes (f : list NetNode -> list NetNode) (s : state_of P) : state_of P := MkState (f (nodes s)) (links s) (ipcache s) (attempts s) (plugin s).
Definition set_links (f : list Link -> list Link) (s : state_of P) : state_of P := MkState (nodes s) (f (links s)) (ipcache s) (attempts s) (plugin s).
Definition set_plugin (p : P) (s : state_of P) : state_of P := MkState (nodes s) (links s) (ipcache s) (attempts s) p.

Definition new_node (n : NetNode) : M P nat := λ s, (set_nodes (λ l, l ++ [n]) s, Ok (length (nodes s))).
Definition on_node (n : nat) (f : NetNode -> NetNode) : M P () := λ s, (set_nodes (alter f n) s, Ok ()).
Definition suspect (n : nat) (ss : list suspicion) : M P () := on_node n (AddSuspicions ss).
Definition act (n : nat) (a : Action) : M P () := on_node n (DoAction a).

Definition new_link (l : Link) : M P nat := λ s, (set_links (λ ls, ls ++ [l]) s, Ok (length (links s))).
Definition get_link (i : nat) : M P Link := λ s, (s, deref (links s !! i)).
Definition set_Destination (i n : nat) : M P () :=
  λ s, (set_links (alter (λ l, MkLink (l_Type l) (l_Source l) (Some n) (l_Packet l) (l_SourceAttribute l) (l_DestinationAttribute l)) i) s, Ok ()).
Definition set_DestinationAttribute (i : nat) (a : LinkAttribute) : M P () :=
  λ s, (set_links (alter (λ l, MkLink (l_Type l) (l_Source l) (l_Destination l) (l_Packet l) (l_SourceAttribute l) (Some a)) i) s, Ok ()).

Fixpoint link_packets (ls : list nat) : M P (list Packet) :=
  match ls with [] => mret [] | i :: ls' => l ← get_link i; ps ← link_packets ls'; mret (l_Packet l :: ps) end.

(** A check that can fail or panic, and one of netfilter. *)
Definition check (n : nat) (r : result route_err (list suspicion)) : M P () := ss ← lift r; suspect n ss.
Definition check_report (n : nat) (r : report) : M P () :=
  match r with
  | Some (Ok ss) => suspect n ss
  | Some (Err e) => match e with end
  | Some Panic => λ s, (s, Panic)
  | None => fail NoEnd
  end.

(** The cluster: [api] are the answers that attempts to read it get. *)
Definition from_cluster {A : Type} (api : nat -> answers) (get : IPCache -> answers -> IPCache * option A) : M P A := λ s,
  let '(c, o) := get (ipcache s) (api (attempts s)) in
  (MkState (nodes s) (links s) c (if built (ipcache s) then attempts s else S (attempts s)) (plugin s), match o with Some a => Ok a | None => Err CacheError end).
End operations.

(** ** assertions/k8s.go *)

Definition AssertNode (node : Node) : list suspicion :=
  match List.find (λ c, String.eqb c.1 "Ready") (node_Conditions node) with
  | Some c => AssertTrue (String.eqb c.2 "True") SuspicionLevelFatal (NodeNotReady c.2)
  | None => []
  end.
Definition AssertPod (pod : Pod) : list suspicion :=
  pod_Containers pod ≫= λ c, AssertTrue c.2 SuspicionLevelWarning (ContainerNotReady c.1).

(** What the checks of devices expect: the zero value but for these. *)
Definition expect_device (mtu state : Z) : Interface := MkInterface EmptyString 0 mtu EmptyString [] state ∅ [] [] 0 0.

Section plugins.
Context {P : Type} `{MapOrder} (api : nat -> answers).
Abbreviation Trans := (SkoopDiagnose.Transmission nat).
Implicit Types (upstream : option nat) (dst : Endpoint) (protocol : string).

(** ** plugin/base.go *)

(** What a network plugin says a host does with a packet for each kind of
    destination; a pointer to an object can be nil. *)
Class SimplePluginNode := {
  ToPod : option nat -> Endpoint -> string -> option Pod -> M P (list Trans);
  ToHost : option nat -> Endpoint -> string -> option Node -> M P (list Trans);
  ToService : option nat -> Endpoint -> string -> option Service -> M P (list Trans);
  ToExternal : option nat -> Endpoint -> string -> M P (list Trans);
  Serve : nat -> Endpoint -> string -> M P (list Trans);
}.

Definition Base_Send (b : SimplePluginNode) dst protocol : M P (list Trans) :=
  ipType ← from_cluster api (λ c a, GetIPType c a (ep_IP dst));
  match ipType with
  | EndpointTypePod => pod ← from_cluster api (λ c a, GetPodFromIP c a (ep_IP dst)); ToPod None dst protocol pod
  | EndpointTypeNode => host ← from_cluster api (λ c a, GetNodeFromIP c a (ep_IP dst)); ToHost None dst protocol host
  | EndpointTypeService | EndpointTypeLoadbalancer =>
      svc ← from_cluster api (λ c a, GetServiceFromIP c a (ep_IP dst)); ToService None dst protocol svc
  | EndpointTypeExternal => ToExternal None dst protocol
  end.

(** [id] is the name of the node, [netNode] its node in the graph. *)
Definition Base_Receive (netNode : nat) (id : string) (b : SimplePluginNode) (upstream : nat) : M P (list Trans) :=
  set_Destination upstream netNode;;
  l ← get_link upstream;
  let dstIP := IP_String (Dst (l_Packet l)) in
  dstType ← from_cluster api (λ c a, GetIPType c a dstIP);
  let dst := MkEndpoint dstIP dstType (Dport (l_Packet l)) in
  let protocol := Protocol (l_Packet l) in
  match dstType with
  | EndpointTypePod => pod ← from_cluster api (λ c a, GetPodFromIP c a (ep_IP dst)); ToPod (Some upstream) dst protocol pod
  | EndpointTypeNode =>
      host ← from_cluster api (λ c a, GetNodeFromIP c a (ep_IP dst));
      h ← follow host;
      if String.eqb (node_Name h) id then
        svc ← from_cluster api (λ c a, GetServiceFromNodePort c a (ep_Port dst) protocol);
        match svc with
        | Some _ => ToService (Some upstream) dst protocol svc
        | None => Serve upstream dst protocol
        end
      else ToHost (Some upstream) dst protocol host
  | EndpointTypeService | EndpointTypeLoadbalancer =>
      svc ← from_cluster api (λ c a, GetServiceFromIP c a (ep_IP dst)); ToService (Some upstream) dst protocol svc
  | EndpointTypeExternal => ToExternal (Some upstream) dst protocol
  end.

(** [route]: what is expected of the routes to some networks. *)
Definition route : Type := gmap string RouteAssertion.
Definition no_assertion : RouteAssertion := MkRouteAssertion None None None None None None None.
Definition AddRoute (r : route) (cidr dev : string) (gateway : option IP) (scope : Z) : option route :=
  match ParseCIDR cidr with
  | None => None
  | Some _ => Some (<[cidr := MkRouteAssertion (Some dev) (Some scope) None None None gateway None]> r)
  end.
(** A network that cannot be read is a nil pointer, which [Contains] follows.
    What is found is looked up under the text of the network; without an entry
    there the expectation is the zero value. *)
Definition expected_route (r : route) (ip : IP) : result route_err (option RouteAssertion) :=
  match mapM (λ kv, ParseCIDR kv.1) (map_to_list r) with
  | None => Panic
  | Some cidrs => Ok ((λ n, default no_assertion (r !! IPNet_String n)) <$> smallestMatchingCIDR ip cidrs)
  end.
Definition Assert_route (n : nat) (router : SimulateRouter) (r : route) (pkt : Packet) : M P () :=
  e ← lift (expected_route r (Dst pkt));
  match e with
  | None => mret ()
  | Some e => check n (AssertRoute router e pkt EmptyString EmptyString)
  end.

(** ** plugin/simple.go *)

Definition NudIncomplete : Z := 0x01.
Definition NudFailed : Z := 0x20.

Record simpleVEthPod := MkVEthPod { sp_netNode : nat; sp_podInfo : PodInfo; sp_mtu : Z; sp_iface : string }.

Definition newSimpleVEthPod (pod : PodInfo) (mtu : Z) (iface : string) : M P simpleVEthPod :=
  netNode ← new_node (NewNetNode (kp_Namespace pod ++ "/" ++ kp_PodName pod)%string NetNodeTypePod);
  mret (MkVEthPod netNode pod mtu iface).

Definition pod_assert (p : simpleVEthPod) : M P () :=
  let ns := kp_NetNS (sp_podInfo p) in let n := sp_netNode p in
  pod ← from_cluster api (λ c a, GetPodFromName c a (kp_Namespace (sp_podInfo p)) (kp_PodName (sp_podInfo p)));
  pod ← follow pod;
  suspect n (AssertPod pod);;
  suspect n (AssertDefaultRule (ns_RuleInfo ns));;
  suspect n (AssertNoPolicyRoute (ns_RuleInfo ns));;
  suspect n (AssertNoIPTables (ns_IPTables ns));;
  suspect n (AssertDefaultAccept (ns_IPTables ns));;
  check n (AssertNetDevice (ns_Interfaces ns) "eth0" (expect_device (sp_mtu p) LinkUP));;
  check n (AssertNetDevice (ns_Interfaces ns) "lo" (expect_device 0 LinkUP)).

Definition eth0_route : RouteAssertion := MkRouteAssertion (Some "eth0"%string) None None None None None None.
Definition parse_ip (s : string) : IP := default [] (ParseIP s).
Definition neigh_failed (o : option Neigh) : bool :=
  match o with Some n => (n_State n =? NudFailed) || (n_State n =? NudIncomplete) | None => false end.
Definition with_Src (p : Packet) (src : IP) : Packet :=
  let '(MkPacket _ sp d dp proto e m) := p in MkPacket src sp d dp proto e m.
(** The packet that a node makes for a destination. *)
Definition first_packet dst protocol : Packet := MkPacket [] 0 (parse_ip (ep_IP dst)) (ep_Port dst) protocol None 0.

Definition Pod_Send (p : simpleVEthPod) dst protocol : M P (list Trans) :=
  pod_assert p;;
  let ns := kp_NetNS (sp_podInfo p) in let n := sp_netNode p in
  let pkt := first_packet dst protocol in
  match RouteSrc (ns_Router ns) pkt EmptyString EmptyString with
  | Panic => λ s, (s, Panic)
  | Err e =>
      (match e with ErrNoRouteToHost => suspect n [(SuspicionLevelFatal, NoRouteToHost)] | _ => mret () end);;
      fail (CannotBuild n)
  | Ok (addr, dstRoute) =>
      suspect n (AssertTrue (negb (neigh_failed (ProbeRouteNeigh (ns_Interfaces ns) dstRoute (Dst pkt)))) SuspicionLevelCritical (ArpFailed (r_Gw dstRoute)));;
      let pkt := with_Src pkt (parse_ip addr) in
      let peer := match find_name (ns_Interfaces ns) "eth0" with Some i => if_PeerIndex i | None => 0 end in
      l ← new_link (MkLink LinkVeth n None pkt (VEthLinkAttribute "eth0" addr peer) None);
      check n (AssertRoute (ns_Router ns) eth0_route pkt EmptyString EmptyString);;
      act n (ActionSend [l]);;
      mret [MkTransmission NetNodeTypeNode (kp_NodeName (sp_podInfo p)) l]
  end.

Definition Pod_Receive (p : simpleVEthPod) (upstream : nat) : M P (list Trans) :=
  let ns := kp_NetNS (sp_podInfo p) in let n := sp_netNode p in
  l ← get_link upstream;
  if bool_decide (l_Type l ≠ LinkVeth) then fail UnexpectedLink else
  set_Destination upstream n;;
  set_DestinationAttribute upstream (SimpleLinkAttribute "eth0" EmptyString);;
  let pkt := l_Packet l in
  pod_assert p;;
  check n (AssertRoute (ns_Router ns) eth0_route (ack pkt) EmptyString EmptyString);;
  suspect n (AssertListen (ns_ConnStats ns) (Dst pkt) (Dport pkt) (Protocol pkt));;
  act n (ActionServe upstream);;
  mret [].

Definition Generic_Send (n : nat) dst protocol : M P (list Trans) :=
  suspect n [(SuspicionLevelFatal, UnsupportedSource)];; fail (CannotBuild n).
Definition Generic_Receive (n : nat) (upstream : nat) : M P (list Trans) :=
  set_Destination upstream n;; act n (ActionServe upstream);; mret [].
End plugins.
Arguments SimplePluginNode : clear implicits.
End SkoopNode.
