(* ===== verification/SkoopCollect.v ===== *)
(** src/pkg/skoop/collector/manager/manager.go: from the dumps that collector
    pods make on nodes to the data of pods and nodes, with [GetOSFromNode] of
    utils/k8s.go and the records of k8s/node.go and netstack/netns.go.

    Running a collector and reading its output is a parameter.  Everything a
    dump has is built at once, and a build that fails in the middle keeps what
    it has made. *)

From S2P Require Import Prelude GoStrings GoNet GoResult SkoopRoute SkoopIptables SkoopXml SkoopCluster SkoopService SkoopAssert SkoopNode.
Import SkoopRoute SkoopIptables SkoopXml SkoopCluster SkoopService SkoopAssert SkoopNode.

Module SkoopCollect.

(** ** Dumps *)

Record NetNSInfo := MkNetNSInfo {
  i_Netns : string; i_Key : string; i_Interfaces : list Interface; i_SysctlInfo : gmap string string; i_RouteInfo : list Route_; i_RuleInfo : list Rule;
  i_IptablesInfo : string; i_IpsetInfo : list IPSet; i_IPVSInfo : IPVS; i_ConnStats : list ConnStat;
}.
Record PodNetInfo := MkPodNetInfo { pn_PodName : string; pn_PodNamespace : string; pn_Netns : string; pn_NetworkMode : string }.
Record NodeNetworkStackDump := MkDump { d_Pods : list PodNetInfo; d_Netns : list NetNSInfo }.

Definition hostnsKey : string := "/proc/1/ns/net".

Definition GetOSFromNode (node : Node) : string :=
  match node_Labels node !! "kubernetes.io/os"%string with
  | Some os => os
  | None => default EmptyString (node_Labels node !! "beta.kubernetes.io/os"%string)
  end.

(** ** The manager *)

Record manager := MkManager {
  m_cache : gmap string NodeNetworkStackDump; m_nodeCache : gmap string NodeInfo; m_podCache : gmap string PodInfo;
}.
Definition pod_key (namespace name : string) : string := (namespace ++ "/" ++ name)%string.

Section manager.
(** Reading XML, and what a collector on a node gives. *)
Context (ReadFromString : string -> option (option Element)) (collector : string -> option NodeNetworkStackDump).

(** A namespace.  The router sorts the slice of rules that it is given, which
    is that of the raw data. *)
Definition build_ns (info : NetNSInfo) : result plugin_err NetNS :=
  match NewSimulateRouter (i_RuleInfo info) (i_RouteInfo info) (i_Interfaces info) with
  | Ok router =>
      let ipt := ParseIPTables ReadFromString (i_IptablesInfo info) in
      let nf := MkNetfilter ipt (MkContext (Some (NewIPSetManager (i_IpsetInfo info))) (Some router)) in
      Ok (MkNetNS (i_Key info) (i_Interfaces info) router (sortRule (i_RuleInfo info)) (i_SysctlInfo info) (i_ConnStats info) ipt nf (Some (i_IPVSInfo info)))
  | Err e => Err (RouteError e)
  | Panic => Panic
  end.

Definition netnsMap (d : NodeNetworkStackDump) : gmap string NetNSInfo := foldl (λ m i, <[i_Netns i := i]> m) ∅ (d_Netns d).

(** The namespace of a pod's entry. *)
Definition pod_ns (host : NetNSInfo) (d : NodeNetworkStackDump) (p : PodNetInfo) : option NetNSInfo :=
  if String.eqb (pn_NetworkMode p) "host" then Some host else netnsMap d !! pn_Netns p.
Definition build_pod (host : NetNSInfo) (d : NodeNetworkStackDump) (nodeName : string) (p : PodNetInfo) : result plugin_err PodInfo :=
  match pod_ns host d p with
  | None => Err CollectError
  | Some info => ns ← build_ns info; Ok (MkPodInfo ns (pn_PodNamespace p) (pn_PodName p) nodeName)
  end.
Fixpoint build_pods (m : manager) (host : NetNSInfo) (d : NodeNetworkStackDump) (nodeName : string) (ps : list PodNetInfo) : manager * result plugin_err () :=
  match ps with
  | [] => (m, Ok ())
  | p :: ps' =>
      match build_pod host d nodeName p with
      | Ok pod => build_pods (MkManager (m_cache m) (m_nodeCache m) (<[pod_key (pn_PodNamespace p) (pn_PodName p) := pod]> (m_podCache m))) host d nodeName ps'
      | Err e => (m, Err e)
      | Panic => (m, Panic)
      end
  end.
Definition collectNodeStackDump (m : manager) (nodeName : string) : manager * option NodeNetworkStackDump :=
  match m_cache m !! nodeName with
  | Some d => (m, Some d)
  | None =>
      match collector nodeName with
      | Some d => (MkManager (<[nodeName := d]> (m_cache m)) (m_nodeCache m) (m_podCache m), Some d)
      | None => (m, None)
      end
  end.
Definition buildCache (m : manager) (nodeName : string) : manager * result plugin_err () :=
  match collectNodeStackDump m nodeName with
  | (m, None) => (m, Err CollectError)
  | (m, Some d) =>
      match netnsMap d !! hostnsKey with
      | None => (m, Err CollectError)
      | Some host =>
          match build_ns host with
          | Ok ns =>
              let info := MkNodeInfo ns ((λ i, (i_Key i, i_Interfaces i)) <$> d_Netns d) nodeName in
              build_pods (MkManager (m_cache m) (<[nodeName := info]> (m_nodeCache m)) (m_podCache m)) host d nodeName (d_Pods d)
          | Err e => (m, Err e)
          | Panic => (m, Panic)
          end
      end
  end.

(** The manager in the state of a diagnosis. *)
Context {P : Type} `{MapOrder} (api : nat -> answers) (get : P -> manager) (put : manager -> P -> P).

Definition run_build (nodeName : string) : M P () := λ s,
  let '(m, r) := buildCache (get (plugin s)) nodeName in (set_plugin (put m (plugin s)) s, r).
Definition cached_node (nodeName : string) : M P (option NodeInfo) := λ s, (s, Ok (m_nodeCache (get (plugin s)) !! nodeName)).
Definition cached_pod (key : string) : M P (option PodInfo) := λ s, (s, Ok (m_podCache (get (plugin s)) !! key)).
Definition or_fail {A : Type} (o : option A) : M P A := match o with Some a => mret a | None => fail CollectError end.

Definition CollectNode (nodename : string) : M P NodeInfo :=
  o ← cached_node nodename;
  match o with
  | Some info => mret info
  | None =>
      node ← from_cluster api (λ c a, GetNodeFromName c a nodename);
      node ← follow node;
      if String.eqb (GetOSFromNode node) "linux" then
        run_build nodename;; o ← cached_node nodename; or_fail o
      else fail CollectError
  end.
(** A pod that the cluster does not have is a nil pointer without an error. *)
Definition CollectPod (namespace name : string) : M P (option PodInfo) :=
  let key := pod_key namespace name in
  o ← cached_pod key;
  match o with
  | Some info => mret (Some info)
  | None =>
      pod ← from_cluster api (λ c a, GetPodFromName c a namespace name);
      match pod with
      | None => mret None
      | Some pod => run_build (pod_NodeName pod);; o ← cached_pod key; info ← or_fail o; mret (Some info)
      end
  end.

(** ** What a dump gives *)

Definition ok_of {A : Type} (r : result plugin_err A) : option A := match r with Ok a => Some a | _ => None end.
Definition entry_key (p : PodNetInfo) : string := pod_key (pn_PodNamespace p) (pn_PodName p).

(** The data of the node, and of a pod: its last entry counts. *)
Definition host_info (d : NodeNetworkStackDump) (nodeName : string) : option NodeInfo :=
  host ← netnsMap d !! hostnsKey; ns ← ok_of (build_ns host); Some (MkNodeInfo ns ((λ i, (i_Key i, i_Interfaces i)) <$> d_Netns d) nodeName).
Definition pod_info (d : NodeNetworkStackDump) (nodeName key : string) : option PodInfo :=
  host ← netnsMap d !! hostnsKey; p ← List.find (λ p, String.eqb (entry_key p) key) (rev (d_Pods d)); ok_of (build_pod host d nodeName p).
(** There is a namespace for the node and for every pod. *)
Definition complete (d : NodeNetworkStackDump) (nodeName : string) : Prop :=
  ∃ host ns, netnsMap d !! hostnsKey = Some host ∧ build_ns host = Ok ns ∧ Forall (λ p, is_Some (ok_of (build_pod host d nodeName p))) (d_Pods d).

Lemma find_app {A : Type} (f : A -> bool) (l k : list A) : List.find f (l ++ k) = match List.find f l with Some a => Some a | None => List.find f k end.
Proof. induction l as [|x l IH]; [done|]. cbn. by destruct (f x). Qed.

Lemma build_pods_exact (m : manager) (host : NetNSInfo) (d : NodeNetworkStackDump) (nodeName : string) (ps : list PodNetInfo) :
  Forall (λ p, is_Some (ok_of (build_pod host d nodeName p))) ps ->
  ∃ m', build_pods m host d nodeName ps = (m', Ok ()) ∧ m_cache m' = m_cache m ∧ m_nodeCache m' = m_nodeCache m ∧
    ∀ key, m_podCache m' !! key =
      match List.find (λ p, String.eqb (entry_key p) key) (rev ps) with Some p => ok_of (build_pod host d nodeName p) | None => m_podCache m !! key end.
Proof.
  intros Hps. revert m. induction Hps as [|p ps [pod Hp] Hps IH]; intros m; [by exists m|]. cbn [build_pods rev].
  destruct (build_pod host d nodeName p) as [x|e|] eqn:Eb; [|done|done]. injection Hp as ->.
  destruct (IH (MkManager (m_cache m) (m_nodeCache m) (<[entry_key p := pod]> (m_podCache m)))) as (m' & E & Hc & Hn & Hk).
  exists m'. split; [exact E|]. split; [done|]. split; [done|]. intros key. rewrite Hk, find_app. cbn [m_podCache List.find].
  destruct (List.find _ (rev ps)) as [q|]; [done|]. destruct (String.eqb_spec (entry_key p) key) as [->|Hne].
  - by rewrite lookup_insert_eq, Eb.
  - by rewrite lookup_insert_ne.
Qed.

(** Collecting a node that was not collected yet: the dump is kept, the
    node has the host's namespace, and every pod of the dump the one its last
    entry names; other pods and nodes are unchanged. *)
Theorem buildCache_exact (m : manager) (nodeName : string) (d : NodeNetworkStackDump) :
  m_cache m !! nodeName = None -> collector nodeName = Some d -> complete d nodeName ->
  ∃ m' info, buildCache m nodeName = (m', Ok ()) ∧ host_info d nodeName = Some info ∧
    m_cache m' = <[nodeName := d]> (m_cache m) ∧ m_nodeCache m' = <[nodeName := info]> (m_nodeCache m) ∧
    ∀ key, m_podCache m' !! key = match pod_info d nodeName key with Some pod => Some pod | None => m_podCache m !! key end.
Proof.
  intros Hm Hd (host & ns & Hh & Hb & Hps). unfold buildCache, collectNodeStackDump. rewrite Hm, Hd, Hh, Hb.
  set (info := MkNodeInfo ns ((λ i, (i_Key i, i_Interfaces i)) <$> d_Netns d) nodeName).
  destruct (build_pods_exact (MkManager (<[nodeName := d]> (m_cache m)) (<[nodeName := info]> (m_nodeCache m)) (m_podCache m)) host d nodeName (d_Pods d) Hps)
    as (m' & E & Hc & Hn & Hk).
  exists m', info. split; [exact E|]. split; [unfold host_info; rewrite Hh; cbn [mbind option_bind]; by rewrite Hb|].
  split; [done|]. split; [done|]. intros key. rewrite Hk. unfold pod_info. rewrite Hh. cbn [mbind option_bind m_podCache].
  destruct (List.find _ (rev (d_Pods d))) as [p|] eqn:Ef; [|done]. cbn [mbind option_bind].
  apply List.find_some in Ef as [Hin%in_rev%list_elem_of_In _]. rewrite Forall_forall in Hps. by destruct (Hps p Hin) as [pod ->].
Qed.
End manager.
End SkoopCollect.
