(* ===== verification/SkoopFlannel.v ===== *)
(** src/pkg/skoop/plugin/flannel.go: what the diagnosis command takes a node of
    a Flannel network to do with a packet, with [LookupDefaultIfaceName] of
    netstack/link.go and [ConvertNICNameInSysctls] of utils/ip.go.

    A host knows the routes it expects, finds out to which node the address of
    a pod leads and by which backend (VXLAN, host gateway), checks its
    namespace against that, and hands the packet on.  The state of the
    plugin is the cache of node data that each host has, with the collector's.
    At the end the whole diagnosis is put together from manager, collector,
    hosts and pods. *)

From Stdlib Require Import Ascii.
From S2P Require Import Prelude GoStrings GoNet GoResult SkoopRoute SkoopIptables SkoopXml SkoopCluster SkoopService SkoopPolicy SkoopAssert SkoopDiagnose SkoopNode SkoopCollect.
Import SkoopRoute SkoopIptables SkoopXml SkoopCluster SkoopService SkoopPolicy SkoopAssert SkoopDiagnose SkoopNode SkoopCollect.

Module SkoopFlannel.

(** ** Options *)

(** [FlannelBackendType]: a text. *)
Definition FlannelBackendTypeHostGW : string := "host-gw".
Definition FlannelBackendTypeVxlan : string := "vxlan".
Definition FlannelBackendTypeAlloc : string := "alloc".
Definition flannelVxlanInterface : string := "flannel.1".

Record FlannelConfig := MkConfig { c_BackendType : string; c_Bridge : string; c_PodMTU : Z; c_IPMasq : bool; c_Interface : string }.
Definition Validate_config (f : FlannelConfig) : bool :=
  String.eqb (c_BackendType f) EmptyString || existsb (String.eqb (c_BackendType f)) [FlannelBackendTypeHostGW; FlannelBackendTypeVxlan; FlannelBackendTypeAlloc].

(** [getFlannelCNIMode] on the configuration map, if there is one. *)
Definition getFlannelCNIMode (cm : option (gmap string string)) : string :=
  match cm with
  | None => FlannelBackendTypeHostGW
  | Some data =>
      let conf := default EmptyString (data !! "net-conf.json"%string) in
      if ContainsText "vxlan" conf then FlannelBackendTypeVxlan
      else if ContainsText "host-gw" conf then FlannelBackendTypeHostGW
      else if ContainsText "alloc" conf then FlannelBackendTypeAlloc
      else FlannelBackendTypeHostGW
  end.

Record flannelHostOptions := MkOptions {
  o_Bridge : string; o_ClusterCIDR : option IPNet; o_Interface : string; o_CNIMode : string; o_IPMasq : bool; o_Gateway : IP;
}.
Record flannelPlugin := MkPlugin { fp_hostOptions : flannelHostOptions; fp_podMTU : Z }.
(** [cm] is what reading the configuration map gives: an error, none, or its
    data. *)
Definition NewFlannelPlugin (f : FlannelConfig) (clusterCIDR : option IPNet) (cm : option (option (gmap string string))) : option flannelPlugin :=
  mode ← (if String.eqb (c_BackendType f) EmptyString then getFlannelCNIMode <$> cm else Some (c_BackendType f));
  let mtu := if c_PodMTU f =? 0 then if String.eqb mode FlannelBackendTypeVxlan then 1450 else 1500 else c_PodMTU f in
  Some (MkPlugin (MkOptions (c_Bridge f) clusterCIDR (c_Interface f) mode (c_IPMasq f) []) mtu).

(** ** Names of interfaces *)

(** ^(enp[0-9]+s[0-9]+.*|eth[0-9]+|ens[0-9]+)$, where the point is any
    character but a newline. *)
Definition some_digits (s : string) : option string :=
  match digits s with (EmptyString, _) => None | (_, rest) => Some rest end.
Definition is_newline (c : ascii) : bool := code c =? 10.
Definition host_interface (name : string) : bool :=
  let enp := s ← strip "enp" name; s ← some_digits s; s ← strip "s" s; some_digits s in
  let ends (p : string) := s ← strip p name; some_digits s in
  match enp with Some rest => negb (exists_char is_newline rest) | None => false end ||
  bool_decide (ends "eth"%string = Some EmptyString) || bool_decide (ends "ens"%string = Some EmptyString).

Definition LookupDefaultIfaceName (ifaces : list Interface) : string :=
  match List.find (λ n, existsb (λ i, String.eqb (if_Name i) n) ifaces) ["eth0"; "eno0"]%string with
  | Some n => n
  | None => match List.find (λ i, host_interface (if_Name i)) ifaces with Some i => if_Name i | None => EmptyString end
  end.

Definition ConvertNICNameInSysctls (nicName : string) : string := ReplaceAll "." "/" nicName.
Definition forwarding (nic : string) : string := ("net.ipv4.conf." ++ ConvertNICNameInSysctls nic ++ ".forwarding")%string.
(** A map from names to "1". *)
Definition sysctls_on (names : list string) : list (string * string) := (λ n, (n, "1"%string)) <$> remove_dups names.

(** ** The data of a node *)

Record flannelNodeInfo := MkFlannelNodeInfo {
  fi_Vtep : IP; fi_CIDR : IPNet; fi_BackendType : string; fi_NodeIP : IP; fi_Dev : Interface; fi_Route : RouteAssertion;
}.
(** The caches of the hosts, by their nodes, and the collector. *)
Record keeps := MkKeeps { k_infos : gmap nat (gmap string flannelNodeInfo); k_manager : manager }.
Abbreviation FM := (M keeps).
Abbreviation Trans := (SkoopDiagnose.Transmission nat).

Record flannelRoute := MkFlannelRoute {
  fr_routes : route; fr_localPodCIDR : option IPNet; fr_clusterCIDR : option IPNet; fr_localVTEP : IP; fr_cniMode : string; fr_iface : string;
}.
Record flannelHost := MkHost {
  fh_netNode : nat; fh_nodeInfo : NodeInfo; fh_bridge : string; fh_clusterCIDR : option IPNet; fh_podCIDR : IPNet; fh_iface : string;
  fh_cniMode : string; fh_ipMasq : bool; fh_gateway : IP; fh_route : flannelRoute;
}.
Definition fh_ns (h : flannelHost) : NetNS := kn_NetNS (fh_nodeInfo h).

Definition public_ip : string := "flannel.alpha.coreos.com/public-ip".
Definition backend_type : string := "flannel.alpha.coreos.com/backend-type".

(** The address of [ParseCIDR]. *)
Definition ParseCIDR_IP (s : string) : option (IP * IPNet) :=
  n ← ParseCIDR s; ip ← ParseAddr (hd EmptyString (Split "/" s)); Some (As16 ip, n).

(** [getDstNodeInfo] without the cache: the data that a node's object gives. *)
Definition node_data (r : flannelRoute) (node : Node) : result plugin_err flannelNodeInfo :=
  match ParseCIDR_IP (node_PodCIDR node) with
  | None => Err BadCIDR
  | Some (ip, cidr) =>
      let nextNodeIP := default EmptyString (node_Annotations node !! public_ip) in
      if String.eqb nextNodeIP EmptyString then Err NoAnnotation else
      match node_Annotations node !! backend_type with
      | None => Err NoAnnotation
      | Some b =>
          let '(vtep, dev, ty) :=
            if EqualFold b FlannelBackendTypeVxlan then
              (ip, MkInterface flannelVxlanInterface 0 1450 "vxlan" [] 0 ∅ [] [] 0 0, FlannelBackendTypeVxlan)
            else
              let dev := MkInterface (fr_iface r) 0 0 EmptyString [] 0 ∅ [] [] 0 0 in
              if EqualFold b FlannelBackendTypeHostGW then (parse_ip nextNodeIP, dev, FlannelBackendTypeHostGW) else ([], dev, fr_cniMode r) in
          let gw := if bool_decide (vtep = []) || IsUnspecified vtep then None else Some vtep in
          Ok (MkFlannelNodeInfo vtep cidr ty (parse_ip nextNodeIP) dev (MkRouteAssertion (Some (if_Name dev)) None None None None gw None))
      end
  end.

Definition newFlannelRoute (routes : route) (localPodCIDR clusterCIDR : option IPNet) (localNode : Node) (cniMode iface : string) : flannelRoute :=
  MkFlannelRoute routes localPodCIDR clusterCIDR (parse_ip (default EmptyString (node_Annotations localNode !! public_ip))) cniMode iface.

(** ** The services' processor and the infrastructure *)

(** [service.Processor] and [network.InfraShim]: what [ToService] and the
    transmissions between nodes ask. *)
Record Processor := MkProcessor {
  pr_Process : Packet -> Service -> option Node -> list Backend;
  pr_Validate : Packet -> list Backend -> option IPVS -> option validate_err;
}.
Record InfraShim := MkInfraShim {
  NodeToNode : option Node -> string -> option Node -> Packet -> option (list suspicion);
  NodeToExternal : option Node -> string -> Packet -> option (list suspicion);
}.
(** The processor of kube-proxy, with the endpoints of each service. *)
Definition kube_proxy (k : KubeProxyServiceProcessor) (ep : Service -> option (list (list EndpointAddress))) : Processor :=
  MkProcessor (λ p svc node, Process k (ep svc) p svc node) (Validate k).

Section flannel.
Context `{MapOrder} (api : nat -> answers) (fuel : nat) (processor : Processor) (infra : option InfraShim).
Implicit Types (h : flannelHost) (pkt : Packet) (upstream : option nat) (dst : Endpoint) (protocol : string).

(** ** flannelRoute *)

Definition remember h (nodeName : string) (info : flannelNodeInfo) : FM () := λ s,
  let infos := k_infos (plugin s) in
  (set_plugin (MkKeeps (<[fh_netNode h := <[nodeName := info]> (default ∅ (infos !! fh_netNode h))]> infos) (k_manager (plugin s))) s, Ok ()).
Definition readDstNodeInfo h (nodeName : string) : FM flannelNodeInfo :=
  node ← from_cluster api (λ c a, GetNodeFromName c a nodeName);
  match node with
  | None => fail NoSuchNode
  | Some node =>
      match node_data (fh_route h) node with
      | Ok info => remember h nodeName info;; mret info
      | Err e => fail e
      | Panic => λ s, (s, Panic)
      end
  end.
Definition getDstNodeInfo h (nodeName : string) : FM flannelNodeInfo := λ s,
  match k_infos (plugin s) !! fh_netNode h ≫= λ c, c !! nodeName with
  | Some info => (s, Ok info)
  | None => readDstNodeInfo h nodeName s
  end.
Definition getDstInfo h pkt : FM (option flannelNodeInfo) :=
  pod ← from_cluster api (λ c a, GetPodFromIP c a (IP_String (Dst pkt)));
  match pod with
  | None => mret None
  | Some pod => info ← getDstNodeInfo h (pod_NodeName pod); mret (Some info)
  end.

Definition AssertBackend h pkt : FM () :=
  hostInfo ← getDstInfo h pkt;
  match hostInfo with
  | None => mret ()
  | Some info =>
      let n := fh_netNode h in let ns := fh_ns h in
      check n (AssertNetDevice (ns_Interfaces ns) (if_Name (fi_Dev info)) (expect_device (if_MTU (fi_Dev info)) LinkUP));;
      suspect n (AssertSysctls (ns_SysctlInfo ns) (sysctls_on [forwarding (if_Name (fi_Dev info))]) SuspicionLevelFatal);;
      if String.eqb (fi_BackendType info) FlannelBackendTypeVxlan then
        match AssertVxlanVtep (ns_Interfaces ns) (fi_Vtep info) (fi_NodeIP info) flannelVxlanInterface with
        | None => fail NeighError
        | Some ss => suspect n ss
        end
      else mret ()
  end.

Definition Encap_of (p : Packet) : option Packet := let '(MkPacket _ _ _ _ _ e _) := p in e.
Definition encapsulated (r : flannelRoute) (info : flannelNodeInfo) pkt : Packet :=
  MkPacket (fr_localVTEP r) (Sport pkt) (fi_NodeIP info) 8472 "udp" (Some pkt) 0.
Definition Encap h opkt : FM Packet :=
  hostInfo ← getDstInfo h opkt;
  match hostInfo with
  | None => mret opkt
  | Some info =>
      if String.eqb (fi_BackendType info) FlannelBackendTypeVxlan then mret (encapsulated (fh_route h) info opkt) else mret opkt
  end.
Definition Decap (r : flannelRoute) (opkt : Packet) : option Packet :=
  match Encap_of opkt with
  | Some inner => if Equal (Dst opkt) (fr_localVTEP r) then Some inner else None
  | None => Some opkt
  end.

Definition Assert_flannel h pkt : FM () :=
  let r := fh_route h in let n := fh_netNode h in
  cluster ← (match fr_localPodCIDR r with
             | Some l => if Contains_IP l (Dst pkt) then mret true else (c ← follow (fr_clusterCIDR r); mret (negb (Contains_IP c (Dst pkt))))
             | None => c ← follow (fr_clusterCIDR r); mret (negb (Contains_IP c (Dst pkt)))
             end);
  if cluster : bool then Assert_route n (ns_Router (fh_ns h)) (fr_routes r) pkt
  else
    nodeInfo ← getDstInfo h pkt;
    match nodeInfo with
    | None => mret ()
    | Some info => check n (AssertRoute (ns_Router (fh_ns h)) (fi_Route info) pkt EmptyString EmptyString)
    end.

Definition checkRoute h pkt : FM () := Assert_flannel h pkt;; Assert_flannel h (ack pkt).

(** ** Masquerading *)

Definition doMasquerade h pkt : FM Packet :=
  '(ip, _) ← lift (RouteSrc (ns_Router (fh_ns h)) pkt EmptyString EmptyString); mret (with_Src pkt (parse_ip ip)).
Definition multicast : IPNet := MkIPNet [224; 0; 0; 0] [240; 0; 0; 0].
(** Whether [masquerade] changes the source. *)
Definition masquerades (clusterCIDR podCIDR : IPNet) (src dst : IP) : bool :=
  if Contains_IP clusterCIDR src && Contains_IP clusterCIDR dst then false
  else if Contains_IP clusterCIDR src && negb (Contains_IP multicast dst) then true
  else if negb (Contains_IP clusterCIDR src) && Contains_IP podCIDR dst then false
  else negb (Contains_IP clusterCIDR src) && Contains_IP clusterCIDR dst.
Definition masquerade h pkt : FM Packet :=
  if negb (fh_ipMasq h) then mret pkt else
  c ← follow (fh_clusterCIDR h);
  if masquerades c (fh_podCIDR h) (Src pkt) (Dst pkt) then doMasquerade h pkt else mret pkt.

(** ** Transmissions *)

Definition add_infra h (r : option (list suspicion)) : FM () :=
  match r with Some ss => suspect (fh_netNode h) ss | None => fail InfraError end.

Definition transmissionToNode h pkt (node : option Node) : FM Trans :=
  pktOut ← masquerade h pkt;
  checkRoute h pkt;;
  AssertBackend h pktOut;;
  out ← Encap h pktOut;
  localNode ← from_cluster api (λ c a, GetNodeFromName c a (kn_NodeName (fh_nodeInfo h)));
  (match infra with Some i => add_infra h (NodeToNode i localNode (fh_iface h) node pktOut) | None => mret () end);;
  l ← new_link (MkLink LinkInfra (fh_netNode h) None out (SimpleLinkAttribute (fh_iface h) EmptyString) None);
  node ← follow node;
  mret (MkTransmission NetNodeTypeNode (node_Name node) l).

Definition sub_key (pod : Pod) : string := (pod_Namespace pod ++ "/" ++ pod_Name pod)%string.
(** The bridge of the veth is expected to be "cni0", whatever the option. *)
Definition local_veth h (pod : Pod) : list suspicion :=
  match List.find (λ i, String.eqb i.1 (sub_key pod)) (kn_SubNetNSInfo (fh_nodeInfo h)) with
  | Some (_, peerIfs) => AssertVEthPeerBridge (ns_Interfaces (fh_ns h)) "eth0" peerIfs "cni0"
  | None => []
  end.
Definition transmissionToPod h pkt (pod : option Pod) : FM Trans :=
  pod ← follow pod;
  if negb (pod_HostNetwork pod) && String.eqb (pod_NodeName pod) (kn_NodeName (fh_nodeInfo h)) then
    suspect (fh_netNode h) (local_veth h pod);;
    checkRoute h pkt;;
    pktOut ← masquerade h pkt;
    l ← new_link (MkLink LinkVeth (fh_netNode h) None pktOut (SimpleLinkAttribute (fh_bridge h) EmptyString) None);
    mret (MkTransmission NetNodeTypePod (IP_String (Dst pkt)) l)
  else
    node ← from_cluster api (λ c a, GetNodeFromName c a (pod_NodeName pod));
    transmissionToNode h pkt node.

Definition transmissionToExternal h pkt : FM Trans :=
  pktOut ← masquerade h pkt;
  checkRoute h pktOut;;
  node ← from_cluster api (λ c a, GetNodeFromName c a (kn_NodeName (fh_nodeInfo h)));
  (match infra with Some i => add_infra h (NodeToExternal i node (fh_iface h) pktOut) | None => mret () end);;
  l ← new_link (MkLink LinkInfra (fh_netNode h) None pktOut (SimpleLinkAttribute (fh_iface h) EmptyString) None);
  mret (MkTransmission NetNodeTypeExternal (IP_String (Dst pktOut)) l).

(** ** flannelHost *)

Definition detectIif h (upstream : option LinkType) : string :=
  match upstream with None => EmptyString | Some LinkVeth => fh_bridge h | Some _ => fh_iface h end.

(** The packet from [h] itself, with the source that routing gives. *)
Definition own_packet h dst protocol : FM Packet :=
  let pkt := first_packet dst protocol in
  '(addr, _) ← lift (RouteSrc (ns_Router (fh_ns h)) pkt EmptyString EmptyString); mret (with_Src pkt (parse_ip addr)).

(** [makeLink] gives the transmission of a packet. *)
Definition to h upstream dst protocol (makeLink : Packet -> FM Trans) : FM (list Trans) :=
  let n := fh_netNode h in let nf := ns_Netfilter (fh_ns h) in
  match upstream with
  | Some u =>
      l ← get_link u;
      let iif := detectIif h (Some (l_Type l)) in
      (match l_Type l, l_SourceAttribute l with
       | LinkVeth, VEthLinkAttribute _ _ peer => suspect n (AssertVEthOnBridge (ns_Interfaces (fh_ns h)) peer (fh_bridge h))
       | _, _ => mret ()
       end);;
      set_DestinationAttribute u (SimpleLinkAttribute iif EmptyString);;
      match Decap (fh_route h) (l_Packet l) with
      | None => fail WrongVTEP
      | Some pkt =>
          t ← makeLink pkt;
          out ← get_link (link t);
          check_report n (AssertNetfilterForward fuel nf pkt [l_Packet out] iif);;
          act n (ActionForward u [link t]);;
          mret [t]
      end
  | None =>
      pkt ← own_packet h dst protocol;
      t ← makeLink pkt;
      out ← get_link (link t);
      check_report n (AssertNetfilterSend fuel nf pkt [l_Packet out] (detectIif h None));;
      act n (ActionSend [link t]);;
      mret [t]
  end.

Definition Host_ToPod h upstream dst protocol (pod : option Pod) : FM (list Trans) := to h upstream dst protocol (λ pkt, transmissionToPod h pkt pod).
Definition Host_ToHost h upstream dst protocol (node : option Node) : FM (list Trans) := to h upstream dst protocol (λ pkt, transmissionToNode h pkt node).
Definition Host_ToExternal h upstream dst protocol : FM (list Trans) := to h upstream dst protocol (transmissionToExternal h).

(** The packet that [ToService] starts from, and its interface. *)
Definition service_packet h upstream dst protocol : FM (Packet * string) :=
  match upstream with
  | Some u =>
      l ← get_link u;
      let iif := detectIif h (Some (l_Type l)) in
      set_DestinationAttribute u (SimpleLinkAttribute iif EmptyString);; mret (l_Packet l, iif)
  | None =>
      let pkt := first_packet dst protocol in
      match RouteSrc (ns_Router (fh_ns h)) pkt EmptyString EmptyString with
      | Ok (src, _) => mret (with_Src pkt (parse_ip src), detectIif h None)
      | Err ErrNoRouteToHost => suspect (fh_netNode h) [(SuspicionLevelFatal, NoRouteToHost)];; fail (CannotBuild (fh_netNode h))
      | Err e => fail (RouteError e)
      | Panic => λ s, (s, Panic)
      end
  end.
Definition source_allowed (ranges : list string) (src : IP) : bool :=
  existsb (λ r, match ParseCIDR r with Some n => Contains_IP n src | None => false end) ranges.

Definition backend_packet pkt protocol (b : Backend) : Packet := MkPacket (Src pkt) (Sport pkt) (parse_ip (b_IP b)) (b_Port b) protocol None 0.
Definition to_backend h pkt protocol (b : Backend) : FM Trans :=
  let pktOut := backend_packet pkt protocol b in
  pktOut ← (if b_Masquerade b then doMasquerade h pktOut else mret pktOut);
  backendType ← from_cluster api (λ c a, GetIPType c a (b_IP b));
  match backendType with
  | EndpointTypePod =>
      pod ← from_cluster api (λ c a, GetPodFromIP c a (b_IP b));
      match pod with None => fail NoSuchPod | Some _ => transmissionToPod h pktOut pod end
  | EndpointTypeNode =>
      node ← from_cluster api (λ c a, GetNodeFromIP c a (b_IP b));
      match node with None => fail NoSuchNode | Some _ => transmissionToNode h pktOut node end
  | _ => transmissionToExternal h pktOut
  end.
Fixpoint to_backends h pkt protocol (bs : list Backend) : FM (list Trans) :=
  match bs with
  | [] => mret []
  | b :: bs' => t ← to_backend h pkt protocol b; ts ← to_backends h pkt protocol bs'; mret (t :: ts)
  end.

Definition Host_ToService h upstream dst protocol (service : option Service) : FM (list Trans) :=
  let n := fh_netNode h in let nf := ns_Netfilter (fh_ns h) in
  '(pkt, iif) ← service_packet h upstream dst protocol;
  svc ← follow service;
  suspect n (AssertTrue (bool_decide (svc_LoadBalancerSourceRanges svc = []) || source_allowed (svc_LoadBalancerSourceRanges svc) (Src pkt))
    SuspicionLevelWarning (SourceNotAllowed (svc_LoadBalancerSourceRanges svc)));;
  node ← from_cluster api (λ c a, GetNodeFromName c a (kn_NodeName (fh_nodeInfo h)));
  let backends := pr_Process processor pkt svc node in
  match backends with
  | [] =>
      suspect n [(SuspicionLevelFatal, NoEndpoint)];; act n (ActionService upstream []);; fail (CannotBuild n)
  | _ =>
      suspect n (match pr_Validate processor pkt backends (ns_IPVS (fh_ns h)) with Some e => [(SuspicionLevelFatal, ValidateFailed e)] | None => [] end);;
      ts ← to_backends h pkt protocol backends;
      act n (ActionService upstream (link <$> ts));;
      outs ← link_packets (link <$> ts);
      check_report n (match upstream with Some _ => AssertNetfilterForward fuel nf pkt outs iif | None => AssertNetfilterSend fuel nf pkt outs iif end);;
      mret ts
  end.

Definition Host_Serve h (upstream : nat) dst protocol : FM (list Trans) :=
  let n := fh_netNode h in
  l ← get_link upstream;
  let iif := detectIif h (Some (l_Type l)) in
  match Encap_of (l_Packet l) with
  | Some _ =>
      match Decap (fh_route h) (l_Packet l) with
      | None => fail WrongVTEP
      | Some inner =>
          pod ← from_cluster api (λ c a, GetPodFromIP c a (IP_String (Dst inner)));
          match pod with
          | None => fail NoSuchPod
          | Some _ => Host_ToPod h (Some upstream) (MkEndpoint (IP_String (Dst inner)) EndpointTypePod (Dport inner)) (Protocol inner) pod
          end
      end
  | None =>
      set_DestinationAttribute upstream (SimpleLinkAttribute iif EmptyString);;
      Assert_flannel h (ack (l_Packet l));;
      check_report n (AssertNetfilterServe fuel (ns_Netfilter (fh_ns h)) (l_Packet l) iif);;
      suspect n (AssertListen (ns_ConnStats (fh_ns h)) (parse_ip (ep_IP dst)) (ep_Port dst) protocol);;
      act n (ActionServe upstream);;
      mret []
  end.

Definition flannelHost_node h : SimplePluginNode keeps :=
  {| ToPod := Host_ToPod h; ToHost := Host_ToHost h; ToService := Host_ToService h; ToExternal := Host_ToExternal h; Serve := Host_Serve h |}.

(** ** Making nodes *)

Definition ScopeLink : Z := 0xfd.
Definition ScopeUniverse : Z := 0x0.

Definition scope_route (dev : string) (scope : Z) (gw : option IP) : RouteAssertion := MkRouteAssertion (Some dev) (Some scope) None None None gw None.
(** The routes that [initRoute] expects, for the host's interface. *)
Definition host_routes (podCIDR : IPNet) (bridge : string) (dev : Interface) (iface : string) (gateway : IP) : route :=
  let '(ip, mask) := GetDefaultIPv4 dev in
  let routes := <[IPNet_String (MkIPNet ip mask) := scope_route iface ScopeLink None]>
    {[IPNet_String podCIDR := scope_route bridge ScopeLink None]} in
  if bool_decide (gateway = []) || IsUnspecified gateway then routes
  else <["0.0.0.0/0"%string := scope_route iface ScopeUniverse (Some gateway)]> routes.

Definition basicCheck h : FM () :=
  let n := fh_netNode h in let ns := fh_ns h in
  node ← from_cluster api (λ c a, GetNodeFromName c a (kn_NodeName (fh_nodeInfo h)));
  node ← follow node;
  suspect n (AssertNode node);;
  suspect n (AssertDefaultRule (ns_RuleInfo ns));;
  suspect n (AssertNoPolicyRoute (ns_RuleInfo ns));;
  suspect n (AssertDefaultAccept (ns_IPTables ns));;
  check n (AssertNetDevice (ns_Interfaces ns) (fh_iface h) (expect_device 1500 LinkUP));;
  suspect n (AssertHostBridge (ns_Interfaces ns) (fh_bridge h));;
  suspect n (AssertSysctls (ns_SysctlInfo ns)
    (sysctls_on ["net.bridge.bridge-nf-call-iptables"%string; "net.ipv4.ip_forward"%string; forwarding (fh_bridge h); forwarding (fh_iface h)]) SuspicionLevelFatal).

Definition newFlannelHost (nodeInfo : NodeInfo) (o : flannelHostOptions) : FM flannelHost :=
  k8sNode ← from_cluster api (λ c a, GetNodeFromName c a (kn_NodeName nodeInfo));
  k8sNode ← follow k8sNode;
  match ParseCIDR (node_PodCIDR k8sNode) with
  | None => fail BadCIDR
  | Some podCIDR =>
      netNode ← new_node (NewNetNode (kn_NodeName nodeInfo) NetNodeTypeNode);
      let ifs := ns_Interfaces (kn_NetNS nodeInfo) in
      let iface := if String.eqb (o_Interface o) EmptyString then LookupDefaultIfaceName ifs else o_Interface o in
      if String.eqb iface EmptyString then fail NoHostInterface else
      match find_name ifs iface with
      | None => fail NoHostInterface
      | Some dev =>
          node ← from_cluster api (λ c a, GetNodeFromName c a (kn_NodeName nodeInfo));
          node ← follow node;
          let r := newFlannelRoute (host_routes podCIDR (o_Bridge o) dev iface (o_Gateway o)) (Some podCIDR) (o_ClusterCIDR o) node (o_CNIMode o) iface in
          let h := MkHost netNode nodeInfo (o_Bridge o) (o_ClusterCIDR o) podCIDR iface (o_CNIMode o) (o_IPMasq o) (o_Gateway o) r in
          basicCheck h;; mret h
      end
  end.

(** The nodes of a Flannel network. *)
Inductive net_node := PodNode (p : simpleVEthPod) | HostNode (h : flannelHost) | GenericNode (n : nat).

Definition Node_Send (n : net_node) dst protocol : FM (list Trans) :=
  match n with
  | PodNode p => Pod_Send api p dst protocol
  | HostNode h => Base_Send api (flannelHost_node h) dst protocol
  | GenericNode n => Generic_Send n dst protocol
  end.
Definition Node_Receive (n : net_node) (upstream : nat) : FM (list Trans) :=
  match n with
  | PodNode p => Pod_Receive api p upstream
  | HostNode h => Base_Receive api (fh_netNode h) (kn_NodeName (fh_nodeInfo h)) (flannelHost_node h) upstream
  | GenericNode n => Generic_Receive n upstream
  end.

(** ** The diagnosis *)

Context (ReadFromString : string -> option (option Element)) (collector : string -> option NodeNetworkStackDump) (plugin_ : flannelPlugin).
Abbreviation world := (state_of keeps).
Abbreviation put_manager := (λ m k, MkKeeps (k_infos k) m).

(** [GetNetNodeFromID] for a pod and for a node: collect, then create. *)
Definition make_pod_node (id : string) : FM net_node :=
  pod ← from_cluster api (λ c a, GetPodFromIP c a id);
  match pod with
  | None => fail NoSuchPod
  | Some pod =>
      info ← CollectPod ReadFromString collector api k_manager put_manager (pod_Namespace pod) (pod_Name pod);
      info ← follow info;
      p ← newSimpleVEthPod info (fp_podMTU plugin_) "eth0"; mret (PodNode p)
  end.
Definition make_host_node (id : string) : FM net_node :=
  info ← CollectNode ReadFromString collector api k_manager put_manager id;
  h ← newFlannelHost info (fp_hostOptions plugin_); mret (HostNode h).
Definition makers_ : makers net_node world plugin_err :=
  MkMakers (λ w id, make_pod_node id w) (λ w id, make_host_node id w) None
    (λ w id, (set_nodes (λ l, l ++ [NewNetNode id NetNodeTypeGeneric]) w, GenericNode (length (nodes w)))).

Definition send_ (w : world) (n : net_node) dst protocol : world * sent nat nat plugin_err :=
  match Node_Send n dst protocol w with
  | (w, Ok ts) => (w, Sent ts)
  | (w, Err (CannotBuild n)) => (w, CannotBuildTransmission n)
  | (w, Err e) => (w, SendError e)
  | (w, Panic) => (w, SendPanic)
  end.
Definition receive_ (w : world) (n : net_node) (l : nat) : world * result plugin_err (list Trans) := Node_Receive n l w.

Definition Source_ (w : world) (l : nat) : nat := match links w !! l with Some x => l_Source x | None => 0 end.
Definition Diagnose_ (steps : nat) (s : SkoopDiagnose.state net_node world) (handler : option (Endpoint -> Endpoint -> string -> result policy_err (list SkoopPolicy.suspicion)))
    (src dst : Endpoint) protocol :=
  Diagnose makers_ send_ receive_ Source_ steps s handler (λ ip, Ok (nodeCache (ipcache (SkoopDiagnose.world s)) !! ip)) src dst protocol.
End flannel.

(** The outputs that a path follows: of the origin's own action, and of the
    action of a link's destination, which can be nil. *)
Definition outputs_of (w : state_of keeps) (origin : nat) (l : option nat) : option (list nat) :=
  n ← match l with None => Some origin | Some i => x ← links w !! i; l_Destination x end;
  n ← nodes w !! n;
  Some match ActionOf n l with Some a => a_Outputs a | None => [] end.
End SkoopFlannel.
