(* ===== verification/SkoopFlannelExample.v ===== *)
(** A cluster of two nodes with a Flannel network and one pod on each, as the
    collectors and the API server would describe it. *)

From S2P Require Import Prelude GoStrings GoNet GoResult SkoopRoute SkoopIptables SkoopXml SkoopCluster SkoopService SkoopPolicy SkoopAssert SkoopDiagnose SkoopNode SkoopCollect SkoopFlannel.
Import SkoopRoute SkoopIptables SkoopXml SkoopCluster SkoopService SkoopPolicy SkoopAssert SkoopDiagnose SkoopNode SkoopCollect SkoopFlannel.

Module SkoopFlannelExample.

(** Maps are ranged over in the order of their keys' codes. *)
#[export] Instance ex_order : MapOrder.
Proof.
  refine {| values := λ A m, (map_to_list m).*2 |}. intros A m a. rewrite list_elem_of_fmap. split.
  - intros ([k v] & -> & Hk%elem_of_map_to_list). by exists k.
  - intros [k Hk]. exists (k, a). split; [done|]. by apply elem_of_map_to_list.
Defined.

Definition ex_net4 (a b c d n : Z) : IPNet := MkIPNet [a; b; c; d] (CIDRMask n 32).
Definition ex_host_if (name : string) (index mtu : Z) (driver : string) (addrs : list IPNet) (neigh fdb : list Neigh) (peer master : Z) : Interface :=
  MkInterface name index mtu driver addrs 1 ∅ neigh fdb peer master.
Definition ex_rt (dst : IPNet) (oif : string) (gw : IP) (scope ty table : Z) : Route_ := MkRoute 2 oif EmptyString scope (Some dst) [] gw 2 0 table ty 0 0.
Definition ex_rule_ (priority table : Z) : Rule := MkRule priority 2 table 0 0 0 0 0 None None 0 EmptyString EmptyString.
Definition ex_rules_ : list Rule := [ex_rule_ 0 255; ex_rule_ 32766 254; ex_rule_ 32767 253].

(** Node [i] of two, with one pod. *)
Definition ex_pod_ns (i : Z) : NetNSInfo :=
  MkNetNSInfo (if i =? 1 then "/proc/100/ns/net" else "/proc/200/ns/net") (if i =? 1 then "default/a" else "default/b")
    [ex_host_if "eth0" 3 1450 "veth" [MkIPNet [10; 244; i; 2] (CIDRMask 24 32)] [] [] 7 0; ex_host_if "lo" 1 65536 EmptyString [] [] [] 0 0]
    ∅ [ex_rt (ex_net4 0 0 0 0 0) "eth0" [10; 244; i; 1] 0 1 254; ex_rt (ex_net4 10 244 i 0 24) "eth0" [] 253 1 254] ex_rules_ "<empty/>" [] ∅
    [MkConnStat "0.0.0.0" 80 EmptyString 0 "tcp" 0].
Definition ex_host_ns (i j : Z) : NetNSInfo :=
  MkNetNSInfo hostnsKey EmptyString
    [ex_host_if "eth0" 2 1500 "virtio" [MkIPNet [192; 168; 0; i] (CIDRMask 24 32)] [] [] 0 0;
     ex_host_if "cni0" 4 1450 "bridge" [MkIPNet [10; 244; i; 1] (CIDRMask 24 32)] [] [] 0 0;
     ex_host_if "flannel.1" 5 1450 "vxlan" [MkIPNet [10; 244; i; 0] (CIDRMask 32 32)]
       [MkNeigh 2 5 128 0 0 (IPv4 10 244 j 0) [j; j; j; j; j; j]] [MkNeigh 7 5 128 0 0 (IPv4 192 168 0 j) [j; j; j; j; j; j]] 0 0;
     ex_host_if "veth1" 7 1450 "veth" [] [] [] 3 4]
    (list_to_map [("net.bridge.bridge-nf-call-iptables", "1"); ("net.ipv4.ip_forward", "1"); ("net.ipv4.conf.cni0.forwarding", "1");
                  ("net.ipv4.conf.eth0.forwarding", "1"); ("net.ipv4.conf.flannel/1.forwarding", "1")]%string)
    [ex_rt (ex_net4 192 168 0 0 24) "eth0" [] 253 1 254; ex_rt (ex_net4 0 0 0 0 0) "eth0" [192; 168; 0; 254] 0 1 254;
     ex_rt (ex_net4 10 244 i 0 24) "cni0" [] 253 1 254; ex_rt (ex_net4 10 244 j 0 24) "flannel.1" [10; 244; j; 0] 0 1 254]
    ex_rules_ "<empty/>" [] ∅ [].
Definition ex_dump (i j : Z) : NodeNetworkStackDump :=
  MkDump [MkPodNetInfo (if i =? 1 then "a" else "b") "default" (if i =? 1 then "/proc/100/ns/net" else "/proc/200/ns/net") "none"] [ex_host_ns i j; ex_pod_ns i].
Definition ex_collector (n : string) : option NodeNetworkStackDump :=
  if String.eqb n "n1" then Some (ex_dump 1 2) else if String.eqb n "n2" then Some (ex_dump 2 1) else None.
Definition ex_read (s : string) : option (option Element) := Some (Some (Elem EmptyString [] EmptyString [])).

Definition ex_k8s_pod (name ip node : string) : Pod := MkPod "default" name ∅ false "Running" [ip] node [("c"%string, true)] (if String.eqb node "n1" then "192.168.0.1" else "192.168.0.2") ip.
Definition ex_k8s_node (name ip cidr backend : string) : Node :=
  MkNode name [ip] cidr {["kubernetes.io/os"%string := "linux"%string]}
    (list_to_map [(public_ip, ip); (backend_type, backend)]) [("Ready", "True")]%string.
Definition ex_cluster (backend : string) : IPCache :=
  MkIPCache (list_to_map [("10.244.1.2"%string, ex_k8s_pod "a" "10.244.1.2" "n1"); ("10.244.2.2"%string, ex_k8s_pod "b" "10.244.2.2" "n2")])
    (list_to_map [("192.168.0.1"%string, ex_k8s_node "n1" "192.168.0.1" "10.244.1.0/24" backend); ("192.168.0.2"%string, ex_k8s_node "n2" "192.168.0.2" "10.244.2.0/24" backend)])
    ∅ true.
Definition ex_plugin : flannelPlugin := MkPlugin (MkOptions "cni0" (Some (ex_net4 10 244 0 0 16)) EmptyString "vxlan" true []) 1450.
Definition ex_noproc : Processor := MkProcessor (λ _ _ _, []) (λ _ _ _, None).
Definition ex_api (n : nat) : answers := MkAnswers None None None.

(** What an option holds, if it holds something. *)
Definition the {A : Type} (o : option A) : match o with Some _ => A | None => () end := match o with Some a => a | None => () end.

(** Its pods and its nodes. *)
Lemma ex_pods_of (backend k : string) (pod : Pod) : podCache (ex_cluster backend) !! k = Some pod ->
  pod = ex_k8s_pod "a" "10.244.1.2" "n1" ∨ pod = ex_k8s_pod "b" "10.244.2.2" "n2".
Proof. cbn [podCache ex_cluster list_to_map foldr uncurry]. intros [[_ <-]|[_ [[_ <-]|[_ H]]%lookup_insert_Some]]%lookup_insert_Some; [by left|by right|by rewrite lookup_empty in H]. Qed.
Lemma ex_nodes_of (backend k : string) (node : Node) : nodeCache (ex_cluster backend) !! k = Some node ->
  node = ex_k8s_node "n1" "192.168.0.1" "10.244.1.0/24" backend ∨ node = ex_k8s_node "n2" "192.168.0.2" "10.244.2.0/24" backend.
Proof. cbn [nodeCache ex_cluster list_to_map foldr uncurry]. intros [[_ <-]|[_ [[_ <-]|[_ H]]%lookup_insert_Some]]%lookup_insert_Some; [by left|by right|by rewrite lookup_empty in H]. Qed.
End SkoopFlannelExample.
