(* ===== verification/SkoopFlannelRun.v ===== *)
(** How the operations of SkoopNode, SkoopCollect and SkoopFlannel run when
    nothing fails: which suspicions they add to which node, which links they
    make, and that the caches of node data stay those that the cluster gives. *)

From S2P Require Import Prelude GoStrings GoNet GoResult SkoopRoute SkoopIptables SkoopXml SkoopCluster SkoopService SkoopPolicy SkoopAssert SkoopDiagnose SkoopNode SkoopCollect SkoopFlannel.
Import SkoopRoute SkoopIptables SkoopXml SkoopCluster SkoopService SkoopPolicy SkoopAssert SkoopDiagnose SkoopNode SkoopCollect SkoopFlannel.

Module SkoopFlannelRun.

Lemma bind_ok {P A B : Type} (m : M P A) (f : A -> M P B) (s s' : state_of P) (a : A) : m s = (s', Ok a) -> (m ≫= f) s = f a s'.
Proof. intros E. unfold mbind, M_bind. by rewrite E. Qed.

Lemma AddSuspicions_nil (n : NetNode) : AddSuspicions [] n = n.
Proof. destruct n. unfold AddSuspicions. cbn. by rewrite app_nil_r. Qed.
Lemma AddSuspicions_app (a b : list suspicion) (n : NetNode) : AddSuspicions b (AddSuspicions a n) = AddSuspicions (a ++ b) n.
Proof. destruct n. unfold AddSuspicions. cbn. by rewrite app_assoc. Qed.
Lemma alter_nothing (n : nat) (l : list NetNode) : alter (AddSuspicions []) n l = l.
Proof. apply list_alter_id. apply AddSuspicions_nil. Qed.
Lemma alter_twice (a b : list suspicion) (n : nat) (l : list NetNode) :
  alter (AddSuspicions b) n (alter (AddSuspicions a) n l) = alter (AddSuspicions (a ++ b)) n l.
Proof.
  revert n. induction l as [|x l IH]; intros [|n]; [done|done| |]; cbn.
  - by rewrite AddSuspicions_app.
  - f_equal. apply IH.
Qed.

(** ** Checks that do not fail *)

Definition susp_list (r : result route_err (list suspicion)) : list suspicion := match r with Ok ss => ss | _ => [] end.
Definition report_list (r : report) : list suspicion := match r with Some (Ok ss) => ss | _ => [] end.

(** Every route has a destination, which is what netlink gives. *)
Definition router_total (r : SimulateRouter) : Prop := ∀ t rs, routes r !! t = Some rs -> dst_set rs.

Lemma Route_total (r : SimulateRouter) (p : Packet) (iif oif : string) :
  router_total r -> Route r p iif oif ≠ Panic ∧ Route r p iif oif ≠ Err ErrNoValidIP.
Proof.
  intros Hr. unfold Route. induction (rules r) as [|ru rus IH]; [done|]. cbn [route_rules].
  destruct (matchRule p ru iif oif); [|done]. unfold lookupRoute. destruct (routes r !! ru_Table ru) as [rs|] eqn:E; [|done].
  rewrite find_route_covers by (by eapply Hr). cbn [mbind result_bind]. by destruct (List.find _ rs).
Qed.
Lemma AssertRoute_total (r : SimulateRouter) (e : RouteAssertion) (p : Packet) (iif oif : string) :
  router_total r -> ra_Dst e = None -> AssertRoute r e p iif oif = Ok (susp_list (AssertRoute r e p iif oif)).
Proof.
  intros Hr He. pose proof (Route_total r p iif oif Hr) as [H1 H2]. unfold AssertRoute. rewrite He.
  destruct (Route r p iif oif) as [x|[]|]; try done. cbn [mbind result_bind]. repeat case_match; done.
Qed.
Lemma new_router_total (rus : list Rule) (rs : list Route_) (ifs : list Interface) (r : SimulateRouter) :
  dst_set rs -> NewSimulateRouter rus rs ifs = Ok r -> router_total r.
Proof.
  intros Hrs. rewrite new_router by done. intros [= <-] t l. cbn [routes]. rewrite lookup_fmap, routeTableMap_lookup.
  case_bool_decide; [done|]. intros [= <-]. apply SliceStable_Forall. by apply in_table_dst.
Qed.

Lemma AssertNetDevice_total (ifs : list Interface) (name : string) (mtu state : Z) :
  AssertNetDevice ifs name (expect_device mtu state) = Ok (susp_list (AssertNetDevice ifs name (expect_device mtu state))).
Proof. unfold AssertNetDevice. destruct (find_name ifs name); [|done]. cbn [if_Addrs if_DevSysctls if_NeighInfo if_FdbInfo expect_device]. by rewrite bool_decide_eq_true_2. Qed.
Lemma AssertVxlanVtep_total (ifs : list Interface) (vtep host : IP) (name : string) : is_Some (AssertVxlanVtep ifs vtep host name).
Proof.
  unfold AssertVxlanVtep. destruct (find_name ifs name) as [i|] eqn:E; [|by eexists]. apply List.find_some in E as [Hi _].
  unfold ProbeNeigh. destruct (List.find (λ x, if_Index x =? if_Index i) ifs) as [j|] eqn:Ej.
  - destruct (List.find _ (if_NeighInfo j)) as [m|]; [|by eexists]. by destruct (bool_decide _ || _); eexists.
  - pose proof (List.find_none _ _ Ej i Hi) as Hf. cbn in Hf. by rewrite Z.eqb_refl in Hf.
Qed.

(** The tables' walks end. *)
Definition hooks_end (fuel : nat) (nf : SimulateNetfilter) : Prop := ∀ hook p iif, ∃ o, Hook fuel nf hook p iif EmptyString = Some (Ok o).
Lemma checked_total (fuel : nat) (nf : SimulateNetfilter) (hook : NFHook) (p : Packet) (iif : string) :
  hooks_end fuel nf -> ∃ o, checked fuel nf hook p iif = Some (Ok o).
Proof.
  intros He. destruct (He hook p iif) as [[[v p'] e] E]. unfold checked. rewrite E. destruct (checkNetfilterResult e). by eexists.
Qed.
Lemma and_then_total (o : list suspicion * bool * Packet) (k : bool -> Packet -> report) :
  (∀ go p, ∃ ss, k go p = Some (Ok ss)) -> ∃ ss, and_then (Some (Ok o)) k = Some (Ok ss).
Proof. intros Hk. destruct o as [[s go] p]. cbn. destruct (Hk go p) as [ss ->]. by eexists. Qed.
Lemma each_out_total (f : Packet -> report) (ps : list Packet) : (∀ p, ∃ ss, f p = Some (Ok ss)) -> ∃ ss, each_out f ps = Some (Ok ss).
Proof. intros Hf. induction ps as [|p ps [ss IH]]; cbn; [by eexists|]. destruct (Hf p) as [s1 ->]. rewrite IH. by eexists. Qed.
Lemma forward_total (fuel : nat) (nf : SimulateNetfilter) (p : Packet) (outs : list Packet) (iif : string) :
  hooks_end fuel nf -> AssertNetfilterForward fuel nf p outs iif = Some (Ok (report_list (AssertNetfilterForward fuel nf p outs iif))).
Proof.
  intros He. assert (∃ ss, AssertNetfilterForward fuel nf p outs iif = Some (Ok ss)) as [ss E]; [|by rewrite E].
  unfold AssertNetfilterForward. destruct (checked_total fuel nf NFHookPreRouting p iif He) as [o ->]. apply and_then_total.
  intros [] _; [|by eexists]. apply each_out_total. intros q.
  destruct (checked_total fuel nf NFHookForward (set_Dst p (Dst q)) iif He) as [o1 ->]. apply and_then_total. intros _ q1.
  destruct (checked_total fuel nf NFHookPostRouting q1 iif He) as [o2 ->]. apply and_then_total. intros _ q2. by eexists.
Qed.

Section run.
Context `{MapOrder} (api : nat -> answers) (c : IPCache) (rt : nat -> option flannelRoute).
Abbreviation world := (state_of keeps).
Implicit Types (s : world) (n : nat) (ss : list suspicion) (ls : list Link).

(** ** Reading the cluster *)

(** Each name is that of one object. *)
Record named : Prop := MkNamed {
  nm_built : built c = true;
  nm_nodes : ∀ k k' x y, nodeCache c !! k = Some x -> nodeCache c !! k' = Some y -> node_Name x = node_Name y -> x = y;
  nm_pods : ∀ k k' x y, podCache c !! k = Some x -> podCache c !! k' = Some y -> pod_Namespace x = pod_Namespace y -> pod_Name x = pod_Name y -> x = y;
}.
Context (Hn : named).

Lemma find_only {A : Type} (m : gmap string A) (p : A -> bool) (a : A) :
  (∃ k, m !! k = Some a) -> p a = true -> (∀ k x, m !! k = Some x -> p x = true -> x = a) -> List.find p (values m) = Some a.
Proof.
  intros Hk Hp Hu. destruct (List.find p (values m)) as [x|] eqn:E.
  - apply List.find_some in E as [[k Hx]%list_elem_of_In%values_elem Hpx]. f_equal. by eapply Hu.
  - assert (p a = false); [|congruence]. apply (List.find_none _ _ E). apply list_elem_of_In. by apply values_elem.
Qed.

Definition node_named (name : string) : option Node := List.find (λ x, String.eqb (node_Name x) name) (values (nodeCache c)).
Definition pod_named (namespace name : string) : option Pod :=
  List.find (λ p, String.eqb (pod_Namespace p) namespace && String.eqb (pod_Name p) name) (values (podCache c)).

Lemma node_named_self (k : string) (node : Node) : nodeCache c !! k = Some node -> node_named (node_Name node) = Some node.
Proof.
  intros Hk. apply find_only; [by exists k|apply String.eqb_refl|]. intros k' x Hx E%String.eqb_eq. by eapply (nm_nodes Hn).
Qed.
Lemma pod_named_self (k : string) (pod : Pod) : podCache c !! k = Some pod -> pod_named (pod_Namespace pod) (pod_Name pod) = Some pod.
Proof.
  intros Hk. apply find_only; [by exists k|by rewrite !String.eqb_refl|].
  intros k' x Hx [E1%String.eqb_eq E2%String.eqb_eq]%andb_true_iff. by eapply (nm_pods Hn).
Qed.

(** ** States *)

(** The cluster is read, and the caches hold what it gives. *)
Record ready s : Prop := MkReady {
  rd_cluster : ipcache s = c;
  rd_infos : ∀ i m name info, k_infos (plugin s) !! i = Some m -> m !! name = Some info ->
    ∃ r node, rt i = Some r ∧ node_named name = Some node ∧ node_data r node = Ok info;
}.

(** From [s] to [s'], [ss] were added to node [n] and [ls] to the links. *)
Record after n ss ls s s' : Prop := MkAfter {
  af_nodes : nodes s' = alter (AddSuspicions ss) n (nodes s);
  af_links : links s' = links s ++ ls;
  af_manager : k_manager (plugin s') = k_manager (plugin s);
  af_ready : ready s';
}.

Lemma same_links n ss s s' : after n ss [] s s' -> links s' = links s.
Proof. intros [_ Hl _ _]. by rewrite Hl, app_nil_r. Qed.
Lemma after_refl n s : ready s -> after n [] [] s s.
Proof. intros Hr. split; [by rewrite alter_nothing|by rewrite app_nil_r|done|done]. Qed.
Lemma after_trans n ss1 ss2 ls1 ls2 s1 s2 s3 : after n ss1 ls1 s1 s2 -> after n ss2 ls2 s2 s3 -> after n (ss1 ++ ss2) (ls1 ++ ls2) s1 s3.
Proof.
  intros [Hn1 Hl1 Hm1 _] [Hn2 Hl2 Hm2 Hr]. split; [|by rewrite Hl2, Hl1, app_assoc|congruence|done]. by rewrite Hn2, Hn1, alter_twice.
Qed.

(** [m] returns [a] and does just that. *)
Definition does {A : Type} (m : M keeps A) n ss ls s (a : A) : Prop := ∃ s', m s = (s', Ok a) ∧ after n ss ls s s'.

Lemma does_ret {A : Type} (a : A) n s : ready s -> does (mret a) n [] [] s a.
Proof. intros Hr. exists s. split; [done|by apply after_refl]. Qed.
Lemma does_bind {A B : Type} (m : M keeps A) (f : A -> M keeps B) n ss1 ss2 ls1 ls2 s a b :
  does m n ss1 ls1 s a -> (∀ s', after n ss1 ls1 s s' -> does (f a) n ss2 ls2 s' b) -> does (m ≫= f) n (ss1 ++ ss2) (ls1 ++ ls2) s b.
Proof.
  intros (s1 & E1 & H1) Hf. destruct (Hf s1 H1) as (s2 & E2 & H2). exists s2. split; [by rewrite (bind_ok m f s s1 a E1)|by eapply after_trans].
Qed.
(** A step that adds nothing. *)
Lemma does_skip {A B : Type} (m : M keeps A) (f : A -> M keeps B) n ss ls s a b :
  does m n [] [] s a -> (∀ s', after n [] [] s s' -> does (f a) n ss ls s' b) -> does (m ≫= f) n ss ls s b.
Proof. apply (does_bind m f n [] ss [] ls). Qed.
(** Only suspicions, then the rest. *)
Lemma does_seq {A B : Type} (m : M keeps A) (f : A -> M keeps B) n ss1 ss2 ls s a b :
  does m n ss1 [] s a -> (∀ s', after n ss1 [] s s' -> does (f a) n ss2 ls s' b) -> does (m ≫= f) n (ss1 ++ ss2) ls s b.
Proof. apply (does_bind m f n ss1 ss2 [] ls). Qed.

Lemma does_suspect n ss s : ready s -> does (suspect n ss) n ss [] s ().
Proof.
  intros Hr. eexists. split; [done|]. split; [done|by rewrite app_nil_r|done|]. destruct Hr. by split.
Qed.
Lemma does_check n ss s : ready s -> does (check n (Ok ss)) n ss [] s ().
Proof. apply does_suspect. Qed.
Lemma does_report n ss s : ready s -> does (check_report n (Some (Ok ss))) n ss [] s ().
Proof. apply does_suspect. Qed.
Lemma does_follow {A : Type} (a : A) n s : ready s -> does (follow (Some a)) n [] [] s a.
Proof. intros Hr. exists s. split; [done|by apply after_refl]. Qed.
Lemma does_lift {A : Type} (a : A) n s : ready s -> does (lift (Ok a)) n [] [] s a.
Proof. intros Hr. exists s. split; [done|by apply after_refl]. Qed.
Lemma get_cluster {A : Type} (f : IPCache -> A) s : ready s -> from_cluster api (λ c a, reading c a f) s = (s, Ok (f c)).
Proof.
  intros Hr. pose proof (nm_built Hn) as Hb. pose proof (rd_cluster s Hr) as E.
  unfold from_cluster, reading, BuildClusterIPCache. rewrite E, Hb, <- E. by destruct s.
Qed.
Definition port_service (port : Z) (protocol : string) : option Service :=
  List.find (λ x, existsb (λ p, (u16 (sp_NodePort p) =? port) && EqualFold (sp_Protocol p) protocol) (svc_Ports x)) (values (serviceCache c)).
Lemma get_node (name : string) s : ready s -> from_cluster api (λ c a, GetNodeFromName c a name) s = (s, Ok (node_named name)).
Proof. exact (get_cluster (λ c, List.find (λ x, String.eqb (node_Name x) name) (values (nodeCache c))) s). Qed.
Lemma get_pod_named (namespace name : string) s : ready s -> from_cluster api (λ c a, GetPodFromName c a namespace name) s = (s, Ok (pod_named namespace name)).
Proof. exact (get_cluster (λ c, List.find (λ p, String.eqb (pod_Namespace p) namespace && String.eqb (pod_Name p) name) (values (podCache c))) s). Qed.
Lemma get_pod (ip : string) s : ready s -> from_cluster api (λ c a, GetPodFromIP c a ip) s = (s, Ok (podCache c !! ip)).
Proof. exact (get_cluster (λ c, podCache c !! ip) s). Qed.
Lemma get_node_ip (ip : string) s : ready s -> from_cluster api (λ c a, GetNodeFromIP c a ip) s = (s, Ok (nodeCache c !! ip)).
Proof. exact (get_cluster (λ c, nodeCache c !! ip) s). Qed.
Lemma get_type (ip : string) s : ready s -> from_cluster api (λ c a, GetIPType c a ip) s = (s, Ok (ip_type c ip)).
Proof. exact (get_cluster (λ c, ip_type c ip) s). Qed.
Lemma get_port (port : Z) (protocol : string) s :
  ready s -> from_cluster api (λ c a, GetServiceFromNodePort c a port protocol) s = (s, Ok (port_service port protocol)).
Proof.
  exact (get_cluster (λ c, List.find (λ x, existsb (λ p, (u16 (sp_NodePort p) =? port) && EqualFold (sp_Protocol p) protocol) (svc_Ports x)) (values (serviceCache c))) s).
Qed.
Lemma does_nothing {A : Type} (m : M keeps A) n s a : m s = (s, Ok a) -> ready s -> does m n [] [] s a.
Proof. intros E Hr. exists s. split; [done|by apply after_refl]. Qed.
Lemma read_node (name : string) n s : ready s -> does (from_cluster api (λ c a, GetNodeFromName c a name)) n [] [] s (node_named name).
Proof. intros Hr. apply does_nothing; [by apply get_node|done]. Qed.
Lemma read_pod (ip : string) n s : ready s -> does (from_cluster api (λ c a, GetPodFromIP c a ip)) n [] [] s (podCache c !! ip).
Proof. intros Hr. apply does_nothing; [by apply get_pod|done]. Qed.
Lemma read_pod_named (namespace name : string) n s : ready s -> does (from_cluster api (λ c a, GetPodFromName c a namespace name)) n [] [] s (pod_named namespace name).
Proof. intros Hr. apply does_nothing; [by apply get_pod_named|done]. Qed.
Lemma does_new_link (l : Link) n s : ready s -> does (new_link l) n [] [l] s (length (links s)).
Proof. intros [Hr Hi]. eexists. split; [done|]. split; [by rewrite alter_nothing|done|done|by split]. Qed.

(** ** The host *)

Lemma cached_info (h : flannelHost) (name : string) (node : Node) (info : flannelNodeInfo) s :
  ready s -> rt (fh_netNode h) = Some (fh_route h) -> node_named name = Some node -> node_data (fh_route h) node = Ok info ->
  does (getDstNodeInfo api h name) (fh_netNode h) [] [] s info.
Proof.
  intros Hr Hrt Hnode Hdata. unfold getDstNodeInfo, does. destruct (k_infos (plugin s) !! fh_netNode h ≫= λ m, m !! name) as [i|] eqn:E.
  - apply bind_Some in E as (m & Hm & Hi). destruct (rd_infos s Hr _ _ _ _ Hm Hi) as (r & x & Er & Ex & Ed).
    assert (i = info) as -> by congruence. exists s. split; [done|by apply after_refl].
  - unfold readDstNodeInfo. destruct (read_node name (fh_netNode h) s Hr) as (s1 & E1 & H1).
    erewrite bind_ok; [|exact E1]. rewrite Hnode, Hdata. eexists. split; [done|].
    destruct H1 as [Hn1 Hl1 Hm1 [Hc1 Hi1]]. split; [done|done|done|]. split; [done|]. cbn [plugin set_plugin k_infos].
    intros i m nm inf. destruct (decide (i = fh_netNode h)) as [->|Hne]; [rewrite lookup_insert_eq|rewrite lookup_insert_ne by done; apply Hi1].
    intros [= <-]. destruct (decide (nm = name)) as [->|Hnm]; [rewrite lookup_insert_eq; intros [= <-]; eauto|].
    rewrite lookup_insert_ne by done. destruct (k_infos (plugin s1) !! fh_netNode h) as [m|] eqn:Em; cbn; [|by rewrite lookup_empty].
    intros Hi. by eapply Hi1.
Qed.

(** What a host needs to go through its checks: a router and tables that can
    be used, expected routes that can be read, and Flannel's annotations on
    every node that has a pod. *)
Record host_ok (fuel : nat) (cluster : IPNet) (h : flannelHost) : Prop := MkHostOk {
  ho_rt : rt (fh_netNode h) = Some (fh_route h);
  ho_router : router_total (ns_Router (fh_ns h));
  ho_hooks : hooks_end fuel (ns_Netfilter (fh_ns h));
  ho_local : fr_localPodCIDR (fh_route h) = Some (fh_podCIDR h);
  ho_cluster : fh_clusterCIDR h = Some cluster ∧ fr_clusterCIDR (fh_route h) = Some cluster;
  ho_routes : ∀ k e, fr_routes (fh_route h) !! k = Some e -> is_Some (ParseCIDR k) ∧ ra_Dst e = None;
  ho_pods : ∀ ip pod, podCache c !! ip = Some pod -> ∃ node info, node_named (pod_NodeName pod) = Some node ∧ node_data (fh_route h) node = Ok info;
}.

Definition info_of (h : flannelHost) (ip : IP) : option flannelNodeInfo :=
  pod ← podCache c !! IP_String ip; node ← node_named (pod_NodeName pod);
  match node_data (fh_route h) node with Ok info => Some info | _ => None end.
(** What a host expects of the route to an address. *)
Definition expectation (h : flannelHost) (cluster : IPNet) (ip : IP) : option RouteAssertion :=
  if Contains_IP (fh_podCIDR h) ip || negb (Contains_IP cluster ip)
  then match expected_route (fr_routes (fh_route h)) ip with Ok e => e | _ => None end
  else fi_Route <$> info_of h ip.
Definition asserted (h : flannelHost) (cluster : IPNet) (pkt : Packet) : list suspicion :=
  match expectation h cluster (Dst pkt) with
  | Some e => susp_list (AssertRoute (ns_Router (fh_ns h)) e pkt EmptyString EmptyString)
  | None => []
  end.

Section host.
Context (fuel : nat) (cluster : IPNet) (h : flannelHost) (Hh : host_ok fuel cluster h).
Abbreviation self := (fh_netNode h).

Lemma expected_route_total (r : route) (ip : IP) :
  (∀ k e, r !! k = Some e -> is_Some (ParseCIDR k) ∧ ra_Dst e = None) -> ∃ o, expected_route r ip = Ok o ∧ ∀ e, o = Some e -> ra_Dst e = None.
Proof.
  intros Hr. unfold expected_route. destruct (mapM (λ kv, ParseCIDR kv.1) (map_to_list r)) as [cs|] eqn:E.
  - eexists. split; [done|]. intros e. destruct (smallestMatchingCIDR ip cs) as [x|]; [|done]. intros [= <-].
    destruct (r !! IPNet_String x) as [e|] eqn:Ee; [|done]. by apply (Hr _ _ Ee).
  - apply mapM_None in E as ([k e] & Hin%elem_of_map_to_list & Hk)%Exists_exists. destruct (Hr _ _ Hin) as [[x Hx] _]. cbn in Hk. congruence.
Qed.
Lemma node_data_Dst (r : flannelRoute) (node : Node) (info : flannelNodeInfo) : node_data r node = Ok info -> ra_Dst (fi_Route info) = None.
Proof.
  unfold node_data. destruct (ParseCIDR_IP _) as [[ip n]|]; [|done]. destruct (String.eqb _ _); [done|].
  destruct (_ !! backend_type) as [b|]; [|done]. destruct (EqualFold b _); [by intros [= <-]|]. destruct (EqualFold b _); by intros [= <-].
Qed.

Lemma getDstInfo_does (pkt : Packet) s : ready s -> does (getDstInfo api h pkt) self [] [] s (info_of h (Dst pkt)).
Proof.
  intros Hr. unfold getDstInfo. eapply does_skip; [by apply read_pod|]. intros s1 H1. pose proof (af_ready _ _ _ _ _ H1) as Hr1.
  unfold info_of. destruct (podCache c !! IP_String (Dst pkt)) as [pod|] eqn:Ep; [|by apply does_ret].
  destruct (ho_pods fuel cluster h Hh _ _ Ep) as (node & info & En & Ei). cbn [mbind option_bind]. rewrite En. cbn [mbind option_bind]. rewrite Ei.
  eapply does_skip; [eapply cached_info; [done|apply Hh|done|done]|]. intros s2 H2. apply does_ret. by eapply af_ready.
Qed.

Lemma info_of_Dst (ip : IP) (info : flannelNodeInfo) : info_of h ip = Some info -> ra_Dst (fi_Route info) = None.
Proof.
  unfold info_of. intros (pod & _ & (node & _ & E)%bind_Some)%bind_Some. destruct (node_data (fh_route h) node) eqn:Ed; [|done|done].
  injection E as <-. by eapply node_data_Dst.
Qed.
Lemma does_route (e : RouteAssertion) (pkt : Packet) s : ready s -> ra_Dst e = None ->
  does (check self (AssertRoute (ns_Router (fh_ns h)) e pkt EmptyString EmptyString)) self
    (susp_list (AssertRoute (ns_Router (fh_ns h)) e pkt EmptyString EmptyString)) [] s ().
Proof. intros Hr He. rewrite AssertRoute_total at 1; [by apply does_check|apply Hh|done]. Qed.

Lemma Assert_flannel_does (pkt : Packet) s : ready s -> does (Assert_flannel api h pkt) self (asserted h cluster pkt) [] s ().
Proof.
  intros Hr. unfold Assert_flannel. rewrite (ho_local _ _ _ Hh), (proj2 (ho_cluster _ _ _ Hh)).
  eapply (does_skip _ _ _ _ _ _ (Contains_IP (fh_podCIDR h) (Dst pkt) || negb (Contains_IP cluster (Dst pkt)))).
  { exists s. split; [by destruct (Contains_IP (fh_podCIDR h) (Dst pkt))|by apply after_refl]. }
  intros s1 H1. pose proof (af_ready _ _ _ _ _ H1) as Hr1. unfold asserted, expectation.
  destruct (Contains_IP (fh_podCIDR h) (Dst pkt) || negb (Contains_IP cluster (Dst pkt))).
  - destruct (expected_route_total _ (Dst pkt) (ho_routes _ _ _ Hh)) as (o & Eo & Ho). unfold Assert_route. rewrite Eo.
    eapply does_skip; [by apply does_lift|]. intros s2 H2. pose proof (af_ready _ _ _ _ _ H2).
    destruct o as [e|]; [by apply does_route; [|apply Ho]|by apply does_ret].
  - eapply does_skip; [by apply getDstInfo_does|]. intros s2 H2. pose proof (af_ready _ _ _ _ _ H2).
    destruct (info_of h (Dst pkt)) as [info|] eqn:Ei; [|by apply does_ret]. apply does_route; [done|by eapply info_of_Dst].
Qed.
Lemma checkRoute_does (pkt : Packet) s : ready s -> does (checkRoute api h pkt) self (asserted h cluster pkt ++ asserted h cluster (ack pkt)) [] s ().
Proof.
  intros Hr. unfold checkRoute. eapply does_seq; [by apply Assert_flannel_does|]. intros s1 H1. apply Assert_flannel_does. by eapply af_ready.
Qed.

(** The device, the switch and the neighbour that a packet to another node
    needs. *)
Definition backend_checks (info : flannelNodeInfo) : list suspicion :=
  let ns := fh_ns h in
  susp_list (AssertNetDevice (ns_Interfaces ns) (if_Name (fi_Dev info)) (expect_device (if_MTU (fi_Dev info)) LinkUP)) ++
  AssertSysctls (ns_SysctlInfo ns) (sysctls_on [forwarding (if_Name (fi_Dev info))]) SuspicionLevelFatal ++
  if String.eqb (fi_BackendType info) FlannelBackendTypeVxlan
  then default [] (AssertVxlanVtep (ns_Interfaces ns) (fi_Vtep info) (fi_NodeIP info) flannelVxlanInterface) else [].
Lemma AssertBackend_does (pkt : Packet) (info : flannelNodeInfo) s : ready s -> info_of h (Dst pkt) = Some info ->
  does (AssertBackend api h pkt) self (backend_checks info) [] s ().
Proof.
  intros Hr Hi. unfold AssertBackend, backend_checks. eapply does_skip; [by apply getDstInfo_does|]. intros s1 H1. rewrite Hi.
  eapply does_seq; [rewrite AssertNetDevice_total at 1; apply does_check; by eapply af_ready|]. intros s2 H2.
  eapply does_seq; [apply does_suspect; by eapply af_ready|]. intros s3 H3. pose proof (af_ready _ _ _ _ _ H3).
  destruct (String.eqb _ _); [|by apply does_ret]. destruct (AssertVxlanVtep_total (ns_Interfaces (fh_ns h)) (fi_Vtep info) (fi_NodeIP info) flannelVxlanInterface) as [ss ->].
  by apply does_suspect.
Qed.

Definition sent_packet (info : flannelNodeInfo) (pkt : Packet) : Packet :=
  if String.eqb (fi_BackendType info) FlannelBackendTypeVxlan then encapsulated (fh_route h) info pkt else pkt.
Lemma Encap_does (pkt : Packet) (info : flannelNodeInfo) s : ready s -> info_of h (Dst pkt) = Some info ->
  does (Encap api h pkt) self [] [] s (sent_packet info pkt).
Proof.
  intros Hr Hi. unfold Encap, sent_packet. eapply does_skip; [by apply getDstInfo_does|]. intros s1 H1. pose proof (af_ready _ _ _ _ _ H1).
  rewrite Hi. destruct (String.eqb _ _); by apply does_ret.
Qed.

(** Inside the cluster's network nothing is masqueraded. *)
Lemma masquerade_inside (pkt : Packet) s : ready s -> Contains_IP cluster (Src pkt) = true -> Contains_IP cluster (Dst pkt) = true ->
  does (masquerade h pkt) self [] [] s pkt.
Proof.
  intros Hr H1 H2. unfold masquerade. destruct (fh_ipMasq h); cbn [negb]; [|by apply does_ret]. rewrite (proj1 (ho_cluster _ _ _ Hh)).
  eapply does_skip; [by apply does_follow|]. intros s1 Hs. unfold masquerades. rewrite H1, H2. cbn. apply does_ret. by eapply af_ready.
Qed.

Definition node_link (info : flannelNodeInfo) (pkt : Packet) : Link :=
  MkLink LinkInfra self None (sent_packet info pkt) (SimpleLinkAttribute (fh_iface h) EmptyString) None.
Lemma transmissionToNode_does (pkt : Packet) (node : Node) (info : flannelNodeInfo) s :
  ready s -> Contains_IP cluster (Src pkt) = true -> Contains_IP cluster (Dst pkt) = true -> info_of h (Dst pkt) = Some info ->
  does (transmissionToNode api None h pkt (Some node)) self ((asserted h cluster pkt ++ asserted h cluster (ack pkt)) ++ backend_checks info)
    [node_link info pkt] s (MkTransmission NetNodeTypeNode (node_Name node) (length (links s))).
Proof.
  intros Hr Hs Hd Hi. unfold transmissionToNode. eapply does_skip; [by apply masquerade_inside|]. intros s1 H1.
  eapply does_seq; [apply checkRoute_does; by eapply af_ready|]. intros s2 H2.
  rewrite <- (app_nil_r (backend_checks info)). eapply does_seq; [apply AssertBackend_does; [by eapply af_ready|done]|]. intros s3 H3.
  eapply does_skip; [apply Encap_does; [by eapply af_ready|done]|]. intros s4 H4.
  eapply does_skip; [apply read_node; by eapply af_ready|]. intros s5 H5.
  eapply does_skip; [apply does_ret; by eapply af_ready|]. intros s6 H6.
  replace (length (links s)) with (length (links s6)).
  2:{ by rewrite (same_links _ _ _ _ H6), (same_links _ _ _ _ H5), (same_links _ _ _ _ H4), (same_links _ _ _ _ H3), (same_links _ _ _ _ H2), (same_links _ _ _ _ H1). }
  apply (does_bind _ _ _ [] [] [node_link info pkt] [] s6 (length (links s6))); [apply does_new_link; by eapply af_ready|]. intros s7 H7.
  eapply does_skip; [apply does_follow; by eapply af_ready|]. intros s8 H8. apply does_ret. by eapply af_ready.
Qed.

Definition pod_link (pkt : Packet) : Link := MkLink LinkVeth self None pkt (SimpleLinkAttribute (fh_bridge h) EmptyString) None.
Lemma transmissionToPod_local (pkt : Packet) (pod : Pod) s :
  ready s -> Contains_IP cluster (Src pkt) = true -> Contains_IP cluster (Dst pkt) = true ->
  pod_HostNetwork pod = false -> pod_NodeName pod = kn_NodeName (fh_nodeInfo h) ->
  does (transmissionToPod api None h pkt (Some pod)) self (local_veth h pod ++ asserted h cluster pkt ++ asserted h cluster (ack pkt))
    [pod_link pkt] s (MkTransmission NetNodeTypePod (IP_String (Dst pkt)) (length (links s))).
Proof.
  intros Hr Hs Hd Hhn Hnn. unfold transmissionToPod. eapply does_skip; [by apply does_follow|]. intros s1 H1.
  rewrite Hhn, Hnn, String.eqb_refl. cbn [negb andb]. eapply does_seq; [apply does_suspect; by eapply af_ready|]. intros s2 H2.
  rewrite <- (app_nil_r (asserted h cluster pkt ++ _)). eapply does_seq; [apply checkRoute_does; by eapply af_ready|]. intros s3 H3.
  eapply does_skip; [apply masquerade_inside; [by eapply af_ready|done|done]|]. intros s4 H4.
  replace (length (links s)) with (length (links s4)).
  2:{ by rewrite (same_links _ _ _ _ H4), (same_links _ _ _ _ H3), (same_links _ _ _ _ H2), (same_links _ _ _ _ H1). }
  apply (does_bind _ _ _ [] [] [pod_link pkt] [] s4 (length (links s4))); [apply does_new_link; by eapply af_ready|]. intros s5 H5.
  apply does_ret. by eapply af_ready.
Qed.
Lemma transmissionToPod_remote (pkt : Packet) (pod : Pod) (node : Node) (info : flannelNodeInfo) s :
  ready s -> Contains_IP cluster (Src pkt) = true -> Contains_IP cluster (Dst pkt) = true ->
  node_named (pod_NodeName pod) = Some node -> pod_NodeName pod ≠ kn_NodeName (fh_nodeInfo h) -> info_of h (Dst pkt) = Some info ->
  does (transmissionToPod api None h pkt (Some pod)) self ((asserted h cluster pkt ++ asserted h cluster (ack pkt)) ++ backend_checks info)
    [node_link info pkt] s (MkTransmission NetNodeTypeNode (node_Name node) (length (links s))).
Proof.
  intros Hr Hs Hd Hnode Hne Hi. unfold transmissionToPod. eapply does_skip; [by apply does_follow|]. intros s1 H1.
  rewrite (proj2 (String.eqb_neq _ _) Hne), andb_false_r. eapply does_skip; [apply read_node; by eapply af_ready|]. intros s2 H2. rewrite Hnode.
  replace (length (links s)) with (length (links s2)) by (by rewrite (same_links _ _ _ _ H2), (same_links _ _ _ _ H1)).
  apply transmissionToNode_does; [by eapply af_ready|done..].
Qed.

(** ** Forwarding *)

Definition attributed (iif : string) (l : Link) : Link :=
  MkLink (l_Type l) (l_Source l) (l_Destination l) (l_Packet l) (l_SourceAttribute l) (Some (SimpleLinkAttribute iif EmptyString)).
Definition veth_checks (l : Link) : list suspicion :=
  match l_Type l, l_SourceAttribute l with
  | LinkVeth, VEthLinkAttribute _ _ peer => AssertVEthOnBridge (ns_Interfaces (fh_ns h)) peer (fh_bridge h)
  | _, _ => []
  end.
Definition filter_checks (pkt out : Packet) (iif : string) : list suspicion :=
  report_list (AssertNetfilterForward fuel (ns_Netfilter (fh_ns h)) pkt [out] iif).

Lemma does_veth (l : Link) s : ready s ->
  does (match l_Type l, l_SourceAttribute l with
        | LinkVeth, VEthLinkAttribute _ _ peer => suspect self (AssertVEthOnBridge (ns_Interfaces (fh_ns h)) peer (fh_bridge h))
        | _, _ => mret ()
        end) self (veth_checks l) [] s ().
Proof. intros Hr. unfold veth_checks. destruct (l_Type l); try by apply does_ret. destruct (l_SourceAttribute l); [by apply does_ret|by apply does_suspect]. Qed.

Lemma to_forward (u : nat) (l : Link) (pkt : Packet) (mk : Packet -> M keeps (Transmission nat)) ss (L : Link) (ty : NetNodeType) (id : string) (dst : Endpoint) (protocol : string) s :
  ready s -> links s !! u = Some l -> Decap (fh_route h) (l_Packet l) = Some pkt ->
  (∀ s, ready s -> does (mk pkt) self ss [L] s (MkTransmission ty id (length (links s)))) ->
  let iif := detectIif h (Some (l_Type l)) in let t := MkTransmission ty id (length (links s)) in
  ∃ s', to fuel h (Some u) dst protocol mk s = (s', Ok [t]) ∧
    nodes s' = alter (DoAction (ActionForward u [link t])) self (alter (AddSuspicions (veth_checks l ++ ss ++ filter_checks pkt (l_Packet L) iif)) self (nodes s)) ∧
    links s' = alter (attributed iif) u (links s) ++ [L] ∧ k_manager (plugin s') = k_manager (plugin s) ∧ ready s'.
Proof.
  intros Hr Hu Hdec Hmk iif t. unfold to. assert (get_link u s = (s, Ok l)) as Eg by (unfold get_link; by rewrite Hu).
  rewrite (bind_ok _ _ _ _ _ Eg). destruct (does_veth l s Hr) as (s1 & E1 & H1). rewrite (bind_ok _ _ _ _ _ E1).
  set (s2 := set_links (alter (attributed iif) u) s1).
  assert (set_DestinationAttribute u (SimpleLinkAttribute iif EmptyString) s1 = (s2, Ok ())) as E2 by done.
  fold iif. rewrite (bind_ok _ _ _ _ _ E2), Hdec. destruct H1 as [Hn1 Hl1 Hm1 [Hc1 Hi1]].
  assert (links s2 = alter (attributed iif) u (links s)) as El2 by (cbn [links s2 set_links]; by rewrite Hl1, app_nil_r).
  assert (length (links s2) = length (links s)) as Elen by (rewrite El2; apply length_alter).
  assert (ready s2) as Hr2 by (by split). destruct (Hmk s2 Hr2) as (s3 & E3 & [Hn3 Hl3 Hm3 Hr3]). rewrite Elen in E3. rewrite (bind_ok _ _ _ _ _ E3). cbn [link].
  assert (get_link (length (links s)) s3 = (s3, Ok L)) as E4.
  { unfold get_link. rewrite Hl3, lookup_app_r, Elen, Nat.sub_diag by lia. done. }
  rewrite (bind_ok _ _ _ _ _ E4). destruct (does_report self (filter_checks pkt (l_Packet L) iif) s3 Hr3) as (s5 & E5 & [Hn5 Hl5 Hm5 [Hc5 Hi5]]).
  unfold filter_checks in E5. rewrite <- forward_total in E5 by apply Hh. rewrite (bind_ok _ _ _ _ _ E5). eexists.
  split; [done|]. split; [|split; [|split]].
  - cbn [nodes set_nodes]. rewrite Hn5, Hn3. cbn [nodes s2 set_links]. by rewrite Hn1, !alter_twice, app_assoc.
  - cbn [links set_nodes]. by rewrite Hl5, app_nil_r, Hl3, El2.
  - cbn [plugin set_nodes]. rewrite Hm5, Hm3. cbn [plugin s2 set_links]. done.
  - by split.
Qed.

(** ** Receiving *)

Definition destined (n : nat) (l : Link) : Link :=
  MkLink (l_Type l) (l_Source l) (Some n) (l_Packet l) (l_SourceAttribute l) (l_DestinationAttribute l).
Definition arrived (n : nat) (iif : string) (l : Link) : Link :=
  MkLink (l_Type l) (l_Source l) (Some n) (l_Packet l) (l_SourceAttribute l) (Some (SimpleLinkAttribute iif EmptyString)).

(** Node [self] has received link [u], on [iif], added [ss], and sends what
    it received as link [L]. *)
Record forwarded (iif : string) ss (u : nat) (L : Link) s s' : Prop := MkForwarded {
  fw_nodes : nodes s' = alter (DoAction (ActionForward u [length (links s)])) self (alter (AddSuspicions ss) self (nodes s));
  fw_links : links s' = alter (arrived self iif) u (links s) ++ [L];
  fw_manager : k_manager (plugin s') = k_manager (plugin s);
  fw_ready : ready s';
}.

Lemma alter_arrived n (iif : string) (u : nat) ls : alter (attributed iif) u (alter (destined n) u ls) = alter (arrived n iif) u ls.
Proof. revert u. induction ls as [|x ls IH]; intros [|u]; [done..|]. cbn. f_equal. apply IH. Qed.

Context (processor : Processor).
Abbreviation receives u := (Base_Receive api self (kn_NodeName (fh_nodeInfo h)) (flannelHost_node api fuel processor None h) u).

(** Common to both ways to a pod. *)
Lemma to_pod_forwards (u : nat) (l : Link) (inner : Packet) (pod : option Pod) ss (L : Link) (ty : NetNodeType) (id : string) (dst : Endpoint) (protocol : string) s :
  ready s -> links s !! u = Some l -> Decap (fh_route h) (l_Packet l) = Some inner ->
  (∀ s, ready s -> does (transmissionToPod api None h inner pod) self ss [L] s (MkTransmission ty id (length (links s)))) ->
  let iif := detectIif h (Some (l_Type l)) in
  ∃ s', Host_ToPod api fuel None h (Some u) dst protocol pod (set_links (alter (destined self) u) s) = (s', Ok [MkTransmission ty id (length (links s))]) ∧
    forwarded iif (veth_checks l ++ ss ++ filter_checks inner (l_Packet L) iif) u L s s'.
Proof.
  intros Hr Hu Hdec Hmk iif. set (s1 := set_links (alter (destined self) u) s). assert (ready s1) as Hr1 by (destruct Hr; by split).
  assert (links s1 !! u = Some (destined self l)) as Hu1 by (change (links s1) with (alter (destined self) u (links s)); by rewrite list_lookup_alter_eq, Hu).
  destruct (to_forward u (destined self l) inner (λ pkt, transmissionToPod api None h pkt pod) ss L ty id dst protocol s1 Hr1 Hu1 Hdec Hmk) as (s' & E & Hn' & Hl' & Hm' & Hr').
  assert (length (links s1) = length (links s)) as Elen by apply length_alter. rewrite Elen in *. exists s'. split; [exact E|].
  split; [exact Hn'| |exact Hm'|exact Hr']. rewrite Hl'. change (links s1) with (alter (destined self) u (links s)). by rewrite alter_arrived.
Qed.

Lemma receive_to_pod (u : nat) (l : Link) (pod : Pod) ss (L : Link) (ty : NetNodeType) (id : string) s :
  ready s -> links s !! u = Some l -> Encap_of (l_Packet l) = None -> podCache c !! IP_String (Dst (l_Packet l)) = Some pod ->
  (∀ s, ready s -> does (transmissionToPod api None h (l_Packet l) (Some pod)) self ss [L] s (MkTransmission ty id (length (links s)))) ->
  let iif := detectIif h (Some (l_Type l)) in
  ∃ s', receives u s = (s', Ok [MkTransmission ty id (length (links s))]) ∧
    forwarded iif (veth_checks l ++ ss ++ filter_checks (l_Packet l) (l_Packet L) iif) u L s s'.
Proof.
  intros Hr Hu He Hp Hmk iif. unfold Base_Receive. set (s1 := set_links (alter (destined self) u) s).
  assert (ready s1) as Hr1 by (destruct Hr; by split). assert (set_Destination u self s = (s1, Ok ())) as E1 by done. rewrite (bind_ok _ _ _ _ _ E1).
  assert (get_link u s1 = (s1, Ok (destined self l))) as E2.
  { unfold get_link. change (links s1) with (alter (destined self) u (links s)). by rewrite list_lookup_alter_eq, Hu. }
  rewrite (bind_ok _ _ _ _ _ E2). cbn [l_Packet destined]. rewrite (bind_ok _ _ _ _ _ (get_type _ s1 Hr1)).
  unfold ip_type. rewrite Hp. cbn [ep_IP]. rewrite (bind_ok _ _ _ _ _ (get_pod _ s1 Hr1)), Hp. cbn [ToPod flannelHost_node].
  apply to_pod_forwards; [done|done| |done]. unfold Decap. by rewrite He.
Qed.

Lemma receive_encapsulated (u : nat) (l : Link) (inner : Packet) (node : Node) (pod : Pod) ss (L : Link) (ty : NetNodeType) (id : string) s :
  ready s -> links s !! u = Some l -> Encap_of (l_Packet l) = Some inner -> Equal (Dst (l_Packet l)) (fr_localVTEP (fh_route h)) = true ->
  podCache c !! IP_String (Dst (l_Packet l)) = None -> nodeCache c !! IP_String (Dst (l_Packet l)) = Some node ->
  node_Name node = kn_NodeName (fh_nodeInfo h) -> port_service (Dport (l_Packet l)) (Protocol (l_Packet l)) = None ->
  podCache c !! IP_String (Dst inner) = Some pod ->
  (∀ s, ready s -> does (transmissionToPod api None h inner (Some pod)) self ss [L] s (MkTransmission ty id (length (links s)))) ->
  let iif := detectIif h (Some (l_Type l)) in
  ∃ s', receives u s = (s', Ok [MkTransmission ty id (length (links s))]) ∧
    forwarded iif (veth_checks l ++ ss ++ filter_checks inner (l_Packet L) iif) u L s s'.
Proof.
  intros Hr Hu He Hv Hno Hnode Hname Hport Hp Hmk iif. unfold Base_Receive. set (s1 := set_links (alter (destined self) u) s).
  assert (ready s1) as Hr1 by (destruct Hr; by split). assert (set_Destination u self s = (s1, Ok ())) as E1 by done. rewrite (bind_ok _ _ _ _ _ E1).
  assert (get_link u s1 = (s1, Ok (destined self l))) as E2.
  { unfold get_link. change (links s1) with (alter (destined self) u (links s)). by rewrite list_lookup_alter_eq, Hu. }
  rewrite (bind_ok _ _ _ _ _ E2). cbn [l_Packet destined]. rewrite (bind_ok _ _ _ _ _ (get_type _ s1 Hr1)).
  unfold ip_type. rewrite Hno, Hnode. cbn [ep_IP ep_Port]. rewrite (bind_ok _ _ _ _ _ (get_node_ip _ s1 Hr1)), Hnode.
  assert (follow (Some node) s1 = (s1, Ok node)) as E3 by done. rewrite (bind_ok _ _ _ _ _ E3), Hname, String.eqb_refl.
  rewrite (bind_ok _ _ _ _ _ (get_port _ _ s1 Hr1)), Hport. cbn [Serve flannelHost_node]. unfold Host_Serve.
  rewrite (bind_ok _ _ _ _ _ E2). cbn [l_Packet destined]. unfold Decap. rewrite He, Hv.
  rewrite (bind_ok _ _ _ _ _ (get_pod _ s1 Hr1)), Hp. apply to_pod_forwards; [done|done| |done]. unfold Decap. by rewrite He, Hv.
Qed.
End host.

(** ** Pods *)

(** Node [n] added [ss] and did [a]; the links are now [ls]. *)
Record acted n ss (a : Action) ls s s' : Prop := MkActed {
  ac_nodes : nodes s' = alter (DoAction a) n (alter (AddSuspicions ss) n (nodes s));
  ac_links : links s' = ls;
  ac_manager : k_manager (plugin s') = k_manager (plugin s);
  ac_ready : ready s';
}.

Section pod.
Context (p : simpleVEthPod) (Hp : router_total (ns_Router (kp_NetNS (sp_podInfo p)))).
Abbreviation self := (sp_netNode p).
Abbreviation ns := (kp_NetNS (sp_podInfo p)).

Definition pod_checks (pod : Pod) : list suspicion :=
  AssertPod pod ++ AssertDefaultRule (ns_RuleInfo ns) ++ AssertNoPolicyRoute (ns_RuleInfo ns) ++ AssertNoIPTables (ns_IPTables ns) ++
  AssertDefaultAccept (ns_IPTables ns) ++ susp_list (AssertNetDevice (ns_Interfaces ns) "eth0" (expect_device (sp_mtu p) LinkUP)) ++
  susp_list (AssertNetDevice (ns_Interfaces ns) "lo" (expect_device 0 LinkUP)).
Lemma pod_assert_does (pod : Pod) s : ready s -> pod_named (kp_Namespace (sp_podInfo p)) (kp_PodName (sp_podInfo p)) = Some pod ->
  does (pod_assert api p) self (pod_checks pod) [] s ().
Proof.
  intros Hr Hpod. unfold pod_assert, pod_checks. eapply does_skip; [by apply read_pod_named|]. intros s1 H1. rewrite Hpod.
  eapply does_skip; [apply does_follow; by eapply af_ready|]. intros s2 H2.
  do 5 (eapply does_seq; [apply does_suspect; by eapply af_ready|]; intros ? ?).
  eapply does_seq; [rewrite AssertNetDevice_total at 1; apply does_check; by eapply af_ready|]. intros ? ?.
  rewrite AssertNetDevice_total at 1. apply does_check. by eapply af_ready.
Qed.

Lemma does_eth0 (pkt : Packet) s : ready s ->
  does (check self (AssertRoute (ns_Router ns) eth0_route pkt EmptyString EmptyString)) self
    (susp_list (AssertRoute (ns_Router ns) eth0_route pkt EmptyString EmptyString)) [] s ().
Proof. intros Hr. rewrite AssertRoute_total at 1; [by apply does_check|done|done]. Qed.
Lemma act_acted n ss (a : Action) ls s s' : after n ss ls s s' -> ∃ s2, act n a s' = (s2, Ok ()) ∧ acted n ss a (links s ++ ls) s s2.
Proof.
  intros [Hn1 Hl1 Hm1 [Hc1 Hi1]]. eexists. split; [done|]. split; [cbn [nodes set_nodes]; by rewrite Hn1|done|done|by split].
Qed.

(** The link and the checks of a packet that the pod sends. *)
Definition first_link (pkt : Packet) (addr : string) : Link :=
  MkLink LinkVeth self None (with_Src pkt (parse_ip addr))
    (VEthLinkAttribute "eth0" addr match find_name (ns_Interfaces ns) "eth0" with Some i => if_PeerIndex i | None => 0 end) None.
Definition send_checks (pod : Pod) (pkt : Packet) (addr : string) (r : Route_) : list suspicion :=
  pod_checks pod ++ AssertTrue (negb (neigh_failed (ProbeRouteNeigh (ns_Interfaces ns) r (Dst pkt)))) SuspicionLevelCritical (ArpFailed (r_Gw r)) ++
  susp_list (AssertRoute (ns_Router ns) eth0_route (with_Src pkt (parse_ip addr)) EmptyString EmptyString).
Lemma Pod_Send_acts (pod : Pod) (dst : Endpoint) (protocol addr : string) (r : Route_) s :
  ready s -> pod_named (kp_Namespace (sp_podInfo p)) (kp_PodName (sp_podInfo p)) = Some pod ->
  RouteSrc (ns_Router ns) (first_packet dst protocol) EmptyString EmptyString = Ok (addr, r) ->
  ∃ s', Pod_Send api p dst protocol s = (s', Ok [MkTransmission NetNodeTypeNode (kp_NodeName (sp_podInfo p)) (length (links s))]) ∧
    acted self (send_checks pod (first_packet dst protocol) addr r) (ActionSend [length (links s)]) (links s ++ [first_link (first_packet dst protocol) addr]) s s'.
Proof.
  intros Hr Hpod Hsrc. unfold Pod_Send. destruct (pod_assert_does pod s Hr Hpod) as (s1 & E1 & H1). rewrite (bind_ok _ _ _ _ _ E1), Hsrc.
  destruct (does_suspect self (AssertTrue (negb (neigh_failed (ProbeRouteNeigh (ns_Interfaces ns) r (Dst (first_packet dst protocol))))) SuspicionLevelCritical (ArpFailed (r_Gw r))) s1
    (af_ready _ _ _ _ _ H1)) as (s2 & E2 & H2). rewrite (bind_ok _ _ _ _ _ E2).
  destruct (does_new_link (first_link (first_packet dst protocol) addr) self s2 (af_ready _ _ _ _ _ H2)) as (s3 & E3 & H3).
  rewrite (bind_ok _ _ _ _ _ E3). destruct (does_eth0 (with_Src (first_packet dst protocol) (parse_ip addr)) s3 (af_ready _ _ _ _ _ H3)) as (s4 & E4 & H4).
  rewrite (bind_ok _ _ _ _ _ E4). rewrite (same_links _ _ _ _ H2), (same_links _ _ _ _ H1).
  pose proof (after_trans _ _ _ _ _ _ _ _ H1 (after_trans _ _ _ _ _ _ _ _ H2 (after_trans _ _ _ _ _ _ _ _ H3 H4))) as Ha.
  destruct (act_acted _ _ (ActionSend [length (links s)]) _ _ _ Ha) as (s5 & E5 & H5). rewrite (bind_ok _ _ _ _ _ E5). exists s5. split; [done|]. exact H5.
Qed.

Definition receive_checks (pod : Pod) (pkt : Packet) : list suspicion :=
  pod_checks pod ++ susp_list (AssertRoute (ns_Router ns) eth0_route (ack pkt) EmptyString EmptyString) ++
  AssertListen (ns_ConnStats ns) (Dst pkt) (Dport pkt) (Protocol pkt).
Lemma Pod_Receive_acts (pod : Pod) (u : nat) (l : Link) s :
  ready s -> pod_named (kp_Namespace (sp_podInfo p)) (kp_PodName (sp_podInfo p)) = Some pod -> links s !! u = Some l -> l_Type l = LinkVeth ->
  ∃ s', Pod_Receive api p u s = (s', Ok []) ∧ acted self (receive_checks pod (l_Packet l)) (ActionServe u) (alter (arrived self "eth0") u (links s)) s s'.
Proof.
  intros Hr Hpod Hu Hty. unfold Pod_Receive. assert (get_link u s = (s, Ok l)) as Eg by (unfold get_link; by rewrite Hu).
  rewrite (bind_ok _ _ _ _ _ Eg), bool_decide_eq_false_2 by (by rewrite Hty; intros []).
  set (s1 := set_links (alter (destined self) u) s). assert (set_Destination u self s = (s1, Ok ())) as E1 by done. rewrite (bind_ok _ _ _ _ _ E1).
  set (s2 := set_links (alter (attributed "eth0") u) s1).
  assert (set_DestinationAttribute u (SimpleLinkAttribute "eth0" EmptyString) s1 = (s2, Ok ())) as E2 by done. rewrite (bind_ok _ _ _ _ _ E2).
  assert (ready s2) as Hr2 by (destruct Hr; by split). destruct (pod_assert_does pod s2 Hr2 Hpod) as (s3 & E3 & H3). rewrite (bind_ok _ _ _ _ _ E3).
  destruct (does_eth0 (ack (l_Packet l)) s3 (af_ready _ _ _ _ _ H3)) as (s4 & E4 & H4). rewrite (bind_ok _ _ _ _ _ E4).
  destruct (does_suspect self (AssertListen (ns_ConnStats ns) (Dst (l_Packet l)) (Dport (l_Packet l)) (Protocol (l_Packet l))) s4 (af_ready _ _ _ _ _ H4)) as (s5 & E5 & H5).
  rewrite (bind_ok _ _ _ _ _ E5). pose proof (after_trans _ _ _ _ _ _ _ _ H3 (after_trans _ _ _ _ _ _ _ _ H4 H5)) as Ha.
  destruct (act_acted _ _ (ActionServe u) _ _ _ Ha) as (s6 & E6 & [Hn6 Hl6 Hm6 Hr6]). rewrite (bind_ok _ _ _ _ _ E6). exists s6. split; [done|].
  split; [exact Hn6| |exact Hm6|exact Hr6]. rewrite Hl6, app_nil_r.
  change (links s2) with (alter (attributed "eth0") u (alter (destined self) u (links s))). apply alter_arrived.
Qed.
End pod.
End run.
End SkoopFlannelRun.
