(* ===== verification/SkoopFlannelPath.v ===== *)
(** The diagnosis of a connection between two pods of a Flannel network, from
    the dumps of the nodes to the path that is shown and to what it means that
    nothing is suspicious.  This is where routing, iptables, the cluster, the
    collector, the checks, the plugin and the queue come together. *)

From S2P Require Import Prelude GoStrings GoNet GoResult SkoopRoute SkoopIptables SkoopXml SkoopCluster SkoopService SkoopPolicy SkoopAssert SkoopDiagnose SkoopNode SkoopCollect SkoopFlannel SkoopFlannelExample SkoopFlannelRun.
Import SkoopRoute SkoopIptables SkoopXml SkoopCluster SkoopService SkoopPolicy SkoopAssert SkoopDiagnose SkoopNode SkoopCollect SkoopFlannel SkoopFlannelExample SkoopFlannelRun.

Module SkoopFlannelPath.

Section path.
Context `{MapOrder} (api : nat -> answers) (c : IPCache) (fuel : nat) (processor : Processor).
Context (ReadFromString : string -> option (option Element)) (collector : string -> option NodeNetworkStackDump) (pl : flannelPlugin).
Abbreviation world := (state_of keeps).
Abbreviation put_manager := (λ m k, MkKeeps (k_infos k) m).

(** ** Making nodes *)

(** The host that [newFlannelHost] makes. *)
Definition host_of (n : nat) (info : NodeInfo) (node : Node) (o : flannelHostOptions) : option flannelHost :=
  podCIDR ← ParseCIDR (node_PodCIDR node);
  let ifs := ns_Interfaces (kn_NetNS info) in
  let iface := if String.eqb (o_Interface o) EmptyString then LookupDefaultIfaceName ifs else o_Interface o in
  if String.eqb iface EmptyString then None else
  dev ← find_name ifs iface;
  Some (MkHost n info (o_Bridge o) (o_ClusterCIDR o) podCIDR iface (o_CNIMode o) (o_IPMasq o) (o_Gateway o)
    (newFlannelRoute (host_routes podCIDR (o_Bridge o) dev iface (o_Gateway o)) (Some podCIDR) (o_ClusterCIDR o) node (o_CNIMode o) iface)).
Definition basic_checks (h : flannelHost) (node : Node) : list suspicion :=
  let ns := fh_ns h in
  AssertNode node ++ AssertDefaultRule (ns_RuleInfo ns) ++ AssertNoPolicyRoute (ns_RuleInfo ns) ++ AssertDefaultAccept (ns_IPTables ns) ++
  susp_list (AssertNetDevice (ns_Interfaces ns) (fh_iface h) (expect_device 1500 LinkUP)) ++ AssertHostBridge (ns_Interfaces ns) (fh_bridge h) ++
  AssertSysctls (ns_SysctlInfo ns)
    (sysctls_on ["net.bridge.bridge-nf-call-iptables"%string; "net.ipv4.ip_forward"%string; forwarding (fh_bridge h); forwarding (fh_iface h)]) SuspicionLevelFatal.

Context (rt : nat -> option flannelRoute) (Hn : named c).
Implicit Types (s : world).
Abbreviation ready := (SkoopFlannelRun.ready c rt).

(** A node was made: it is the last one. *)
Record made (node : NetNode) (m : manager) s s' : Prop := MkMade {
  ma_nodes : nodes s' = nodes s ++ [node];
  ma_links : links s' = links s;
  ma_manager : k_manager (plugin s') = m;
  ma_ready : ready s';
}.

Lemma basicCheck_does (h : flannelHost) (node : Node) s : ready s -> node_named c (kn_NodeName (fh_nodeInfo h)) = Some node ->
  does c rt (basicCheck api h) (fh_netNode h) (basic_checks h node) [] s ().
Proof.
  intros Hr Hnode. unfold basicCheck, basic_checks. eapply does_skip; [by apply read_node|]. intros s1 H1. rewrite Hnode.
  eapply does_skip; [apply does_follow; by eapply af_ready|]. intros s2 H2.
  do 4 (eapply does_seq; [apply does_suspect; by eapply af_ready|]; intros ? ?).
  eapply does_seq; [rewrite AssertNetDevice_total at 1; apply does_check; by eapply af_ready|]. intros ? ?.
  eapply does_seq; [apply does_suspect; by eapply af_ready|]. intros ? ?. apply does_suspect. by eapply af_ready.
Qed.

Lemma alter_last {A : Type} (f : A -> A) (l : list A) (x : A) : alter f (length l) (l ++ [x]) = l ++ [f x].
Proof. induction l as [|y l IH]; [done|]. cbn. f_equal. apply IH. Qed.

Lemma newFlannelHost_makes (info : NodeInfo) (node : Node) (h : flannelHost) s :
  ready s -> node_named c (kn_NodeName info) = Some node -> host_of (length (nodes s)) info node (fp_hostOptions pl) = Some h ->
  ∃ s', newFlannelHost api info (fp_hostOptions pl) s = (s', Ok h) ∧
    made (AddSuspicions (basic_checks h node) (NewNetNode (kn_NodeName info) NetNodeTypeNode)) (k_manager (plugin s)) s s'.
Proof.
  intros Hr Hnode Hh. unfold newFlannelHost. rewrite (bind_ok _ _ _ _ _ (get_node api c rt Hn _ s Hr)), Hnode.
  assert (follow (Some node) s = (s, Ok node)) as E1 by done. rewrite (bind_ok _ _ _ _ _ E1).
  unfold host_of in Hh. apply bind_Some in Hh as (cidr & -> & Hh).
  set (s1 := set_nodes (λ l, l ++ [NewNetNode (kn_NodeName info) NetNodeTypeNode]) s).
  assert (new_node (NewNetNode (kn_NodeName info) NetNodeTypeNode) s = (s1, Ok (length (nodes s)))) as E2 by done. rewrite (bind_ok _ _ _ _ _ E2).
  set (iface := if String.eqb (o_Interface (fp_hostOptions pl)) EmptyString then LookupDefaultIfaceName (ns_Interfaces (kn_NetNS info)) else o_Interface (fp_hostOptions pl)) in *.
  destruct (String.eqb iface EmptyString); [done|]. apply bind_Some in Hh as (dev & -> & [= Hh]).
  assert (ready s1) as Hr1 by (destruct Hr; by split). rewrite (bind_ok _ _ _ _ _ (get_node api c rt Hn _ s1 Hr1)), Hnode.
  assert (follow (Some node) s1 = (s1, Ok node)) as E3 by done. rewrite (bind_ok _ _ _ _ _ E3). rewrite Hh.
  assert (fh_nodeInfo h = info ∧ fh_netNode h = length (nodes s)) as [Hi Hp] by (by rewrite <- Hh).
  destruct (basicCheck_does h node s1 Hr1) as (s2 & E4 & [Hn2 Hl2 Hm2 Hr2]); [by rewrite Hi|].
  rewrite (bind_ok _ _ _ _ _ E4). exists s2. split; [done|]. split; [|by rewrite Hl2, app_nil_r|done|done].
  rewrite Hn2, Hp. change (nodes s1) with (nodes s ++ [NewNetNode (kn_NodeName info) NetNodeTypeNode]). apply alter_last.
Qed.

(** ** Collecting *)

Abbreviation CollectNode_ := (CollectNode ReadFromString collector api k_manager put_manager).
Abbreviation CollectPod_ := (CollectPod ReadFromString collector api k_manager put_manager).

Lemma CollectNode_cached (name : string) (info : NodeInfo) s : m_nodeCache (k_manager (plugin s)) !! name = Some info -> CollectNode_ name s = (s, Ok info).
Proof.
  intros E. unfold CollectNode. assert (cached_node k_manager name s = (s, Ok (Some info))) as E1 by (unfold cached_node; by rewrite E).
  by rewrite (bind_ok _ _ _ _ _ E1).
Qed.
Lemma CollectPod_cached (ns name : string) (info : PodInfo) s :
  m_podCache (k_manager (plugin s)) !! pod_key ns name = Some info -> CollectPod_ ns name s = (s, Ok (Some info)).
Proof.
  intros E. unfold CollectPod. assert (cached_pod k_manager (pod_key ns name) s = (s, Ok (Some info))) as E1 by (unfold cached_pod; by rewrite E).
  by rewrite (bind_ok _ _ _ _ _ E1).
Qed.

(** The state with another manager. *)
Definition managed (m : manager) s : world := set_plugin (MkKeeps (k_infos (plugin s)) m) s.
Lemma managed_ready (m : manager) s : ready s -> ready (managed m s).
Proof. intros [H1 H2]. by split. Qed.

Lemma CollectNode_builds (node : Node) (d : NodeNetworkStackDump) s :
  ready s -> node_named c (node_Name node) = Some node -> GetOSFromNode node = "linux"%string ->
  let m := k_manager (plugin s) in let name := node_Name node in
  m_nodeCache m !! name = None -> m_cache m !! name = None -> collector name = Some d -> complete ReadFromString d name ->
  ∃ m' info, CollectNode_ name s = (managed m' s, Ok info) ∧ host_info ReadFromString d name = Some info ∧
    m_cache m' = <[name := d]> (m_cache m) ∧ m_nodeCache m' = <[name := info]> (m_nodeCache m) ∧
    ∀ key, m_podCache m' !! key = match pod_info ReadFromString d name key with Some pod => Some pod | None => m_podCache m !! key end.
Proof.
  intros Hr Hnode Hos m name Hnc Hc Hcol Hcomp. fold name in Hnode. destruct (buildCache_exact ReadFromString collector m name d Hc Hcol Hcomp) as (m' & info & Eb & Hi & H1 & H2 & H3).
  exists m', info. split; [|done]. unfold CollectNode. assert (cached_node k_manager name s = (s, Ok None)) as E1 by (unfold cached_node; fold m; by rewrite Hnc).
  rewrite (bind_ok _ _ _ _ _ E1), (bind_ok _ _ _ _ _ (get_node api c rt Hn _ s Hr)), Hnode.
  assert (follow (Some node) s = (s, Ok node)) as E2 by done. rewrite (bind_ok _ _ _ _ _ E2), Hos. cbn [String.eqb Ascii.eqb Bool.eqb].
  assert (run_build ReadFromString collector k_manager put_manager name s = (managed m' s, Ok ())) as E3 by (unfold run_build; fold m; by rewrite Eb).
  rewrite (bind_ok _ _ _ _ _ E3). assert (cached_node k_manager name (managed m' s) = (managed m' s, Ok (Some info))) as E4.
  { unfold cached_node. cbn [plugin managed set_plugin k_manager]. by rewrite H2, lookup_insert_eq. }
  by rewrite (bind_ok _ _ _ _ _ E4).
Qed.

Lemma CollectPod_builds (pod : Pod) (d : NodeNetworkStackDump) (info : PodInfo) s :
  ready s -> pod_named c (pod_Namespace pod) (pod_Name pod) = Some pod ->
  let m := k_manager (plugin s) in let name := pod_NodeName pod in let key := pod_key (pod_Namespace pod) (pod_Name pod) in
  m_podCache m !! key = None -> m_cache m !! name = None -> collector name = Some d -> complete ReadFromString d name ->
  pod_info ReadFromString d name key = Some info ->
  ∃ m' ni, CollectPod_ (pod_Namespace pod) (pod_Name pod) s = (managed m' s, Ok (Some info)) ∧ host_info ReadFromString d name = Some ni ∧
    m_cache m' = <[name := d]> (m_cache m) ∧ m_nodeCache m' = <[name := ni]> (m_nodeCache m) ∧
    ∀ key, m_podCache m' !! key = match pod_info ReadFromString d name key with Some pod => Some pod | None => m_podCache m !! key end.
Proof.
  intros Hr Hpod m name key Hpc Hc Hcol Hcomp Hinfo. destruct (buildCache_exact ReadFromString collector m name d Hc Hcol Hcomp) as (m' & ni & Eb & Hi & H1 & H2 & H3).
  exists m', ni. split; [|done]. unfold CollectPod. fold key. assert (cached_pod k_manager key s = (s, Ok None)) as E1 by (unfold cached_pod; fold m; by rewrite Hpc).
  rewrite (bind_ok _ _ _ _ _ E1), (bind_ok _ _ _ _ _ (get_pod_named api c rt Hn _ _ s Hr)), Hpod. fold name.
  assert (run_build ReadFromString collector k_manager put_manager name s = (managed m' s, Ok ())) as E3 by (unfold run_build; fold m; by rewrite Eb).
  rewrite (bind_ok _ _ _ _ _ E3). assert (cached_pod k_manager key (managed m' s) = (managed m' s, Ok (Some info))) as E4.
  { unfold cached_pod. cbn [plugin managed set_plugin k_manager]. by rewrite H3, Hinfo. }
  by rewrite (bind_ok _ _ _ _ _ E4).
Qed.

(** ** The makers of the manager *)

Abbreviation mk_pod := (make_pod_node api ReadFromString collector pl).
Abbreviation mk_host := (make_host_node api ReadFromString collector pl).

(** [CollectPod] has run: its outcome, with the manager left behind. *)
Definition collects_pod (pod : Pod) (info : PodInfo) (m : manager) s : Prop := CollectPod_ (pod_Namespace pod) (pod_Name pod) s = (managed m s, Ok (Some info)).
Definition collects_node (name : string) (info : NodeInfo) (m : manager) s : Prop := CollectNode_ name s = (managed m s, Ok info).

Definition made_pod (n : nat) (info : PodInfo) : simpleVEthPod := MkVEthPod n info (fp_podMTU pl) "eth0".
Lemma make_pod_makes (ip : string) (pod : Pod) (info : PodInfo) (m : manager) s :
  ready s -> podCache c !! ip = Some pod -> collects_pod pod info m s ->
  ∃ s', mk_pod ip s = (s', Ok (PodNode (made_pod (length (nodes s)) info))) ∧
    made (NewNetNode (kp_Namespace info ++ "/" ++ kp_PodName info)%string NetNodeTypePod) m s s'.
Proof.
  intros Hr Hp Hc. unfold make_pod_node. rewrite (bind_ok _ _ _ _ _ (get_pod api c rt Hn _ s Hr)), Hp. rewrite (bind_ok _ _ _ _ _ Hc).
  assert (follow (Some info) (managed m s) = (managed m s, Ok info)) as E1 by done. rewrite (bind_ok _ _ _ _ _ E1).
  unfold newSimpleVEthPod. eexists. split; [done|]. split; [done|done|done|]. by apply (managed_ready m) in Hr as [].
Qed.
Lemma make_host_makes (name : string) (node : Node) (info : NodeInfo) (h : flannelHost) (m : manager) s :
  ready s -> collects_node name info m s -> node_named c (kn_NodeName info) = Some node ->
  host_of (length (nodes s)) info node (fp_hostOptions pl) = Some h ->
  ∃ s', mk_host name s = (s', Ok (HostNode h)) ∧ made (AddSuspicions (basic_checks h node) (NewNetNode (kn_NodeName info) NetNodeTypeNode)) m s s'.
Proof.
  intros Hr Hc Hnode Hh. unfold make_host_node. rewrite (bind_ok _ _ _ _ _ Hc).
  destruct (newFlannelHost_makes info node h (managed m s) (managed_ready m s Hr) Hnode Hh) as (s' & E & [H1 H2 H3 H4]).
  rewrite (bind_ok _ _ _ _ _ E). exists s'. by split.
Qed.

(** A node that the manager of nodes does not have yet. *)
Abbreviation mks := (makers_ api ReadFromString collector pl).
Lemma get_made (k : gmap string net_node) (ty : NetNodeType) (id : string) (n : net_node) s s' :
  k !! cacheKey ty id = None -> (match ty with NetNodeTypePod => mk_pod id s | _ => mk_host id s end) = (s', Ok n) ->
  ty = NetNodeTypePod ∨ ty = NetNodeTypeNode ->
  GetNetNodeFromID mks (SkoopDiagnose.MkState k s) ty id = (SkoopDiagnose.MkState (<[cacheKey ty id := n]> k) s', Ok (Some n)).
Proof.
  intros Hk E Hty. unfold GetNetNodeFromID. cbn [cache]. rewrite Hk. unfold make. cbn [SkoopDiagnose.world].
  destruct Hty as [-> | ->]; cbn [make_pod make_node makers_]; by rewrite E.
Qed.
End path.

(** ** Addresses *)

Definition addr4 (ip : list Z) : IP := v4InV6Prefix ++ ip.
Definition bytes4 (ip : list Z) : Prop := length ip = 4%nat ∧ Forall is_byte ip.

Lemma text_addr4 (ip : list Z) : bytes4 ip -> IP_String (addr4 ip) = string4 ip ∧ parse_ip (string4 ip) = addr4 ip.
Proof.
  intros [Hl Hb]. assert (ipv4 (addr4 ip) ip) as H4 by (split; [done|split; [done|by right]]). assert (IP_String (addr4 ip) = string4 ip) as E.
  { unfold IP_String. rewrite bool_decide_eq_false_2 by done. by rewrite (ipv4_To4 _ _ H4). }
  split; [done|]. unfold parse_ip. rewrite <- E. by rewrite (ParseIP_String _ _ H4).
Qed.
Lemma Equal_refl (ip : IP) : Equal ip ip = true.
Proof. unfold Equal. rewrite bool_decide_eq_true_2 by done. by apply bool_decide_eq_true_2. Qed.

(** ** Two nodes *)

Section two_nodes.
Context `{MapOrder} (api : nat -> answers) (c : IPCache) (fuel : nat) (processor : Processor).
Context (ReadFromString : string -> option (option Element)) (collector : string -> option NodeNetworkStackDump) (pl : flannelPlugin).
Context (cluster : IPNet).

(** Node [node], collected as dump [d]; its host is [h], with graph node [n]. *)
Record member (node : Node) (key : string) (d : NodeNetworkStackDump) (n : nat) (h : flannelHost) : Prop := MkMember {
  mb_node : nodeCache c !! key = Some node;
  mb_linux : GetOSFromNode node = "linux"%string;
  mb_dump : collector (node_Name node) = Some d;
  mb_complete : complete ReadFromString d (node_Name node);
  mb_host : ∃ info, host_info ReadFromString d (node_Name node) = Some info ∧ host_of n info node (fp_hostOptions pl) = Some h;
  mb_router : router_total (ns_Router (fh_ns h));
  mb_hooks : hooks_end fuel (ns_Netfilter (fh_ns h));
  mb_routes : ∀ k e, fr_routes (fh_route h) !! k = Some e -> is_Some (ParseCIDR k);
  (* every node with a pod has Flannel's annotations *)
  mb_pods : ∀ ip pod, podCache c !! ip = Some pod -> ∃ x info, node_named c (pod_NodeName pod) = Some x ∧ node_data (fh_route h) x = Ok info;
}.
(** Pod [pod] with address [ip] on that node, in the dump with data [info]. *)
Record resident (pod : Pod) (ip : list Z) (node : Node) (d : NodeNetworkStackDump) (info : PodInfo) : Prop := MkResident {
  rs_ip : bytes4 ip;
  rs_cluster : Contains_IP cluster (addr4 ip) = true;
  rs_pod : podCache c !! string4 ip = Some pod;
  rs_network : pod_HostNetwork pod = false;
  rs_node : pod_NodeName pod = node_Name node;
  rs_info : pod_info ReadFromString d (node_Name node) (pod_key (pod_Namespace pod) (pod_Name pod)) = Some info;
  rs_names : kp_Namespace info = pod_Namespace pod ∧ kp_PodName info = pod_Name pod;
  rs_router : router_total (ns_Router (kp_NetNS info));
}.

Context (nodeA nodeB : Node) (keyA keyB : string) (dA dB : NodeNetworkStackDump) (hA hB : flannelHost).
Context (podA podB : Pod) (ipA ipB : list Z) (infoA infoB : PodInfo) (toB : flannelNodeInfo).
Context (port : Z) (protocol : string) (rA : Route_).

Definition src : Endpoint := MkEndpoint (string4 ipA) EndpointTypePod 0.
Definition dst : Endpoint := MkEndpoint (string4 ipB) EndpointTypePod port.
(** The packet from pod to pod. *)
Definition pkt : Packet := MkPacket (addr4 ipA) 0 (addr4 ipB) port protocol None 0.
Definition vxlan : bool := String.eqb (fi_BackendType toB) FlannelBackendTypeVxlan.

(** The situation: two pods on two nodes of a Flannel network.  [toB] is what
    host A knows of node B.  With VXLAN the address that B announces is that
    of node B and no node port is open on the port of VXLAN. *)
Record crossing : Prop := MkCrossing {
  cr_named : named c;
  cr_cluster : o_ClusterCIDR (fp_hostOptions pl) = Some cluster;
  cr_nodes : node_Name nodeA ≠ node_Name nodeB;
  cr_A : member nodeA keyA dA 1 hA;
  cr_B : member nodeB keyB dB 2 hB;
  cr_podA : resident podA ipA nodeA dA infoA;
  cr_podB : resident podB ipB nodeB dB infoB;
  cr_src : RouteSrc (ns_Router (kp_NetNS infoA)) (first_packet dst protocol) EmptyString EmptyString = Ok (string4 ipA, rA);
  cr_toB : node_data (fh_route hA) nodeB = Ok toB;
  cr_vxlan : vxlan = true -> podCache c !! IP_String (fi_NodeIP toB) = None ∧ nodeCache c !! IP_String (fi_NodeIP toB) = Some nodeB ∧ port_service c 8472 "udp" = None;
}.

Definition start : SkoopDiagnose.state net_node (state_of keeps) :=
  SkoopDiagnose.MkState ∅ (SkoopNode.MkState [] [] c 0 (MkKeeps ∅ (MkManager ∅ ∅ ∅))).

(** The nodes of the graph, and the links. *)
Definition pA : simpleVEthPod := made_pod pl 0 infoA.
Definition pB : simpleVEthPod := made_pod pl 3 infoB.
Definition out : Packet := sent_packet hA toB pkt.
Definition link0 : Link := first_link pA (first_packet dst protocol) (string4 ipA).
Definition link1 : Link := node_link hA toB pkt.
Definition link2 : Link := pod_link hB pkt.
Definition path_links : list Link := [arrived 1 (fh_bridge hA) link0; arrived 2 (fh_iface hB) link1; arrived 3 "eth0" link2].

(** What each node adds. *)
Definition suspicionsA0 : list suspicion := send_checks pA podA (first_packet dst protocol) (string4 ipA) rA.
Definition suspicionsA : list suspicion :=
  basic_checks hA nodeA ++ veth_checks hA link0 ++ ((asserted c hA cluster pkt ++ asserted c hA cluster (ack pkt)) ++ backend_checks hA toB) ++ filter_checks fuel hA pkt out (fh_bridge hA).
Definition suspicionsB : list suspicion :=
  basic_checks hB nodeB ++ (local_veth hB podB ++ asserted c hB cluster pkt ++ asserted c hB cluster (ack pkt)) ++ filter_checks fuel hB pkt pkt (fh_iface hB).
Definition suspicionsB0 : list suspicion := receive_checks pB podB pkt.
Definition graphA0 : NetNode := DoAction (ActionSend [0%nat]) (AddSuspicions suspicionsA0 (NewNetNode (pod_Namespace podA ++ "/" ++ pod_Name podA)%string NetNodeTypePod)).
Definition graphA : NetNode := DoAction (ActionForward 0 [1%nat]) (AddSuspicions suspicionsA (NewNetNode (node_Name nodeA) NetNodeTypeNode)).
Definition graphB : NetNode := DoAction (ActionForward 1 [2%nat]) (AddSuspicions suspicionsB (NewNetNode (node_Name nodeB) NetNodeTypeNode)).
Definition graphB0 : NetNode := DoAction (ActionServe 2) (AddSuspicions suspicionsB0 (NewNetNode (pod_Namespace podB ++ "/" ++ pod_Name podB)%string NetNodeTypePod)).

Context (Hx : crossing).
Definition rt2 (i : nat) : option flannelRoute :=
  match i with 1%nat => Some (fh_route hA) | 2%nat => Some (fh_route hB) | _ => None end.
Abbreviation ready := (SkoopFlannelRun.ready c rt2).
Abbreviation world := (state_of keeps).
Implicit Types (w : world).

Lemma host_of_spec (n : nat) (info : NodeInfo) (node : Node) (o : flannelHostOptions) (h : flannelHost) : host_of n info node o = Some h ->
  (fh_netNode h = n ∧ fh_nodeInfo h = info ∧ fh_bridge h = o_Bridge o) ∧ fr_localPodCIDR (fh_route h) = Some (fh_podCIDR h) ∧
  (fh_clusterCIDR h = o_ClusterCIDR o ∧ fr_clusterCIDR (fh_route h) = o_ClusterCIDR o) ∧
  (∀ k e, fr_routes (fh_route h) !! k = Some e -> ra_Dst e = None) ∧
  fr_localVTEP (fh_route h) = parse_ip (default EmptyString (node_Annotations node !! public_ip)).
Proof.
  unfold host_of. intros (cidr & _ & E)%bind_Some. destruct (String.eqb _ EmptyString); [done|]. apply bind_Some in E as (dev & _ & [= <-]).
  split_and!; try done. cbn [fh_route newFlannelRoute fr_routes]. unfold host_routes. destruct (GetDefaultIPv4 dev) as [ip mask].
  intros k e He. destruct (_ || _); repeat (apply lookup_insert_Some in He as [[_ <-]|[_ He]]; [done|]); by apply lookup_singleton_Some in He as [_ <-].
Qed.
Lemma host_info_name (d : NodeNetworkStackDump) (name : string) (info : NodeInfo) : host_info ReadFromString d name = Some info -> kn_NodeName info = name.
Proof. unfold host_info. intros (host & _ & (ns & _ & [= <-])%bind_Some)%bind_Some. done. Qed.

Lemma member_ok (node : Node) (key : string) (d : NodeNetworkStackDump) (n : nat) (h : flannelHost) :
  member node key d n h -> rt2 n = Some (fh_route h) ->
  host_ok c rt2 fuel cluster h ∧ fh_netNode h = n ∧ kn_NodeName (fh_nodeInfo h) = node_Name node ∧
  fr_localVTEP (fh_route h) = parse_ip (default EmptyString (node_Annotations node !! public_ip)) ∧ node_named c (node_Name node) = Some node.
Proof.
  intros [Hnode _ _ _ (info & Hi & Hh) Hro Hho Hrs Hp] Hrt. destruct (host_of_spec _ _ _ _ _ Hh) as ((En & Ei & _) & El & [Ec1 Ec2] & Ed & Ev).
  split; [|split_and!; [done|rewrite Ei; by eapply host_info_name|done|by eapply (node_named_self c (cr_named Hx))]].
  split; [by rewrite En|done|done|done|by rewrite Ec1, Ec2, (cr_cluster Hx)|intros k e He; split; [by eapply Hrs|by eapply Ed]|done].
Qed.
Lemma okA : host_ok c rt2 fuel cluster hA ∧ fh_netNode hA = 1%nat ∧ kn_NodeName (fh_nodeInfo hA) = node_Name nodeA ∧
  fr_localVTEP (fh_route hA) = parse_ip (default EmptyString (node_Annotations nodeA !! public_ip)) ∧ node_named c (node_Name nodeA) = Some nodeA.
Proof. by eapply member_ok; [apply (cr_A Hx)|]. Qed.
Lemma okB : host_ok c rt2 fuel cluster hB ∧ fh_netNode hB = 2%nat ∧ kn_NodeName (fh_nodeInfo hB) = node_Name nodeB ∧
  fr_localVTEP (fh_route hB) = parse_ip (default EmptyString (node_Annotations nodeB !! public_ip)) ∧ node_named c (node_Name nodeB) = Some nodeB.
Proof. by eapply member_ok; [apply (cr_B Hx)|]. Qed.
Lemma resident_named (pod : Pod) (ip : list Z) (node : Node) (d : NodeNetworkStackDump) (info : PodInfo) :
  resident pod ip node d info -> pod_named c (kp_Namespace info) (kp_PodName info) = Some pod ∧ pod_named c (pod_Namespace pod) (pod_Name pod) = Some pod.
Proof. intros [_ _ Hp _ _ _ [-> ->] _]. split; by eapply (pod_named_self c (cr_named Hx)). Qed.

Lemma info_toB : info_of c hA (Dst pkt) = Some toB.
Proof.
  destruct (cr_podB Hx) as [Hip _ Hp _ Hnn _ _ _]. unfold info_of. cbn [Dst pkt]. rewrite (proj1 (text_addr4 ipB Hip)), Hp. cbn [mbind option_bind].
  rewrite Hnn, (proj2 (proj2 (proj2 (proj2 okB)))). cbn [mbind option_bind]. by rewrite (cr_toB Hx).
Qed.
Lemma node_data_ip (r : flannelRoute) (node : Node) (info : flannelNodeInfo) : node_data r node = Ok info ->
  fi_NodeIP info = parse_ip (default EmptyString (node_Annotations node !! public_ip)).
Proof.
  unfold node_data. destruct (ParseCIDR_IP _) as [[ip n]|]; [|done]. destruct (String.eqb _ _); [done|].
  destruct (_ !! backend_type) as [b|]; [|done]. destruct (EqualFold b _); [by intros [= <-]|]. destruct (EqualFold b _); by intros [= <-].
Qed.
Lemma first_packet_is : with_Src (first_packet dst protocol) (parse_ip (string4 ipA)) = pkt.
Proof.
  unfold first_packet, dst. cbn [ep_IP ep_Port with_Src]. by rewrite (proj2 (text_addr4 ipB (rs_ip _ _ _ _ _ (cr_podB Hx)))), (proj2 (text_addr4 ipA (rs_ip _ _ _ _ _ (cr_podA Hx)))).
Qed.

(** A state by its nodes, links and collector. *)
Record is_state (ns : list NetNode) (ls : list Link) (m : manager) w : Prop := MkIsState {
  st_nodes : nodes w = ns; st_links : links w = ls; st_manager : k_manager (plugin w) = m; st_ready : ready w;
}.

Lemma managed_id (m : manager) w : k_manager (plugin w) = m -> managed m w = w.
Proof. destruct w as [? ? ? ? []]. by cbn; intros ->. Qed.
Lemma pod_info_node (d : NodeNetworkStackDump) (name key : string) (info : PodInfo) : pod_info ReadFromString d name key = Some info -> kp_NodeName info = name.
Proof.
  unfold pod_info. intros (host & _ & (p & _ & E)%bind_Some)%bind_Some. unfold build_pod in E. destruct (pod_ns host d p) as [i|]; [|done].
  destruct (build_ns ReadFromString i) as [ns|e|]; [|done|done]. by injection E as <-.
Qed.

Abbreviation mks := (makers_ api ReadFromString collector pl).
Abbreviation sends := (send_ api fuel processor None).
Abbreviation receives := (receive_ api fuel processor None).
Abbreviation keyed := (list (string * net_node)).

(** The collector after node A, and after node B. *)
Record collectedA (m : manager) : Prop := MkCollectedA {
  ca_dumps : m_cache m = {[node_Name nodeA := dA]};
  ca_node : ∃ info, m_nodeCache m = {[node_Name nodeA := info]} ∧ host_info ReadFromString dA (node_Name nodeA) = Some info;
}.

Lemma run_send : ∃ w1 w2 m, GetNetNodeFromID mks start NetNodeTypePod (string4 ipA) =
    (SkoopDiagnose.MkState {[cacheKey NetNodeTypePod (string4 ipA) := PodNode pA]} w1, Ok (Some (PodNode pA))) ∧
  sends w1 (PodNode pA) dst protocol = (w2, Sent [MkTransmission NetNodeTypeNode (node_Name nodeA) 0%nat]) ∧
  is_state [graphA0] [link0] m w2 ∧ collectedA m.
Proof.
  pose proof (cr_podA Hx) as [Hip _ Hp _ Hnn Hi [Hk1 Hk2] Hro]. destruct (resident_named _ _ _ _ _ (cr_podA Hx)) as [Hnm Hnm'].
  set (w0 := SkoopDiagnose.world start). assert (ready w0) as Hr0 by (split; [done|]; intros i m name info; cbn; by rewrite lookup_empty).
  pose proof (cr_A Hx) as [_ Hos Hcol Hcomp _ _ _ _ _]. rewrite <- Hnn in Hcol, Hcomp, Hi.
  destruct (CollectPod_builds api c ReadFromString collector rt2 (cr_named Hx) podA dA infoA w0 Hr0 Hnm') as (m & ni & Ec & Hh & H1 & H2 & H3); [done..|].
  destruct (make_pod_makes api c ReadFromString collector pl rt2 (cr_named Hx) (string4 ipA) podA infoA m w0 Hr0 Hp Ec) as (w1 & E1 & [Hn1 Hl1 Hm1 Hr1]).
  cbn [nodes w0 SkoopDiagnose.world start length] in E1, Hn1. exists w1.
  destruct (Pod_Send_acts api c rt2 (cr_named Hx) pA Hro podA dst protocol (string4 ipA) rA w1 Hr1 Hnm (cr_src Hx)) as (w2 & E2 & [Hn2 Hl2 Hm2 Hr2]).
  exists w2, m. split_and!.
  - exact (get_made api ReadFromString collector pl ∅ NetNodeTypePod (string4 ipA) (PodNode pA) w0 w1 (lookup_empty _) E1 (or_introl eq_refl)).
  - unfold send_, Node_Send. rewrite E2, Hl1. cbn [sp_podInfo pA made_pod]. by rewrite (pod_info_node _ _ _ _ Hi), Hnn.
  - split; [|by rewrite Hl2, Hl1|by rewrite Hm2|done]. rewrite Hn2, Hn1, Hl1. unfold graphA0. by rewrite Hk1, Hk2.
  - rewrite Hnn in *. split; [by rewrite H1|]. exists ni. by rewrite H2.
Qed.

Lemma inside_cluster : Contains_IP cluster (Src pkt) = true ∧ Contains_IP cluster (Dst pkt) = true.
Proof. split; [exact (rs_cluster _ _ _ _ _ (cr_podA Hx))|exact (rs_cluster _ _ _ _ _ (cr_podB Hx))]. Qed.
Lemma podB_at : podCache c !! IP_String (Dst pkt) = Some podB.
Proof. cbn [Dst pkt]. rewrite (proj1 (text_addr4 ipB (rs_ip _ _ _ _ _ (cr_podB Hx)))). exact (rs_pod _ _ _ _ _ (cr_podB Hx)). Qed.
Abbreviation fresh k ty id := (k !! cacheKey ty id = None).

Lemma run_A (k : gmap string net_node) (m : manager) w : fresh k NetNodeTypeNode (node_Name nodeA) -> is_state [graphA0] [link0] m w -> collectedA m ->
  ∃ w', handle_transmission mks receives (SkoopDiagnose.MkState k w) (MkTransmission NetNodeTypeNode (node_Name nodeA) 0%nat) =
    (SkoopDiagnose.MkState (<[cacheKey NetNodeTypeNode (node_Name nodeA) := HostNode hA]> k) w', More [MkTransmission NetNodeTypeNode (node_Name nodeB) 1%nat]) ∧
  is_state [graphA0; graphA] [arrived 1 (fh_bridge hA) link0; link1] m w'.
Proof.
  intros Hk [Hn0 Hl0 Hm0 Hr0] [Hd (ni & Hni & Hhi)]. destruct okA as (Hok & Hself & Hname & _ & Hnamed).
  pose proof (cr_A Hx) as [_ _ _ _ (ni' & Hhi' & Hof) _ _ _ _]. assert (ni' = ni) as -> by congruence.
  assert (kn_NodeName ni = node_Name nodeA) as Hnn by (by eapply host_info_name).
  assert (collects_node api ReadFromString collector (node_Name nodeA) ni m w) as Hc.
  { unfold collects_node. rewrite managed_id by done. apply CollectNode_cached. by rewrite Hm0, Hni, lookup_singleton_eq. }
  destruct (make_host_makes api c ReadFromString collector pl rt2 (cr_named Hx) (node_Name nodeA) nodeA ni hA m w Hr0 Hc) as (w1 & E1 & [Hn1 Hl1 Hm1 Hr1]);
    [by rewrite Hnn|by rewrite Hn0|]. rewrite Hn0 in Hn1. rewrite Hl0 in Hl1.
  destruct (receive_to_pod api c rt2 (cr_named Hx) fuel cluster hA Hok processor 0 link0 podB
    ((asserted c hA cluster pkt ++ asserted c hA cluster (ack pkt)) ++ backend_checks hA toB) link1 NetNodeTypeNode (node_Name nodeB) w1 Hr1) as (w2 & E2 & [Hn2 Hl2 Hm2 Hr2]).
  - by rewrite Hl1.
  - cbn [l_Packet link0 first_link]. by rewrite first_packet_is.
  - cbn [l_Packet link0 first_link]. rewrite first_packet_is. exact podB_at.
  - intros s Hs. cbn [l_Packet link0 first_link]. rewrite first_packet_is.
    apply (transmissionToPod_remote api c rt2 (cr_named Hx) fuel cluster hA Hok); try done; try apply inside_cluster.
    + rewrite (rs_node _ _ _ _ _ (cr_podB Hx)). apply okB.
    + rewrite (rs_node _ _ _ _ _ (cr_podB Hx)), Hname. intros E. by apply (cr_nodes Hx).
    + exact info_toB.
  - exists w2. unfold handle_transmission. cbn [hop_Type hop_ID].
    rewrite (get_made api ReadFromString collector pl k NetNodeTypeNode (node_Name nodeA) (HostNode hA) w w1 Hk E1 (or_intror eq_refl)).
    cbn [SkoopDiagnose.world cache]. unfold receive_, Node_Receive. cbn [link]. rewrite E2, Hl1. split; [done|].
    split; [|by rewrite Hl2, Hl1, Hself|congruence|done]. rewrite Hn2, Hn1, Hl1, Hself. cbn [length alter list_alter app].
    unfold graphA, suspicionsA. cbn [l_Packet link0 link1 first_link node_link l_Type detectIif]. rewrite first_packet_is, AddSuspicions_app, Hnn. done.
Qed.

(** Host B gets the packet out of what A sent, by either backend. *)
Lemma receive_B w : ready w -> links w !! 1%nat = Some link1 -> length (links w) = 2%nat ->
  ∃ w', receives w (HostNode hB) 1%nat = (w', Ok [MkTransmission NetNodeTypePod (string4 ipB) 2%nat]) ∧
    forwarded c rt2 hB (fh_iface hB) ((local_veth hB podB ++ asserted c hB cluster pkt ++ asserted c hB cluster (ack pkt)) ++ filter_checks fuel hB pkt pkt (fh_iface hB)) 1 link2 w w'.
Proof.
  intros Hr Hl Hlen. destruct okB as (Hok & Hself & Hname & Hv & Hnamed). pose proof (cr_podB Hx) as [Hip _ _ Hhn Hnn _ _ _].
  assert (∀ s, ready s -> does c rt2 (transmissionToPod api None hB pkt (Some podB)) (fh_netNode hB)
    (local_veth hB podB ++ asserted c hB cluster pkt ++ asserted c hB cluster (ack pkt)) [link2] s (MkTransmission NetNodeTypePod (string4 ipB) (length (links s)))) as Hmk.
  { intros s Hs. rewrite <- (proj1 (text_addr4 ipB Hip)). change (addr4 ipB) with (Dst pkt).
    apply (transmissionToPod_local api c rt2 (cr_named Hx) fuel cluster hB Hok); try done; try apply inside_cluster. by rewrite Hnn. }
  unfold receive_, Node_Receive. destruct vxlan eqn:Ex.
  - destruct (cr_vxlan Hx Ex) as (Hno & Hnd & Hport).
    assert (l_Packet link1 = encapsulated (fh_route hA) toB pkt) as Ep by (cbn [l_Packet link1 node_link]; unfold sent_packet; unfold vxlan in Ex; by rewrite Ex).
    destruct (receive_encapsulated api c rt2 (cr_named Hx) fuel cluster hB Hok processor 1 link1 pkt nodeB podB
      (local_veth hB podB ++ asserted c hB cluster pkt ++ asserted c hB cluster (ack pkt)) link2 NetNodeTypePod (string4 ipB) w Hr Hl)
      as (w' & E & Hf); rewrite ?Ep; try done.
    + cbn [Dst encapsulated]. rewrite Hv, (node_data_ip _ _ _ (cr_toB Hx)). apply Equal_refl.
    + exact podB_at.
    + exists w'. rewrite Hlen in E. split; [exact E|exact Hf].
  - assert (l_Packet link1 = pkt) as Ep by (cbn [l_Packet link1 node_link]; unfold sent_packet; unfold vxlan in Ex; by rewrite Ex).
    destruct (receive_to_pod api c rt2 (cr_named Hx) fuel cluster hB Hok processor 1 link1 podB
      (local_veth hB podB ++ asserted c hB cluster pkt ++ asserted c hB cluster (ack pkt)) link2 NetNodeTypePod (string4 ipB) w Hr Hl)
      as (w' & E & Hf); rewrite ?Ep; try done.
    + exact podB_at.
    + exists w'. rewrite Hlen in E. rewrite Ep in Hf. split; [exact E|exact Hf].
Qed.

(** The collector after node B. *)
Definition collectedB (m : manager) : Prop := m_podCache m !! pod_key (pod_Namespace podB) (pod_Name podB) = Some infoB.
Lemma run_B (k : gmap string net_node) (m : manager) w :
  fresh k NetNodeTypeNode (node_Name nodeB) -> is_state [graphA0; graphA] [arrived 1 (fh_bridge hA) link0; link1] m w -> collectedA m ->
  ∃ w' m', handle_transmission mks receives (SkoopDiagnose.MkState k w) (MkTransmission NetNodeTypeNode (node_Name nodeB) 1%nat) =
    (SkoopDiagnose.MkState (<[cacheKey NetNodeTypeNode (node_Name nodeB) := HostNode hB]> k) w', More [MkTransmission NetNodeTypePod (string4 ipB) 2%nat]) ∧
  is_state [graphA0; graphA; graphB] [arrived 1 (fh_bridge hA) link0; arrived 2 (fh_iface hB) link1; link2] m' w' ∧ collectedB m'.
Proof.
  intros Hk [Hn0 Hl0 Hm0 Hr0] [Hd (na & Hna & _)]. destruct okB as (Hok & Hself & Hname & _ & Hnamed).
  pose proof (cr_B Hx) as [_ Hos Hcol Hcomp (ni & Hhi & Hof) _ _ _ _]. assert (kn_NodeName ni = node_Name nodeB) as Hnn by (by eapply host_info_name).
  destruct (CollectNode_builds api c ReadFromString collector rt2 (cr_named Hx) nodeB dB w Hr0 Hnamed Hos) as (m' & ni' & Ec & Hhi' & _ & _ & H3);
    [rewrite Hm0, ?Hna, ?Hd; apply lookup_singleton_ne; exact (cr_nodes Hx)..|done|done|]. assert (ni' = ni) as -> by congruence.
  destruct (make_host_makes api c ReadFromString collector pl rt2 (cr_named Hx) (node_Name nodeB) nodeB ni hB m' w Hr0 Ec) as (w1 & E1 & [Hn1 Hl1 Hm1 Hr1]);
    [by rewrite Hnn|by rewrite Hn0|]. rewrite Hn0 in Hn1. rewrite Hl0 in Hl1.
  destruct (receive_B w1 Hr1) as (w2 & E2 & [Hn2 Hl2 Hm2 Hr2]); [by rewrite Hl1|by rewrite Hl1|]. exists w2, m'. split; [|split].
  - unfold handle_transmission. cbn [hop_Type hop_ID].
    rewrite (get_made api ReadFromString collector pl k NetNodeTypeNode (node_Name nodeB) (HostNode hB) w w1 Hk E1 (or_intror eq_refl)).
    cbn [SkoopDiagnose.world cache link]. by rewrite E2.
  - split; [|by rewrite Hl2, Hl1, Hself|congruence|done]. rewrite Hn2, Hn1, Hl1, Hself. cbn [length alter list_alter app].
    unfold graphB, suspicionsB. by rewrite AddSuspicions_app, Hnn.
  - unfold collectedB. by rewrite H3, (rs_info _ _ _ _ _ (cr_podB Hx)).
Qed.

Lemma run_B0 (k : gmap string net_node) (m : manager) w :
  fresh k NetNodeTypePod (string4 ipB) -> is_state [graphA0; graphA; graphB] [arrived 1 (fh_bridge hA) link0; arrived 2 (fh_iface hB) link1; link2] m w -> collectedB m ->
  ∃ w', handle_transmission mks receives (SkoopDiagnose.MkState k w) (MkTransmission NetNodeTypePod (string4 ipB) 2%nat) =
    (SkoopDiagnose.MkState (<[cacheKey NetNodeTypePod (string4 ipB) := PodNode pB]> k) w', More []) ∧
  is_state [graphA0; graphA; graphB; graphB0] path_links m w'.
Proof.
  intros Hk [Hn0 Hl0 Hm0 Hr0] Hc. pose proof (cr_podB Hx) as [Hip _ Hp _ Hnn Hi [Hk1 Hk2] Hro]. destruct (resident_named _ _ _ _ _ (cr_podB Hx)) as [Hnm Hnm'].
  assert (collects_pod api ReadFromString collector podB infoB m w) as Ec.
  { unfold collects_pod. rewrite managed_id by done. apply CollectPod_cached. by rewrite Hm0. }
  destruct (make_pod_makes api c ReadFromString collector pl rt2 (cr_named Hx) (string4 ipB) podB infoB m w Hr0 Hp Ec) as (w1 & E1 & [Hn1 Hl1 Hm1 Hr1]).
  rewrite Hn0 in E1, Hn1. rewrite Hl0 in Hl1.
  destruct (Pod_Receive_acts api c rt2 (cr_named Hx) pB Hro podB 2 link2 w1 Hr1 Hnm) as (w2 & E2 & [Hn2 Hl2 Hm2 Hr2]); [by rewrite Hl1|done|].
  exists w2. split.
  - unfold handle_transmission. cbn [hop_Type hop_ID].
    rewrite (get_made api ReadFromString collector pl k NetNodeTypePod (string4 ipB) (PodNode pB) w w1 Hk E1 (or_introl eq_refl)).
    cbn [SkoopDiagnose.world cache link]. unfold receive_, Node_Receive. by rewrite E2.
  - split; [|by rewrite Hl2, Hl1|congruence|done]. rewrite Hn2, Hn1. unfold graphB0, suspicionsB0. by rewrite Hk1, Hk2.
Qed.

(** The whole run. *)
Lemma diagnosis_run (steps : nat) : (3 <= steps)%nat ->
  ∃ s, Diagnose_ api fuel processor None ReadFromString collector pl steps start None src dst protocol = Some (s, Ok ([], Some 0%nat, None)) ∧
    nodes (SkoopDiagnose.world s) = [graphA0; graphA; graphB; graphB0] ∧ links (SkoopDiagnose.world s) = path_links.
Proof.
  intros Hsteps. destruct run_send as (w1 & w2 & m & Eg & Es & Hst & Hca).
  set (k0 := {[cacheKey NetNodeTypePod (string4 ipA) := PodNode pA]} : gmap string net_node) in *.
  set (k1 := <[cacheKey NetNodeTypeNode (node_Name nodeA) := HostNode hA]> k0). set (k2 := <[cacheKey NetNodeTypeNode (node_Name nodeB) := HostNode hB]> k1).
  destruct (run_A k0 m w2) as (w3 & EA & HA); [apply lookup_singleton_ne; by intros [? _]%cacheKey_inj|done|done|]. fold k1 in EA.
  destruct (run_B k1 m w3) as (w4 & m4 & EB & HB & Hcb); [|done|done|].
  { unfold k1. rewrite lookup_insert_ne by (intros [_ E]%cacheKey_inj; by apply (cr_nodes Hx)). apply lookup_singleton_ne. by intros [? _]%cacheKey_inj. }
  fold k2 in EB. destruct (run_B0 k2 m4 w4) as (w5 & EB0 & [Hn5 Hl5 _ _]); [|done|done|].
  { unfold k2, k1. rewrite !lookup_insert_ne by (by intros [? _]%cacheKey_inj). apply lookup_singleton_ne. intros [_ E]%cacheKey_inj.
    pose proof (rs_pod _ _ _ _ _ (cr_podA Hx)) as H1. pose proof (rs_pod _ _ _ _ _ (cr_podB Hx)) as H2. rewrite <- E, H1 in H2. injection H2 as H2.
    apply (cr_nodes Hx). rewrite <- (rs_node _ _ _ _ _ (cr_podA Hx)), <- (rs_node _ _ _ _ _ (cr_podB Hx)). by rewrite H2. }
  destruct steps as [|[|[|steps]]]; [lia..|]. exists (SkoopDiagnose.MkState (<[cacheKey NetNodeTypePod (string4 ipB) := PodNode pB]> k2) w5). split; [|by split].
  unfold Diagnose_, Diagnose. cbn [diagnoseNetworkPolicy]. unfold createNode. cbn [ep_Type src ep_IP toNodeType]. rewrite Eg. cbn [SkoopDiagnose.world]. rewrite Es.
  cbn [queue_loop app cache]. rewrite EA. cbn [queue_loop app]. rewrite EB. cbn [queue_loop app]. rewrite EB0. cbn [queue_loop app link].
  unfold Source_. destruct Hst as [_ Hl2 _ _]. rewrite Hl2. by destruct steps.
Qed.

(** ** A path without suspicions *)

(** The routes of [router] give packet [p] a route that is as [e] says, or a
    local one: the check takes any local route, whatever was expected. *)
Definition leads (router : SimulateRouter) (p : Packet) (e : RouteAssertion) : Prop :=
  ∃ r, Route router p EmptyString EmptyString = Ok r ∧ r_Type r ∉ unreachable_types ∧ (r_Type r = RtnLocal ∨ fits_expected e r).
(** The hooks of host [h] accept packet [p] from interface [iif], and the host
    forwards.  The FORWARD and the POSTROUTING hook are asked about [p] with
    the destination of the packet [q] that leaves the host: that is the other
    node, not the pod, if [q] is a VXLAN packet. *)
Definition passes (h : flannelHost) (p q : Packet) (iif : string) : Prop :=
  let hook k p := accepts fuel (ns_Netfilter (fh_ns h)) k p iif in
  hook NFHookPreRouting p ∧ hook NFHookForward (set_Dst p (Dst q)) ∧ hook NFHookPostRouting (set_Dst p (Dst q)) ∧
  ns_SysctlInfo (fh_ns h) !! "net.ipv4.ip_forward"%string = Some "1"%string.
(** The interface with that index is a veth, up, of a bridge with that name. *)
Definition bridged (ifs : list Interface) (index : Z) (name : string) : Prop :=
  ∃ dev bridge, find_index ifs index = Some dev ∧ if_Driver dev = "veth"%string ∧ if_State dev = LinkUP ∧ if_MasterIndex dev ≠ 0 ∧
    find_index ifs (if_MasterIndex dev) = Some bridge ∧ (name = EmptyString ∨ if_Name bridge = name).
(** VXLAN leads to the address of node B. *)
Definition tunnelled : Prop := ∃ iface r, find_name (ns_Interfaces (fh_ns hA)) flannelVxlanInterface = Some iface ∧
  ProbeNeigh (ns_Interfaces (fh_ns hA)) (fi_Vtep toB) (if_Index iface) = Some (Some r) ∧ Equal (nr_DST r) (fi_NodeIP toB) = true.

(** The veth of pod B is on the bridge "cni0" of its node, if the node has a
    namespace with the key of the pod. *)
Definition vethB : Prop := ∀ key peerIfs,
  List.find (λ i, String.eqb i.1 (sub_key podB)) (kn_SubNetNSInfo (fh_nodeInfo hB)) = Some (key, peerIfs) ->
  ∃ eth0, find_name peerIfs "eth0" = Some eth0 ∧ bridged (ns_Interfaces (fh_ns hB)) (if_PeerIndex eth0) "cni0".
(** The routes of host [h] for packet [p] are what the host expects of them. *)
Definition routed (h : flannelHost) (p : Packet) : Prop := ∀ e, expectation c h cluster (Dst p) = Some e -> leads (ns_Router (fh_ns h)) p e.

(** What the checks of a path say when none of them fails.  [cy_back*] are
    about the way back, from pod B to pod A. *)
Record carried : Prop := MkCarried {
  cy_podA : leads (ns_Router (kp_NetNS infoA)) pkt eth0_route;
  cy_vethA : bridged (ns_Interfaces (fh_ns hA)) match find_name (ns_Interfaces (kp_NetNS infoA)) "eth0" with Some i => if_PeerIndex i | None => 0 end (fh_bridge hA);
  cy_routeA : leads (ns_Router (fh_ns hA)) pkt (fi_Route toB);
  cy_backA : routed hA (ack pkt);
  cy_hooksA : passes hA pkt out (fh_bridge hA);
  cy_vxlan : vxlan = true -> tunnelled;
  cy_hooksB : passes hB pkt pkt (fh_iface hB);
  cy_routeB : routed hB pkt;
  cy_backB : routed hB (ack pkt);
  cy_vethB : vethB;
  cy_back : leads (ns_Router (kp_NetNS infoB)) (ack pkt) eth0_route;
  cy_listen : ∃ stat, stat ∈ ns_ConnStats (kp_NetNS infoB) ∧ listens (Dst pkt) port protocol stat = true;
}.

Lemma clean_route (router : SimulateRouter) (e : RouteAssertion) (p : Packet) : router_total router -> ra_Dst e = None ->
  susp_list (AssertRoute router e p EmptyString EmptyString) = [] -> leads router p e.
Proof. intros Hr He Hs. apply assert_route_exact. rewrite (AssertRoute_total router e p EmptyString EmptyString Hr He) at 1. by rewrite Hs. Qed.
Lemma clean_sysctls (actual : gmap string string) (expect : list (string * string)) (level : SuspicionLevel) (k v : string) :
  AssertSysctls actual expect level = [] -> (k, v) ∈ expect -> actual !! k = Some v.
Proof.
  unfold AssertSysctls. induction expect as [|[k' v'] expect IH]; [by intros _ ?%elem_of_nil|]. rewrite bind_cons. intros [H1 H2]%app_nil.
  intros [[= -> ->]|Hin]%elem_of_cons; [|by apply IH]. cbn in H1. destruct (actual !! k') as [x|]; [|done].
  unfold AssertTrue in H1. by destruct (String.eqb_spec x v') as [->|].
Qed.
Lemma clean_host (h : flannelHost) (node : Node) : basic_checks h node = [] -> ns_SysctlInfo (fh_ns h) !! "net.ipv4.ip_forward"%string = Some "1"%string.
Proof.
  unfold basic_checks. rewrite !app_nil. intros (_ & _ & _ & _ & _ & _ & Hs). eapply clean_sysctls; [exact Hs|].
  unfold sysctls_on. apply list_elem_of_fmap. eexists. split; [done|]. apply elem_of_remove_dups. right. left.
Qed.
Lemma clean_filter (h : flannelHost) (p q : Packet) (iif : string) : hooks_end fuel (ns_Netfilter (fh_ns h)) -> filter_checks fuel h p q iif = [] ->
  let hook k p := accepts fuel (ns_Netfilter (fh_ns h)) k p iif in
  hook NFHookPreRouting p ∧ hook NFHookForward (set_Dst p (Dst q)) ∧ hook NFHookPostRouting (set_Dst p (Dst q)).
Proof.
  intros He Hf hook. unfold filter_checks in Hf. pose proof (forward_total fuel (ns_Netfilter (fh_ns h)) p [q] iif He) as E.
  rewrite Hf in E. apply assert_forward_exact in E as [H1 H2]. split; [done|]. apply H2. left.
Qed.
Lemma clean_vxlan : AssertVxlanVtep (ns_Interfaces (fh_ns hA)) (fi_Vtep toB) (fi_NodeIP toB) flannelVxlanInterface = Some [] -> tunnelled.
Proof.
  unfold AssertVxlanVtep, tunnelled. destruct (find_name _ _) as [iface|]; [|done]. destruct (ProbeNeigh _ _ _) as [[r|]|] eqn:Ep; [|done..].
  destruct (_ || _); [done|]. unfold AssertTrue. destruct (Equal (nr_DST r) (fi_NodeIP toB)) eqn:E; [|done]. intros _. by exists iface, r.
Qed.
Lemma clean_listen (stats : list ConnStat) (ip : IP) : AssertListen stats ip port protocol = [] -> ∃ stat, stat ∈ stats ∧ listens ip port protocol stat = true.
Proof.
  unfold AssertListen, AssertTrue. destruct (List.filter _ stats) as [|stat l] eqn:E; [done|]. intros _. exists stat.
  assert (In stat (List.filter (listens ip port protocol) stats)) as [H1 H2]%filter_In by (rewrite E; by left). by rewrite list_elem_of_In.
Qed.

(** No node of the path is suspicious. *)
Definition unsuspicious w : Prop := ∀ n, n ∈ nodes w -> nn_Suspicions n = [].
Lemma clean_A0 : suspicionsA0 = [] -> leads (ns_Router (kp_NetNS infoA)) pkt eth0_route.
Proof.
  unfold suspicionsA0, send_checks. rewrite !app_nil. intros (_ & _ & Hr). rewrite first_packet_is in Hr.
  apply clean_route in Hr; [done|exact (rs_router _ _ _ _ _ (cr_podA Hx))|done].
Qed.
Lemma clean_asserted (h : flannelHost) (p : Packet) (rt : nat -> option flannelRoute) : host_ok c rt fuel cluster h -> asserted c h cluster p = [] -> routed h p.
Proof.
  intros [_ Hro _ _ _ Hrs _] Ha e He. unfold asserted in Ha. rewrite He in Ha. apply clean_route in Ha; [done|done|]. unfold expectation in He. destruct (_ || _).
  - destruct (expected_route_total _ (Dst p) Hrs) as (o & Eo & Ho). rewrite Eo in He. subst o. by apply Ho.
  - apply fmap_Some in He as (info & Hi & ->). unfold info_of in Hi. apply bind_Some in Hi as (pod & _ & (node & _ & Hi)%bind_Some).
    destruct (node_data _ node) eqn:E; [|done..]. injection Hi as ->. by eapply node_data_Dst.
Qed.
Lemma clean_A : suspicionsA = [] -> Contains_IP (fh_podCIDR hA) (Dst pkt) = false ->
  leads (ns_Router (fh_ns hA)) pkt (fi_Route toB) ∧ routed hA (ack pkt) ∧ passes hA pkt out (fh_bridge hA) ∧ (vxlan = true -> tunnelled) ∧
  bridged (ns_Interfaces (fh_ns hA)) match find_name (ns_Interfaces (kp_NetNS infoA)) "eth0" with Some i => if_PeerIndex i | None => 0 end (fh_bridge hA).
Proof.
  destruct okA as (Hok & _ & _ & _ & _). unfold suspicionsA, backend_checks. rewrite !app_nil.
  intros (Hb & Hv & ((Ha & Hk) & _ & _ & Hx') & Hf) Hc. split_and!.
  - eapply clean_asserted; [exact Hok|exact Ha|]. unfold expectation. by rewrite Hc, (proj2 inside_cluster), info_toB.
  - by eapply clean_asserted.
  - destruct (clean_filter hA pkt out (fh_bridge hA) (ho_hooks _ _ _ _ _ Hok) Hf) as (H1 & H2 & H3). split_and!; [done..|by eapply clean_host].
  - unfold vxlan. intros E. rewrite E in Hx'. apply clean_vxlan. destruct (AssertVxlanVtep_total (ns_Interfaces (fh_ns hA)) (fi_Vtep toB) (fi_NodeIP toB) flannelVxlanInterface) as [ss Es].
    rewrite Es in Hx'. cbn in Hx'. by rewrite Es, Hx'.
  - apply veth_on_bridge_exact. exact Hv.
Qed.
Lemma clean_B : suspicionsB = [] -> passes hB pkt pkt (fh_iface hB) ∧ routed hB pkt ∧ routed hB (ack pkt) ∧ vethB.
Proof.
  destruct okB as (Hok & _ & _ & _ & _). unfold suspicionsB. rewrite !app_nil. intros (Hb & (Hv & Ha & Hk) & Hf). split_and!; [|by eapply clean_asserted..|].
  - destruct (clean_filter hB pkt pkt (fh_iface hB) (ho_hooks _ _ _ _ _ Hok) Hf) as (H1 & H2 & H3). split_and!; [done..|by eapply clean_host].
  - intros key peerIfs E. unfold local_veth in Hv. rewrite E in Hv. unfold AssertVEthPeerBridge in Hv.
    destruct (find_name peerIfs "eth0") as [eth0|]; [|done]. exists eth0. split; [done|]. by apply veth_on_bridge_exact.
Qed.
Lemma clean_B0 : suspicionsB0 = [] -> leads (ns_Router (kp_NetNS infoB)) (ack pkt) eth0_route ∧
  ∃ stat, stat ∈ ns_ConnStats (kp_NetNS infoB) ∧ listens (Dst pkt) port protocol stat = true.
Proof.
  unfold suspicionsB0, receive_checks. rewrite !app_nil. intros (_ & Hr & Hl). split; [|by apply clean_listen].
  apply clean_route in Hr; [done|exact (rs_router _ _ _ _ _ (cr_podB Hx))|done].
Qed.

(** C12: the diagnosis of two pods on two nodes of a Flannel network.  It
    ends after three transmissions without an error and gives the path from
    pod to node, from node to node and from node to pod.  The links carry the
    packet between the pods, inside a VXLAN packet between the nodes if that
    is the backend of the second node; each node has the suspicions of its
    checks and no others. *)
Theorem flannel_path (steps : nat) (Hsteps : (3 <= steps)%nat) :
  ∃ s, let w := SkoopDiagnose.world s in
    Diagnose_ api fuel processor None ReadFromString collector pl steps start None src dst protocol = Some (s, Ok ([], Some 0%nat, None)) ∧
    nodes w = [graphA0; graphA; graphB; graphB0] ∧ links w = path_links ∧
    l_Packet <$> links w = [pkt; if vxlan then encapsulated (fh_route hA) toB pkt else pkt; pkt] ∧
    Links (outputs_of w 0) steps = Some (Ok [(0, 0); (1, 1); (2, 2)]%nat).
Proof.
  destruct (diagnosis_run steps Hsteps) as (s & E & Hn & Hl). exists s. cbn zeta. split_and!; [done..| |].
  - rewrite Hl. cbn [path_links fmap list_fmap l_Packet arrived link0 link1 link2 first_link node_link pod_link]. by rewrite first_packet_is.
  - destruct steps as [|[|[|steps]]]; [lia..|]. unfold Links, outputs_of. rewrite Hn, Hl. by destruct steps.
Qed.

(** C13: what it means that the diagnosis raises no suspicion, if the address
    of the second pod is outside the pod CIDR of the first node.  Then the
    route of the first pod to the second, the routes of both nodes there and
    back and the route of the second pod back are the ones expected, or local
    ones, which are not compared.  The veth of each pod is on the bridge of
    its node; that of the second pod only if the node has its namespace.  Both
    nodes forward.  PREROUTING of both nodes accepts the packet; FORWARD and
    POSTROUTING accept it with the destination of the packet that leaves the
    node, so with VXLAN those of the first node were asked about the address
    of the second node.  VXLAN has the address of the second node, and the
    second pod listens.  So if any of these is wrong, some node of the path is
    shown with a suspicion. *)
Theorem flannel_clean (steps : nat) (Hsteps : (3 <= steps)%nat) (Hcidr : Contains_IP (fh_podCIDR hA) (Dst pkt) = false) s r :
  Diagnose_ api fuel processor None ReadFromString collector pl steps start None src dst protocol = Some (s, r) ->
  unsuspicious (SkoopDiagnose.world s) -> carried.
Proof.
  destruct (diagnosis_run steps Hsteps) as (s' & -> & Hn & _). intros [= <- <-] Hs. unfold unsuspicious in Hs. rewrite Hn in Hs.
  pose proof (Hs graphA0 ltac:(set_solver)) as H1. pose proof (Hs graphA ltac:(set_solver)) as H2.
  pose proof (Hs graphB ltac:(set_solver)) as H3. pose proof (Hs graphB0 ltac:(set_solver)) as H4.
  apply clean_A0 in H1. apply clean_A in H2 as (? & ? & ? & ? & ?); [|done]. apply clean_B in H3 as (? & ? & ? & ?). apply clean_B0 in H4 as [? ?]. by split.
Qed.
End two_nodes.

(** ** The example *)

Section example.
Context (backend : string).
Definition ex_info (i j : Z) (name : string) : option NodeInfo := host_info ex_read (ex_dump i j) name.
Definition ex_pinfo (i j : Z) (name key : string) : option PodInfo := pod_info ex_read (ex_dump i j) name key.
Definition ex_node1 : Node := ex_k8s_node "n1" "192.168.0.1" "10.244.1.0/24" backend.
Definition ex_node2 : Node := ex_k8s_node "n2" "192.168.0.2" "10.244.2.0/24" backend.
Definition ex_h1 : option flannelHost := info ← ex_info 1 2 "n1"; host_of 1 info ex_node1 (fp_hostOptions ex_plugin).
Definition ex_h2 : option flannelHost := info ← ex_info 2 1 "n2"; host_of 2 info ex_node2 (fp_hostOptions ex_plugin).
End example.

Lemma ex_named (backend : string) : named (ex_cluster backend).
Proof.
  split; [done| |].
  - intros k k' x y Hx Hy. destruct (ex_nodes_of _ _ _ Hx) as [-> | ->], (ex_nodes_of _ _ _ Hy) as [-> | ->]; by intros [=].
  - intros k k' x y Hx Hy. destruct (ex_pods_of _ _ _ Hx) as [-> | ->], (ex_pods_of _ _ _ Hy) as [-> | ->]; by intros ? [=].
Qed.
Definition ex_iA : NodeInfo := Eval vm_compute in the (ex_info 1 2 "n1").
Definition ex_iB : NodeInfo := Eval vm_compute in the (ex_info 2 1 "n2").
Definition ex_hA : flannelHost := Eval vm_compute in the (ex_h1 "vxlan").
Definition ex_hB : flannelHost := Eval vm_compute in the (ex_h2 "vxlan").
Definition ex_infoA : PodInfo := Eval vm_compute in the (ex_pinfo 1 2 "n1" "default/a").
Definition ex_infoB : PodInfo := Eval vm_compute in the (ex_pinfo 2 1 "n2" "default/b").
Definition ex_toB : flannelNodeInfo := Eval vm_compute in the (match node_data (fh_route ex_hA) (ex_node2 "vxlan") with Ok i => Some i | _ => None end).
Definition ex_rA : Route_ := Eval vm_compute in the (match RouteSrc (ns_Router (kp_NetNS ex_infoA)) (first_packet (dst [10; 244; 2; 2] 80) "tcp") EmptyString EmptyString with Ok (_, r) => Some r | _ => None end).
Lemma ex_hooks (h : flannelHost) : h = ex_hA ∨ h = ex_hB -> hooks_end 10 (ns_Netfilter (fh_ns h)).
Proof. intros [-> | ->] hook p iif; destruct hook; eexists; vm_compute; reflexivity. Qed.
Lemma router_total_dec (r : SimulateRouter) : bool_decide (map_Forall (λ _ rs, Forall (λ x, is_Some (r_Dst x)) rs) (routes r)) = true -> router_total r.
Proof. intros H%bool_decide_eq_true t rs Hrs. eapply Forall_impl; [exact (H t rs Hrs)|]. by intros x [d ->]. Qed.

Lemma ex_expected (h : flannelHost) : h = ex_hA ∨ h = ex_hB -> ∀ k e, fr_routes (fh_route h) !! k = Some e -> is_Some (ParseCIDR k).
Proof.
  intros Hh. assert (bool_decide (map_Forall (λ k _, is_Some (ParseCIDR k)) (fr_routes (fh_route h))) = true) as H%bool_decide_eq_true.
  { destruct Hh as [-> | ->]; vm_compute; reflexivity. } exact H.
Qed.
Lemma ex_annotated (h : flannelHost) : ∀ ip pod, podCache (ex_cluster "vxlan") !! ip = Some pod ->
  ∃ x info, node_named (ex_cluster "vxlan") (pod_NodeName pod) = Some x ∧ node_data (fh_route h) x = Ok info.
Proof.
  intros ip pod [-> | ->]%ex_pods_of; [exists (ex_node1 "vxlan")|exists (ex_node2 "vxlan")]; eexists; (split; [vm_compute|]; reflexivity).
Qed.

Lemma complete_dec (d : NodeNetworkStackDump) (name : string) :
  match netnsMap d !! hostnsKey with
  | Some host => match build_ns ex_read host with Ok _ => forallb (λ p, match build_pod ex_read host d name p with Ok _ => true | _ => false end) (d_Pods d) | _ => false end
  | None => false
  end = true -> complete ex_read d name.
Proof.
  unfold complete. destruct (netnsMap d !! hostnsKey) as [host|]; [|done]. destruct (build_ns ex_read host) as [ns| |] eqn:E; [|done..]. intros Hall.
  exists host, ns. split_and!; [done..|]. apply Forall_forall. intros p Hp. rewrite forallb_forall in Hall. specialize (Hall p ltac:(by apply list_elem_of_In)).
  by destruct (build_pod ex_read host d name p).
Qed.
Lemma ex_memberA : member (ex_cluster "vxlan") 10 ex_read ex_collector ex_plugin (ex_node1 "vxlan") "192.168.0.1" (ex_dump 1 2) 1 ex_hA.
Proof.
  split; [vm_compute; reflexivity..| | |apply router_total_dec; vm_compute; reflexivity|apply ex_hooks; by left|apply ex_expected; by left|apply ex_annotated].
  - apply complete_dec. vm_compute. reflexivity.
  - exists ex_iA. split; vm_compute; reflexivity.
Qed.
Lemma ex_memberB : member (ex_cluster "vxlan") 10 ex_read ex_collector ex_plugin (ex_node2 "vxlan") "192.168.0.2" (ex_dump 2 1) 2 ex_hB.
Proof.
  split; [vm_compute; reflexivity..| | |apply router_total_dec; vm_compute; reflexivity|apply ex_hooks; by right|apply ex_expected; by right|apply ex_annotated].
  - apply complete_dec. vm_compute. reflexivity.
  - exists ex_iB. split; vm_compute; reflexivity.
Qed.
Lemma ex_residentA : resident (ex_cluster "vxlan") ex_read (ex_net4 10 244 0 0 16) (ex_k8s_pod "a" "10.244.1.2" "n1") [10; 244; 1; 2] (ex_node1 "vxlan") (ex_dump 1 2) ex_infoA.
Proof.
  split; [|vm_compute; reflexivity..|split; reflexivity|apply router_total_dec; vm_compute; reflexivity].
  split; [done|]. repeat (apply Forall_cons; split; [by unfold is_byte|]); done.
Qed.
Lemma ex_residentB : resident (ex_cluster "vxlan") ex_read (ex_net4 10 244 0 0 16) (ex_k8s_pod "b" "10.244.2.2" "n2") [10; 244; 2; 2] (ex_node2 "vxlan") (ex_dump 2 1) ex_infoB.
Proof.
  split; [|vm_compute; reflexivity..|split; reflexivity|apply router_total_dec; vm_compute; reflexivity].
  split; [done|]. repeat (apply Forall_cons; split; [by unfold is_byte|]); done.
Qed.
Lemma ex_crossing : crossing (ex_cluster "vxlan") 10 ex_read ex_collector ex_plugin (ex_net4 10 244 0 0 16) (ex_node1 "vxlan") (ex_node2 "vxlan")
  "192.168.0.1" "192.168.0.2" (ex_dump 1 2) (ex_dump 2 1) ex_hA ex_hB (ex_k8s_pod "a" "10.244.1.2" "n1") (ex_k8s_pod "b" "10.244.2.2" "n2")
  [10; 244; 1; 2] [10; 244; 2; 2] ex_infoA ex_infoB ex_toB 80 "tcp" ex_rA.
Proof.
  split; [apply ex_named|reflexivity|by intros [=]|exact ex_memberA|exact ex_memberB|exact ex_residentA|exact ex_residentB|vm_compute; reflexivity..|].
  intros _. split_and!; vm_compute; reflexivity.
Qed.

Lemma flannel_path_witness : ∃ s, let w := SkoopDiagnose.world s in
  Diagnose_ ex_api 10 ex_noproc None ex_read ex_collector ex_plugin 3 (start (ex_cluster "vxlan")) None (src [10; 244; 1; 2]) (dst [10; 244; 2; 2] 80) "tcp" = Some (s, Ok ([], Some 0%nat, None)) ∧
  nn_ID <$> nodes w = ["default/a"; "n1"; "n2"; "default/b"]%string ∧ Protocol ∘ l_Packet <$> links w = ["tcp"; "udp"; "tcp"]%string ∧
  Links (outputs_of w 0) 3 = Some (Ok [(0, 0); (1, 1); (2, 2)]%nat).
Proof.
  destruct (flannel_path ex_api _ _ ex_noproc _ _ _ _ _ _ _ _ _ _ _ _ _ _ _ _ _ _ _ _ _ _ ex_crossing 3 ltac:(lia)) as (s & E & Hn & _ & Hp & Hl).
  exists s. split_and!; [exact E|by rewrite Hn| |exact Hl]. rewrite list_fmap_compose, Hp. vm_compute. reflexivity.
Defined.

Definition ex_run := Diagnose_ ex_api 10 ex_noproc None ex_read ex_collector ex_plugin 3 (start (ex_cluster "vxlan")) None (src [10; 244; 1; 2]) (dst [10; 244; 2; 2] 80) "tcp".
Lemma ex_run_clean : (λ x, nn_Suspicions <$> nodes (SkoopDiagnose.world x.1)) <$> ex_run = Some [[]; []; []; []].
Proof. vm_compute. reflexivity. Qed.
Lemma flannel_clean_witness : carried (ex_cluster "vxlan") 10 (ex_net4 10 244 0 0 16) ex_hA ex_hB (ex_k8s_pod "b" "10.244.2.2" "n2") [10; 244; 1; 2] [10; 244; 2; 2] ex_infoA ex_infoB ex_toB 80 "tcp" ∧
  is_Some (List.find (λ i, String.eqb i.1 "default/b") (kn_SubNetNSInfo (fh_nodeInfo ex_hB))).
Proof.
  pose proof ex_run_clean as Hs. destruct ex_run as [[s r]|] eqn:E; [|discriminate Hs]. injection Hs as Hs.
  split; [|eexists; vm_compute; reflexivity].
  refine (flannel_clean ex_api _ _ ex_noproc _ _ _ _ _ _ _ _ _ _ _ _ _ _ _ _ _ _ _ _ _ _ ex_crossing 3 _ _ s r E _); [lia|vm_compute; reflexivity|].
  intros n Hn. assert (nn_Suspicions n ∈ nn_Suspicions <$> nodes (SkoopDiagnose.world s)) as Hin by (by apply list_elem_of_fmap_2).
  rewrite Hs in Hin. clear -Hin. set_solver.
Defined.
End SkoopFlannelPath.
