(* ===== verification/SkoopFlannelFacts.v ===== *)
(** What modelling the Flannel plugin showed: the route to the network of the
    host is never checked, and a diagnosis that an error ends can leave a path
    that cannot be printed. *)

From Stdlib Require Import Ascii.
From S2P Require Import Prelude GoStrings GoNet GoResult SkoopRoute SkoopIptables SkoopXml SkoopCluster SkoopService SkoopPolicy SkoopAssert SkoopDiagnose SkoopNode SkoopCollect SkoopFlannel SkoopFlannelExample.
Import SkoopRoute SkoopIptables SkoopXml SkoopCluster SkoopService SkoopPolicy SkoopAssert SkoopDiagnose SkoopNode SkoopCollect SkoopFlannel SkoopFlannelExample.

Module SkoopFlannelFacts.

(** ** The routes that a host expects *)

Lemma mapM_elem {A B : Type} (f : A -> option B) (l : list A) (k : list B) : mapM f l = Some k ->
  (∀ b, b ∈ k -> ∃ a, a ∈ l ∧ f a = Some b) ∧ (∀ a, a ∈ l -> ∃ b, b ∈ k ∧ f a = Some b).
Proof.
  intros H%mapM_Some. split.
  - intros b (i & Hi)%list_elem_of_lookup. destruct (Forall2_lookup_r _ _ _ _ _ H Hi) as (a & Ha & E). exists a. split; [by eapply list_elem_of_lookup_2|done].
  - intros a (i & Hi)%list_elem_of_lookup. destruct (Forall2_lookup_l _ _ _ _ _ H Hi) as (b & Hb & E). exists b. split; [by eapply list_elem_of_lookup_2|done].
Qed.

(** The network that [expected_route] chooses, where only one contains the address. *)
Lemma expected_only (r : route) (ip : IP) (n : IPNet) (k : string) :
  (∀ k', is_Some (r !! k') -> is_Some (ParseCIDR k')) -> is_Some (r !! k) -> ParseCIDR k = Some n -> Contains_IP n ip = true ->
  (∀ k' n', is_Some (r !! k') -> ParseCIDR k' = Some n' -> Contains_IP n' ip = true -> n' = n) ->
  expected_route r ip = Ok (Some (default no_assertion (r !! IPNet_String n))).
Proof.
  intros Hall Hk Hn Hc Honly. unfold expected_route. destruct (mapM (λ kv, ParseCIDR kv.1) (map_to_list r)) as [cs|] eqn:E.
  - destruct (mapM_elem _ _ _ E) as [H1 H2]. assert (∀ c, c ∈ cs -> ∃ k', is_Some (r !! k') ∧ ParseCIDR k' = Some c) as Hcs.
    { intros c ([k' x] & Hx%elem_of_map_to_list & Hp)%H1. exists k'. split; [by exists x|done]. }
    assert (n ∈ cs) as Hin. { destruct Hk as [x Hx%elem_of_map_to_list]. destruct (H2 _ Hx) as (b & Hb & Eb). cbn in Eb. congruence. }
    pose proof (smallest_matching ip cs) as Hs. destruct (smallestMatchingCIDR ip cs) as [c|].
    + destruct Hs as (Hc1 & Hc2 & _). destruct (Hcs c Hc1) as (k' & Hk' & Hp). by rewrite (Honly k' c Hk' Hp Hc2).
    + rewrite (Hs n Hin) in Hc. done.
  - apply mapM_None, Exists_exists in E as ([k' x] & Hx%elem_of_map_to_list & Hp). destruct (Hall k') as [y Hy]; [by exists x|]. cbn in Hp. congruence.
Qed.

Definition octets (bs : list Z) : Prop := length bs = 4%nat ∧ Forall is_byte bs.
Lemma network4_octets (bs : list Z) (n : Z) : octets bs -> 0 <= n <= 32 -> octets (network4 bs n).
Proof.
  intros [Hl Hb] Hn. assert (length (CIDRMask n 32) = 4%nat) as Hm.
  { revert n Hn. apply (mask_cases _ (λ n, Nat.eqb (length (CIDRMask n 32)) 4)); [intros n; by rewrite Nat.eqb_eq|vm_compute; done]. }
  split; [unfold network4; rewrite length_zip_with; lia|]. unfold network4. generalize (CIDRMask n 32). clear Hl Hm Hn.
  induction Hb as [|b bs Hb Hbs IH]; intros [|m ms]; [constructor..|]. cbn [zip_with]. constructor; [|apply IH].
  unfold is_byte, fits in *. assert (Z.land b m = Z.land b m mod 2 ^ 8) as ->; [|apply Z.mod_pos_bound; lia].
  rewrite <- !Z.land_ones by lia. rewrite <- Z.land_assoc, (Z.land_comm m), Z.land_assoc. f_equal. rewrite Z.land_ones by lia. symmetry. apply Z.mod_small. lia.
Qed.
Lemma network4_twice (bs : list Z) (n : Z) : network4 (network4 bs n) n = network4 bs n.
Proof.
  unfold network4. generalize (CIDRMask n 32). induction bs as [|b bs IH]; intros [|m ms]; [done..|]. cbn [zip_with]. rewrite IH. f_equal.
  by rewrite <- Z.land_assoc, Z.land_diag.
Qed.

(** C36: the route to the network of the host.  [initRoute] enters what it
    expects of it under the address of the interface with its mask, and
    [Assert] looks under the text of the network.  So unless the interface has
    the address of the network itself, nothing is expected of the routes to
    the hosts of that network: every reachable route passes, whatever its
    interface or gateway. *)
Theorem host_route_unchecked (bs pod : list Z) (n m : Z) (bridge iface : string) (dev : Interface) (ip : IP)
    (Hbs : octets bs) (Hpod : octets pod) (Hn : 0 <= n <= 32) (Hm : 0 <= m <= 32) (Hcidr : network4 pod m = pod)
    (Haddr : GetDefaultIPv4 dev = (bs, CIDRMask n 32)) (Hhost : network4 bs n ≠ bs)
    (Hin : Contains_IP (net4 (network4 bs n) n) ip = true) (Hout : Contains_IP (net4 pod m) ip = false) :
  host_routes (net4 pod m) bridge dev iface [] !! text4 bs n = Some (scope_route iface ScopeLink None) ∧
  expected_route (host_routes (net4 pod m) bridge dev iface []) ip = Ok (Some no_assertion) ∧
  ∀ router p r, Route router p EmptyString EmptyString = Ok r -> r_Type r ∉ unreachable_types -> AssertRoute router no_assertion p EmptyString EmptyString = Ok [].
Proof.
  pose proof (network4_octets bs n Hbs Hn) as Hnet. destruct Hbs as [Hl Hb], Hpod as [Hlp Hbp], Hnet as [Hln Hbn].
  set (r := host_routes (net4 pod m) bridge dev iface []).
  assert (r = <[text4 bs n := scope_route iface ScopeLink None]> {[text4 pod m := scope_route bridge ScopeLink None]}) as Er.
  { unfold r, host_routes. rewrite Haddr. destruct (_ || _) eqn:Eg; [clear Eg|by vm_compute in Eg].
    change (MkIPNet bs (CIDRMask n 32)) with (net4 bs n). by rewrite !IPNet_String_4. }
  assert (∀ k, is_Some (r !! k) -> k = text4 bs n ∨ k = text4 pod m) as Hkeys.
  { intros k [e He]. rewrite Er in He. apply lookup_insert_Some in He as [[<- _]|[_ [<- _]%lookup_singleton_Some]]; [by left|by right]. }
  pose proof (ParseCIDR_text4 bs n Hl Hb Hn) as P1. pose proof (ParseCIDR_text4 pod m Hlp Hbp Hm) as P2. rewrite Hcidr in P2.
  assert (text4 (network4 bs n) n ≠ text4 bs n) as D1.
  { intros E%(f_equal (Split "/"%char)). rewrite !Split_text4 in E by (done || lia). injection E as E. by apply Hhost, string4_inj. }
  split; [rewrite Er; apply lookup_insert_eq|]. split.
  - rewrite (expected_only r ip (net4 (network4 bs n) n) (text4 bs n)).
    + rewrite IPNet_String_4 by done. destruct (r !! text4 (network4 bs n) n) as [e|] eqn:Ee; [|done]. exfalso.
      destruct (Hkeys (text4 (network4 bs n) n)) as [E|E]; [by exists e|done|].
      assert (ParseCIDR (text4 (network4 bs n) n) = Some (net4 (network4 bs n) n)) as P3 by (rewrite ParseCIDR_text4 by done; by rewrite network4_twice).
      rewrite E, P2 in P3. apply (inj Some) in P3. by rewrite P3, Hin in Hout.
    + intros k [-> | ->]%Hkeys; by eexists.
    + eexists. rewrite Er. apply lookup_insert_eq.
    + done.
    + done.
    + intros k' n' [-> | ->]%Hkeys Hp Hc; congruence.
  - intros router p x Hx Ht. apply assert_route_exact. exists x. split_and!; [done..|]. right. by split_and!.
Qed.

Lemma host_route_unchecked_witness :
  expected_route (host_routes (net4 [10; 244; 1; 0] 24) "cni0" (ex_host_if "eth0" 2 1500 "virtio" [MkIPNet [192; 168; 0; 1] (CIDRMask 24 32)] [] [] 0 0) "eth0" []) (IPv4 192 168 0 2) =
    Ok (Some no_assertion).
Proof.
  apply (host_route_unchecked [192; 168; 0; 1] [10; 244; 1; 0] 24 24 "cni0" "eth0"); try (vm_compute; reflexivity); try lia.
  - split; [done|]. repeat (apply Forall_cons; split; [by unfold is_byte|]); done.
  - split; [done|]. repeat (apply Forall_cons; split; [by unfold is_byte|]); done.
  - vm_compute. by intros [=].
Defined.

(** ** A path that cannot be printed *)

(** Node n1 has no annotations; pods b and c on n2 serve 10.96.0.10. *)
Definition ex_bare_node : Node := MkNode "n1" ["192.168.0.1"%string] "10.244.1.0/24" {["kubernetes.io/os"%string := "linux"%string]} ∅ [("Ready", "True")]%string.
Definition ex_web : Service :=
  MkService "default" "web" "ClusterIP" [MkServicePort "TCP" 80 (IntVal 80) 0] "10.96.0.10" ["10.96.0.10"%string] [] "Cluster" [] [].
Definition ex_bare_cluster : IPCache :=
  MkIPCache (list_to_map [("10.244.1.2"%string, ex_k8s_pod "a" "10.244.1.2" "n1"); ("10.244.2.2"%string, ex_k8s_pod "b" "10.244.2.2" "n2"); ("10.244.2.3"%string, ex_k8s_pod "c" "10.244.2.3" "n2")])
    (list_to_map [("192.168.0.1"%string, ex_bare_node); ("192.168.0.2"%string, ex_k8s_node "n2" "192.168.0.2" "10.244.2.0/24" "host-gw")])
    {["10.96.0.10"%string := ex_web]} true.
Definition ex_proxy : Processor :=
  kube_proxy (SkoopService.MkProcessor "iptables" None) (λ _, Some [[MkEndpointAddress "10.244.2.2" (Some "n2"%string); MkEndpointAddress "10.244.2.3" (Some "n2"%string)]]).
Definition ex_bare_run :=
  Diagnose_ ex_api 10 ex_proxy None ex_read ex_collector ex_plugin 10
    (SkoopDiagnose.MkState ∅ (SkoopNode.MkState [] [] ex_bare_cluster 0 (MkKeeps ∅ (MkManager ∅ ∅ ∅)))) None
    (MkEndpoint "10.244.1.2" EndpointTypePod 0) (MkEndpoint "10.96.0.10" EndpointTypeService 80) "tcp".
Definition printed := (λ x, (x.2, l_Destination <$> links (SkoopDiagnose.world x.1), Links (outputs_of (SkoopDiagnose.world x.1) 0) 10)) <$> ex_bare_run.

(** A path that cannot be printed.  A pod on n1 connects to a service
    with two endpoints on n2, and n1 has no Flannel annotations.  Its host sends
    the packet to both endpoints; on n2 the check of the way back fails, for it
    asks for the annotations of n1.  That ends the diagnosis without an error
    and with a path whose last link never got a destination, and listing the
    links of that path follows the nil pointer. *)
Theorem path_panics :
  ∃ s, ex_bare_run = Some (s, Ok ([], Some 0%nat, None)) ∧
    l_Destination <$> links (SkoopDiagnose.world s) = [Some 1%nat; Some 2%nat; None] ∧
    Links (outputs_of (SkoopDiagnose.world s) 0) 10 = Some Panic.
Proof.
  assert (printed = Some (Ok ([], Some 0%nat, None), [Some 1%nat; Some 2%nat; None], Some Panic)) as H by (vm_compute; reflexivity).
  unfold printed in H. destruct ex_bare_run as [[s r]|]; [|done]. exists s. by injection H as -> -> ->.
Qed.
End SkoopFlannelFacts.
