(* ===== verification/SkoopCalico.v ===== *)
(** src/pkg/skoop/plugin/calico.go: what the diagnosis command takes a node of
    a Calico network to do with a packet.

    Pools of addresses say whether packets between nodes are routed (BGP) or go
    through a tunnel (IPIP).  A host expects a route to the interface of a pod
    of its own, whose name is a hash of the pod's, or one to the other node,
    checks its namespace against that and hands the packet on.  The plugin
    keeps nothing of its own in the state of a diagnosis, only the collector
    does. *)

From Stdlib Require Import Ascii.
From S2P Require Import Prelude GoStrings GoNet GoResult GoSha1 SkoopRoute SkoopIptables SkoopXml SkoopCluster SkoopService SkoopPolicy SkoopAssert SkoopDiagnose SkoopNode SkoopCollect SkoopFlannel.
Import SkoopRoute SkoopIptables SkoopXml SkoopCluster SkoopService SkoopPolicy SkoopAssert SkoopDiagnose SkoopNode SkoopCollect SkoopFlannel.

Module SkoopCalico.

Inductive CalicoNetworkMode := CalicoNetworkModelBGP | CalicoNetworkModeIPIP | CalicoNetworkModeVXLan.
Definition CalicoTunnelInterface : string := "tunl0".

(** [calicov3.IPPool], as far as it is read. *)
Record IPPool := MkIPPool { pool_CIDR : string; pool_IPIPMode : string; pool_NATOutgoing : bool }.

(** The first eleven digits of the hash of the pod's name. *)
Definition prefix11 (s : string) : string := String.string_of_list_ascii (take 11 (String.list_ascii_of_string s)).
Definition calicoVethName (namespace name : string) : string := ("cali" ++ prefix11 (EncodeToString (Sum (namespace ++ "." ++ name))))%string.

(** A pool whose network cannot be read is a nil pointer, which [Contains]
    follows. *)
Fixpoint find_pool (ipPools : list IPPool) (ip : IP) : result Empty_set (option IPPool) :=
  match ipPools with
  | [] => Ok None
  | pool :: pools =>
      n ← deref (ParseCIDR (pool_CIDR pool));
      if Contains_IP n ip then Ok (Some pool) else find_pool pools ip
  end.
Definition getIPPool (ipPools : list IPPool) (ip : IP) : result Empty_set (option IPPool) :=
  if bool_decide (ip = []) then Ok None else find_pool ipPools ip.
(** [listIPPools]: what the API of Calico gives, or [None] on an error, and
    what the resources of Kubernetes give then.  The result is that of the
    first call in either case. *)
Definition listIPPools (api_pools crd_pools : option (list IPPool)) : option (list IPPool) :=
  match api_pools with Some pools => Some pools | None => match crd_pools with Some _ => Some [] | None => None end end.

Record calicoRoute := MkCalicoRoute { cr_routes : route; cr_iface : string; cr_nodeName : string; cr_ipPools : list IPPool; cr_network : IPNet }.
Record calicoHostOptions := MkCalicoOptions { co_Interface : string; co_MTU : Z; co_Gateway : IP; co_IPPools : list IPPool }.
Record calicoPlugin := MkCalicoPlugin { cp_hostOptions : calicoHostOptions; cp_podMTU : Z; cp_ipipPodMTU : Z }.
Record calicoHost := MkCalicoHost {
  ch_netNode : nat; ch_nodeInfo : NodeInfo; ch_iface : string; ch_mtu : Z; ch_network : IPNet; ch_gateway : IP; ch_ipPools : list IPPool; ch_route : calicoRoute;
}.
Definition ch_ns (h : calicoHost) : NetNS := kn_NetNS (ch_nodeInfo h).

Definition getNetworkModeFromIPPool (network : IPNet) (pool : option IPPool) (dstNodeIP : IP) : CalicoNetworkMode :=
  match pool with
  | None => CalicoNetworkModelBGP
  | Some pool =>
      if String.eqb (pool_IPIPMode pool) "Always" then CalicoNetworkModeIPIP
      else if String.eqb (pool_IPIPMode pool) "CrossSubnet" then
        if Contains_IP network dstNodeIP then CalicoNetworkModelBGP else CalicoNetworkModeIPIP
      else CalicoNetworkModelBGP
  end.

Definition RTProtBIRD : Z := 0xc.
Definition RtnUnicast : Z := 0x1.
(** What is expected of the route to a pod on the node, and on another one. *)
Definition local_assertion (pod : Pod) : RouteAssertion :=
  MkRouteAssertion (Some (calicoVethName (pod_Namespace pod) (pod_Name pod))) (Some ScopeLink) (Some RtnUnicast) None None None None.
Definition remote_assertion (iface : string) (networkMode : CalicoNetworkMode) (dstPod : option Pod) : RouteAssertion :=
  let gw := (λ pod, parse_ip (pod_HostIP pod)) <$> dstPod in
  match networkMode with
  | CalicoNetworkModelBGP => MkRouteAssertion (Some iface) (Some ScopeUniverse) None None None gw None
  | CalicoNetworkModeIPIP => MkRouteAssertion (Some CalicoTunnelInterface) (Some ScopeUniverse) None None None gw (Some RTProtBIRD)
  | CalicoNetworkModeVXLan => MkRouteAssertion None (Some ScopeUniverse) None None None gw None
  end.

Section calico.
Context `{MapOrder} (api : nat -> answers) (fuel : nat) (processor : Processor) (infra : option InfraShim).
Abbreviation CM := (M manager).
Abbreviation Trans := (SkoopDiagnose.Transmission nat).
Implicit Types (h : calicoHost) (pkt : Packet) (upstream : option nat) (dst : Endpoint) (protocol : string).

Definition panics {A : Type} (r : result Empty_set A) : CM A := λ s, (s, match r with Ok a => Ok a | Err e => match e with end | Panic => Panic end).

(** ** calicoRoute *)

Definition Assert_calico h pkt : CM () :=
  let r := ch_route h in let n := ch_netNode h in let router := ns_Router (ch_ns h) in
  ipPool ← panics (getIPPool (cr_ipPools r) (Dst pkt));
  match ipPool with
  | None => Assert_route n router (cr_routes r) pkt
  | Some _ =>
      pod ← from_cluster api (λ c a, GetPodFromIP c a (IP_String (Dst pkt)));
      let remote (hostIP : IP) : CM () :=
        check n (AssertRoute router (remote_assertion (cr_iface r) (getNetworkModeFromIPPool (cr_network r) ipPool hostIP) pod) pkt EmptyString EmptyString) in
      match pod with
      | Some p =>
          if String.eqb (pod_NodeName p) (cr_nodeName r) then check n (AssertRoute router (local_assertion p) pkt EmptyString EmptyString)
          else remote (parse_ip (pod_HostIP p))
      | None => remote []
      end
  end.
Definition checkRoute h pkt : CM () := Assert_calico h pkt;; Assert_calico h (ack pkt).

(** ** Packets *)

Definition assertInterface h (ifName : string) : CM () :=
  let n := ch_netNode h in let ifs := ns_Interfaces (ch_ns h) in
  suspect n (if String.eqb ifName CalicoTunnelInterface then AssertDefaultIPIPTunnel ifs ifName else []);;
  check n (AssertNetDevice ifs ifName (expect_device 0 LinkUP));;
  suspect n (AssertSysctls (ns_SysctlInfo (ch_ns h)) (sysctls_on [forwarding ifName]) SuspicionLevelWarning).

Definition calico_address : string := "projectcalico.org/IPv4Address".
Definition Encap h pkt (nextNode : option Node) (mode : CalicoNetworkMode) : CM Packet :=
  match mode with
  | CalicoNetworkModeIPIP =>
      node ← follow nextNode;
      let nextNodeIP := default EmptyString (node_Annotations node !! calico_address) in
      if String.eqb nextNodeIP EmptyString then fail NoAnnotation else
      match ParseCIDR_IP nextNodeIP with
      | None => fail BadCIDR
      | Some (ip, _) => mret (MkPacket (net_IP (ch_network h)) 0 ip (Dport pkt) "ipv4" (Some pkt) 0)
      end
  | _ => mret pkt
  end.
Definition Decap pkt : Packet := match Encap_of pkt with Some inner => inner | None => pkt end.

(** Whether a packet leaves the pools and its pool asks for NAT. *)
Definition natted h pkt : CM bool :=
  srcPool ← panics (getIPPool (ch_ipPools h) (Src pkt));
  match srcPool with
  | None => mret false
  | Some pool =>
      if negb (pool_NATOutgoing pool) then mret false
      else dstPool ← panics (getIPPool (ch_ipPools h) (Dst pkt)); mret (bool_decide (dstPool = None))
  end.
Definition doMasquerade h pkt : CM Packet :=
  nat ← natted h pkt;
  if nat : bool then '(ip, _) ← lift (RouteSrc (ns_Router (ch_ns h)) pkt EmptyString EmptyString); mret (with_Src pkt (parse_ip ip)) else mret pkt.
Definition masquerade h pkt : CM Packet :=
  nat ← natted h pkt;
  if nat : bool then
    node ← from_cluster api (λ c a, GetNodeFromIP c a (IP_String (Dst pkt)));
    match node with Some _ => mret pkt | None => doMasquerade h pkt end
  else mret pkt.

(** The interface that a packet comes in by: for one from a pod, the name is
    read out of the name of its node in the graph. *)
Definition pair_of (names : list string) : option (string * string) := match names with a :: b :: _ => Some (a, b) | _ => None end.
Definition source_id (l : Link) : CM string := λ s, (s, n ← deref (nodes s !! l_Source l); Ok (nn_ID n)).
Definition detectIif h upstream : CM string :=
  match upstream with
  | None => mret EmptyString
  | Some u =>
      l ← get_link u;
      match l_Type l with
      | LinkVeth =>
          id ← source_id l;
          names ← follow (pair_of (Split "/" id));
          pod ← from_cluster api (λ c a, GetPodFromName c a (fst names) (snd names));
          pod ← follow pod;
          mret (calicoVethName (pod_Namespace pod) (pod_Name pod))
      | _ =>
          if bool_decide (Encap_of (l_Packet l) ≠ None) && String.eqb (Protocol (l_Packet l)) "ipv4" then mret CalicoTunnelInterface else mret (ch_iface h)
      end
  end.

(** ** Transmissions *)

Definition add_infra h (r : option (list suspicion)) : CM () :=
  match r with Some ss => suspect (ch_netNode h) ss | None => fail InfraError end.
(** An error is dropped, and the result is zero. *)
Definition attempt {A : Type} (m : CM A) : CM (option A) := λ s,
  match m s with (s, Ok a) => (s, Ok (Some a)) | (s, Err _) => (s, Ok None) | (s, Panic) => (s, Panic) end.

(** [None] is a transmission without a link.  The mode is that for the
    destination of the packet, not for the node. *)
Definition transmissionToNode h pkt (node : option Node) : CM (option Trans) :=
  checkRoute h pkt;;
  pktOut ← attempt (doMasquerade h pkt);
  match pktOut with
  | None => mret None
  | Some pktOut =>
      (match infra with
       | Some i =>
           dstNode ← from_cluster api (λ c a, GetNodeFromName c a (kn_NodeName (ch_nodeInfo h)));
           add_infra h (NodeToNode i dstNode (ch_iface h) node pktOut)
       | None => mret ()
       end);;
      ipPool ← panics (getIPPool (ch_ipPools h) (Dst pkt));
      let networkMode := getNetworkModeFromIPPool (cr_network (ch_route h)) ipPool (Dst pkt) in
      oif ← match networkMode with CalicoNetworkModeIPIP => assertInterface h CalicoTunnelInterface;; mret CalicoTunnelInterface | _ => mret (ch_iface h) end;
      out ← Encap h pktOut node networkMode;
      l ← new_link (MkLink LinkInfra (ch_netNode h) None out (SimpleLinkAttribute oif EmptyString) None);
      node ← follow node;
      mret (Some (MkTransmission NetNodeTypeNode (node_Name node) l))
  end.
Definition transmissionToPod h pkt (pod : option Pod) : CM (option Trans) :=
  pod ← follow pod;
  if negb (pod_HostNetwork pod) && String.eqb (pod_NodeName pod) (kn_NodeName (ch_nodeInfo h)) then
    checkRoute h pkt;;
    let ifName := calicoVethName (pod_Namespace pod) (pod_Name pod) in
    assertInterface h ifName;;
    l ← new_link (MkLink LinkVeth (ch_netNode h) None pkt (SimpleLinkAttribute ifName EmptyString) None);
    mret (Some (MkTransmission NetNodeTypePod (IP_String (Dst pkt)) l))
  else
    node ← from_cluster api (λ c a, GetNodeFromIP c a (pod_HostIP pod));
    transmissionToNode h pkt node.
Definition transmissionToExternal h pkt : CM (option Trans) :=
  checkRoute h pkt;;
  pktOut ← masquerade h pkt;
  l ← new_link (MkLink LinkInfra (ch_netNode h) None pktOut (SimpleLinkAttribute (ch_iface h) EmptyString) None);
  mret (Some (MkTransmission NetNodeTypeExternal (IP_String (Dst pktOut)) l)).

(** ** calicoHost *)

(** The packet from [h] itself; without a route there is no transmission. *)
Definition own_packet h dst protocol : CM Packet :=
  let pkt := first_packet dst protocol in
  match RouteSrc (ns_Router (ch_ns h)) pkt EmptyString EmptyString with
  | Ok (src, _) => mret (with_Src pkt (parse_ip src))
  | Err ErrNoRouteToHost => suspect (ch_netNode h) [(SuspicionLevelFatal, NoRouteToHost)];; fail (CannotBuild (ch_netNode h))
  | Err e => fail (RouteError e)
  | Panic => λ s, (s, Panic)
  end.
Definition to h upstream dst protocol (transmit : Packet -> CM (option Trans)) : CM (list Trans) :=
  let n := ch_netNode h in let nf := ns_Netfilter (ch_ns h) in
  iif ← detectIif h upstream;
  match upstream with
  | Some u =>
      l ← get_link u;
      (match l_Type l with LinkVeth => assertInterface h iif | _ => mret () end);;
      set_Destination u n;;
      set_DestinationAttribute u (SimpleLinkAttribute iif EmptyString);;
      let pkt := Decap (l_Packet l) in
      t ← transmit pkt;
      match t with
      | None => mret []
      | Some t =>
          out ← get_link (link t);
          check_report n (AssertNetfilterForward fuel nf pkt [l_Packet out] iif);;
          act n (ActionForward u [link t]);;
          mret [t]
      end
  | None =>
      pkt ← own_packet h dst protocol;
      t ← transmit pkt;
      match t with
      | None => mret []
      | Some t =>
          out ← get_link (link t);
          check_report n (AssertNetfilterSend fuel nf pkt [l_Packet out] iif);;
          act n (ActionSend [link t]);;
          mret [t]
      end
  end.
Definition Host_ToPod h upstream dst protocol (pod : option Pod) : CM (list Trans) := to h upstream dst protocol (λ pkt, transmissionToPod h pkt pod).
Definition Host_ToHost h upstream dst protocol (node : option Node) : CM (list Trans) := to h upstream dst protocol (λ pkt, transmissionToNode h pkt node).
Definition Host_ToExternal h upstream dst protocol : CM (list Trans) := to h upstream dst protocol (transmissionToExternal h).

Definition service_packet h upstream dst protocol (iif : string) : CM Packet :=
  match upstream with
  | Some u => l ← get_link u; set_DestinationAttribute u (SimpleLinkAttribute iif EmptyString);; mret (l_Packet l)
  | None =>
      let pkt := first_packet dst protocol in
      '(src, _) ← lift (RouteSrc (ns_Router (ch_ns h)) pkt EmptyString EmptyString); mret (with_Src pkt (parse_ip src))
  end.
Definition to_backend h pkt protocol (b : Backend) : CM (option Trans) :=
  let pktOut := backend_packet pkt protocol b in
  pktOut ← (if b_Masquerade b then '(ip, _) ← lift (RouteSrc (ns_Router (ch_ns h)) pktOut EmptyString EmptyString); mret (with_Src pktOut (parse_ip ip)) else mret pktOut);
  backendType ← from_cluster api (λ c a, GetIPType c a (b_IP b));
  match backendType with
  | EndpointTypePod =>
      pod ← from_cluster api (λ c a, GetPodFromIP c a (b_IP b));
      match pod with None => fail NoSuchPod | Some _ => transmissionToPod h pktOut pod end
  | EndpointTypeNode =>
      node ← from_cluster api (λ c a, GetNodeFromIP c a (b_IP b));
      match node with None => fail NoSuchNode | Some _ => transmissionToNode h pktOut node end
  | _ => transmissionToExternal h pktOut
  end.
(** A transmission without a link is followed when the packets are checked. *)
Fixpoint to_backends h pkt protocol (bs : list Backend) : CM (list (option Trans)) :=
  match bs with
  | [] => mret []
  | b :: bs' => t ← to_backend h pkt protocol b; ts ← to_backends h pkt protocol bs'; mret (t :: ts)
  end.
Definition Host_ToService h upstream dst protocol (service : option Service) : CM (list Trans) :=
  let n := ch_netNode h in let nf := ns_Netfilter (ch_ns h) in
  iif ← detectIif h upstream;
  pkt ← service_packet h upstream dst protocol iif;
  node ← from_cluster api (λ c a, GetNodeFromName c a (kn_NodeName (ch_nodeInfo h)));
  svc ← follow service;
  suspect n (AssertTrue (bool_decide (svc_LoadBalancerSourceRanges svc = []) || source_allowed (svc_LoadBalancerSourceRanges svc) (Src pkt))
    SuspicionLevelWarning (SourceNotAllowed (svc_LoadBalancerSourceRanges svc)));;
  let backends := pr_Process processor pkt svc node in
  match backends with
  | [] => suspect n [(SuspicionLevelFatal, NoEndpoint)];; act n (ActionService upstream []);; fail (CannotBuild n)
  | _ =>
      suspect n (match pr_Validate processor pkt backends (ns_IPVS (ch_ns h)) with Some e => [(SuspicionLevelFatal, ValidateFailed e)] | None => [] end);;
      ts ← to_backends h pkt protocol backends;
      ts ← follow (mapM id ts);
      act n (ActionService upstream (link <$> ts));;
      outs ← link_packets (link <$> ts);
      check_report n (match upstream with Some _ => AssertNetfilterForward fuel nf pkt outs iif | None => AssertNetfilterSend fuel nf pkt outs iif end);;
      mret ts
  end.

Definition Host_Serve h (upstream : nat) dst protocol : CM (list Trans) :=
  let n := ch_netNode h in let nf := ns_Netfilter (ch_ns h) in
  iif ← detectIif h (Some upstream);
  l ← get_link upstream;
  match Encap_of (l_Packet l) with
  | Some _ =>
      check_report n (AssertNetfilterServe fuel nf (l_Packet l) iif);;
      let inner := Decap (l_Packet l) in
      pod ← from_cluster api (λ c a, GetPodFromIP c a (IP_String (Dst inner)));
      match pod with
      | None => fail NoSuchPod
      | Some _ => Host_ToPod h (Some upstream) (MkEndpoint (IP_String (Dst inner)) EndpointTypePod (Dport inner)) (Protocol inner) pod
      end
  | None =>
      Assert_calico h (ack (l_Packet l));;
      set_DestinationAttribute upstream (SimpleLinkAttribute iif EmptyString);;
      check_report n (AssertNetfilterServe fuel nf (l_Packet l) iif);;
      suspect n (AssertListen (ns_ConnStats (ch_ns h)) (parse_ip (ep_IP dst)) (ep_Port dst) protocol);;
      act n (ActionServe upstream);;
      mret []
  end.
Definition calicoHost_node h : SimplePluginNode manager :=
  {| ToPod := Host_ToPod h; ToHost := Host_ToHost h; ToService := Host_ToService h; ToExternal := Host_ToExternal h; Serve := Host_Serve h |}.

(** ** Making nodes *)

Definition calico_routes (network : IPNet) (iface : string) (gateway : IP) : route :=
  let routes := {[IPNet_String network := scope_route iface ScopeLink None]} in
  if bool_decide (gateway = []) || IsUnspecified gateway then routes
  else <["0.0.0.0/0"%string := scope_route iface ScopeUniverse (Some gateway)]> routes.
Definition basicCheck_calico h : CM () :=
  let n := ch_netNode h in let ns := ch_ns h in
  suspect n (AssertDefaultRule (ns_RuleInfo ns));;
  suspect n (AssertNoPolicyRoute (ns_RuleInfo ns));;
  check n (AssertNetDevice (ns_Interfaces ns) (ch_iface h) (expect_device (ch_mtu h) LinkUP));;
  suspect n (AssertSysctls (ns_SysctlInfo ns) (sysctls_on ["net.ipv4.ip_forward"%string; forwarding (ch_iface h)]) SuspicionLevelFatal).
Definition newCalicoHost (nodeInfo : NodeInfo) (o : calicoHostOptions) : CM calicoHost :=
  netNode ← new_node (NewNetNode (kn_NodeName nodeInfo) NetNodeTypeNode);
  let ifs := ns_Interfaces (kn_NetNS nodeInfo) in
  let iface := if String.eqb (co_Interface o) EmptyString then LookupDefaultIfaceName ifs else co_Interface o in
  if String.eqb iface EmptyString then fail NoHostInterface else
  match find_name ifs iface with
  | None => fail NoHostInterface
  | Some dev =>
      let network := (let '(ip, mask) := GetDefaultIPv4 dev in MkIPNet ip mask) in
      let r := MkCalicoRoute (calico_routes network iface (co_Gateway o)) iface (kn_NodeName nodeInfo) (co_IPPools o) network in
      let h := MkCalicoHost netNode nodeInfo iface (co_MTU o) network (co_Gateway o) (co_IPPools o) r in
      basicCheck_calico h;; mret h
  end.

Context (ReadFromString : string -> option (option Element)) (collector : string -> option NodeNetworkStackDump) (plugin_ : calicoPlugin).
Abbreviation world := (state_of manager).

(** A pod whose pool may use the tunnel has a smaller MTU. *)
Definition pod_mtu (pool : option IPPool) : Z :=
  match pool with Some pool => if String.eqb (pool_IPIPMode pool) "Never" then cp_podMTU plugin_ else cp_ipipPodMTU plugin_ | None => cp_podMTU plugin_ end.
Definition CreatePod (pod : PodInfo) : CM simpleVEthPod :=
  k8sPod ← from_cluster api (λ c a, GetPodFromName c a (kp_Namespace pod) (kp_PodName pod));
  match k8sPod with
  | None => fail NoSuchPod
  | Some k8sPod => pool ← panics (getIPPool (co_IPPools (cp_hostOptions plugin_)) (parse_ip (pod_PodIP k8sPod))); newSimpleVEthPod pod (pod_mtu pool) "eth0"
  end.

Inductive calico_node := CalicoPod (p : simpleVEthPod) | CalicoNode (h : calicoHost) | CalicoGeneric (n : nat).
Definition Calico_Send (n : calico_node) dst protocol : CM (list Trans) :=
  match n with
  | CalicoPod p => Pod_Send api p dst protocol
  | CalicoNode h => Base_Send api (calicoHost_node h) dst protocol
  | CalicoGeneric n => Generic_Send n dst protocol
  end.
Definition Calico_Receive (n : calico_node) (upstream : nat) : CM (list Trans) :=
  match n with
  | CalicoPod p => Pod_Receive api p upstream
  | CalicoNode h => Base_Receive api (ch_netNode h) (kn_NodeName (ch_nodeInfo h)) (calicoHost_node h) upstream
  | CalicoGeneric n => Generic_Receive n upstream
  end.

Abbreviation put_manager := (λ m _, m).
Definition make_calico_pod (id : string) : CM calico_node :=
  pod ← from_cluster api (λ c a, GetPodFromIP c a id);
  match pod with
  | None => fail NoSuchPod
  | Some pod =>
      info ← CollectPod ReadFromString collector api (λ m, m) put_manager (pod_Namespace pod) (pod_Name pod);
      info ← follow info;
      p ← CreatePod info; mret (CalicoPod p)
  end.
Definition make_calico_host (id : string) : CM calico_node :=
  info ← CollectNode ReadFromString collector api (λ m, m) put_manager id;
  h ← newCalicoHost info (cp_hostOptions plugin_); mret (CalicoNode h).
Definition calico_makers : makers calico_node world plugin_err :=
  MkMakers (λ w id, make_calico_pod id w) (λ w id, make_calico_host id w) None
    (λ w id, (set_nodes (λ l, l ++ [NewNetNode id NetNodeTypeGeneric]) w, CalicoGeneric (length (nodes w)))).
Definition calico_send (w : world) (n : calico_node) dst protocol : world * sent nat nat plugin_err :=
  match Calico_Send n dst protocol w with
  | (w, Ok ts) => (w, Sent ts)
  | (w, Err (CannotBuild n)) => (w, CannotBuildTransmission n)
  | (w, Err e) => (w, SendError e)
  | (w, Panic) => (w, SendPanic)
  end.
Definition calico_source (w : world) (l : nat) : nat := match links w !! l with Some x => l_Source x | None => 0 end.
Definition calico_diagnose (steps : nat) (s : SkoopDiagnose.state calico_node world) (src dst : Endpoint) protocol :=
  Diagnose calico_makers calico_send (λ w n l, Calico_Receive n l w) calico_source steps s None (λ ip, Ok (nodeCache (ipcache (SkoopDiagnose.world s)) !! ip)) src dst protocol.
End calico.
End SkoopCalico.
