(* ===== verification/SkoopCalicoFacts.v ===== *)
(** What a Calico host does with a packet for another node: a hop, a cluster
    of two nodes as an example, and the cases in which the diagnosis and the
    network differ. *)

From S2P Require Import Prelude GoStrings GoNet GoResult GoSha1 SkoopRoute SkoopIptables SkoopXml SkoopCluster SkoopService SkoopPolicy SkoopAssert SkoopDiagnose SkoopNode SkoopCollect SkoopFlannel SkoopFlannelExample SkoopCalico.
Import SkoopRoute SkoopIptables SkoopXml SkoopCluster SkoopService SkoopPolicy SkoopAssert SkoopDiagnose SkoopNode SkoopCollect SkoopFlannel SkoopFlannelExample SkoopCalico.

Module SkoopCalicoFacts.

(** ** The names of interfaces *)

(** The name of a pod's interface has as many characters as an interface name
    can have, whatever the names of the pod are. *)
Theorem calico_name_length (namespace name : string) : length (String.list_ascii_of_string (calicoVethName namespace name)) = 15%nat.
Proof.
  unfold calicoVethName, prefix11, EncodeToString.
  assert (∀ s, length (String.list_ascii_of_string ("cali" ++ s)) = (4 + length (String.list_ascii_of_string s))%nat) as -> by done.
  rewrite !String.list_ascii_of_string_of_list_ascii, length_take, hex_length, Sum_length. done.
Qed.

(** ** Running a step *)

Lemma bind_inv {P A B : Type} (m : M P A) (f : A -> M P B) (s s' : state_of P) (b : B) :
  (m ≫= f) s = (s', Ok b) -> ∃ s1 a, m s = (s1, Ok a) ∧ f a s1 = (s', Ok b).
Proof. unfold mbind, M_bind. destruct (m s) as [s1 [a|e|]]; [eauto|done|done]. Qed.
Lemma attempt_inv {A : Type} (m : M manager A) s s' (o : option A) : attempt m s = (s', Ok o) -> match o with Some a => m s = (s', Ok a) | None => ∃ e, m s = (s', Err e) end.
Proof. unfold attempt. destruct (m s) as [s1 [a|e|]]; intros [= <- <-]; eauto. Qed.
Lemma panics_inv {A : Type} (r : result Empty_set A) s s' (a : A) : panics r s = (s', Ok a) -> s' = s ∧ r = Ok a.
Proof. unfold panics. destruct r as [x|[]|]; by intros [= <- <-]. Qed.
Lemma follow_inv {P A : Type} (p : option A) (s s' : state_of P) (a : A) : follow p s = (s', Ok a) -> s' = s ∧ p = Some a.
Proof. unfold follow. destruct p; by intros [= <- <-]. Qed.
Lemma lift_inv {P A : Type} (r : result route_err A) (s s' : state_of P) (a : A) : lift r s = (s', Ok a) -> s' = s ∧ r = Ok a.
Proof. unfold lift. destruct r; by intros [= <- <-]. Qed.

(** ** Steps that make no link *)

Definition no_link {P A : Type} (m : M P A) : Prop := ∀ s, links (m s).1 = links s.
Lemma no_link_bind {P A B : Type} (m : M P A) (f : A -> M P B) : no_link m -> (∀ a, no_link (f a)) -> no_link (m ≫= f).
Proof.
  intros Hm Hf s. specialize (Hm s). unfold mbind, M_bind. destruct (m s) as [s1 [a|e|]]; cbn in *; [by rewrite Hf|done|done].
Qed.
Lemma no_link_ret {P A : Type} (a : A) : no_link (mret a : M P A).
Proof. done. Qed.
Lemma no_link_fail {P A : Type} (e : plugin_err) : no_link (fail e : M P A).
Proof. done. Qed.
Lemma no_link_lift {P A : Type} (r : result route_err A) : no_link (lift r : M P A).
Proof. done. Qed.
Lemma no_link_follow {P A : Type} (p : option A) : no_link (follow p : M P A).
Proof. done. Qed.
Lemma no_link_suspect {P : Type} (n : nat) (ss : list suspicion) : no_link (suspect n ss : M P ()).
Proof. done. Qed.
Lemma no_link_cluster {P A : Type} (api : nat -> answers) (get : IPCache -> answers -> IPCache * option A) : no_link (from_cluster api get : M P A).
Proof. intros s. unfold from_cluster. by destruct (get _ _). Qed.
Lemma no_link_panics {A : Type} (r : result Empty_set A) : no_link (panics r).
Proof. done. Qed.
Create HintDb no_link.
#[export] Hint Resolve no_link_bind no_link_ret no_link_fail no_link_lift no_link_follow no_link_suspect no_link_cluster no_link_panics : no_link.

Lemma no_link_check {P : Type} (n : nat) (r : result route_err (list suspicion)) : no_link (check n r : M P ()).
Proof. unfold check. auto with no_link. Qed.
#[export] Hint Resolve no_link_check : no_link.
Lemma no_link_attempt {A : Type} (m : M manager A) : no_link m -> no_link (attempt m).
Proof. intros Hm s. specialize (Hm s). unfold attempt. by destruct (m s) as [s1 [a|e|]]. Qed.

Section hops.
Context `{MapOrder} (api : nat -> answers) (infra : option InfraShim).
Implicit Types (h : calicoHost) (pkt out : Packet) (s : state_of manager) (t : SkoopDiagnose.Transmission nat).

Lemma no_link_Assert_calico h pkt : no_link (Assert_calico api h pkt).
Proof.
  unfold Assert_calico, Assert_route. apply no_link_bind; [auto with no_link|]. intros [pool|].
  - apply no_link_bind; [auto with no_link|]. intros [p|]; [destruct (String.eqb _ _)|]; auto with no_link.
  - apply no_link_bind; [auto with no_link|]. intros [e|]; auto with no_link.
Qed.
Lemma no_link_natted h pkt : no_link (natted h pkt).
Proof. unfold natted. apply no_link_bind; [auto with no_link|]. intros [pool|]; [destruct (negb _)|]; auto with no_link. Qed.
Lemma no_link_doMasquerade h pkt : no_link (doMasquerade h pkt).
Proof.
  unfold doMasquerade. apply no_link_bind; [apply no_link_natted|]. intros [|]; [|done].
  apply no_link_bind; [auto with no_link|]. by intros [].
Qed.
Lemma no_link_assertInterface h (ifName : string) : no_link (assertInterface h ifName).
Proof. unfold assertInterface. auto with no_link. Qed.
Lemma no_link_Encap h pkt (n : option Node) (mode : CalicoNetworkMode) : no_link (Encap h pkt n mode).
Proof.
  unfold Encap. destruct mode; auto with no_link. apply no_link_bind; [auto with no_link|]. intros x.
  destruct (String.eqb _ _); [auto with no_link|]. destruct (ParseCIDR_IP _) as [[]|]; auto with no_link.
Qed.

(** ** Pools

    A packet's address lies in the first pool whose network contains it. *)
Definition outside (ip : IP) (pool : IPPool) : Prop := ∃ net, ParseCIDR (pool_CIDR pool) = Some net ∧ Contains_IP net ip = false.
Definition in_pool (pools : list IPPool) (ip : IP) (pool : IPPool) : Prop :=
  ip ≠ [] ∧ ∃ pre post net, pools = pre ++ pool :: post ∧ Forall (outside ip) pre ∧ ParseCIDR (pool_CIDR pool) = Some net ∧ Contains_IP net ip = true.
Definition in_no_pool (pools : list IPPool) (ip : IP) : Prop := ip = [] ∨ Forall (outside ip) pools.

Lemma find_pool_spec (pools : list IPPool) (ip : IP) (o : option IPPool) : ip ≠ [] -> find_pool pools ip = Ok o ->
  match o with Some pool => in_pool pools ip pool | None => Forall (outside ip) pools end.
Proof.
  intros Hip. revert o. induction pools as [|q pools IH]; intros o E; [by injection E as <-|]. cbn [find_pool] in E.
  destruct (ParseCIDR (pool_CIDR q)) as [net|] eqn:Hn; [|done]. cbn [deref mbind result_bind] in E.
  destruct (Contains_IP net ip) eqn:Hc.
  - injection E as <-. split; [done|]. by exists [], pools, net.
  - specialize (IH o E). destruct o as [pool|].
    + destruct IH as (_ & pre & post & net' & -> & Hpre & ? & ?). split; [done|]. exists (q :: pre), post, net'. split_and!; [done| |done|done].
      apply Forall_cons. split; [by exists net|done].
    + apply Forall_cons. split; [by exists net|done].
Qed.
Lemma getIPPool_spec (pools : list IPPool) (ip : IP) (o : option IPPool) : getIPPool pools ip = Ok o ->
  match o with Some pool => in_pool pools ip pool | None => in_no_pool pools ip end.
Proof.
  unfold getIPPool. case_bool_decide as Hip; [intros [= <-]; by left|]. intros E%find_pool_spec; [|done].
  destruct o; [done|by right].
Qed.
Lemma outside_not (pools : list IPPool) (ip : IP) (pool : IPPool) (net : IPNet) :
  Forall (outside ip) pools -> pool ∈ pools -> ParseCIDR (pool_CIDR pool) = Some net -> Contains_IP net ip = true -> False.
Proof. intros Hf Hin Hp Hc. destruct (proj1 (Forall_forall _ _) Hf pool Hin) as (net' & E & Hn). congruence. Qed.
Lemma in_pool_unique (pools : list IPPool) (ip : IP) (p q : IPPool) : in_pool pools ip p -> in_pool pools ip q -> p = q.
Proof.
  intros (_ & pre & post & net & -> & Hpre & Hp & Hc) (_ & pre' & post' & net' & E & Hpre' & Hp' & Hc').
  revert pre' E Hpre'. induction Hpre as [|x pre Hx _ IH]; intros [|x' pre'] E Hpre'; simplify_eq/=; [done|..].
  - exfalso. apply Forall_cons in Hpre' as [(? & ? & ?) _]. congruence.
  - exfalso. destruct Hx as (? & ? & ?). congruence.
  - apply Forall_cons in Hpre' as [_ Hpre']. by eapply IH.
Qed.
Lemma in_pool_some (pools : list IPPool) (ip : IP) (pool : IPPool) : in_pool pools ip pool -> ¬ in_no_pool pools ip.
Proof.
  intros (Hip & pre & post & net & -> & _ & Hp & Hc) [?|Hf]; [done|].
  apply (outside_not _ _ pool net Hf); [apply elem_of_app; right; apply list_elem_of_here|done|done].
Qed.

(** A packet from a pool that asks for NAT that leaves the pools. *)
Definition leaves h pkt : Prop :=
  ∃ pool, in_pool (ch_ipPools h) (Src pkt) pool ∧ pool_NATOutgoing pool = true ∧ in_no_pool (ch_ipPools h) (Dst pkt).
(** A packet to a pool that uses the tunnel, always or for addresses that are
    not in the network of the nodes. *)
Definition tunnelled h pkt : Prop :=
  ∃ pool, in_pool (ch_ipPools h) (Dst pkt) pool ∧
    (pool_IPIPMode pool = "Always"%string ∨ pool_IPIPMode pool = "CrossSubnet"%string ∧ Contains_IP (cr_network (ch_route h)) (Dst pkt) = false).

(** The packet that leaves the host: with the address of the route to its
    destination as source if it is masqueraded, and otherwise the same. *)
Definition masqueraded h pkt out : Prop :=
  (leaves h pkt ∧ ∃ addr r, RouteSrc (ns_Router (ch_ns h)) pkt EmptyString EmptyString = Ok (addr, r) ∧ out = with_Src pkt (parse_ip addr)) ∨
  (¬ leaves h pkt ∧ out = pkt).
(** How it is sent to the node [n]: in a packet from the host's address to that
    of the node's annotation, through the tunnel; or as it is. *)
Definition sent_by_tunnel h out (n : Node) pkt : Prop :=
  ∃ text addr net, node_Annotations n !! calico_address = Some text ∧ ParseCIDR_IP text = Some (addr, net) ∧
    pkt = MkPacket (net_IP (ch_network h)) 0 addr (Dport out) "ipv4" (Some out) 0.

Lemma natted_inv h pkt s s' (b : bool) : natted h pkt s = (s', Ok b) -> if b then leaves h pkt else ¬ leaves h pkt.
Proof.
  intros (s1 & src & [-> Hsrc%getIPPool_spec]%panics_inv & Hk)%bind_inv. destruct src as [pool|].
  2: { injection Hk as _ <-. intros (pool & Hp & _). by apply in_pool_some in Hp. }
  destruct (pool_NATOutgoing pool) eqn:Hnat; cbn [negb] in Hk.
  - apply bind_inv in Hk as (s2 & dst & [-> Hdst%getIPPool_spec]%panics_inv & [= _ <-]). destruct dst as [q|].
    + cbn. intros (pool' & _ & _ & Hno). by apply in_pool_some in Hdst.
    + cbn. by exists pool.
  - injection Hk as _ <-. intros (pool' & Hp & Hnat' & _). assert (pool' = pool) as -> by (by eapply in_pool_unique). congruence.
Qed.
Lemma doMasquerade_inv h pkt out s s' : doMasquerade h pkt s = (s', Ok out) -> masqueraded h pkt out.
Proof.
  intros (s1 & b & Hnat%natted_inv & Hk)%bind_inv. destruct b; [left|right; by injection Hk as _ <-]. split; [done|].
  apply bind_inv in Hk as (s2 & [addr r] & [-> Hr]%lift_inv & [= <- <-]). eauto.
Qed.
Lemma masqueraded_Encap h pkt out : masqueraded h pkt out -> Encap_of out = Encap_of pkt.
Proof. intros [(_ & addr & r & _ & ->)|[_ ->]]; [by destruct pkt|done]. Qed.

Definition is_ipip (mode : CalicoNetworkMode) : bool := match mode with CalicoNetworkModeIPIP => true | _ => false end.
Lemma mode_spec h pkt (pool : option IPPool) : getIPPool (ch_ipPools h) (Dst pkt) = Ok pool ->
  if is_ipip (getNetworkModeFromIPPool (cr_network (ch_route h)) pool (Dst pkt)) then tunnelled h pkt else ¬ tunnelled h pkt.
Proof.
  intros Hp%getIPPool_spec. destruct pool as [pool|]; cbn; [|intros (q & Hq & _); by apply in_pool_some in Hq].
  assert (∀ q, in_pool (ch_ipPools h) (Dst pkt) q -> q = pool) as Hu by (intros q Hq; by eapply in_pool_unique).
  destruct (String.eqb_spec (pool_IPIPMode pool) "Always") as [Ha|Ha]; cbn; [exists pool; auto|].
  destruct (String.eqb_spec (pool_IPIPMode pool) "CrossSubnet") as [Hs|Hs]; cbn.
  - destruct (Contains_IP _ _) eqn:Hc; cbn; [|exists pool; auto].
    intros (q & Hq & [Hm|[_ Hm]]); pose proof (Hu q Hq) as ->; congruence.
  - intros (q & Hq & [Hm|[Hm _]]); pose proof (Hu q Hq) as ->; congruence.
Qed.

Lemma Encap_inv h out (n : Node) (mode : CalicoNetworkMode) pkt s s' : Encap h out (Some n) mode s = (s', Ok pkt) ->
  if is_ipip mode then sent_by_tunnel h out n pkt else pkt = out.
Proof.
  destruct mode; cbn; try by intros [= <- <-].
  intros (s1 & x & [-> [= <-]]%follow_inv & Hk)%bind_inv.
  destruct (node_Annotations n !! calico_address) as [text|] eqn:Ha; [|discriminate Hk].
  cbn [from_option id] in Hk. destruct (String.eqb text EmptyString); [discriminate Hk|].
  destruct (ParseCIDR_IP text) as [[addr net]|] eqn:Hp; [|discriminate Hk]. injection Hk as <- <-. exists text, addr, net. done.
Qed.
Lemma transmissionToNode_inv h pkt (node : option Node) s s' t : transmissionToNode api infra h pkt node s = (s', Ok (Some t)) ->
  ∃ n pool out p, node = Some n ∧ masqueraded h pkt out ∧ getIPPool (ch_ipPools h) (Dst pkt) = Ok pool ∧
    let ipip := is_ipip (getNetworkModeFromIPPool (cr_network (ch_route h)) pool (Dst pkt)) in
    (if ipip then sent_by_tunnel h out n p else p = out) ∧ t = MkTransmission NetNodeTypeNode (node_Name n) (length (links s)) ∧
    links s' = links s ++ [MkLink LinkInfra (ch_netNode h) None p (SimpleLinkAttribute (if ipip then CalicoTunnelInterface else ch_iface h) EmptyString) None].
Proof.
  intros (s1 & [] & E1 & Hk)%bind_inv. apply bind_inv in Hk as (s2 & [out|] & E2 & Hk); [|done].
  pose proof (doMasquerade_inv _ _ _ _ _ (attempt_inv _ _ _ _ E2)) as Hout. apply bind_inv in Hk as (s3 & [] & E3 & Hk).
  apply bind_inv in Hk as (s4 & pool & [-> Hpool]%panics_inv & Hk).
  apply bind_inv in Hk as (s5 & oif & E5 & Hk). apply bind_inv in Hk as (s6 & p & E6 & Hk).
  apply bind_inv in Hk as (s7 & i & [= <- <-] & Hk). apply bind_inv in Hk as (s8 & n & [-> ->]%follow_inv & [= <- <-]).
  set (mode := getNetworkModeFromIPPool _ _ _) in *.
  assert (links s6 = links s) as Hls.
  { assert (∀ (A : Type) (m : M manager A) x y a, no_link m -> m x = (y, Ok a) -> links y = links x) as Hno
      by (intros A m x y a Hm Hx; specialize (Hm x); by rewrite Hx in Hm).
    rewrite (Hno _ _ _ _ _ (no_link_Encap h out (Some n) mode) E6). trans (links s3).
    { eapply (Hno _ _ _ _ _ _ E5). Unshelve. destruct mode; auto with no_link. apply no_link_bind; [apply no_link_assertInterface|auto with no_link]. }
    trans (links s2).
    { eapply (Hno _ _ _ _ _ _ E3). Unshelve. destruct infra; [|auto with no_link]. apply no_link_bind; [auto with no_link|]. intros x.
      unfold add_infra. destruct (NodeToNode _ _ _ _ _); auto with no_link. }
    rewrite (Hno _ _ _ _ _ (no_link_attempt _ (no_link_doMasquerade h pkt)) E2).
    eapply (Hno _ _ _ _ _ _ E1). Unshelve. apply no_link_bind; [apply no_link_Assert_calico|intros _; apply no_link_Assert_calico]. }
  exists n, pool, out, p. cbv zeta. fold mode. split_and!; [done|done|done|by eapply Encap_inv|by rewrite Hls|].
  cbn [links set_links]. rewrite Hls. do 4 f_equal. destruct mode; cbn in E5 |- *; try by injection E5.
  by apply bind_inv in E5 as (s9 & [] & _ & [= _ <-]).
Qed.

(** C14: A Calico host that sends a packet to another node, in a transmission
    that is not lost, hands it to that very node over exactly one new link.
    The packet that the other side takes out of it is the one it was given; but
    if its source lies in a pool that asks for NAT and its destination in none,
    its source is that of the route to its destination.  If its destination lies
    in a pool whose mode is Always, or CrossSubnet and the address not in the
    network of the nodes, it goes through the tunnel, inside a packet from the
    host's address to the one of the node's annotation, and the receiving host
    sees it come in by its tunnel; otherwise it goes as it is, by the host's
    interface, and comes in by the other host's. *)
Theorem calico_hop h pkt (node : option Node) s s' t
    (Hplain : Encap_of pkt = None) (Hsent : transmissionToNode api infra h pkt node s = (s', Ok (Some t))) :
  ∃ n out l, node = Some n ∧ t = MkTransmission NetNodeTypeNode (node_Name n) (length (links s)) ∧
    links s' = links s ++ [l] ∧ l_Source l = ch_netNode h ∧ masqueraded h pkt out ∧ Decap (l_Packet l) = out ∧
    ((tunnelled h pkt ∧ sent_by_tunnel h out n (l_Packet l) ∧ l_SourceAttribute l = SimpleLinkAttribute CalicoTunnelInterface EmptyString ∧
      ∀ h', detectIif api h' (Some (link t)) s' = (s', Ok CalicoTunnelInterface)) ∨
     (¬ tunnelled h pkt ∧ l_Packet l = out ∧ l_SourceAttribute l = SimpleLinkAttribute (ch_iface h) EmptyString ∧
      ∀ h', detectIif api h' (Some (link t)) s' = (s', Ok (ch_iface h')))).
Proof.
  destruct (transmissionToNode_inv h pkt node s s' t Hsent) as (n & pool & out & p & -> & Hout & Hpool & Hw & -> & Hls). cbv zeta in *.
  pose proof (masqueraded_Encap _ _ _ Hout) as He. rewrite Hplain in He. pose proof (mode_spec h pkt pool Hpool) as Hmode.
  set (ipip := is_ipip _) in *. eexists n, out, _. split_and!; [done|done|exact Hls|done|done|..]; cbn [l_Packet l_SourceAttribute link].
  - destruct ipip; [destruct Hw as (? & ? & ? & _ & _ & ->)|subst p]; unfold Decap; by rewrite ?He.
  - assert (∀ h', detectIif api h' (Some (length (links s))) s' = (s', Ok (if ipip then CalicoTunnelInterface else ch_iface h'))) as Hiif.
    { intros h'. unfold detectIif, mbind, M_bind, get_link. rewrite Hls, list_lookup_middle by done. cbn [deref l_Type l_Packet].
      destruct ipip; [destruct Hw as (? & ? & ? & _ & _ & ->)|subst p]; by rewrite ?He. }
    destruct ipip; [left|right]; done.
Qed.

(** C37: For a pod on another node of the same subnet, whose pool uses the
    tunnel only across subnets, the route is checked to be a plain one through
    the interface of the host to that node; the packet, though, is sent through
    the tunnel whenever the pods' addresses are not in the network of the
    nodes, because the mode of the transmission is that of the pod's address
    and not of its node's. *)
Theorem calico_cross_subnet h pkt (pool : IPPool) (pod : Pod) (node : option Node) s :
  cr_ipPools (ch_route h) = ch_ipPools h -> getIPPool (ch_ipPools h) (Dst pkt) = Ok (Some pool) -> pool_IPIPMode pool = "CrossSubnet"%string ->
  built (ipcache s) = true -> podCache (ipcache s) !! IP_String (Dst pkt) = Some pod -> pod_NodeName pod ≠ cr_nodeName (ch_route h) ->
  Contains_IP (cr_network (ch_route h)) (parse_ip (pod_HostIP pod)) = true -> Contains_IP (cr_network (ch_route h)) (Dst pkt) = false ->
  Assert_calico api h pkt s =
    check (ch_netNode h) (AssertRoute (ns_Router (ch_ns h))
      (MkRouteAssertion (Some (cr_iface (ch_route h))) (Some ScopeUniverse) None None None (Some (parse_ip (pod_HostIP pod))) None) pkt EmptyString EmptyString) s ∧
  ∀ s' t, transmissionToNode api infra h pkt node s = (s', Ok (Some t)) ->
    ∃ l, links s' !! link t = Some l ∧ l_SourceAttribute l = SimpleLinkAttribute CalicoTunnelInterface EmptyString ∧ is_Some (Encap_of (l_Packet l)).
Proof.
  intros Hpools Hpool Hmode Hb Hpod Hname Hin Hout. split.
  - unfold Assert_calico, mbind, M_bind, panics at 1. rewrite Hpools, Hpool. unfold from_cluster, GetPodFromIP, reading, BuildClusterIPCache.
    rewrite Hb. rewrite Hpod. destruct (String.eqb_spec (pod_NodeName pod) (cr_nodeName (ch_route h))) as [?|_]; [done|].
    unfold getNetworkModeFromIPPool. rewrite Hmode, Hin. cbn. by destruct s.
  - intros s' t (n & pool' & out & p & -> & _ & Hpool' & Hw & -> & Hls)%transmissionToNode_inv.
    rewrite Hpool in Hpool'. injection Hpool' as <-.
    assert (getNetworkModeFromIPPool (cr_network (ch_route h)) (Some pool) (Dst pkt) = CalicoNetworkModeIPIP) as Hm
      by (unfold getNetworkModeFromIPPool; by rewrite Hmode, Hout).
    cbv zeta in Hw, Hls. rewrite Hm in Hw, Hls. cbn in Hw. destruct Hw as (? & ? & ? & _ & _ & ->). eexists. rewrite Hls. cbn [link]. rewrite list_lookup_middle by done.
    split; [done|]. split; [done|]. by eexists.
Qed.
End hops.

(** ** An example *)

Definition ex_cali_bgp (dst : IPNet) (oif : string) (gw : IP) (proto scope : Z) : Route_ := MkRoute 2 oif EmptyString scope (Some dst) [] gw proto 0 254 1 0 0.
Definition ex_cali_pod (i mtu : Z) : NetNSInfo :=
  MkNetNSInfo (if i =? 1 then "/proc/100/ns/net" else "/proc/200/ns/net") (if i =? 1 then "default/a" else "default/b")
    [ex_host_if "eth0" 3 mtu "veth" [MkIPNet [10; 244; i; 2] (CIDRMask 32 32)] [] [] 7 0; ex_host_if "lo" 1 65536 EmptyString [] [] [] 0 0]
    ∅ [ex_rt (ex_net4 0 0 0 0 0) "eth0" [169; 254; 1; 1] 0 1 254] ex_rules_ "<empty/>" [] ∅
    [MkConnStat "0.0.0.0" 80 EmptyString 0 "tcp" 0].
Definition ex_cali_host (i j : Z) (tunnel : bool) : NetNSInfo :=
  let veth := calicoVethName "default" (if i =? 1 then "a" else "b") in
  MkNetNSInfo hostnsKey EmptyString
    [ex_host_if "eth0" 2 1500 "virtio" [MkIPNet [192; 168; 0; i] (CIDRMask 24 32)] [] [] 0 0;
     ex_host_if "tunl0" 5 1480 "ipip" [MkIPNet [10; 244; i; 1] (CIDRMask 32 32)] [] [] 0 0;
     ex_host_if veth 7 1500 "veth" [] [] [] 3 0]
    (list_to_map [("net.ipv4.ip_forward", "1"); ("net.ipv4.conf.eth0.forwarding", "1"); ("net.ipv4.conf.tunl0.forwarding", "1"); (("net.ipv4.conf." ++ veth ++ ".forwarding"), "1")]%string)
    [ex_rt (ex_net4 192 168 0 0 24) "eth0" [] 253 1 254;
     ex_rt (ex_net4 10 244 i 2 32) veth [] 253 1 254;
     ex_cali_bgp (ex_net4 10 244 j 0 26) (if tunnel then "tunl0" else "eth0") [192; 168; 0; j] 12 0]
    ex_rules_ "<empty/>" [] ∅ [].
Definition ex_cali_dump (i j : Z) (tunnel : bool) : NodeNetworkStackDump :=
  MkDump [MkPodNetInfo (if i =? 1 then "a" else "b") "default" (if i =? 1 then "/proc/100/ns/net" else "/proc/200/ns/net") "none"]
    [ex_cali_host i j tunnel; ex_cali_pod i (if tunnel then 1480 else 1500)].
Definition ex_cali_collector (tunnel : bool) (n : string) : option NodeNetworkStackDump :=
  if String.eqb n "n1" then Some (ex_cali_dump 1 2 tunnel) else if String.eqb n "n2" then Some (ex_cali_dump 2 1 tunnel) else None.
Definition ex_cali_node (name ip : string) : Node :=
  MkNode name [ip] EmptyString {["kubernetes.io/os"%string := "linux"%string]} {[calico_address := (ip ++ "/24")%string]} [("Ready", "True")]%string.
Definition ex_cali_cluster : IPCache :=
  MkIPCache (list_to_map [("10.244.1.2"%string, ex_k8s_pod "a" "10.244.1.2" "n1"); ("10.244.2.2"%string, ex_k8s_pod "b" "10.244.2.2" "n2")])
    (list_to_map [("192.168.0.1"%string, ex_cali_node "n1" "192.168.0.1"); ("192.168.0.2"%string, ex_cali_node "n2" "192.168.0.2"); ("172.16.0.9"%string, ex_cali_node "n3" "172.16.0.9")])
    ∅ true.
Definition ex_cali_plugin (mode : string) : calicoPlugin := MkCalicoPlugin (MkCalicoOptions EmptyString 1500 [] [MkIPPool "10.244.0.0/16" mode true]) 1500 1480.
Definition ex_cali_run (mode : string) (tunnel : bool) (dst : Endpoint) :=
  calico_diagnose ex_api 10 ex_noproc None ex_read (ex_cali_collector tunnel) (ex_cali_plugin mode) 10
    (SkoopDiagnose.MkState ∅ (SkoopNode.MkState [] [] ex_cali_cluster 0 (MkManager ∅ ∅ ∅))) (MkEndpoint "10.244.1.2" EndpointTypePod 0) dst "tcp".

(** The host [n1] as it is made, a packet from its pod to the other one, and
    what it sends. *)
Definition ex_cali_world : state_of manager := SkoopNode.MkState [] [] ex_cali_cluster 0 (MkManager ∅ ∅ ∅).
Definition ex_cali_made (mode : string) (tunnel : bool) : option (state_of manager * calicoHost) :=
  match make_calico_host ex_api ex_read (ex_cali_collector tunnel) (ex_cali_plugin mode) "n1" ex_cali_world with
  | (s, Ok (CalicoNode h)) => Some (s, h)
  | _ => None
  end.
Definition ex_cali_pkt : Packet := MkPacket (IPv4 10 244 1 2) 0 (IPv4 10 244 2 2) 80 "tcp" None 0.
Definition ex_ipip := Eval vm_compute in the (ex_cali_made "Always" true).
Definition ex_cross := Eval vm_compute in the (ex_cali_made "CrossSubnet" false).
Definition ex_cali_n2 : Node := ex_cali_node "n2" "192.168.0.2".
Definition ex_sent (made : state_of manager * calicoHost) : option (state_of manager * SkoopDiagnose.Transmission nat) :=
  match transmissionToNode ex_api None made.2 ex_cali_pkt (Some ex_cali_n2) made.1 with (s, Ok (Some t)) => Some (s, t) | _ => None end.
Definition ex_cross_sent := Eval vm_compute in the (ex_sent ex_cross).
Definition ex_ipip_sent := Eval vm_compute in the (ex_sent ex_ipip).

Lemma calico_hop_witness :
  ∃ l, links ex_ipip_sent.1 = links ex_ipip.1 ++ [l] ∧ hop_ID ex_ipip_sent.2 = "n2"%string ∧ Decap (l_Packet l) = ex_cali_pkt ∧ is_Some (Encap_of (l_Packet l)).
Proof.
  destruct (calico_hop ex_api None ex_ipip.2 ex_cali_pkt (Some ex_cali_n2) ex_ipip.1 ex_ipip_sent.1 ex_ipip_sent.2 eq_refl) as (n & out & l & Hn & Ht & Hl & _).
  - vm_compute. reflexivity.
  - exists l. split; [exact Hl|]. injection Hn as <-. rewrite Ht. split; [reflexivity|]. vm_compute in Hl. injection Hl as <-. split; [reflexivity|by eexists].
Defined.
Lemma calico_cross_subnet_witness :
  ∃ l, links ex_cross_sent.1 !! link ex_cross_sent.2 = Some l ∧ is_Some (Encap_of (l_Packet l)).
Proof.
  destruct (calico_cross_subnet ex_api None ex_cross.2 ex_cali_pkt (MkIPPool "10.244.0.0/16" "CrossSubnet" true) (ex_k8s_pod "b" "10.244.2.2" "n2") (Some ex_cali_n2) ex_cross.1) as [_ Hsent].
  all: try (vm_compute; reflexivity).
  - vm_compute. discriminate.
  - destruct (Hsent ex_cross_sent.1 ex_cross_sent.2) as (l & Hl & _ & He); [vm_compute; reflexivity|]. by exists l.
Defined.

(** The verdict of a diagnosis, and what it leaves: its links with their ends,
    and the suspicions of every node. *)
Definition outcome (mode : string) (tunnel : bool) (dst : Endpoint) :=
  (λ x, (x.2, (λ l, (l_Source l, l_Destination l, l_SourceAttribute l)) <$> links (SkoopDiagnose.world x.1),
    (λ n, (nn_ID n, nn_Suspicions n)) <$> nodes (SkoopDiagnose.world x.1))) <$> ex_cali_run mode tunnel dst.

(** From pod to pod, on healthy nodes, in either mode, nothing is suspected
    and the path is the one expected. *)
Example calico_modes :
  let path oif1 oif2 := [(0%nat, Some 1%nat, VEthLinkAttribute "eth0" "10.244.1.2" 7); (1%nat, Some 2%nat, SimpleLinkAttribute oif1 EmptyString);
    (2%nat, Some 3%nat, SimpleLinkAttribute oif2 EmptyString)] in
  let clean := [("default/a", []); ("n1", []); ("n2", []); ("default/b", [])]%string in
  let b := MkEndpoint "10.244.2.2" EndpointTypePod 80 in
  outcome "Never" false b = Some (Ok ([], Some 0%nat, None), path "eth0"%string (calicoVethName "default" "b"), clean) ∧
  outcome "Always" true b = Some (Ok ([], Some 0%nat, None), path "tunl0"%string (calicoVethName "default" "b"), clean).
Proof. split; vm_compute; reflexivity. Qed.

(** A pod's packet for a node that its own node has no route to is
    dropped by the diagnosis of a Calico network without a word: the error of
    the lookup that NAT needs is replaced by an empty transmission, so that the
    diagnosis ends without an error, the path stops at the pod's node and no
    node has a suspicion. *)
Theorem calico_lost :
  outcome "Always" true (MkEndpoint "172.16.0.9" EndpointTypeNode 80) =
    Some (Ok ([], Some 0%nat, None), [(0%nat, Some 1%nat, VEthLinkAttribute "eth0" "10.244.1.2" 7)], [("default/a", []); ("n1", [])]%string) ∧
  RouteSrc (ns_Router (ch_ns ex_ipip.2)) (first_packet (MkEndpoint "172.16.0.9" EndpointTypeNode 80) "tcp") EmptyString EmptyString = Err ErrNoRouteToHost.
Proof. split; vm_compute; reflexivity. Qed.
End SkoopCalicoFacts.
